(* ===== verification/_CoqProject ===== *)
-Q . S2P
Prelude.v
Runs.v
Paths.v
PyDate.v
PyTime.v
Codec.v
Durations.v
Models.v
SourceSync.v
Situations.v
Delivery.v
StateMachine.v
Resolution.v
DeliveryRefinement.v
Attention.v
Responses.v
Fallback.v
Runtime.v
Memory.v
IsoTime.v
MemoryStore.v
MemoryTools.v
CalendarConflict.v
PersonalOccasion.v
DeadlineText.v
ReplyDeadline.v
Transport.v
Config.v
CalendarSource.v
GmailProjection.v
GmailSource.v
Health.v
Engine.v
GoogleSync.v
Evaluation.v
Frames.v
Credentials.v
CredentialRegister.v
GoogleSetup.v
Tools.v
ToolCalls.v
Registration.v
Status.v
Notify.v
Services.v
SystemdUnit.v
Systemd.v
Launchd.v
LaunchAgent.v
Darwin.v
MacHost.v
PrivatePaths.v
PrivateFiles.v
PosixHost.v
WindowsPaths.v
WindowsSafety.v
NtHost.v
Migrations.v
Database.v
StoreFacade.v
DatabaseSafety.v
PosixResources.v
WindowsResources.v
StoreHost.v
TaskManager.v
TaskDefinition.v
TaskScheduler.v
WinHost.v
Service.v
Wizard.v
Watcher.v
Commands.v
