(* ===== verification/Prelude.v ===== *)
(** * proactive-mcp: a verification of the program

    proactive-mcp keeps one SQLite database of situations that deserve the user's attention: a
    mail that waits for an answer, two meetings at the same time, a birthday that comes near.  A
    daemon and the MCP tools evaluate the sources, an attention policy decides what may be
    delivered now, and a host confirms what it received.  Around this core are the credential of
    the Google account, the private files that hold it, the service that starts the daemon on three
    platforms, and a command line.  This library models all of them as executable functions and
    proves what the parts and their composition promise.  File names in square brackets are those
    under [src/src/proactive_mcp/].

    ** The program and its model

    The database is one record of tables, [Models.db]; the memories have their own,
    [Memory.memory_db].  An operation is a function of the state-and-error monad [M] of this file:
    it returns a value or raises an exception of a sum type, and gives the state it leaves.  An
    [ImmediateTransaction] of [store/_sqlite_transaction.py] is [immediate_transaction]: an
    exception gives back the state of its start.  A SQL statement is a function on the list of rows
    of its table ([sql_update], [sql_select], [sql_find], [order_by], ...).  The clock is an
    argument: every place where the code reads it has its own instant, so that readings may differ
    within one call, and a reading in a loop is a function of the rounds before it
    ([Fallback.dispatch]).  Instants are microseconds, the stored texts are their ISO forms, and
    comparisons of texts are shown to be comparisons of instants where the code relies on it.
    An operation that also reads the network acts on a pair of a world and the database
    ([GoogleSync.pass]).

    Code that acts on the operating system acts on a world of any type [W].  The calls it makes are
    a type class ([PrivatePaths.PosixCalls], [WindowsPaths.Win32], [Migrations.Connection],
    [Credentials.Backends], ...) that says nothing of what they do; a second class of the same world says
    what can be observed, and laws over both state the documented behaviour of the calls, failures
    included.  Where the state of the outside is known only in part the law is a relation: what the
    scheduler exports of a task it registered ([TaskScheduler.TaskLaws]), the lists a directory hands
    down ([WindowsSafety]), the readings of a private file ([CredentialRegister]).  A close and an unlock may
    fail too: [DatabaseSafety.Released] has the rules for runs in which none did.  The theorems hold
    for every world with the laws; the [*Host] files build one, and the
    witnesses run the program in it.  [Runs] holds the rules for such runs: [wp m Q w] says that [Q]
    holds of the outcome and the world left by [m] from [w].

    The files, in the order they build on each other:

    - [Prelude]: results, the monad, what every run preserves ([Preserves]), tables and ordering.
      [Runs]: [wp], [try_except], [finally_do] and their rules.  [Paths]: [paths.py] and the lexical
      part of [pathlib].
    - [PyDate], [PyTime], [IsoTime], [Codec], [Durations]: Python's dates, instants, zones, ISO
      texts, base64, UTF-8, float timestamps and float durations, as far as the source uses them,
      with [situations/_dates.py] and [store/_situation_time.py].
    - [Models]: the closed enumerations, records, exceptions and tables of [store/].
    - [SourceSync], [Health]: [store/_source_generation.py], [_sync_source_state.py],
      [_sync_diagnostics.py], [sync.py], [freshness.py] and [_sync_snapshot.py].
    - [Situations]: [store/_situation_reader.py], [_situation_sql.py], [_situation_upsert.py],
      [_situation_consistency.py] and [situations.py].  [StateMachine] holds the invariant [db_ok]
      and the step relation of all calls; [Resolution] says which rows an operation may close.
    - [Delivery]: [store/_situation_claim.py], [_delivery_eligibility.py], [_delivery_receipt.py].
      [DeliveryRefinement] is its abstract specification, one greedy pass with two counters.
    - [Attention]: [situations/policy.py].  [Fallback]: [store/fallbacks.py],
      [delivery/payload.py] and [delivery/fallback.py].
    - [Runtime]: [store/daemon_status.py], [_lazy_sync_lease.py], [_evaluation_gate.py],
      [collectors.py].
    - [Memory], [MemoryStore], [MemoryTools]: [store/_memory_*.py], [store/memory.py] and the
      memory tools of [server/].
    - [CalendarConflict], [PersonalOccasion], [DeadlineText], [ReplyDeadline]: the detectors.
    - [Config]: [config.py], [config_parse.py], [config_raw.py].
    - [Transport], [CalendarSource], [GmailProjection], [GmailSource], [GoogleSync]: the budgeted
      reads of [sources/], their parsers, and what a read records or prepares.
    - [Engine]: [situations/engine.py].  [Evaluation]: [sources/lazy_sync.py] and
      [delivery/evaluation.py].  [Frames]: the tables a pass leaves alone.
    - [Credentials]: [sources/credentials.py] and its [_credential_*.py]; [CredentialRegister] is
      its abstract specification.  [GoogleSetup]: [sources/oauth.py], [_oauth_flow.py],
      [_oauth_logging.py], [_google_setup.py] and [sources/__init__.py].
    - [Responses], [Tools], [Status]: the delivery tools of [server/], their answers, their wiring
      from [situations/runtime.py], and the status document.  [ToolCalls] composes the calls of all
      tools into steps of [StateMachine]; [Registration] is [server/__init__.py].
    - [Notify]: [delivery/notify.py] and [cli/setup_notification.py].
    - [Services]: what the managers of the three platforms share ([cli/service_models.py],
      [service_invocation.py]).  [SystemdUnit], [Systemd]: [cli/service_unit.py],
      [service_systemd.py], [service.py].  [Launchd], [LaunchAgent], [Darwin], with [MacHost]:
      [cli/service_launchd.py], [service_launchagent.py], [service_darwin*.py].  [TaskManager],
      [TaskDefinition], [TaskScheduler], with [WinHost]: [cli/service_task_scheduler*.py] and
      [service_win32.py].  [Service]: [cli/service_backend.py] and the command over all of them.
    - [PrivatePaths], [PrivateFiles], with [PosixHost]: [store/_posix_identity.py],
      [_posix_private_path.py], [private_path.py], [private_file.py].  [WindowsPaths], with its
      promises in [WindowsSafety] and [NtHost]: [store/_windows_bindings.py], [_windows_dacl.py],
      [windows_path.py].
    - [Migrations], [Database], [StoreFacade], [DatabaseSafety]: [store/migrations/__init__.py],
      [migrate.py], [_database_*.py] and [database.py].  What a platform's private paths promise the
      store is the class [DatabaseSafety.StorageLaws], kept by [PosixResources] and
      [WindowsResources]; [StoreHost] has a process of each kind.
    - [Watcher]: [delivery/daemon.py], [scheduler.py] and the command of [cli/daemon.py].
    - [Wizard], [Commands]: [cli/setup_wizard.py], [process_liveness.py] and [cli/__init__.py].

    ** What is proved

    - From a check to its confirmation (Tools, Attention, DeliveryRefinement, Delivery): a check
      leases what it reports and delivers nothing; confirming its token in time delivers exactly
      the reported rows, once; the claims and leases refine the greedy specification, and stay
      within the daily budget in every time zone whose midnights do not run backwards.
    - All clear (Tools, Evaluation, Engine, Status): a check, a pass or a status that reports no
      trouble may be believed, down to the readers having returned complete reads.
    - Situations (StateMachine, ToolCalls, Resolution, Engine): every reachable database is well
      formed, rows move only along the state machine, nothing is lost, and a situation is resolved
      only on the evidence of a read.  A snooze ends on time.
    - Reads (Transport, CalendarSource, GmailSource, GoogleSync): what every request asks for and
      the budgets over a pass, completeness of what is returned, accounting of every thread, and
      snapshots and records that say what each reader answered.
    - Coordination (Runtime, Evaluation, Watcher): lazy reads pass their gates, generations only
      grow, and the daemon's row tells what happened whatever ends its run.
    - Detectors: the conflict sweep finds what comparing all pairs finds; due memories are covered
      once; deadline quotes are quotes; reply candidates are justified.
    - Memories and settings: constraints hold over all calls, repeats merge, paging enumerates,
      and accepted settings are in range.  The parser's errors that [load_config] does not name are
      values of [Config.ConfigFile] and escape.
    - The account (CredentialRegister, GoogleSetup): the credential store refines a register as
      long as the marker can be read; a setup stores before it configures, and reports a failure
      after that only when the close of the database fails; after a disconnection nothing is read.
    - The service (Systemd, Darwin, TaskScheduler, Service): an install or a removal succeeds with
      what it promises, its heartbeat being that of the process the manager names, or rolls back;
      rendered units and tasks start what they name; one answer per command, of its own action.  A
      notification runs the trusted executable only, in an environment read from [os.environ] as
      the platform spells it.
    - The store as a resource (PrivateFiles, WindowsSafety, Migrations, DatabaseSafety): private
      files are whole, on Windows they are the user's alone, migrations are atomic, and what an open
      took is given back on either kind of platform unless giving it back fails.
    - The command line (Wizard, Commands, Registration): the questions end and show no answer, the
      exit codes, and which requests a profile serves.

    The model also showed faults of the code.  They are stated as lemmas next to the definitions
    they are about: [MemoryStore.week_date_accepted_but_not_parsed],
    [DeadlineText.long_s_month_raises], [CalendarSource.extreme_event_raises],
    [Config.aware_quiet_hour_is_accepted], [Config.tiny_span_is_zero],
    [CredentialRegister.unreadable_tombstone_is_ignored], [Systemd.truncated_units_are_orphaned],
    [WinHost.busy_ready_files_skip_the_rollback], [GoogleSetup.unclosed_setups_are_configured],
    [Notify.module_path_reaches_powershell], [StoreHost.missing_package_keeps_the_store] and
    [StoreHost.failing_close_keeps_the_directory].

    ** Bounds and fuel

    Loops over lists recurse on the list.  The paged reads recurse on the page limits of the code.
    [GmailProjection.walk_parts] has fuel above the size of the part tree, and
    [GmailProjection.walk_parts_fuel] shows that more changes nothing.
    [Fallback.dispatch] has fuel one above the number of rows; [Watcher.dispatch_all_total] shows
    that it never runs out.  [Watcher.watch] stands for an endless loop, and
    [Watcher.continuous_runs_end] shows that fuel beyond the pass at which the scheduler stops is
    enough.  [MemoryTools.tool_pages] is a client, and ends with fuel above the number of entities.
    The regular expressions of [DeadlineText] repeat at most as often as the text is long.
    The questions of [Wizard] have one turn per line left and one for the end of the input.
    [Darwin.wait_loop] has fuel for its deadline: [Darwin.readiness_wait_ends] shows that 300 rounds
    are enough for a clock that moves by the interval it sleeps.  The write loop of [LaunchAgent] has
    as many rounds as there are bytes, since a round writes one or fails.
    Integers are unbounded in Python; instants are checked against the range of [datetime]
    wherever an operation can leave it.

    ** Not modelled

    Parameters stand for what the repository does not contain: the Unicode tables ([Memory.Unicode],
    [DeadlineText.CharTables]), the zone database, pydantic's validation and JSON, [html.parser],
    [email.utils.parseaddr], the HTTP session, the keyring and the OAuth library, the service
    managers and their subprocesses, [plistlib] and the XML parser, SQLite below the rows, the hash
    of a receipt token and the random tokens, the platform's process table, the event the scheduler
    waits on, and the protocol library that dispatches the tools.  Theorems hold for all of them,
    with the laws they need as hypotheses.  Another process that writes the database between two
    transactions is modelled by the sequences of calls of [StateMachine] and by the generation
    theorems; during the network reads of one pass the model assumes that the world does not write
    it.  Left out: the statements in the packaged SQL files, which are data to [Migrations] and
    whose tables and constraints are what [Models] and [Memory] state; the argument parser; the
    re-exports of [__init__.py] files; the [ctypes] argument types of [store/_windows_bindings.py],
    which say how the calls of [WindowsPaths.Win32] are passed. *)
From stdpp Require Export prelude strings pretty sorting.
From Stdlib Require Export ZArith Lia.
From Stdlib Require Import Ascii Structures.OrdersTac Structures.Orders.

#[export] Set Default Goal Selector "!".

(** * Results and effects *)

(** The outcome of a computation that may raise: [E] is the exception type. *)
Inductive res (E A : Type) : Type :=
  | Ok (a : A)
  | Err (e : E).
Arguments Ok {_ _} _.
Arguments Err {_ _} _.

#[export] Instance res_ret {E} : MRet (res E) := λ A a, Ok a.
#[export] Instance res_bind {E} : MBind (res E) := λ A B f m,
  match m with Ok a => f a | Err e => Err e end.
#[export] Instance res_fmap {E} : FMap (res E) := λ A B f m,
  match m with Ok a => Ok (f a) | Err e => Err e end.

(** Runs the bind of a result that is known. *)
Ltac res_step := cbn [mbind res_bind mret res_ret].

Lemma res_bind_ok {E A B} (m : res E A) (f : A → res E B) b :
  m ≫= f = Ok b ↔ ∃ a, m = Ok a ∧ f a = Ok b.
Proof. destruct m as [a|e]; split; [by exists a|by intros (? & [= <-] & ?)|done|by intros (? & ? & _)]. Qed.
(** Takes a computation that returned apart, bind by bind. *)
Ltac res_inv H :=
  repeat (let x := fresh "x" in let Hx := fresh "Hx" in
          apply (proj1 (res_bind_ok _ _ _)) in H as (x & Hx & H)).

(** A statement run against the store: the state survives an exception, as the
    rows written before a [raise] stay in an open transaction until it is
    rolled back. *)
Definition M (S E A : Type) : Type := S → res E A * S.

#[export] Instance M_ret {S E} : MRet (M S E) := λ A a s, (Ok a, s).
#[export] Instance M_bind {S E} : MBind (M S E) := λ A B f m s,
  match m s with
  | (Ok a, s') => f a s'
  | (Err e, s') => (Err e, s')
  end.

Definition raise {S E A} (e : E) : M S E A := λ s, (Err e, s).
Definition gets {S E A} (f : S → A) : M S E A := λ s, (Ok (f s), s).
Definition modify {S E} (f : S → S) : M S E unit := λ s, (Ok tt, f s).
Definition lift {S E A} (r : res E A) : M S E A := λ s, (r, s).

(** [ImmediateTransaction]: commit on a normal exit, roll back on an exception. *)
Definition immediate_transaction {S E A} (body : M S E A) : M S E A := λ s,
  match body s with
  | (Ok a, s') => (Ok a, s')
  | (Err e, _) => (Err e, s)
  end.

(** A [for] loop that accumulates, in the order of the list. *)
Fixpoint for_each {S E A B} (f : B → A → M S E B) (acc : B) (l : list A) : M S E B :=
  match l with
  | [] => mret acc
  | x :: l' => acc' ← f acc x; for_each f acc' l'
  end.

Section Effects.
Context {S E : Type}.

Lemma bind_ok {A B} (m : M S E A) (f : A → M S E B) s b s' :
  (m ≫= f) s = (Ok b, s') ↔
  ∃ a s1, m s = (Ok a, s1) ∧ f a s1 = (Ok b, s').
Proof.
  unfold mbind, M_bind. destruct (m s) as [[a|e] s1]; split.
  - eauto.
  - intros (? & ? & ? & ?). by simplify_eq.
  - done.
  - intros (? & ? & ? & ?). by simplify_eq.
Qed.

(** Running a sequence one statement at a time. *)
Lemma gets_bind {A B} (g : S → A) (f : A → M S E B) s : (gets g ≫= f) s = f (g s) s.
Proof. done. Qed.
Lemma modify_bind {B} g (f : unit → M S E B) s : (modify g ≫= f) s = f tt (g s).
Proof. done. Qed.
Lemma mret_bind {A B} (a : A) (f : A → M S E B) s : (mret a ≫= f) s = f a s.
Proof. done. Qed.
Lemma lift_ok_bind {A B} (a : A) (f : A → M S E B) s : (lift (Ok a) ≫= f) s = f a s.
Proof. done. Qed.
Lemma raise_bind {A B} (e : E) (f : A → M S E B) s : (raise e ≫= f) s = (Err e, s).
Proof. done. Qed.

Lemma bind_run {A B} (m : M S E A) (f : A → M S E B) s a s' :
  m s = (Ok a, s') → (m ≫= f) s = f a s'.
Proof. intros H. unfold mbind, M_bind. by rewrite H. Qed.

(** An exception leaves the committed rows as they were before [BEGIN]. *)
Lemma transaction_rolls_back {A} (body : M S E A) s e s' :
  immediate_transaction body s = (Err e, s') → s' = s.
Proof.
  unfold immediate_transaction. destruct (body s) as [[a|e'] s1]; by intros [=].
Qed.

Lemma transaction_ok {A} (body : M S E A) s a s' :
  immediate_transaction body s = (Ok a, s') ↔ body s = (Ok a, s').
Proof.
  unfold immediate_transaction. destruct (body s) as [[a'|e'] s1]; split; congruence.
Qed.

(** The loop rule for a run that returns: an invariant of the accumulator
    and of the state. *)
Lemma for_each_ok_inv {A B} (f : B → A → M S E B) (I : B → S → Prop) l acc s r s' :
  for_each f acc l s = (Ok r, s') →
  I acc s →
  (∀ b x st b' st', x ∈ l → I b st → f b x st = (Ok b', st') → I b' st') →
  I r s'.
Proof.
  revert acc s. induction l as [|x l IH]; intros acc s; simpl.
  - unfold mret, M_ret. by intros [= <- <-].
  - rewrite bind_ok. intros (b & s1 & Hf & Hrest) HI Hstep.
    eapply IH; [exact Hrest| |].
    + eapply Hstep; [|exact HI|exact Hf]. set_solver.
    + intros ??????. apply Hstep. set_solver.
Qed.

(** A loop whose body never raises returns. *)
Lemma for_each_total {A B} (f : B → A → M S E B) l acc s :
  (∀ b x st, x ∈ l → ∃ b' st', f b x st = (Ok b', st')) →
  ∃ r s', for_each f acc l s = (Ok r, s').
Proof.
  revert acc s. induction l as [|x l IH]; intros acc s Hf; simpl; [by eexists _, _|].
  destruct (Hf acc x s) as (b & s1 & Hb); [set_solver|].
  unfold mbind, M_bind. rewrite Hb. apply IH. intros ????. apply Hf. set_solver.
Qed.
End Effects.

Create HintDb effects discriminated.
#[export] Hint Rewrite @gets_bind @modify_bind @mret_bind @lift_ok_bind @raise_bind : effects.
(** Runs the leading reads and writes of an operation. *)
Ltac step := autorewrite with effects; cbv beta.

(** ** What every run of an operation preserves

    [Preserves R m]: whatever its outcome, a run of [m] relates the state before
    to the state after by [R].  For a preorder [R] the instances below derive it
    for a composed operation from its statements, so that a property of a whole
    handler follows from the property of each SQL statement. *)
Class Preserves {S E A} (R : relation S) (m : M S E A) : Prop :=
  preserves s r s' : m s = (r, s') → R s s'.
#[export] Hint Mode Preserves ! ! ! ! ! : typeclass_instances.

Section Preserves.
Context {S E : Type} (R : relation S) `{!PreOrder R}.

#[export] Instance preserves_ret {A} (a : A) : Preserves R (mret a : M S E A).
Proof. intros s r s' [= <- <-]. reflexivity. Qed.

#[export] Instance preserves_bind {A B} (m : M S E A) (f : A → M S E B) :
  Preserves R m → (∀ a, Preserves R (f a)) → Preserves R (m ≫= f).
Proof.
  intros Hm Hf s r s'. unfold mbind, M_bind. destruct (m s) as [[a|e] s1] eqn:Hms.
  - intros Hfs. trans s1; [by eapply Hm|by eapply Hf].
  - intros [= <- <-]. by eapply Hm.
Qed.

(** The continuation may use what the first part returned and where it ended. *)
Lemma preserves_bind_post {A B} (m : M S E A) (f : A → M S E B) :
  Preserves R m →
  (∀ s a s', m s = (Ok a, s') → ∀ r s'', f a s' = (r, s'') → R s' s'') →
  Preserves R (m ≫= f).
Proof.
  intros Hm Hf s r s'. unfold mbind, M_bind. destruct (m s) as [[a|e] s1] eqn:Hms.
  - intros Hfs. trans s1; [by eapply Hm|by eapply Hf].
  - intros [= <- <-]. by eapply Hm.
Qed.

#[export] Instance preserves_raise {A} (e : E) : Preserves R (raise e : M S E A).
Proof. intros s r s' [= <- <-]. reflexivity. Qed.

#[export] Instance preserves_gets {A} (f : S → A) : Preserves R (gets f : M S E A).
Proof. intros s r s' [= <- <-]. reflexivity. Qed.

#[export] Instance preserves_lift {A} (x : res E A) : Preserves R (lift x : M S E A).
Proof. intros s r s' [= <- <-]. reflexivity. Qed.

Lemma preserves_modify (f : S → S) : (∀ s, R s (f s)) → Preserves R (modify f : M S E unit).
Proof. intros Hf s r s' [= <- <-]. apply Hf. Qed.

#[export] Instance preserves_transaction {A} (m : M S E A) :
  Preserves R m → Preserves R (immediate_transaction m).
Proof.
  intros Hm s r s'. unfold immediate_transaction. destruct (m s) as [[a|e] s1] eqn:Hms.
  - intros [= <- <-]. by eapply Hm.
  - intros [= <- <-]. reflexivity.
Qed.

#[export] Instance preserves_for_each {A B} (f : B → A → M S E B) l acc :
  (∀ b x, Preserves R (f b x)) → Preserves R (for_each f acc l).
Proof.
  intros Hf. revert acc. induction l as [|x l IH]; intros acc; simpl; [apply _|].
  apply preserves_bind; [apply Hf|apply IH].
Qed.

#[export] Instance preserves_if {A} (b : bool) (m1 m2 : M S E A) :
  Preserves R m1 → Preserves R m2 → Preserves R (if b then m1 else m2).
Proof. by destruct b. Qed.

#[export] Instance preserves_option {A C} (o : option C) (f : C → M S E A) (m : M S E A) :
  (∀ c, Preserves R (f c)) → Preserves R m →
  Preserves R (match o with Some c => f c | None => m end).
Proof. by destruct o. Qed.
End Preserves.

(** * Tables: rows in rowid order *)

(** [UPDATE t SET f WHERE p]: the new rows. *)
Definition sql_update {A} (p : A → bool) (f : A → A) (rows : list A) : list A :=
  (λ r, if p r then f r else r) <$> rows.

(** [cursor.rowcount] of an [UPDATE]/[DELETE], and [SELECT COUNT( * ) WHERE p]. *)
Definition sql_count {A} (p : A → bool) (rows : list A) : Z :=
  Z.of_nat (length (filter (λ r, p r = true) rows)).

(** [SELECT * WHERE p] in rowid order. *)
Definition sql_select {A} (p : A → bool) (rows : list A) : list A :=
  filter (λ r, p r = true) rows.

(** [EXISTS (SELECT 1 WHERE p)]. *)
Definition sql_exists {A} (p : A → bool) (rows : list A) : bool := existsb p rows.

(** [DELETE WHERE p]: the rows that stay. *)
Definition sql_delete {A} (p : A → bool) (rows : list A) : list A :=
  filter (λ r, p r = false) rows.

(** [INSERT ... ON CONFLICT(key) DO UPDATE]: [p] tests the conflicting key. *)
Definition sql_upsert {A} (p : A → bool) (new : A) (f : A → A) (rows : list A) : list A :=
  if sql_exists p rows then sql_update p f rows else rows ++ [new].

(** The row of a key, as [fetchone] returns it. *)
Definition sql_find {A} (p : A → bool) (rows : list A) : option A := head (sql_select p rows).

(** SQLite gives a new row the largest rowid plus one. *)
Definition next_rowid (rowids : list Z) : Z := (foldr Z.max 0 rowids + 1)%Z.

Lemma next_rowid_fresh rowids i : i ∈ rowids → (i < next_rowid rowids)%Z.
Proof.
  unfold next_rowid. induction rowids as [|j rowids IH]; [by intros ?%elem_of_nil|].
  intros [->|Hin]%elem_of_cons; simpl; [lia|]. specialize (IH Hin). lia.
Qed.

Lemma next_rowid_positive rowids : (0 < next_rowid rowids)%Z.
Proof. unfold next_rowid. induction rowids; simpl in *; lia. Qed.

(** A unique column tells rows apart. *)
Lemma NoDup_fmap_eq {A B} (key : A → B) l x y :
  NoDup (key <$> l) → x ∈ l → y ∈ l → key x = key y → x = y.
Proof.
  intros Hnd [i Hi]%list_elem_of_lookup [j Hj]%list_elem_of_lookup Heq.
  assert (i = j) as ->; [|congruence].
  eapply NoDup_lookup; [exact Hnd| |]; rewrite list_lookup_fmap.
  - by rewrite Hi.
  - rewrite Hj. simpl. by rewrite Heq.
Qed.

Section Tables.
Context {A : Type}.
Implicit Types (p q : A → bool) (f : A → A) (rows : list A).

Lemma elem_of_sql_select p rows r : r ∈ sql_select p rows ↔ p r = true ∧ r ∈ rows.
Proof. unfold sql_select, sql_delete. by rewrite list_elem_of_filter. Qed.

Lemma elem_of_sql_delete p rows r : r ∈ sql_delete p rows ↔ p r = false ∧ r ∈ rows.
Proof. unfold sql_select, sql_delete. by rewrite list_elem_of_filter. Qed.

Lemma elem_of_sql_update p f rows r' :
  r' ∈ sql_update p f rows ↔ ∃ r, r' = (if p r then f r else r) ∧ r ∈ rows.
Proof. unfold sql_update. by rewrite list_elem_of_fmap. Qed.

Lemma sql_exists_true p rows : sql_exists p rows = true ↔ ∃ r, r ∈ rows ∧ p r = true.
Proof.
  unfold sql_exists. rewrite existsb_exists.
  split; intros (r & ? & ?); exists r; by rewrite list_elem_of_In in *.
Qed.

Lemma sql_exists_false p rows : sql_exists p rows = false ↔ ∀ r, r ∈ rows → p r = false.
Proof.
  rewrite <- not_true_iff_false, sql_exists_true. split.
  - intros H r Hr. destruct (p r) eqn:?; [|done]. exfalso. eauto.
  - intros H (r & Hr & Hp). specialize (H r Hr). congruence.
Qed.

Lemma sql_select_app p rows1 rows2 :
  sql_select p (rows1 ++ rows2) = sql_select p rows1 ++ sql_select p rows2.
Proof. apply filter_app. Qed.

Lemma sql_exists_ext p q rows : (∀ r, p r = q r) → sql_exists p rows = sql_exists q rows.
Proof. intros H. unfold sql_exists. induction rows as [|r rows IH]; [done|]. simpl. by rewrite H, IH. Qed.

Lemma sql_select_and p q rows :
  sql_select (λ r, p r && q r) rows = sql_select p (sql_select q rows).
Proof.
  unfold sql_select. rewrite list_filter_filter. apply list_filter_iff. intros r.
  by rewrite andb_true_iff.
Qed.

Lemma sql_select_all p rows : (∀ r, r ∈ rows → p r = true) → sql_select p rows = rows.
Proof.
  unfold sql_select. induction rows as [|r rows IH]; intros H; [done|].
  rewrite filter_cons_True by (apply H; left). f_equal. apply IH. intros. apply H. by right.
Qed.

Lemma sql_select_none p rows : (∀ r, r ∈ rows → p r = false) → sql_select p rows = [].
Proof.
  unfold sql_select. induction rows as [|r rows IH]; intros H; [done|].
  rewrite filter_cons_False by (rewrite H; [done|left]). apply IH. intros. apply H. by right.
Qed.

Lemma sql_select_delete p q rows :
  sql_select p (sql_delete q rows) = sql_select (λ r, p r && negb (q r)) rows.
Proof.
  unfold sql_select, sql_delete. rewrite list_filter_filter. apply list_filter_iff. intros r.
  by rewrite andb_true_iff, negb_true_iff.
Qed.

Lemma sql_count_nonneg p rows : (0 ≤ sql_count p rows)%Z.
Proof. unfold sql_count. lia. Qed.

Lemma sql_count_nil p : sql_count p [] = 0%Z.
Proof. done. Qed.

Lemma sql_count_cons p r rows :
  sql_count p (r :: rows) = ((if p r then 1 else 0) + sql_count p rows)%Z.
Proof.
  unfold sql_count. destruct (p r) eqn:Hp.
  - rewrite filter_cons_True by done. simpl. lia.
  - rewrite filter_cons_False by congruence. lia.
Qed.

Lemma sql_count_app p rows1 rows2 :
  sql_count p (rows1 ++ rows2) = (sql_count p rows1 + sql_count p rows2)%Z.
Proof. unfold sql_count. rewrite filter_app, length_app. lia. Qed.

Lemma sql_count_zero p rows : sql_count p rows = 0%Z ↔ ∀ r, r ∈ rows → p r = false.
Proof.
  induction rows as [|r rows IH].
  - split; [set_solver|done].
  - rewrite sql_count_cons. pose proof (sql_count_nonneg p rows). destruct (p r) eqn:Hp.
    + split; [lia|]. intros H'. rewrite H' in Hp by (by left). done.
    + rewrite Z.add_0_l, IH. split; intros Hall x Hx; [|apply Hall; by right].
      apply elem_of_cons in Hx as [->|]; auto.
Qed.

Lemma sql_count_mono p q rows :
  (∀ r, r ∈ rows → p r = true → q r = true) → (sql_count p rows ≤ sql_count q rows)%Z.
Proof.
  induction rows as [|r rows IH]; intros H; [done|]. rewrite !sql_count_cons.
  assert (sql_count p rows ≤ sql_count q rows)%Z by (apply IH; intros ??; apply H; by right).
  specialize (H r (list_elem_of_here r rows)). destruct (p r), (q r); lia.
Qed.

Lemma length_sql_update p f rows : length (sql_update p f rows) = length rows.
Proof. apply length_fmap. Qed.

Lemma sql_update_none p f rows : sql_count p rows = 0%Z → sql_update p f rows = rows.
Proof.
  rewrite sql_count_zero. intros H. unfold sql_update. rewrite <- (list_fmap_id rows) at 2.
  apply list_fmap_ext. intros i x Hx. rewrite H; [done|]. by eapply list_elem_of_lookup_2.
Qed.

Lemma sql_find_Some p rows r : sql_find p rows = Some r → r ∈ rows ∧ p r = true.
Proof.
  unfold sql_find. intros H%head_Some_elem_of. by apply elem_of_sql_select in H as [].
Qed.

Lemma sql_find_None p rows : sql_find p rows = None ↔ sql_exists p rows = false.
Proof.
  unfold sql_find. rewrite sql_exists_false.
  destruct (sql_select p rows) as [|r l] eqn:Hs; simpl; split; try done.
  - intros _ r Hr. destruct (p r) eqn:Hp; [|done].
    assert (r ∈ sql_select p rows) as Hin by (by apply elem_of_sql_select).
    rewrite Hs in Hin. by apply elem_of_nil in Hin.
  - intros Hall. assert (r ∈ sql_select p rows) as Hin by (rewrite Hs; left).
    apply elem_of_sql_select in Hin as [Hp Hr]. by rewrite Hall in Hp.
Qed.

Lemma sql_find_cons p r rows :
  sql_find p (r :: rows) = if p r then Some r else sql_find p rows.
Proof.
  unfold sql_find, sql_select. destruct (p r) eqn:Hp.
  - by rewrite filter_cons_True by done.
  - by rewrite filter_cons_False by congruence.
Qed.

Lemma sql_update_cons p f r rows :
  sql_update p f (r :: rows) = (if p r then f r else r) :: sql_update p f rows.
Proof. done. Qed.

(** Reading back an updated row, and a row the update leaves alone. *)
Lemma sql_find_update p f rows :
  (∀ r, p r = true → p (f r) = true) →
  sql_find p (sql_update p f rows) = f <$> sql_find p rows.
Proof.
  intros Hf. induction rows as [|r rows IH]; [done|].
  rewrite sql_update_cons, !sql_find_cons. destruct (p r) eqn:Hp.
  - by rewrite Hf.
  - by rewrite Hp.
Qed.

Lemma sql_find_update_ne p q f rows :
  (∀ r, q r = true → p r = false) → (∀ r, p r = true → q (f r) = false) →
  sql_find q (sql_update p f rows) = sql_find q rows.
Proof.
  intros Hpq Hf. induction rows as [|r rows IH]; [done|].
  rewrite sql_update_cons, !sql_find_cons. destruct (p r) eqn:Hp; [|by rewrite IH].
  rewrite Hf by done. destruct (q r) eqn:Hq; [by rewrite Hpq in Hp|done].
Qed.

(** Reading after an update that keeps the key column. *)
Lemma sql_find_update_key p q f rows :
  (∀ r, q (f r) = q r) →
  sql_find q (sql_update p f rows) = (λ r, if p r then f r else r) <$> sql_find q rows.
Proof.
  intros Hf. induction rows as [|r rows IH]; [done|].
  rewrite sql_update_cons, !sql_find_cons. destruct (p r) eqn:Hp.
  - rewrite Hf. destruct (q r); [simpl; by rewrite Hp|done].
  - destruct (q r); [simpl; by rewrite Hp|done].
Qed.

Lemma Forall_sql_update (P : A → Prop) p f rows :
  Forall P rows → (∀ r, r ∈ rows → P r → p r = true → P (f r)) →
  Forall P (sql_update p f rows).
Proof.
  rewrite !Forall_forall. intros Hall Hf r' (r & -> & Hin)%elem_of_sql_update.
  destruct (p r) eqn:Hp; auto.
Qed.

Lemma sql_find_app p rows1 rows2 :
  sql_find p (rows1 ++ rows2) =
    match sql_find p rows1 with Some r => Some r | None => sql_find p rows2 end.
Proof.
  induction rows1 as [|r rows1 IH]; [done|].
  rewrite <- app_comm_cons, !sql_find_cons. by destruct (p r).
Qed.

(** Reading back the row an upsert wrote. *)
Lemma sql_find_upsert p new f rows :
  (∀ r, p r = true → p (f r) = true) → p new = true →
  sql_find p (sql_upsert p new f rows) =
    Some (match sql_find p rows with Some r => f r | None => new end).
Proof.
  intros Hf Hnew. unfold sql_upsert. destruct (sql_exists p rows) eqn:He.
  - rewrite sql_find_update by done. destruct (sql_find p rows) eqn:Hr; [done|].
    apply sql_find_None in Hr. congruence.
  - apply sql_find_None in He. by rewrite sql_find_app, He, sql_find_cons, Hnew.
Qed.

(** An upsert leaves the rows of the other keys alone. *)
Lemma sql_find_upsert_ne p q new f rows :
  (∀ r, q r = true → p r = false) → (∀ r, p r = true → q (f r) = false) → q new = false →
  sql_find q (sql_upsert p new f rows) = sql_find q rows.
Proof.
  intros Hpq Hf Hnew. unfold sql_upsert. destruct (sql_exists p rows).
  - by apply sql_find_update_ne.
  - rewrite sql_find_app, sql_find_cons, Hnew. by destruct (sql_find q rows).
Qed.

(** A column an [UPDATE] does not assign keeps its values. *)
Lemma sql_update_column {B} (col : A → B) p f rows :
  (∀ r, col (f r) = col r) → col <$> sql_update p f rows = col <$> rows.
Proof.
  intros H. unfold sql_update. rewrite <- list_fmap_compose. apply list_fmap_ext.
  intros i x _. simpl. by destruct (p x).
Qed.
End Tables.

(** An appended row is found under its rowid, which no old row has. *)
Lemma sql_find_appended {A} (key : A → Z) (r : A) (rows : list A) :
  key r = next_rowid (key <$> rows) → sql_find (λ x, (key x =? key r)%Z) (rows ++ [r]) = Some r.
Proof.
  intros Hr. rewrite sql_find_app. destruct (sql_find _ rows) as [o|] eqn:Ho.
  - apply sql_find_Some in Ho as [Hin Heq%Z.eqb_eq].
    assert (key o < next_rowid (key <$> rows))%Z; [|lia]. by apply next_rowid_fresh, list_elem_of_fmap_2.
  - by rewrite sql_find_cons, Z.eqb_refl.
Qed.

Lemma NoDup_fmap_select {A B} (key : A → B) p (rows : list A) :
  NoDup (key <$> rows) → NoDup (key <$> sql_select p rows).
Proof.
  induction rows as [|r rows IH]; [done|]. rewrite fmap_cons. intros [Hni Hnd]%NoDup_cons.
  unfold sql_select. destruct (p r) eqn:Hp.
  - rewrite filter_cons_True, fmap_cons by done. apply NoDup_cons. split; [|auto].
    intros (x & Heq & [_ Hx]%elem_of_sql_select)%list_elem_of_fmap. apply Hni. rewrite Heq.
    by apply list_elem_of_fmap_2.
  - rewrite filter_cons_False by congruence. auto.
Qed.

Lemma NoDup_fmap_omap {A B C} (f : A → option B) (g : B → C) (l : list A) :
  NoDup l → (∀ a1 a2 b1 b2, f a1 = Some b1 → f a2 = Some b2 → g b1 = g b2 → a1 = a2) →
  NoDup (g <$> omap f l).
Proof.
  intros Hl Hinj. induction l as [|a l IH]; [apply NoDup_nil_2|]. apply NoDup_cons in Hl as [Hni Hl].
  cbn [omap list_omap]. destruct (f a) as [b|] eqn:Hb; [|auto].
  rewrite fmap_cons. apply NoDup_cons. split; [|auto].
  intros (b' & Heq & (a' & Ha' & Hb')%list_elem_of_omap)%list_elem_of_fmap.
  by rewrite (Hinj _ _ _ _ Hb Hb' Heq) in Hni.
Qed.

(** A row of a table with unique ids is found under its id. *)
Lemma sql_find_unique {A} (key : A → Z) (r : A) (rows : list A) :
  NoDup (key <$> rows) → r ∈ rows → sql_find (λ x, (key x =? key r)%Z) rows = Some r.
Proof.
  intros Hnd Hr. destruct (sql_find _ rows) as [o|] eqn:Ho.
  - apply sql_find_Some in Ho as [Hin Heq%Z.eqb_eq]. f_equal. by eapply (NoDup_fmap_eq key).
  - apply sql_find_None in Ho. rewrite sql_exists_false in Ho. specialize (Ho r Hr). simpl in Ho. lia.
Qed.

(** * Text order

    SQLite compares TEXT with the BINARY collation: byte by byte, a prefix first.
    [String.compare] is that order. *)
Abbreviation text := string.

Definition text_ltb (a b : text) : bool :=
  match String.compare a b with Lt => true | _ => false end.
Definition text_leb (a b : text) : bool :=
  match String.compare a b with Gt => false | _ => true end.

Lemma text_cons_app c (s t : text) : (String c s +:+ t = String c (s +:+ t))%string.
Proof. done. Qed.

(** A text in front of a separator it does not hold can be read back. *)
Fixpoint has_char (c : Ascii.ascii) (s : text) : bool :=
  match s with EmptyString => false | String a rest => Ascii.eqb a c || has_char c rest end.

Lemma text_sep_inj c a a' b b' :
  has_char c a = false → has_char c a' = false →
  (a +:+ String c b)%string = (a' +:+ String c b')%string → a = a' ∧ b = b'.
Proof.
  revert a'. induction a as [|x a IH]; intros [|x' a']; cbn [has_char]; rewrite ?text_cons_app, ?orb_false_iff.
  - intros _ _ Heq. by injection Heq as ->.
  - intros _ [Hx' _] Heq. injection Heq as -> _. by rewrite Ascii.eqb_refl in Hx'.
  - intros [Hx _] _ Heq. injection Heq as -> _. by rewrite Ascii.eqb_refl in Hx.
  - intros [_ Ha] [_ Ha'] Heq. injection Heq as -> Heq. by destruct (IH a' Ha Ha' Heq) as [-> ->].
Qed.

Lemma text_app_inj (p a b : text) : (p +:+ a)%string = (p +:+ b)%string → a = b.
Proof. induction p as [|c p IH]; [done|]. rewrite !text_cons_app. intros [= Heq]. auto. Qed.

(** Decimal numerals hold digits and a minus sign only. *)
Lemma pretty_N_go_no_char c x s :
  (∀ n, Ascii.eqb (pretty_N_char n) c = false) → has_char c s = false → has_char c (pretty_N_go x s) = false.
Proof.
  intros Hc. revert s. induction (N.lt_wf_0 x) as [x _ IH]; intros s Hs.
  assert (x = 0 ∨ 0 < x)%N as [->|?] by lia; [by rewrite pretty_N_go_0|].
  rewrite pretty_N_go_step by done. apply IH; [by apply N.div_lt|]. cbn [has_char]. by rewrite Hc, Hs.
Qed.

Lemma pretty_no_colon (z : Z) : has_char ":"%char (pretty z) = false.
Proof.
  assert (∀ n, Ascii.eqb (pretty_N_char n) ":"%char = false) as Hc.
  { intros n. unfold pretty_N_char. by repeat case_match. }
  assert (∀ n : N, has_char ":"%char (pretty n) = false) as HN.
  { intros n. unfold pretty, pretty_N. case_decide; [done|]. by apply pretty_N_go_no_char. }
  destruct z as [|p|p]; [done|apply (HN (N.pos p))|]. unfold pretty, pretty_Z.
  change (has_char ":"%char (pretty (N.pos p)) = false). apply HN.
Qed.

Lemma text_length_app (s t : text) :
  String.length (s +:+ t)%string = (String.length s + String.length t)%nat.
Proof. induction s as [|c s IH]; [done|]. rewrite text_cons_app. simpl. by rewrite IH. Qed.

Lemma text_app_assoc (a b c : text) : ((a +:+ b) +:+ c = a +:+ b +:+ c)%string.
Proof.
  induction a as [|ch a IH]; [done|].
  change (String ch ((a +:+ b) +:+ c) = String ch (a +:+ b +:+ c))%string. by rewrite IH.
Qed.

Lemma text_compare_refl a : String.compare a a = Eq.
Proof.
  induction a as [|c a IH]; [done|]. simpl. unfold Ascii.compare.
  by rewrite N.compare_refl.
Qed.

Lemma text_leb_refl a : text_leb a a = true.
Proof. unfold text_leb. by rewrite text_compare_refl. Qed.

Lemma text_ltb_irrefl a : text_ltb a a = false.
Proof. unfold text_ltb. by rewrite text_compare_refl. Qed.

(** [NOT (a <= b)] is [b < a]: no row falls between the two halves of a fence. *)
Lemma text_leb_negb a b : text_leb a b = negb (text_ltb b a).
Proof.
  unfold text_leb, text_ltb. rewrite (String.compare_antisym a b).
  by destruct (String.compare b a).
Qed.

Lemma text_ltb_negb a b : text_ltb a b = negb (text_leb b a).
Proof. by rewrite text_leb_negb, negb_involutive. Qed.

Lemma text_leb_trans a b c : text_leb a b = true → text_leb b c = true → text_leb a c = true.
Proof.
  change text_leb with String.leb. rewrite <- !Is_true_true.
  apply (transitivity (R := String.le)).
Qed.

Lemma text_leb_antisym a b : text_leb a b = true → text_leb b a = true → a = b.
Proof. apply String.leb_antisym. Qed.

Lemma text_leb_total a b : text_leb a b = true ∨ text_leb b a = true.
Proof. apply String.leb_total. Qed.

Module TextOrder.
Definition t := text.
Definition eq : t → t → Prop := Logic.eq.
Definition lt (a b : t) : Prop := text_ltb a b = true.
Definition le (a b : t) : Prop := text_leb a b = true.
Lemma eq_equiv : Equivalence eq.
Proof. apply eq_equivalence. Qed.
Lemma lt_strorder : StrictOrder lt.
Proof.
  unfold lt. split.
  - intros a. red. by rewrite text_ltb_irrefl.
  - intros a b c. rewrite !text_ltb_negb, !negb_true_iff.
    intros Hba Hcb. destruct (text_leb c a) eqn:Hca; [|done].
    destruct (text_leb_total a b) as [Hab|]; [|congruence].
    by rewrite (text_leb_trans c a b) in Hcb.
Qed.
Lemma lt_compat : Proper (eq ==> eq ==> iff) lt.
Proof. intros ?? -> ?? ->. done. Qed.
Lemma le_lteq a b : le a b ↔ lt a b ∨ eq a b.
Proof.
  unfold le, lt, eq. rewrite (text_ltb_negb a b). split.
  - destruct (text_leb b a) eqn:Hba; [|by left]. intros Hab. right.
    by apply text_leb_antisym.
  - intros [H | ->]; [|apply text_leb_refl].
    destruct (text_leb_total a b) as [|Hba]; [done|]. by rewrite Hba in H.
Qed.
Lemma lt_total a b : lt a b ∨ eq a b ∨ lt b a.
Proof.
  unfold eq. destruct (text_leb_total a b) as [H|H]; apply le_lteq in H as [H|H].
  - by left.
  - right; by left.
  - right; by right.
  - right; left. by symmetry.
Qed.
End TextOrder.
Module TextOrderTac := !MakeOrderTac TextOrder TextOrder.

Create HintDb text discriminated.
#[export] Hint Resolve text_leb_refl text_leb_trans : text.

Lemma text_leb_true a b : text_leb a b = true ↔ TextOrder.le a b.
Proof. done. Qed.
Lemma text_leb_false a b : text_leb a b = false ↔ TextOrder.lt b a.
Proof. unfold TextOrder.lt. by rewrite text_leb_negb, negb_false_iff. Qed.
Lemma text_ltb_true a b : text_ltb a b = true ↔ TextOrder.lt a b.
Proof. done. Qed.
Lemma text_ltb_false a b : text_ltb a b = false ↔ TextOrder.le b a.
Proof. unfold TextOrder.le. by rewrite text_ltb_negb, negb_false_iff. Qed.

(** Decides a goal about [text_ltb], [text_leb] and equality of timestamps. *)
Ltac text_order :=
  repeat first
    [ rewrite text_leb_true in * | rewrite text_leb_false in *
    | rewrite text_ltb_true in * | rewrite text_ltb_false in * ];
  TextOrderTac.order.

Lemma StronglySorted_mono {A} (R R' : relation A) l :
  (∀ x y, R x y → R' x y) → StronglySorted R l → StronglySorted R' l.
Proof.
  intros HR. induction 1 as [|x l _ IH Hall]; constructor; [done|].
  eapply Forall_impl; [exact Hall|]. apply HR.
Qed.

(** * ORDER BY *)

(** One column of a sort key. *)
Inductive sql_key := KInt (z : Z) | KText (t : text).

Definition key_compare (a b : sql_key) : comparison :=
  match a, b with
  | KInt x, KInt y => (x ?= y)%Z
  | KText x, KText y => String.compare x y
  | KInt _, KText _ => Lt
  | KText _, KInt _ => Gt
  end.

(** Keys compare column by column, the first difference deciding. *)
Fixpoint keys_compare (a b : list sql_key) : comparison :=
  match a, b with
  | [], [] => Eq
  | [], _ => Lt
  | _, [] => Gt
  | x :: a', y :: b' =>
    match key_compare x y with Eq => keys_compare a' b' | c => c end
  end.

Definition keys_leb (a b : list sql_key) : bool :=
  match keys_compare a b with Gt => false | _ => true end.

Definition key_order {A} (key : A → list sql_key) (x y : A) : Prop :=
  keys_leb (key x) (key y) = true.

#[export] Instance key_order_dec {A} (key : A → list sql_key) x y :
  Decision (key_order key x y).
Proof. unfold key_order. apply _. Defined.

Definition order_by {A} (key : A → list sql_key) (rows : list A) : list A :=
  merge_sort (key_order key) rows.

Lemma key_compare_antisym a b : key_compare a b = CompOpp (key_compare b a).
Proof.
  destruct a, b; simpl; [apply Z.compare_antisym|done|done|apply String.compare_antisym].
Qed.

Lemma key_compare_eq a b : key_compare a b = Eq ↔ a = b.
Proof.
  destruct a, b; simpl; rewrite ?Z.compare_eq_iff.
  1: split; congruence. 1, 2: done.
  split; [intros ->%String.compare_eq_iff; done|intros [= ->]; apply text_compare_refl].
Qed.

Lemma key_compare_lt_trans a b c :
  key_compare a b = Lt → key_compare b c = Lt → key_compare a c = Lt.
Proof.
  destruct a as [x|x], b as [y|y], c as [z|z]; simpl; try done.
  - rewrite !Z.compare_lt_iff. lia.
  - assert (∀ u v, String.compare u v = Lt ↔ TextOrder.lt u v) as Hlt.
    { intros u v. unfold TextOrder.lt, text_ltb. by destruct (String.compare u v). }
    rewrite !Hlt. intros. TextOrderTac.order.
Qed.

Lemma keys_compare_antisym a b : keys_compare a b = CompOpp (keys_compare b a).
Proof.
  revert b. induction a as [|x a IH]; intros [|y b]; simpl; try done.
  rewrite (key_compare_antisym x y). destruct (key_compare y x); simpl; auto.
Qed.

Lemma keys_compare_eq a b : keys_compare a b = Eq ↔ a = b.
Proof.
  revert b. induction a as [|x a IH]; intros [|y b]; simpl; try done.
  destruct (key_compare x y) eqn:Hxy; (split; [|intros [= <- <-]]); try done.
  - apply key_compare_eq in Hxy as ->. by intros ->%IH.
  - by apply IH.
  - by rewrite (proj2 (key_compare_eq x x)) in Hxy.
  - by rewrite (proj2 (key_compare_eq x x)) in Hxy.
Qed.

Lemma keys_compare_lt_trans a b c :
  keys_compare a b = Lt → keys_compare b c = Lt → keys_compare a c = Lt.
Proof.
  revert b c. induction a as [|x a IH]; intros [|y b] [|z c]; simpl; try done.
  destruct (key_compare x y) eqn:Hxy, (key_compare y z) eqn:Hyz; try done.
  - apply key_compare_eq in Hxy as ->, Hyz as ->.
    rewrite (proj2 (key_compare_eq z z)) by done. apply IH.
  - apply key_compare_eq in Hxy as ->. by rewrite Hyz.
  - apply key_compare_eq in Hyz as ->. by rewrite Hxy.
  - by rewrite (key_compare_lt_trans x y z).
Qed.

Section OrderBy.
Context {A : Type} (key : A → list sql_key).

#[export] Instance key_order_total : Total (key_order key).
Proof.
  intros x y. unfold key_order, keys_leb. rewrite (keys_compare_antisym (key y) (key x)).
  destruct (keys_compare (key x) (key y)); auto.
Qed.

#[export] Instance key_order_trans : Transitive (key_order key).
Proof.
  intros x y z. unfold key_order, keys_leb.
  destruct (keys_compare (key x) (key y)) eqn:Hxy; try done.
  - by apply keys_compare_eq in Hxy as ->.
  - destruct (keys_compare (key y) (key z)) eqn:Hyz; try done.
    + apply keys_compare_eq in Hyz as <-. by rewrite Hxy.
    + by rewrite (keys_compare_lt_trans _ _ _ Hxy Hyz).
Qed.

Lemma order_by_permutation rows : order_by key rows ≡ₚ rows.
Proof. apply merge_sort_Permutation. Qed.

Lemma order_by_sorted rows : StronglySorted (key_order key) (order_by key rows).
Proof. apply (StronglySorted_merge_sort _). Qed.

Lemma elem_of_order_by rows r : r ∈ order_by key rows ↔ r ∈ rows.
Proof. by rewrite order_by_permutation. Qed.

(** Rows with distinct keys have one order. *)
Lemma order_by_unique rows l :
  l ≡ₚ rows → StronglySorted (key_order key) l →
  (∀ x y, x ∈ rows → y ∈ rows → key x = key y → x = y) → order_by key rows = l.
Proof.
  intros Hperm Hsorted Hkey.
  apply (StronglySorted_unique_strong (key_order key)).
  - intros x y Hx Hy. rewrite elem_of_order_by in Hx. rewrite Hperm in Hy.
    unfold key_order, keys_leb. rewrite (keys_compare_antisym (key y) (key x)).
    destruct (keys_compare (key x) (key y)) eqn:Hc; simpl; try done.
    intros _ _. apply Hkey; [done..|]. by apply keys_compare_eq.
  - apply order_by_sorted.
  - done.
  - by rewrite order_by_permutation, Hperm.
Qed.

Lemma keys_leb_refl x : keys_leb x x = true.
Proof. unfold keys_leb. by rewrite (proj2 (keys_compare_eq x x)). Qed.

Lemma keys_leb_antisym x y : keys_leb x y = true → keys_leb y x = true → x = y.
Proof.
  unfold keys_leb. rewrite (keys_compare_antisym y x). destruct (keys_compare x y) eqn:Hc; try done.
  intros _ _. by apply keys_compare_eq.
Qed.

(** Keyset paging: what sorts after a row is the rest of the ordered list. *)
Lemma order_by_after rows before c after :
  order_by key rows = before ++ c :: after → NoDup (key <$> rows) →
  order_by key (sql_select (λ r, negb (keys_leb (key r) (key c))) rows) = after.
Proof.
  intros Heq Hnd. pose proof (order_by_sorted rows) as Hsorted. pose proof (order_by_permutation rows) as Hperm.
  rewrite Heq in Hsorted, Hperm.
  apply StronglySorted_app in Hsorted as (Hc & _ & [Hafter Hcafter]%StronglySorted_inv).
  rewrite Forall_forall in Hcafter.
  assert (NoDup (key <$> before ++ c :: after)) as Hnd' by (by rewrite Hperm).
  assert (∀ x y, x ∈ rows → y ∈ rows → key x = key y → x = y) as Hinj by (intros; by apply (NoDup_fmap_eq key rows)).
  apply order_by_unique; [|done|].
  - rewrite fmap_app, fmap_cons in Hnd'. apply NoDup_app in Hnd' as (_ & _ & [Hni _]%NoDup_cons).
    assert (sql_select (λ r, negb (keys_leb (key r) (key c))) rows ≡ₚ
      sql_select (λ r, negb (keys_leb (key r) (key c))) (before ++ c :: after)) as ->
      by (unfold sql_select; by rewrite Hperm).
    rewrite sql_select_app, (sql_select_none _ before).
    2: { intros x Hx. apply negb_false_iff. apply Hc; [done|left]. }
    change (c :: after) with ([c] ++ after). rewrite sql_select_app, (sql_select_none _ [c]).
    2: { intros x ->%list_elem_of_singleton. by rewrite keys_leb_refl. }
    rewrite sql_select_all; [done|]. intros x Hx. apply negb_true_iff.
    destruct (keys_leb (key x) (key c)) eqn:Hle; [|done].
    destruct Hni. rewrite <- (keys_leb_antisym _ _ Hle (Hcafter x Hx)). by apply list_elem_of_fmap_2.
  - intros x y [_ Hx]%elem_of_sql_select [_ Hy]%elem_of_sql_select. auto.
Qed.
End OrderBy.

(** A page that is not empty ends with the cursor of the next. *)
Lemma take_snoc_cursor {A} (limit : Z) (after : list A) :
  (1 ≤ Z.to_nat limit)%nat → (0 < length after)%nat →
  ∃ page cursor, take (Z.to_nat limit) after = page ++ [cursor] ∧
    after = page ++ cursor :: drop (Z.to_nat limit) after.
Proof.
  intros Hlimit Hafter. destruct (last (take (Z.to_nat limit) after)) as [cursor|] eqn:Hlast.
  - apply last_Some in Hlast as [page Htake]. exists page, cursor. split; [done|].
    rewrite <- (take_drop (Z.to_nat limit) after) at 1. by rewrite Htake, <- app_assoc.
  - apply last_None in Hlast. destruct after; [simpl in *; lia|]. by destruct (Z.to_nat limit); [lia|].
Qed.
