(* ===== verification/Runs.v ===== *)
(** What a run ends in: weakest preconditions for the monad of [Prelude], and the [try] statements
    of code whose effects are outside the database. *)
From S2P Require Import Prelude.

(** ** Weakest preconditions *)

(** A run of [m] from [s] ends in a result and a state that satisfy [Q]. *)
Definition wp {S E A} (m : M S E A) (Q : res E A → S → Prop) (s : S) : Prop := Q (m s).1 (m s).2.

Section Wp.
Context {S E : Type}.
Implicit Types (s : S).

Lemma wp_run {A} (m : M S E A) Q s r s' : m s = (r, s') → wp m Q s → Q r s'.
Proof. unfold wp. by intros ->. Qed.
Lemma wp_intro {A} (m : M S E A) (Q : res E A → S → Prop) s :
  (∀ r s', m s = (r, s') → Q r s') → wp m Q s.
Proof. intros H. apply H. by destruct (m s). Qed.
Lemma wp_mono {A} (m : M S E A) (Q Q' : res E A → S → Prop) s :
  (∀ r s', Q r s' → Q' r s') → wp m Q s → wp m Q' s.
Proof. intros H. apply H. Qed.
Lemma wp_bind {A B} (m : M S E A) (f : A → M S E B) Q s :
  wp m (λ r s', match r with Ok a => wp (f a) Q s' | Err e => Q (Err e) s' end) s → wp (m ≫= f) Q s.
Proof. unfold wp, mbind, M_bind. by destruct (m s) as [[a|e] s1]. Qed.
Lemma wp_assoc {A B C} (m : M S E A) (f : A → M S E B) (g : B → M S E C) Q s :
  wp ((m ≫= f) ≫= g) Q s → wp (m ≫= λ a, f a ≫= g) Q s.
Proof. unfold wp, mbind, M_bind. by destruct (m s) as [[a|e] s1]. Qed.
Lemma wp_ret {A} (a : A) (Q : res E A → S → Prop) s : Q (Ok a) s → wp (mret a) Q s.
Proof. done. Qed.
Lemma wp_raise {A} (e : E) (Q : res E A → S → Prop) s : Q (Err e) s → wp (raise e) Q s.
Proof. done. Qed.
Lemma wp_gets {A} (f : S → A) (Q : res E A → S → Prop) s : Q (Ok (f s)) s → wp (gets f) Q s.
Proof. done. Qed.
Lemma wp_modify (f : S → S) (Q : res E unit → S → Prop) s : Q (Ok tt) (f s) → wp (modify f) Q s.
Proof. done. Qed.
Lemma wp_lift {A} (r : res E A) (Q : res E A → S → Prop) s : Q r s → wp (lift r) Q s.
Proof. done. Qed.
End Wp.

(** ** Handlers *)

(** [try: m except ...: handler], where the handler answers the errors it names. *)
Definition try_except {S E E' A} (m : M S E A) (handler : E → M S E' A) : M S E' A := λ s,
  match m s with
  | (Ok a, s') => (Ok a, s')
  | (Err e, s') => handler e s'
  end.
(** [try: m finally: last]: an error of [last] replaces the result. *)
Definition finally_do {S E A} (m : M S E A) (last : M S E unit) : M S E A := λ s,
  let '(r, s1) := m s in
  match last s1 with
  | (Ok _, s2) => (r, s2)
  | (Err e, s2) => (Err e, s2)
  end.

Lemma wp_try {S E E' A} (m : M S E A) (handler : E → M S E' A) Q s :
  wp m (λ r s', match r with Ok a => Q (Ok a) s' | Err e => wp (handler e) Q s' end) s → wp (try_except m handler) Q s.
Proof. unfold wp, try_except. by destruct (m s) as [[a|e] s1]. Qed.
Lemma wp_finally {S E A} (m : M S E A) (last : M S E unit) Q s :
  wp m (λ r s1, wp last (λ r2 s2, match r2 with Ok _ => Q r s2 | Err e => Q (Err e) s2 end) s1) s →
  wp (finally_do m last) Q s.
Proof. unfold wp, finally_do. destruct (m s) as [r s1]. cbn. by destruct (last s1) as [[[]|e] s2]. Qed.

(** [a and b], where [b] is run only when [a] gave true; [a or b]. *)
Definition and_then {S E} (a b : M S E bool) : M S E bool := x ← a; if x : bool then b else mret false.
Definition or_else {S E} (a b : M S E bool) : M S E bool := x ← a; if x : bool then mret true else b.

(** A relation every run of [m] respects, as a rule for its weakest precondition. *)
Lemma wp_preserves {S E A} (R : relation S) (m : M S E A) (Q : res E A → S → Prop) s :
  Preserves R m → (∀ r s', R s s' → Q r s') → wp m Q s.
Proof. intros Hm HQ. apply wp_intro. intros r s' H. by apply HQ, (Hm _ _ _ H). Qed.
Lemma preserves_try {S E E' A} (R : relation S) `{!PreOrder R} (m : M S E A) (handler : E → M S E' A) :
  Preserves R m → (∀ e, Preserves R (handler e)) → Preserves R (try_except m handler).
Proof.
  intros Hm Hh s r s'. unfold try_except. destruct (m s) as [[a|e] s1] eqn:H; apply Hm in H; [by intros [= _ <-]|].
  intros H'. etrans; [exact H|by apply (Hh e _ _ _ H')].
Qed.
Lemma preserves_finally {S E A} (R : relation S) `{!PreOrder R} (m : M S E A) (last : M S E unit) :
  Preserves R m → Preserves R last → Preserves R (finally_do m last).
Proof.
  intros Hm Hl s r s'. unfold finally_do. destruct (m s) as [a s1] eqn:H; apply Hm in H.
  destruct (last s1) as [[[]|e] s2] eqn:H'; apply Hl in H'; intros [= _ <-]; by etrans.
Qed.
(** A run under [finally] that returned. *)
Lemma finally_ok {S E A} (m : M S E A) (last : M S E unit) s a s' :
  finally_do m last s = (Ok a, s') → ∃ s1, m s = (Ok a, s1) ∧ last s1 = (Ok tt, s').
Proof.
  unfold finally_do. destruct (m s) as [r s1] eqn:H. destruct (last s1) as [[[]|e] s2] eqn:H'; [|done].
  intros [= -> ->]. by exists s1.
Qed.
#[export] Hint Extern 2 (Preserves _ (finally_do _ _)) => apply preserves_finally : typeclass_instances.
#[export] Hint Extern 2 (Preserves _ (try_except _ _)) => apply preserves_try : typeclass_instances.
#[export] Hint Extern 2 (Preserves _ (and_then _ _)) => unfold and_then : typeclass_instances.
#[export] Hint Extern 2 (Preserves _ (or_else _ _)) => unfold or_else : typeclass_instances.

(** ** What a run may raise *)

(** Every exception of [m] satisfies [P]. *)
Class Raises {S E A} (P : E → Prop) (m : M S E A) : Prop := raises s e s' : m s = (Err e, s') → P e.
#[export] Hint Mode Raises ! ! ! ! ! : typeclass_instances.
#[export] Instance raises_ret {S E A} (P : E → Prop) (a : A) : Raises P (mret a : M S E A).
Proof. by intros s e s'. Qed.
#[export] Instance raises_gets {S E A} (P : E → Prop) (f : S → A) : Raises P (gets f : M S E A).
Proof. by intros s e s'. Qed.
Lemma raises_raise {S E A} (P : E → Prop) (e : E) : P e → Raises P (raise e : M S E A).
Proof. intros HP s e' s' [= <- _]. done. Qed.
#[export] Instance raises_bind {S E A B} (P : E → Prop) (m : M S E A) (f : A → M S E B) :
  Raises P m → (∀ a, Raises P (f a)) → Raises P (m ≫= f).
Proof.
  intros Hm Hf s e s'. unfold mbind, M_bind. destruct (m s) as [[a|e1] s1] eqn:H; [apply Hf|].
  intros [= <- _]. by apply (Hm _ _ _ H).
Qed.
#[export] Instance raises_if {S E A} (P : E → Prop) (b : bool) (m1 m2 : M S E A) :
  Raises P m1 → Raises P m2 → Raises P (if b then m1 else m2).
Proof. by destruct b. Qed.
#[export] Instance raises_option {S E A C} (P : E → Prop) (o : option C) (f : C → M S E A) (m : M S E A) :
  (∀ c, Raises P (f c)) → Raises P m → Raises P (match o with Some c => f c | None => m end).
Proof. by destruct o. Qed.
Lemma raises_try {S E E' A} (P : E' → Prop) (m : M S E A) (handler : E → M S E' A) :
  (∀ e, Raises P (handler e)) → Raises P (try_except m handler).
Proof. intros Hh s e s'. unfold try_except. destruct (m s) as [[a|e1] s1]; [done|]. apply Hh. Qed.
Lemma raises_finally {S E A} (P : E → Prop) (m : M S E A) (last : M S E unit) :
  Raises P m → Raises P last → Raises P (finally_do m last).
Proof.
  intros Hm Hl s e s'. unfold finally_do. destruct (m s) as [r s1] eqn:H. destruct (last s1) as [[[]|e1] s2] eqn:H'.
  - intros [= -> _]. by apply (Hm _ _ _ H).
  - intros [= <- _]. by apply (Hl _ _ _ H').
Qed.
#[export] Hint Extern 2 (Raises _ (raise _)) => apply raises_raise; (done || reflexivity) : typeclass_instances.
#[export] Hint Extern 2 (Raises _ (finally_do _ _)) => apply raises_finally : typeclass_instances.
(** Both at once, as a rule for a weakest precondition. *)
Lemma wp_kept {S E A} (R : relation S) (P : E → Prop) (m : M S E A) (Q : res E A → S → Prop) s :
  Preserves R m → Raises P m → (∀ r s', R s s' → (∀ e, r = Err e → P e) → Q r s') → wp m Q s.
Proof. intros Hm Hr HQ. apply wp_intro. intros r s' H. apply HQ; [by apply (Hm _ _ _ H)|]. intros e ->. by apply (Hr _ _ _ H). Qed.

(** One step of a run: binds, branches and the plain statements; an operation with a rule of its
    own is left to its rule, given in the hint database [runs]. *)
Create HintDb runs discriminated.
Ltac run_step :=
  lazymatch goal with
  | |- wp (mbind _ _) _ _ => apply wp_bind
  | |- wp (mret _) _ _ => apply wp_ret
  | |- wp (raise _) _ _ => apply wp_raise
  | |- wp (gets _) _ _ => apply wp_gets
  | |- wp (lift _) _ _ => apply wp_lift
  | |- wp (try_except _ _) _ _ => apply wp_try
  | |- wp (finally_do _ _) _ _ => apply wp_finally
  | |- wp (and_then _ _) _ _ => unfold and_then; apply wp_bind
  | |- wp (or_else _ _) _ _ => unfold or_else; apply wp_bind
  | |- wp (if ?b then _ else _) _ _ => destruct b eqn:?
  | |- wp (match ?x with _ => _ end) _ _ => destruct x eqn:?
  | |- match ?x with Ok _ => _ | Err _ => _ end => destruct x eqn:?
  end.
