(* ===== verification/Paths.v ===== *)
(** Local state locations ([paths.py]): POSIX paths as [pathlib] keeps them, their lexical
    normalization, and the layout derived from one database path. *)
From S2P Require Import Prelude.

(** ** Paths *)

(** A [PurePosixPath]: its anchor (the empty text of a relative path, or one or two slashes) and
    the names below it.  [pathlib] drops empty names and dots when it parses a text. *)
Record Path := mk_path { anchor : text; names : list text }.
#[export] Instance Path_eq_dec : EqDecision Path.
Proof. solve_decision. Defined.

Definition is_absolute (p : Path) : bool := negb (bool_decide (anchor p = ""%string)).
(** [p / name], for a name that is not itself a path. *)
Definition joined (p : Path) (name : text) : Path := mk_path (anchor p) (names p ++ [name]).
(** [p / q]: an absolute right operand replaces the left one. *)
Definition join_path (p q : Path) : Path := if is_absolute q then q else mk_path (anchor p) (names p ++ names q).
(** The parent of a root is the root. *)
Definition parent (p : Path) : Path := mk_path (anchor p) (take (pred (length (names p))) (names p)).
Definition name (p : Path) : text := default ""%string (last (names p)).
Definition with_name (p : Path) (n : text) : Path := joined (parent p) n.

(** [str(p)], for a path that is not empty. *)
Definition path_text (p : Path) : text := (anchor p +:+ String.concat "/" (names p))%string.
(** [str(p)] of a [PureWindowsPath], whose names are separated by backslashes. *)
Definition windows_text (p : Path) : text :=
  (anchor p +:+ String.concat (String (Ascii.ascii_of_nat 92) "") (names p))%string.

(** [expanduser]: a leading [~user] of a relative path becomes that user's home. *)
Definition expanduser (home : text → option Path) (p : Path) : option Path :=
  match names p with
  | first :: rest =>
    if negb (is_absolute p) && String.prefix "~" first
    then (λ h, mk_path (anchor h) (names h ++ rest)) <$> home first
    else Some p
  | [] => Some p
  end.

(** ** The layout *)

Definition DATABASE_ENV : text := "PROACTIVE_DATABASE".
Definition DEFAULT_DATABASE : Path := mk_path "" ["~"; ".proactive-mcp"; "proactive.db"].
Definition _CONFIG_NAME : text := "config.toml".

(** One component of the loop of [normalize_state_path]. *)
Definition normalize_step (normalized : Path) (part : text) : Path :=
  if bool_decide (part = ".."%string) then parent normalized else joined normalized part.
(** [None]: the home directory is unknown, a [RuntimeError]. *)
Definition normalize_state_path (home : text → option Path) (cwd p : Path) : option Path :=
  expanded ← expanduser home p;
  let candidate := if is_absolute expanded then expanded else join_path cwd expanded in
  Some (foldl normalize_step (mk_path (anchor candidate) []) (names candidate)).

Record ProactivePaths := mk_paths { pp_database : Path; pp_config : Path }.
Definition state_directory (p : ProactivePaths) : Path := parent (pp_database p).
Definition for_database (home : text → option Path) (cwd database : Path) : option ProactivePaths :=
  resolved ← normalize_state_path home cwd database;
  Some (mk_paths resolved (joined (parent resolved) _CONFIG_NAME)).
(** The value of the environment variable, parsed as a path. *)
Definition resolve_paths (home : text → option Path) (cwd : Path) (configured : option Path) : option ProactivePaths :=
  for_database home cwd (default DEFAULT_DATABASE configured).

(** ** Normalized paths *)

(** Absolute, without a parent traversal. *)
Definition normal (p : Path) : Prop := is_absolute p = true ∧ ".."%string ∉ names p.

Lemma elem_of_parent x p : x ∈ names (parent p) → x ∈ names p.
Proof. apply subseteq_take. Qed.
Lemma normal_parent p : normal p → normal (parent p).
Proof. intros [Ha Hn]. split; [done|]. by intros ?%elem_of_parent. Qed.
Lemma normal_joined p n : normal p → n ≠ ".."%string → normal (joined p n).
Proof. intros [Ha Hn] Hne. split; [done|]. cbn. set_solver. Qed.
Lemma parent_joined p n : parent (joined p n) = p.
Proof.
  destruct p as [a l]. unfold parent, joined. cbn. rewrite length_app. cbn. f_equal.
  rewrite take_app_le by lia. apply take_ge. lia.
Qed.
Lemma name_joined p n : name (joined p n) = n.
Proof. unfold name, joined. cbn. by rewrite last_snoc. Qed.

Lemma normalize_steps_normal ns p : normal p → normal (foldl normalize_step p ns).
Proof.
  revert p. induction ns as [|n ns IH]; intros p Hp; [done|]. apply IH. unfold normalize_step.
  case_bool_decide; [by apply normal_parent|by apply normal_joined].
Qed.
Lemma normalize_steps_id ns p :
  ".."%string ∉ ns → foldl normalize_step p ns = mk_path (anchor p) (names p ++ ns).
Proof.
  revert p. induction ns as [|n ns IH]; intros p Hns; cbn.
  - rewrite app_nil_r. by destruct p.
  - rewrite IH by set_solver. unfold normalize_step. rewrite bool_decide_eq_false_2 by set_solver.
    cbn. by rewrite <- app_assoc.
Qed.

(** A normalized path is its own normalization, wherever it is resolved. *)
Lemma normalize_normal home cwd p : normal p → normalize_state_path home cwd p = Some p.
Proof.
  intros [Ha Hn]. unfold normalize_state_path, expanduser. rewrite Ha. cbn.
  destruct (names p) as [|n ns] eqn:Hp; cbn; rewrite Ha, Hp, <- ?Hp.
  - by destruct p; cbn in *; subst.
  - rewrite normalize_steps_id by (by rewrite Hp). by destruct p.
Qed.
Lemma normalize_is_normal home cwd p q :
  is_absolute cwd = true → normalize_state_path home cwd p = Some q → normal q.
Proof.
  intros Hcwd. unfold normalize_state_path. destruct (expanduser home p) as [e|]; [|done]. intros [= <-].
  apply normalize_steps_normal. split; [|set_solver]. destruct (is_absolute e) eqn:He; [done|].
  unfold join_path. by rewrite He.
Qed.

(** Whatever the configured path and the working directory, the database path resolved is
    absolute and free of parent traversals, its configuration is its sibling, and resolving it
    again, from any directory, gives the same layout: every process of one installation that is
    given the resolved path uses the same files. *)
Theorem resolved_paths_are_stable home cwd configured p :
  is_absolute cwd = true → resolve_paths home cwd configured = Some p →
  normal (pp_database p) ∧ normal (state_directory p) ∧ parent (pp_config p) = state_directory p ∧
  ∀ home' cwd', resolve_paths home' cwd' (Some (pp_database p)) = Some p.
Proof.
  intros Hcwd. unfold resolve_paths, for_database.
  destruct (normalize_state_path home cwd (default DEFAULT_DATABASE configured)) as [q|] eqn:Hq; [|done].
  intros [= <-]. pose proof (normalize_is_normal _ _ _ _ Hcwd Hq) as Hn. cbn [pp_database pp_config].
  split; [done|]. split; [by apply normal_parent|]. split; [apply parent_joined|].
  intros home' cwd'. cbn [default]. by rewrite normalize_normal.
Qed.

Lemma resolved_paths_are_stable_witness :
  let home := λ _ : text, Some (mk_path "/" ["home"; "user"]) in
  let cwd := mk_path "/" ["srv"; "work"] in
  resolve_paths home cwd (Some (mk_path "" [".."; "state"; "x"; ".."; "p.db"])) =
    Some (mk_paths (mk_path "/" ["srv"; "state"; "p.db"]) (mk_path "/" ["srv"; "state"; "config.toml"])) ∧
  resolve_paths home cwd (Some (mk_path "/" ["srv"; "state"; "p.db"])) =
    Some (mk_paths (mk_path "/" ["srv"; "state"; "p.db"]) (mk_path "/" ["srv"; "state"; "config.toml"])).
Proof.
  split; [reflexivity|].
  destruct (resolved_paths_are_stable (λ _ : text, Some (mk_path "/" ["home"; "user"])) (mk_path "/" ["srv"; "work"])
    (Some (mk_path "" [".."; "state"; "x"; ".."; "p.db"])) _ eq_refl eq_refl) as (_ & _ & _ & Hsame).
  apply Hsame.
Defined.
