(* ===== verification/PyDate.v ===== *)
(** Calendar dates: the parts of Python's [datetime.date] the source uses
    (construction, comparison, [toordinal]/[fromordinal], adding days) and the
    leap-year helpers of [situations/_dates.py]. *)
From S2P Require Import Prelude.
#[local] Open Scope Z_scope.

(** The exceptions of the [datetime] arithmetic. *)
Inductive time_error := OverflowError | ValueError | TypeError.
#[export] Instance time_error_eq_dec : EqDecision time_error.
Proof. solve_decision. Defined.


(** ** Dates *)

Record date := mk_date { year : Z; month : Z; day : Z }.
#[export] Instance date_eq_dec : EqDecision date.
Proof. solve_decision. Defined.

Definition MINYEAR : Z := 1.
Definition MAXYEAR : Z := 9999.

Definition _is_leap_year (year : Z) : bool :=
  (year mod 4 =? 0) && (negb (year mod 100 =? 0) || (year mod 400 =? 0)).

Definition days_in_month (y m : Z) : Z :=
  if m =? 2 then (if _is_leap_year y then 29 else 28)
  else if (m =? 4) || (m =? 6) || (m =? 9) || (m =? 11) then 30 else 31.

(** [date(year, month, day)] raises [ValueError] outside the calendar. *)
Definition valid_date (d : date) : bool :=
  (MINYEAR <=? year d) && (year d <=? MAXYEAR) &&
  (1 <=? month d) && (month d <=? 12) &&
  (1 <=? day d) && (day d <=? days_in_month (year d) (month d)).

Definition make_date (y m d : Z) : res time_error date :=
  if valid_date (mk_date y m d) then Ok (mk_date y m d) else Err ValueError.

Definition _is_valid_date (y m d : Z) : bool :=
  match make_date y m d with Ok _ => true | Err _ => false end.

(** Days before January 1st of [y], and before the 1st of month [m] of [y]. *)
Definition days_before_year (y : Z) : Z :=
  (y - 1) * 365 + (y - 1) / 4 - (y - 1) / 100 + (y - 1) / 400.

Definition days_before_month (y m : Z) : Z :=
  (if m =? 1 then 0 else if m =? 2 then 31 else if m =? 3 then 59 else
   if m =? 4 then 90 else if m =? 5 then 120 else if m =? 6 then 151 else
   if m =? 7 then 181 else if m =? 8 then 212 else if m =? 9 then 243 else
   if m =? 10 then 273 else if m =? 11 then 304 else 334)
  + (if (2 <? m) && _is_leap_year y then 1 else 0).

(** [date.toordinal]: 0001-01-01 is day 1. *)
Definition toordinal (d : date) : Z :=
  days_before_year (year d) + days_before_month (year d) (month d) + day d.

Definition MAXORDINAL : Z := 3652059.

(** [date.fromordinal]: 400-, 100-, 4- and 1-year cycles, then the month whose
    first day precedes the day of the year. *)
Definition year_of_ordinal (n : Z) : Z * Z :=
  let n0 := n - 1 in
  let n400 := n0 / 146097 in let r400 := n0 mod 146097 in
  let n100 := r400 / 36524 in let r100 := r400 mod 36524 in
  let n4 := r100 / 1461 in let r4 := r100 mod 1461 in
  let n1 := r4 / 365 in let r1 := r4 mod 365 in
  let y := n400 * 400 + n100 * 100 + n4 * 4 + n1 + 1 in
  if (n1 =? 4) || (n100 =? 4) then (y - 1, 365) else (y, r1).

Definition month_of_day (y k : Z) : Z :=
  if k <? days_before_month y 2 then 1 else if k <? days_before_month y 3 then 2 else
  if k <? days_before_month y 4 then 3 else if k <? days_before_month y 5 then 4 else
  if k <? days_before_month y 6 then 5 else if k <? days_before_month y 7 then 6 else
  if k <? days_before_month y 8 then 7 else if k <? days_before_month y 9 then 8 else
  if k <? days_before_month y 10 then 9 else if k <? days_before_month y 11 then 10 else
  if k <? days_before_month y 12 then 11 else 12.

Definition fromordinal (n : Z) : date :=
  let '(y, k) := year_of_ordinal n in
  let m := month_of_day y k in
  mk_date y m (k - days_before_month y m + 1).

(** [d + timedelta(days=n)] raises [OverflowError] past the last date. *)
Definition add_days (d : date) (n : Z) : res time_error date :=
  let o := toordinal d + n in
  if (1 <=? o) && (o <=? MAXORDINAL) then Ok (fromordinal o) else Err OverflowError.

(** [date] comparison is lexicographic on (year, month, day). *)
Definition date_ltb (a b : date) : bool :=
  (year a <? year b) ||
  ((year a =? year b) &&
   ((month a <? month b) || ((month a =? month b) && (day a <? day b)))).
Definition date_leb (a b : date) : bool := negb (date_ltb b a).

(** [(a - b).days]. *)
Definition days_between (a b : date) : Z := toordinal a - toordinal b.

(** ** Calendar arithmetic *)

#[local] Ltac Zify.zify_post_hook ::= Z.div_mod_to_equations.

Definition year_length (y : Z) : Z := if _is_leap_year y then 366 else 365.

Lemma days_before_year_succ y :
  days_before_year (y + 1) = days_before_year y + year_length y.
Proof.
  unfold days_before_year, year_length, _is_leap_year.
  replace (y + 1 - 1) with y by lia.
  destruct (Z.eqb_spec (y mod 4) 0), (Z.eqb_spec (y mod 100) 0), (Z.eqb_spec (y mod 400) 0);
    simpl; lia.
Qed.

(** The position of a year in its 400-year cycle gives its leap rule. *)
Lemma year_quotients a b c d :
  0 ≤ b ≤ 3 → 0 ≤ c ≤ 24 → 0 ≤ d ≤ 3 →
  let x := 400 * a + 100 * b + 4 * c + d in
  x / 4 = 100 * a + 25 * b + c ∧ x / 100 = 4 * a + b ∧ x / 400 = a ∧
  _is_leap_year (x + 1) = (d =? 3) && (negb (c =? 24) || (b =? 3)).
Proof.
  intros Hb Hc Hd x. subst x. split; [lia|]. split; [lia|]. split; [lia|].
  unfold _is_leap_year.
  destruct (Z.eqb_spec d 3), (Z.eqb_spec c 24), (Z.eqb_spec b 3); simpl; lia.
Qed.

Lemma year_of_ordinal_spec n y k :
  year_of_ordinal n = (y, k) → days_before_year y + k = n - 1 ∧ 0 ≤ k < year_length y.
Proof.
  unfold year_of_ordinal. set (n0 := n - 1).
  set (n400 := n0 / 146097). set (r400 := n0 mod 146097).
  set (n100 := r400 / 36524). set (r100 := r400 mod 36524).
  set (n4 := r100 / 1461). set (r4 := r100 mod 1461).
  set (n1 := r4 / 365). set (r1 := r4 mod 365).
  assert (n0 = 146097 * n400 + r400 ∧ 0 ≤ r400 < 146097) by (subst r400 n400; lia).
  assert (r400 = 36524 * n100 + r100 ∧ 0 ≤ r100 < 36524) by (subst r100 n100; lia).
  assert (r100 = 1461 * n4 + r4 ∧ 0 ≤ r4 < 1461) by (subst r4 n4; lia).
  assert (r4 = 365 * n1 + r1 ∧ 0 ≤ r1 < 365) by (subst r1 n1; lia).
  clearbody n0 n400 r400 n100 r100 n4 r4 n1 r1.
  destruct (Z.eqb_spec n1 4); [|destruct (Z.eqb_spec n100 4)]; simpl; intros [= <- <-].
  - destruct (year_quotients n400 n100 n4 3) as (E4 & E100 & E400 & L); [lia..|].
    replace (n400 * 400 + n100 * 100 + n4 * 4 + n1 + 1 - 1)
      with (400 * n400 + 100 * n100 + 4 * n4 + 3 + 1) by lia.
    unfold days_before_year, year_length.
    rewrite L, Z.add_simpl_r, E4, E100, E400. 
    destruct (Z.eqb_spec 3 3), (Z.eqb_spec n4 24), (Z.eqb_spec n100 3); simpl; lia.
  - destruct (year_quotients n400 3 24 3) as (E4 & E100 & E400 & L); [lia..|].
    replace (n400 * 400 + n100 * 100 + n4 * 4 + n1 + 1 - 1)
      with (400 * n400 + 100 * 3 + 4 * 24 + 3 + 1) by lia.
    unfold days_before_year, year_length.
    rewrite L, Z.add_simpl_r, E4, E100, E400. simpl. lia.
  - destruct (year_quotients n400 n100 n4 n1) as (E4 & E100 & E400 & L); [lia..|].
    replace (n400 * 400 + n100 * 100 + n4 * 4 + n1 + 1)
      with (400 * n400 + 100 * n100 + 4 * n4 + n1 + 1) by lia.
    unfold days_before_year, year_length.
    rewrite L, Z.add_simpl_r, E4, E100, E400.
    destruct (Z.eqb_spec n1 3), (Z.eqb_spec n4 24), (Z.eqb_spec n100 3); simpl; lia.
Qed.

(** The month table: consecutive months are [days_in_month] apart. *)
Lemma month_of_day_spec y k :
  0 ≤ k < year_length y →
  let m := month_of_day y k in
  1 ≤ m ≤ 12 ∧ days_before_month y m ≤ k < days_before_month y m + days_in_month y m.
Proof.
  unfold year_length, month_of_day, days_before_month, days_in_month.
  intros Hk. destruct (_is_leap_year y); simpl;
    repeat case_match; simplify_eq/=; lia.
Qed.

Lemma month_step y m m' :
  1 ≤ m < m' → m' ≤ 12 →
  days_before_month y m + days_in_month y m ≤ days_before_month y m'.
Proof.
  intros Hm Hm'. unfold days_before_month, days_in_month.
  assert (m = 1 ∨ m = 2 ∨ m = 3 ∨ m = 4 ∨ m = 5 ∨ m = 6 ∨ m = 7 ∨ m = 8 ∨ m = 9 ∨ m = 10 ∨
    m = 11) as Hcase by lia.
  destruct (_is_leap_year y);
    repeat (destruct Hcase as [->|Hcase]; [simpl; repeat case_match; lia|]);
    subst m; simpl; repeat case_match; lia.
Qed.

Lemma month_end y m :
  1 ≤ m ≤ 12 → days_before_month y m + days_in_month y m ≤ year_length y.
Proof.
  intros Hm. unfold year_length.
  destruct (decide (m = 12)) as [->|].
  - unfold days_before_month, days_in_month. simpl. destruct (_is_leap_year y); lia.
  - pose proof (month_step y m 12 ltac:(lia) ltac:(lia)).
    assert (days_before_month y 12 = 334 + if _is_leap_year y then 1 else 0) by done.
    destruct (_is_leap_year y); lia.
Qed.

Lemma days_before_year_mono y y' : y < y' → days_before_year y + year_length y ≤ days_before_year y'.
Proof.
  intros Hy. rewrite <- days_before_year_succ. unfold days_before_year. lia.
Qed.

Lemma valid_date_spec d :
  valid_date d = true ↔
  1 ≤ year d ≤ 9999 ∧ 1 ≤ month d ≤ 12 ∧ 1 ≤ day d ≤ days_in_month (year d) (month d).
Proof. unfold valid_date, MINYEAR, MAXYEAR. lia. Qed.

(** [date.fromordinal] inverts [date.toordinal] on the whole calendar. *)
Lemma toordinal_fromordinal n : toordinal (fromordinal n) = n.
Proof.
  unfold fromordinal. destruct (year_of_ordinal n) as [y k] eqn:Hy.
  apply year_of_ordinal_spec in Hy as [Hn Hk]. unfold toordinal; simpl. lia.
Qed.

Lemma fromordinal_valid n : 1 ≤ n ≤ MAXORDINAL → valid_date (fromordinal n) = true.
Proof.
  intros Hn. unfold fromordinal. destruct (year_of_ordinal n) as [y k] eqn:Hy.
  apply year_of_ordinal_spec in Hy as [Hy Hk].
  destruct (month_of_day_spec y k Hk) as [Hm Hd].
  apply valid_date_spec; simpl. split; [|split; lia].
  unfold MAXORDINAL in Hn. unfold year_length, days_before_year in *.
  destruct (_is_leap_year y); lia.
Qed.

(** The lexicographic order of dates is the order of their day numbers. *)
Lemma date_ltb_ordinal a b :
  valid_date a = true → valid_date b = true → date_ltb a b = (toordinal a <? toordinal b).
Proof.
  rewrite !valid_date_spec. destruct a as [ya ma da], b as [yb mb db]; simpl.
  intros (_ & Hma & Hda) (_ & Hmb & Hdb). unfold date_ltb, toordinal; simpl.
  destruct (Z.ltb_spec ya yb) as [Hy|Hy]; simpl.
  { pose proof (days_before_year_mono ya yb Hy). pose proof (month_end ya ma Hma).
    assert (0 ≤ days_before_month yb mb).
    { unfold days_before_month. repeat case_match; lia. } symmetry; apply Z.ltb_lt. lia. }
  destruct (Z.eqb_spec ya yb) as [->|Hne]; simpl.
  2:{ pose proof (days_before_year_mono yb ya ltac:(lia)). pose proof (month_end yb mb Hmb).
      assert (0 ≤ days_before_month ya ma).
      { unfold days_before_month. repeat case_match; lia. } symmetry; apply Z.ltb_ge. lia. }
  destruct (Z.ltb_spec ma mb) as [Hm|Hm]; simpl.
  { pose proof (month_step yb ma mb ltac:(lia) ltac:(lia)). symmetry; apply Z.ltb_lt. lia. }
  destruct (Z.eqb_spec ma mb) as [->|Hne]; simpl; [lia|].
  pose proof (month_step yb mb ma ltac:(lia) ltac:(lia)). symmetry; apply Z.ltb_ge. lia.
Qed.

Lemma toordinal_inj a b :
  valid_date a = true → valid_date b = true → toordinal a = toordinal b → a = b.
Proof.
  intros Ha Hb Heq. pose proof (date_ltb_ordinal a b Ha Hb) as Hab.
  pose proof (date_ltb_ordinal b a Hb Ha) as Hba. rewrite Heq in *.
  destruct a as [ya ma da], b as [yb mb db]. unfold date_ltb in *; simpl in *.
  f_equal; lia.
Qed.

Lemma toordinal_range d : valid_date d = true → 1 ≤ toordinal d ≤ MAXORDINAL.
Proof.
  rewrite valid_date_spec. intros (Hy & Hm & Hd). unfold toordinal, MAXORDINAL.
  pose proof (month_end (year d) (month d) Hm).
  assert (0 ≤ days_before_month (year d) (month d)).
  { unfold days_before_month. repeat case_match; lia. }
  unfold days_before_year, year_length in *. split; [lia|].
  destruct (_is_leap_year (year d)) eqn:Hl; [|lia].
  assert (year d ≠ 9999) by (intros Hy9; by rewrite Hy9 in Hl). lia.
Qed.

Lemma fromordinal_toordinal d : valid_date d = true → fromordinal (toordinal d) = d.
Proof.
  intros Hd. apply toordinal_inj; [|done|apply toordinal_fromordinal].
  by apply fromordinal_valid, toordinal_range.
Qed.

Create HintDb time discriminated.
#[export] Hint Resolve fromordinal_valid toordinal_range : time.

(** A date lies within its year. *)
Lemma toordinal_in_year d :
  valid_date d = true → days_before_year (year d) + 1 ≤ toordinal d ≤ days_before_year (year d + 1).
Proof.
  rewrite valid_date_spec, days_before_year_succ. intros (_ & Hm & Hd). unfold toordinal.
  pose proof (month_end (year d) (month d) Hm).
  assert (0 ≤ days_before_month (year d) (month d)); [|lia].
  unfold days_before_month. repeat case_match; lia.
Qed.

(** The same month and day a year later is at most 366 days later. *)
Lemma toordinal_next_year y m d : toordinal (mk_date (y + 1) m d) - toordinal (mk_date y m d) ≤ 366.
Proof.
  unfold toordinal. cbn [year month day]. rewrite days_before_year_succ.
  unfold year_length, days_before_month.
  assert (∀ y, year_length y = if _is_leap_year y then 366 else 365) as Hlen by done.
  assert (_is_leap_year y = true → _is_leap_year (y + 1) = false) as Hleap.
  { unfold _is_leap_year. rewrite !andb_true_iff, Z.eqb_eq. intros [Hy _]. apply andb_false_iff. left. lia. }
  destruct (_is_leap_year y); [rewrite Hleap by done|destruct (_is_leap_year (y + 1))];
    destruct (2 <? m); simpl; lia.
Qed.

Lemma make_date_ok y m d r : make_date y m d = Ok r ↔ r = mk_date y m d ∧ valid_date r = true.
Proof. unfold make_date. destruct (valid_date (mk_date y m d)) eqn:Hv; split; [by intros [= <-]|by intros [-> _]|done|intros [-> ?]; congruence]. Qed.

Lemma add_days_ok d n r : add_days d n = Ok r → valid_date r = true ∧ toordinal r = toordinal d + n.
Proof.
  unfold add_days. destruct ((1 <=? toordinal d + n) && (toordinal d + n <=? MAXORDINAL)) eqn:Hb; [|done].
  intros [= <-]. apply andb_true_iff in Hb as [H1 H2]. rewrite Z.leb_le in H1, H2.
  split; [by apply fromordinal_valid|apply toordinal_fromordinal].
Qed.

Lemma add_days_total d n : 1 ≤ toordinal d + n ≤ MAXORDINAL → ∃ r, add_days d n = Ok r.
Proof. intros Hn. unfold add_days. rewrite !(proj2 (Z.leb_le _ _)) by lia. simpl. eauto. Qed.
