(* ===== verification/PyTime.v ===== *)
(** Instants and their stored form: aware datetimes as microseconds,
    [store/_situation_time.py] ([utc_iso]), [datetime.fromisoformat] on that form,
    time zones, and the date helpers of [situations/_dates.py]. *)
From Stdlib Require Import Ascii.
From S2P Require Import Prelude PyDate.
#[local] Open Scope Z_scope.

(** ** Instants *)

(** An aware [datetime] is the microsecond it denotes, counted from
    0001-01-01T00:00:00 UTC: aware values compare and subtract as instants
    whatever their [tzinfo] is.  A [timedelta] is a number of microseconds. *)
Abbreviation instant := Z (only parsing).
Abbreviation timedelta := Z (only parsing).

Definition US_PER_SECOND : Z := 1000000.
Definition US_PER_MINUTE : Z := 60000000.
Definition US_PER_HOUR : Z := 3600000000.
Definition US_PER_DAY : Z := 86400000000.
Definition MAX_INSTANT : Z := MAXORDINAL * US_PER_DAY - 1.

Definition in_range (t : instant) : bool := (0 <=? t) && (t <=? MAX_INSTANT).

(** [datetime + timedelta] raises [OverflowError] outside years 1 to 9999. *)
Definition dt_add (t : instant) (d : timedelta) : res time_error instant :=
  if in_range (t + d) then Ok (t + d) else Err OverflowError.

Lemma dt_add_ok t d r : dt_add t d = Ok r ↔ in_range (t + d) = true ∧ r = t + d.
Proof. unfold dt_add. destruct (in_range (t + d)); split; [by intros [= <-]|by intros [_ ->]|done|by intros []]. Qed.

(** ** The stored form *)

Definition digit (n : Z) : Ascii.ascii := Ascii.ascii_of_N (Z.to_N (48 + n)).

(** ["{:0wd}"] for a number of at most [w] digits. *)
Fixpoint pad (w : nat) (n : Z) : text :=
  match w with
  | O => ""%string
  | S w' => String (digit (n / 10 ^ Z.of_nat w')) (pad w' (n mod 10 ^ Z.of_nat w'))
  end.

Definition date_isoformat (d : date) : text :=
  (pad 4 (year d) +:+ "-" +:+ pad 2 (month d) +:+ "-" +:+ pad 2 (day d))%string.

Definition utc_suffix : text := "+00:00".

(** The fraction is printed only when it is not zero. *)
Definition fraction_isoformat (us : Z) : text :=
  if us =? 0 then utc_suffix else ("." +:+ pad 6 us +:+ utc_suffix)%string.

Definition instant_date (t : instant) : date := fromordinal (t / US_PER_DAY + 1).
Definition time_of_day (t : instant) : Z := t mod US_PER_DAY.

Definition time_isoformat (r : Z) : text :=
  (pad 2 (r / US_PER_HOUR) +:+ ":" +:+ pad 2 (r mod US_PER_HOUR / US_PER_MINUTE) +:+ ":" +:+
   pad 2 (r mod US_PER_MINUTE / US_PER_SECOND) +:+
   fraction_isoformat (r mod US_PER_SECOND))%string.

(** [value.astimezone(UTC).isoformat()]. *)
Definition utc_iso (t : instant) : text :=
  (date_isoformat (instant_date t) +:+ "T" +:+ time_isoformat (time_of_day t))%string.

(** [datetime.fromisoformat] on the form [utc_iso] writes. *)
Definition digit_value (c : Ascii.ascii) : option Z :=
  let n := Z.of_N (Ascii.N_of_ascii c) in
  if (48 <=? n) && (n <=? 57) then Some (n - 48) else None.

Fixpoint take_digits (w : nat) (acc : Z) (s : text) : option (Z * text) :=
  match w with
  | O => Some (acc, s)
  | S w' =>
    match s with
    | EmptyString => None
    | String c s' => v ← digit_value c; take_digits w' (10 * acc + v) s'
    end
  end.

Definition expect (c : Ascii.ascii) (s : text) : option text :=
  match s with
  | String c' s' => if decide (c = c') then Some s' else None
  | EmptyString => None
  end.

Definition parse_fraction (s : text) : option Z :=
  match expect "."%char s with
  | Some s' =>
    '(us, rest) ← take_digits 6 0 s';
    if decide (rest = utc_suffix) then Some us else None
  | None => if decide (s = utc_suffix) then Some 0 else None
  end.

Definition fromisoformat (s : text) : option instant :=
  '(y, s) ← take_digits 4 0 s; s ← expect "-"%char s;
  '(m, s) ← take_digits 2 0 s; s ← expect "-"%char s;
  '(d, s) ← take_digits 2 0 s; s ← expect "T"%char s;
  '(hh, s) ← take_digits 2 0 s; s ← expect ":"%char s;
  '(mm, s) ← take_digits 2 0 s; s ← expect ":"%char s;
  '(ss, s) ← take_digits 2 0 s; us ← parse_fraction s;
  let dt := mk_date y m d in
  if valid_date dt && (hh <? 24) && (mm <? 60) && (ss <? 60)
  then Some ((toordinal dt - 1) * US_PER_DAY + hh * US_PER_HOUR + mm * US_PER_MINUTE
             + ss * US_PER_SECOND + us)
  else None.

Example utc_iso_plain : utc_iso 63839577600000000 = "2023-12-31T00:00:00+00:00"%string.
Proof. vm_compute. reflexivity. Qed.

(** ** The text order of stored timestamps is the order of instants *)

(** Lexicographic composition of comparisons. *)
Definition lex (c1 c2 : comparison) : comparison := match c1 with Eq => c2 | _ => c1 end.

Lemma lex_eq_r c : lex c Eq = c.
Proof. by destruct c. Qed.
Lemma lex_assoc c1 c2 c3 : lex (lex c1 c2) c3 = lex c1 (lex c2 c3).
Proof. by destruct c1. Qed.

Lemma string_compare_cons c1 s1 c2 s2 :
  String.compare (String c1 s1) (String c2 s2) = lex (Ascii.compare c1 c2) (String.compare s1 s2).
Proof. simpl. unfold lex. by destruct (Ascii.compare c1 c2). Qed.

Lemma string_compare_app s1 s2 t1 t2 :
  String.length s1 = String.length s2 →
  String.compare (s1 +:+ t1) (s2 +:+ t2) = lex (String.compare s1 s2) (String.compare t1 t2).
Proof.
  revert s2. induction s1 as [|c1 s1 IH]; intros [|c2 s2] Hl; try done.
  change (String.compare (String c1 (s1 +:+ t1)) (String c2 (s2 +:+ t2)) =
    lex (String.compare (String c1 s1) (String c2 s2)) (String.compare t1 t2)).
  rewrite !string_compare_cons, IH by (simpl in Hl; lia). by rewrite lex_assoc.
Qed.

Lemma digit_compare a b :
  0 ≤ a < 10 → 0 ≤ b < 10 → Ascii.compare (digit a) (digit b) = (a ?= b).
Proof.
  intros Ha Hb. unfold Ascii.compare, digit. rewrite !Ascii.N_ascii_embedding by lia.
  rewrite Z2N.inj_compare by lia. by rewrite Z.add_compare_mono_l.
Qed.

(** Comparison goes by quotient, then by remainder. *)
Lemma compare_div_mod k a b :
  0 < k → (a ?= b) = lex (a / k ?= b / k) (a mod k ?= b mod k).
Proof.
  intros Hk. pose proof (Z.div_mod a k ltac:(lia)). pose proof (Z.div_mod b k ltac:(lia)).
  pose proof (Z.mod_pos_bound a k Hk). pose proof (Z.mod_pos_bound b k Hk).
  destruct (Z.compare_spec (a / k) (b / k)) as [Heq|Hlt|Hlt]; simpl.
  - destruct (Z.compare_spec (a mod k) (b mod k));
      [apply Z.compare_eq_iff|apply Z.compare_lt_iff|apply Z.compare_gt_iff]; nia.
  - apply Z.compare_lt_iff. nia.
  - apply Z.compare_gt_iff. nia.
Qed.

Lemma length_pad w n : String.length (pad w n) = w.
Proof. revert n. induction w as [|w IH]; intros n; simpl; [done|]. by rewrite IH. Qed.

Lemma pad_digit_range w n : 0 ≤ n < 10 ^ Z.of_nat (S w) → 0 ≤ n / 10 ^ Z.of_nat w < 10.
Proof.
  rewrite Nat2Z.inj_succ, Z.pow_succ_r by lia. intros Hn. split.
  - apply Z.div_pos; lia.
  - apply Z.div_lt_upper_bound; lia.
Qed.

Lemma pad_compare w a b :
  0 ≤ a < 10 ^ Z.of_nat w → 0 ≤ b < 10 ^ Z.of_nat w →
  String.compare (pad w a) (pad w b) = (a ?= b).
Proof.
  revert a b. induction w as [|w IH]; intros a b Ha Hb.
  - simpl in *. assert (a = b) as -> by lia. by rewrite Z.compare_refl.
  - cbn [pad]. rewrite string_compare_cons, digit_compare by (by apply pad_digit_range).
    pose proof (Z.mod_pos_bound a (10 ^ Z.of_nat w) ltac:(lia)).
    pose proof (Z.mod_pos_bound b (10 ^ Z.of_nat w) ltac:(lia)).
    rewrite IH by lia. symmetry. apply compare_div_mod. lia.
Qed.

Lemma text_sep_compare sep s1 s2 :
  String.compare (sep +:+ s1) (sep +:+ s2) = String.compare s1 s2.
Proof. by rewrite string_compare_app, text_compare_refl by done. Qed.

Lemma fraction_compare a b :
  0 ≤ a < 1000000 → 0 ≤ b < 1000000 →
  String.compare (fraction_isoformat a) (fraction_isoformat b) = (a ?= b).
Proof.
  intros Ha Hb. unfold fraction_isoformat.
  destruct (Z.eqb_spec a 0) as [->|Hna], (Z.eqb_spec b 0) as [->|Hnb].
  - done.
  - trans Lt; [done|]. symmetry. apply Z.compare_lt_iff. lia.
  - trans Gt; [done|]. symmetry. apply Z.compare_gt_iff. lia.
  - rewrite text_sep_compare.
    rewrite string_compare_app, pad_compare by (rewrite ?length_pad; lia).
    by rewrite text_compare_refl, lex_eq_r.
Qed.

Ltac iso_range := unfold time_of_day, US_PER_DAY, US_PER_HOUR, US_PER_MINUTE, US_PER_SECOND in *;
  Z.div_mod_to_equations; lia.

Lemma time_isoformat_compare a b :
  0 ≤ a < US_PER_DAY → 0 ≤ b < US_PER_DAY →
  String.compare (time_isoformat a) (time_isoformat b) = (a ?= b).
Proof.
  intros Ha Hb. unfold time_isoformat.
  assert (∀ r, 0 ≤ r < US_PER_DAY → 0 ≤ r / US_PER_HOUR < 100) by (intros; iso_range).
  assert (∀ r, 0 ≤ r mod US_PER_HOUR / US_PER_MINUTE < 100) by (intros; iso_range).
  assert (∀ r, 0 ≤ r mod US_PER_MINUTE / US_PER_SECOND < 100) by (intros; iso_range).
  repeat (rewrite string_compare_app by (by rewrite !length_pad); rewrite pad_compare by auto;
    rewrite text_sep_compare || idtac).
  rewrite fraction_compare by (apply Z.mod_pos_bound; done).
  assert (∀ r, r mod US_PER_HOUR mod US_PER_MINUTE = r mod US_PER_MINUTE) as Hhm
    by (intros; apply Z.mod_mod_divide; by exists 60).
  assert (∀ r, r mod US_PER_MINUTE mod US_PER_SECOND = r mod US_PER_SECOND) as Hms
    by (intros; apply Z.mod_mod_divide; by exists 60).
  rewrite (compare_div_mod US_PER_HOUR a b) by done.
  rewrite (compare_div_mod US_PER_MINUTE (a mod US_PER_HOUR) (b mod US_PER_HOUR)), !Hhm by done.
  by rewrite (compare_div_mod US_PER_SECOND (a mod US_PER_MINUTE) (b mod US_PER_MINUTE)), !Hms by done.
Qed.

(** The order of dates, field by field. *)
Lemma date_compare_fields a b :
  valid_date a = true → valid_date b = true →
  (toordinal a ?= toordinal b) =
    lex (year a ?= year b) (lex (month a ?= month b) (day a ?= day b)).
Proof.
  intros Ha Hb. pose proof (date_ltb_ordinal a b Ha Hb) as Hab.
  pose proof (date_ltb_ordinal b a Hb Ha) as Hba. unfold date_ltb in *.
  destruct (Z.compare_spec (year a) (year b)) as [Hy|Hy|Hy]; simpl;
    [destruct (Z.compare_spec (month a) (month b)) as [Hm|Hm|Hm]; simpl;
      [destruct (Z.compare_spec (day a) (day b)) as [Hd|Hd|Hd]|..]|..];
    first [apply Z.compare_lt_iff; lia | apply Z.compare_gt_iff; lia
          | apply Z.compare_eq_iff; lia].
Qed.

Lemma date_isoformat_compare a b :
  valid_date a = true → valid_date b = true →
  String.compare (date_isoformat a) (date_isoformat b) = (toordinal a ?= toordinal b).
Proof.
  intros Ha Hb. rewrite date_compare_fields by done. apply valid_date_spec in Ha, Hb.
  assert (∀ y m, days_in_month y m < 100) as Hdim
    by (intros; unfold days_in_month; repeat case_match; lia).
  pose proof (Hdim (year a) (month a)). pose proof (Hdim (year b) (month b)).
  unfold date_isoformat.
  by rewrite !string_compare_app, !text_compare_refl, !pad_compare by (rewrite ?length_pad; lia).
Qed.

Lemma length_date_isoformat d : String.length (date_isoformat d) = 10%nat.
Proof. done. Qed.

Lemma in_range_spec t : in_range t = true ↔ 0 ≤ t ≤ MAX_INSTANT.
Proof. unfold in_range. lia. Qed.

Lemma instant_date_valid t : in_range t = true → valid_date (instant_date t) = true.
Proof.
  rewrite in_range_spec. unfold MAX_INSTANT. intros Ht. apply fromordinal_valid.
  unfold US_PER_DAY, MAXORDINAL in *. Z.div_mod_to_equations; lia.
Qed.

(** The string comparison of two stored timestamps is the comparison of the
    instants they denote: what every [ORDER BY], [<=] and [>] on a timestamp
    column of the SQL relies on, fractional seconds included. *)
Lemma utc_iso_compare a b :
  in_range a = true → in_range b = true →
  String.compare (utc_iso a) (utc_iso b) = (a ?= b).
Proof.
  intros Ha Hb. unfold utc_iso.
  rewrite string_compare_app by done.
  rewrite date_isoformat_compare by (by apply instant_date_valid).
  rewrite text_sep_compare, time_isoformat_compare by (apply Z.mod_pos_bound; done).
  rewrite (compare_div_mod US_PER_DAY a b) by done. f_equal.
  unfold instant_date. rewrite !toordinal_fromordinal, !(Z.add_comm _ 1).
  by rewrite Z.add_compare_mono_l.
Qed.

Corollary utc_iso_ltb a b :
  in_range a = true → in_range b = true → text_ltb (utc_iso a) (utc_iso b) = (a <? b).
Proof.
  intros Ha Hb. unfold text_ltb, Z.ltb. rewrite utc_iso_compare by done. done.
Qed.

Corollary utc_iso_leb a b :
  in_range a = true → in_range b = true → text_leb (utc_iso a) (utc_iso b) = (a <=? b).
Proof.
  intros Ha Hb. unfold text_leb, Z.leb. rewrite utc_iso_compare by done. done.
Qed.

(** ** Reading a stored timestamp back *)

Lemma digit_value_digit n : 0 ≤ n < 10 → digit_value (digit n) = Some n.
Proof.
  intros Hn. unfold digit_value, digit. rewrite N_ascii_embedding by lia.
  rewrite Z2N.id by lia.
  destruct (Z.leb_spec 48 (48 + n)), (Z.leb_spec (48 + n) 57); simpl; try lia.
  f_equal; lia.
Qed.

Lemma take_digits_pad w n acc rest :
  0 ≤ n < 10 ^ Z.of_nat w →
  take_digits w acc (pad w n +:+ rest) = Some (acc * 10 ^ Z.of_nat w + n, rest).
Proof.
  revert n acc. induction w as [|w IH]; intros n acc Hn.
  - simpl in *. do 2 f_equal. lia.
  - change (pad (S w) n +:+ rest)%string with
      (String (digit (n / 10 ^ Z.of_nat w)) (pad w (n mod 10 ^ Z.of_nat w) +:+ rest)).
    cbn [take_digits]. rewrite digit_value_digit by (by apply pad_digit_range). simpl.
    pose proof (Z.mod_pos_bound n (10 ^ Z.of_nat w) ltac:(lia)).
    rewrite IH by done. do 2 f_equal.
    rewrite Nat2Z.inj_succ, Z.pow_succ_r by lia.
    pose proof (Z.div_mod n (10 ^ Z.of_nat w) ltac:(lia)). nia.
Qed.

Lemma expect_app c s : expect c (String c "" +:+ s) = Some s.
Proof. simpl. by rewrite decide_True by done. Qed.

Lemma take_digits_bind {B} w n rest (k : Z * text → option B) :
  0 ≤ n < 10 ^ Z.of_nat w → (take_digits w 0 (pad w n +:+ rest) ≫= k) = k (n, rest).
Proof. intros Hn. by rewrite take_digits_pad by done. Qed.

Lemma expect_bind {B} c s (k : text → option B) : (expect c (String c "" +:+ s) ≫= k) = k s.
Proof. by rewrite expect_app. Qed.

Lemma parse_fraction_iso us :
  0 ≤ us < 1000000 → parse_fraction (fraction_isoformat us) = Some us.
Proof.
  intros Hus. unfold parse_fraction, fraction_isoformat.
  destruct (Z.eqb_spec us 0) as [->|Hne]; [done|].
  rewrite expect_app, take_digits_bind by done. cbv beta iota.
  by rewrite decide_True by done.
Qed.

(** [datetime.fromisoformat] reads back the instant [utc_iso] wrote. *)
Lemma fromisoformat_utc_iso t : in_range t = true → fromisoformat (utc_iso t) = Some t.
Proof.
  intros Ht. pose proof (instant_date_valid t Ht) as Hv.
  pose proof (proj1 (valid_date_spec _) Hv) as (Hy & Hm & Hd).
  assert (days_in_month (year (instant_date t)) (month (instant_date t)) < 100)
    by (unfold days_in_month; repeat case_match; lia).
  pose proof (Z.mod_pos_bound t US_PER_DAY ltac:(done)) as Hr. fold (time_of_day t) in Hr.
  assert (0 ≤ time_of_day t / US_PER_HOUR < 24) as Hh by iso_range.
  assert (0 ≤ time_of_day t mod US_PER_HOUR / US_PER_MINUTE < 60) as Hmi by iso_range.
  assert (0 ≤ time_of_day t mod US_PER_MINUTE / US_PER_SECOND < 60) as Hs by iso_range.
  unfold fromisoformat, utc_iso, date_isoformat, time_isoformat.
  rewrite !text_app_assoc.
  do 5 (rewrite take_digits_bind by lia; cbv beta iota;
    rewrite expect_bind; cbv beta).
  rewrite take_digits_bind by lia. cbv beta iota.
  rewrite parse_fraction_iso by (apply Z.mod_pos_bound; done). cbn [mbind option_bind].
  assert (mk_date (year (instant_date t)) (month (instant_date t)) (day (instant_date t)) =
    instant_date t) as Hdate by (by destruct (instant_date t)). rewrite Hdate, Hv.
  rewrite !(proj2 (Z.ltb_lt _ _)) by lia. simpl. f_equal.
  unfold instant_date at 1. rewrite toordinal_fromordinal. clear -Hr.
  pose proof (Z.div_mod t US_PER_DAY ltac:(done)) as Ht. fold (time_of_day t) in Ht.
  revert Ht. generalize (t / US_PER_DAY) (time_of_day t). intros q r ->. clear. iso_range.
Qed.

(** ** Time zones *)

(** A [tzinfo]: the UTC offset in force at an instant ([astimezone]) and the one
    a wall-clock time is read with ([datetime.combine], fold 0).  Both come from
    the zone database, which is data and not code of the repository. *)
Record tzinfo := mk_tzinfo {
  utcoffset : instant → timedelta;
  wall_offset : Z → timedelta;
}.

Definition fixed_offset (o : timedelta) : tzinfo := mk_tzinfo (λ _, o) (λ _, o).
Definition UTC : tzinfo := fixed_offset 0.

(** [value.astimezone(tz)], as wall-clock microseconds. *)
Definition astimezone (t : instant) (tz : tzinfo) : res time_error Z :=
  dt_add t (utcoffset tz t).

(** [value.astimezone(tz).date()]. *)
Definition local_date (t : instant) (tz : tzinfo) : res time_error date :=
  wall ← astimezone t tz; mret (instant_date wall).

(** Midnight of [d] on the wall clock. *)
Definition wall_midnight (d : date) : Z := (toordinal d - 1) * US_PER_DAY.

(** [datetime.combine(day, time.min, tzinfo=tz).astimezone(UTC)]. *)
Definition local_day_start (d : date) (tz : tzinfo) : res time_error instant :=
  dt_add (wall_midnight d) (- wall_offset tz (wall_midnight d)).

Definition local_day_end (d : date) (tz : tzinfo) : res time_error instant :=
  next ← add_days d 1; local_day_start next tz.

(** [_occurrence_in_year]: a February 29 anchor falls back to February 28. *)
Definition _occurrence_in_year (y m d : Z) : res time_error date :=
  if (m =? 2) && (d =? 29) && negb (_is_leap_year y)
  then make_date y 2 28
  else make_date y m d.

Definition yearly_occurrence_on_or_after (today : date) (m d : Z) : res time_error date :=
  occurrence ← _occurrence_in_year (year today) m d;
  if date_leb today occurrence then mret occurrence
  else _occurrence_in_year (year today + 1) m d.

(** [^(\d{4})-(\d{2})-(\d{2})$] and [^--(\d{2})-(\d{2})$]: the dollar also
    matches before one trailing line feed. *)
Definition at_end (s : text) : bool :=
  match s with
  | EmptyString => true
  | String c EmptyString => bool_decide (c = "010"%char)
  | _ => false
  end.

Definition match_full_anchor (s : text) : option (Z * Z * Z) :=
  '(y, s) ← take_digits 4 0 s; s ← expect "-"%char s;
  '(m, s) ← take_digits 2 0 s; s ← expect "-"%char s;
  '(d, s) ← take_digits 2 0 s; if at_end s then Some (y, m, d) else None.

Definition match_yearless_anchor (s : text) : option (Z * Z) :=
  s ← expect "-"%char s; s ← expect "-"%char s;
  '(m, s) ← take_digits 2 0 s; s ← expect "-"%char s;
  '(d, s) ← take_digits 2 0 s; if at_end s then Some (m, d) else None.

Definition parse_anchor (anchor : text) : option (option Z * Z * Z) :=
  match match_full_anchor anchor with
  | Some (y, m, d) => if _is_valid_date y m d then Some (Some y, m, d) else None
  | None =>
    match match_yearless_anchor anchor with
    | None => None
    | Some (m, d) => if _is_valid_date 2024 m d then Some (None, m, d) else None
    end
  end.
