(* ===== verification/Codec.v ===== *)
(** The standard-library decoders the Gmail projection uses: [base64.b64decode] with the
    URL-safe alphabet and validation, UTF-8 decoding that ignores errors, and
    [datetime.fromtimestamp] of a quotient in binary floating point. *)
From Stdlib Require Import Ascii SpecFloat.
From S2P Require Import Prelude PyDate PyTime.
#[local] Open Scope Z_scope.

(** ** Base64 *)

Definition byte_value (a : ascii) : Z := Z.of_N (N_of_ascii a).
Definition byte_of (n : Z) : ascii := ascii_of_N (Z.to_N (n mod 256)).

(** [altchars=b"-_"] adds to the standard alphabet. *)
Definition base64_value (a : ascii) : option Z :=
  let n := byte_value a in
  if (65 <=? n) && (n <=? 90) then Some (n - 65)
  else if (97 <=? n) && (n <=? 122) then Some (n - 71)
  else if (48 <=? n) && (n <=? 57) then Some (n + 4)
  else if (n =? 43) || (n =? 45) then Some 62
  else if (n =? 47) || (n =? 95) then Some 63
  else None.
Definition PAD : ascii := "=".

(** [binascii.a2b_base64(s, strict_mode=True)]: the bits left of the current quad, the place
    in it, and the padding seen. *)
Fixpoint a2b_base64 (s : text) (quad left pads : Z) (padding_started : bool) : option text :=
  match s with
  | EmptyString => if quad =? 0 then Some ""%string else None
  | String c rest =>
    if Ascii.eqb c PAD then
      if 2 <=? quad then
        if 4 <=? quad + pads + 1 then (if bool_decide (rest = ""%string) then Some ""%string else None)
        else a2b_base64 rest quad left (pads + 1) true
      else a2b_base64 rest quad left pads true
    else
      match base64_value c with
      | None => None
      | Some v =>
        if padding_started then None
        else if quad =? 0 then a2b_base64 rest 1 v 0 padding_started
        else if quad =? 1 then String (byte_of (Z.lor (Z.shiftl left 2) (Z.shiftr v 4))) <$> a2b_base64 rest 2 (Z.land v 15) 0 padding_started
        else if quad =? 2 then String (byte_of (Z.lor (Z.shiftl left 4) (Z.shiftr v 2))) <$> a2b_base64 rest 3 (Z.land v 3) 0 padding_started
        else String (byte_of (Z.lor (Z.shiftl left 6) v)) <$> a2b_base64 rest 0 0 0 padding_started
      end
  end.

Fixpoint all_ascii (s : text) : bool :=
  match s with EmptyString => true | String a rest => (byte_value a <? 128) && all_ascii rest end.

(** [base64.b64decode(s, altchars=b"-_", validate=True)] of a [str]: [None] for
    [binascii.Error], and [ValueError] itself when a character is not ASCII. *)
Definition b64decode (s : text) : res time_error (option text) :=
  if negb (all_ascii s) then Err ValueError
  else Ok (match s with
           | String c _ => if Ascii.eqb c PAD then None else a2b_base64 s 0 0 0 false
           | EmptyString => Some ""%string
           end).

Example b64_words : b64decode "SGVsbG8gd29ybGQ=" = Ok (Some "Hello world"%string).
Proof. vm_compute. reflexivity. Qed.
Example b64_url_safe : b64decode "7ZWc-_8=" = Ok (Some (String "237" (String "149" (String "156" (String "251" (String "255" "")))))%string).
Proof. vm_compute. reflexivity. Qed.
Example b64_bad : (b64decode "QUI", b64decode "QU=C", b64decode "=QUI") = (Ok None, Ok None, Ok None).
Proof. vm_compute. reflexivity. Qed.

(** ** UTF-8 *)

(** After a lead byte: how many bytes follow and the range of the first. *)
Definition utf8_lead (c : Z) : option (nat * Z * Z) :=
  if (194 <=? c) && (c <=? 223) then Some (1%nat, 128, 191)
  else if c =? 224 then Some (2%nat, 160, 191)
  else if c =? 237 then Some (2%nat, 128, 159)
  else if (225 <=? c) && (c <=? 239) then Some (2%nat, 128, 191)
  else if c =? 240 then Some (3%nat, 144, 191)
  else if (241 <=? c) && (c <=? 243) then Some (3%nat, 128, 191)
  else if c =? 244 then Some (3%nat, 128, 143)
  else None.

(** [bytes.decode(errors="ignore")]: [pending] is an incomplete sequence that still needs
    [need] bytes, the next one from [lo] to [hi]; a sequence that breaks off is dropped and the
    byte that broke it is looked at again. *)
Fixpoint utf8_ignore (s pending : text) (need : nat) (lo hi : Z) : text :=
  match s with
  | EmptyString => ""%string
  | String a rest =>
    let c := byte_value a in
    let fresh :=
      if c <? 128 then String a (utf8_ignore rest "" 0 0 0)
      else match utf8_lead c with
           | Some (n, lo, hi) => utf8_ignore rest (String a "") n lo hi
           | None => utf8_ignore rest "" 0 0 0
           end in
    match need with
    | O => fresh
    | S need =>
      if (lo <=? c) && (c <=? hi) then
        let pending := (pending +:+ String a "")%string in
        match need with
        | O => (pending +:+ utf8_ignore rest "" 0 0 0)%string
        | S _ => utf8_ignore rest pending need 128 191
        end
      else fresh
    end
  end.
Definition decode_ignore (s : text) : text := utf8_ignore s "" 0 0 0.

Example utf8_drops : decode_ignore (String "237" (String "149" (String "065" (String "255" (String "195" (String "169" ""))))))%string =
  (String "065" (String "195" (String "169" "")))%string.
Proof. vm_compute. reflexivity. Qed.

(** ** [datetime.fromtimestamp(milliseconds / 1000, tz=UTC)] *)

Definition float_of (m e : Z) : spec_float := binary_normalize 53 1024 m e false.

(** [a / b] of two integers, correctly rounded. *)
Definition exact (n : Z) : spec_float :=
  match n with Z0 => S754_zero false | Zpos m => S754_finite false m 0 | Zneg m => S754_finite true m 0 end.
Definition true_divide (a b : Z) : spec_float := SFdiv 53 1024 (exact a) (exact b).

(** Whole part and remainder of a float, toward zero. *)
Definition modf (x : spec_float) : option (Z * spec_float) :=
  match x with
  | S754_zero _ => Some (0, S754_zero false)
  | S754_finite sign m e =>
    let v := if sign then Z.neg m else Z.pos m in
    if 0 <=? e then Some (v * 2 ^ e, S754_zero false)
    else Some (Z.quot v (2 ^ (- e)), float_of (Z.rem v (2 ^ (- e))) e)
  | _ => None
  end.

(** The nearest integer to a float, halves to even. *)
Definition round_half_even (x : spec_float) : Z :=
  match x with
  | S754_finite sign m e =>
    if 0 <=? e then (if sign then Z.neg m else Z.pos m) * 2 ^ e else
    let q := Z.pos m / 2 ^ (- e) in
    let r := 2 * (Z.pos m mod 2 ^ (- e)) in
    let n := if r <? 2 ^ (- e) then q else if 2 ^ (- e) <? r then q + 1 else if Z.even q then q else q + 1 in
    if sign then - n else n
  | _ => 0
  end.

(** 1970-01-01 in microseconds from 0001-01-01. *)
Definition EPOCH : instant := 62135596800000000.

(** [None] where Python raises [OverflowError], [OSError] or [ValueError]. *)
Definition fromtimestamp_ms (milliseconds : Z) : option instant :=
  '(seconds, fraction) ← modf (true_divide milliseconds 1000);
  let us := round_half_even (SFmul 53 1024 fraction (float_of 1000000 0)) in
  let t := EPOCH + seconds * US_PER_SECOND + us in
  if in_range t then Some t else None.

Example timestamp_now : fromtimestamp_ms 1773403200123 = Some (EPOCH + 1773403200123000).
Proof. vm_compute. reflexivity. Qed.
Example timestamp_far : fromtimestamp_ms 200000000000001 = Some (EPOCH + 200000000000001007).
Proof. vm_compute. reflexivity. Qed.

(** [int(value.timestamp())]. *)
Definition timestamp_seconds (t : instant) : Z :=
  match modf (true_divide (t - EPOCH) 1000000) with Some (seconds, _) => seconds | None => 0 end.
