(* ===== verification/Durations.v ===== *)
(** [timedelta(minutes=x)], [timedelta(hours=x)] and [timedelta(days=x)] of an [int] or a
    [float], as CPython computes them: integers exactly, a float by its whole part and a rounded
    product of its fraction, to the nearest microsecond.  A positive float within the calendar's
    reach always gives a duration. *)
From Stdlib Require Import SpecFloat.
From S2P Require Import Prelude PyDate PyTime Codec.
#[local] Open Scope Z_scope.

(** A Python [float]. *)
Definition binary64 : Type := { x : spec_float | valid_binary 53 1024 x = true }.

(** [0 < x <= n] for an integer [n]; false of infinities and of NaN. *)
Definition float_in (x : spec_float) (n : Z) : bool :=
  match x with
  | S754_finite false m e =>
    if 0 <=? e then Z.pos m * 2 ^ e <=? n else Z.pos m <=? n * 2 ^ (- e)
  | _ => false
  end.

Definition is_zero (x : spec_float) : bool :=
  match x with S754_zero _ => true | _ => false end.

(** [accum]: the exact part of a product and what it left over; [OverflowError] where a part
    is not finite. *)
Definition accum (num : spec_float) (factor : Z) : res time_error (Z * spec_float) :=
  match modf num with
  | None => Err OverflowError
  | Some (whole, fraction) =>
    if is_zero fraction then Ok (whole * factor, S754_zero false) else
    match modf (SFmul 53 1024 fraction (float_of factor 0)) with
    | None => Err OverflowError
    | Some (more, leftover) => Ok (whole * factor + more, leftover)
    end
  end.

(** The leftover below one microsecond rounds to the nearest, and a half to the even sum. *)
Definition round_leftover (x : Z) (leftover : spec_float) : Z :=
  match leftover with
  | S754_finite false m e =>
    let half := 2 ^ (- e) in
    if 2 * Z.pos m <? half then x else if half <? 2 * Z.pos m then x + 1
    else if Z.odd x then x + 1 else x
  | _ => x
  end.

Definition float_span (x : spec_float) (factor : Z) : res time_error timedelta :=
  '(us, leftover) ← accum x factor;
  mret (round_leftover us leftover).

(** ** A float duration is never lost *)

(** A result of a rounding: zero, or positive with a mantissa and an exponent in bounds. *)
Definition tame (k e : Z) (x : spec_float) : Prop :=
  match x with
  | S754_zero _ => True
  | S754_finite false m ex => Z.pos m ≤ 2 ^ k ∧ ex ≤ e
  | _ => False
  end.

Lemma digits_size p : digits2_pos p = Pos.size p.
Proof. induction p as [p IH|p IH|]; simpl; by rewrite ?IH. Qed.

Lemma digits_bound p k : 0 ≤ k → Z.pos p ≤ 2 ^ k → Z.pos (digits2_pos p) ≤ k + 1.
Proof.
  intros Hk Hp. rewrite digits_size. pose proof (Pos.size_le p) as Hs.
  apply (Z.pow_le_mono_r_iff 2); [lia|lia|].
  assert (2 ^ Z.pos (Pos.size p) ≤ 2 * Z.pos p) by (rewrite <- Pos2Z.inj_pow; lia).
  rewrite Z.pow_add_r by lia. lia.
Qed.

Lemma size_bound p k : 0 ≤ k → Z.pos (digits2_pos p) ≤ k → Z.pos p < 2 ^ k.
Proof.
  intros Hk Hp. rewrite digits_size in Hp. pose proof (Pos.size_gt p) as Hs.
  apply Z.lt_le_trans with (2 ^ Z.pos (Pos.size p)); [rewrite <- Pos2Z.inj_pow; lia|].
  apply Z.pow_le_mono_r; lia.
Qed.

Lemma shr_1_bound r : 0 ≤ shr_m r → 0 ≤ shr_m (shr_1 r) ≤ shr_m r.
Proof. destruct r as [[|[p|p|]|p] ? ?]; simpl; lia. Qed.

Lemma iter_shr_bound p : ∀ r, 0 ≤ shr_m r → 0 ≤ shr_m (SpecFloat.iter_pos shr_1 p r) ≤ shr_m r.
Proof.
  induction p as [p IH|p IH|]; intros r Hr; simpl.
  - pose proof (shr_1_bound r Hr). pose proof (IH (shr_1 r)). pose proof (IH (SpecFloat.iter_pos shr_1 p (shr_1 r))). lia.
  - pose proof (IH r Hr). pose proof (IH (SpecFloat.iter_pos shr_1 p r)). lia.
  - by apply shr_1_bound.
Qed.

Lemma shr_fexp_bound m e r e' k :
  0 ≤ k → 0 ≤ m ≤ 2 ^ k → shr_fexp 53 1024 m e loc_Exact = (r, e') →
  0 ≤ shr_m r ≤ m ∧ e' ≤ Z.max e (Z.max (k + e - 52) (-1074)).
Proof.
  intros Hk Hm. assert (Zdigits2 m ≤ k + 1) as Hd.
  { destruct m as [|p|p]; simpl; [lia| |lia]. by apply digits_bound; lia. }
  unfold shr_fexp, shr. set (n := fexp _ _ _ - e).
  assert (e + n ≤ Z.max (k + e - 52) (-1074)).
  { unfold n, fexp, emin. lia. }
  clearbody n. destruct n as [|p|p]; intros [= <- <-].
  - simpl. lia.
  - pose proof (iter_shr_bound p (shr_record_of_loc m loc_Exact)) as Hit. simpl in *. lia.
  - simpl. lia.
Qed.

Lemma round_nearest_bound m l : m ≤ round_nearest_even m l ≤ m + 1.
Proof. destruct l as [|[]]; simpl; [lia|destruct (Z.even m); lia|lia|lia]. Qed.

(** One rounding of a positive number keeps the mantissa and the exponent in bounds. *)
Lemma rounding_is_tame p e k b :
  0 ≤ k → Z.pos p ≤ 2 ^ k → e ≤ b → 0 ≤ b → b + 2 * k ≤ 900 →
  tame (k + 1) (b + 2 * k) (binary_round_aux 53 1024 false (Z.pos p) e loc_Exact).
Proof.
  intros Hk Hp Hb Hb0 Hlimit. unfold binary_round_aux.
  destruct (shr_fexp _ _ _ _ _) as [r e'] eqn:Hshr.
  apply (shr_fexp_bound _ _ _ _ k) in Hshr as [Hr He']; [|lia..].
  set (m := round_nearest_even _ _).
  assert (0 ≤ m ≤ 2 ^ (k + 1)) as Hm.
  { pose proof (round_nearest_bound (shr_m r) (loc_of_shr_record r)) as Hround.
    fold m in Hround. rewrite Z.pow_add_r by lia. lia. }
  clearbody m. destruct (shr_fexp _ _ m _ _) as [r' e''] eqn:Hshr'.
  apply (shr_fexp_bound _ _ _ _ (k + 1)) in Hshr' as [Hr' He'']; [|lia..].
  destruct (shr_m r') as [|q|q]; [done| |lia].
  assert (e'' ≤ b + 2 * k) by lia.
  destruct (Z.leb_spec e'' (1024 - 53)) as [_|Hover]; [|lia]. simpl. lia.
Qed.

Lemma float_of_is_tame n e :
  0 ≤ n ≤ 2 ^ 60 → e ≤ 0 → tame 61 120 (float_of n e).
Proof.
  intros Hn He. unfold float_of, binary_normalize.
  destruct n as [|p|p]; [done| |lia]. unfold binary_round.
  pose proof (digits_bound p 60 ltac:(lia) ltac:(lia)) as Hd.
  unfold shl_align. set (target := fexp _ _ _).
  assert (Z.pos (digits2_pos p) + e - 53 ≤ target) as Ht by (unfold target, fexp; lia).
  clearbody target. destruct (target - e) as [|d|d] eqn:Hgap;
    [apply (rounding_is_tame _ _ 60 0); lia..|].
  apply (rounding_is_tame _ _ 60 0); [lia| |lia..].
  replace (Z.pos (Pos.iter xO p d)) with (Z.pos p * 2 ^ Z.pos d).
  - assert (Z.pos p < 2 ^ Z.pos (digits2_pos p)) by (apply size_bound; lia).
    transitivity (2 ^ Z.pos (digits2_pos p) * 2 ^ Z.pos d); [nia|].
    rewrite <- Z.pow_add_r by lia. apply Z.pow_le_mono_r; lia.
  - clear. induction d as [|d IH] using Pos.peano_ind; [simpl; lia|].
    rewrite Pos.iter_succ, Pos2Z.inj_succ, Z.pow_succ_r by lia. lia.
Qed.

Lemma product_is_tame x y :
  tame 61 120 x → tame 61 120 y → tame 123 484 (SFmul 53 1024 x y).
Proof.
  destruct x as [|?| |[] mx ex], y as [|?| |[] my ey]; simpl; try done.
  intros [Hmx Hex] [Hmy Hey].
  pose proof (rounding_is_tame (mx * my) (ex + ey) 122 240) as Ht. apply Ht; try lia.
  rewrite Pos2Z.inj_mul. replace (2 ^ 122) with (2 ^ 61 * 2 ^ 61) by reflexivity. nia.
Qed.

(** The two parts of a number in bounds. *)
Lemma modf_of_tame k e x :
  tame k e x → ∃ whole fraction, modf x = Some (whole, fraction) ∧ 0 ≤ whole ∧
    (is_zero fraction = true ∨ ∃ n ex, ex < 0 ∧ 0 ≤ n < 2 ^ (- ex) ∧ n ≤ 2 ^ k ∧ fraction = float_of n ex).
Proof.
  destruct x as [|?| |[] m ex]; simpl; try done; intros Ht.
  - exists 0, (S754_zero false). split; [done|]. split; [done|]. by left.
  - destruct (Z.leb_spec 0 ex) as [He|He].
    + exists (Z.pos m * 2 ^ ex), (S754_zero false). split; [done|]. split; [nia|by left].
    + eexists _, _. split; [done|].
      assert (0 < 2 ^ (- ex)) by (apply Z.pow_pos_nonneg; lia).
      split; [apply Z.quot_pos; lia|]. right. exists (Z.rem (Z.pos m) (2 ^ (- ex))), ex.
      rewrite Z.rem_mod_nonneg by lia.
      pose proof (Z.mod_pos_bound (Z.pos m) (2 ^ (- ex))).
      pose proof (Z.mod_le (Z.pos m) (2 ^ (- ex))). repeat split; try lia.
Qed.

Lemma double_is_tame (x : binary64) n :
  float_in (`x) n = true → n ≤ 2 ^ 60 → tame 60 60 (`x).
Proof.
  destruct x as [[|?| |[] m e] Hvalid]; simpl; try done. intros Hin Hn.
  apply andb_true_iff in Hvalid as [Hc%Z.eqb_eq _]. unfold fexp in Hc.
  pose proof (size_bound m 53 ltac:(lia)) as Hm. split; [lia|].
  destruct (Z.leb_spec 0 e) as [He|He]; [|lia]. apply Z.leb_le in Hin.
  apply (Z.pow_le_mono_r_iff 2); [lia|lia|]. nia.
Qed.

Lemma round_leftover_bound x y : x ≤ round_leftover x y ≤ x + 1.
Proof.
  destruct y as [|?| |[] m e]; simpl; try lia.
  destruct (2 * Z.pos m <? 2 ^ (- e)), (2 ^ (- e) <? 2 * Z.pos m), (Z.odd x); lia.
Qed.

Lemma float_span_total (x : binary64) n factor :
  float_in (`x) n = true → n ≤ 2 ^ 60 → 0 ≤ factor ≤ 2 ^ 60 →
  ∃ d, float_span (`x) factor = Ok d ∧ 0 ≤ d.
Proof.
  intros Hin Hn Hf.
  destruct (modf_of_tame _ _ _ (double_is_tame x n Hin Hn)) as (whole & fraction & Hmodf & Hw & Hfrac).
  assert (∃ us leftover, accum (`x) factor = Ok (us, leftover) ∧ 0 ≤ us) as (us & leftover & Hacc & Hus).
  { unfold accum. rewrite Hmodf. destruct (is_zero fraction) eqn:Hz; [eexists _, _; split; [done|nia]|].
    destruct Hfrac as [?|(k & ex & Hex & Hk & Hk60 & ->)]; [congruence|].
    pose proof (float_of_is_tame k ex ltac:(lia) ltac:(lia)) as Ht1.
    pose proof (float_of_is_tame factor 0 Hf ltac:(lia)) as Ht2.
    destruct (modf_of_tame _ _ _ (product_is_tame _ _ Ht1 Ht2)) as (more & rest & -> & Hmore & _).
    eexists _, _. split; [done|nia]. }
  exists (round_leftover us leftover). unfold float_span. rewrite Hacc. split; [done|].
  pose proof (round_leftover_bound us leftover). lia.
Qed.

Definition double (m e : Z) : option binary64 :=
  match decide (valid_binary 53 1024 (float_of m e) = true) with
  | left H => Some (float_of m e ↾ H)
  | right _ => None
  end.

(** 1.5 hours, and a fraction of an hour below half a microsecond. *)
Example float_spans :
  ((λ x, float_span (`x) US_PER_HOUR) <$> double 3 (-1), (λ x, float_span (`x) US_PER_HOUR) <$> double 1 (-40)) =
  (Some (Ok 5400000000), Some (Ok 0)).
Proof. vm_compute. reflexivity. Qed.
