(* ===== verification/Models.v ===== *)
(** Data shared by the store components: the closed enumerations, the records
    of [store/_situation_models.py], [store/_source_generation.py],
    [store/_sync_models.py], [store/_fallback_models.py] and
    [store/_daemon_models.py], the exceptions, and the SQLite tables of
    [store/migrations/] as one [db] record. *)
From S2P Require Import Prelude PyDate PyTime.
#[local] Open Scope Z_scope.

(** ** Enumerations *)

Inductive SituationType := ReplyDeadline | CalendarConflict | PersonalOccasion.
Inductive SituationSource := SourceGmail | SourceCalendar | SourceMemory | SourceLocal.
Inductive SituationState :=
  Pending | Delivered | Acknowledged | Snoozed | Muted | Resolved | Expired.
Inductive SituationPriority := Critical | High | Routine.
Inductive SourceName := Gmail | Calendar.
Inductive SourceGenerationStatus := Complete | Degraded.
Inductive SourceCredentialState :=
  CredentialUnknown | CredentialAvailable | CredentialMissing | CredentialUnavailable.
Inductive SourceAuthState := NotConfigured | Configured | NeedsReauth.
Inductive SourceErrorCode :=
  | invalid_grant | scope_mismatch | http_4xx | http_5xx | network
  | resource_limit | timeout | degraded | unknown.
Inductive SourceReadOutcome :=
  OutcomeHealthy | OutcomePartial | OutcomeStale | OutcomeAuthError | OutcomeTransportError.
(** [SourceReadReason]: the error codes and the reasons of a partial read. *)
Inductive SourceReadReason :=
  | ReasonError (code : SourceErrorCode)
  | body_snippet_fallback | body_truncated | direction_metadata_ambiguous
  | direction_metadata_missing | identity_headers_ambiguous | mime_structure_truncated
  | never_synced | not_configured | pagination_limit | stale | sync_budget_exhausted
  | thread_list_entry_skipped | thread_projection_limit | thread_response_too_large
  | thread_without_projectable_message.
Inductive FallbackClaimMode := ModeConfigured | ModeBootstrap.
Inductive FallbackFailureCode :=
  unsupported_platform | tool_missing | nonzero_exit | notify_timeout | notify_unknown.
Inductive FallbackOutcome := FallbackClaimed | FallbackSent | FallbackFailed.
Inductive DaemonState := DaemonRunning | DaemonStopped.
Inductive DaemonRunMode := RunOnce | RunContinuous.
Inductive DaemonLastRunState := NeverRun | RunUnknown | RunSucceeded | RunDegraded | RunFailed.
Inductive DaemonFailurePhase :=
  | PhaseConfig | PhaseDatabase | PhaseCredential | PhaseSourceSync | PhaseEvaluation
  | PhaseNotification | PhaseHeartbeat | PhaseRuntimeOwnership | PhaseService.
Inductive DaemonFailureCode :=
  | CodeInvalid | CodeUnsafePath | CodeOpenFailed | CodeUnavailable | CodeFailed
  | CodeOwnershipConflict | CodeNotifyFailed.
Inductive CollectorProfile := ProfileFull | ProfileScheduled.

#[export] Instance SituationType_eq_dec : EqDecision SituationType.
Proof. solve_decision. Defined.
#[export] Instance SituationSource_eq_dec : EqDecision SituationSource.
Proof. solve_decision. Defined.
#[export] Instance SituationState_eq_dec : EqDecision SituationState.
Proof. solve_decision. Defined.
#[export] Instance SituationPriority_eq_dec : EqDecision SituationPriority.
Proof. solve_decision. Defined.
#[export] Instance SourceName_eq_dec : EqDecision SourceName.
Proof. solve_decision. Defined.
#[export] Instance SourceGenerationStatus_eq_dec : EqDecision SourceGenerationStatus.
Proof. solve_decision. Defined.
#[export] Instance SourceCredentialState_eq_dec : EqDecision SourceCredentialState.
Proof. solve_decision. Defined.
#[export] Instance SourceAuthState_eq_dec : EqDecision SourceAuthState.
Proof. solve_decision. Defined.
#[export] Instance SourceErrorCode_eq_dec : EqDecision SourceErrorCode.
Proof. solve_decision. Defined.
#[export] Instance SourceReadOutcome_eq_dec : EqDecision SourceReadOutcome.
Proof. solve_decision. Defined.
#[export] Instance SourceReadReason_eq_dec : EqDecision SourceReadReason.
Proof. solve_decision. Defined.
#[export] Instance FallbackClaimMode_eq_dec : EqDecision FallbackClaimMode.
Proof. solve_decision. Defined.
#[export] Instance FallbackFailureCode_eq_dec : EqDecision FallbackFailureCode.
Proof. solve_decision. Defined.
#[export] Instance FallbackOutcome_eq_dec : EqDecision FallbackOutcome.
Proof. solve_decision. Defined.
#[export] Instance DaemonState_eq_dec : EqDecision DaemonState.
Proof. solve_decision. Defined.
#[export] Instance DaemonRunMode_eq_dec : EqDecision DaemonRunMode.
Proof. solve_decision. Defined.
#[export] Instance DaemonLastRunState_eq_dec : EqDecision DaemonLastRunState.
Proof. solve_decision. Defined.
#[export] Instance DaemonFailurePhase_eq_dec : EqDecision DaemonFailurePhase.
Proof. solve_decision. Defined.
#[export] Instance DaemonFailureCode_eq_dec : EqDecision DaemonFailureCode.
Proof. solve_decision. Defined.
#[export] Instance CollectorProfile_eq_dec : EqDecision CollectorProfile.
Proof. solve_decision. Defined.

(** ** Situations *)

(** A Python [dict[str, str]] in insertion order. *)
Abbreviation dict := (list (text * text)).
Fixpoint dict_get (k : text) (d : dict) : option text :=
  match d with
  | [] => None
  | (k', v) :: d' => if decide (k = k') then Some v else dict_get k d'
  end.

Record SituationEvidence := mk_evidence {
  facts : dict;
  quoted_external : dict;
  quoted_memory : dict;
  contradictory_dates : list text;
}.

(** One detector finding; [expires_at] is an instant. *)
Record Detection := mk_detection {
  d_situation_type : SituationType;
  d_dedupe_key : text;
  d_priority : SituationPriority;
  d_title : text;
  d_why_now : text;
  d_evidence : SituationEvidence;
  d_expires_at : option Z;
}.

(** A row of [situations].  A [Situation] of the Python model is this row
    without [snooze_cooldown_exempt], which only the SQL reads; timestamps are
    the text the columns hold. *)
Record Situation := mk_situation {
  id : Z;
  situation_type : SituationType;
  source_name : SituationSource;
  source_generation : option Z;
  dedupe_key : text;
  state : SituationState;
  priority : SituationPriority;
  title : text;
  why_now : text;
  evidence : SituationEvidence;
  expires_at : option text;
  detected_at : text;
  updated_at : text;
  delivered_at : option text;
  acknowledged_at : option text;
  snoozed_until : option text;
  resolved_at : option text;
  expired_at : option text;
  muted_at : option text;
  snooze_cooldown_exempt : bool;
}.
Definition set_id (v : Z) (r : Situation) : Situation :=
  mk_situation v (situation_type r) (source_name r) (source_generation r) (dedupe_key r)
    (state r) (priority r) (title r) (why_now r) (evidence r) (expires_at r) (detected_at r)
    (updated_at r) (delivered_at r) (acknowledged_at r) (snoozed_until r) (resolved_at r)
    (expired_at r) (muted_at r) (snooze_cooldown_exempt r).
Definition set_situation_type (v : SituationType) (r : Situation) : Situation :=
  mk_situation (id r) v (source_name r) (source_generation r) (dedupe_key r) (state r)
    (priority r) (title r) (why_now r) (evidence r) (expires_at r) (detected_at r)
    (updated_at r) (delivered_at r) (acknowledged_at r) (snoozed_until r) (resolved_at r)
    (expired_at r) (muted_at r) (snooze_cooldown_exempt r).
Definition set_source_name (v : SituationSource) (r : Situation) : Situation :=
  mk_situation (id r) (situation_type r) v (source_generation r) (dedupe_key r) (state r)
    (priority r) (title r) (why_now r) (evidence r) (expires_at r) (detected_at r)
    (updated_at r) (delivered_at r) (acknowledged_at r) (snoozed_until r) (resolved_at r)
    (expired_at r) (muted_at r) (snooze_cooldown_exempt r).
Definition set_source_generation (v : option Z) (r : Situation) : Situation :=
  mk_situation (id r) (situation_type r) (source_name r) v (dedupe_key r) (state r)
    (priority r) (title r) (why_now r) (evidence r) (expires_at r) (detected_at r)
    (updated_at r) (delivered_at r) (acknowledged_at r) (snoozed_until r) (resolved_at r)
    (expired_at r) (muted_at r) (snooze_cooldown_exempt r).
Definition set_dedupe_key (v : text) (r : Situation) : Situation :=
  mk_situation (id r) (situation_type r) (source_name r) (source_generation r) v (state r)
    (priority r) (title r) (why_now r) (evidence r) (expires_at r) (detected_at r)
    (updated_at r) (delivered_at r) (acknowledged_at r) (snoozed_until r) (resolved_at r)
    (expired_at r) (muted_at r) (snooze_cooldown_exempt r).
Definition set_state (v : SituationState) (r : Situation) : Situation :=
  mk_situation (id r) (situation_type r) (source_name r) (source_generation r) (dedupe_key
    r) v (priority r) (title r) (why_now r) (evidence r) (expires_at r) (detected_at r)
    (updated_at r) (delivered_at r) (acknowledged_at r) (snoozed_until r) (resolved_at r)
    (expired_at r) (muted_at r) (snooze_cooldown_exempt r).
Definition set_priority (v : SituationPriority) (r : Situation) : Situation :=
  mk_situation (id r) (situation_type r) (source_name r) (source_generation r) (dedupe_key
    r) (state r) v (title r) (why_now r) (evidence r) (expires_at r) (detected_at r)
    (updated_at r) (delivered_at r) (acknowledged_at r) (snoozed_until r) (resolved_at r)
    (expired_at r) (muted_at r) (snooze_cooldown_exempt r).
Definition set_title (v : text) (r : Situation) : Situation :=
  mk_situation (id r) (situation_type r) (source_name r) (source_generation r) (dedupe_key
    r) (state r) (priority r) v (why_now r) (evidence r) (expires_at r) (detected_at r)
    (updated_at r) (delivered_at r) (acknowledged_at r) (snoozed_until r) (resolved_at r)
    (expired_at r) (muted_at r) (snooze_cooldown_exempt r).
Definition set_why_now (v : text) (r : Situation) : Situation :=
  mk_situation (id r) (situation_type r) (source_name r) (source_generation r) (dedupe_key
    r) (state r) (priority r) (title r) v (evidence r) (expires_at r) (detected_at r)
    (updated_at r) (delivered_at r) (acknowledged_at r) (snoozed_until r) (resolved_at r)
    (expired_at r) (muted_at r) (snooze_cooldown_exempt r).
Definition set_evidence (v : SituationEvidence) (r : Situation) : Situation :=
  mk_situation (id r) (situation_type r) (source_name r) (source_generation r) (dedupe_key
    r) (state r) (priority r) (title r) (why_now r) v (expires_at r) (detected_at r)
    (updated_at r) (delivered_at r) (acknowledged_at r) (snoozed_until r) (resolved_at r)
    (expired_at r) (muted_at r) (snooze_cooldown_exempt r).
Definition set_expires_at (v : option text) (r : Situation) : Situation :=
  mk_situation (id r) (situation_type r) (source_name r) (source_generation r) (dedupe_key
    r) (state r) (priority r) (title r) (why_now r) (evidence r) v (detected_at r)
    (updated_at r) (delivered_at r) (acknowledged_at r) (snoozed_until r) (resolved_at r)
    (expired_at r) (muted_at r) (snooze_cooldown_exempt r).
Definition set_detected_at (v : text) (r : Situation) : Situation :=
  mk_situation (id r) (situation_type r) (source_name r) (source_generation r) (dedupe_key
    r) (state r) (priority r) (title r) (why_now r) (evidence r) (expires_at r) v
    (updated_at r) (delivered_at r) (acknowledged_at r) (snoozed_until r) (resolved_at r)
    (expired_at r) (muted_at r) (snooze_cooldown_exempt r).
Definition set_updated_at (v : text) (r : Situation) : Situation :=
  mk_situation (id r) (situation_type r) (source_name r) (source_generation r) (dedupe_key
    r) (state r) (priority r) (title r) (why_now r) (evidence r) (expires_at r) (detected_at
    r) v (delivered_at r) (acknowledged_at r) (snoozed_until r) (resolved_at r) (expired_at
    r) (muted_at r) (snooze_cooldown_exempt r).
Definition set_delivered_at (v : option text) (r : Situation) : Situation :=
  mk_situation (id r) (situation_type r) (source_name r) (source_generation r) (dedupe_key
    r) (state r) (priority r) (title r) (why_now r) (evidence r) (expires_at r) (detected_at
    r) (updated_at r) v (acknowledged_at r) (snoozed_until r) (resolved_at r) (expired_at r)
    (muted_at r) (snooze_cooldown_exempt r).
Definition set_acknowledged_at (v : option text) (r : Situation) : Situation :=
  mk_situation (id r) (situation_type r) (source_name r) (source_generation r) (dedupe_key
    r) (state r) (priority r) (title r) (why_now r) (evidence r) (expires_at r) (detected_at
    r) (updated_at r) (delivered_at r) v (snoozed_until r) (resolved_at r) (expired_at r)
    (muted_at r) (snooze_cooldown_exempt r).
Definition set_snoozed_until (v : option text) (r : Situation) : Situation :=
  mk_situation (id r) (situation_type r) (source_name r) (source_generation r) (dedupe_key
    r) (state r) (priority r) (title r) (why_now r) (evidence r) (expires_at r) (detected_at
    r) (updated_at r) (delivered_at r) (acknowledged_at r) v (resolved_at r) (expired_at r)
    (muted_at r) (snooze_cooldown_exempt r).
Definition set_resolved_at (v : option text) (r : Situation) : Situation :=
  mk_situation (id r) (situation_type r) (source_name r) (source_generation r) (dedupe_key
    r) (state r) (priority r) (title r) (why_now r) (evidence r) (expires_at r) (detected_at
    r) (updated_at r) (delivered_at r) (acknowledged_at r) (snoozed_until r) v (expired_at
    r) (muted_at r) (snooze_cooldown_exempt r).
Definition set_expired_at (v : option text) (r : Situation) : Situation :=
  mk_situation (id r) (situation_type r) (source_name r) (source_generation r) (dedupe_key
    r) (state r) (priority r) (title r) (why_now r) (evidence r) (expires_at r) (detected_at
    r) (updated_at r) (delivered_at r) (acknowledged_at r) (snoozed_until r) (resolved_at r)
    v (muted_at r) (snooze_cooldown_exempt r).
Definition set_muted_at (v : option text) (r : Situation) : Situation :=
  mk_situation (id r) (situation_type r) (source_name r) (source_generation r) (dedupe_key
    r) (state r) (priority r) (title r) (why_now r) (evidence r) (expires_at r) (detected_at
    r) (updated_at r) (delivered_at r) (acknowledged_at r) (snoozed_until r) (resolved_at r)
    (expired_at r) v (snooze_cooldown_exempt r).
Definition set_snooze_cooldown_exempt (v : bool) (r : Situation) : Situation :=
  mk_situation (id r) (situation_type r) (source_name r) (source_generation r) (dedupe_key
    r) (state r) (priority r) (title r) (why_now r) (evidence r) (expires_at r) (detected_at
    r) (updated_at r) (delivered_at r) (acknowledged_at r) (snoozed_until r) (resolved_at r)
    (expired_at r) (muted_at r) v.

Record DetectionUpsertSummary := mk_upsert_summary {
  created : Z;
  reactivated : Z;
  refreshed : Z;
  skipped : Z;
  capacity_skipped : Z;
}.

Record DetectionApplySummary := mk_apply_summary {
  upsert : DetectionUpsertSummary;
  resolved : Z;
}.

Record DeliveryClaim := mk_delivery_claim {
  dc_delivered_at : text;
  dc_cooldown_after : text;
  dc_local_day_start : text;
  dc_local_day_end : text;
  dc_daily_budget : Z;
  dc_allow_noncritical : bool;
}.

Record DeliveryReservation := mk_reservation {
  rv_claim_token : text;
  rv_situations : list Situation;
  rv_expires_at : text;
}.

Inductive ConfirmationStatus := Confirmed | AlreadyConfirmed.
Record DeliveryConfirmation := mk_confirmation {
  cf_status : ConfirmationStatus;
  cf_delivered_count : Z;
}.

(** ** Sources *)

Record SourceGeneration := mk_generation {
  sg_source : SourceName;
  sg_number : Z;
}.

(** A row of [source_detection_generations]. *)
Record SourceGenerationState := mk_generation_state {
  gs_source : SourceName;
  gs_issued : Z;
  gs_applied : Z;
  gs_status : option SourceGenerationStatus;
  gs_issued_at : option text;
  gs_applied_at : option text;
}.

Record SourceReadReasonCount := mk_reason_count {
  rc_reason : SourceReadReason;
  rc_count : Z;
}.

Record SourceReadDiagnostics := mk_diagnostics {
  dg_outcome : SourceReadOutcome;
  dg_request_count : Z;
  dg_page_count : Z;
  dg_projected_count : Z;
  dg_excluded_count : Z;
  dg_byte_budget : Z;
  dg_reason_counts : list SourceReadReasonCount;
}.

(** A row of [source_sync_state]. *)
Record source_sync_row := mk_sync_row {
  ss_source : SourceName;
  ss_auth_state : SourceAuthState;
  ss_last_success_at : option text;
  ss_last_attempt_at : option text;
  ss_last_error_code : option SourceErrorCode;
  ss_sync_cursor : option text;
  ss_updated_at : text;
}.

(** ** Exceptions *)

Inductive exn :=
  | TimeError (e : time_error)
  | IntegrityError
  | SituationNotFoundError (id : Z)
  | InvalidSituationTransitionError (id : Z) (state : SituationState) (action : text)
  | SituationValidationError (field reason : text)
  | DeliveryReceiptError
  | DelayedSourceGenerationError (generation : SourceGeneration) (applied : Z)
  | UnreservedSourceGenerationError (generation : SourceGeneration)
  | DetectionSourceMismatchError (source situation_type : SituationType)
  | InvalidSourceReadDiagnosticsError
  | InvalidLazySyncLeaseDurationError
  | DaemonNotStartedError
  | InvalidDaemonPollIntervalError
  | InvalidDaemonRunOutcomeError
  | FallbackNotClaimedError (id : Z)
  | MappingKeyError.

(** ** Tables *)

(** [situation_type_mutes]. *)
Record mute_row := mk_mute {
  mu_situation_type : SituationType;
  mu_created_at : text;
}.

(** [situation_deliveries]; the surrogate key, which nothing reads, is left out. *)
Record delivery_row := mk_delivery {
  dl_situation_id : Z;
  dl_delivered_at : text;
  dl_priority : SituationPriority;
}.

(** [situation_delivery_claims]. *)
Record claim_row := mk_claim {
  cl_receipt_digest : text;
  cl_situation_id : Z;
  cl_claimed_at : text;
  cl_expires_at : text;
}.

(** [confirmed_delivery_receipts]. *)
Record receipt_row := mk_receipt {
  rp_receipt_digest : text;
  rp_delivered_count : Z;
  rp_confirmed_at : text;
}.

(** [situation_fallbacks]. *)
Record fallback_row := mk_fallback {
  fb_situation_id : Z;
  fb_priority : SituationPriority;
  fb_outcome : FallbackOutcome;
  fb_failure_code : option FallbackFailureCode;
  fb_claimed_at : text;
  fb_completed_at : option text;
}.

(** The row [id = 1] of [daemon_status], [poll_interval_seconds] in microseconds. *)
Record daemon_row := mk_daemon {
  dm_state : DaemonState;
  dm_pid : Z;
  dm_started_at : text;
  dm_heartbeat_at : text;
  dm_cycle_count : Z;
  dm_owner_token : option text;
  dm_poll_interval : option Z;
  dm_mode : option DaemonRunMode;
  dm_last_run_state : DaemonLastRunState;
  dm_last_failure_phase : option DaemonFailurePhase;
  dm_last_failure_code : option DaemonFailureCode;
  dm_last_failure_at : option text;
  dm_last_completed_at : option text;
}.
Definition set_dm_state (v : DaemonState) (r : daemon_row) : daemon_row :=
  mk_daemon v (dm_pid r) (dm_started_at r) (dm_heartbeat_at r) (dm_cycle_count r)
    (dm_owner_token r) (dm_poll_interval r) (dm_mode r) (dm_last_run_state r)
    (dm_last_failure_phase r) (dm_last_failure_code r) (dm_last_failure_at r)
    (dm_last_completed_at r).
Definition set_dm_pid (v : Z) (r : daemon_row) : daemon_row :=
  mk_daemon (dm_state r) v (dm_started_at r) (dm_heartbeat_at r) (dm_cycle_count r)
    (dm_owner_token r) (dm_poll_interval r) (dm_mode r) (dm_last_run_state r)
    (dm_last_failure_phase r) (dm_last_failure_code r) (dm_last_failure_at r)
    (dm_last_completed_at r).
Definition set_dm_started_at (v : text) (r : daemon_row) : daemon_row :=
  mk_daemon (dm_state r) (dm_pid r) v (dm_heartbeat_at r) (dm_cycle_count r) (dm_owner_token
    r) (dm_poll_interval r) (dm_mode r) (dm_last_run_state r) (dm_last_failure_phase r)
    (dm_last_failure_code r) (dm_last_failure_at r) (dm_last_completed_at r).
Definition set_dm_heartbeat_at (v : text) (r : daemon_row) : daemon_row :=
  mk_daemon (dm_state r) (dm_pid r) (dm_started_at r) v (dm_cycle_count r) (dm_owner_token
    r) (dm_poll_interval r) (dm_mode r) (dm_last_run_state r) (dm_last_failure_phase r)
    (dm_last_failure_code r) (dm_last_failure_at r) (dm_last_completed_at r).
Definition set_dm_cycle_count (v : Z) (r : daemon_row) : daemon_row :=
  mk_daemon (dm_state r) (dm_pid r) (dm_started_at r) (dm_heartbeat_at r) v (dm_owner_token
    r) (dm_poll_interval r) (dm_mode r) (dm_last_run_state r) (dm_last_failure_phase r)
    (dm_last_failure_code r) (dm_last_failure_at r) (dm_last_completed_at r).
Definition set_dm_owner_token (v : option text) (r : daemon_row) : daemon_row :=
  mk_daemon (dm_state r) (dm_pid r) (dm_started_at r) (dm_heartbeat_at r) (dm_cycle_count r)
    v (dm_poll_interval r) (dm_mode r) (dm_last_run_state r) (dm_last_failure_phase r)
    (dm_last_failure_code r) (dm_last_failure_at r) (dm_last_completed_at r).
Definition set_dm_poll_interval (v : option Z) (r : daemon_row) : daemon_row :=
  mk_daemon (dm_state r) (dm_pid r) (dm_started_at r) (dm_heartbeat_at r) (dm_cycle_count r)
    (dm_owner_token r) v (dm_mode r) (dm_last_run_state r) (dm_last_failure_phase r)
    (dm_last_failure_code r) (dm_last_failure_at r) (dm_last_completed_at r).
Definition set_dm_mode (v : option DaemonRunMode) (r : daemon_row) : daemon_row :=
  mk_daemon (dm_state r) (dm_pid r) (dm_started_at r) (dm_heartbeat_at r) (dm_cycle_count r)
    (dm_owner_token r) (dm_poll_interval r) v (dm_last_run_state r) (dm_last_failure_phase
    r) (dm_last_failure_code r) (dm_last_failure_at r) (dm_last_completed_at r).
Definition set_dm_last_run_state (v : DaemonLastRunState) (r : daemon_row) : daemon_row :=
  mk_daemon (dm_state r) (dm_pid r) (dm_started_at r) (dm_heartbeat_at r) (dm_cycle_count r)
    (dm_owner_token r) (dm_poll_interval r) (dm_mode r) v (dm_last_failure_phase r)
    (dm_last_failure_code r) (dm_last_failure_at r) (dm_last_completed_at r).
Definition set_dm_last_failure_phase (v : option DaemonFailurePhase) (r : daemon_row) : daemon_row :=
  mk_daemon (dm_state r) (dm_pid r) (dm_started_at r) (dm_heartbeat_at r) (dm_cycle_count r)
    (dm_owner_token r) (dm_poll_interval r) (dm_mode r) (dm_last_run_state r) v
    (dm_last_failure_code r) (dm_last_failure_at r) (dm_last_completed_at r).
Definition set_dm_last_failure_code (v : option DaemonFailureCode) (r : daemon_row) : daemon_row :=
  mk_daemon (dm_state r) (dm_pid r) (dm_started_at r) (dm_heartbeat_at r) (dm_cycle_count r)
    (dm_owner_token r) (dm_poll_interval r) (dm_mode r) (dm_last_run_state r)
    (dm_last_failure_phase r) v (dm_last_failure_at r) (dm_last_completed_at r).
Definition set_dm_last_failure_at (v : option text) (r : daemon_row) : daemon_row :=
  mk_daemon (dm_state r) (dm_pid r) (dm_started_at r) (dm_heartbeat_at r) (dm_cycle_count r)
    (dm_owner_token r) (dm_poll_interval r) (dm_mode r) (dm_last_run_state r)
    (dm_last_failure_phase r) (dm_last_failure_code r) v (dm_last_completed_at r).
Definition set_dm_last_completed_at (v : option text) (r : daemon_row) : daemon_row :=
  mk_daemon (dm_state r) (dm_pid r) (dm_started_at r) (dm_heartbeat_at r) (dm_cycle_count r)
    (dm_owner_token r) (dm_poll_interval r) (dm_mode r) (dm_last_run_state r)
    (dm_last_failure_phase r) (dm_last_failure_code r) (dm_last_failure_at r) v.

(** The row [id = 1] of [lazy_sync_lease]. *)
Record lazy_lease_row := mk_lazy_lease {
  ll_owner_token : text;
  ll_acquired_at : text;
  ll_expires_at : text;
}.

(** A row of [collector_observations]. *)
Record collector_row := mk_collector {
  co_profile : CollectorProfile;
  co_last_check_at : option text;
  co_last_confirm_at : option text;
}.

(** The row [id = 1] of [source_operational_state]. *)
Record credential_row := mk_credential {
  cr_state : SourceCredentialState;
  cr_observed_at : text;
}.

(** The database one connection sees. *)
Record db := mk_db {
  situations : list Situation;
  type_mutes : list mute_row;
  deliveries : list delivery_row;
  claims : list claim_row;
  receipts : list receipt_row;
  generations : list SourceGenerationState;
  fallbacks : list fallback_row;
  sync_states : list source_sync_row;
  gmail_diagnostics : option SourceReadDiagnostics;
  credential_state : option credential_row;
  daemon_status : option daemon_row;
  lazy_lease : option lazy_lease_row;
  evaluation_gate : option text;
  collectors : list collector_row;
}.
Definition set_situations (v : list Situation) (r : db) : db :=
  mk_db v (type_mutes r) (deliveries r) (claims r) (receipts r) (generations r) (fallbacks
    r) (sync_states r) (gmail_diagnostics r) (credential_state r) (daemon_status r)
    (lazy_lease r) (evaluation_gate r) (collectors r).
Definition set_type_mutes (v : list mute_row) (r : db) : db :=
  mk_db (situations r) v (deliveries r) (claims r) (receipts r) (generations r) (fallbacks
    r) (sync_states r) (gmail_diagnostics r) (credential_state r) (daemon_status r)
    (lazy_lease r) (evaluation_gate r) (collectors r).
Definition set_deliveries (v : list delivery_row) (r : db) : db :=
  mk_db (situations r) (type_mutes r) v (claims r) (receipts r) (generations r) (fallbacks
    r) (sync_states r) (gmail_diagnostics r) (credential_state r) (daemon_status r)
    (lazy_lease r) (evaluation_gate r) (collectors r).
Definition set_claims (v : list claim_row) (r : db) : db :=
  mk_db (situations r) (type_mutes r) (deliveries r) v (receipts r) (generations r)
    (fallbacks r) (sync_states r) (gmail_diagnostics r) (credential_state r) (daemon_status
    r) (lazy_lease r) (evaluation_gate r) (collectors r).
Definition set_receipts (v : list receipt_row) (r : db) : db :=
  mk_db (situations r) (type_mutes r) (deliveries r) (claims r) v (generations r) (fallbacks
    r) (sync_states r) (gmail_diagnostics r) (credential_state r) (daemon_status r)
    (lazy_lease r) (evaluation_gate r) (collectors r).
Definition set_generations (v : list SourceGenerationState) (r : db) : db :=
  mk_db (situations r) (type_mutes r) (deliveries r) (claims r) (receipts r) v (fallbacks r)
    (sync_states r) (gmail_diagnostics r) (credential_state r) (daemon_status r) (lazy_lease
    r) (evaluation_gate r) (collectors r).
Definition set_fallbacks (v : list fallback_row) (r : db) : db :=
  mk_db (situations r) (type_mutes r) (deliveries r) (claims r) (receipts r) (generations r)
    v (sync_states r) (gmail_diagnostics r) (credential_state r) (daemon_status r)
    (lazy_lease r) (evaluation_gate r) (collectors r).
Definition set_sync_states (v : list source_sync_row) (r : db) : db :=
  mk_db (situations r) (type_mutes r) (deliveries r) (claims r) (receipts r) (generations r)
    (fallbacks r) v (gmail_diagnostics r) (credential_state r) (daemon_status r) (lazy_lease
    r) (evaluation_gate r) (collectors r).
Definition set_gmail_diagnostics (v : option SourceReadDiagnostics) (r : db) : db :=
  mk_db (situations r) (type_mutes r) (deliveries r) (claims r) (receipts r) (generations r)
    (fallbacks r) (sync_states r) v (credential_state r) (daemon_status r) (lazy_lease r)
    (evaluation_gate r) (collectors r).
Definition set_credential_state (v : option credential_row) (r : db) : db :=
  mk_db (situations r) (type_mutes r) (deliveries r) (claims r) (receipts r) (generations r)
    (fallbacks r) (sync_states r) (gmail_diagnostics r) v (daemon_status r) (lazy_lease r)
    (evaluation_gate r) (collectors r).
Definition set_daemon_status (v : option daemon_row) (r : db) : db :=
  mk_db (situations r) (type_mutes r) (deliveries r) (claims r) (receipts r) (generations r)
    (fallbacks r) (sync_states r) (gmail_diagnostics r) (credential_state r) v (lazy_lease
    r) (evaluation_gate r) (collectors r).
Definition set_lazy_lease (v : option lazy_lease_row) (r : db) : db :=
  mk_db (situations r) (type_mutes r) (deliveries r) (claims r) (receipts r) (generations r)
    (fallbacks r) (sync_states r) (gmail_diagnostics r) (credential_state r) (daemon_status
    r) v (evaluation_gate r) (collectors r).
Definition set_evaluation_gate (v : option text) (r : db) : db :=
  mk_db (situations r) (type_mutes r) (deliveries r) (claims r) (receipts r) (generations r)
    (fallbacks r) (sync_states r) (gmail_diagnostics r) (credential_state r) (daemon_status
    r) (lazy_lease r) v (collectors r).
Definition set_collectors (v : list collector_row) (r : db) : db :=
  mk_db (situations r) (type_mutes r) (deliveries r) (claims r) (receipts r) (generations r)
    (fallbacks r) (sync_states r) (gmail_diagnostics r) (credential_state r) (daemon_status
    r) (lazy_lease r) (evaluation_gate r) v.

Definition empty_db : db := mk_db [] [] [] [] [] [] [] [] None None None None None [].

(** A store operation. *)
Abbreviation op := (M db exn).

Definition lift_time {A} (r : res time_error A) : op A :=
  lift (match r with Ok a => Ok a | Err e => Err (TimeError e) end).

Lemma lift_time_bind {A B} r (a : A) (f : A → op B) d :
  r = Ok a → (lift_time r ≫= f) d = f a d.
Proof. by intros ->. Qed.
Lemma lift_time_ok {A} r (a : A) d d' : lift_time r d = (Ok a, d') → r = Ok a ∧ d' = d.
Proof. unfold lift_time, lift. destruct r; by intros [= -> ->]. Qed.

Definition is_critical (p : SituationPriority) : bool := bool_decide (p = Critical).
Definition is_reply (t : SituationType) : bool := bool_decide (t = ReplyDeadline).
Definition in_state (s : SituationState) (r : Situation) : bool := bool_decide (state r = s).
