(* ===== verification/SourceSync.v ===== *)
(** Google source synchronization: generation ordering
    ([store/_source_generation.py]), source rows ([store/_sync_source_state.py]),
    diagnostics ([store/_sync_diagnostics.py], [store/_sync_models.py]), the
    orchestration of [store/sync.py] and the pure freshness verdict of
    [store/freshness.py]. *)
From S2P Require Import Prelude PyDate PyTime Models.
#[local] Open Scope Z_scope.

(** ** Source generations *)
Module Generation.

Definition is_source (s : SourceName) (g : SourceGenerationState) : bool :=
  bool_decide (gs_source g = s).

(** [SourceGenerationStore.state]: zero progress before the first issue. *)
Definition generation_state (s : SourceName) (d : db) : SourceGenerationState :=
  match sql_find (is_source s) (generations d) with
  | Some g => g
  | None => mk_generation_state s 0 0 None None None
  end.

(** [SourceGenerationStore.reserve]; [now] is the clock reading. *)
Definition reserve (now : instant) (s : SourceName) : op SourceGeneration :=
  immediate_transaction (
    modify (λ d, set_generations
      (sql_upsert (is_source s)
        (mk_generation_state s 1 0 None (Some (utc_iso now)) None)
        (λ g, mk_generation_state (gs_source g) (gs_issued g + 1) (gs_applied g)
                (gs_status g) (Some (utc_iso now)) (gs_applied_at g))
        (generations d)) d);;
    g ← gets (generation_state s);
    mret (mk_generation s (gs_issued g))).

(** The [WHERE] of [accept]'s update. *)
Definition acceptable (gen : SourceGeneration) (g : SourceGenerationState) : bool :=
  is_source (sg_source gen) g && (sg_number gen <=? gs_issued g) &&
  (gs_applied g <? sg_number gen).

(** [SourceGenerationStore.accept], inside the caller's transaction. *)
Definition accept (now : instant) (gen : SourceGeneration) (status : SourceGenerationStatus)
    : op unit :=
  rowcount ← gets (λ d, sql_count (acceptable gen) (generations d));
  modify (λ d, set_generations
    (sql_update (acceptable gen)
      (λ g, mk_generation_state (gs_source g) (gs_issued g) (sg_number gen) (Some status)
              (gs_issued_at g) (Some (utc_iso now)))
      (generations d)) d);;
  if negb (rowcount =? 0) then mret tt else
  st ← gets (generation_state (sg_source gen));
  if sg_number gen <=? gs_applied st
  then raise (DelayedSourceGenerationError gen (gs_applied st))
  else raise (UnreservedSourceGenerationError gen).

(** One row per source, and no generation applied before it was issued. *)
Definition generation_ok (g : SourceGenerationState) : Prop :=
  0 ≤ gs_applied g ≤ gs_issued g.
Definition generations_ok (d : db) : Prop :=
  NoDup (gs_source <$> generations d) ∧ Forall generation_ok (generations d).

(** With one row per source, a row's source identifies it. *)
Lemma unique_row rows s g g' :
  NoDup (gs_source <$> rows) → sql_find (is_source s) rows = Some g →
  g' ∈ rows → is_source s g' = true → g' = g.
Proof.
  intros Hnd Hg Hin Hs'. apply sql_find_Some in Hg as [Hin2 Hs].
  unfold is_source in *. rewrite bool_decide_eq_true in Hs, Hs'.
  apply list_elem_of_lookup in Hin as [i Hi], Hin2 as [j Hj].
  assert (i = j) as ->; [|congruence].
  eapply NoDup_lookup; [exact Hnd| |]; rewrite list_lookup_fmap.
  - by rewrite Hi; simpl; rewrite Hs'.
  - by rewrite Hj; simpl; rewrite Hs.
Qed.

Lemma is_source_true s g : is_source s g = true ↔ gs_source g = s.
Proof. unfold is_source. by rewrite bool_decide_eq_true. Qed.

Lemma is_source_ne s s' g : s ≠ s' → is_source s g = true → is_source s' g = false.
Proof. rewrite is_source_true. intros Hne <-. by apply bool_decide_eq_false. Qed.

Lemma generation_state_source s d : gs_source (generation_state s d) = s.
Proof.
  unfold generation_state. destruct (sql_find _ _) eqn:H; [|done].
  by apply sql_find_Some in H as [_ ?%is_source_true].
Qed.

Lemma generation_state_ok s d : generations_ok d → generation_ok (generation_state s d).
Proof.
  intros [_ Hall]. unfold generation_state. destruct (sql_find _ _) eqn:H; [|done].
  apply sql_find_Some in H as [Hin _]. by rewrite Forall_forall in Hall; apply Hall.
Qed.

(** Exactly the accepting case of [accept] matches a row. *)
Lemma acceptable_count gen d :
  generations_ok d →
  let st := generation_state (sg_source gen) d in
  (sql_count (acceptable gen) (generations d) =? 0) =
    (sg_number gen <=? gs_applied st) || (gs_issued st <? sg_number gen).
Proof.
  intros Hok st. apply eq_true_iff_eq. rewrite Z.eqb_eq, sql_count_zero. subst st.
  pose proof (generation_state_ok (sg_source gen) d Hok) as Hst. unfold generation_ok in Hst.
  destruct Hok as [Hnd Hall]. unfold generation_state, acceptable in *.
  destruct (sql_find (is_source (sg_source gen)) (generations d)) as [g|] eqn:Hg.
  - pose proof (sql_find_Some _ _ _ Hg) as [Hin Hs]. split.
    + intros H. specialize (H g Hin). rewrite Hs in H. lia.
    + intros H g' Hin'. destruct (is_source (sg_source gen) g') eqn:Hs'; [|done].
      rewrite (unique_row _ _ _ _ Hnd Hg Hin' Hs'). lia.
  - apply sql_find_None in Hg. rewrite sql_exists_false in Hg. simpl. split.
    + intros _. lia.
    + intros _ g' Hin'. by rewrite Hg.
Qed.

Definition accepted_state (now : instant) (gen : SourceGeneration)
    (status : SourceGenerationStatus) (g : SourceGenerationState) : SourceGenerationState :=
  mk_generation_state (gs_source g) (gs_issued g) (sg_number gen) (Some status)
    (gs_issued_at g) (Some (utc_iso now)).

Lemma accept_rejects now gen status d :
  generations_ok d →
  let st := generation_state (sg_source gen) d in
  (sg_number gen <=? gs_applied st) || (gs_issued st <? sg_number gen) = true →
  accept now gen status d =
    (Err (if sg_number gen <=? gs_applied st
          then DelayedSourceGenerationError gen (gs_applied st)
          else UnreservedSourceGenerationError gen), d).
Proof.
  intros Hok st Hrej. pose proof (acceptable_count gen d Hok) as Hc. simpl in Hc.
  fold st in Hc. rewrite Hrej in Hc. unfold accept, gets, modify, raise, mbind, M_bind, mret, M_ret.
  rewrite Hc. simpl. rewrite sql_update_none by lia.
  replace (set_generations (generations d) d) with d by (by destruct d).
  fold st. by destruct (sg_number gen <=? gs_applied st).
Qed.

Lemma accept_applies now gen status d :
  generations_ok d →
  let st := generation_state (sg_source gen) d in
  gs_applied st < sg_number gen ≤ gs_issued st →
  accept now gen status d =
    (Ok tt, set_generations
      (sql_update (acceptable gen) (accepted_state now gen status) (generations d)) d).
Proof.
  intros Hok st Hacc. pose proof (acceptable_count gen d Hok) as Hc. simpl in Hc.
  fold st in Hc. rewrite (proj2 (Z.leb_gt _ _)), (proj2 (Z.ltb_ge _ _)) in Hc by lia.
  unfold accept, gets, modify, mbind, M_bind. by rewrite Hc.
Qed.

Lemma accepted_state_lookup now gen status s d :
  generation_state s (set_generations
    (sql_update (acceptable gen) (accepted_state now gen status) (generations d)) d) =
  let g := generation_state s d in
  if sql_exists (is_source s) (generations d) && acceptable gen g
  then accepted_state now gen status g else g.
Proof.
  unfold generation_state. simpl. rewrite sql_find_update_key by done.
  destruct (sql_find (is_source s) (generations d)) as [g|] eqn:Hg; simpl.
  - apply sql_find_Some in Hg as Hin.
    rewrite (proj2 (sql_exists_true (is_source s) (generations d))) by eauto. done.
  - apply sql_find_None in Hg. by rewrite Hg.
Qed.

Lemma generations_ok_accept now gen status d :
  generations_ok d → 0 ≤ sg_number gen →
  generations_ok (set_generations
    (sql_update (acceptable gen) (accepted_state now gen status) (generations d)) d).
Proof.
  intros [Hnd Hall] Hn. split; simpl.
  - by rewrite sql_update_column.
  - apply Forall_sql_update; [done|]. unfold generation_ok, acceptable; simpl. lia.
Qed.

Lemma generations_ok_reserve now s d :
  generations_ok d → generations_ok (reserve now s d).2.
Proof.
  intros [Hnd Hall]. unfold reserve, immediate_transaction, gets, modify, mbind, M_bind, mret, M_ret.
  simpl. unfold generations_ok; simpl. unfold sql_upsert.
  destruct (sql_exists (is_source s) (generations d)) eqn:He; split.
  - by rewrite sql_update_column.
  - apply Forall_sql_update; [done|]. unfold generation_ok; simpl. lia.
  - rewrite fmap_app. apply NoDup_app. split; [done|]. split; [|apply NoDup_singleton].
    rewrite sql_exists_false in He. intros x (g & -> & Hin)%list_elem_of_fmap.
    simpl. rewrite list_elem_of_singleton. intros Heq. specialize (He g Hin).
    by rewrite (proj2 (is_source_true s g) Heq) in He.
  - apply Forall_app. split; [done|]. apply Forall_singleton. unfold generation_ok; simpl. lia.
Qed.

Lemma reserve_result now s d :
  ∃ d', reserve now s d = (Ok (mk_generation s (gs_issued (generation_state s d) + 1)), d').
Proof.
  eexists. unfold reserve, immediate_transaction, gets, modify, mbind, M_bind, mret, M_ret.
  simpl. unfold generation_state at 1. simpl.
  rewrite sql_find_upsert; simpl; [| |by apply is_source_true].
  - unfold generation_state. do 3 f_equal. by destruct (sql_find _ _).
  - intros r. by rewrite !is_source_true.
Qed.

Lemma reserve_state now s s' d :
  generation_state s' (reserve now s d).2 =
    let g := generation_state s' d in
    if decide (s = s')
    then mk_generation_state s (gs_issued g + 1) (gs_applied g) (gs_status g)
           (Some (utc_iso now)) (gs_applied_at g)
    else g.
Proof.
  unfold reserve, immediate_transaction, gets, modify, mbind, M_bind, mret, M_ret. simpl.
  unfold generation_state; simpl. case_decide as Hs; subst.
  - rewrite sql_find_upsert; simpl; [| |by apply is_source_true].
    + destruct (sql_find (is_source s') (generations d)) eqn:Hg; simpl; [|done].
      by apply sql_find_Some in Hg as [_ ->%is_source_true].
    + intros r. by rewrite !is_source_true.
  - rewrite sql_find_upsert_ne; [done|..]; simpl.
    + intros r. by apply is_source_ne.
    + intros r Hr. eapply is_source_ne; [exact Hs|]. by rewrite is_source_true in *.
    + by apply bool_decide_eq_false.
Qed.

(** ** Any interleaving of reservations and results *)

(** A history of processes reserving generations and delivering their results:
    [issued] and [applied] list the generations handed out and accepted, newest
    first.  A rejected result is rolled back and changes nothing. *)
Inductive history : db → list SourceGeneration → list SourceGeneration → Prop :=
  | history_init : history empty_db [] []
  | history_reserve now s d d' g issued applied :
      history d issued applied → reserve now s d = (Ok g, d') →
      history d' (g :: issued) applied
  | history_accept now g status d d' issued applied :
      history d issued applied → immediate_transaction (accept now g status) d = (Ok tt, d') →
      history d' issued (g :: applied)
  | history_reject now g status d d' e issued applied :
      history d issued applied → immediate_transaction (accept now g status) d = (Err e, d') →
      history d' issued applied.

(** The generation numbers of one source, newest first. *)
Definition numbers_of (s : SourceName) (l : list SourceGeneration) : list Z :=
  sg_number <$> sql_select (λ g, bool_decide (sg_source g = s)) l.

Lemma numbers_of_cons s g l :
  numbers_of s (g :: l) =
    if decide (sg_source g = s) then sg_number g :: numbers_of s l else numbers_of s l.
Proof.
  unfold numbers_of, sql_select. case_decide as Hs.
  - by rewrite filter_cons_True by (by apply bool_decide_eq_true).
  - by rewrite filter_cons_False by (by rewrite bool_decide_eq_true).
Qed.

(** What a history keeps: numbers count up from 1, and the applied ones form a
    strictly decreasing list (newest first) below the newest issued number. *)
Definition history_inv (d : db) (issued applied : list SourceGeneration) : Prop :=
  generations_ok d ∧ ∀ s,
    let st := generation_state s d in
    (∀ n, n ∈ numbers_of s issued ↔ 1 ≤ n ≤ gs_issued st) ∧
    StronglySorted Z.gt (numbers_of s issued) ∧
    StronglySorted Z.gt (numbers_of s applied) ∧
    (∀ n, n ∈ numbers_of s applied → 1 ≤ n ≤ gs_applied st).

Lemma generations_ok_empty : generations_ok empty_db.
Proof. split; simpl; constructor. Qed.

Lemma StronglySorted_gt_cons n l :
  StronglySorted Z.gt l → (∀ m, m ∈ l → m < n) → StronglySorted Z.gt (n :: l).
Proof.
  intros Hl Hn. constructor; [done|]. apply Forall_forall. intros m Hm. specialize (Hn m Hm). lia.
Qed.

Lemma history_inv_reserve now s d d' g issued applied :
  history_inv d issued applied → reserve now s d = (Ok g, d') →
  history_inv d' (g :: issued) applied.
Proof.
  intros [Hok Hinv] Hr. destruct (reserve_result now s d) as [d1 Hr1].
  rewrite Hr1 in Hr. simplify_eq. split.
  { pose proof (generations_ok_reserve now s d Hok) as H. by rewrite Hr1 in H. }
  intros s'. destruct (Hinv s') as (Hi & Hsi & Hsa & Ha).
  pose proof (reserve_state now s s' d) as Hst. rewrite Hr1 in Hst. simpl in Hst.
  rewrite numbers_of_cons, Hst. simpl. case_decide as Heq; [|done]. subst s'. simpl.
  pose proof (generation_state_ok s d Hok) as [??]. split; [|split; [|by split]].
  - intros n. rewrite elem_of_cons, Hi. lia.
  - apply StronglySorted_gt_cons; [done|]. intros m Hm%Hi. lia.
Qed.

Lemma history_inv_accept now g status d d' issued applied :
  history_inv d issued applied →
  immediate_transaction (accept now g status) d = (Ok tt, d') →
  history_inv d' issued (g :: applied).
Proof.
  intros [Hok Hinv] Ha. apply (proj1 (transaction_ok _ _ _ _)) in Ha.
  pose proof (generation_state_ok (sg_source g) d Hok) as Hst. unfold generation_ok in Hst.
  destruct ((sg_number g <=? gs_applied (generation_state (sg_source g) d))
    || (gs_issued (generation_state (sg_source g) d) <? sg_number g)) eqn:Hrej.
  { by rewrite accept_rejects in Ha. }
  rewrite accept_applies in Ha by (done || lia). simplify_eq. split.
  { apply generations_ok_accept; [done|lia]. }
  intros s. destruct (Hinv s) as (Hi & Hsi & Hsa & Hap).
  rewrite accepted_state_lookup, numbers_of_cons. cbv zeta.
  destruct (decide (sg_source g = s)) as [<-|Hne].
  - assert (sql_exists (is_source (sg_source g)) (generations d) &&
      acceptable g (generation_state (sg_source g) d) = true) as ->; simpl.
    { apply andb_true_iff. split.
      - destruct (sql_exists _ _) eqn:He; [done|]. apply sql_find_None in He.
        unfold generation_state in Hrej, Hst. rewrite He in Hrej, Hst. simpl in *. lia.
      - unfold acceptable. rewrite (proj2 (is_source_true _ _)) by apply generation_state_source.
        lia. }
    split; [done|]. split; [done|]. split.
    + apply StronglySorted_gt_cons; [done|]. intros m Hm%Hap. lia.
    + intros n [->|Hn]%elem_of_cons; [lia|]. apply Hap in Hn. lia.
  - assert (acceptable g (generation_state s d) = false) as ->.
    { unfold acceptable. assert (is_source (sg_source g) (generation_state s d) = false) as ->; [|done].
      apply bool_decide_eq_false. rewrite generation_state_source. congruence. }
    by rewrite andb_false_r.
Qed.

Lemma history_invariant d issued applied :
  history d issued applied → history_inv d issued applied.
Proof.
  induction 1.
  - split; [apply generations_ok_empty|]. intros s. simpl. split; [|split; [|split]].
    + intros n. split; [by intros ?%elem_of_nil|lia].
    + constructor.
    + constructor.
    + by intros n ?%elem_of_nil.
  - by eapply history_inv_reserve.
  - by eapply history_inv_accept.
  - by rewrite (transaction_rolls_back _ _ _ _ H0).
Qed.

(** *** Properties *)

(** C29. However reservations and results of any number of processes interleave,
    the results accepted for a source have strictly increasing generation
    numbers, and each carries a number that was reserved for that source: a late
    result never overwrites a newer one, and no number is handed out twice. *)
Theorem accepted_generations_increase d issued applied s :
  history d issued applied →
  StronglySorted Z.gt (numbers_of s applied) ∧
  StronglySorted Z.gt (numbers_of s issued) ∧
  (∀ n, n ∈ numbers_of s applied → n ∈ numbers_of s issued).
Proof.
  intros [Hok Hinv]%history_invariant. destruct (Hinv s) as (Hi & Hsi & Hsa & Ha).
  split; [done|]. split; [done|]. intros n Hn%Ha. apply Hi.
  pose proof (generation_state_ok s d Hok) as [??]. lia.
Qed.

Lemma accepted_generations_increase_witness :
  let d1 := (reserve 0 Gmail empty_db).2 in
  let d2 := (reserve 5 Gmail d1).2 in
  let d3 := (accept 9 (mk_generation Gmail 2) Complete d2).2 in
  numbers_of Gmail [mk_generation Gmail 2] = [2] ∧
  StronglySorted Z.gt (numbers_of Gmail [mk_generation Gmail 2]) ∧
  (accept 10 (mk_generation Gmail 1) Complete d3).1 =
    Err (DelayedSourceGenerationError (mk_generation Gmail 1) 2).
Proof.
  split; [reflexivity|]. split; [|reflexivity].
  refine (proj1 (accepted_generations_increase
    (accept 9 (mk_generation Gmail 2) Complete (reserve 5 Gmail (reserve 0 Gmail empty_db).2).2).2
    [mk_generation Gmail 2; mk_generation Gmail 1] [mk_generation Gmail 2] Gmail _)).
  apply (history_accept 9 (mk_generation Gmail 2) Complete
    (reserve 5 Gmail (reserve 0 Gmail empty_db).2).2); [|reflexivity].
  apply (history_reserve 5 Gmail (reserve 0 Gmail empty_db).2); [|reflexivity].
  apply (history_reserve 0 Gmail empty_db); [constructor|reflexivity].
Defined.

Lemma accept_cases now gen status d :
  generations_ok d →
  let st := generation_state (sg_source gen) d in
  let d' := (accept now gen status d).2 in
  (accept now gen status d).1 =
    (if sg_number gen <=? gs_applied st then Err (DelayedSourceGenerationError gen (gs_applied st))
     else if gs_issued st <? sg_number gen then Err (UnreservedSourceGenerationError gen)
     else Ok tt) ∧
  (∀ s, generation_state s d' =
    if decide (s = sg_source gen ∧ gs_applied st < sg_number gen ≤ gs_issued st)
    then accepted_state now gen status st else generation_state s d) ∧
  generations_ok d'.
Proof.
  intros Hok st d'. subst d'.
  pose proof (generation_state_ok (sg_source gen) d Hok) as Hst. unfold generation_ok in Hst. fold st in Hst.
  destruct ((sg_number gen <=? gs_applied st) || (gs_issued st <? sg_number gen)) eqn:Hrej.
  - rewrite (accept_rejects now gen status d Hok Hrej). fold st. simpl.
    split; [|split; [|done]].
    + destruct (sg_number gen <=? gs_applied st) eqn:?; [done|]. simpl in Hrej. by rewrite Hrej.
    + intros s. rewrite decide_False by lia. done.
  - rewrite (accept_applies now gen status d Hok ltac:(subst st; lia)). simpl. split; [|split].
    + assert ((sg_number gen <=? gs_applied st) = false) as -> by lia.
      assert ((gs_issued st <? sg_number gen) = false) as -> by lia. done.
    + intros s. rewrite accepted_state_lookup. cbv zeta. case_decide as Hs.
      * destruct Hs as [-> Hn]. fold st.
        rewrite (proj2 (sql_exists_true _ _)), (proj2 (andb_true_iff _ _)); [done|..].
        -- split; [done|]. unfold acceptable.
           assert (is_source (sg_source gen) st = true) as ->
             by apply is_source_true, generation_state_source. simpl. lia.
        -- destruct (sql_find (is_source (sg_source gen)) (generations d)) eqn:Hf.
           ++ apply sql_find_Some in Hf. eauto.
           ++ exfalso. unfold st, generation_state in Hn. rewrite Hf in Hn. simpl in Hn. lia.
      * destruct (acceptable gen (generation_state s d)) eqn:Hacc; [|by rewrite andb_false_r].
        exfalso. apply Hs. unfold acceptable, is_source in Hacc.
        rewrite generation_state_source in Hacc.
        destruct (decide (s = sg_source gen)) as [->|]; [split; [done|fold st in Hacc; lia]|].
        by rewrite bool_decide_eq_false_2 in Hacc.
    + apply generations_ok_accept; [done|lia].
Qed.

(** A result is accepted exactly when it is newer than the applied generation
    and was issued; a number at or below the applied one raises
    [DelayedSourceGenerationError], a number above the issued one
    [UnreservedSourceGenerationError], and a rejected result changes no row.  An
    accepted one moves only its own source's progress. *)
Theorem accept_outcome now gen status d :
  generations_ok d →
  let st := generation_state (sg_source gen) d in
  let d' := (accept now gen status d).2 in
  (accept now gen status d).1 =
    (if sg_number gen <=? gs_applied st then Err (DelayedSourceGenerationError gen (gs_applied st))
     else if gs_issued st <? sg_number gen then Err (UnreservedSourceGenerationError gen)
     else Ok tt) ∧
  (∀ s, generation_state s d' =
    if decide (s = sg_source gen ∧ gs_applied st < sg_number gen ≤ gs_issued st)
    then accepted_state now gen status st else generation_state s d) ∧
  generations_ok d'.
Proof. apply accept_cases. Qed.

Lemma accept_outcome_witness :
  let d := (reserve 5 Gmail (reserve 0 Gmail empty_db).2).2 in
  (accept 9 (mk_generation Gmail 2) Complete d).1 = Ok tt ∧
  (accept 9 (mk_generation Gmail 3) Complete d).1 =
    Err (UnreservedSourceGenerationError (mk_generation Gmail 3)).
Proof.
  assert (generations_ok (reserve 5 Gmail (reserve 0 Gmail empty_db).2).2) as Hok
    by apply generations_ok_reserve, generations_ok_reserve, generations_ok_empty.
  exact (conj
    (proj1 (accept_outcome 9 (mk_generation Gmail 2) Complete
      (reserve 5 Gmail (reserve 0 Gmail empty_db).2).2 Hok))
    (proj1 (accept_outcome 9 (mk_generation Gmail 3) Complete
      (reserve 5 Gmail (reserve 0 Gmail empty_db).2).2 Hok))).
Defined.
End Generation.

(** ** Diagnostics of a Gmail read *)
Module Diagnostics.

Definition GMAIL_READ_BYTE_BUDGET : Z := 8000000.

Definition _SOURCE_ERROR_OUTCOMES (c : SourceErrorCode) : SourceReadOutcome :=
  match c with
  | invalid_grant | scope_mismatch | http_4xx => OutcomeAuthError
  | resource_limit | degraded => OutcomePartial
  | http_5xx | network | timeout | unknown => OutcomeTransportError
  end.

Definition source_failure_diagnostics (error_code : SourceErrorCode) : SourceReadDiagnostics :=
  mk_diagnostics (_SOURCE_ERROR_OUTCOMES error_code) 0 0 0 0 GMAIL_READ_BYTE_BUDGET
    [mk_reason_count (ReasonError error_code) 1].

Definition _DIAGNOSTIC_COUNT_MAXIMA : list Z := [221; 20; 200; 2000; GMAIL_READ_BYTE_BUDGET].
Definition _MAX_DIAGNOSTIC_REASON_COUNT : Z := 200.

Definition diagnostic_counts (g : SourceReadDiagnostics) : list Z :=
  [dg_request_count g; dg_page_count g; dg_projected_count g; dg_excluded_count g;
   dg_byte_budget g].

(** The closed sets of outcomes and reasons are the types themselves. *)
Definition diagnostics_valid (g : SourceReadDiagnostics) : bool :=
  forallb (λ '(v, m), (0 <=? v) && (v <=? m))
    (zip (diagnostic_counts g) _DIAGNOSTIC_COUNT_MAXIMA) &&
  bool_decide (NoDup (rc_reason <$> dg_reason_counts g)) &&
  forallb (λ r, (0 <=? rc_count r) && (rc_count r <=? _MAX_DIAGNOSTIC_REASON_COUNT))
    (dg_reason_counts g).

Definition validate (g : SourceReadDiagnostics) : op unit :=
  if diagnostics_valid g then mret tt else raise InvalidSourceReadDiagnosticsError.

(** The table's own [CHECK]s ([010_...sql]): ranges and one row per reason. *)
Definition row_checks (g : SourceReadDiagnostics) : bool :=
  (0 <=? dg_request_count g) && (dg_request_count g <=? 221) &&
  (0 <=? dg_page_count g) && (dg_page_count g <=? 20) &&
  (0 <=? dg_projected_count g) && (dg_projected_count g <=? 200) &&
  (0 <=? dg_excluded_count g) && (dg_excluded_count g <=? 2000) &&
  (0 <=? dg_byte_budget g) && (dg_byte_budget g <=? 8000000).
Definition reason_checks (g : SourceReadDiagnostics) : bool :=
  bool_decide (NoDup (rc_reason <$> dg_reason_counts g)) &&
  forallb (λ r, (0 <=? rc_count r) && (rc_count r <=? 200)) (dg_reason_counts g).

(** [write] replaces the singleton and its reason rows. *)
Definition write (g : SourceReadDiagnostics) : op unit :=
  if row_checks g && reason_checks g
  then modify (set_gmail_diagnostics (Some g))
  else raise IntegrityError.

(** What [validate] admits, the table admits. *)
Lemma validated_diagnostics_written g d :
  diagnostics_valid g = true → write g d = (Ok tt, set_gmail_diagnostics (Some g) d).
Proof.
  unfold diagnostics_valid, write, row_checks, reason_checks, diagnostic_counts; simpl.
  unfold GMAIL_READ_BYTE_BUDGET, _MAX_DIAGNOSTIC_REASON_COUNT. intros H.
  repeat (apply andb_true_iff in H as [H ?]).
  rewrite (proj2 (andb_true_iff _ _)); [done|]. split; [lia|].
  by apply andb_true_iff.
Qed.

Lemma failure_diagnostics_valid c : diagnostics_valid (source_failure_diagnostics c) = true.
Proof. by destruct c. Qed.
End Diagnostics.

(** ** Source rows *)
Module SyncState.
Import Diagnostics.

Definition has_source (s : SourceName) (r : source_sync_row) : bool :=
  bool_decide (ss_source r = s).

Definition upsert_sync (s : SourceName) (new : source_sync_row)
    (f : source_sync_row → source_sync_row) : op unit :=
  modify (λ d, set_sync_states (sql_upsert (has_source s) new f (sync_states d)) d).

(** [SourceStateStore.set_auth]. *)
Definition set_auth (now : instant) (s : SourceName) (auth : SourceAuthState) : op unit :=
  let t := utc_iso now in
  upsert_sync s (mk_sync_row s auth None None None None t)
    (λ r, mk_sync_row (ss_source r) auth (ss_last_success_at r) (ss_last_attempt_at r)
            (ss_last_error_code r) (ss_sync_cursor r) t).

(** [SourceStateStore.record_success]: an existing row keeps its [auth_state]. *)
Definition record_success (now : instant) (s : SourceName) (cursor : option text) : op unit :=
  let t := utc_iso now in
  upsert_sync s (mk_sync_row s Configured (Some t) (Some t) None cursor t)
    (λ r, mk_sync_row (ss_source r) (ss_auth_state r) (Some t) (Some t) None cursor t).

(** [SourceStateStore.record_failure]. *)
Definition record_failure (now : instant) (s : SourceName) (c : SourceErrorCode) : op unit :=
  let t := utc_iso now in
  upsert_sync s (mk_sync_row s Configured None (Some t) (Some c) None t)
    (λ r, mk_sync_row (ss_source r) (ss_auth_state r) (ss_last_success_at r) (Some t) (Some c)
            (ss_sync_cursor r) t).

(** [SourceStateStore.write_google_auth]: both rows, one timestamp. *)
Definition _GOOGLE_SOURCES : list SourceName := [Gmail; Calendar].

Definition write_google_auth (now : instant) (auth : SourceAuthState)
    (error_code : option SourceErrorCode) : op unit :=
  let t := utc_iso now in
  let attempt := match error_code with Some _ => Some t | None => None end in
  for_each (λ _ s,
    upsert_sync s (mk_sync_row s auth None attempt error_code None t)
      (λ r, mk_sync_row (ss_source r) auth (ss_last_success_at r)
              (match error_code with None => ss_last_attempt_at r | Some _ => attempt end)
              (match error_code with None => ss_last_error_code r | Some _ => error_code end)
              (ss_sync_cursor r) t)) tt _GOOGLE_SOURCES.

(** [SourceStateStore.record_credential_state]. *)
Definition record_credential_state (now : instant) (c : SourceCredentialState) : op unit :=
  modify (set_credential_state (Some (mk_credential c (utc_iso now)))).

(** The row of a source, or the explicit never-configured state. *)
Definition unconfigured_row (s : SourceName) : source_sync_row :=
  mk_sync_row s NotConfigured None None None None "".
Definition sync_row (s : SourceName) (d : db) : source_sync_row :=
  default (unconfigured_row s) (sql_find (has_source s) (sync_states d)).

(** *** [store/sync.py] *)

Definition accept_source_generation (now : instant) (gen : SourceGeneration)
    (status : SourceGenerationStatus) (diagnostics : option SourceReadDiagnostics) : op unit :=
  (match diagnostics with
   | Some g =>
     if negb (bool_decide (sg_source gen = Gmail))
     then raise InvalidSourceReadDiagnosticsError
     else validate g
   | None => mret tt
   end);;
  Generation.accept now gen status;;
  match diagnostics with Some g => write g | None => mret tt end.

Definition record_gmail_sync (now : instant) (g : SourceReadDiagnostics) (cursor : option text)
    (error_code : option SourceErrorCode) : op unit :=
  validate g;;
  immediate_transaction (
    (match error_code with
     | None => record_success now Gmail cursor
     | Some invalid_grant => write_google_auth now NeedsReauth (Some invalid_grant)
     | Some c => record_failure now Gmail c
     end);;
    write g).

Definition set_google_auth_state (now : instant) (auth : SourceAuthState) : op unit :=
  immediate_transaction (write_google_auth now auth None).

Definition disconnect_google_auth (now now' : instant) : op unit :=
  immediate_transaction (
    write_google_auth now NotConfigured None;;
    record_credential_state now' CredentialUnknown).

Definition record_google_invalid_grant (now : instant)
    (diagnostics : option SourceReadDiagnostics) : op unit :=
  (match diagnostics with Some g => validate g | None => mret tt end);;
  immediate_transaction (
    write_google_auth now NeedsReauth (Some invalid_grant);;
    match diagnostics with Some g => write g | None => mret tt end).

Lemma has_source_true s r : has_source s r = true ↔ ss_source r = s.
Proof. unfold has_source. by rewrite bool_decide_eq_true. Qed.

(** Reading a row back after one upsert that keeps the key. *)
Lemma find_sync_upsert s s' new f rows :
  ss_source new = s → (∀ r, ss_source (f r) = ss_source r) →
  sql_find (has_source s') (sql_upsert (has_source s) new f rows) =
    if decide (s = s')
    then Some (match sql_find (has_source s) rows with Some r => f r | None => new end)
    else sql_find (has_source s') rows.
Proof.
  intros Hnew Hf. case_decide as Hs; [subst s'|].
  - rewrite sql_find_upsert; [done| |by apply has_source_true].
    intros r. rewrite !has_source_true. by rewrite Hf.
  - apply sql_find_upsert_ne.
    + intros r. rewrite has_source_true. intros <-. by apply bool_decide_eq_false.
    + intros r. rewrite has_source_true. intros <-. apply bool_decide_eq_false. by rewrite Hf.
    + apply bool_decide_eq_false. congruence.
Qed.

(** Every Google source has a row in authorization state [a]. *)
Definition all_auth (a : SourceAuthState) (d : db) : Prop :=
  ∀ s, ∃ r, sql_find (has_source s) (sync_states d) = Some r ∧ ss_auth_state r = a.

Lemma all_auth_upsert a s new f d :
  ss_source new = s → (∀ r, ss_source (f r) = ss_source r) →
  (∀ r, ss_auth_state (f r) = ss_auth_state r) →
  all_auth a d → all_auth a (upsert_sync s new f d).2.
Proof.
  intros Hnew Hsrc Hauth Hall s'. unfold upsert_sync, modify; simpl.
  rewrite find_sync_upsert by done. case_decide as Hs; [|apply Hall].
  destruct (Hall s) as (r & -> & Hr). eexists. split; [done|]. by rewrite Hauth.
Qed.

Lemma all_auth_write now a c d : all_auth a (write_google_auth now a c d).2.
Proof.
  unfold write_google_auth, _GOOGLE_SOURCES, upsert_sync, modify. simpl.
  unfold mbind, M_bind, mret, M_ret. simpl.
  intros s; simpl. rewrite !find_sync_upsert by done.
  destruct s; simpl; eexists; (split; [done|]); by destruct (sql_find _ _).
Qed.
End SyncState.

(** ** Freshness *)
Module Freshness.
Import SyncState.

(** The decoded row ([SourceSyncState]). *)
Record SourceSyncState := mk_sync_state {
  source : SourceName;
  auth_state : SourceAuthState;
  last_success_at : option Z;
  last_attempt_at : option Z;
  last_error_code : option SourceErrorCode;
  sync_cursor : option text;
}.

Inductive SourceFreshnessStatus :=
  FreshNotConfigured | NeverSynced | FreshOk | Stale | FreshError | FreshNeedsReauth.
#[export] Instance SourceFreshnessStatus_eq_dec : EqDecision SourceFreshnessStatus.
Proof. solve_decision. Defined.

Record SourceFreshness := mk_freshness {
  fr_status : SourceFreshnessStatus;
  fr_last_success_at : option Z;
  fr_last_attempt_at : option Z;
  fr_age_seconds : option Z;
  fr_error_code : option SourceErrorCode;
}.

Definition DEFAULT_STALE_AFTER : timedelta := 24 * US_PER_HOUR.

Definition _AUTH_STATUSES (a : SourceAuthState) : option SourceFreshnessStatus :=
  match a with
  | NotConfigured => Some FreshNotConfigured
  | Configured => None
  | NeedsReauth => Some FreshNeedsReauth
  end.

Definition _freshness (st : SourceSyncState) (status : SourceFreshnessStatus)
    (age_seconds : option Z) : SourceFreshness :=
  mk_freshness status (last_success_at st) (last_attempt_at st) age_seconds (last_error_code st).

(** [int(delta.total_seconds())] truncates toward zero; the comparison with
    [stale_after] is made in microseconds. *)
Definition evaluate_source_freshness (st : SourceSyncState) (now : instant)
    (stale_after : timedelta) : SourceFreshness :=
  match _AUTH_STATUSES (auth_state st) with
  | Some s => _freshness st s None
  | None =>
    match last_error_code st with
    | Some _ => _freshness st FreshError None
    | None =>
      match last_success_at st with
      | None => _freshness st NeverSynced None
      | Some t =>
        let age_seconds := Z.quot (now - t) US_PER_SECOND in
        _freshness st (if stale_after <=? age_seconds * US_PER_SECOND then Stale else FreshOk)
          (Some age_seconds)
      end
    end
  end.

Lemma freshness_ok_cases st now :
  fr_status (evaluate_source_freshness st now DEFAULT_STALE_AFTER) = FreshOk ↔
  auth_state st = Configured ∧ last_error_code st = None ∧
  ∃ t, last_success_at st = Some t ∧ now - t < DEFAULT_STALE_AFTER.
Proof.
  unfold evaluate_source_freshness, DEFAULT_STALE_AFTER, US_PER_HOUR, US_PER_SECOND.
  destruct (auth_state st); simpl; [by split; [|intros (? & _)]| |by split; [|intros (? & _)]].
  destruct (last_error_code st); simpl; [by split; [|intros (_ & ? & _)]|].
  destruct (last_success_at st) as [t|]; simpl; [|by split; [|intros (_ & _ & ? & ? & _)]].
  pose proof (Z.quot_rem' (now - t) 1000000) as Hq.
  assert (Z.abs (Z.rem (now - t) 1000000) < 1000000) by (apply (Z.rem_bound_abs _ 1000000); lia).
  assert (0 ≤ now - t → 0 ≤ Z.rem (now - t) 1000000) by (intros; by apply Z.rem_nonneg).
  assert (now - t ≤ 0 → Z.rem (now - t) 1000000 ≤ 0) by (intros; by apply Z.rem_nonpos).
  destruct (Z.leb_spec (24 * 3600000000) (Z.quot (now - t) 1000000 * 1000000)); split; try done.
  - intros (_ & _ & t' & [= <-] & Hlt). lia.
  - intros _. split; [done|]. split; [done|]. exists t. split; [done|]. lia.
Qed.

(** A source reports [ok] only when it is authorized, its last attempt did not
    fail, and it last succeeded strictly less than 24 hours ago: errors, missing
    authorization and staleness can never be shown as a clean source. *)
Theorem freshness_ok_iff st now :
  fr_status (evaluate_source_freshness st now DEFAULT_STALE_AFTER) = FreshOk ↔
  auth_state st = Configured ∧ last_error_code st = None ∧
  ∃ t, last_success_at st = Some t ∧ now - t < DEFAULT_STALE_AFTER.
Proof. apply freshness_ok_cases. Qed.

Section Decode.
(** Pydantic's reading of a stored timestamp. *)
Context (parse_datetime : text → option Z).
Context (parse_utc_iso : ∀ t, in_range t = true → parse_datetime (utc_iso t) = Some t).

Definition decode_row (r : source_sync_row) : SourceSyncState :=
  mk_sync_state (ss_source r) (ss_auth_state r)
    (ss_last_success_at r ≫= parse_datetime) (ss_last_attempt_at r ≫= parse_datetime)
    (ss_last_error_code r) (ss_sync_cursor r).

(** [evaluate_source_freshness(store.source_health_snapshot().<source>, now)]. *)
Definition source_freshness (s : SourceName) (d : db) (now : instant) : SourceFreshness :=
  evaluate_source_freshness (decode_row (sync_row s d)) now DEFAULT_STALE_AFTER.

Lemma record_success_row now s cursor d :
  let r := sync_row s (record_success now s cursor d).2 in
  ss_last_success_at r = Some (utc_iso now) ∧ ss_last_error_code r = None ∧
  ss_auth_state r =
    match sql_find (has_source s) (sync_states d) with
    | Some r0 => ss_auth_state r0 | None => Configured end.
Proof.
  unfold record_success, upsert_sync, modify; simpl.
  unfold sync_row; simpl. rewrite find_sync_upsert, decide_True by done. simpl.
  by destruct (sql_find _ _).
Qed.

(** After a successful sync committed at [t0], an authorized source is [ok] for
    exactly 24 hours and [stale] from then on, through the stored text and its
    decoding. *)
Theorem success_fresh_for_a_day t0 now s cursor d :
  in_range t0 = true → t0 ≤ now →
  ss_auth_state (sync_row s d) = Configured →
  fr_status (source_freshness s (record_success t0 s cursor d).2 now) =
    if now - t0 <? DEFAULT_STALE_AFTER then FreshOk else Stale.
Proof.
  intros Ht0 Hnow Hauth. destruct (record_success_row t0 s cursor d) as (Hs & He & Ha).
  assert (ss_auth_state (sync_row s (record_success t0 s cursor d).2) = Configured) as Hc.
  { rewrite Ha. unfold sync_row in Hauth. by destruct (sql_find _ _). }
  unfold source_freshness. revert Hs He Hc. generalize (record_success t0 s cursor d).2.
  intros d' Hs He Hc. destruct (Z.ltb_spec (now - t0) DEFAULT_STALE_AFTER) as [Hlt|Hge].
  - apply freshness_ok_cases. simpl. rewrite Hs. simpl. rewrite parse_utc_iso by done. eauto.
  - unfold evaluate_source_freshness. simpl. rewrite Hc, He, Hs. simpl.
    rewrite parse_utc_iso by done. simpl.
    unfold DEFAULT_STALE_AFTER, US_PER_HOUR, US_PER_SECOND in *.
    rewrite Z.quot_div_nonneg by lia.
    pose proof (Z.div_mod (now - t0) 1000000 ltac:(lia)).
    pose proof (Z.mod_pos_bound (now - t0) 1000000 ltac:(lia)).
    destruct (Z.leb_spec (24 * 3600000000) ((now - t0) / 1000000 * 1000000)); [done|]. lia.
Qed.
End Decode.

Lemma success_fresh_for_a_day_witness :
  let t0 := 63839577600000000 in
  let d := (set_auth 63839577500000000 Gmail Configured empty_db).2 in
  fr_status (source_freshness fromisoformat Gmail (record_success t0 Gmail None d).2
    (t0 + 24 * US_PER_HOUR)) = Stale.
Proof.
  apply (success_fresh_for_a_day fromisoformat fromisoformat_utc_iso 63839577600000000
    (63839577600000000 + 24 * US_PER_HOUR) Gmail None
    (set_auth 63839577500000000 Gmail Configured empty_db).2).
  - reflexivity.
  - unfold US_PER_HOUR. lia.
  - reflexivity.
Defined.

(** [record_google_invalid_grant] puts both Google sources in [needs_reauth], and
    later successful or failed syncs do not clear it: only an explicit
    authorization write does. *)
Theorem invalid_grant_is_sticky now s d parse later stale_after :
  let d1 := (record_google_invalid_grant now None d).2 in
  let reauth d' := fr_status (evaluate_source_freshness (decode_row parse (sync_row s d'))
    later stale_after) = FreshNeedsReauth in
  reauth d1 ∧
  (∀ now' s' cursor, reauth (record_success now' s' cursor d1).2) ∧
  (∀ now' s' c, reauth (record_failure now' s' c d1).2).
Proof.
  assert (∀ d', all_auth NeedsReauth d' →
    fr_status (evaluate_source_freshness (decode_row parse (sync_row s d')) later stale_after)
      = FreshNeedsReauth) as Hre.
  { intros d' Hall. unfold sync_row, evaluate_source_freshness. destruct (Hall s) as (r & Hr & Ha).
    rewrite Hr. simpl. by rewrite Ha. }
  assert (all_auth NeedsReauth (record_google_invalid_grant now None d).2) as Hd1.
  { pose proof (all_auth_write now NeedsReauth (Some invalid_grant) d) as Hw.
    unfold record_google_invalid_grant, immediate_transaction, mbind, M_bind, mret, M_ret.
    by destruct (write_google_auth _ _ _ d) as [[[]|?] ?] eqn:He. }
  split; [by apply Hre|].
  split; intros; by apply Hre, all_auth_upsert.
Qed.
End Freshness.
