(* ===== verification/Situations.v ===== *)
(** The situation table: reads ([store/_situation_reader.py]), SQL statements
    ([store/_situation_sql.py]), detection upsert and resolution
    ([store/_situation_upsert.py]) and the state machine operations of
    [store/situations.py]. *)
From S2P Require Import Prelude PyDate PyTime Models SourceSync.
#[local] Open Scope Z_scope.

(** ** Reads *)
Module Reader.

Definition type_eqb (a b : SituationType) : bool := bool_decide (a = b).

(** [pending] or [delivered]: what resolution and expiry may close. *)
Definition open_state (r : Situation) : bool := in_state Pending r || in_state Delivered r.

Definition by_id : Situation → list sql_key := λ r, [KInt (id r)].

Definition active_by_type (ty : SituationType) (source : option SituationSource) (d : db)
    : list Situation :=
  order_by by_id (sql_select (λ r,
    type_eqb (situation_type r) ty &&
    match source with None => true | Some s => bool_decide (source_name r = s) end &&
    open_state r) (situations d)).

Definition get_situation (i : Z) (d : db) : option Situation :=
  sql_find (λ r, id r =? i) (situations d).

Definition situation_by_dedupe_key (k : text) (d : db) : option Situation :=
  sql_find (λ r, bool_decide (dedupe_key r = k)) (situations d).

(** [_SITUATION_TYPES] fixes the order of the answer. *)
Definition _SITUATION_TYPES : list SituationType :=
  [ReplyDeadline; CalendarConflict; PersonalOccasion].
Definition type_muted (ty : SituationType) (d : db) : bool :=
  sql_exists (λ m, type_eqb (mu_situation_type m) ty) (type_mutes d).
Definition muted_types (d : db) : list SituationType :=
  sql_select (λ ty, type_muted ty d) _SITUATION_TYPES.

Definition state_filter (st : option SituationState) (r : Situation) : bool :=
  match st with None => true | Some s => in_state s r end.

Definition list_situations (st : option SituationState) (after_id limit : Z) (d : db)
    : list Situation :=
  take (Z.to_nat limit) (order_by by_id (sql_select (λ r,
    state_filter st r && (after_id <? id r)) (situations d))).

(** The delivery order: critical first, replies after the others, then high
    before routine, oldest detection first. *)
Definition delivery_key (r : Situation) : list sql_key :=
  [KInt (if is_critical (priority r) then 0 else 1);
   KInt (if is_reply (situation_type r) then 1 else 0);
   KInt (if bool_decide (priority r = High) then 0 else 1);
   KText (detected_at r); KInt (id r)].

Definition pending_for_delivery (limit : nat) (d : db) : list Situation :=
  take limit (order_by delivery_key (sql_select (in_state Pending) (situations d))).

Definition count_situations (st : option SituationState) (d : db) : Z :=
  sql_count (state_filter st) (situations d).

Definition claim_active (i : Z) (now : text) (c : claim_row) : bool :=
  (cl_situation_id c =? i) && text_ltb now (cl_expires_at c).

Definition active_lease_expires_at (i : Z) (now : text) (d : db) : option text :=
  cl_expires_at <$> sql_find (claim_active i now) (claims d).

Definition count_pending_unclaimed (now : text) (d : db) : Z :=
  sql_count (λ r, in_state Pending r && negb (sql_exists (claim_active (id r) now) (claims d)))
    (situations d).

(** [SELECT situation_id ... WHERE receipt_digest = ? ORDER BY situation_id LIMIT 100]. *)
Definition delivery_claim_ids (digest : text) (d : db) : list Z :=
  take 100 (cl_situation_id <$>
    order_by (λ c, [KInt (cl_situation_id c)])
      (sql_select (λ c, bool_decide (cl_receipt_digest c = digest)) (claims d))).

Definition has_delivery (i : Z) (d : db) : bool :=
  0 <? sql_count (λ x, dl_situation_id x =? i) (deliveries d).

(** Non-critical deliveries in a half-open window of text timestamps. *)
Definition in_window (lo hi x : text) : bool := text_leb lo x && text_ltb x hi.
Definition counted_delivery (lo hi : text) (x : delivery_row) : bool :=
  in_window lo hi (dl_delivered_at x) && negb (is_critical (dl_priority x)).
Definition count_delivered_between (lo hi : text) (d : db) : Z :=
  sql_count (counted_delivery lo hi) (deliveries d).

(** Unexpired leases on non-critical rows, by claim time. *)
Definition counted_claim (lo hi now : text) (sits : list Situation) (c : claim_row) : bool :=
  in_window lo hi (cl_claimed_at c) && text_ltb now (cl_expires_at c) &&
  sql_exists (λ r, (id r =? cl_situation_id c) && negb (is_critical (priority r))) sits.
Definition count_reserved_between (lo hi now : text) (d : db) : Z :=
  sql_count (counted_claim lo hi now (situations d)) (claims d).

Definition count_deliveries (d : db) : Z := sql_count (λ _, true) (deliveries d).
End Reader.

(** ** Statements *)
Module Sql.
Import Reader.

(** [UPDATE situations SET f WHERE p]; the result is [cursor.rowcount]. *)
Definition update_situations (p : Situation → bool) (f : Situation → Situation) : op Z :=
  rowcount ← gets (λ d, sql_count p (situations d));
  modify (λ d, set_situations (sql_update p f (situations d)) d);;
  mret rowcount.

(** [INSERT_SITUATION]; the [UNIQUE] key raises [IntegrityError]. *)
Definition INSERT_SITUATION (ty : SituationType) (key : text) (pr : SituationPriority)
    (ttl why : text) (ev : SituationEvidence) (exp : option text) (timestamp : text)
    (src : SituationSource) (gen : option Z) : op unit :=
  dup ← gets (situation_by_dedupe_key key);
  match dup with
  | Some _ => raise IntegrityError
  | None =>
    modify (λ d, set_situations (situations d ++
      [mk_situation (next_rowid (id <$> situations d)) ty src gen key Pending pr ttl why ev exp
         timestamp timestamp None None None None None None false]) d)
  end.

Definition with_content (pr : SituationPriority) (ttl why : text) (ev : SituationEvidence)
    (exp : option text) (src : SituationSource) (gen : option Z) (r : Situation) : Situation :=
  set_source_generation gen (set_source_name src (set_expires_at exp (set_evidence ev
    (set_why_now why (set_title ttl (set_priority pr r)))))).

Definition REFRESH_SITUATION pr ttl why ev exp src gen (timestamp : text) (i : Z) : op Z :=
  update_situations (λ r, id r =? i)
    (λ r, set_updated_at timestamp (with_content pr ttl why ev exp src gen r)).

Definition REACTIVATE_SITUATION pr ttl why ev exp src gen (timestamp : text) (i : Z) : op Z :=
  update_situations (λ r, id r =? i)
    (λ r, set_snooze_cooldown_exempt false (set_snoozed_until None (set_expired_at None
      (set_resolved_at None (set_updated_at timestamp (set_detected_at timestamp
      (with_content pr ttl why ev exp src gen (set_state Pending r)))))))).

Definition deliver_row (timestamp : text) (r : Situation) : Situation :=
  set_snooze_cooldown_exempt false (set_snoozed_until None (set_updated_at timestamp
    (set_delivered_at (Some timestamp) (set_state Delivered r)))).

Definition MARK_DELIVERED (timestamp : text) (i : Z) : op Z :=
  update_situations (λ r, (id r =? i) && in_state Pending r) (deliver_row timestamp).

Definition ACKNOWLEDGE_SITUATION (timestamp : text) (i : Z) : op Z :=
  update_situations (λ r, (id r =? i) && in_state Delivered r)
    (λ r, set_updated_at timestamp (set_acknowledged_at (Some timestamp) (set_state Acknowledged r))).

Definition SNOOZE_SITUATION (until timestamp : text) (i : Z) : op Z :=
  update_situations (λ r, (id r =? i) && in_state Delivered r)
    (λ r, set_updated_at timestamp (set_snooze_cooldown_exempt true
      (set_snoozed_until (Some until) (set_state Snoozed r)))).

Definition MUTE_SITUATION (timestamp : text) (i : Z) : op Z :=
  update_situations (λ r, (id r =? i) && in_state Delivered r)
    (λ r, set_updated_at timestamp (set_muted_at (Some timestamp) (set_state Muted r))).

Definition RESOLVE_SITUATION (timestamp : text) (i : Z) : op Z :=
  update_situations (λ r, (id r =? i) && open_state r)
    (λ r, set_updated_at timestamp (set_resolved_at (Some timestamp) (set_state Resolved r))).

Definition wake_due (now : text) (r : Situation) : bool :=
  in_state Snoozed r && match snoozed_until r with Some u => text_leb u now | None => false end.
Definition WAKE_SNOOZED (timestamp : text) : op Z :=
  update_situations (wake_due timestamp)
    (λ r, set_updated_at timestamp (set_snoozed_until None (set_state Pending r))).

Definition lapsed (now : text) (r : Situation) : bool :=
  open_state r && match expires_at r with Some e => text_leb e now | None => false end.
Definition EXPIRE_LAPSED (timestamp : text) : op Z :=
  update_situations (lapsed timestamp)
    (λ r, set_updated_at timestamp (set_expired_at (Some timestamp) (set_state Expired r))).

Definition INSERT_TYPE_MUTE (ty : SituationType) (timestamp : text) : op unit :=
  modify (λ d, if type_muted ty d then d
               else set_type_mutes (type_mutes d ++ [mk_mute ty timestamp]) d).

(** [record_delivery] ([store/_situation_claim.py]). *)
Definition record_delivery (r : Situation) (timestamp : text) : op unit :=
  modify (λ d, set_deliveries (deliveries d ++ [mk_delivery (id r) timestamp (priority r)]) d).
End Sql.

(** ** Detection upsert and resolution *)
Module Upsert.
Import Reader Sql.

Definition _MAX_SITUATION_ROWS : Z := 10000.
Definition _MAX_SITUATION_RECORD_BYTES : Z := 16 * 1024.

Inductive UpsertOutcome := OutCreated | OutReactivated | OutRefreshed | OutSkipped | OutCapacitySkipped.
#[export] Instance UpsertOutcome_eq_dec : EqDecision UpsertOutcome.
Proof. solve_decision. Defined.

Definition situation_type_text (t : SituationType) : text :=
  match t with
  | ReplyDeadline => "reply_deadline"
  | CalendarConflict => "calendar_conflict"
  | PersonalOccasion => "personal_occasion"
  end.
Definition priority_text (p : SituationPriority) : text :=
  match p with Critical => "critical" | High => "high" | Routine => "routine" end.

(** Texts are their UTF-8 bytes, so [len(value.encode("utf-8"))] is their length. *)
Definition utf8_len (t : text) : Z := Z.of_nat (String.length t).

Section Upsert.
(** Pydantic's serialization of the evidence. *)
Context (dump_json : SituationEvidence → text).

Definition record_size (x : Detection) : Z :=
  utf8_len (dump_json (d_evidence x)) + utf8_len (situation_type_text (d_situation_type x)) +
  utf8_len (d_dedupe_key x) + utf8_len (priority_text (d_priority x)) +
  utf8_len (d_title x) + utf8_len (d_why_now x).

Definition _upsert_detection (x : Detection) (timestamp : text) (src : SituationSource)
    (gen : option Z) : op UpsertOutcome :=
  existing ← gets (situation_by_dedupe_key (d_dedupe_key x));
  count ← gets (count_situations None);
  if (_MAX_SITUATION_RECORD_BYTES <? record_size x) ||
     (match existing with None => _MAX_SITUATION_ROWS <=? count | Some _ => false end)
  then mret OutCapacitySkipped else
  let exp := utc_iso <$> d_expires_at x in
  match existing with
  | None =>
    INSERT_SITUATION (d_situation_type x) (d_dedupe_key x) (d_priority x) (d_title x)
      (d_why_now x) (d_evidence x) exp timestamp src gen;;
    mret OutCreated
  | Some r =>
    match state r with
    | Resolved | Expired =>
      delivered ← gets (has_delivery (id r));
      if type_eqb (situation_type r) PersonalOccasion && delivered then mret OutSkipped else
      REACTIVATE_SITUATION (d_priority x) (d_title x) (d_why_now x) (d_evidence x) exp src gen
        timestamp (id r);;
      mret OutReactivated
    | Pending | Delivered | Snoozed =>
      REFRESH_SITUATION (d_priority x) (d_title x) (d_why_now x) (d_evidence x) exp src gen
        timestamp (id r);;
      mret OutRefreshed
    | Acknowledged | Muted => mret OutSkipped
    end
  end.

Definition bump (o : UpsertOutcome) (s : DetectionUpsertSummary) : DetectionUpsertSummary :=
  match o with
  | OutCreated => mk_upsert_summary (created s + 1) (reactivated s) (refreshed s) (skipped s) (capacity_skipped s)
  | OutReactivated => mk_upsert_summary (created s) (reactivated s + 1) (refreshed s) (skipped s) (capacity_skipped s)
  | OutRefreshed => mk_upsert_summary (created s) (reactivated s) (refreshed s + 1) (skipped s) (capacity_skipped s)
  | OutSkipped => mk_upsert_summary (created s) (reactivated s) (refreshed s) (skipped s + 1) (capacity_skipped s)
  | OutCapacitySkipped => mk_upsert_summary (created s) (reactivated s) (refreshed s) (skipped s + 1) (capacity_skipped s + 1)
  end.

Definition upsert_batch (xs : list Detection) (timestamp : text)
    (expected_type : option SituationType) (src : SituationSource) (gen : option Z)
    : op DetectionUpsertSummary :=
  for_each (λ s x,
    match expected_type with
    | Some ty =>
      if negb (type_eqb (d_situation_type x) ty)
      then raise (DetectionSourceMismatchError ty (d_situation_type x))
      else o ← _upsert_detection x timestamp src gen; mret (bump o s)
    | None => o ← _upsert_detection x timestamp src gen; mret (bump o s)
    end) (mk_upsert_summary 0 0 0 0 0) xs.

(** The rows are read once, before the first update. *)
Definition resolve (ty : SituationType) (present_keys : list text) (timestamp : text)
    (src : option SituationSource) : op Z :=
  rows ← gets (active_by_type ty src);
  for_each (λ n r,
    if bool_decide (dedupe_key r ∈ present_keys) then mret n else
    rowcount ← RESOLVE_SITUATION timestamp (id r); mret (n + rowcount)) 0 rows.

Definition resolve_by_source_ids (ty : SituationType) (present_keys source_ids : list text)
    (timestamp : text) (include : bool) (src : option SituationSource) : op Z :=
  rows ← gets (active_by_type ty src);
  for_each (λ n r,
    match dict_get "thread_id" (facts (evidence r)) with
    | None => mret n
    | Some source_id =>
      if bool_decide (dedupe_key r ∈ present_keys) then mret n else
      if negb (eqb (bool_decide (source_id ∈ source_ids)) include) then mret n else
      rowcount ← RESOLVE_SITUATION timestamp (id r); mret (n + rowcount)
    end) 0 rows.

(** *** [store/_situation_consistency.py] *)

Definition _SOURCE_TYPES (s : SourceName) : SituationType :=
  match s with Gmail => ReplyDeadline | Calendar => CalendarConflict end.
Definition situation_source (s : SourceName) : SituationSource :=
  match s with Gmail => SourceGmail | Calendar => SourceCalendar end.
Definition _RESOLVES_ABSENT (s : SourceGenerationStatus) : bool :=
  match s with Complete => true | Degraded => false end.

Definition upsert_detections (now : instant) (xs : list Detection) : op DetectionUpsertSummary :=
  immediate_transaction (upsert_batch xs (utc_iso now) None SourceLocal None).

(** The optional arguments of [apply_source_generation]. *)
Record resolution_args := mk_resolution_args {
  ra_resolve_absent : bool;
  ra_scope_ids : list text;
  ra_excluded_ids : list text;
}.
Definition no_resolution : resolution_args := mk_resolution_args false [] [].

(** [now], [now_accept] and [now_sync] are the readings of the clock for the row
    timestamps, the generation and the sync row. *)
Definition apply_source_generation (now now_accept now_sync : instant)
    (gen : SourceGeneration) (xs : list Detection) (status : SourceGenerationStatus)
    (cursor : option text) (error_code : option SourceErrorCode)
    (diagnostics : option SourceReadDiagnostics) (ra : resolution_args)
    : op DetectionApplySummary :=
  let expected_type := _SOURCE_TYPES (sg_source gen) in
  let timestamp := utc_iso now in
  let src := situation_source (sg_source gen) in
  let present := d_dedupe_key <$> xs in
  immediate_transaction (
    SyncState.accept_source_generation now_accept gen status diagnostics;;
    summary ← upsert_batch xs timestamp (Some expected_type) src (Some (sg_number gen));
    n ← (if _RESOLVES_ABSENT status
         then resolve expected_type present timestamp (Some src)
         else if ra_resolve_absent ra
         then resolve_by_source_ids expected_type present (ra_excluded_ids ra) timestamp false
                (Some src)
         else if negb (bool_decide (ra_scope_ids ra = []))
         then resolve_by_source_ids expected_type present (ra_scope_ids ra) timestamp true
                (Some src)
         else mret 0);
    (match error_code, status with
     | None, Complete => SyncState.record_success now_sync (sg_source gen) cursor
     | None, Degraded => SyncState.record_failure now_sync (sg_source gen) degraded
     | Some invalid_grant, _ =>
       SyncState.write_google_auth now_sync NeedsReauth (Some invalid_grant)
     | Some c, _ => SyncState.record_failure now_sync (sg_source gen) c
     end);;
    mret (mk_apply_summary summary n)).

Definition apply_local_detections (now : instant) (xs : list Detection)
    : op DetectionApplySummary :=
  let timestamp := utc_iso now in
  immediate_transaction (
    summary ← upsert_batch xs timestamp (Some PersonalOccasion) SourceMemory None;
    n ← resolve PersonalOccasion (d_dedupe_key <$> xs) timestamp (Some SourceMemory);
    mret (mk_apply_summary summary n)).

Definition resolve_absent (now : instant) (ty : SituationType) (present_keys : list text) : op Z :=
  immediate_transaction (resolve ty present_keys (utc_iso now) None).
End Upsert.
End Upsert.

(** ** The operations of [SituationStore] *)
Module Store.
Import Reader Sql.

Definition MAX_SITUATION_PAGE_SIZE : Z := 100.

Definition expire_lapsed (now : instant) : op Z := EXPIRE_LAPSED (utc_iso now).
Definition wake_snoozed (now : instant) : op Z := WAKE_SNOOZED (utc_iso now).

Definition _require_situation (i : Z) : op Situation :=
  r ← gets (get_situation i);
  match r with Some r => mret r | None => raise (SituationNotFoundError i) end.

Definition _raise_transition_error (i : Z) (action : text) : op unit :=
  r ← gets (get_situation i);
  match r with
  | None => raise (SituationNotFoundError i)
  | Some r => raise (InvalidSituationTransitionError i (state r) action)
  end.

(** The shape the single-row transitions share: update, check [rowcount], reread. *)
Definition guarded (sql : op Z) (i : Z) (action : text) : op Situation :=
  rowcount ← sql;
  (if rowcount =? 0 then _raise_transition_error i action else mret tt);;
  _require_situation i.

Definition mark_delivered (now : instant) (ids : list Z) : op (list Situation) :=
  let timestamp := utc_iso now in
  immediate_transaction (
    for_each (λ acc i,
      r ← guarded (MARK_DELIVERED timestamp i) i "deliver";
      record_delivery r timestamp;;
      mret (acc ++ [r])) [] ids).

Definition acknowledge_situation (now : instant) (i : Z) : op Situation :=
  immediate_transaction (guarded (ACKNOWLEDGE_SITUATION (utc_iso now) i) i "acknowledge").

(** [until] is aware: [None] stands for a naive datetime. *)
Definition snooze_situation (now : instant) (i : Z) (until : option instant) : op Situation :=
  match until with
  | None => raise (SituationValidationError "until" "must be timezone-aware")
  | Some u =>
    immediate_transaction (guarded (SNOOZE_SITUATION (utc_iso u) (utc_iso now) i) i "snooze")
  end.

Definition mute_situation (now : instant) (i : Z) : op Situation :=
  immediate_transaction (guarded (MUTE_SITUATION (utc_iso now) i) i "mute").

Definition mute_situation_type (now : instant) (i : Z) : op Situation :=
  let timestamp := utc_iso now in
  immediate_transaction (
    r ← guarded (MUTE_SITUATION timestamp i) i "mute type";
    INSERT_TYPE_MUTE (situation_type r) timestamp;;
    mret r).

Definition list_page (st : option SituationState) (after_id limit : Z) : op (list Situation) :=
  if (after_id <? 0) || negb ((1 <=? limit) && (limit <=? MAX_SITUATION_PAGE_SIZE))
  then raise (SituationValidationError "pagination"
    "after_id must be nonnegative and limit must be 1..100")
  else gets (list_situations st after_id limit).
End Store.
