(* ===== verification/Delivery.v ===== *)
(** Delivery claiming: candidate eligibility ([store/_delivery_eligibility.py]),
    atomic claims, leases and confirmations ([store/_situation_claim.py]) and
    receipts ([store/_delivery_receipt.py]). *)
From S2P Require Import Prelude PyDate PyTime Models SourceSync Situations.
Import Reader Sql.
#[local] Open Scope Z_scope.

(** ** Eligibility *)

Definition _MAX_DELIVERY_CANDIDATES : nat := 100.
Definition _RESERVED_NON_REPLY_SLOTS : Z := 1.

(** [CURRENT_SOURCE_ELIGIBILITY]: replies only while Gmail's latest generation is
    applied and complete (or none was ever issued). *)
Definition gmail_current (g : SourceGenerationState) : bool :=
  Generation.is_source Gmail g && (gs_issued g =? gs_applied g) &&
  bool_decide (gs_status g = Some Complete).
Definition current_source_eligible (r : Situation) (d : db) : bool :=
  negb (is_reply (situation_type r)) ||
  negb (sql_exists (Generation.is_source Gmail) (generations d)) ||
  sql_exists gmail_current (generations d).

Definition unexpired (now : text) (r : Situation) : bool :=
  match expires_at r with None => true | Some e => text_ltb now e end.

(** No delivery of the row after the cooldown boundary, unless it was snoozed. *)
Definition cooled_down (after : text) (r : Situation) (d : db) : bool :=
  snooze_cooldown_exempt r ||
  negb (sql_exists (λ x, (dl_situation_id x =? id r) && text_ltb after (dl_delivered_at x))
    (deliveries d)).

Definition is_claimed (r : Situation) (d : db) : bool :=
  sql_exists (λ c, cl_situation_id c =? id r) (claims d).

(** [_SELECT_CONSUMABLE_NON_REPLY] over the candidate ids. *)
Definition consumable_non_reply (candidates : list Situation) (claim : DeliveryClaim)
    (leasing : bool) (d : db) : bool :=
  sql_exists (λ r,
    existsb (λ c, id c =? id r) candidates && in_state Pending r &&
    negb (is_critical (priority r)) && negb (is_reply (situation_type r)) &&
    unexpired (dc_delivered_at claim) r && negb (type_muted (situation_type r) d) &&
    cooled_down (dc_cooldown_after claim) r d &&
    (negb leasing || negb (is_claimed r d))) (situations d).

Definition reserved_non_reply_slots (candidates : list Situation) (claim : DeliveryClaim)
    (leasing : bool) (d : db) : Z :=
  if negb (dc_allow_noncritical claim) || bool_decide (candidates = []) then 0
  else if consumable_non_reply candidates claim leasing d then _RESERVED_NON_REPLY_SLOTS else 0.
Definition reserved_non_reply_slots_for_claim candidates claim d : Z :=
  reserved_non_reply_slots candidates claim false d.
Definition reserved_non_reply_slots_for_reservation candidates claim d : Z :=
  reserved_non_reply_slots candidates claim true d.

(** Counting a joined row: the situation a delivery or a lease belongs to. *)
Definition reply_situation (i : Z) (d : db) : bool :=
  sql_exists (λ r, (id r =? i) && is_reply (situation_type r)) (situations d).

Definition day_deliveries (claim : DeliveryClaim) (d : db) : Z :=
  count_delivered_between (dc_local_day_start claim) (dc_local_day_end claim) d.
Definition day_reply_deliveries (claim : DeliveryClaim) (d : db) : Z :=
  sql_count (λ x, counted_delivery (dc_local_day_start claim) (dc_local_day_end claim) x &&
    reply_situation (dl_situation_id x) d) (deliveries d).
Definition day_leases (claim : DeliveryClaim) (d : db) : Z :=
  count_reserved_between (dc_local_day_start claim) (dc_local_day_end claim)
    (dc_delivered_at claim) d.
Definition day_reply_leases (claim : DeliveryClaim) (d : db) : Z :=
  sql_count (λ c, counted_claim (dc_local_day_start claim) (dc_local_day_end claim)
      (dc_delivered_at claim) (situations d) c &&
    reply_situation (cl_situation_id c) d) (claims d).

(** The conditions both writes share. *)
Definition deliverable (claim : DeliveryClaim) (d : db) (r : Situation) : bool :=
  in_state Pending r && unexpired (dc_delivered_at claim) r && current_source_eligible r d &&
  negb (type_muted (situation_type r) d) && cooled_down (dc_cooldown_after claim) r d.

(** The [WHERE] of the claim's [UPDATE]. *)
Definition claimable (claim : DeliveryClaim) (slots : Z) (d : db) (r : Situation) : bool :=
  deliverable claim d r &&
  (is_critical (priority r) || (day_deliveries claim d <? dc_daily_budget claim)) &&
  (is_critical (priority r) || negb (is_reply (situation_type r)) ||
   (day_reply_deliveries claim d <? Z.max 0 (dc_daily_budget claim - slots))).

(** The [WHERE] of the lease's [INSERT ... SELECT]. *)
Definition leasable (claim : DeliveryClaim) (slots : Z) (d : db) (r : Situation) : bool :=
  deliverable claim d r && negb (is_claimed r d) &&
  (is_critical (priority r) ||
   (day_deliveries claim d + day_leases claim d <? dc_daily_budget claim)) &&
  (is_critical (priority r) || negb (is_reply (situation_type r)) ||
   (day_reply_deliveries claim d + day_reply_leases claim d
      <? Z.max 0 (dc_daily_budget claim - slots))).

(** ** [claim_for_delivery] *)

Definition skip_candidate (claim : DeliveryClaim) (r : Situation) : bool :=
  negb (dc_allow_noncritical claim) && negb (is_critical (priority r)).

Definition claim_one (claim : DeliveryClaim) (slots : Z) (acc : list Situation)
    (candidate : Situation) : op (list Situation) :=
  if skip_candidate claim candidate then mret acc else
  d ← gets (λ d, d);
  rowcount ← update_situations (λ r, (id r =? id candidate) && claimable claim slots d r)
    (deliver_row (dc_delivered_at claim));
  if rowcount =? 0 then mret acc else
  r ← gets (get_situation (id candidate));
  match r with
  | None => raise (SituationNotFoundError (id candidate))
  | Some r => record_delivery r (dc_delivered_at claim);; mret (acc ++ [r])
  end.

Definition claim_for_delivery (claim : DeliveryClaim) : op (list Situation) :=
  immediate_transaction (
    candidates ← gets (pending_for_delivery _MAX_DELIVERY_CANDIDATES);
    slots ← gets (reserved_non_reply_slots_for_claim candidates claim);
    for_each (claim_one claim slots) [] candidates).

(** ** Receipts *)

Definition receipts_expire (timestamp : text) : op unit :=
  modify (λ d, set_claims (sql_delete (λ c, text_leb (cl_expires_at c) timestamp) (claims d)) d).

Definition receipts_consume (digest : text) : op unit :=
  modify (λ d, set_claims (sql_delete (λ c, bool_decide (cl_receipt_digest c = digest)) (claims d)) d).

Definition receipts_replay (digest : text) (d : db) : option DeliveryConfirmation :=
  (λ r, mk_confirmation AlreadyConfirmed (rp_delivered_count r)) <$>
    sql_find (λ r, bool_decide (rp_receipt_digest r = digest)) (receipts d).

(** The trigger [confirmed_delivery_receipts_no_duplicate] and the column's
    [CHECK] abort a second or an out-of-range receipt. *)
Definition receipts_record (digest : text) (count : Z) (confirmed_at : text)
    : op DeliveryConfirmation :=
  d ← gets (λ d, d);
  if sql_exists (λ r, bool_decide (rp_receipt_digest r = digest)) (receipts d) ||
     negb ((0 <=? count) && (count <=? 100))
  then raise IntegrityError else
  modify (λ d, set_receipts (receipts d ++ [mk_receipt digest count confirmed_at]) d);;
  mret (mk_confirmation Confirmed count).

Section Receipts.
(** [sha256(token.encode()).digest()]. *)
Context (receipt_digest : text → text).

(** ** [reserve_for_delivery] *)

(** [INSERT ... SELECT]: the table's [CHECK(expires_at > claimed_at)] aborts a lease
    that would already be over. *)
Definition reserve_one (claim : DeliveryClaim) (slots : Z) (digest expires : text)
    (acc : list Situation) (candidate : Situation) : op (list Situation) :=
  if skip_candidate claim candidate then mret acc else
  d ← gets (λ d, d);
  match sql_find (λ r, (id r =? id candidate) && leasable claim slots d r) (situations d) with
  | None => mret acc
  | Some r =>
    if negb (text_ltb (dc_delivered_at claim) expires) then raise IntegrityError else
    modify (λ d, set_claims (claims d ++
      [mk_claim digest (id r) (dc_delivered_at claim) expires]) d);;
    mret (acc ++ [candidate])
  end.

Definition reserve_for_delivery (claim : DeliveryClaim) (claim_token expires : text)
    : op DeliveryReservation :=
  let digest := receipt_digest claim_token in
  reserved ← immediate_transaction (
    receipts_expire (dc_delivered_at claim);;
    candidates ← gets (pending_for_delivery _MAX_DELIVERY_CANDIDATES);
    slots ← gets (reserved_non_reply_slots_for_reservation candidates claim);
    for_each (reserve_one claim slots digest expires) [] candidates);
  mret (mk_reservation claim_token reserved expires).

(** ** [confirm_delivery] *)

Definition confirm_one (confirmed_at : text) (_ : unit) (i : Z) : op unit :=
  rowcount ← MARK_DELIVERED confirmed_at i;
  if rowcount =? 0 then raise DeliveryReceiptError else
  r ← gets (get_situation i);
  match r with
  | None => raise (SituationNotFoundError i)
  | Some r => record_delivery r confirmed_at
  end.

Definition confirm_delivery (claim_token confirmed_at : text) : op DeliveryConfirmation :=
  let digest := receipt_digest claim_token in
  immediate_transaction (
    replay ← gets (receipts_replay digest);
    match replay with
    | Some c => mret c
    | None =>
      receipts_expire confirmed_at;;
      ids ← gets (delivery_claim_ids digest);
      if bool_decide (ids = []) then raise DeliveryReceiptError else
      for_each (confirm_one confirmed_at) tt ids;;
      receipts_consume digest;;
      receipts_record digest (Z.of_nat (length ids)) confirmed_at
    end).
End Receipts.
