(* ===== verification/StateMachine.v ===== *)
(** The situation state machine as an invariant of the whole store API: which
    state changes the operations of [Situations.v] and [Delivery.v] can make, the
    integrity of the rows and of the append-only histories, and the API as one
    step function. *)
From S2P Require Import Prelude PyDate PyTime Models SourceSync Situations Delivery.
Import Reader Sql Upsert Store.
#[local] Open Scope Z_scope.

(** Instance search goes by the name of an operation, not by its unfolding. *)
#[export] Typeclasses Opaque raise gets modify lift immediate_transaction for_each
  update_situations INSERT_SITUATION REFRESH_SITUATION REACTIVATE_SITUATION MARK_DELIVERED
  ACKNOWLEDGE_SITUATION SNOOZE_SITUATION MUTE_SITUATION RESOLVE_SITUATION WAKE_SNOOZED
  EXPIRE_LAPSED INSERT_TYPE_MUTE record_delivery _upsert_detection upsert_batch resolve
  resolve_by_source_ids upsert_detections apply_source_generation apply_local_detections
  resolve_absent expire_lapsed wake_snoozed _require_situation _raise_transition_error guarded
  mark_delivered acknowledge_situation snooze_situation mute_situation mute_situation_type
  claim_one claim_for_delivery receipts_expire receipts_consume receipts_record reserve_one
  reserve_for_delivery confirm_one confirm_delivery Generation.reserve Generation.accept
  Diagnostics.validate Diagnostics.write SyncState.upsert_sync SyncState.set_auth
  SyncState.record_success SyncState.record_failure SyncState.write_google_auth
  SyncState.record_credential_state SyncState.accept_source_generation.

(** ** State changes *)

(** The edges of the delivery state machine. *)
Inductive edge : SituationState → SituationState → Prop :=
  | edge_deliver : edge Pending Delivered
  | edge_acknowledge : edge Delivered Acknowledged
  | edge_snooze : edge Delivered Snoozed
  | edge_mute : edge Delivered Muted
  | edge_wake : edge Snoozed Pending
  | edge_resolve s : s = Pending ∨ s = Delivered → edge s Resolved
  | edge_expire s : s = Pending ∨ s = Delivered → edge s Expired
  | edge_reactivate s : s = Resolved ∨ s = Expired → edge s Pending.

(** What one row may become over an operation: several edges, since one batch may
    touch a row more than once. *)
Record row_step (r r' : Situation) : Prop := mk_row_step {
  rs_id : id r' = id r;
  rs_key : dedupe_key r' = dedupe_key r;
  rs_type : situation_type r' = situation_type r;
  rs_state : rtc edge (state r) (state r');
}.

#[export] Instance row_step_preorder : PreOrder row_step.
Proof.
  split.
  - intros r. by split.
  - intros r1 r2 r3 [] []. split; try congruence. by etrans.
Qed.

(** The timestamp columns determine the state: each terminal or snoozed timestamp is
    present exactly in its state. *)
Definition row_ok (r : Situation) : Prop :=
  (is_Some (snoozed_until r) ↔ state r = Snoozed) ∧
  (is_Some (acknowledged_at r) ↔ state r = Acknowledged) ∧
  (is_Some (muted_at r) ↔ state r = Muted) ∧
  (is_Some (resolved_at r) ↔ state r = Resolved) ∧
  (is_Some (expired_at r) ↔ state r = Expired) ∧
  (state r = Delivered ∨ state r = Acknowledged ∨ state r = Muted ∨ state r = Snoozed ∨
   snooze_cooldown_exempt r = true → is_Some (delivered_at r)) ∧
  (state r = Snoozed → snooze_cooldown_exempt r = true) ∧
  (state r = Delivered ∨ state r = Acknowledged ∨ state r = Muted →
   snooze_cooldown_exempt r = false).

(** ** The database *)

Definition ids (d : db) : list Z := id <$> situations d.

Record db_ok (d : db) : Prop := mk_db_ok {
  ok_rows : Forall row_ok (situations d);
  ok_ids : NoDup (ids d);
  ok_keys : NoDup (dedupe_key <$> situations d);
  ok_deliveries : Forall (λ x, dl_situation_id x ∈ ids d) (deliveries d);
  ok_claims : NoDup (cl_situation_id <$> claims d);
  ok_claim_rows : Forall (λ c, cl_situation_id c ∈ ids d ∧
                    text_ltb (cl_claimed_at c) (cl_expires_at c) = true) (claims d);
  ok_receipts : NoDup (rp_receipt_digest <$> receipts d);
  ok_generations : Generation.generations_ok d;
}.

(** Rows are only changed along [row_step] or appended. *)
Definition rows_evolve (rows rows' : list Situation) : Prop :=
  ∃ kept new, rows' = kept ++ new ∧ Forall2 row_step rows kept.

Record evolves (d d' : db) : Prop := mk_evolves {
  ev_rows : rows_evolve (situations d) (situations d');
  ev_deliveries : deliveries d `prefix_of` deliveries d';
  ev_receipts : receipts d `prefix_of` receipts d';
  ev_mutes : type_mutes d `prefix_of` type_mutes d';
}.

Definition sound_step (d d' : db) : Prop := db_ok d → db_ok d' ∧ evolves d d'.

#[export] Instance rows_evolve_preorder : PreOrder rows_evolve.
Proof.
  split.
  - intros rows. exists rows, []. split; [by rewrite app_nil_r|]. reflexivity.
  - intros r1 r2 r3 (k1 & n1 & -> & H1) (k2 & n2 & -> & H2).
    apply Forall2_app_inv_l in H2 as (k3 & n3 & H3 & Hn3 & ->).
    exists k3, (n3 ++ n2). split; [by rewrite app_assoc|].
    by etrans.
Qed.

#[export] Instance evolves_preorder : PreOrder evolves.
Proof.
  split.
  - intros d. split; reflexivity.
  - intros d1 d2 d3 [] []. split; by etrans.
Qed.

#[export] Instance sound_step_preorder : PreOrder sound_step.
Proof.
  split.
  - intros d Hok. split; [done|reflexivity].
  - intros d1 d2 d3 H12 H23 H1. destruct (H12 H1) as [H2 E12]. destruct (H23 H2) as [H3 E23].
    split; [done|]. by etrans.
Qed.

(** *** Frames: writes that do not touch the tables at hand *)

Definition same_tables (d d' : db) : Prop :=
  situations d' = situations d ∧ deliveries d' = deliveries d ∧ claims d' = claims d ∧
  receipts d' = receipts d ∧ type_mutes d' = type_mutes d.

Lemma sound_same_tables d d' :
  same_tables d d' → (Generation.generations_ok d → Generation.generations_ok d') →
  sound_step d d'.
Proof.
  intros (Hs & Hd & Hc & Hr & Hm) Hg []. split.
  - split; unfold ids in *; rewrite ?Hs, ?Hd, ?Hc, ?Hr; auto.
  - split; rewrite ?Hs, ?Hd, ?Hr, ?Hm; reflexivity.
Qed.

(** *** Updating situation rows *)

Lemma sound_update_at p f d :
  (∀ r, r ∈ situations d → p r = true → row_ok r → row_ok (f r) ∧ row_step r (f r)) →
  (∀ r, id (f r) = id r ∧ dedupe_key (f r) = dedupe_key r) →
  sound_step d (set_situations (sql_update p f (situations d)) d).
Proof.
  intros Hf Hkey [].
  assert (id <$> sql_update p f (situations d) = id <$> situations d) as Hids
    by (apply sql_update_column; intros; apply Hkey).
  split.
  - split; unfold ids in *; simpl; rewrite ?Hids; try done.
    + apply Forall_sql_update; [done|]. intros r Hin Hr Hp. by apply Hf.
    + rewrite sql_update_column; [done|]. intros; apply Hkey.
  - split; simpl; try reflexivity. exists (sql_update p f (situations d)), [].
    split; [by rewrite app_nil_r|]. unfold sql_update. rewrite Forall2_fmap_r.
    apply Forall_Forall2_diag. rewrite Forall_forall in *. intros r Hr. simpl.
    destruct (p r) eqn:Hp; [|reflexivity]. apply Hf; auto.
Qed.

Lemma update_situations_run p f d :
  update_situations p f d =
    (Ok (sql_count p (situations d)), set_situations (sql_update p f (situations d)) d).
Proof. done. Qed.

Lemma sound_update_situations p f :
  (∀ r, p r = true → row_ok r → row_ok (f r) ∧ row_step r (f r)) →
  (∀ r, id (f r) = id r ∧ dedupe_key (f r) = dedupe_key r) →
  Preserves sound_step (update_situations p f).
Proof.
  intros Hf Hkey d res d'. rewrite update_situations_run. intros [= <- <-].
  apply sound_update_at; auto.
Qed.

Lemma in_state_true s r : in_state s r = true ↔ state r = s.
Proof. unfold in_state. by rewrite bool_decide_eq_true. Qed.

Lemma open_state_true r : open_state r = true ↔ state r = Pending ∨ state r = Delivered.
Proof. unfold open_state. by rewrite orb_true_iff, !in_state_true. Qed.

Lemma rtc_edge s s' : edge s s' → rtc edge s s'.
Proof. apply rtc_once. Qed.

(** Discharges the side conditions of [sound_update_situations] for a statement whose
    guard fixes the state to [Hst]. *)
Ltac solve_row_step Hst :=
  split;
  [ unfold row_ok in *; simpl in *; rewrite ?Hst in *; rewrite ?is_Some_alt in *; simpl in *;
    intuition congruence
  | split; try done; apply rtc_edge; simpl; rewrite ?Hst; constructor; auto ].

(** A statement guarded by [WHERE id = i AND state = s]. *)
Ltac solve_id_state :=
  apply sound_update_situations; [|by intros];
  intros r [_ Hst%in_state_true]%andb_true_iff Hok; solve_row_step Hst.

#[export] Instance sound_MARK_DELIVERED t i : Preserves sound_step (MARK_DELIVERED t i).
Proof. solve_id_state. Qed.

#[export] Instance sound_ACKNOWLEDGE t i : Preserves sound_step (ACKNOWLEDGE_SITUATION t i).
Proof. solve_id_state. Qed.

#[export] Instance sound_SNOOZE u t i : Preserves sound_step (SNOOZE_SITUATION u t i).
Proof. solve_id_state. Qed.

#[export] Instance sound_MUTE t i : Preserves sound_step (MUTE_SITUATION t i).
Proof. solve_id_state. Qed.

#[export] Instance sound_RESOLVE t i : Preserves sound_step (RESOLVE_SITUATION t i).
Proof.
  apply sound_update_situations; [|by intros].
  intros r [_ [Hst|Hst]%open_state_true]%andb_true_iff Hok; solve_row_step Hst.
Qed.

#[export] Instance sound_WAKE t : Preserves sound_step (WAKE_SNOOZED t).
Proof.
  apply sound_update_situations; [|by intros].
  intros r [Hst%in_state_true _]%andb_true_iff Hok. solve_row_step Hst.
Qed.

#[export] Instance sound_EXPIRE t : Preserves sound_step (EXPIRE_LAPSED t).
Proof.
  apply sound_update_situations; [|by intros].
  intros r [[Hst|Hst]%open_state_true _]%andb_true_iff Hok; solve_row_step Hst.
Qed.

#[export] Instance sound_REFRESH pr ttl why ev exp src gen t i :
  Preserves sound_step (REFRESH_SITUATION pr ttl why ev exp src gen t i).
Proof.
  apply sound_update_situations; [|by intros]. intros r _ Hok. split; [exact Hok|by split].
Qed.

(** *** Appending rows *)

Lemma get_situation_spec i d r : get_situation i d = Some r → r ∈ situations d ∧ id r = i.
Proof. intros [Hin Hp]%sql_find_Some. split; [done|lia]. Qed.

Lemma elem_of_ids r d : r ∈ situations d → id r ∈ ids d.
Proof. intros Hin. by apply list_elem_of_fmap_2. Qed.

(** Ids are unique: a row is the row of its id. *)
Lemma same_id d r r' :
  db_ok d → r ∈ situations d → r' ∈ situations d → id r = id r' → r = r'.
Proof. intros Hok. apply NoDup_fmap_eq, (ok_ids _ Hok). Qed.

#[export] Instance sound_INSERT ty key pr ttl why ev exp t src gen :
  Preserves sound_step (INSERT_SITUATION ty key pr ttl why ev exp t src gen).
Proof.
  intros d res d'. unfold INSERT_SITUATION, gets, modify, raise, mbind, M_bind.
  destruct (situation_by_dedupe_key key d) as [r0|] eqn:Hdup; intros [= <- <-]; [reflexivity|].
  apply sql_find_None in Hdup. rewrite sql_exists_false in Hdup. intros []. split.
  - split; unfold ids in *; simpl; rewrite ?fmap_app; simpl; try done.
    + apply Forall_app. split; [done|]. apply Forall_singleton. unfold row_ok. simpl.
      rewrite !is_Some_alt. intuition congruence.
    + apply NoDup_app. split; [done|]. split; [|apply NoDup_singleton].
      intros i Hin%next_rowid_fresh Hid%list_elem_of_singleton. simpl in Hid. lia.
    + apply NoDup_app. split; [done|]. split; [|apply NoDup_singleton].
      intros k (r & -> & Hin)%list_elem_of_fmap Hk%list_elem_of_singleton.
      specialize (Hdup r Hin). by rewrite bool_decide_eq_false in Hdup.
    + eapply Forall_impl; [exact ok_deliveries0|]. intros x Hx. apply elem_of_app. by left.
    + eapply Forall_impl; [exact ok_claim_rows0|]. intros x [Hx ?].
      split; [|done]. apply elem_of_app. by left.
  - split; simpl; try reflexivity. eexists (situations d), _. split; [done|reflexivity].
Qed.

Lemma sound_record_delivery d r t :
  id r ∈ ids d → sound_step d (set_deliveries (deliveries d ++ [mk_delivery (id r) t (priority r)]) d).
Proof.
  intros Hin []. split.
  - split; simpl; try done. apply Forall_app. split; [done|]. by apply Forall_singleton.
  - split; simpl; try reflexivity. by apply prefix_app_r.
Qed.

#[export] Instance sound_INSERT_TYPE_MUTE ty t : Preserves sound_step (INSERT_TYPE_MUTE ty t).
Proof.
  apply preserves_modify. intros d. destruct (type_muted ty d); [reflexivity|]. intros [].
  split; [by split|]. split; simpl; try reflexivity. by apply prefix_app_r.
Qed.

(** *** Operations of the store *)

#[export] Instance sound_raise_transition i a :
  Preserves sound_step (_raise_transition_error i a).
Proof.
  unfold _raise_transition_error. apply preserves_bind; [apply _..|]. intros [r|]; apply _.
Qed.

#[export] Instance sound_require i : Preserves sound_step (_require_situation i).
Proof. unfold _require_situation. apply preserves_bind; [apply _..|]. intros [r|]; apply _. Qed.

#[export] Instance sound_guarded sql i a :
  Preserves sound_step sql → Preserves sound_step (guarded sql i a).
Proof. intros Hsql. unfold guarded. apply _. Qed.

(** A guarded update returns the row it left in the table. *)
Lemma guarded_returns sql i a d r d' :
  guarded sql i a d = (Ok r, d') → get_situation i d' = Some r.
Proof.
  unfold guarded. rewrite bind_ok. intros (n & d1 & _ & H).
  rewrite bind_ok in H. destruct H as ([] & d2 & _ & H).
  unfold _require_situation in H. rewrite bind_ok in H. destruct H as (o & d3 & [= <- <-] & H).
  destruct (get_situation i d2) eqn:Hg; [|done]. unfold mret, M_ret in H. by simplify_eq.
Qed.

Lemma sound_record_after i t d r res d' :
  get_situation i d = Some r → record_delivery r t d = (res, d') → sound_step d d'.
Proof.
  intros [Hin _]%get_situation_spec [= <- <-]. by apply sound_record_delivery, elem_of_ids.
Qed.

#[export] Instance sound_mark_delivered now sids : Preserves sound_step (mark_delivered now sids).
Proof.
  unfold mark_delivered. apply preserves_transaction; [apply _|].
  apply preserves_for_each; [apply _|]. intros acc i.
  apply preserves_bind_post; [apply _|apply _|]. intros d r d1 Hr res d2.
  apply guarded_returns in Hr. unfold mbind, M_bind.
  destruct (record_delivery r (utc_iso now) d1) as [[[]|e] d3] eqn:Hrec; [|done].
  intros [= <- <-]. by eapply sound_record_after.
Qed.

#[export] Instance sound_acknowledge now i : Preserves sound_step (acknowledge_situation now i).
Proof. unfold acknowledge_situation. apply _. Qed.

#[export] Instance sound_snooze now i u : Preserves sound_step (snooze_situation now i u).
Proof. unfold snooze_situation. destruct u; apply _. Qed.

#[export] Instance sound_mute now i : Preserves sound_step (mute_situation now i).
Proof. unfold mute_situation. apply _. Qed.

#[export] Instance sound_mute_type now i : Preserves sound_step (mute_situation_type now i).
Proof. unfold mute_situation_type. apply _. Qed.

#[export] Instance sound_expire_lapsed now : Preserves sound_step (expire_lapsed now).
Proof. unfold expire_lapsed. apply _. Qed.

#[export] Instance sound_wake_snoozed now : Preserves sound_step (wake_snoozed now).
Proof. unfold wake_snoozed. apply _. Qed.

(** *** Upsert and resolution *)

(** Reactivation writes one row by id; it is sound where the caller checked that the
    row is resolved or expired. *)
Lemma sound_REACTIVATE pr ttl why ev exp src gen t r d res d' :
  db_ok d → r ∈ situations d → state r = Resolved ∨ state r = Expired →
  REACTIVATE_SITUATION pr ttl why ev exp src gen t (id r) d = (res, d') → sound_step d d'.
Proof.
  intros Hok Hin Hst. unfold REACTIVATE_SITUATION. rewrite update_situations_run.
  intros [= <- <-]. apply sound_update_at; [|by intros].
  intros r' Hin' Hp%Z.eqb_eq Hrow. assert (r' = r) as -> by (by eapply same_id).
  destruct Hst as [Hst|Hst]; solve_row_step Hst.
Qed.

#[export] Instance sound_upsert_detection dump x t src gen :
  Preserves sound_step (_upsert_detection dump x t src gen).
Proof.
  intros d res d'. unfold _upsert_detection. rewrite !gets_bind.
  destruct (_ || _); [by intros [= <- <-]|].
  destruct (situation_by_dedupe_key (d_dedupe_key x) d) as [r|] eqn:Hr.
  2:{ apply preserves_bind; apply _. }
  assert (r ∈ situations d) as Hin by (by apply sql_find_Some in Hr as []).
  destruct (state r) eqn:Hst; try by (apply preserves_bind; apply _).
  all: try by intros [= <- <-].
  all: rewrite gets_bind; destruct (_ && _); [by intros [= <- <-]|].
  all: intros Hrun Hok; revert Hrun; unfold mbind, M_bind;
    destruct (REACTIVATE_SITUATION _ _ _ _ _ _ _ _ _ d) as [[n|e] d1] eqn:Hre;
    intros [= <- <-]; eapply sound_REACTIVATE; eauto.
Qed.

#[export] Instance sound_upsert_batch dump xs t ty src gen :
  Preserves sound_step (upsert_batch dump xs t ty src gen).
Proof.
  unfold upsert_batch. apply preserves_for_each; [apply _|]. intros b x. destruct ty; apply _.
Qed.

#[export] Instance sound_resolve ty keys t src : Preserves sound_step (resolve ty keys t src).
Proof. unfold resolve. apply _. Qed.

#[export] Instance sound_resolve_by ty keys sids t inc src :
  Preserves sound_step (resolve_by_source_ids ty keys sids t inc src).
Proof.
  unfold resolve_by_source_ids. apply preserves_bind; [apply _..|]. intros rows.
  apply preserves_for_each; [apply _|]. intros n r. destruct (dict_get _ _); apply _.
Qed.

(** *** Source rows and generations *)

Lemma sound_frame {A} (m : op A) :
  (∀ d r d', m d = (r, d') → same_tables d d' ∧
     (Generation.generations_ok d → Generation.generations_ok d')) →
  Preserves sound_step m.
Proof. intros Hm d r d' [Hs Hg]%Hm. by apply sound_same_tables. Qed.

Lemma sound_modify_frame (f : db → db) :
  (∀ d, same_tables d (f d) ∧ generations (f d) = generations d) →
  Preserves sound_step (modify f : op unit).
Proof.
  intros Hf. apply preserves_modify. intros d. destruct (Hf d) as [Hs Hg].
  apply sound_same_tables; [done|]. unfold Generation.generations_ok. by rewrite Hg.
Qed.

#[export] Instance sound_upsert_sync s new f : Preserves sound_step (SyncState.upsert_sync s new f).
Proof. by apply sound_modify_frame. Qed.
#[export] Instance sound_record_success now s c : Preserves sound_step (SyncState.record_success now s c).
Proof. unfold SyncState.record_success. apply _. Qed.
#[export] Instance sound_record_failure now s c : Preserves sound_step (SyncState.record_failure now s c).
Proof. unfold SyncState.record_failure. apply _. Qed.
#[export] Instance sound_write_google_auth now a c :
  Preserves sound_step (SyncState.write_google_auth now a c).
Proof. unfold SyncState.write_google_auth. apply _. Qed.
#[export] Instance sound_validate g : Preserves sound_step (Diagnostics.validate g).
Proof. unfold Diagnostics.validate. apply _. Qed.
#[export] Instance sound_write g : Preserves sound_step (Diagnostics.write g).
Proof.
  unfold Diagnostics.write. apply preserves_if; [by apply sound_modify_frame|apply _].
Qed.

#[export] Instance sound_accept now gen status :
  Preserves sound_step (Generation.accept now gen status).
Proof.
  intros d r d' Hrun Hok. pose proof (ok_generations _ Hok) as Hg. revert Hok.
  apply sound_same_tables.
  - unfold Generation.accept in Hrun. rewrite gets_bind, modify_bind in Hrun.
    destruct (negb _); [injection Hrun as <- <-; by repeat split|].
    rewrite gets_bind in Hrun. destruct (_ <=? _); injection Hrun as <- <-; by repeat split.
  - intros _. pose proof (Generation.accept_cases now gen status d Hg) as (_ & _ & H).
    by rewrite Hrun in H.
Qed.

#[export] Instance sound_accept_source_generation now gen status dg :
  Preserves sound_step (SyncState.accept_source_generation now gen status dg).
Proof.
  unfold SyncState.accept_source_generation.
  apply preserves_bind; [apply _|destruct dg; apply _|]. intros _.
  apply preserves_bind; [apply _..|]. intros _. destruct dg; apply _.
Qed.

#[export] Instance sound_reserve_generation now s : Preserves sound_step (Generation.reserve now s).
Proof.
  intros d r d' Hrun. assert (d' = (Generation.reserve now s d).2) as -> by (by rewrite Hrun).
  apply sound_same_tables; [by repeat split|]. apply Generation.generations_ok_reserve.
Qed.

#[export] Instance sound_upsert_detections dump now xs :
  Preserves sound_step (upsert_detections dump now xs).
Proof. unfold upsert_detections. apply _. Qed.

#[export] Instance sound_apply_local dump now xs :
  Preserves sound_step (apply_local_detections dump now xs).
Proof. unfold apply_local_detections. apply _. Qed.

#[export] Instance sound_resolve_absent now ty keys :
  Preserves sound_step (resolve_absent now ty keys).
Proof. unfold resolve_absent. apply _. Qed.

#[export] Instance sound_apply_source dump now now' now'' gen xs st cur ec dg ra :
  Preserves sound_step (apply_source_generation dump now now' now'' gen xs st cur ec dg ra).
Proof.
  unfold apply_source_generation. apply preserves_transaction; [apply _|].
  apply preserves_bind; [apply _..|]. intros _. apply preserves_bind; [apply _..|]. intros n.
  apply preserves_bind; [apply _..|]. intros k. apply preserves_bind; [apply _| |intros; apply _].
  destruct ec as [[]|], st; apply _.
Qed.

(** *** Claims, leases and confirmations *)

Lemma sound_deliver_record p i t :
  (∀ r, p r = true → id r = i ∧ state r = Pending) →
  Preserves sound_step (update_situations p (deliver_row t)).
Proof.
  intros Hp. apply sound_update_situations; [|by intros].
  intros r [_ Hst]%Hp Hok. solve_row_step Hst.
Qed.

#[export] Instance sound_claim_one claim slots acc c :
  Preserves sound_step (claim_one claim slots acc c).
Proof.
  unfold claim_one. apply preserves_if; [apply _|]. apply preserves_bind; [apply _..|]. intros d0.
  apply preserves_bind; [apply _| |].
  { apply (sound_deliver_record _ (id c)). intros r [Hid Hc]%andb_true_iff. split; [lia|].
    unfold claimable, deliverable in Hc. repeat (apply andb_true_iff in Hc as [Hc ?]).
    by apply in_state_true. }
  intros n. apply preserves_if; [apply _|]. intros d res d'. rewrite gets_bind.
  destruct (get_situation (id c) d) as [r|] eqn:Hr; [|by intros [= <- <-]].
  intros [= <- <-]. by eapply (sound_record_after (id c)).
Qed.

#[export] Instance sound_claim_for_delivery claim : Preserves sound_step (claim_for_delivery claim).
Proof. unfold claim_for_delivery. apply _. Qed.

Lemma sound_filter_claims p d : sound_step d (set_claims (sql_delete p (claims d)) d).
Proof.
  intros []. split.
  - split; simpl; try done.
    + eapply sublist_NoDup; [exact ok_claims0|]. apply fmap_sublist, sublist_filter.
    + rewrite Forall_forall in *. intros c [_ Hc]%elem_of_sql_delete. by apply ok_claim_rows0.
  - split; reflexivity.
Qed.

#[export] Instance sound_receipts_expire t : Preserves sound_step (receipts_expire t).
Proof. apply preserves_modify. intros d. apply sound_filter_claims. Qed.
#[export] Instance sound_receipts_consume g : Preserves sound_step (receipts_consume g).
Proof. apply preserves_modify. intros d. apply sound_filter_claims. Qed.

#[export] Instance sound_receipts_record g n t : Preserves sound_step (receipts_record g n t).
Proof.
  intros d res d'. unfold receipts_record. rewrite gets_bind.
  destruct (sql_exists _ (receipts d)) eqn:Hex; simpl; [by intros [= <- <-]|].
  destruct (negb _); [by intros [= <- <-]|]. intros [= <- <-] [].
  rewrite sql_exists_false in Hex. split.
  - split; simpl; try done. rewrite fmap_app. apply NoDup_app. split; [done|].
    split; [|apply NoDup_singleton].
    intros x (r & -> & Hin)%list_elem_of_fmap Hx%list_elem_of_singleton. specialize (Hex r Hin).
    by rewrite bool_decide_eq_false in Hex.
  - split; simpl; try reflexivity. by apply prefix_app_r.
Qed.

#[export] Instance sound_reserve_one claim slots g e acc c :
  Preserves sound_step (reserve_one claim slots g e acc c).
Proof.
  unfold reserve_one. apply preserves_if; [apply _|]. intros d res d'. rewrite gets_bind.
  destruct (sql_find _ (situations d)) as [r|] eqn:Hr; [|by intros [= <- <-]].
  destruct (text_ltb _ e) eqn:He; simpl; [|by intros [= <- <-]]. intros [= <- <-] [].
  apply sql_find_Some in Hr as [Hin [_ Hl]%andb_true_iff].
  unfold leasable in Hl. repeat (apply andb_true_iff in Hl as [Hl ?]).
  unfold is_claimed in *. rewrite negb_true_iff, sql_exists_false in *. split.
  - split; simpl; try done.
    + rewrite fmap_app. apply NoDup_app. split; [done|]. split; [|apply NoDup_singleton].
      intros x (k & -> & Hk)%list_elem_of_fmap Hx%list_elem_of_singleton.
      simpl in Hx. specialize (H1 k Hk). lia.
    + apply Forall_app. split; [done|]. apply Forall_singleton. simpl.
      split; [by apply elem_of_ids|done].
  - split; reflexivity.
Qed.

#[export] Instance sound_reserve_for_delivery dg claim tok e :
  Preserves sound_step (reserve_for_delivery dg claim tok e).
Proof. unfold reserve_for_delivery. apply _. Qed.

#[export] Instance sound_confirm_one t u i : Preserves sound_step (confirm_one t u i).
Proof.
  unfold confirm_one. apply preserves_bind; [apply _..|]. intros n. apply preserves_if; [apply _|].
  intros d res d'. rewrite gets_bind.
  destruct (get_situation i d) as [r|] eqn:Hr; [|by intros [= <- <-]].
  intros Hrec. by eapply sound_record_after.
Qed.

#[export] Instance sound_confirm_delivery dg tok t :
  Preserves sound_step (confirm_delivery dg tok t).
Proof. unfold confirm_delivery. apply _. Qed.

(** ** The API as steps *)

(** One call of [SituationStore] (or of the generation store), with the readings of
    the clock it makes. *)
Inductive call :=
  | CallUpsert (now : instant) (xs : list Detection)
  | CallApplySource (now now_accept now_sync : instant) (gen : SourceGeneration)
      (xs : list Detection) (status : SourceGenerationStatus) (cursor : option text)
      (error_code : option SourceErrorCode) (diagnostics : option SourceReadDiagnostics)
      (ra : resolution_args)
  | CallApplyLocal (now : instant) (xs : list Detection)
  | CallResolveAbsent (now : instant) (ty : SituationType) (keys : list text)
  | CallExpire (now : instant)
  | CallWake (now : instant)
  | CallMarkDelivered (now : instant) (sids : list Z)
  | CallAcknowledge (now : instant) (i : Z)
  | CallSnooze (now : instant) (i : Z) (until : option instant)
  | CallMute (now : instant) (i : Z)
  | CallMuteType (now : instant) (i : Z)
  | CallClaim (claim : DeliveryClaim)
  | CallReserve (claim : DeliveryClaim) (token expires : text)
  | CallConfirm (token confirmed_at : text)
  | CallReserveGeneration (now : instant) (s : SourceName).

Section Api.
Context (dump_json : SituationEvidence → text) (receipt_digest : text → text).

(** The database after a call, whether it returned or raised. *)
Definition run_call (c : call) (d : db) : db :=
  match c with
  | CallUpsert now xs => (upsert_detections dump_json now xs d).2
  | CallApplySource now now' now'' gen xs st cur ec dg ra =>
    (apply_source_generation dump_json now now' now'' gen xs st cur ec dg ra d).2
  | CallApplyLocal now xs => (apply_local_detections dump_json now xs d).2
  | CallResolveAbsent now ty keys => (resolve_absent now ty keys d).2
  | CallExpire now => (expire_lapsed now d).2
  | CallWake now => (wake_snoozed now d).2
  | CallMarkDelivered now sids => (mark_delivered now sids d).2
  | CallAcknowledge now i => (acknowledge_situation now i d).2
  | CallSnooze now i u => (snooze_situation now i u d).2
  | CallMute now i => (mute_situation now i d).2
  | CallMuteType now i => (mute_situation_type now i d).2
  | CallClaim claim => (claim_for_delivery claim d).2
  | CallReserve claim token expires => (reserve_for_delivery receipt_digest claim token expires d).2
  | CallConfirm token t => (confirm_delivery receipt_digest token t d).2
  | CallReserveGeneration now s => (Generation.reserve now s d).2
  end.

(** Calls of any number of processes: each is one transaction or one statement, so
    an execution is a sequence of calls. *)
Definition run_calls (cs : list call) (d : db) : db := foldl (λ d c, run_call c d) d cs.

Lemma preserves_snd {A} (m : op A) d : Preserves sound_step m → sound_step d (m d).2.
Proof. intros Hm. by eapply Hm, surjective_pairing. Qed.

Lemma sound_run_call c d : sound_step d (run_call c d).
Proof. destruct c; unfold run_call; apply preserves_snd; apply _. Qed.

Lemma sound_run_calls cs d : sound_step d (run_calls cs d).
Proof.
  revert d. induction cs as [|c cs IH]; intros d; simpl; [reflexivity|].
  etrans; [apply sound_run_call|apply IH].
Qed.

Lemma db_ok_empty : db_ok empty_db.
Proof. split; simpl; try constructor; by constructor. Qed.

(** C7. Every database the API can reach from an empty one is well formed: ids and
    dedupe keys are unique, histories and leases name existing rows, a row has at
    most one lease, receipts are unique, and the timestamp columns of every row
    agree with its state. *)
Theorem reachable_db_ok cs : db_ok (run_calls cs empty_db).
Proof. apply sound_run_calls, db_ok_empty. Qed.

(** Over any sequence of calls, no row disappears or changes its id, key or type,
    and its state moves only along the edges of the state machine; the delivery
    history, the confirmed receipts and the type mutes are append-only. *)
Theorem calls_follow_the_state_machine cs d :
  db_ok d →
  let d' := run_calls cs d in
  (∀ r, r ∈ situations d → ∃ r', r' ∈ situations d' ∧ row_step r r') ∧
  deliveries d `prefix_of` deliveries d' ∧
  receipts d `prefix_of` receipts d' ∧
  type_mutes d `prefix_of` type_mutes d'.
Proof.
  intros Hok d'. destruct (sound_run_calls cs d Hok) as [_ [(kept & new & Heq & Hsteps) ? ? ?]].
  split; [|done]. intros r [i Hi]%list_elem_of_lookup.
  destruct (Forall2_lookup_l _ _ _ _ _ Hsteps Hi) as (r' & Hr' & Hstep).
  exists r'. split; [|done]. subst d'. rewrite Heq. apply elem_of_app. left.
  by eapply list_elem_of_lookup_2.
Qed.

Lemma terminal_stays s s' :
  rtc edge s s' → s = Acknowledged ∨ s = Muted → s' = s.
Proof.
  induction 1 as [|s1 s2 s3 He _ IH]; [done|].
  intros [-> | ->]; inversion He; subst; naive_solver.
Qed.

(** The user's word is final: an acknowledged or muted situation keeps that state
    through every later sequence of calls, re-detection included. *)
Theorem acknowledged_and_muted_are_final cs d r :
  db_ok d → r ∈ situations d → state r = Acknowledged ∨ state r = Muted →
  ∃ r', r' ∈ situations (run_calls cs d) ∧ id r' = id r ∧ dedupe_key r' = dedupe_key r ∧
    state r' = state r.
Proof.
  intros Hok Hin Hst.
  destruct (sound_run_calls cs d Hok) as [_ [(kept & new & Heq & Hsteps) ? ? ?]].
  apply list_elem_of_lookup in Hin as [i Hi].
  destruct (Forall2_lookup_l _ _ _ _ _ Hsteps Hi) as (r' & Hr' & []).
  exists r'. split; [|split; [done|split; [done|by apply terminal_stays]]].
  rewrite Heq. apply elem_of_app. left. by eapply list_elem_of_lookup_2.
Qed.
End Api.

(** A small execution: detect, deliver, acknowledge, detect again. *)
Definition sample_evidence : SituationEvidence := mk_evidence [("thread_id", "t1")]%string [] [] [].
Definition sample_detection : Detection :=
  mk_detection ReplyDeadline "reply_deadline:t1:m1" High "Reply" "why" sample_evidence None.
Definition sample_day : instant := 63839577600000000.
Definition sample_conflict : Detection :=
  mk_detection CalendarConflict "calendar_conflict:a:b" Critical "Conflict" "why" sample_evidence None.
Definition sample_occasion : Detection :=
  mk_detection PersonalOccasion "personal_occasion:1" Routine "Birthday" "why" sample_evidence None.
Definition sample_calls : list call :=
  [CallUpsert sample_day [sample_detection]; CallMarkDelivered (sample_day + 1) [1];
   CallAcknowledge (sample_day + 2) 1].

Lemma calls_follow_the_state_machine_witness :
  let d := run_calls (λ _, "") (λ t, t) [CallUpsert sample_day [sample_detection]] empty_db in
  deliveries d `prefix_of`
    deliveries (run_calls (λ _, "") (λ t, t) [CallMarkDelivered (sample_day + 1) [1]] d) ∧
  deliveries (run_calls (λ _, "") (λ t, t) [CallMarkDelivered (sample_day + 1) [1]] d) ≠ [].
Proof.
  split; [|vm_compute; discriminate].
  refine (proj1 (proj2 (calls_follow_the_state_machine (λ _, "") (λ t, t)
    [CallMarkDelivered (sample_day + 1) [1]]
    (run_calls (λ _, "") (λ t, t) [CallUpsert sample_day [sample_detection]] empty_db) _))).
  apply sound_run_calls, db_ok_empty.
Defined.

Lemma acknowledged_and_muted_are_final_witness :
  let d := run_calls (λ _, "") (λ t, t) sample_calls empty_db in
  ∃ r', r' ∈ situations (run_calls (λ _, "") (λ t, t)
                           [CallUpsert (sample_day + 3) [sample_detection]] d) ∧
    id r' = 1 ∧ dedupe_key r' = "reply_deadline:t1:m1"%string ∧ state r' = Acknowledged.
Proof.
  refine (acknowledged_and_muted_are_final (λ _, "") (λ t, t)
    [CallUpsert (sample_day + 3) [sample_detection]]
    (run_calls (λ _, "") (λ t, t) sample_calls empty_db)
    (default (mk_situation 0 ReplyDeadline SourceLocal None "" Pending High "" "" sample_evidence
       None "" "" None None None None None None false)
       (head (situations (run_calls (λ _, "") (λ t, t) sample_calls empty_db)))) _ _ _).
  - apply sound_run_calls, db_ok_empty.
  - vm_compute. left.
  - left. vm_compute. reflexivity.
Defined.
