(* ===== verification/Resolution.v ===== *)
(** Natural resolution: what [_situation_upsert.py]'s two resolving loops do to the table in
    one step, and which rows an operation may close as resolved.  The evaluation pass is
    composed from these facts. *)
From S2P Require Import Prelude PyDate PyTime Models SourceSync Situations StateMachine.
Import Reader Sql Upsert Store.
#[local] Open Scope Z_scope.

(** ** The resolving loops as one update *)

Definition resolve_row (timestamp : text) (r : Situation) : Situation :=
  set_updated_at timestamp (set_resolved_at (Some timestamp) (set_state Resolved r)).

(** The rows [active_by_type] returns. *)
Definition active_row (ty : SituationType) (src : option SituationSource) (r : Situation) : bool :=
  type_eqb (situation_type r) ty &&
  match src with None => true | Some s => bool_decide (source_name r = s) end && open_state r.

Definition absent (ty : SituationType) (src : option SituationSource) (present : list text)
    (r : Situation) : bool :=
  active_row ty src r && negb (bool_decide (dedupe_key r ∈ present)).

(** A row whose thread is among [source_ids], or is not, as [include] says. *)
Definition in_scope (source_ids : list text) (include : bool) (r : Situation) : bool :=
  match dict_get "thread_id" (facts (evidence r)) with
  | None => false
  | Some source_id => eqb (bool_decide (source_id ∈ source_ids)) include
  end.

Lemma resolve_loop t (q : Situation → bool) (f : Z → Situation → op Z) l n d :
  (∀ n r d, f n r d = if q r then (rowcount ← RESOLVE_SITUATION t (id r); mret (n + rowcount)) d
                      else (Ok n, d)) →
  ∃ m, for_each f n l d =
    (Ok m, set_situations (sql_update (λ r,
       existsb (λ x, (id r =? id x) && q x) l && open_state r) (resolve_row t) (situations d)) d).
Proof.
  intros Hf. revert n d. induction l as [|x l IH]; intros n d.
  { exists n. cbn [for_each existsb]. change (sql_update _ _ _) with (sql_update (λ _, false) (resolve_row t) (situations d)).
    rewrite sql_update_none; [by destruct d|]. by apply sql_count_zero. }
  cbn [for_each]. unfold mbind at 1, M_bind at 1. rewrite Hf. destruct (q x) eqn:Hq.
  - unfold RESOLVE_SITUATION. rewrite (bind_run _ _ _ _ _ (update_situations_run _ _ d)).
    destruct (IH (n + sql_count (λ r, (id r =? id x) && open_state r) (situations d))
      (set_situations (sql_update (λ r, (id r =? id x) && open_state r) (resolve_row t) (situations d)) d)) as [m Hm].
    exists m. unfold mret, M_ret. unfold resolve_row in *. rewrite Hm.
    assert (∀ a b, set_situations a (set_situations b d) = set_situations a d) as Hset by done.
    rewrite Hset. cbn [situations set_situations]. do 2 f_equal.
    unfold sql_update. rewrite <- list_fmap_compose. apply list_fmap_ext. intros i r _. cbn [compose existsb].
    rewrite Hq, andb_true_r. destruct (id r =? id x) eqn:Hid, (open_state r) eqn:Ho; cbn; rewrite ?Ho, ?andb_false_r; done.
  - destruct (IH n d) as [m Hm]. exists m. rewrite Hm. do 2 f_equal. unfold sql_update. apply list_fmap_ext.
    intros i r _. cbn [existsb]. by rewrite Hq, andb_false_r.
Qed.

Lemma active_row_open ty src r : active_row ty src r = true → open_state r = true.
Proof. by intros [_ ?]%andb_true_iff. Qed.

(** The loop over the active rows updates exactly those its condition selects. *)
Lemma resolve_active ty src t (q : Situation → bool) (f : Z → Situation → op Z) d :
  db_ok d →
  (∀ n r d, f n r d = if q r then (rowcount ← RESOLVE_SITUATION t (id r); mret (n + rowcount)) d
                      else (Ok n, d)) →
  ∃ m, (rows ← gets (active_by_type ty src); for_each f 0 rows) d =
    (Ok m, set_situations (sql_update (λ r, active_row ty src r && q r) (resolve_row t) (situations d)) d).
Proof.
  intros Hok Hf. rewrite gets_bind.
  destruct (resolve_loop t q f (active_by_type ty src d) 0 d Hf) as [m ->]. exists m. do 2 f_equal.
  unfold sql_update. apply list_fmap_ext. intros i r Hr%list_elem_of_lookup_2.
  assert (existsb (λ x, (id r =? id x) && q x) (active_by_type ty src d) && open_state r = active_row ty src r && q r)
    as ->; [|done].
  apply eq_true_iff_eq. rewrite !andb_true_iff, existsb_exists.
  assert (∀ x, In x (active_by_type ty src d) ↔ x ∈ situations d ∧ active_row ty src x = true) as Hact.
  { intros x. rewrite <- list_elem_of_In. unfold active_by_type. rewrite elem_of_order_by, elem_of_sql_select.
    unfold active_row. tauto. }
  split.
  - intros ((x & [Hx Hax]%Hact & [Hid%Z.eqb_eq Hq]%andb_true_iff) & _).
    by assert (r = x) as -> by (by eapply same_id).
  - intros [Ha Hq]. split; [|by eapply active_row_open]. exists r. rewrite Hact, Z.eqb_refl. by rewrite Hq.
Qed.

Lemma resolve_run ty present t src d :
  db_ok d →
  ∃ m, resolve ty present t src d =
    (Ok m, set_situations (sql_update (absent ty src present) (resolve_row t) (situations d)) d).
Proof.
  intros Hok. apply (resolve_active ty src t (λ r, negb (bool_decide (dedupe_key r ∈ present)))); [done|].
  intros n r d0. by destruct (bool_decide _).
Qed.

Lemma resolve_by_source_ids_run ty present source_ids t include src d :
  db_ok d →
  ∃ m, resolve_by_source_ids ty present source_ids t include src d =
    (Ok m, set_situations (sql_update (λ r, absent ty src present r && in_scope source_ids include r)
             (resolve_row t) (situations d)) d).
Proof.
  intros Hok.
  destruct (resolve_active ty src t (λ r, negb (bool_decide (dedupe_key r ∈ present)) && in_scope source_ids include r)
    (λ n r, match dict_get "thread_id" (facts (evidence r)) with
            | None => mret n
            | Some source_id =>
              if bool_decide (dedupe_key r ∈ present) then mret n else
              if negb (eqb (bool_decide (source_id ∈ source_ids)) include) then mret n else
              rowcount ← RESOLVE_SITUATION t (id r); mret (n + rowcount)
            end) d Hok) as [m Hm].
  - intros n r d0. unfold in_scope. destruct (dict_get _ _); [|by rewrite andb_false_r].
    destruct (bool_decide (dedupe_key r ∈ present)); [done|]. by destruct (eqb _ _).
  - exists m. unfold resolve_by_source_ids. rewrite Hm. do 2 f_equal. unfold sql_update. apply list_fmap_ext.
    intros i r _. unfold absent. by rewrite andb_assoc.
Qed.

(** ** Which rows an operation may close *)

(** [P] is what a row newly resolved satisfies, by type and key. *)
Section ClosesOnly.
Context (P : SituationType → text → Prop).

Record closes (r r' : Situation) : Prop := mk_closes {
  cl_id : id r' = id r;
  cl_key : dedupe_key r' = dedupe_key r;
  cl_type : situation_type r' = situation_type r;
  cl_resolved : state r' = Resolved → state r = Resolved ∨ P (situation_type r) (dedupe_key r);
}.

#[export] Instance closes_preorder : PreOrder closes.
Proof.
  split; [intros r; split; auto|]. intros r1 r2 r3 [Hi Hk Ht Hs] [Hi' Hk' Ht' Hs'].
  split; try congruence. intros [H2|H2]%Hs'; [auto|right]. by rewrite <- Ht, <- Hk.
Qed.

Definition closes_only (d d' : db) : Prop :=
  ∃ kept new, situations d' = kept ++ new ∧ Forall2 closes (situations d) kept.

#[export] Instance closes_only_preorder : PreOrder closes_only.
Proof.
  split.
  - intros d. exists (situations d), []. split; [by rewrite app_nil_r|reflexivity].
  - intros d1 d2 d3 (k1 & n1 & Heq1 & H1) (k2 & n2 & Heq2 & H2). rewrite Heq1 in H2.
    apply Forall2_app_inv_l in H2 as (k3 & n3 & H3 & Hn3 & ->).
    exists k3, (n3 ++ n2). split; [by rewrite Heq2, app_assoc|]. by etrans.
Qed.

Lemma closes_only_same d d' : situations d' = situations d → closes_only d d'.
Proof. intros H. exists (situations d), []. split; [by rewrite H, app_nil_r|reflexivity]. Qed.

Lemma closes_only_update p f d :
  (∀ r, r ∈ situations d → p r = true → closes r (f r)) →
  closes_only d (set_situations (sql_update p f (situations d)) d).
Proof.
  intros Hf. exists (sql_update p f (situations d)), []. split; [by rewrite app_nil_r|].
  unfold sql_update. rewrite Forall2_fmap_r. apply Forall_Forall2_diag, Forall_forall.
  intros r Hr. simpl. destruct (p r) eqn:Hp; [by apply Hf|reflexivity].
Qed.

(** A row found in both tables under one id. *)
Lemma closes_only_row d d' r r' :
  db_ok d' → closes_only d d' → r ∈ situations d → r' ∈ situations d' → id r' = id r → closes r r'.
Proof.
  intros Hok' (kept & new & Heq & Hf) Hr Hr' Hid. apply list_elem_of_lookup in Hr as [i Hi].
  destruct (Forall2_lookup_l _ _ _ _ _ Hf Hi) as (x & Hx & Hc).
  assert (x = r') as ->; [|done]. eapply (same_id d'); [done| |done|].
  - rewrite Heq. apply elem_of_app. left. by eapply list_elem_of_lookup_2.
  - rewrite Hid. apply Hc.
Qed.

Lemma closes_update_situations p f :
  (∀ r, id (f r) = id r ∧ dedupe_key (f r) = dedupe_key r ∧ situation_type (f r) = situation_type r ∧
        (state (f r) = Resolved → state r = Resolved)) →
  Preserves closes_only (update_situations p f).
Proof.
  intros Hf d res d'. rewrite update_situations_run. intros [= <- <-].
  apply closes_only_update. intros r _ _. destruct (Hf r) as (? & ? & ? & ?). split; auto.
Qed.

#[export] Instance closes_WAKE t : Preserves closes_only (WAKE_SNOOZED t).
Proof. apply closes_update_situations. by intros r. Qed.
#[export] Instance closes_EXPIRE t : Preserves closes_only (EXPIRE_LAPSED t).
Proof. apply closes_update_situations. by intros r. Qed.
#[export] Instance closes_REFRESH pr ttl why ev exp src gen t i :
  Preserves closes_only (REFRESH_SITUATION pr ttl why ev exp src gen t i).
Proof. apply closes_update_situations. by intros r. Qed.
#[export] Instance closes_REACTIVATE pr ttl why ev exp src gen t i :
  Preserves closes_only (REACTIVATE_SITUATION pr ttl why ev exp src gen t i).
Proof. apply closes_update_situations. by intros r. Qed.
#[export] Instance closes_INSERT ty key pr ttl why ev exp t src gen :
  Preserves closes_only (INSERT_SITUATION ty key pr ttl why ev exp t src gen).
Proof.
  unfold INSERT_SITUATION. apply preserves_bind; [apply _..|]. intros [r|]; [apply _|].
  apply preserves_modify. intros d. by eexists (situations d), _.
Qed.
#[export] Instance closes_upsert_detection dump x t src gen :
  Preserves closes_only (_upsert_detection dump x t src gen).
Proof.
  unfold _upsert_detection. apply preserves_bind; [apply _..|]. intros existing.
  apply preserves_bind; [apply _..|]. intros count. apply preserves_if; [apply _|].
  destruct existing as [r|]; [|apply _]. destruct (state r); apply _.
Qed.
#[export] Instance closes_upsert_batch dump xs t ty src gen :
  Preserves closes_only (upsert_batch dump xs t ty src gen).
Proof.
  unfold upsert_batch. apply preserves_for_each; [apply _|]. intros b x. destruct ty; apply _.
Qed.

(** Statements on other tables. *)
Lemma closes_modify_frame (f : db → db) :
  (∀ d, situations (f d) = situations d) → Preserves closes_only (modify f : op unit).
Proof. intros Hf. apply preserves_modify. intros d. by apply closes_only_same. Qed.
#[export] Instance closes_upsert_sync s new f : Preserves closes_only (SyncState.upsert_sync s new f).
Proof. by apply closes_modify_frame. Qed.
#[export] Instance closes_record_success now s c : Preserves closes_only (SyncState.record_success now s c).
Proof. unfold SyncState.record_success. apply _. Qed.
#[export] Instance closes_record_failure now s c : Preserves closes_only (SyncState.record_failure now s c).
Proof. unfold SyncState.record_failure. apply _. Qed.
#[export] Instance closes_write_google_auth now a c :
  Preserves closes_only (SyncState.write_google_auth now a c).
Proof. unfold SyncState.write_google_auth. apply _. Qed.
#[export] Instance closes_validate g : Preserves closes_only (Diagnostics.validate g).
Proof. unfold Diagnostics.validate. apply _. Qed.
#[export] Instance closes_write g : Preserves closes_only (Diagnostics.write g).
Proof. unfold Diagnostics.write. apply preserves_if; [by apply closes_modify_frame|apply _]. Qed.
#[export] Instance closes_accept now gen status : Preserves closes_only (Generation.accept now gen status).
Proof.
  unfold Generation.accept. apply preserves_bind; [apply _..|]. intros n.
  apply preserves_bind; [apply _|by apply closes_modify_frame|]. intros _. apply _.
Qed.
#[export] Instance closes_accept_source_generation now gen status dg :
  Preserves closes_only (SyncState.accept_source_generation now gen status dg).
Proof.
  unfold SyncState.accept_source_generation.
  apply preserves_bind; [apply _|destruct dg; apply _|]. intros _.
  apply preserves_bind; [apply _..|]. intros _. destruct dg; apply _.
Qed.

(** The resolving loops need the unique ids of a well-formed table. *)
Definition resolves_only (d d' : db) : Prop := db_ok d → db_ok d' ∧ closes_only d d'.
#[export] Instance resolves_only_preorder : PreOrder resolves_only.
Proof.
  split; [intros d Hok; split; [done|reflexivity]|].
  intros d1 d2 d3 H12 H23 H1. destruct (H12 H1) as [H2 C12]. destruct (H23 H2) as [H3 C23].
  split; [done|]. by etrans.
Qed.
Lemma resolves_only_closes {A} (m : op A) :
  Preserves sound_step m → Preserves closes_only m → Preserves resolves_only m.
Proof.
  intros Hs Hc d r d' Hrun Hok. split; [by apply (Hs _ _ _ Hrun)|by eapply Hc].
Qed.

Lemma resolves_update p t d :
  (∀ r, p r = true → P (situation_type r) (dedupe_key r)) →
  closes_only d (set_situations (sql_update p (resolve_row t) (situations d)) d).
Proof. intros Hp. apply closes_only_update. intros r _ Hr. split; [done..|]. intros _. right. by apply Hp. Qed.

Lemma resolves_resolve ty present t src :
  (∀ key, key ∉ present → P ty key) → Preserves resolves_only (resolve ty present t src).
Proof.
  intros HP d r d' Hrun Hok. split; [by apply (sound_resolve ty present t src _ _ _ Hrun)|].
  destruct (resolve_run ty present t src d Hok) as [m Hm]. rewrite Hm in Hrun. injection Hrun as <- <-.
  apply resolves_update. intros x [[[Hty _]%andb_true_iff _]%andb_true_iff Hk]%andb_true_iff.
  apply bool_decide_eq_true in Hty as ->. apply HP. by apply negb_true_iff, bool_decide_eq_false in Hk.
Qed.

Lemma resolves_resolve_by ty present source_ids t include src :
  (∀ key, key ∉ present → P ty key) →
  Preserves resolves_only (resolve_by_source_ids ty present source_ids t include src).
Proof.
  intros HP d r d' Hrun Hok. split; [by apply (sound_resolve_by ty present source_ids t include src _ _ _ Hrun)|].
  destruct (resolve_by_source_ids_run ty present source_ids t include src d Hok) as [m Hm].
  rewrite Hm in Hrun. injection Hrun as <- <-.
  apply resolves_update. intros x [[[[Hty _]%andb_true_iff _]%andb_true_iff Hk]%andb_true_iff _]%andb_true_iff.
  apply bool_decide_eq_true in Hty as ->. apply HP. by apply negb_true_iff, bool_decide_eq_false in Hk.
Qed.
End ClosesOnly.

(** ** Applying a batch *)

Section Apply.
Context (dump_json : SituationEvidence → text).

Lemma resolves_apply_local P now xs :
  (∀ key, key ∉ d_dedupe_key <$> xs → P PersonalOccasion key) →
  Preserves (resolves_only P) (apply_local_detections dump_json now xs).
Proof.
  intros HP. unfold apply_local_detections. apply preserves_transaction; [apply _|].
  apply preserves_bind; [apply _|apply resolves_only_closes; apply _|]. intros summary.
  apply preserves_bind; [apply _|by apply resolves_resolve|]. intros n. apply _.
Qed.

Lemma resolves_apply_source P now now_a now_s gen xs status cur ec dg ra :
  (status = Complete ∨ ra_resolve_absent ra = true ∨ ra_scope_ids ra ≠ [] →
   ∀ key, key ∉ d_dedupe_key <$> xs → P (_SOURCE_TYPES (sg_source gen)) key) →
  Preserves (resolves_only P) (apply_source_generation dump_json now now_a now_s gen xs status cur ec dg ra).
Proof.
  intros HP. unfold apply_source_generation. apply preserves_transaction; [apply _|].
  apply preserves_bind; [apply _|apply resolves_only_closes; apply _|]. intros _.
  apply preserves_bind; [apply _|apply resolves_only_closes; apply _|]. intros summary.
  apply preserves_bind; [apply _| |].
  - destruct status; cbn [_RESOLVES_ABSENT]; [apply resolves_resolve, HP; auto|].
    destruct (ra_resolve_absent ra) eqn:Ha; [apply resolves_resolve_by, HP; auto|].
    destruct (bool_decide _) eqn:Hs; cbn [negb]; [apply _|].
    apply bool_decide_eq_false in Hs. apply resolves_resolve_by, HP. auto.
  - intros n. apply preserves_bind; [apply _| |intros _; apply _].
    destruct ec as [[]|], status; apply resolves_only_closes; apply _.
Qed.

(** What the last statement of a batch writes about its source. *)
Definition source_write (now_sync : instant) (s : SourceName) (status : SourceGenerationStatus)
    (cursor : option text) (error_code : option SourceErrorCode) : op unit :=
  match error_code, status with
  | None, Complete => SyncState.record_success now_sync s cursor
  | None, Degraded => SyncState.record_failure now_sync s degraded
  | Some invalid_grant, _ => SyncState.write_google_auth now_sync NeedsReauth (Some invalid_grant)
  | Some c, _ => SyncState.record_failure now_sync s c
  end.

(** The parts of a batch that was applied. *)
Lemma apply_source_parts now now_a now_s gen xs status cur ec dg ra d summary d' :
  apply_source_generation dump_json now now_a now_s gen xs status cur ec dg ra d = (Ok summary, d') →
  ∃ d1 d2 d3 n,
    SyncState.accept_source_generation now_a gen status dg d = (Ok tt, d1) ∧
    upsert_batch dump_json xs (utc_iso now) (Some (_SOURCE_TYPES (sg_source gen)))
      (situation_source (sg_source gen)) (Some (sg_number gen)) d1 = (Ok (upsert summary), d2) ∧
    (if _RESOLVES_ABSENT status
     then resolve (_SOURCE_TYPES (sg_source gen)) (d_dedupe_key <$> xs) (utc_iso now)
            (Some (situation_source (sg_source gen)))
     else if ra_resolve_absent ra
     then resolve_by_source_ids (_SOURCE_TYPES (sg_source gen)) (d_dedupe_key <$> xs) (ra_excluded_ids ra)
            (utc_iso now) false (Some (situation_source (sg_source gen)))
     else if negb (bool_decide (ra_scope_ids ra = []))
     then resolve_by_source_ids (_SOURCE_TYPES (sg_source gen)) (d_dedupe_key <$> xs) (ra_scope_ids ra)
            (utc_iso now) true (Some (situation_source (sg_source gen)))
     else mret 0) d2 = (Ok n, d3) ∧
    source_write now_s (sg_source gen) status cur ec d3 = (Ok tt, d') ∧ n = resolved summary.
Proof.
  unfold apply_source_generation. rewrite transaction_ok.
  intros (u & d1 & H1 & (s & d2 & H2 & (n & d3 & H3 & (u' & d4 & H4 & [= <- <-])%bind_ok)%bind_ok)%bind_ok)%bind_ok.
  destruct u, u'. by exists d1, d2, d3, n.
Qed.

Lemma source_write_situations now_s s status cur ec d d' :
  source_write now_s s status cur ec d = (Ok tt, d') → situations d' = situations d ∧ generations d' = generations d.
Proof.
  unfold source_write. destruct ec as [[]|], status; by intros [= <-].
Qed.

(** After a complete generation, the open rows of its source are among its detections. *)
Lemma complete_generation_open now now_a now_s gen xs cur ec dg ra d summary d' r :
  db_ok d →
  apply_source_generation dump_json now now_a now_s gen xs Complete cur ec dg ra d = (Ok summary, d') →
  r ∈ situations d' → situation_type r = _SOURCE_TYPES (sg_source gen) →
  source_name r = situation_source (sg_source gen) → open_state r = true →
  dedupe_key r ∈ d_dedupe_key <$> xs.
Proof.
  intros Hok (d1 & d2 & d3 & n & H1 & H2 & H3 & H4 & _)%apply_source_parts Hr Hty Hsrc Hopen.
  assert (db_ok d2) as Hok2.
  { apply (sound_upsert_batch dump_json xs (utc_iso now) _ _ _ _ _ _ H2).
    by apply (sound_accept_source_generation _ _ _ _ _ _ _ H1). }
  cbn [_RESOLVES_ABSENT] in H3.
  destruct (resolve_run (_SOURCE_TYPES (sg_source gen)) (d_dedupe_key <$> xs) (utc_iso now)
    (Some (situation_source (sg_source gen))) d2 Hok2) as [m Hm].
  rewrite Hm in H3. injection H3 as _ <-.
  apply source_write_situations in H4 as [Hs _]. rewrite Hs in Hr.
  apply elem_of_sql_update in Hr as (x & -> & Hx).
  destruct (absent _ _ _ x) eqn:Ha; [discriminate Hopen|].
  unfold absent, active_row, type_eqb in Ha. rewrite Hopen in Ha.
  rewrite (bool_decide_eq_true_2 _ Hty), (bool_decide_eq_true_2 _ Hsrc) in Ha. cbn [andb] in Ha.
  by apply negb_false_iff, bool_decide_eq_true in Ha.
Qed.
End Apply.

(** ** Frames: what the situation statements leave alone *)

Section Keeps.
(** A reading of the database that does not look at the situations. *)
Context {X : Type} (view : db → X) (Hview : ∀ v d, view (set_situations v d) = view d).

Definition keeps (d d' : db) : Prop := view d' = view d.
#[export] Instance keeps_preorder : PreOrder keeps.
Proof. split; [done|]. intros d1 d2 d3. unfold keeps. congruence. Qed.

Lemma keeps_update_situations p f : Preserves keeps (update_situations p f).
Proof. intros d r d'. rewrite update_situations_run. intros [= _ <-]. apply Hview. Qed.
Lemma keeps_upsert_detection dump x t src gen : Preserves keeps (_upsert_detection dump x t src gen).
Proof.
  unfold _upsert_detection. apply preserves_bind; [apply _..|]. intros existing.
  apply preserves_bind; [apply _..|]. intros count. apply preserves_if; [apply _|].
  pose proof keeps_update_situations as Hupd.
  destruct existing as [r|].
  - destruct (state r); try apply _; unfold REFRESH_SITUATION, REACTIVATE_SITUATION; apply _.
  - apply preserves_bind; [apply _| |intros; apply _]. unfold INSERT_SITUATION.
    apply preserves_bind; [apply _..|]. intros [r|]; [apply _|]. apply preserves_modify. intros d. apply Hview.
Qed.
Lemma keeps_upsert_batch dump xs t ty src gen : Preserves keeps (upsert_batch dump xs t ty src gen).
Proof.
  unfold upsert_batch. apply preserves_for_each; [apply _|]. intros b x.
  pose proof keeps_upsert_detection. destruct ty; apply _.
Qed.
Lemma keeps_resolve ty present t src : Preserves keeps (resolve ty present t src).
Proof.
  unfold resolve, RESOLVE_SITUATION. pose proof keeps_update_situations. apply _.
Qed.
Lemma keeps_resolve_by ty present source_ids t include src :
  Preserves keeps (resolve_by_source_ids ty present source_ids t include src).
Proof.
  unfold resolve_by_source_ids, RESOLVE_SITUATION. pose proof keeps_update_situations.
  apply preserves_bind; [apply _..|]. intros rows. apply preserves_for_each; [apply _|]. intros n r.
  destruct (dict_get _ _); apply _.
Qed.
End Keeps.
