(* ===== verification/DeliveryRefinement.v ===== *)
(** What claiming and leasing promise: the transactions of [Delivery.v], which
    re-read the tables for every candidate, refine one greedy pass over the ordered
    candidates with two running counters.  The daily limits, the reserved slot and
    the eligibility of what is delivered are read off the greedy pass. *)
From S2P Require Import Prelude PyDate PyTime Models SourceSync Situations Delivery StateMachine.
Import Reader Sql.
#[local] Open Scope Z_scope.

(** ** The specification: one pass over the candidates *)

(** The non-critical deliveries of the day, and the replies among them. *)
Record usage := mk_usage { used : Z; used_reply : Z }.

Definition limited (r : Situation) : bool := negb (is_critical (priority r)).
Definition limited_reply (r : Situation) : bool := limited r && is_reply (situation_type r).

Section Greedy.
Context (claim : DeliveryClaim) (slots : Z).
(** [counted]: the write is inside the day window the limits are counted in. *)
Context (counted : bool) (eligible : Situation → bool).

Definition reply_cap : Z := Z.max 0 (dc_daily_budget claim - slots).

Definition admits (u : usage) (r : Situation) : bool :=
  (is_critical (priority r) || (used u <? dc_daily_budget claim)) &&
  (is_critical (priority r) || negb (is_reply (situation_type r)) ||
   (used_reply u <? reply_cap)).

Definition charge (u : usage) (r : Situation) : usage :=
  mk_usage (used u + (if counted && limited r then 1 else 0))
    (used_reply u + (if counted && limited_reply r then 1 else 0)).

Definition takes (u : usage) (r : Situation) : bool :=
  negb (skip_candidate claim r) && eligible r && admits u r.

Fixpoint greedy (u : usage) (candidates : list Situation) : list Situation :=
  match candidates with
  | [] => []
  | c :: rest => if takes u c then c :: greedy (charge u c) rest else greedy u rest
  end.

Lemma greedy_sublist u cs : greedy u cs `sublist_of` cs.
Proof.
  revert u. induction cs as [|c cs IH]; intros u; simpl; [done|].
  destruct (takes u c); [by apply sublist_skip|by apply sublist_cons].
Qed.

Lemma greedy_eligible u cs :
  Forall (λ r, eligible r = true ∧ skip_candidate claim r = false) (greedy u cs).
Proof.
  revert u. induction cs as [|c cs IH]; intros u; simpl; [done|].
  destruct (takes u c) eqn:Ht; [|apply IH]. constructor; [|apply IH].
  unfold takes in Ht. rewrite !andb_true_iff, negb_true_iff in Ht. tauto.
Qed.

(** Critical candidates are never held back. *)
Lemma greedy_critical u cs r :
  r ∈ cs → is_critical (priority r) = true → eligible r = true → r ∈ greedy u cs.
Proof.
  intros Hin Hcrit He. revert u. induction cs as [|c cs IH]; intros u; [by apply elem_of_nil in Hin|].
  simpl. apply elem_of_cons in Hin as [<- | Hin].
  - replace (takes u r) with true; [by left|]. symmetry. unfold takes, admits, skip_candidate.
    by rewrite Hcrit, He, andb_false_r.
  - destruct (takes u c); [right|]; by apply IH.
Qed.

Lemma greedy_count_le u cs :
  counted = true →
  used u + sql_count limited (greedy u cs) ≤ Z.max (used u) (dc_daily_budget claim) ∧
  used_reply u + sql_count limited_reply (greedy u cs) ≤ Z.max (used_reply u) reply_cap.
Proof.
  intros Hc. revert u. induction cs as [|c cs IH]; intros u; simpl.
  { rewrite !sql_count_nil. lia. }
  destruct (takes u c) eqn:Ht; [|apply IH]. specialize (IH (charge u c)).
  rewrite !sql_count_cons. revert IH.
  generalize (sql_count limited (greedy (charge u c) cs)) as n.
  generalize (sql_count limited_reply (greedy (charge u c) cs)) as m.
  intros m n. revert Ht. unfold charge, takes, admits, limited_reply, limited. rewrite Hc. simpl.
  destruct (is_critical (priority c)), (is_reply (situation_type c)); simpl;
    rewrite ?andb_true_r, !andb_true_iff, ?Z.ltb_lt; lia.
Qed.
End Greedy.

(** ** Claiming refines the pass *)

(** [d] after the rows [sel] were delivered at [t]. *)
Definition delivered_rows (t : text) (sel : list Situation) (d : db) : db :=
  set_deliveries (deliveries d ++ ((λ r, mk_delivery (id r) t (priority r)) <$> sel))
    (set_situations (sql_update (λ r, bool_decide (id r ∈ id <$> sel)) (deliver_row t)
      (situations d)) d).

Lemma delivered_rows_nil t d : delivered_rows t [] d = d.
Proof.
  unfold delivered_rows. rewrite sql_update_none, app_nil_r; [by destruct d|].
  apply sql_count_zero. intros r _. apply bool_decide_eq_false. set_solver.
Qed.

Definition day_usage (claim : DeliveryClaim) (d : db) : usage :=
  mk_usage (day_deliveries claim d) (day_reply_deliveries claim d).
Definition day_counted (claim : DeliveryClaim) : bool :=
  in_window (dc_local_day_start claim) (dc_local_day_end claim) (dc_delivered_at claim).

Lemma reply_situation_row d r :
  db_ok d → r ∈ situations d → reply_situation (id r) d = is_reply (situation_type r).
Proof.
  intros Hok Hin. unfold reply_situation. apply eq_bool_prop_intro.
  rewrite !Is_true_true, sql_exists_true. split.
  - intros (r' & Hin' & [Hid Hr]%andb_true_iff). apply Z.eqb_eq in Hid.
    by rewrite <- (same_id d r' r).
  - intros Hr. exists r. split; [done|]. by rewrite Z.eqb_refl.
Qed.

Section DeliveredRows.
Context (d : db) (Hok : db_ok d) (t : text).

Lemma situations_delivered_rows sel r :
  r ∈ situations (delivered_rows t sel d) ↔
  ∃ r0, r0 ∈ situations d ∧ r = if bool_decide (id r0 ∈ id <$> sel) then deliver_row t r0 else r0.
Proof. simpl. rewrite elem_of_sql_update. split; intros (r0 & H1 & H2); exists r0; by split. Qed.

(** A predicate that only reads columns delivery leaves alone. *)
Lemma sql_exists_delivered_rows p sel :
  (∀ r, p (deliver_row t r) = p r) →
  sql_exists p (situations (delivered_rows t sel d)) = sql_exists p (situations d).
Proof.
  intros Hp. simpl. induction (situations d) as [|r rows IH]; [done|].
  rewrite sql_update_cons. simpl. rewrite IH. by destruct (bool_decide _); rewrite ?Hp.
Qed.

Lemma reply_situation_delivered_rows sel i :
  reply_situation i (delivered_rows t sel d) = reply_situation i d.
Proof. unfold reply_situation. by apply sql_exists_delivered_rows. Qed.

Lemma deliverable_delivered_rows claim sel c :
  id c ∉ id <$> sel → deliverable claim (delivered_rows t sel d) c = deliverable claim d c.
Proof.
  intros Hc. unfold deliverable, current_source_eligible, cooled_down. simpl. do 2 f_equal.
  unfold type_muted, sql_exists. simpl. rewrite existsb_app.
  replace (existsb _ (_ <$> sel)) with false; [by rewrite orb_false_r|].
  symmetry. apply (proj2 (sql_exists_false _ _)).
  intros x (r & -> & Hr)%list_elem_of_fmap. simpl.
  apply andb_false_iff. left. apply Z.eqb_neq. intros Heq. apply Hc. rewrite <- Heq.
  by apply list_elem_of_fmap_2.
Qed.

Lemma day_usage_delivered_rows claim sel :
  t = dc_delivered_at claim → (∀ r, r ∈ sel → r ∈ situations d) →
  day_usage claim (delivered_rows t sel d) =
    foldl (charge (day_counted claim)) (day_usage claim d) sel.
Proof.
  intros Ht. revert sel. refine (rev_ind _ _ _).
  { intros _. by rewrite delivered_rows_nil. }
  intros r sel IH Hsel. rewrite foldl_app, <- IH by set_solver. simpl.
  unfold charge, day_usage, day_deliveries, day_reply_deliveries, count_delivered_between.
  simpl. rewrite !fmap_app, !app_assoc, !sql_count_app. simpl. rewrite !sql_count_cons, !sql_count_nil.
  unfold counted_delivery. simpl.
  assert (in_window (dc_local_day_start claim) (dc_local_day_end claim) t = day_counted claim)
    as -> by (by rewrite Ht).
  rewrite !reply_situation_delivered_rows, reply_situation_row by set_solver.
  unfold limited_reply, limited.
  f_equal; [lia|]. rewrite andb_assoc, !Z.add_0_r. f_equal.
  rewrite <- !sql_count_app. unfold sql_count. do 2 f_equal. apply list_filter_iff.
  intros x. by rewrite !reply_situation_delivered_rows.
Qed.
End DeliveredRows.

(** A row not delivered yet is the candidate itself, and delivering it next appends
    it to the selection. *)
Section OneMore.
Context (d : db) (Hok : db_ok d) (t : text) (sel : list Situation) (c : Situation).
Context (Hc : c ∈ situations d) (Hnew : id c ∉ id <$> sel).

Lemma delivered_rows_candidate r :
  r ∈ situations (delivered_rows t sel d) → id r = id c → r = c.
Proof.
  intros (r0 & Hr0 & ->)%situations_delivered_rows. case_bool_decide as Hin.
  - simpl. intros Heq. by rewrite Heq in Hin.
  - intros Heq. by apply (same_id d).
Qed.

Lemma candidate_in_delivered_rows : c ∈ situations (delivered_rows t sel d).
Proof.
  apply situations_delivered_rows. exists c. by rewrite bool_decide_eq_false_2.
Qed.

Lemma sql_update_one_more (p : Situation → bool) :
  p c = true →
  sql_update (λ r, (id r =? id c) && p r) (deliver_row t) (situations (delivered_rows t sel d)) =
  situations (delivered_rows t (sel ++ [c]) d).
Proof.
  intros Hp. simpl. unfold sql_update. rewrite <- list_fmap_compose.
  apply list_fmap_ext. intros i r Hr%list_elem_of_lookup_2. simpl.
  rewrite fmap_app. simpl. case_bool_decide as Hin.
  - simpl. rewrite (bool_decide_eq_true_2 (id r ∈ _)) by (apply elem_of_app; by left).
    destruct (Z.eqb_spec (id r) (id c)) as [Heq|]; [by rewrite Heq in Hin|done].
  - destruct (Z.eqb_spec (id r) (id c)) as [Heq|Hne].
    + rewrite (same_id d r c Hok Hr Hc Heq), Hp. simpl.
      by rewrite bool_decide_eq_true_2 by (apply elem_of_app; right; left).
    + simpl. rewrite bool_decide_eq_false_2; [done|].
      by intros [|?%list_elem_of_singleton]%elem_of_app.
Qed.

Lemma get_situation_one_more :
  get_situation (id c) (delivered_rows t (sel ++ [c]) d) = Some (deliver_row t c).
Proof.
  unfold get_situation. destruct (sql_find _ _) as [r|] eqn:Hf.
  - apply sql_find_Some in Hf as [Hin Hid]. apply Z.eqb_eq in Hid.
    apply situations_delivered_rows in Hin as (r0 & Hr0 & ->). f_equal.
    rewrite fmap_app in *. case_bool_decide as Hb; simpl in Hid.
    + by rewrite (same_id d r0 c Hok Hr0 Hc Hid).
    + rewrite (same_id d r0 c Hok Hr0 Hc Hid) in Hb. set_solver.
  - apply sql_find_None in Hf. rewrite sql_exists_false in Hf.
    assert (deliver_row t c ∈ situations (delivered_rows t (sel ++ [c]) d)) as Hin.
    { apply situations_delivered_rows. exists c. rewrite fmap_app.
      by rewrite bool_decide_eq_true_2 by (apply elem_of_app; right; left). }
    specialize (Hf _ Hin). simpl in Hf. by rewrite Z.eqb_refl in Hf.
Qed.

Lemma delivered_rows_snoc :
  set_deliveries (deliveries (delivered_rows t sel d) ++ [mk_delivery (id c) t (priority c)])
    (set_situations (situations (delivered_rows t (sel ++ [c]) d)) (delivered_rows t sel d)) =
  delivered_rows t (sel ++ [c]) d.
Proof.
  unfold delivered_rows. rewrite !fmap_app, app_assoc. by destruct d.
Qed.
End OneMore.

Lemma claimable_split claim slots d r :
  claimable claim slots d r = deliverable claim d r && admits claim slots (day_usage claim d) r.
Proof. unfold claimable, admits, reply_cap. by rewrite <- andb_assoc. Qed.

Lemma sql_count_unique d c p :
  c ∈ situations d → p c = true →
  sql_count (λ r, (id r =? id c) && p r) (situations d) ≠ 0.
Proof.
  intros Hc Hp H0. rewrite sql_count_zero in H0. specialize (H0 c Hc).
  by rewrite Z.eqb_refl, Hp in H0.
Qed.

Section Claim.
Context (claim : DeliveryClaim) (slots : Z) (d : db) (Hok : db_ok d).
Let t := dc_delivered_at claim.

(** The counters after the selection [sel]. *)
Definition usage_after (sel : list Situation) : usage :=
  foldl (charge (day_counted claim)) (day_usage claim d) sel.

Definition claim_takes (sel : list Situation) (c : Situation) : bool :=
  takes claim slots (deliverable claim d) (usage_after sel) c.

Lemma claim_one_run sel c :
  (∀ r, r ∈ sel → r ∈ situations d) → c ∈ situations d → id c ∉ id <$> sel →
  claim_one claim slots (deliver_row t <$> sel) c (delivered_rows t sel d) =
  let sel' := if claim_takes sel c then sel ++ [c] else sel in
  (Ok (deliver_row t <$> sel'), delivered_rows t sel' d).
Proof.
  intros Hsel Hc Hnew. unfold claim_one, claim_takes, takes.
  destruct (skip_candidate claim c); [done|]. simpl. step.
  rewrite (bind_run _ _ _ _ _ (update_situations_run _ _ _)).
  assert (claimable claim slots (delivered_rows t sel d) c =
          deliverable claim d c && admits claim slots (usage_after sel) c) as Heq.
  { rewrite claimable_split, deliverable_delivered_rows, day_usage_delivered_rows by done. done. }
  destruct (_ && admits _ _ _ _) eqn:Hadm.
  - assert (c ∈ situations (delivered_rows t sel d)) as Hin
      by (by apply candidate_in_delivered_rows).
    rewrite (proj2 (Z.eqb_neq _ _) (sql_count_unique _ _ _ Hin Heq)).
    rewrite gets_bind. fold t. rewrite sql_update_one_more by done.
    change (get_situation (id c) (set_situations _ _)) with
      (get_situation (id c) (delivered_rows t (sel ++ [c]) d)).
    rewrite get_situation_one_more by done. unfold record_delivery. step.
    unfold mret, M_ret. rewrite fmap_app. simpl. f_equal. by apply delivered_rows_snoc.
  - assert (∀ r, r ∈ situations (delivered_rows t sel d) →
      (id r =? id c) && claimable claim slots (delivered_rows t sel d) r = false) as Hnone.
    { intros r Hr. destruct (Z.eqb_spec (id r) (id c)) as [Hid|]; [|done].
      by rewrite (delivered_rows_candidate d Hok t sel c Hc Hnew r Hr Hid). }
    apply sql_count_zero in Hnone. rewrite Hnone, Z.eqb_refl.
    rewrite sql_update_none by done. unfold mret, M_ret. by destruct (delivered_rows t sel d).
Qed.

Lemma claim_loop cs sel :
  (∀ r, r ∈ sel → r ∈ situations d) → (∀ r, r ∈ cs → r ∈ situations d) →
  NoDup (id <$> sel ++ cs) →
  for_each (claim_one claim slots) (deliver_row t <$> sel) cs (delivered_rows t sel d) =
  let sel' := sel ++ greedy claim slots (day_counted claim) (deliverable claim d)
                (usage_after sel) cs in
  (Ok (deliver_row t <$> sel'), delivered_rows t sel' d).
Proof.
  revert sel. induction cs as [|c cs IH]; intros sel Hsel Hcs Hnd; simpl.
  { by rewrite app_nil_r. }
  assert (id c ∉ id <$> sel) as Hnew.
  { rewrite fmap_app, NoDup_app in Hnd. destruct Hnd as (_ & Hd & _).
    intros Hin. apply (Hd _ Hin). by left. }
  rewrite (bind_run _ _ _ _ _ (claim_one_run sel c Hsel ltac:(apply Hcs; left) Hnew)).
  change (takes claim slots _ (usage_after sel) c) with (claim_takes sel c).
  destruct (claim_takes sel c).
  - rewrite IH; [|set_solver..|by rewrite <- app_assoc]. cbv zeta.
    assert (usage_after (sel ++ [c]) = charge (day_counted claim) (usage_after sel) c) as ->
      by (unfold usage_after; by rewrite foldl_app).
    by rewrite <- !app_assoc.
  - apply IH; [done|set_solver|]. eapply sublist_NoDup; [exact Hnd|].
    apply fmap_sublist, sublist_app; [done|by apply sublist_cons].
Qed.
End Claim.

Lemma pending_in_table n d r : r ∈ pending_for_delivery n d → r ∈ situations d ∧ state r = Pending.
Proof.
  unfold pending_for_delivery. intros H%(subseteq_take _ _). revert H.
  rewrite elem_of_order_by, elem_of_sql_select, in_state_true. tauto.
Qed.

Lemma pending_NoDup n d : db_ok d → NoDup (id <$> pending_for_delivery n d).
Proof.
  intros Hok. unfold pending_for_delivery. eapply sublist_NoDup; [|apply fmap_sublist, sublist_take].
  rewrite order_by_permutation. eapply sublist_NoDup; [apply (ok_ids _ Hok)|].
  apply fmap_sublist, sublist_filter.
Qed.

(** What one claim selects: the greedy pass over the first hundred pending rows. *)
Definition claim_selection (claim : DeliveryClaim) (d : db) : list Situation :=
  let candidates := pending_for_delivery _MAX_DELIVERY_CANDIDATES d in
  greedy claim (reserved_non_reply_slots_for_claim candidates claim d) (day_counted claim)
    (deliverable claim d) (day_usage claim d) candidates.

Lemma claim_run claim d :
  db_ok d →
  claim_for_delivery claim d =
    (Ok (deliver_row (dc_delivered_at claim) <$> claim_selection claim d),
     delivered_rows (dc_delivered_at claim) (claim_selection claim d) d).
Proof.
  intros Hok. unfold claim_for_delivery, immediate_transaction. step.
  pose proof (claim_loop claim
    (reserved_non_reply_slots_for_claim (pending_for_delivery _MAX_DELIVERY_CANDIDATES d) claim d)
    d Hok (pending_for_delivery _MAX_DELIVERY_CANDIDATES d) []) as Hloop.
  rewrite delivered_rows_nil in Hloop. simpl in Hloop. rewrite Hloop; [done|set_solver| |].
  - intros r Hr. by apply pending_in_table in Hr as [].
  - by apply pending_NoDup.
Qed.

(** ** Leasing refines the pass *)

Definition leased_rows (digest t e : text) (sel : list Situation) (d : db) : db :=
  set_claims (claims d ++ ((λ r, mk_claim digest (id r) t e) <$> sel)) d.

Lemma leased_rows_nil digest t e d : leased_rows digest t e [] d = d.
Proof. unfold leased_rows. simpl. rewrite app_nil_r. by destruct d. Qed.

Definition lease_usage (claim : DeliveryClaim) (d : db) : usage :=
  mk_usage (day_deliveries claim d + day_leases claim d)
    (day_reply_deliveries claim d + day_reply_leases claim d).

(** What can be leased: a deliverable row nobody holds a lease on. *)
Definition lease_eligible (claim : DeliveryClaim) (d : db) (r : Situation) : bool :=
  deliverable claim d r && negb (is_claimed r d).

Lemma leasable_split claim slots d r :
  leasable claim slots d r = lease_eligible claim d r && admits claim slots (lease_usage claim d) r.
Proof. unfold leasable, lease_eligible, admits, reply_cap. by rewrite !andb_assoc. Qed.

Lemma limited_row d r :
  db_ok d → r ∈ situations d →
  sql_exists (λ r', (id r' =? id r) && negb (is_critical (priority r'))) (situations d) = limited r.
Proof.
  intros Hok Hin. apply eq_bool_prop_intro. rewrite !Is_true_true, sql_exists_true. split.
  - intros (r' & Hin' & [Hid Hr]%andb_true_iff). apply Z.eqb_eq in Hid.
    by rewrite <- (same_id d r' r).
  - intros Hr. exists r. split; [done|]. by rewrite Z.eqb_refl.
Qed.

Section Lease.
Context (claim : DeliveryClaim) (slots : Z) (digest e : text) (d : db) (Hok : db_ok d).
Let t := dc_delivered_at claim.
Context (Hlease : text_ltb t e = true).

Definition lease_usage_after (sel : list Situation) : usage :=
  foldl (charge (day_counted claim)) (lease_usage claim d) sel.

Lemma is_claimed_leased_rows sel c :
  is_claimed c (leased_rows digest t e sel d) = is_claimed c d || bool_decide (id c ∈ id <$> sel).
Proof.
  unfold is_claimed, sql_exists. simpl. rewrite existsb_app. f_equal.
  apply eq_bool_prop_intro. rewrite bool_decide_spec, Is_true_true.
  rewrite (sql_exists_true (λ x, cl_situation_id x =? id c)). split.
  - intros (x & (r & -> & Hr)%list_elem_of_fmap & Hx%Z.eqb_eq). simpl in Hx. rewrite <- Hx.
    by apply list_elem_of_fmap_2.
  - intros (r & Hr & Hin)%list_elem_of_fmap. exists (mk_claim digest (id r) t e).
    split; [by apply (list_elem_of_fmap_2 (λ r, mk_claim digest (id r) t e))|].
    simpl. by rewrite Hr, Z.eqb_refl.
Qed.

Lemma lease_usage_leased_rows sel :
  (∀ r, r ∈ sel → r ∈ situations d) →
  lease_usage claim (leased_rows digest t e sel d) = lease_usage_after sel.
Proof.
  revert sel. refine (rev_ind _ _ _).
  { intros _. by rewrite leased_rows_nil. }
  intros r sel IH Hsel. unfold lease_usage_after. rewrite foldl_app.
  fold (lease_usage_after sel). rewrite <- IH by (intros; apply Hsel, elem_of_app; by left).
  assert (r ∈ situations d) as Hr by (apply Hsel, elem_of_app; right; left).
  unfold charge, lease_usage, day_leases, day_reply_leases, count_reserved_between.
  simpl. rewrite !fmap_app, !app_assoc, !sql_count_app. simpl. rewrite !sql_count_cons, !sql_count_nil.
  unfold counted_claim. simpl. fold t. rewrite Hlease, andb_true_r, limited_row by done.
  fold (day_counted claim). unfold reply_situation. simpl.
  rewrite (reply_situation_row d r Hok Hr : sql_exists _ _ = _). unfold limited_reply.
  change (in_window _ _ t) with (day_counted claim). rewrite andb_assoc.
  assert (∀ l, day_deliveries claim (leased_rows digest t e l d) = day_deliveries claim d ∧
    day_reply_deliveries claim (leased_rows digest t e l d) = day_reply_deliveries claim d)
    as Hd by done.
  destruct (Hd sel) as [-> ->], (Hd (sel ++ [r])) as [-> ->]. f_equal; lia.
Qed.

Definition lease_takes (sel : list Situation) (c : Situation) : bool :=
  takes claim slots (lease_eligible claim d) (lease_usage_after sel) c.

Lemma leasable_row sel c :
  (∀ r, r ∈ sel → r ∈ situations d) → id c ∉ id <$> sel →
  leasable claim slots (leased_rows digest t e sel d) c =
    lease_eligible claim d c && admits claim slots (lease_usage_after sel) c.
Proof.
  intros Hsel Hnew. rewrite leasable_split, lease_usage_leased_rows by done. f_equal.
  unfold lease_eligible. rewrite is_claimed_leased_rows, bool_decide_eq_false_2 by done.
  by rewrite orb_false_r.
Qed.

Lemma leased_rows_snoc sel c :
  set_claims (claims (leased_rows digest t e sel d) ++ [mk_claim digest (id c) t e])
    (leased_rows digest t e sel d) = leased_rows digest t e (sel ++ [c]) d.
Proof. unfold leased_rows. simpl. by rewrite fmap_app, app_assoc. Qed.

Lemma reserve_one_run sel c :
  (∀ r, r ∈ sel → r ∈ situations d) → c ∈ situations d → id c ∉ id <$> sel →
  reserve_one claim slots digest e sel c (leased_rows digest t e sel d) =
  let sel' := if lease_takes sel c then sel ++ [c] else sel in
  (Ok sel', leased_rows digest t e sel' d).
Proof.
  intros Hsel Hc Hnew. unfold reserve_one, lease_takes, takes.
  destruct (skip_candidate claim c); [done|]. simpl. step. fold t. rewrite Hlease.
  pose proof (leasable_row sel c Hsel Hnew) as Heq.
  destruct (sql_find _ _) as [r|] eqn:Hf.
  - apply sql_find_Some in Hf as [Hin [Hid Hl]%andb_true_iff]. apply Z.eqb_eq in Hid.
    assert (r = c) as -> by (by apply (same_id d)). rewrite <- Heq, Hl. simpl. step.
    unfold mret, M_ret. by rewrite <- leased_rows_snoc.
  - apply sql_find_None in Hf. rewrite sql_exists_false in Hf.
    specialize (Hf c Hc). rewrite Z.eqb_refl in Hf. simpl in Hf. by rewrite <- Heq, Hf.
Qed.

Lemma reserve_loop cs sel :
  (∀ r, r ∈ sel → r ∈ situations d) → (∀ r, r ∈ cs → r ∈ situations d) →
  NoDup (id <$> sel ++ cs) →
  for_each (reserve_one claim slots digest e) sel cs (leased_rows digest t e sel d) =
  let sel' := sel ++ greedy claim slots (day_counted claim) (lease_eligible claim d)
                (lease_usage_after sel) cs in
  (Ok sel', leased_rows digest t e sel' d).
Proof.
  revert sel. induction cs as [|c cs IH]; intros sel Hsel Hcs Hnd; simpl.
  { by rewrite app_nil_r. }
  assert (id c ∉ id <$> sel) as Hnew.
  { rewrite fmap_app, NoDup_app in Hnd. destruct Hnd as (_ & Hd & _).
    intros Hin. apply (Hd _ Hin). by left. }
  rewrite (bind_run _ _ _ _ _ (reserve_one_run sel c Hsel ltac:(apply Hcs; left) Hnew)).
  change (takes claim slots _ (lease_usage_after sel) c) with (lease_takes sel c).
  destruct (lease_takes sel c).
  - rewrite IH; [|set_solver..|by rewrite <- app_assoc]. cbv zeta.
    assert (lease_usage_after (sel ++ [c]) = charge (day_counted claim) (lease_usage_after sel) c)
      as -> by (unfold lease_usage_after; by rewrite foldl_app).
    by rewrite <- !app_assoc.
  - apply IH; [done|set_solver|]. eapply sublist_NoDup; [exact Hnd|].
    apply fmap_sublist, sublist_app; [done|by apply sublist_cons].
Qed.
End Lease.

(** The tables once the lapsed leases are gone, and what one reservation selects. *)
Definition without_lapsed_leases (t : text) (d : db) : db :=
  set_claims (sql_delete (λ c, text_leb (cl_expires_at c) t) (claims d)) d.

Definition lease_selection (claim : DeliveryClaim) (d : db) : list Situation :=
  let candidates := pending_for_delivery _MAX_DELIVERY_CANDIDATES d in
  greedy claim (reserved_non_reply_slots_for_reservation candidates claim d) (day_counted claim)
    (lease_eligible claim d) (lease_usage claim d) candidates.

Lemma without_lapsed_ok t d : db_ok d → db_ok (without_lapsed_leases t d).
Proof. apply sound_filter_claims. Qed.

Lemma reserve_run dg claim tok e d :
  db_ok d → text_ltb (dc_delivered_at claim) e = true →
  let d0 := without_lapsed_leases (dc_delivered_at claim) d in
  reserve_for_delivery dg claim tok e d =
    (Ok (mk_reservation tok (lease_selection claim d0) e),
     leased_rows (dg tok) (dc_delivered_at claim) e (lease_selection claim d0) d0).
Proof.
  intros Hok Ht d0. pose proof (without_lapsed_ok (dc_delivered_at claim) d Hok) as Hok0.
  unfold reserve_for_delivery. fold d0 in Hok0.
  pose proof (reserve_loop claim
    (reserved_non_reply_slots_for_reservation
       (pending_for_delivery _MAX_DELIVERY_CANDIDATES d0) claim d0)
    (dg tok) e d0 Hok0 Ht (pending_for_delivery _MAX_DELIVERY_CANDIDATES d0) []) as Hloop.
  rewrite leased_rows_nil in Hloop. simpl in Hloop.
  erewrite bind_run; [reflexivity|]. apply transaction_ok. unfold receipts_expire. step.
  fold (without_lapsed_leases (dc_delivered_at claim) d). fold d0. apply Hloop; [set_solver| |].
  - intros r Hr. by apply pending_in_table in Hr as [].
  - by apply pending_NoDup.
Qed.

(** ** Confirming *)

(** The rows a token still holds at [t], in id order. *)
Definition held_rows (digest t : text) (d : db) : list Situation :=
  omap (λ i, get_situation i d) (delivery_claim_ids digest (without_lapsed_leases t d)).

Lemma get_situation_row d r : db_ok d → r ∈ situations d → get_situation (id r) d = Some r.
Proof.
  intros Hok Hin. destruct (get_situation (id r) d) as [r'|] eqn:Hg.
  - apply get_situation_spec in Hg as [Hin' Hid]. f_equal. by apply (same_id d).
  - unfold get_situation in Hg. apply sql_find_None in Hg. rewrite sql_exists_false in Hg.
    specialize (Hg r Hin). simpl in Hg. by rewrite Z.eqb_refl in Hg.
Qed.

Lemma claim_ids_leased digest d i :
  i ∈ delivery_claim_ids digest d → ∃ c, c ∈ claims d ∧ cl_situation_id c = i.
Proof.
  unfold delivery_claim_ids. intros H%(subseteq_take _ _). revert H.
  intros (c & -> & Hc)%list_elem_of_fmap. exists c. split; [|done]. revert Hc.
  rewrite elem_of_order_by, elem_of_sql_select. tauto.
Qed.

Lemma claim_ids_NoDup digest d : db_ok d → NoDup (delivery_claim_ids digest d).
Proof.
  intros Hok. unfold delivery_claim_ids. eapply sublist_NoDup; [|apply sublist_take].
  rewrite order_by_permutation. eapply sublist_NoDup; [apply (ok_claims _ Hok)|].
  apply fmap_sublist, sublist_filter.
Qed.

Section Held.
Context (digest t : text) (d : db) (Hok : db_ok d).

Lemma held_rows_spec :
  id <$> held_rows digest t d = delivery_claim_ids digest (without_lapsed_leases t d) ∧
  (∀ r, r ∈ held_rows digest t d → r ∈ situations d).
Proof.
  unfold held_rows. pose proof (without_lapsed_ok t d Hok) as Hok0.
  assert (∀ i, i ∈ delivery_claim_ids digest (without_lapsed_leases t d) →
    ∃ r, r ∈ situations d ∧ id r = i) as Hrows.
  { intros i (c & Hc & <-)%claim_ids_leased. pose proof (ok_claim_rows _ Hok0) as Hcl.
    rewrite Forall_forall in Hcl. destruct (Hcl c Hc) as [Hi _].
    apply list_elem_of_fmap in Hi as (r & Hr & Hin). by exists r. }
  induction (delivery_claim_ids _ _) as [|i is' IH]; csimpl; [split; [done|set_solver]|].
  destruct (Hrows i) as (r & Hr & <-); [by left|].
  rewrite get_situation_row by done. csimpl.
  destruct IH as [Hids Hin]; [intros; apply Hrows; by right|].
  split; [by f_equal|]. intros r' [->|]%elem_of_cons; auto.
Qed.

Lemma held_rows_NoDup : NoDup (id <$> held_rows digest t d).
Proof. rewrite (proj1 held_rows_spec). apply claim_ids_NoDup, without_lapsed_ok, Hok. Qed.

Lemma held_rows_bound : (length (held_rows digest t d) ≤ 100)%nat.
Proof.
  rewrite <- (length_fmap id), (proj1 held_rows_spec). unfold delivery_claim_ids.
  rewrite length_take. lia.
Qed.
End Held.

Section Confirm.
Context (t : text) (d : db) (Hok : db_ok d).

Lemma confirm_one_run sel c :
  c ∈ situations d → id c ∉ id <$> sel →
  confirm_one t tt (id c) (delivered_rows t sel d) =
  if in_state Pending c then (Ok tt, delivered_rows t (sel ++ [c]) d)
  else (Err DeliveryReceiptError, delivered_rows t sel d).
Proof.
  intros Hc Hnew. unfold confirm_one, MARK_DELIVERED.
  rewrite (bind_run _ _ _ _ _ (update_situations_run _ _ _)).
  destruct (in_state Pending c) eqn:Hst.
  - assert (c ∈ situations (delivered_rows t sel d)) as Hin by (by apply candidate_in_delivered_rows).
    rewrite (proj2 (Z.eqb_neq _ _) (sql_count_unique _ _ _ Hin Hst)), gets_bind.
    rewrite sql_update_one_more by done.
    change (get_situation (id c) (set_situations _ _)) with
      (get_situation (id c) (delivered_rows t (sel ++ [c]) d)).
    rewrite get_situation_one_more by done. unfold record_delivery, modify. simpl. f_equal.
    by apply delivered_rows_snoc.
  - assert (∀ r, r ∈ situations (delivered_rows t sel d) →
      (id r =? id c) && in_state Pending r = false) as Hnone.
    { intros r Hr. destruct (Z.eqb_spec (id r) (id c)) as [Hid|]; [|done].
      by rewrite (delivered_rows_candidate d Hok t sel c Hc Hnew r Hr Hid). }
    apply sql_count_zero in Hnone. rewrite Hnone, Z.eqb_refl.
    rewrite sql_update_none by done. unfold raise. by destruct (delivered_rows t sel d).
Qed.

Lemma confirm_loop cs sel :
  (∀ r, r ∈ cs → r ∈ situations d) → NoDup (id <$> sel ++ cs) →
  (for_each (confirm_one t) tt (id <$> cs) (delivered_rows t sel d)).1 =
    (if forallb (in_state Pending) cs then Ok tt else Err DeliveryReceiptError) ∧
  (forallb (in_state Pending) cs = true →
   (for_each (confirm_one t) tt (id <$> cs) (delivered_rows t sel d)).2 =
     delivered_rows t (sel ++ cs) d).
Proof.
  revert sel. induction cs as [|c cs IH]; intros sel Hcs Hnd; simpl.
  { by rewrite app_nil_r. }
  assert (id c ∉ id <$> sel) as Hnew.
  { rewrite fmap_app, NoDup_app in Hnd. destruct Hnd as (_ & Hd & _).
    intros Hin. apply (Hd _ Hin). by left. }
  pose proof (confirm_one_run sel c ltac:(apply Hcs; left) Hnew) as Hone.
  unfold mbind, M_bind. rewrite Hone. destruct (in_state Pending c); [|done]. simpl.
  replace (sel ++ c :: cs) with ((sel ++ [c]) ++ cs) in * by (by rewrite <- app_assoc).
  apply IH; [set_solver|done].
Qed.
End Confirm.

Definition confirmed_db (digest t : text) (rows : list Situation) (d : db) : db :=
  let d1 := delivered_rows t rows (without_lapsed_leases t d) in
  set_receipts (receipts d1 ++ [mk_receipt digest (Z.of_nat (length rows)) t])
    (set_claims (sql_delete (λ c, bool_decide (cl_receipt_digest c = digest)) (claims d1)) d1).

Lemma confirm_run dg tok t d :
  db_ok d → receipts_replay (dg tok) d = None →
  let rows := held_rows (dg tok) t d in
  confirm_delivery dg tok t d =
    if bool_decide (rows = []) || negb (forallb (in_state Pending) rows)
    then (Err DeliveryReceiptError, d)
    else (Ok (mk_confirmation Confirmed (Z.of_nat (length rows))), confirmed_db (dg tok) t rows d).
Proof.
  intros Hok Hrep rows. unfold confirm_delivery, immediate_transaction. step. rewrite Hrep.
  unfold receipts_expire. step. fold (without_lapsed_leases t d).
  destruct (held_rows_spec (dg tok) t d Hok) as [Hids Hin]. fold rows in Hids, Hin.
  rewrite <- Hids. pose proof (held_rows_bound (dg tok) t d Hok) as Hlen. fold rows in Hlen.
  destruct (confirm_loop t _ (without_lapsed_ok t d Hok) rows [] Hin
    (held_rows_NoDup (dg tok) t d Hok)) as [Hres Hdb]. rewrite delivered_rows_nil in Hres, Hdb.
  assert (sql_exists (λ r, bool_decide (rp_receipt_digest r = dg tok)) (receipts d) = false) as Hfresh.
  { apply sql_find_None. unfold receipts_replay in Hrep. by destruct (sql_find _ _). }
  destruct (decide (rows = [])) as [Hnil|Hne]; [by rewrite Hnil|].
  rewrite !bool_decide_eq_false_2 by (try done; by intros ?%fmap_nil_inv). simpl.
  destruct (for_each (confirm_one t) tt (id <$> rows) (without_lapsed_leases t d))
    as [res d1] eqn:Hrun. simpl in Hres, Hdb.
  destruct (forallb (in_state Pending) rows); simpl; subst res.
  - rewrite (bind_run _ _ _ _ _ Hrun), Hdb by done. unfold receipts_consume, receipts_record. step.
    simpl. rewrite Hfresh, length_fmap.
    rewrite (proj2 (Z.leb_le 0 _)), (proj2 (Z.leb_le _ 100)) by lia. done.
  - unfold mbind at 1, M_bind at 1. by rewrite Hrun.
Qed.

(** ** From reservation to confirmation *)

Definition fresh_token (digest : text) (d : db) : Prop :=
  (∀ c, c ∈ claims d → cl_receipt_digest c ≠ digest) ∧
  (∀ r, r ∈ receipts d → rp_receipt_digest r ≠ digest).

Lemma fresh_without_lapsed digest t d :
  fresh_token digest d → fresh_token digest (without_lapsed_leases t d).
Proof.
  intros [Hc Hr]. split; [|exact Hr]. intros c [_ Hin]%elem_of_sql_delete. by apply Hc.
Qed.

Lemma fresh_no_replay digest d : fresh_token digest d → receipts_replay digest d = None.
Proof.
  intros [_ Hr]. unfold receipts_replay. destruct (sql_find _ _) as [r|] eqn:Hf; [|done].
  apply sql_find_Some in Hf as [Hin Heq%bool_decide_eq_true]. by destruct (Hr r Hin).
Qed.

Lemma lease_selection_in claim d r :
  r ∈ lease_selection claim d →
  r ∈ situations d ∧ state r = Pending ∧ lease_eligible claim d r = true ∧
  skip_candidate claim r = false.
Proof.
  intros Hin. pose proof (greedy_eligible claim (reserved_non_reply_slots_for_reservation
    (pending_for_delivery _MAX_DELIVERY_CANDIDATES d) claim d) (day_counted claim)
    (lease_eligible claim d) (lease_usage claim d)
    (pending_for_delivery _MAX_DELIVERY_CANDIDATES d)) as He.
  rewrite Forall_forall in He. destruct (He r Hin).
  assert (r ∈ pending_for_delivery _MAX_DELIVERY_CANDIDATES d) as [? ?]%pending_in_table; [|done].
  eapply sublist_subseteq; [apply greedy_sublist|exact Hin].
Qed.

Lemma claim_selection_in claim d r :
  r ∈ claim_selection claim d →
  r ∈ situations d ∧ deliverable claim d r = true ∧ skip_candidate claim r = false.
Proof.
  intros Hin. pose proof (greedy_eligible claim (reserved_non_reply_slots_for_claim
    (pending_for_delivery _MAX_DELIVERY_CANDIDATES d) claim d) (day_counted claim)
    (deliverable claim d) (day_usage claim d)
    (pending_for_delivery _MAX_DELIVERY_CANDIDATES d)) as He.
  rewrite Forall_forall in He. destruct (He r Hin).
  assert (r ∈ pending_for_delivery _MAX_DELIVERY_CANDIDATES d) as [? ?]%pending_in_table; [|done].
  eapply sublist_subseteq; [apply greedy_sublist|exact Hin].
Qed.

Lemma lease_selection_bound claim d : (length (lease_selection claim d) ≤ 100)%nat.
Proof.
  etrans; [apply sublist_length, greedy_sublist|]. unfold pending_for_delivery.
  rewrite length_take. unfold _MAX_DELIVERY_CANDIDATES. lia.
Qed.

Lemma lease_selection_NoDup claim d : db_ok d → NoDup (id <$> lease_selection claim d).
Proof.
  intros Hok. eapply sublist_NoDup; [|apply fmap_sublist, greedy_sublist].
  by apply pending_NoDup.
Qed.

(** The rows held by a token that has just leased [sel] are [sel], in id order. *)
Lemma held_rows_leased digest t e t' sel d :
  fresh_token digest d → db_ok (leased_rows digest t e sel d) →
  (∀ r, r ∈ sel → r ∈ situations d) → (length sel ≤ 100)%nat → text_ltb t' e = true →
  held_rows digest t' (leased_rows digest t e sel d) ≡ₚ sel.
Proof.
  intros [Hfresh _] Hok Hsel Hlen Ht'.
  destruct (held_rows_spec digest t' _ Hok) as [Hids Hin].
  set (rows := held_rows _ _ _) in *.
  assert (id <$> rows ≡ₚ id <$> sel) as Hperm.
  { rewrite Hids. unfold delivery_claim_ids, without_lapsed_leases, leased_rows. simpl.
    rewrite sql_select_delete, sql_select_app, (sql_select_none _ (claims d)).
    - rewrite sql_select_all; simpl.
      + rewrite take_ge; rewrite order_by_permutation.
        * by rewrite <- list_fmap_compose.
        * by rewrite !length_fmap.
      + intros c (r & -> & _)%list_elem_of_fmap. simpl.
        by rewrite bool_decide_eq_true_2, text_leb_negb, Ht' by done.
    - intros c Hc. by rewrite bool_decide_eq_false_2 by (by apply Hfresh). }
  assert (NoDup (id <$> rows)) as Hnd by (by apply held_rows_NoDup).
  apply NoDup_Permutation; [by eapply NoDup_fmap_1|..].
  - rewrite Hperm in Hnd. by eapply NoDup_fmap_1.
  - assert (∀ l1 l2, id <$> l1 ≡ₚ id <$> l2 → (∀ r, r ∈ l1 → r ∈ situations d) →
      (∀ r, r ∈ l2 → r ∈ situations d) → ∀ r, r ∈ l1 → r ∈ l2) as Hsub.
    { intros l1 l2 Hp H1 H2 r Hr.
      assert (id r ∈ id <$> l2) as (r' & Hid & Hr')%list_elem_of_fmap
        by (rewrite <- Hp; by apply list_elem_of_fmap_2).
      assert (r = r') as ->; [|done].
      apply (same_id (leased_rows digest t e sel d)); auto. }
    intros r. split; [by apply Hsub|]. symmetry in Hperm. by apply Hsub.
Qed.

Lemma leased_ok digest t e sel d :
  db_ok d → text_ltb t e = true → NoDup (id <$> sel) →
  (∀ r, r ∈ sel → r ∈ situations d ∧ is_claimed r d = false) →
  db_ok (leased_rows digest t e sel d).
Proof.
  intros [] Ht Hnd Hsel. split; try done; simpl.
  - rewrite fmap_app, <- list_fmap_compose. apply NoDup_app. split; [done|]. split; [|done].
    intros i (c & -> & Hc)%list_elem_of_fmap (r & Hr & Hin)%list_elem_of_fmap.
    destruct (Hsel r Hin) as [_ Hcl]. unfold is_claimed in Hcl. rewrite sql_exists_false in Hcl.
    specialize (Hcl c Hc). simpl in Hr. rewrite Hr in Hcl. by rewrite Z.eqb_refl in Hcl.
  - apply Forall_app. split; [done|]. apply Forall_fmap, Forall_forall. intros r Hr. simpl.
    split; [|done]. by apply elem_of_ids, Hsel.
Qed.

Lemma lease_selection_ok claim digest e d :
  db_ok d → text_ltb (dc_delivered_at claim) e = true →
  db_ok (leased_rows digest (dc_delivered_at claim) e (lease_selection claim d) d).
Proof.
  intros Hok He. apply leased_ok; [done..|by apply lease_selection_NoDup|].
  intros r (Hin & _ & Hel & _)%lease_selection_in. split; [done|].
  unfold lease_eligible in Hel. rewrite andb_true_iff, negb_true_iff in Hel. tauto.
Qed.

(** The token of a recorded receipt answers from it. *)
Lemma replay_run dg tok t c d :
  receipts_replay (dg tok) d = Some c → confirm_delivery dg tok t d = (Ok c, d).
Proof. intros Hr. unfold confirm_delivery, immediate_transaction. step. by rewrite Hr. Qed.

Lemma confirmed_receipt dg t rows d :
  receipts_replay dg d = None →
  receipts_replay dg (confirmed_db dg t rows d) =
    Some (mk_confirmation AlreadyConfirmed (Z.of_nat (length rows))).
Proof.
  intros Hrep. unfold receipts_replay in *. simpl. rewrite sql_find_app.
  destruct (sql_find _ (receipts d)); [done|]. rewrite sql_find_cons. simpl.
  by rewrite bool_decide_eq_true_2.
Qed.

Lemma confirmed_row digest t rows d r :
  r ∈ rows → r ∈ situations d → deliver_row t r ∈ situations (confirmed_db digest t rows d).
Proof.
  intros Hr Hin. unfold confirmed_db. simpl. apply elem_of_sql_update. exists r. split; [|done].
  by rewrite bool_decide_eq_true_2 by (by apply list_elem_of_fmap_2).
Qed.

Lemma unconfirmed_row digest t rows d r :
  db_ok d → (∀ x, x ∈ rows → x ∈ situations d) → r ∈ situations d → r ∉ rows →
  r ∈ situations (confirmed_db digest t rows d).
Proof.
  intros Hok Hin Hr Hno. unfold confirmed_db. simpl. apply elem_of_sql_update. exists r.
  split; [|done]. rewrite bool_decide_eq_false_2; [done|]. intros (x & Hid & Hx)%list_elem_of_fmap_1.
  apply Hno. by rewrite (same_id d r x Hok Hr (Hin x Hx) Hid).
Qed.

(** ** Properties *)

Lemma foldl_charge u sel :
  foldl (charge true) u sel =
    mk_usage (used u + sql_count limited sel) (used_reply u + sql_count limited_reply sel).
Proof.
  revert u. induction sel as [|r sel IH]; intros u; simpl.
  - rewrite !sql_count_nil, !Z.add_0_r. by destruct u.
  - rewrite IH, !sql_count_cons. unfold charge. simpl. f_equal; lia.
Qed.

Lemma lapsed_leases_not_counted claim d :
  lease_usage claim (without_lapsed_leases (dc_delivered_at claim) d) = lease_usage claim d.
Proof.
  unfold lease_usage, day_leases, day_reply_leases, count_reserved_between, sql_count,
    without_lapsed_leases, sql_delete, counted_claim. simpl. rewrite !list_filter_filter.
  change (day_deliveries claim (set_claims _ d)) with (day_deliveries claim d).
  change (day_reply_deliveries claim (set_claims _ d)) with (day_reply_deliveries claim d).
  assert (∀ c : claim_row, text_ltb (dc_delivered_at claim) (cl_expires_at c) = true →
    text_leb (cl_expires_at c) (dc_delivered_at claim) = false) as Hlt by (intros; text_order).
  f_equal; do 3 f_equal; apply list_filter_iff; intros c; unfold reply_situation;
    cbn [situations set_claims]; rewrite !andb_true_iff; naive_solver.
Qed.

(** C4. Claiming is one greedy pass: although the transaction re-reads the tables before
    each row, it returns exactly the rows a single pass over the first hundred pending
    rows selects with two running counters, marks these delivered, appends one history
    row each in that order, and changes nothing else; it never fails. *)
Theorem claim_refines_greedy claim d :
  db_ok d →
  claim_for_delivery claim d =
    (Ok (deliver_row (dc_delivered_at claim) <$> claim_selection claim d),
     delivered_rows (dc_delivered_at claim) (claim_selection claim d) d).
Proof. apply claim_run. Qed.

(** A claim never takes the day over its budget: the non-critical deliveries counted
    in the claim's day are at most the budget, unless they already were more, and the
    non-critical replies leave the reserved slot free. *)
Theorem claim_respects_daily_limits claim d :
  db_ok d → day_counted claim = true →
  let d' := (claim_for_delivery claim d).2 in
  let slots := reserved_non_reply_slots_for_claim
                 (pending_for_delivery _MAX_DELIVERY_CANDIDATES d) claim d in
  day_deliveries claim d' ≤ Z.max (day_deliveries claim d) (dc_daily_budget claim) ∧
  day_reply_deliveries claim d' ≤
    Z.max (day_reply_deliveries claim d) (Z.max 0 (dc_daily_budget claim - slots)).
Proof.
  intros Hok Hday d' slots. subst d'. rewrite claim_run by done. cbn [snd].
  change (used (day_usage claim (delivered_rows (dc_delivered_at claim) (claim_selection claim d) d))
    ≤ Z.max (day_deliveries claim d) (dc_daily_budget claim) ∧
    used_reply (day_usage claim (delivered_rows (dc_delivered_at claim) (claim_selection claim d) d))
    ≤ Z.max (day_reply_deliveries claim d) (reply_cap claim slots)).
  rewrite day_usage_delivered_rows, Hday, foldl_charge; [|done..|].
  - by apply (greedy_count_le claim slots (day_counted claim)).
  - intros r Hr. by apply claim_selection_in in Hr as [].
Qed.

(** Only deliverable rows are claimed: each was pending, unexpired, of an unmuted
    type, past its cooldown (or snoozed since) and, for a reply, backed by a current Gmail
    generation; outside the quiet-hours mode only critical rows; no row twice, in the
    delivery order. *)
Theorem claimed_rows_were_deliverable claim d rows d' :
  db_ok d → claim_for_delivery claim d = (Ok rows, d') →
  ∃ sel, rows = deliver_row (dc_delivered_at claim) <$> sel ∧
    sel `sublist_of` pending_for_delivery _MAX_DELIVERY_CANDIDATES d ∧ NoDup (id <$> sel) ∧
    ∀ r, r ∈ sel → r ∈ situations d ∧ deliverable claim d r = true ∧
      (dc_allow_noncritical claim = true ∨ priority r = Critical) ∧
      deliver_row (dc_delivered_at claim) r ∈ situations d'.
Proof.
  intros Hok. rewrite claim_run by done. intros [= <- <-]. exists (claim_selection claim d).
  split; [done|]. split; [apply greedy_sublist|]. split.
  { eapply sublist_NoDup; [by apply pending_NoDup|apply fmap_sublist, greedy_sublist]. }
  intros r Hr. destruct (claim_selection_in _ _ _ Hr) as (Hin & Hel & Hskip).
  split; [done|]. split; [done|]. split.
  - unfold skip_candidate, is_critical in Hskip. destruct (dc_allow_noncritical claim); [by left|].
    right. by apply negb_false_iff, bool_decide_eq_true in Hskip.
  - apply situations_delivered_rows. exists r.
    by rewrite bool_decide_eq_true_2 by (by apply list_elem_of_fmap_2).
Qed.

(** A critical deliverable row among the first hundred is always claimed, whatever
    the budget and the quiet hours. *)
Theorem critical_rows_always_claimed claim d r :
  db_ok d → r ∈ pending_for_delivery _MAX_DELIVERY_CANDIDATES d → priority r = Critical →
  deliverable claim d r = true →
  ∃ rows d', claim_for_delivery claim d = (Ok rows, d') ∧
    deliver_row (dc_delivered_at claim) r ∈ rows.
Proof.
  intros Hok Hr Hcrit Hel. eexists _, _. split; [by apply claim_run|].
  apply list_elem_of_fmap_2, greedy_critical; [done| |done].
  unfold is_critical. by apply bool_decide_eq_true.
Qed.

Lemma reservation_limits dg claim tok e d :
  db_ok d → day_counted claim = true → text_ltb (dc_delivered_at claim) e = true →
  let d' := (reserve_for_delivery dg claim tok e d).2 in
  day_deliveries claim d' + day_leases claim d' ≤
    Z.max (day_deliveries claim d + day_leases claim d) (dc_daily_budget claim).
Proof.
  intros Hok Hday He d'. subst d'. rewrite reserve_run by done. cbn [snd].
  set (d0 := without_lapsed_leases _ d).
  pose proof (without_lapsed_ok (dc_delivered_at claim) d Hok) as Hok0. fold d0 in Hok0.
  pose proof (lapsed_leases_not_counted claim d) as Hu. fold d0 in Hu.
  change (day_deliveries claim d + day_leases claim d) with (used (lease_usage claim d)).
  rewrite <- Hu.
  change (used (lease_usage claim (leased_rows (dg tok) (dc_delivered_at claim) e
    (lease_selection claim d0) d0)) ≤ Z.max (used (lease_usage claim d0)) (dc_daily_budget claim)).
  rewrite lease_usage_leased_rows; [|done..|by intros r [Hr _]%lease_selection_in].
  unfold lease_usage_after. rewrite Hday, foldl_charge. cbn [used].
  by apply (greedy_count_le claim (reserved_non_reply_slots_for_reservation
    (pending_for_delivery _MAX_DELIVERY_CANDIDATES d0) claim d0) (day_counted claim)).
Qed.

(** Deliveries and outstanding leases together never exceed the day's budget through
    a reservation, so confirming every lease cannot overrun it. *)
Theorem reservation_respects_daily_limits dg claim tok e d :
  db_ok d → day_counted claim = true → text_ltb (dc_delivered_at claim) e = true →
  let d' := (reserve_for_delivery dg claim tok e d).2 in
  day_deliveries claim d' + day_leases claim d' ≤
    Z.max (day_deliveries claim d + day_leases claim d) (dc_daily_budget claim).
Proof. apply reservation_limits. Qed.

(** The tables a confirmation reads. *)
Record same_deliveries (d d' : db) : Prop := {
  same_situations : situations d' = situations d;
  same_claims : claims d' = claims d;
  same_receipts : receipts d' = receipts d;
  same_history : deliveries d' = deliveries d;
}.

(** From the reservation to the confirmation, whatever happened to other tables between. *)
Lemma lease_then_confirm dg claim tok e t d sel d1 d1' :
  db_ok d → fresh_token (dg tok) d →
  reserve_for_delivery dg claim tok e d = (Ok (mk_reservation tok sel e), d1) →
  text_ltb (dc_delivered_at claim) e = true → text_ltb t e = true → sel ≠ [] →
  db_ok d1' → same_deliveries d1 d1' →
  ∃ d2, confirm_delivery dg tok t d1' = (Ok (mk_confirmation Confirmed (Z.of_nat (length sel))), d2) ∧
    (∀ r, r ∈ sel → r ∈ situations d ∧ deliver_row t r ∈ situations d2) ∧
    deliveries d2 ≡ₚ deliveries d ++ ((λ r, mk_delivery (id r) t (priority r)) <$> sel) ∧
    receipts_replay (dg tok) d2 = Some (mk_confirmation AlreadyConfirmed (Z.of_nat (length sel))).
Proof.
  intros Hok Hfresh Hres He Ht Hne Hok' [Hst Hcl Hre Hde]. rewrite reserve_run in Hres by done.
  set (d0 := without_lapsed_leases _ d) in *. injection Hres as Hsel <-.
  pose proof (without_lapsed_ok (dc_delivered_at claim) d Hok) as Hok0. fold d0 in Hok0.
  pose proof (fresh_without_lapsed _ (dc_delivered_at claim) _ Hfresh) as Hfresh0. fold d0 in Hfresh0.
  pose proof (lease_selection_ok claim (dg tok) e d0 Hok0 He) as Hok1.
  pose proof (lease_selection_bound claim d0) as Hlen.
  pose proof (lease_selection_in claim d0) as Hin. rewrite Hsel in *.
  pose proof (held_rows_leased (dg tok) _ e t sel d0 Hfresh0 Hok1
    (λ r Hr, proj1 (Hin r Hr)) Hlen Ht) as Hheld.
  set (d1 := leased_rows _ _ _ _ _) in *.
  assert (held_rows (dg tok) t d1' = held_rows (dg tok) t d1) as Hsame.
  { unfold held_rows, get_situation, delivery_claim_ids, without_lapsed_leases. simpl. by rewrite Hst, Hcl. }
  rewrite <- Hsame in Hheld. set (rows := held_rows _ _ _) in *.
  assert (receipts_replay (dg tok) d1' = None) as Hrep.
  { unfold receipts_replay. rewrite Hre. apply (fresh_no_replay _ d0), Hfresh0. }
  pose proof (confirm_run dg tok t d1' Hok' Hrep) as Hrun. cbv zeta in Hrun. fold rows in Hrun.
  rewrite bool_decide_eq_false_2 in Hrun
    by (intros Hnil; rewrite Hnil in Hheld; apply Hne; by apply Permutation_nil_l in Hheld).
  replace (forallb (in_state Pending) rows) with true in Hrun.
  2: { symmetry. apply forallb_forall. intros r Hr%list_elem_of_In. rewrite Hheld in Hr.
       by apply in_state_true, Hin. }
  simpl in Hrun. exists (confirmed_db (dg tok) t rows d1').
  assert (length rows = length sel) as Hl by (by rewrite Hheld). rewrite <- Hl.
  split; [done|]. split; [|split].
  - intros r Hr. split; [by apply Hin|]. apply confirmed_row; [by rewrite Hheld|].
    rewrite Hst. by apply Hin.
  - unfold confirmed_db. simpl. by rewrite Hheld, Hde.
  - by apply confirmed_receipt.
Qed.

(** Reserve, then confirm in time: every leased row is delivered exactly once, under
    the token that leased it; the token is spent, and confirming it again, at any time,
    answers [AlreadyConfirmed] with the same count and changes nothing. *)
Theorem reserve_then_confirm dg claim tok e t d sel d1 :
  db_ok d → fresh_token (dg tok) d →
  reserve_for_delivery dg claim tok e d = (Ok (mk_reservation tok sel e), d1) →
  text_ltb (dc_delivered_at claim) e = true → text_ltb t e = true → sel ≠ [] →
  ∃ d2, confirm_delivery dg tok t d1 = (Ok (mk_confirmation Confirmed (Z.of_nat (length sel))), d2) ∧
    (∀ r, r ∈ sel → r ∈ situations d ∧ deliver_row t r ∈ situations d2) ∧
    deliveries d2 ≡ₚ deliveries d ++ ((λ r, mk_delivery (id r) t (priority r)) <$> sel) ∧
    ∀ t', confirm_delivery dg tok t' d2 =
      (Ok (mk_confirmation AlreadyConfirmed (Z.of_nat (length sel))), d2).
Proof.
  intros Hok Hfresh Hres He Ht Hne.
  assert (db_ok d1) as Hok1 by (by apply (sound_reserve_for_delivery dg claim tok e _ _ _ Hres)).
  destruct (lease_then_confirm dg claim tok e t d sel d1 d1) as (d2 & Hc & Hr & Hd & Hrep); try done.
  exists d2. split_and!; try done. intros t'. by apply replay_run.
Qed.

(** C5. A confirmation is all or nothing. A token whose receipt is recorded answers that
    it was already confirmed, with the recorded count, and changes nothing. For any other
    token, if every row still leased under it is pending, and there are some, all of them
    are delivered, in id order, every other row keeps its content and the receipt is
    recorded; if none is left or one of them has changed meanwhile, it fails with a
    receipt error and changes nothing. *)
Theorem confirm_all_or_nothing dg tok t d :
  db_ok d →
  let rows := held_rows (dg tok) t d in
  match sql_find (λ r, bool_decide (rp_receipt_digest r = dg tok)) (receipts d) with
  | Some r =>
      confirm_delivery dg tok t d =
        (Ok (mk_confirmation AlreadyConfirmed (rp_delivered_count r)), d)
  | None =>
      if bool_decide (rows ≠ []) && forallb (in_state Pending) rows then
        ∃ d', confirm_delivery dg tok t d =
            (Ok (mk_confirmation Confirmed (Z.of_nat (length rows))), d') ∧
          (∀ r, r ∈ rows → deliver_row t r ∈ situations d') ∧
          (∀ r, r ∈ situations d → r ∉ rows → r ∈ situations d') ∧
          deliveries d' = deliveries d ++ ((λ r, mk_delivery (id r) t (priority r)) <$> rows) ∧
          receipts d' = receipts d ++ [mk_receipt (dg tok) (Z.of_nat (length rows)) t]
      else confirm_delivery dg tok t d = (Err DeliveryReceiptError, d)
  end.
Proof.
  intros Hok rows. destruct (sql_find _ (receipts d)) as [r|] eqn:Hrec.
  { apply replay_run. unfold receipts_replay. by rewrite Hrec. }
  assert (receipts_replay (dg tok) d = None) as Hrep by (unfold receipts_replay; by rewrite Hrec).
  pose proof (confirm_run dg tok t d Hok Hrep) as Hrun.
  cbv zeta in Hrun. fold rows in Hrun. destruct (held_rows_spec (dg tok) t d Hok) as [_ Hin].
  fold rows in Hin. rewrite Hrun. destruct (decide (rows = [])) as [Hnil|Hne].
  - by rewrite (bool_decide_eq_false_2 (rows ≠ [])), (bool_decide_eq_true_2 (rows = [])) by tauto.
  - rewrite (bool_decide_eq_true_2 (rows ≠ [])), (bool_decide_eq_false_2 (rows = [])) by done.
    simpl. destruct (forallb _ rows); [|done]. eexists. split; [done|].
    split_and!; [|intros r Hr Hno; by apply unconfirmed_row|done..].
    intros r Hr. apply confirmed_row; auto.
Qed.

(** ** A concrete day: one critical conflict, one reply, one occasion; a budget of one *)

Definition sample_db : db :=
  run_calls (λ _, "") (λ t, t)
    [CallUpsert sample_day [sample_detection; sample_conflict; sample_occasion]] empty_db.
Definition sample_claim : DeliveryClaim :=
  mk_delivery_claim (utc_iso (sample_day + 60000000)) (utc_iso (sample_day - US_PER_DAY))
    (utc_iso (sample_day - 3600000000)) (utc_iso (sample_day + 72000000000)) 1 true.
Definition sample_lease_end : text := utc_iso (sample_day + 180000000).

Lemma sample_db_ok : db_ok sample_db.
Proof. apply sound_run_calls, db_ok_empty. Qed.

Lemma claim_refines_greedy_witness :
  id <$> claim_selection sample_claim sample_db = [2; 3] ∧
  (claim_for_delivery sample_claim sample_db).1 =
    Ok (deliver_row (dc_delivered_at sample_claim) <$> claim_selection sample_claim sample_db).
Proof.
  split; [vm_compute; reflexivity|].
  exact (f_equal fst (claim_refines_greedy sample_claim sample_db sample_db_ok)).
Defined.

Lemma claim_respects_daily_limits_witness :
  day_deliveries sample_claim (claim_for_delivery sample_claim sample_db).2 ≤ 1.
Proof.
  refine (proj1 (claim_respects_daily_limits sample_claim sample_db sample_db_ok _)).
  vm_compute. reflexivity.
Defined.

Lemma claimed_rows_were_deliverable_witness :
  ∃ rows d', claim_for_delivery sample_claim sample_db = (Ok rows, d') ∧
    ∃ sel, rows = deliver_row (dc_delivered_at sample_claim) <$> sel ∧
    sel `sublist_of` pending_for_delivery _MAX_DELIVERY_CANDIDATES sample_db ∧ NoDup (id <$> sel) ∧
    ∀ r, r ∈ sel → r ∈ situations sample_db ∧ deliverable sample_claim sample_db r = true ∧
      (dc_allow_noncritical sample_claim = true ∨ priority r = Critical) ∧
      deliver_row (dc_delivered_at sample_claim) r ∈ situations d'.
Proof.
  eexists _, _. split; [by apply claim_run, sample_db_ok|].
  eapply claimed_rows_were_deliverable; [apply sample_db_ok|by apply claim_run, sample_db_ok].
Defined.

Definition sample_row (i : Z) : Situation :=
  default (mk_situation 0 ReplyDeadline SourceLocal None "" Pending High "" "" sample_evidence
    None "" "" None None None None None None false) (get_situation i sample_db).

Lemma critical_rows_always_claimed_witness :
  ∃ rows d', claim_for_delivery sample_claim sample_db = (Ok rows, d') ∧
    deliver_row (dc_delivered_at sample_claim) (sample_row 2) ∈ rows.
Proof.
  apply (critical_rows_always_claimed sample_claim sample_db (sample_row 2) sample_db_ok).
  - vm_compute. left.
  - vm_compute. reflexivity.
  - vm_compute. reflexivity.
Defined.

Lemma reservation_respects_daily_limits_witness :
  let d' := (reserve_for_delivery (λ t, t) sample_claim "token" sample_lease_end sample_db).2 in
  day_deliveries sample_claim d' + day_leases sample_claim d' ≤ 1.
Proof.
  refine (reservation_respects_daily_limits (λ t, t) sample_claim "token" sample_lease_end sample_db
    sample_db_ok _ _); vm_compute; reflexivity.
Defined.

Definition sample_reserved : list Situation * db :=
  match reserve_for_delivery (λ t, t) sample_claim "token" sample_lease_end sample_db with
  | (Ok rv, d) => (rv_situations rv, d)
  | (Err _, d) => ([], d)
  end.

Lemma reserve_then_confirm_witness :
  ∃ d2, confirm_delivery (λ t, t) "token" (utc_iso (sample_day + 90000000)) sample_reserved.2 =
      (Ok (mk_confirmation Confirmed 2), d2) ∧
    (∀ r, r ∈ sample_reserved.1 → r ∈ situations sample_db ∧
       deliver_row (utc_iso (sample_day + 90000000)) r ∈ situations d2) ∧
    deliveries d2 ≡ₚ deliveries sample_db ++
      ((λ r, mk_delivery (id r) (utc_iso (sample_day + 90000000)) (priority r)) <$>
         sample_reserved.1) ∧
    ∀ t', confirm_delivery (λ t, t) "token" t' d2 =
      (Ok (mk_confirmation AlreadyConfirmed 2), d2).
Proof.
  refine (reserve_then_confirm (λ t, t) sample_claim "token" sample_lease_end _ sample_db
    sample_reserved.1 sample_reserved.2 sample_db_ok _ _ _ _ _).
  - split; intros x Hx; by apply elem_of_nil in Hx.
  - vm_compute. reflexivity.
  - vm_compute. reflexivity.
  - vm_compute. reflexivity.
  - vm_compute. discriminate.
Defined.

Lemma confirm_all_or_nothing_witness :
  confirm_delivery (λ t, t) "other" (utc_iso (sample_day + 90000000)) sample_db =
    (Err DeliveryReceiptError, sample_db).
Proof.
  refine (confirm_all_or_nothing (λ t, t) "other" (utc_iso (sample_day + 90000000)) sample_db
    sample_db_ok).
Defined.
