(* ===== verification/Attention.v ===== *)
(** The attention policy ([situations/policy.py]): quiet hours, the local day the
    budget is counted in, selection, and the claims and leases the policy requests
    from the store. *)
From S2P Require Import Prelude PyDate PyTime Models SourceSync Situations Delivery StateMachine DeliveryRefinement.
Import Reader Sql Store.
#[local] Open Scope Z_scope.

(** ** Settings and answers *)

(** [AttentionSettings]; times of day and the cooldown in microseconds. *)
(** [datetime.time]: the microseconds of the day, and the offset of an aware value. *)
Definition time : Type := Z * option Z.
Definition naive (clock : Z) : time := (clock, None).

Record AttentionSettings := mk_attention_settings {
  quiet_hours_start : time;
  quiet_hours_end : time;
  daily_budget : Z;
  cooldown : timedelta;
  timezone : option text;
}.

Definition default_attention : AttentionSettings :=
  mk_attention_settings (naive (21 * US_PER_HOUR)) (naive (7 * US_PER_HOUR)) 4
    (24 * US_PER_HOUR) None.

Record BudgetUsage := mk_budget_usage {
  bu_used : Z;
  bu_remaining : Z;
  bu_daily_budget : Z;
}.

(** Aware times are compared by their clock less the whole seconds of their offset; a naive
    time equals no aware one, and ordering the two raises [TypeError]. *)
Definition time_key (t : time) : Z :=
  t.1 - match t.2 with Some o => o / US_PER_SECOND * US_PER_SECOND | None => 0 end.
Definition comparable (a b : time) : bool := Bool.eqb (bool_decide (a.2 = None)) (bool_decide (b.2 = None)).
Definition time_eqb (a b : time) : bool := comparable a b && (time_key a =? time_key b).
Definition time_ltb (a b : time) : res time_error bool :=
  if comparable a b then Ok (time_key a <? time_key b) else Err TypeError.
Definition time_leb (a b : time) : res time_error bool :=
  if comparable a b then Ok (time_key a <=? time_key b) else Err TypeError.

Definition is_quiet_time (local_time start stop : time) : res time_error bool :=
  if time_eqb start stop then mret false else
  within ← time_ltb start stop;
  started ← time_leb start local_time;
  if within : bool then (if started : bool then time_ltb local_time stop else mret false)
  else if started : bool then mret true else time_ltb local_time stop.

Definition _PRIORITY_RANK (p : SituationPriority) : Z :=
  match p with Critical => 0 | High => 1 | Routine => 2 end.
Definition _DELIVERY_CLAIM_LEASE : timedelta := 2 * US_PER_MINUTE.

Definition _delivery_order (r : Situation) : list sql_key :=
  [KInt (_PRIORITY_RANK (priority r)); KText (detected_at r); KInt (id r)].

Section Policy.
Context (settings : AttentionSettings) (tz : tzinfo).

Definition quiet_state (now : instant) : res time_error bool :=
  local_now ← astimezone now tz;
  is_quiet_time (naive (time_of_day local_now)) (quiet_hours_start settings)
    (quiet_hours_end settings).

(** The [DeliveryClaim] both requests send. *)
Definition delivery_claim (now : instant) : res time_error DeliveryClaim :=
  local_today ← local_date now tz;
  cooldown_after ← dt_add now (- cooldown settings);
  day_start ← local_day_start local_today tz;
  day_end ← local_day_end local_today tz;
  quiet ← quiet_state now;
  mret (mk_delivery_claim (utc_iso now) (utc_iso cooldown_after) (utc_iso day_start)
          (utc_iso day_end) (daily_budget settings) (negb quiet)).

Definition policy_claim_for_delivery (now : instant) : op (list Situation) :=
  claim ← lift_time (delivery_claim now);
  claim_for_delivery claim.

(** [claim_token] is [token_urlsafe(32)]. *)
Definition policy_reserve_for_delivery (receipt_digest : text → text) (claim_token : text)
    (now : instant) : op DeliveryReservation :=
  claim ← lift_time (delivery_claim now);
  expires_at ← lift_time (dt_add now _DELIVERY_CLAIM_LEASE);
  reserve_for_delivery receipt_digest claim claim_token (utc_iso expires_at).

Definition budget_usage (now : instant) : op BudgetUsage :=
  local_today ← lift_time (local_date now tz);
  day_start ← lift_time (local_day_start local_today tz);
  day_end ← lift_time (local_day_end local_today tz);
  delivered ← gets (count_delivered_between (utc_iso day_start) (utc_iso day_end));
  reserved ← gets (count_reserved_between (utc_iso day_start) (utc_iso day_end) (utc_iso now));
  let used := delivered + reserved in
  mret (mk_budget_usage used (Z.max 0 (daily_budget settings - used)) (daily_budget settings)).

(** [datetime.fromisoformat] raises [ValueError] on other texts. *)
Definition _cooling_down (r : Situation) (now : instant) : res time_error bool :=
  match delivered_at r with
  | None => mret false
  | Some delivered =>
    if bool_decide (is_Some (snoozed_until r)) then mret false else
    match fromisoformat delivered with
    | None => Err ValueError
    | Some delivered => boundary ← dt_add now (- cooldown settings); mret (boundary <? delivered)
    end
  end.

Fixpoint select_candidates (muted : list SituationType) (now : instant) (rows : list Situation)
    : res time_error (list Situation) :=
  match rows with
  | [] => mret []
  | r :: rest =>
    if bool_decide (situation_type r ∈ muted) then select_candidates muted now rest else
    cooling ← _cooling_down r now;
    others ← select_candidates muted now rest;
    mret (if cooling : bool then others else r :: others)
  end.

Definition select_for_delivery (now : instant) : op (list Situation) :=
  muted ← gets muted_types;
  rows ← list_page (Some Pending) 0 20;
  candidates ← lift_time (select_candidates muted now rows);
  let candidates := order_by _delivery_order candidates in
  let critical := sql_select (λ c, is_critical (priority c)) candidates in
  let others := sql_select (λ c, negb (is_critical (priority c))) candidates in
  quiet ← lift_time (quiet_state now);
  if quiet : bool then mret critical else
  usage ← budget_usage now;
  mret (critical ++ take (Z.to_nat (bu_remaining usage)) others).
End Policy.

(** ** Quiet hours *)

(** The minutes after [start], around the clock, before [stop] is reached. *)
Definition quiet_reference (local_time start stop : Z) : bool :=
  (local_time - start) mod US_PER_DAY <? (stop - start) mod US_PER_DAY.

Lemma is_quiet_time_reference t start stop :
  0 ≤ t < US_PER_DAY → 0 ≤ start < US_PER_DAY → 0 ≤ stop < US_PER_DAY →
  is_quiet_time (naive t) (naive start) (naive stop) = Ok (quiet_reference t start stop).
Proof.
  unfold is_quiet_time, time_eqb, time_ltb, time_leb, time_key, quiet_reference, US_PER_DAY, mret,
    mbind, res_bind, res_ret. simpl. rewrite !Z.sub_0_r. intros Ht Hs He.
  assert (∀ a b, 0 ≤ a < 86400000000 → 0 ≤ b < 86400000000 →
    (a - b) mod 86400000000 = if b <=? a then a - b else a - b + 86400000000) as Hmod.
  { intros a b Ha Hb. destruct (Z.leb_spec b a).
    - apply Z.mod_small. lia.
    - symmetry. apply (Z.mod_unique _ _ (-1)); lia. }
  rewrite !Hmod by done.
  destruct (Z.eqb_spec start stop), (Z.ltb_spec start stop), (Z.leb_spec start t),
    (Z.leb_spec start stop); simpl; try lia.
  all: f_equal; destruct (Z.ltb_spec t stop); simpl; symmetry; first [apply Z.ltb_lt; lia|apply Z.ltb_ge; lia].
Qed.

(** A bound with an offset, which [time.fromisoformat] also reads, cannot be compared with the
    naive clock: unless both bounds denote the same time, every request of the policy raises. *)
Lemma aware_quiet_hours_raise t start stop :
  time_eqb start stop = false → start.2 ≠ None ∨ stop.2 ≠ None →
  is_quiet_time (naive t) start stop = Err TypeError.
Proof.
  unfold is_quiet_time, time_ltb, time_leb, comparable. intros -> Haware. cbn [naive snd].
  rewrite (bool_decide_eq_true_2 (None = None)) by done.
  destruct (bool_decide_reflect (start.2 = None)), (bool_decide_reflect (stop.2 = None)); simpl;
    [tauto|done|done|done].
Qed.

(** Quiet hours hold exactly during the half-open stretch of the clock from [start] to
    [stop], whether or not it crosses midnight; equal bounds disable them. *)
Theorem quiet_hours_are_a_clock_interval t start stop :
  0 ≤ t < US_PER_DAY → 0 ≤ start < US_PER_DAY → 0 ≤ stop < US_PER_DAY →
  is_quiet_time (naive t) (naive start) (naive stop) = Ok (quiet_reference t start stop).
Proof. apply is_quiet_time_reference. Qed.

Lemma quiet_hours_are_a_clock_interval_witness :
  is_quiet_time (naive (22 * US_PER_HOUR)) (naive (21 * US_PER_HOUR)) (naive (7 * US_PER_HOUR)) =
    Ok (quiet_reference (22 * US_PER_HOUR) (21 * US_PER_HOUR) (7 * US_PER_HOUR)) ∧
  quiet_reference (22 * US_PER_HOUR) (21 * US_PER_HOUR) (7 * US_PER_HOUR) = true.
Proof.
  split; [|reflexivity]. apply quiet_hours_are_a_clock_interval; unfold US_PER_DAY, US_PER_HOUR; lia.
Defined.

(** ** The budget, end to end *)

(** An instant that lies in the local day its wall clock shows: not before the instant the
    day's first midnight is converted to, and before the one of the next midnight.  A zone
    breaks it only around a midnight its clock is set back across, when the wall clock
    still or again shows the day before. *)
Definition in_local_day (tz : tzinfo) (now : instant) : Prop := ∀ wall start stop,
  astimezone now tz = Ok wall → local_day_start (instant_date wall) tz = Ok start →
  local_day_end (instant_date wall) tz = Ok stop → start ≤ now < stop.

Section Budget.
Context (settings : AttentionSettings) (tz : tzinfo).

Lemma delivery_claim_inv now claim :
  delivery_claim settings tz now = Ok claim →
  ∃ wall start stop quiet,
    astimezone now tz = Ok wall ∧ quiet_state settings tz now = Ok quiet ∧
    local_day_start (instant_date wall) tz = Ok start ∧
    local_day_end (instant_date wall) tz = Ok stop ∧
    dc_delivered_at claim = utc_iso now ∧ dc_local_day_start claim = utc_iso start ∧
    dc_local_day_end claim = utc_iso stop ∧ dc_daily_budget claim = daily_budget settings ∧
    dc_allow_noncritical claim = negb quiet.
Proof.
  unfold delivery_claim, local_date. intros H. res_inv H.
  apply (proj1 (res_bind_ok _ _ _)) in Hx as (wall & Hw & [= <-]).
  injection H as <-. by exists wall, x1, x2, x3.
Qed.

Lemma wall_midnight_of w : wall_midnight (instant_date w) = w / US_PER_DAY * US_PER_DAY.
Proof. unfold wall_midnight, instant_date. rewrite toordinal_fromordinal. ring. Qed.

Lemma day_floor w : w / US_PER_DAY * US_PER_DAY ≤ w < w / US_PER_DAY * US_PER_DAY + US_PER_DAY.
Proof. unfold US_PER_DAY. Z.div_mod_to_equations. lia. Qed.

Lemma wall_midnight_next d next :
  add_days d 1 = Ok next → wall_midnight next = wall_midnight d + US_PER_DAY.
Proof.
  unfold add_days. destruct (_ && _); [|discriminate]. intros [= <-].
  unfold wall_midnight. rewrite toordinal_fromordinal. ring.
Qed.

Lemma local_day_start_ok d s :
  local_day_start d tz = Ok s →
  in_range s = true ∧ s = wall_midnight d - wall_offset tz (wall_midnight d).
Proof. unfold local_day_start. intros [Hr ->]%dt_add_ok. by rewrite Z.add_opp_r in *. Qed.

Lemma local_day_window wall start stop :
  local_day_start (instant_date wall) tz = Ok start →
  local_day_end (instant_date wall) tz = Ok stop →
  in_range start = true ∧ in_range stop = true.
Proof.
  intros [Hs _]%local_day_start_ok He.
  by apply (proj1 (res_bind_ok _ _ _)) in He as (next & _ & [Her _]%local_day_start_ok).
Qed.

(** The offsets of a zone agree around an instant: the wall clock is past a midnight exactly
    from the instant that midnight is converted to. *)
Lemma agreeing_offsets_in_local_day now :
  (∀ d, wall_midnight d ≤ now + utcoffset tz now ↔
        wall_midnight d - wall_offset tz (wall_midnight d) ≤ now) →
  in_local_day tz now.
Proof.
  intros Hzone wall start stop [_ ->]%dt_add_ok [_ ->]%local_day_start_ok He.
  apply (proj1 (res_bind_ok _ _ _)) in He as (next & Hnext%wall_midnight_next & He).
  apply local_day_start_ok in He as [_ ->]. rewrite wall_midnight_of in Hnext.
  pose proof (proj1 (Hzone (instant_date (now + utcoffset tz now)))) as Hz1.
  pose proof (proj2 (Hzone next)) as Hz2. rewrite wall_midnight_of in *.
  pose proof (day_floor (now + utcoffset tz now)). lia.
Qed.

(** The day window the policy computes then contains the instant it acts at. *)
Lemma delivery_claim_counted now claim :
  in_local_day tz now → in_range now = true → delivery_claim settings tz now = Ok claim →
  day_counted claim = true.
Proof.
  intros Hday Hnow (wall & start & stop & quiet & Hw & _ & Hs & He & Ha & Hb & Hc & _)%delivery_claim_inv.
  destruct (local_day_window wall start stop Hs He) as (Hsr & Her).
  destruct (Hday wall start stop Hw Hs He) as [Hlo Hhi].
  unfold day_counted, in_window. rewrite Ha, Hb, Hc.
  rewrite (utc_iso_leb _ _ Hsr Hnow), (utc_iso_ltb _ _ Hnow Her).
  apply andb_true_iff. by rewrite Z.leb_le, Z.ltb_lt.
Qed.

Lemma budget_usage_run now claim d :
  delivery_claim settings tz now = Ok claim →
  let used := day_deliveries claim d + day_leases claim d in
  budget_usage settings tz now d =
    (Ok (mk_budget_usage used (Z.max 0 (daily_budget settings - used)) (daily_budget settings)), d).
Proof.
  intros (wall & start & stop & quiet & Hw & _ & Hs & He & Ha & Hb & Hc & _)%delivery_claim_inv.
  assert (local_date now tz = Ok (instant_date wall)) as Hdate
    by (unfold local_date; by rewrite Hw).
  unfold budget_usage.
  rewrite (lift_time_bind _ _ _ _ Hdate), (lift_time_bind _ _ _ _ Hs), (lift_time_bind _ _ _ _ He).
  step.
  unfold day_deliveries, day_leases, mret, M_ret. by rewrite Ha, Hb, Hc.
Qed.
End Budget.

Lemma fixed_offset_in_local_day o now : in_local_day (fixed_offset o) now.
Proof. apply agreeing_offsets_in_local_day. intros d. simpl. lia. Qed.

Lemma lease_lifetime now e :
  in_range now = true → dt_add now _DELIVERY_CLAIM_LEASE = Ok e →
  text_ltb (utc_iso now) (utc_iso e) = true.
Proof.
  intros Hnow [He ->]%dt_add_ok. rewrite (utc_iso_ltb _ _ Hnow He). apply Z.ltb_lt.
  unfold _DELIVERY_CLAIM_LEASE, US_PER_MINUTE. lia.
Qed.

(** What a policy request runs in the store. *)
Lemma policy_reserve_runs settings tz dg tok now d rv d' :
  in_range now = true →
  policy_reserve_for_delivery settings tz dg tok now d = (Ok rv, d') →
  ∃ claim e, delivery_claim settings tz now = Ok claim ∧
    dt_add now _DELIVERY_CLAIM_LEASE = Ok e ∧ dc_delivered_at claim = utc_iso now ∧
    text_ltb (dc_delivered_at claim) (utc_iso e) = true ∧
    reserve_for_delivery dg claim tok (utc_iso e) d = (Ok rv, d').
Proof.
  intros Hnow H. unfold policy_reserve_for_delivery in H.
  apply (proj1 (bind_ok _ _ _ _ _)) in H as (claim & d1 & Hc & H).
  apply (proj1 (bind_ok _ _ _ _ _)) in H as (e & d2 & He & H).
  apply lift_time_ok in Hc as [Hclaim ->], He as [Hexp ->].
  pose proof (delivery_claim_inv _ _ _ _ Hclaim) as (? & ? & ? & ? & _ & _ & _ & _ & Hat & _).
  exists claim, e. split_and!; try done. rewrite Hat. by apply lease_lifetime.
Qed.

Lemma policy_reserve_inv settings tz dg tok now d rv d' :
  db_ok d → in_range now = true →
  policy_reserve_for_delivery settings tz dg tok now d = (Ok rv, d') →
  ∃ claim e, delivery_claim settings tz now = Ok claim ∧
    dt_add now _DELIVERY_CLAIM_LEASE = Ok e ∧ dc_delivered_at claim = utc_iso now ∧
    text_ltb (dc_delivered_at claim) (utc_iso e) = true ∧
    d' = (reserve_for_delivery dg claim tok (utc_iso e) d).2 ∧
    rv_situations rv = lease_selection claim (without_lapsed_leases (utc_iso now) d).
Proof.
  intros Hok Hnow (claim & e & Hclaim & Hexp & Hat & Hlt & H)%policy_reserve_runs; [|done].
  exists claim, e. do 4 (split; [done|]). split; [by rewrite H|].
  rewrite reserve_run in H by done. injection H as <- _. by rewrite Hat.
Qed.

(** C17. A reservation at an instant of its own local day adds no more non-critical leases
    than the daily budget leaves: after it, the day's non-critical deliveries and leases,
    as [budget_usage] reports them, are at most the budget, or, if there were more before
    it, at most what there were.  At any instant, a reservation during quiet hours leases
    critical rows only. *)
Theorem policy_reservation_stays_in_budget settings tz dg tok now d rv d' :
  db_ok d → in_range now = true →
  policy_reserve_for_delivery settings tz dg tok now d = (Ok rv, d') →
  ∃ before after,
    budget_usage settings tz now d = (Ok before, d) ∧
    budget_usage settings tz now d' = (Ok after, d') ∧
    (in_local_day tz now → bu_used after ≤ Z.max (bu_used before) (daily_budget settings)) ∧
    (quiet_state settings tz now = Ok true → ∀ r, r ∈ rv_situations rv → priority r = Critical).
Proof.
  intros Hok Hnow Hrun.
  destruct (policy_reserve_inv _ _ _ _ _ _ _ _ Hok Hnow Hrun)
    as (claim & e & Hclaim & _ & Hat & Hlt & -> & Hrv).
  pose proof (delivery_claim_inv _ _ _ _ Hclaim)
    as (? & ? & ? & quiet & _ & Hquiet & _ & _ & _ & _ & _ & Hbud & Hallow).
  eexists _, _. split; [by apply (budget_usage_run settings tz now claim)|].
  split; [by apply (budget_usage_run settings tz now claim)|]. split.
  - intros Hday. cbn [bu_used]. rewrite <- Hbud. apply reservation_limits; [done| |done].
    by apply (delivery_claim_counted settings tz now claim).
  - intros Hq r Hr. rewrite Hrv in Hr. apply lease_selection_in in Hr as (_ & _ & _ & Hskip).
    unfold skip_candidate, is_critical in Hskip. rewrite Hallow in Hskip.
    rewrite Hq in Hquiet. injection Hquiet as <-. simpl in Hskip.
    by apply negb_false_iff, bool_decide_eq_true in Hskip.
Qed.

Lemma policy_reservation_stays_in_budget_witness :
  let settings := mk_attention_settings (naive (21 * US_PER_HOUR)) (naive (7 * US_PER_HOUR)) 1 (24 * US_PER_HOUR) None in
  in_local_day UTC (sample_day + 60000000) ∧
  ∃ rv d', policy_reserve_for_delivery settings UTC (λ t, t) "token" (sample_day + 60000000)
      sample_db = (Ok rv, d') ∧
    ∃ before after,
      budget_usage settings UTC (sample_day + 60000000) sample_db = (Ok before, sample_db) ∧
      budget_usage settings UTC (sample_day + 60000000) d' = (Ok after, d') ∧
      (in_local_day UTC (sample_day + 60000000) → bu_used after ≤ Z.max (bu_used before) 1) ∧
      (quiet_state settings UTC (sample_day + 60000000) = Ok true →
       ∀ r, r ∈ rv_situations rv → priority r = Critical).
Proof.
  split; [apply fixed_offset_in_local_day|].
  eexists _, _. split; [vm_compute; reflexivity|].
  refine (policy_reservation_stays_in_budget
    (mk_attention_settings (naive (21 * US_PER_HOUR)) (naive (7 * US_PER_HOUR)) 1 (24 * US_PER_HOUR) None) UTC
    (λ t, t) "token" (sample_day + 60000000) sample_db _ _ sample_db_ok _ _).
  - vm_compute. reflexivity.
  - vm_compute. reflexivity.
Defined.
