(* ===== verification/Responses.v ===== *)
(** The answers of the delivery tools ([server/situation_responses.py]): the records a client
    receives, and how source states, generations and situations are projected into them.  The
    serialization of the records to JSON is pydantic's. *)
From S2P Require Import Prelude PyDate PyTime Models SourceSync Situations Attention.
Import Diagnostics Freshness.
#[local] Open Scope Z_scope.

(** ** The axes of a source *)

Inductive SourceAuthorizationState :=
  | AuthNotConfigured | AuthConfigured | AuthNeedsReauth | AuthScopeMismatch
  | AuthCredentialMissing | AuthCredentialUnavailable.
#[export] Instance SourceAuthorizationState_eq_dec : EqDecision SourceAuthorizationState.
Proof. solve_decision. Defined.
Inductive SourceDataFreshnessState := DataNeverSynced | DataFresh | DataStale.
#[export] Instance SourceDataFreshnessState_eq_dec : EqDecision SourceDataFreshnessState.
Proof. solve_decision. Defined.
Inductive SourceReadState :=
  | ReadNeverAttempted | ReadComplete | ReadPartial | ReadAuthError | ReadTransportError
  | ReadResourceError | ReadParseError.
#[export] Instance SourceReadState_eq_dec : EqDecision SourceReadState.
Proof. solve_decision. Defined.
Inductive SourceGenerationProjectionState :=
  GenerationCurrent | GenerationSyncing | GenerationDegraded | GenerationInterrupted.
#[export] Instance SourceGenerationProjectionState_eq_dec : EqDecision SourceGenerationProjectionState.
Proof. solve_decision. Defined.
Inductive SituationDeliveryState := Available | Leased | HostConfirmed | NotApplicable.
#[export] Instance SituationDeliveryState_eq_dec : EqDecision SituationDeliveryState.
Proof. solve_decision. Defined.
Definition _GENERATION_INTERRUPTED_AFTER : timedelta := 10 * US_PER_MINUTE.

Record SourceGenerationResponse := mk_generation_response {
  grs_state : SourceGenerationProjectionState;
  grs_issued : Z;
  grs_applied : Z;
  grs_applied_status : option SourceGenerationStatus;
  grs_issued_at : option text;
}.

Record SourceFreshnessResponse := mk_freshness_response {
  sfr_status : SourceFreshnessStatus;
  sfr_last_success_at : option text;
  sfr_last_attempt_at : option text;
  sfr_age_seconds : option Z;
  sfr_error_code : option SourceErrorCode;
  sfr_authorization : SourceAuthorizationState;
  sfr_freshness : SourceDataFreshnessState;
  sfr_read : SourceReadState;
  sfr_generation : SourceGenerationResponse;
}.

(** [reason_counts] is a [dict]: one count per reason. *)
Record SourceReadDiagnosticsResponse := mk_diagnostics_response {
  drs_outcome : SourceReadOutcome;
  drs_request_count : Z;
  drs_page_count : Z;
  drs_projected_count : Z;
  drs_excluded_count : Z;
  drs_byte_budget : Z;
  drs_reason_counts : list (SourceReadReason * Z);
}.
Record GmailFreshnessResponse := mk_gmail_freshness_response {
  gfr_source : SourceFreshnessResponse;
  gfr_diagnostics : SourceReadDiagnosticsResponse;
}.
Record GoogleFreshnessResponse := mk_google_response {
  ggl_gmail : GmailFreshnessResponse;
  ggl_calendar : SourceFreshnessResponse;
}.

(** Stored instants are in UTC. *)
Definition _timestamp (value : option Z) : option text := utc_iso <$> value.

Definition _authorization_state (f : SourceFreshness) (state : option SourceSyncState)
    : SourceAuthorizationState :=
  if bool_decide (fr_error_code f = Some scope_mismatch) then AuthScopeMismatch else
  match state with
  | Some st =>
    match auth_state st with
    | NotConfigured => AuthNotConfigured | Configured => AuthConfigured | NeedsReauth => AuthNeedsReauth
    end
  | None =>
    match fr_status f with
    | FreshNotConfigured => AuthNotConfigured
    | FreshNeedsReauth => AuthNeedsReauth
    | _ => AuthConfigured
    end
  end.

Definition _data_freshness_state (f : SourceFreshness) (now : option instant) : SourceDataFreshnessState :=
  match fr_last_success_at f with
  | None => DataNeverSynced
  | Some success =>
    if match now with Some now => DEFAULT_STALE_AFTER <=? now - success | None => false end
    then DataStale
    else if bool_decide (fr_status f = Stale) then DataStale else DataFresh
  end.

Definition _read_state (f : SourceFreshness) : SourceReadState :=
  match fr_error_code f with
  | None => if bool_decide (fr_last_success_at f = None) then ReadNeverAttempted else ReadComplete
  | Some (invalid_grant | scope_mismatch | http_4xx) => ReadAuthError
  | Some resource_limit => ReadResourceError
  | Some degraded => ReadPartial
  | Some _ => ReadTransportError
  end.

Definition _diagnostic_read_state (outcome : SourceReadOutcome) : SourceReadState :=
  match outcome with
  | OutcomeHealthy => ReadComplete
  | OutcomePartial => ReadPartial
  | OutcomeStale => ReadNeverAttempted
  | OutcomeAuthError => ReadAuthError
  | OutcomeTransportError => ReadTransportError
  end.

(** [datetime.fromisoformat] of the issued text raises [ValueError] on other texts. *)
Definition _generation_response (generation : option SourceGenerationState) (now : option instant)
    : res time_error SourceGenerationResponse :=
  match generation with
  | None => mret (mk_generation_response GenerationCurrent 0 0 None None)
  | Some g =>
    state ← (
      if gs_applied g <? gs_issued g then
        match gs_issued_at g, now with
        | None, _ => mret GenerationInterrupted
        | Some _, None => mret GenerationSyncing
        | Some t, Some now =>
          match fromisoformat t with
          | None => Err ValueError
          | Some issued_at =>
            mret (if _GENERATION_INTERRUPTED_AFTER <? now - issued_at
                  then GenerationInterrupted else GenerationSyncing)
          end
        end
      else if bool_decide (gs_status g = Some Degraded) then mret GenerationDegraded
      else mret GenerationCurrent);
    mret (mk_generation_response state (gs_issued g) (gs_applied g) (gs_status g) (gs_issued_at g))
  end.

Definition freshness_response (f : SourceFreshness) (sync_state : option SourceSyncState)
    (generation : option SourceGenerationState) (now : option instant)
    (read_state : option SourceReadState) (authorization_override : option SourceAuthorizationState)
    : res time_error SourceFreshnessResponse :=
  generation ← _generation_response generation now;
  mret (mk_freshness_response (fr_status f) (_timestamp (fr_last_success_at f))
    (_timestamp (fr_last_attempt_at f)) (fr_age_seconds f) (fr_error_code f)
    (default (_authorization_state f sync_state) authorization_override)
    (_data_freshness_state f now) (default (_read_state f) read_state) generation).

(** ** Gmail's diagnostics *)

(** Setting a key of the [dict] again keeps its place. *)
Fixpoint count_set (reason : SourceReadReason) (n : Z) (counts : list (SourceReadReason * Z))
    : list (SourceReadReason * Z) :=
  match counts with
  | [] => [(reason, n)]
  | (r, m) :: rest => if bool_decide (r = reason) then (r, n) :: rest else (r, m) :: count_set reason n rest
  end.
Definition source_read_diagnostics_response (g : SourceReadDiagnostics) : SourceReadDiagnosticsResponse :=
  mk_diagnostics_response (dg_outcome g) (dg_request_count g) (dg_page_count g) (dg_projected_count g)
    (dg_excluded_count g) (dg_byte_budget g)
    (foldl (λ acc c, count_set (rc_reason c) (rc_count c) acc) [] (dg_reason_counts g)).

Definition _status_diagnostics (outcome : SourceReadOutcome) (reason : option SourceReadReason)
    : SourceReadDiagnostics :=
  mk_diagnostics outcome 0 0 0 0 GMAIL_READ_BYTE_BUDGET
    (match reason with None => [] | Some r => [mk_reason_count r 1] end).

Definition gmail_freshness_diagnostics (f : SourceFreshness) : SourceReadDiagnostics :=
  match fr_status f with
  | FreshOk => _status_diagnostics OutcomeHealthy None
  | Stale => _status_diagnostics OutcomeStale (Some stale)
  | FreshNotConfigured => _status_diagnostics OutcomeStale (Some not_configured)
  | NeverSynced => _status_diagnostics OutcomeStale (Some never_synced)
  | FreshNeedsReauth =>
    _status_diagnostics OutcomeAuthError (Some (ReasonError (default invalid_grant (fr_error_code f))))
  | FreshError => source_failure_diagnostics (default unknown (fr_error_code f))
  end.

Definition google_freshness_response (gmail calendar : SourceFreshness)
    (gmail_diagnostics : option SourceReadDiagnostics) (gmail_state calendar_state : option SourceSyncState)
    (gmail_generation calendar_generation : option SourceGenerationState) (now : option instant)
    (authorization_override : option SourceAuthorizationState) : res time_error GoogleFreshnessResponse :=
  let diagnostics := default (gmail_freshness_diagnostics gmail) gmail_diagnostics in
  let read := if bool_decide (fr_error_code gmail = None)
              then _diagnostic_read_state (dg_outcome diagnostics) else _read_state gmail in
  g ← freshness_response gmail gmail_state gmail_generation now (Some read) authorization_override;
  c ← freshness_response calendar calendar_state calendar_generation now None authorization_override;
  mret (mk_google_response (mk_gmail_freshness_response g (source_read_diagnostics_response diagnostics)) c).

(** ** Situations *)

Record SituationEvidenceResponse := mk_evidence_response {
  evr_facts : dict;
  evr_quoted_external : dict;
  evr_quoted_memory : dict;
  evr_contradictory_dates : list text;
}.
Record SituationSourceResponse := mk_source_response { srs_name : SituationSource; srs_generation : option Z }.
Record SituationDeliveryResponse := mk_delivery_response {
  dls_state : SituationDeliveryState;
  dls_lease_expires_at : option text;
}.
Record SituationResponse := mk_situation_response {
  sir_id : Z;
  sir_situation_type : SituationType;
  sir_source : SituationSourceResponse;
  sir_state : SituationState;
  sir_delivery : SituationDeliveryResponse;
  sir_priority : SituationPriority;
  sir_title : text;
  sir_why_now : text;
  sir_detected_at : text;
  sir_delivered_at : option text;
  sir_snoozed_until : option text;
  sir_expires_at : option text;
  sir_evidence : SituationEvidenceResponse;
}.

Definition _situation_delivery_state (r : Situation) (lease_expires_at : option text)
    : SituationDeliveryState :=
  match state r with
  | Pending => if bool_decide (lease_expires_at = None) then Available else Leased
  | Delivered | Acknowledged | Snoozed =>
    if bool_decide (delivered_at r = None) then NotApplicable else HostConfirmed
  | _ => NotApplicable
  end.

Definition situation_response (r : Situation) (lease_expires_at : option text) : SituationResponse :=
  mk_situation_response (id r) (situation_type r) (mk_source_response (source_name r) (source_generation r))
    (state r) (mk_delivery_response (_situation_delivery_state r lease_expires_at) lease_expires_at)
    (priority r) (title r) (why_now r) (detected_at r) (delivered_at r) (snoozed_until r) (expires_at r)
    (mk_evidence_response (facts (evidence r)) (quoted_external (evidence r)) (quoted_memory (evidence r))
       (contradictory_dates (evidence r))).

Record BudgetResponse := mk_budget_response { brs_used : Z; brs_remaining : Z; brs_daily_budget : Z }.
Definition budget_response (usage : BudgetUsage) : BudgetResponse :=
  mk_budget_response (bu_used usage) (bu_remaining usage) (bu_daily_budget usage).

(** ** Answers *)

Inductive MuteScope := ScopeInstance | ScopeType.
Inductive ConfirmStatus := AnswerConfirmed | AnswerAlreadyConfirmed | AnswerInvalidOrExpired.

Record ProactiveCheckResponse := mk_check_response {
  pcr_requires_confirmation : bool;
  pcr_situations : list SituationResponse;
  pcr_receipt_token : option text;
  pcr_freshness : GoogleFreshnessResponse;
  pcr_budget : BudgetResponse;
  pcr_held_count : Z;
  pcr_warnings : list text;
  pcr_all_clear : bool;
}.
Record ListSituationsResponse := mk_list_response {
  lsr_items : list SituationResponse;
  lsr_next_after_id : option Z;
}.
Record ConfirmDeliveryResponse := mk_confirm_response {
  cdr_status : ConfirmStatus;
  cdr_delivered_count : Z;
}.
Record MuteResponse := mk_mute_response {
  mtr_situation : SituationResponse;
  mtr_scope : MuteScope;
  mtr_muted_types : list SituationType;
}.

(** ** The axes and the status *)

(** A source is [ok] exactly when every axis of its answer is good: it is configured, its data
    is younger than a day, and its last read was complete. *)
Theorem axes_agree_with_status st now generation response :
  freshness_response (evaluate_source_freshness st now DEFAULT_STALE_AFTER) (Some st) generation (Some now)
    None None = Ok response →
  sfr_status response = FreshOk ↔
  sfr_authorization response = AuthConfigured ∧ sfr_freshness response = DataFresh ∧
  sfr_read response = ReadComplete.
Proof.
  unfold freshness_response. intros H. res_inv H. injection H as <-. cbn [sfr_status sfr_authorization
    sfr_freshness sfr_read default from_option]. rewrite freshness_ok_cases.
  unfold _authorization_state, _data_freshness_state, _read_state.
  assert (fr_error_code (evaluate_source_freshness st now DEFAULT_STALE_AFTER) = last_error_code st) as ->.
  { unfold evaluate_source_freshness, _freshness. by destruct (_AUTH_STATUSES _), (last_error_code st), (last_success_at st). }
  assert (fr_last_success_at (evaluate_source_freshness st now DEFAULT_STALE_AFTER) = last_success_at st) as ->.
  { unfold evaluate_source_freshness, _freshness. by destruct (_AUTH_STATUSES _), (last_error_code st), (last_success_at st). }
  assert (∀ t, last_success_at st = Some t →
    fr_status (evaluate_source_freshness st now DEFAULT_STALE_AFTER) = Stale → DEFAULT_STALE_AFTER ≤ now - t) as Hstale.
  { intros t Ht. unfold evaluate_source_freshness, _freshness. rewrite Ht.
    destruct (auth_state st); simpl; try done. destruct (last_error_code st); simpl; try done.
    destruct (Z.leb_spec DEFAULT_STALE_AFTER (Z.quot (now - t) US_PER_SECOND * US_PER_SECOND)) as [Hq|]; [|done].
    intros _. revert Hq. unfold DEFAULT_STALE_AFTER, US_PER_HOUR, US_PER_SECOND.
    Z.to_euclidean_division_equations. lia. }
  destruct (last_success_at st) as [t|] eqn:Ht.
  - destruct (Z.leb_spec DEFAULT_STALE_AFTER (now - t)).
    + split; [|by intros (_ & ? & _)]. intros (_ & _ & ? & [= <-] & ?). lia.
    + rewrite (bool_decide_eq_false_2 (fr_status _ = Stale)) by (intros Hs; specialize (Hstale t eq_refl Hs); lia).
      destruct (auth_state st), (last_error_code st) as [[]|]; simpl; naive_solver.
  - split; [by intros (_ & _ & ? & ? & _)|by intros (_ & ? & _)].
Qed.

Definition sample_read_at : instant := 63909000000000000.
Definition sample_state : SourceSyncState :=
  mk_sync_state Gmail Configured (Some sample_read_at) (Some sample_read_at) None None.
Lemma axes_agree_with_status_witness :
  match freshness_response (evaluate_source_freshness sample_state (sample_read_at + US_PER_HOUR) DEFAULT_STALE_AFTER)
    (Some sample_state) None (Some (sample_read_at + US_PER_HOUR)) None None with
  | Ok r => sfr_status r = FreshOk ∧ sfr_authorization r = AuthConfigured ∧ sfr_freshness r = DataFresh ∧
      sfr_read r = ReadComplete
  | Err _ => False
  end.
Proof.
  destruct (freshness_response _ _ _ _ _ _) as [r|e] eqn:Hrun.
  - assert (sfr_status r = FreshOk) as Hok by (vm_compute in Hrun; injection Hrun as <-; reflexivity).
    split; [exact Hok|]. exact (proj1 (axes_agree_with_status _ _ _ _ Hrun) Hok).
  - vm_compute in Hrun. discriminate.
Defined.
