(* ===== verification/Fallback.v ===== *)
(** One-shot operating-system notifications: the claims and outcomes of
    [store/fallbacks.py] and [store/_fallback_sql.py], the isolated payload of
    [delivery/payload.py] and the dispatcher of [delivery/fallback.py]. *)
From S2P Require Import Prelude PyDate PyTime Models SourceSync Situations Delivery StateMachine.
Import Reader Sql.
#[local] Open Scope Z_scope.

(** ** Claims *)

Record FallbackClaim := mk_fallback_claim {
  fc_claimed_at : text;
  fc_detected_before : text;
  fc_priorities : list SituationPriority;
  fc_mode : FallbackClaimMode;
}.

Definition has_fallback (i : Z) (d : db) : bool :=
  sql_exists (λ f, fb_situation_id f =? i) (fallbacks d).

(** [_BASE_ELIGIBLE]: pending, old enough, unexpired, unmuted, never delivered, not leased
    now and never notified. *)
Definition base_eligible (claim : FallbackClaim) (d : db) (r : Situation) : bool :=
  in_state Pending r && text_leb (detected_at r) (fc_detected_before claim) &&
  unexpired (fc_claimed_at claim) r && negb (type_muted (situation_type r) d) &&
  negb (sql_exists (λ x, dl_situation_id x =? id r) (deliveries d)) &&
  negb (sql_exists (claim_active (id r) (fc_claimed_at claim)) (claims d)) &&
  negb (has_fallback (id r) d).

(** [_CONFIGURED_ELIGIBLE] and [_BOOTSTRAP_ELIGIBLE]. *)
Definition eligible (claim : FallbackClaim) (d : db) (r : Situation) : bool :=
  match fc_mode claim with
  | ModeConfigured => bool_decide (priority r ∈ fc_priorities claim) && base_eligible claim d r
  | ModeBootstrap =>
    base_eligible claim d r && bool_decide (deliveries d = []) && bool_decide (fallbacks d = [])
  end.

Definition _PRIORITY_CASE (p : SituationPriority) : Z :=
  match p with Critical => 0 | High => 1 | Routine => 2 end.

Definition fallback_order (mode : FallbackClaimMode) (r : Situation) : list sql_key :=
  match mode with
  | ModeConfigured => [KInt (_PRIORITY_CASE (priority r)); KText (detected_at r); KInt (id r)]
  | ModeBootstrap => [KText (detected_at r); KInt (id r)]
  end.

Definition candidates (claim : FallbackClaim) (d : db) : list Situation :=
  order_by (fallback_order (fc_mode claim)) (sql_select (eligible claim d) (situations d)).

(** The [INSERT ... SELECT] re-checks the row; the first insertion that took wins. *)
Fixpoint claim_first (claim : FallbackClaim) (rows : list Situation) : op (option Situation) :=
  match rows with
  | [] => mret None
  | candidate :: rest =>
    d ← gets (λ d, d);
    match sql_find (λ r, (id r =? id candidate) && eligible claim d r) (situations d) with
    | None => claim_first claim rest
    | Some r =>
      if has_fallback (id r) d then raise IntegrityError else
      modify (λ d, set_fallbacks (fallbacks d ++
        [mk_fallback (id r) (priority r) FallbackClaimed None (fc_claimed_at claim) None]) d);;
      mret (Some candidate)
    end
  end.

Definition claim_next (claim : FallbackClaim) : op (option Situation) :=
  immediate_transaction (rows ← gets (candidates claim); claim_first claim rows).

Definition open_claim (i : Z) (f : fallback_row) : bool :=
  (fb_situation_id f =? i) && bool_decide (fb_outcome f = FallbackClaimed).

Definition complete_row (outcome : FallbackOutcome) (code : option FallbackFailureCode)
    (completed_at : text) (f : fallback_row) : fallback_row :=
  mk_fallback (fb_situation_id f) (fb_priority f) outcome code (fb_claimed_at f)
    (Some completed_at).

Definition _complete (now : instant) (i : Z) (outcome : FallbackOutcome)
    (code : option FallbackFailureCode) : op unit :=
  immediate_transaction (
    n ← gets (λ d, sql_count (open_claim i) (fallbacks d));
    modify (λ d, set_fallbacks
      (sql_update (open_claim i) (complete_row outcome code (utc_iso now)) (fallbacks d)) d);;
    if n =? 0 then raise (FallbackNotClaimedError i) else mret tt).

Definition record_sent (now : instant) (i : Z) : op unit := _complete now i FallbackSent None.
Definition record_failed (now : instant) (i : Z) (code : FallbackFailureCode) : op unit :=
  _complete now i FallbackFailed (Some code).

Definition history (i : Z) (d : db) : option fallback_row :=
  sql_find (λ f, fb_situation_id f =? i) (fallbacks d).

Record FallbackSummary := mk_fallback_summary {
  fs_claimed : Z;
  fs_sent : Z;
  fs_failed : Z;
  fs_failure_codes : list FallbackFailureCode;
}.

Definition count_outcome (o : FallbackOutcome) (d : db) : Z :=
  sql_count (λ f, bool_decide (fb_outcome f = o)) (fallbacks d).

(** The distinct codes in text order. *)
Definition summary (d : db) : FallbackSummary :=
  mk_fallback_summary (count_outcome FallbackClaimed d) (count_outcome FallbackSent d)
    (count_outcome FallbackFailed d)
    (sql_select (λ c, sql_exists (λ f, bool_decide (fb_failure_code f = Some c)) (fallbacks d))
      [nonzero_exit; notify_timeout; tool_missing; notify_unknown; unsupported_platform]).

(** ** Notifications *)

Record NotificationPayload := mk_payload {
  np_situation_type : SituationType;
  np_title : text;
}.

(** Only the type reaches the notification. *)
Definition notification_payload (ty : SituationType) : NotificationPayload :=
  mk_payload ty
    match ty with
    | ReplyDeadline => "Reply needed"
    | CalendarConflict => "Calendar conflict"
    | PersonalOccasion => "Upcoming personal occasion"
    end%string.

Inductive NotificationErrorCode :=
  | NotifyTimeout | NotifyUnavailable | NotifyFailed | NotifyUnsupportedPlatform.

Definition _failure_code (c : NotificationErrorCode) : FallbackFailureCode :=
  match c with
  | NotifyTimeout => notify_timeout
  | NotifyUnavailable => tool_missing
  | NotifyFailed => nonzero_exit
  | NotifyUnsupportedPlatform => unsupported_platform
  end.

Inductive FallbackDispatch :=
  | Sent (situation_id : Z)
  | Failed (situation_id : Z) (failure_code : FallbackFailureCode).
Definition dispatched_id (x : FallbackDispatch) : Z :=
  match x with Sent i => i | Failed i _ => i end.

(** [FallbackSettings]. *)
Record FallbackSettings := mk_fallback_settings {
  fset_priorities : list SituationPriority;
  fset_wait : timedelta;
  fset_enabled : bool;
}.

Section Dispatch.
(** The operating system's notifier: its answer to the next payload, after the
    notifications already raised in this dispatch. *)
Context (notifier : list FallbackDispatch → NotificationPayload → option NotificationErrorCode).
(** The store's clock as each outcome is recorded, after the notifications already raised. *)
Context (clock : list FallbackDispatch → instant).
Context (settings : FallbackSettings).

Definition _notify (earlier : list FallbackDispatch) (r : Situation)
    : op FallbackDispatch :=
  match notifier earlier (notification_payload (situation_type r)) with
  | Some error =>
    record_failed (clock earlier) (id r) (_failure_code error);;
    mret (Failed (id r) (_failure_code error))
  | None => record_sent (clock earlier) (id r);; mret (Sent (id r))
  end.

Definition _claim (mode : FallbackClaimMode) (now : instant) : res time_error FallbackClaim :=
  detected_before ← dt_add now (- fset_wait settings);
  mret (mk_fallback_claim (utc_iso now) (utc_iso detected_before) (fset_priorities settings) mode).

(** [while True]; [None] when the fuel runs out. *)
Fixpoint dispatch_loop (fuel : nat) (claim : FallbackClaim)
    (dispatched : list FallbackDispatch) : op (option (list FallbackDispatch)) :=
  match fuel with
  | O => mret None
  | S fuel =>
    claimed ← claim_next claim;
    match claimed with
    | None => mret (Some dispatched)
    | Some r =>
      x ← _notify dispatched r;
      dispatch_loop fuel claim (dispatched ++ [x])
    end
  end.

Definition dispatch (fuel : nat) (now : instant) : op (option (list FallbackDispatch)) :=
  if negb (fset_enabled settings) || bool_decide (fset_priorities settings = []) then mret (Some [])
  else
    claim ← lift_time (_claim ModeConfigured now);
    bootstrap_claim ← lift_time (_claim ModeBootstrap now);
    bootstrap ← claim_next bootstrap_claim;
    dispatched ← match bootstrap with
                 | None => mret []
                 | Some r => x ← _notify [] r; mret [x]
                 end;
    dispatch_loop fuel claim dispatched.
End Dispatch.

(** ** One claim *)

Lemma eligible_base claim d r : eligible claim d r = true → base_eligible claim d r = true.
Proof. unfold eligible. destruct (fc_mode claim); rewrite !andb_true_iff; tauto. Qed.

Lemma base_eligible_fresh claim d r :
  base_eligible claim d r = true → has_fallback (id r) d = false.
Proof. unfold base_eligible. rewrite !andb_true_iff, !negb_true_iff. tauto. Qed.

Definition with_fallback (f : fallback_row) (d : db) : db :=
  set_fallbacks (fallbacks d ++ [f]) d.
Definition claimed_row (claim : FallbackClaim) (r : Situation) : fallback_row :=
  mk_fallback (id r) (priority r) FallbackClaimed None (fc_claimed_at claim) None.

Lemma elem_of_candidates claim d r :
  r ∈ candidates claim d ↔ r ∈ situations d ∧ eligible claim d r = true.
Proof. unfold candidates. rewrite elem_of_order_by, elem_of_sql_select. tauto. Qed.

Lemma claim_next_run claim d :
  db_ok d →
  claim_next claim d =
    match candidates claim d with
    | [] => (Ok None, d)
    | c :: _ => (Ok (Some c), with_fallback (claimed_row claim c) d)
    end.
Proof.
  intros Hok. unfold claim_next, immediate_transaction. step.
  destruct (candidates claim d) as [|c cs] eqn:Hc; [done|]. cbn [claim_first]. step.
  assert (c ∈ candidates claim d) as [Hin Hel]%elem_of_candidates by (rewrite Hc; left).
  destruct (sql_find _ _) as [r|] eqn:Hf.
  - apply sql_find_Some in Hf as [Hr [Hid _]%andb_true_iff]. apply Z.eqb_eq in Hid.
    assert (r = c) as -> by (by apply (same_id d)).
    by rewrite (base_eligible_fresh _ _ _ (eligible_base _ _ _ Hel)).
  - apply sql_find_None in Hf. rewrite sql_exists_false in Hf. specialize (Hf c Hin).
    by rewrite Z.eqb_refl, Hel in Hf.
Qed.

Lemma fallback_order_id mode r r' : fallback_order mode r = fallback_order mode r' → id r = id r'.
Proof. destruct mode; simpl; congruence. Qed.

Lemma has_fallback_with f d i :
  has_fallback i (with_fallback f d) = has_fallback i d || (fb_situation_id f =? i).
Proof. unfold has_fallback, sql_exists, with_fallback. simpl. rewrite existsb_app. simpl. by rewrite orb_false_r. Qed.

(** A configured claim takes the head of the candidates off, and nothing else. *)
Lemma candidates_with_fallback claim d c cs f :
  db_ok d → fc_mode claim = ModeConfigured → candidates claim d = c :: cs →
  fb_situation_id f = id c → candidates claim (with_fallback f d) = cs.
Proof.
  intros Hok Hmode Hc Hf.
  assert (∀ r, eligible claim (with_fallback f d) r = eligible claim d r && negb (id r =? id c)) as Hel.
  { intros r. unfold eligible. rewrite Hmode. unfold base_eligible.
    rewrite has_fallback_with, Hf, negb_orb, Z.eqb_sym. simpl. by rewrite !andb_assoc. }
  assert (NoDup (id <$> candidates claim d)) as Hnd.
  { unfold candidates. rewrite order_by_permutation. eapply sublist_NoDup; [apply (ok_ids _ Hok)|].
    apply fmap_sublist, sublist_filter. }
  assert (candidates claim d ≡ₚ sql_select (eligible claim d) (situations d)) as Hperm
    by apply order_by_permutation.
  assert (StronglySorted (key_order (fallback_order (fc_mode claim))) (candidates claim d)) as Hsorted
    by apply order_by_sorted.
  rewrite Hc in Hnd, Hperm, Hsorted. unfold candidates at 1. apply order_by_unique.
  - simpl. assert (sql_select (eligible claim (with_fallback f d)) (situations d) =
      sql_select (λ r, negb (id r =? id c)) (sql_select (eligible claim d) (situations d))) as ->.
    { unfold sql_select. rewrite list_filter_filter. apply list_filter_iff. intros r.
      rewrite Hel, andb_true_iff. tauto. }
    unfold sql_select at 1. rewrite <- Hperm, filter_cons_False by (simpl; by rewrite Z.eqb_refl).
    apply reflexive_eq. symmetry. apply sql_select_all. intros r Hr.
    apply negb_true_iff, Z.eqb_neq. intros Heq. apply NoDup_cons in Hnd as [Hnd _].
    apply Hnd. rewrite <- Heq. by apply list_elem_of_fmap_2.
  - by apply StronglySorted_inv in Hsorted as [].
  - intros x y [_ Hx]%elem_of_sql_select [_ Hy]%elem_of_sql_select Hk%fallback_order_id.
    by apply (same_id d).
Qed.

(** *** Claim and notify *)

Section Notify.
Context (notifier : list FallbackDispatch → NotificationPayload → option NotificationErrorCode).
Context (clock : list FallbackDispatch → instant).

Definition outcome_of (earlier : list FallbackDispatch) (r : Situation) : FallbackDispatch :=
  match notifier earlier (notification_payload (situation_type r)) with
  | Some e => Failed (id r) (_failure_code e) | None => Sent (id r)
  end.

Definition terminal_row (claim : FallbackClaim) (now : instant) (r : Situation)
    (x : FallbackDispatch) : fallback_row :=
  match x with
  | Sent _ => complete_row FallbackSent None (utc_iso now) (claimed_row claim r)
  | Failed _ code => complete_row FallbackFailed (Some code) (utc_iso now) (claimed_row claim r)
  end.

Lemma complete_run now i outcome code f d :
  has_fallback i d = false → open_claim i f = true →
  _complete now i outcome code (with_fallback f d) =
    (Ok tt, with_fallback (complete_row outcome code (utc_iso now) f) d).
Proof.
  intros Hfresh Hopen. unfold has_fallback in Hfresh. rewrite sql_exists_false in Hfresh.
  assert (sql_count (open_claim i) (fallbacks d) = 0) as H0.
  { apply sql_count_zero. intros g Hg. unfold open_claim. by rewrite (Hfresh g Hg). }
  assert (sql_update (open_claim i) (complete_row outcome code (utc_iso now)) (fallbacks d ++ [f]) =
    fallbacks d ++ [complete_row outcome code (utc_iso now) f]) as Hup.
  { unfold sql_update. rewrite fmap_app. f_equal; [by apply sql_update_none|].
    simpl. by rewrite Hopen. }
  unfold _complete, immediate_transaction. step. cbn [fallbacks with_fallback set_fallbacks].
  rewrite Hup, sql_count_app, H0, sql_count_cons, Hopen. done.
Qed.

Lemma notify_run claim earlier r d :
  has_fallback (id r) d = false →
  let x := outcome_of earlier r in
  _notify notifier clock earlier r (with_fallback (claimed_row claim r) d) =
    (Ok x, with_fallback (terminal_row claim (clock earlier) r x) d).
Proof.
  intros Hfresh x. subst x. unfold _notify, outcome_of, record_sent, record_failed.
  assert (open_claim (id r) (claimed_row claim r) = true) as Hopen
    by (unfold open_claim; simpl; by rewrite Z.eqb_refl).
  destruct (notifier earlier _);
    by rewrite (bind_run _ _ _ _ _ (complete_run (clock earlier) (id r) _ _ _ d Hfresh Hopen)).
Qed.

(** The rows of a run that notifies [rs] in order. *)
Fixpoint outcomes (earlier : list FallbackDispatch) (rs : list Situation)
    : list FallbackDispatch :=
  match rs with
  | [] => []
  | r :: rest => let x := outcome_of earlier r in x :: outcomes (earlier ++ [x]) rest
  end.

Fixpoint terminal_rows (claim : FallbackClaim) (earlier : list FallbackDispatch)
    (rs : list Situation) : list fallback_row :=
  match rs with
  | [] => []
  | r :: rest =>
    let x := outcome_of earlier r in
    terminal_row claim (clock earlier) r x :: terminal_rows claim (earlier ++ [x]) rest
  end.

Lemma db_ok_with_fallback f d : db_ok d → db_ok (with_fallback f d).
Proof. by intros []. Qed.

Lemma dispatch_loop_run fuel claim acc d :
  db_ok d → fc_mode claim = ModeConfigured → (length (candidates claim d) < fuel)%nat →
  let xs := outcomes acc (candidates claim d) in
  dispatch_loop notifier clock fuel claim acc d =
    (Ok (Some (acc ++ xs)),
     set_fallbacks (fallbacks d ++ terminal_rows claim acc (candidates claim d)) d).
Proof.
  intros Hok Hmode. remember (candidates claim d) as cs eqn:Hcs. symmetry in Hcs.
  revert fuel acc d Hok Hcs. induction cs as [|c cs IH]; intros fuel acc d Hok Hcs Hlen;
    (destruct fuel as [|fuel]; [simpl in Hlen; lia|]); cbn [dispatch_loop]; cbv zeta.
  - pose proof (claim_next_run claim d Hok) as Hrun. rewrite Hcs in Hrun.
    rewrite (bind_run _ _ _ _ _ Hrun). simpl. rewrite !app_nil_r. by destruct d.
  - pose proof (claim_next_run claim d Hok) as Hrun. rewrite Hcs in Hrun.
    rewrite (bind_run _ _ _ _ _ Hrun).
    assert (c ∈ candidates claim d) as [Hin Hel]%elem_of_candidates by (rewrite Hcs; left).
    pose proof (base_eligible_fresh _ _ _ (eligible_base _ _ _ Hel)) as Hfresh.
    rewrite (bind_run _ _ _ _ _ (notify_run claim acc c d Hfresh)).
    set (x := outcome_of acc c).
    rewrite (IH fuel _ (with_fallback (terminal_row claim (clock acc) c x) d)).
    + cbn [outcomes terminal_rows]. fold x. unfold with_fallback. simpl. by rewrite <- !app_assoc.
    + by apply db_ok_with_fallback.
    + eapply candidates_with_fallback; [done..|]. subst x. unfold outcome_of. by destruct (notifier _ _).
    + simpl in Hlen. lia.
Qed.
End Notify.

(** ** Properties *)

Lemma outcomes_ids notifier earlier rs : dispatched_id <$> outcomes notifier earlier rs = id <$> rs.
Proof.
  revert earlier. induction rs as [|r rs IH]; intros earlier; [done|]. csimpl. rewrite IH. f_equal.
  unfold outcome_of. by destruct (notifier _ _).
Qed.

(** A row that records the outcome [x], completed at [t]. *)
Definition recorded_as (t : instant) (x : FallbackDispatch) (f : fallback_row) : Prop :=
  fb_completed_at f = Some (utc_iso t) ∧
  match x with
  | Sent i => fb_situation_id f = i ∧ fb_outcome f = FallbackSent ∧ fb_failure_code f = None
  | Failed i code => fb_situation_id f = i ∧ fb_outcome f = FallbackFailed ∧ fb_failure_code f = Some code
  end.

(** The [k]-th row records the [k]-th outcome, at the clock's reading after those before it. *)
Definition outcomes_recorded (clock : list FallbackDispatch → instant) (acc xs : list FallbackDispatch)
    (rows : list fallback_row) : Prop :=
  length rows = length xs ∧
  ∀ k x, xs !! k = Some x → ∃ f, rows !! k = Some f ∧ recorded_as (clock (acc ++ take k xs)) x f.

Lemma outcomes_recorded_cons clock acc x xs f rows :
  recorded_as (clock acc) x f → outcomes_recorded clock (acc ++ [x]) xs rows →
  outcomes_recorded clock acc (x :: xs) (f :: rows).
Proof.
  intros Hx [Hlen Hxs]. split; [simpl; by rewrite Hlen|]. intros [|k] y; simpl.
  - intros [= <-]. exists f. by rewrite app_nil_r.
  - intros Hk%Hxs. by rewrite <- app_assoc in Hk.
Qed.

Lemma terminal_row_recorded notifier claim t earlier r :
  recorded_as t (outcome_of notifier earlier r) (terminal_row claim t r (outcome_of notifier earlier r)).
Proof. unfold outcome_of. by destruct (notifier _ _). Qed.

Lemma terminal_rows_spec notifier clock claim earlier rs :
  let rows := terminal_rows notifier clock claim earlier rs in
  fb_situation_id <$> rows = id <$> rs ∧
  outcomes_recorded clock earlier (outcomes notifier earlier rs) rows.
Proof.
  revert earlier. induction rs as [|r rs IH]; intros earlier; [done|]. cbv zeta.
  destruct (IH (earlier ++ [outcome_of notifier earlier r])) as [Hids Hterm].
  cbn [terminal_rows outcomes]. split.
  - csimpl. rewrite Hids. f_equal. unfold outcome_of. by destruct (notifier _ _).
  - apply outcomes_recorded_cons; [apply terminal_row_recorded|done].
Qed.

Lemma candidates_NoDup claim d : db_ok d → NoDup (id <$> candidates claim d).
Proof.
  intros Hok. unfold candidates. rewrite order_by_permutation.
  eapply sublist_NoDup; [apply (ok_ids _ Hok)|]. apply fmap_sublist, sublist_filter.
Qed.

Lemma candidates_bound claim d : (length (candidates claim d) ≤ length (situations d))%nat.
Proof. unfold candidates. rewrite order_by_permutation. apply sublist_length, sublist_filter. Qed.

(** Notifying rows for which no claim is left: the rest of the run changes nothing. *)
Lemma candidates_after_terminal claim d rs rows :
  db_ok d → fc_mode claim = ModeConfigured → rs = candidates claim d →
  fb_situation_id <$> rows = id <$> rs →
  candidates claim (set_fallbacks (fallbacks d ++ rows) d) = [].
Proof.
  intros Hok Hmode Hrs Hids. destruct (candidates claim (set_fallbacks (fallbacks d ++ rows) d)) as [|r l] eqn:Hc; [done|].
  assert (r ∈ candidates claim (set_fallbacks (fallbacks d ++ rows) d)) as Hr by (rewrite Hc; left).
  apply elem_of_candidates in Hr as [Hin Hel].
  pose proof (base_eligible_fresh _ _ _ (eligible_base _ _ _ Hel)) as Hfresh.
  unfold has_fallback, sql_exists in Hfresh. simpl in Hfresh. rewrite existsb_app in Hfresh.
  apply orb_false_iff in Hfresh as [Hf1 Hf2].
  assert (r ∈ candidates claim d) as Hr.
  { apply elem_of_candidates. split; [done|]. revert Hel. unfold eligible. rewrite Hmode.
    unfold base_eligible. rewrite !andb_true_iff. unfold has_fallback, sql_exists. rewrite Hf1. tauto. }
  rewrite <- Hrs in Hr. apply (list_elem_of_fmap_2 id) in Hr. rewrite <- Hids in Hr.
  apply list_elem_of_fmap in Hr as (f & Hf & Hfin).
  pose proof (proj1 (sql_exists_false _ _) Hf2 f Hfin) as Hne. simpl in Hne. lia.
Qed.

(** The claim takes the most urgent eligible row, records it before anything is shown, and
    answers [None] exactly when no row is eligible. *)
Theorem claim_next_is_most_urgent claim d :
  db_ok d →
  match claim_next claim d with
  | (Ok (Some r), d') =>
    r ∈ situations d ∧ eligible claim d r = true ∧ has_fallback (id r) d = false ∧
    (∀ r', r' ∈ situations d → eligible claim d r' = true →
       key_order (fallback_order (fc_mode claim)) r r') ∧
    d' = set_fallbacks (fallbacks d ++ [claimed_row claim r]) d
  | (Ok None, d') => d' = d ∧ ∀ r, r ∈ situations d → eligible claim d r = false
  | (Err _, _) => False
  end.
Proof.
  intros Hok. rewrite claim_next_run by done.
  pose proof (elem_of_candidates claim d) as Hel.
  destruct (candidates claim d) as [|c cs] eqn:Hc.
  - split; [done|]. intros r Hr. destruct (eligible claim d r) eqn:He; [|done].
    exfalso. apply (not_elem_of_nil r). by apply Hel.
  - destruct (proj1 (Hel c) (list_elem_of_here _ _)) as [Hin He].
    split; [done|]. split; [done|]. split.
    { by eapply base_eligible_fresh, eligible_base. }
    split; [|done]. intros r' Hr' He'.
    assert (StronglySorted (key_order (fallback_order (fc_mode claim))) (c :: cs)) as Hs
      by (rewrite <- Hc; apply order_by_sorted).
    apply StronglySorted_inv in Hs as [_ Hs]. rewrite Forall_forall in Hs.
    pose proof (proj2 (Hel r') (conj Hr' He')) as Hc'. apply elem_of_cons in Hc' as [->|Hc']; [|by apply Hs].
    destruct (key_order_total (fallback_order (fc_mode claim)) c c); done.
Qed.

(** What one loop does after the notifications [acc]. *)
Definition one_shot (clock : list FallbackDispatch → instant) (acc : list FallbackDispatch)
    (configured : FallbackClaim) (d : db) (xs : list FallbackDispatch) (rows : list fallback_row) : Prop :=
  fb_situation_id <$> rows = dispatched_id <$> xs ∧ NoDup (dispatched_id <$> xs) ∧
  (∀ i, i ∈ dispatched_id <$> xs → has_fallback i d = false) ∧
  outcomes_recorded clock acc xs rows ∧
  candidates configured (set_fallbacks (fallbacks d ++ rows) d) = [].

Lemma loop_is_one_shot notifier clock fuel configured acc d :
  db_ok d → fc_mode configured = ModeConfigured → (length (situations d) < fuel)%nat →
  ∃ xs rows, dispatch_loop notifier clock fuel configured acc d =
      (Ok (Some (acc ++ xs)), set_fallbacks (fallbacks d ++ rows) d) ∧
    one_shot clock acc configured d xs rows.
Proof.
  intros Hok Hmode Hfuel. pose proof (candidates_bound configured d).
  set (rs := candidates configured d). exists (outcomes notifier acc rs),
    (terminal_rows notifier clock configured acc rs).
  destruct (terminal_rows_spec notifier clock configured acc rs) as [Hids Hterm].
  split; [apply dispatch_loop_run; [done..|lia]|]. unfold one_shot.
  rewrite Hids, outcomes_ids.
  split; [done|]. split; [by apply candidates_NoDup|]. split; [|split; [done|]].
  - intros i (r & -> & [_ Hr]%elem_of_candidates)%list_elem_of_fmap.
    by eapply base_eligible_fresh, eligible_base.
  - by apply (candidates_after_terminal configured d rs).
Qed.

(** One bootstrap notification before the loop. *)
Lemma one_shot_cons clock configured d c x f xs rows :
  has_fallback (id c) d = false → dispatched_id x = id c → fb_situation_id f = id c →
  recorded_as (clock []) x f →
  one_shot clock [x] configured (with_fallback f d) xs rows → one_shot clock [] configured d (x :: xs) (f :: rows).
Proof.
  intros Hfresh Hx Hf Hrec (Hids & Hnd & Hnew & Hterm & Hcand). unfold one_shot. csimpl.
  rewrite Hids, Hx, Hf. split; [done|]. split; [|split; [|split]].
  - constructor; [|done]. intros Hin%Hnew. rewrite has_fallback_with, Hf, Z.eqb_refl in Hin.
    by rewrite orb_true_r in Hin.
  - intros i [->|Hin%Hnew]%elem_of_cons; [done|]. rewrite has_fallback_with in Hin.
    by apply orb_false_iff in Hin as [].
  - by apply outcomes_recorded_cons.
  - revert Hcand. unfold with_fallback. simpl. by rewrite <- app_assoc.
Qed.

(** With as much fuel as there are rows, a dispatch returns. *)
Lemma dispatch_returns notifier clock settings now configured bootstrap d :
  db_ok d → fset_enabled settings = true → fset_priorities settings ≠ [] →
  _claim settings ModeConfigured now = Ok configured →
  _claim settings ModeBootstrap now = Ok bootstrap →
  ∃ xs rows,
    dispatch notifier clock settings (S (length (situations d))) now d =
      (Ok (Some xs), set_fallbacks (fallbacks d ++ rows) d) ∧
    one_shot clock [] configured d xs rows.
Proof.
  intros Hok Hen Hpr Hconf Hboot.
  assert (fc_mode configured = ModeConfigured) as Hmode.
  { unfold _claim in Hconf. by apply (proj1 (res_bind_ok _ _ _)) in Hconf as (? & _ & [= <-]). }
  unfold dispatch. rewrite Hen, bool_decide_eq_false_2 by done. cbn [negb orb].
  rewrite (lift_time_bind _ _ _ _ Hconf), (lift_time_bind _ _ _ _ Hboot).
  pose proof (claim_next_run bootstrap d Hok) as Hrun.
  destruct (candidates bootstrap d) as [|c cs] eqn:Hc; rewrite (bind_run _ _ _ _ _ Hrun).
  - rewrite mret_bind.
    destruct (loop_is_one_shot notifier clock (S (length (situations d))) configured [] d)
      as (xs & rows & Hloop & Hone); [done..|lia|]. by exists xs, rows.
  - assert (c ∈ candidates bootstrap d) as [_ Hel]%elem_of_candidates by (rewrite Hc; left).
    pose proof (base_eligible_fresh _ _ _ (eligible_base _ _ _ Hel)) as Hfresh.
    set (x := outcome_of notifier [] c). set (f := terminal_row bootstrap (clock []) c x).
    assert ((y ← _notify notifier clock [] c; mret [y]) (with_fallback (claimed_row bootstrap c) d) =
      (Ok [x], with_fallback f d)) as Hnotify.
    { by rewrite (bind_run _ _ _ _ _ (notify_run notifier clock bootstrap [] c d Hfresh)). }
    rewrite (bind_run _ _ _ _ _ Hnotify).
    destruct (loop_is_one_shot notifier clock (S (length (situations d))) configured [x] (with_fallback f d))
      as (xs & rows & Hloop & Hone); [by apply db_ok_with_fallback|done|simpl; lia|].
    exists (x :: xs), (f :: rows). split.
    + rewrite Hloop. unfold with_fallback. simpl. by rewrite <- app_assoc.
    + apply (one_shot_cons clock configured d c); [done| | |apply terminal_row_recorded|done];
        subst f x; unfold outcome_of; by destruct (notifier _ _).
Qed.

(** C18. A dispatch terminates and is one-shot: with as much fuel as there are rows, it returns;
    it notifies no row twice and none that ever had a notification, appends exactly one
    record per notification, each with the outcome the notification had and the clock's
    reading when it was recorded, touches no other table, and leaves no row eligible for the
    configured claim of its instant. *)
Theorem dispatch_is_one_shot notifier clock settings now configured bootstrap d :
  db_ok d → fset_enabled settings = true → fset_priorities settings ≠ [] →
  _claim settings ModeConfigured now = Ok configured →
  _claim settings ModeBootstrap now = Ok bootstrap →
  ∃ xs rows,
    dispatch notifier clock settings (S (length (situations d))) now d =
      (Ok (Some xs), set_fallbacks (fallbacks d ++ rows) d) ∧
    one_shot clock [] configured d xs rows.
Proof. apply dispatch_returns. Qed.

(** Two pending rows, one conflict and one occasion, on a host without a notifier. *)
Definition fallback_db : db :=
  run_calls (λ _, "") (λ t, t) [CallUpsert sample_day [sample_conflict; sample_occasion]] empty_db.
Definition fallback_settings : FallbackSettings :=
  mk_fallback_settings [Critical] (30 * US_PER_MINUTE) true.
Definition fallback_claim_at (mode : FallbackClaimMode) (now : instant) : FallbackClaim :=
  mk_fallback_claim (utc_iso now) (utc_iso (now - 30 * US_PER_MINUTE)) [Critical] mode.
Definition fallback_now : instant := sample_day + US_PER_HOUR.

Lemma claim_next_is_most_urgent_witness :
  id <$> candidates (fallback_claim_at ModeConfigured fallback_now) fallback_db = [1] ∧
  match claim_next (fallback_claim_at ModeConfigured fallback_now) fallback_db with
  | (Ok (Some r), d') =>
    r ∈ situations fallback_db ∧
    eligible (fallback_claim_at ModeConfigured fallback_now) fallback_db r = true ∧
    has_fallback (id r) fallback_db = false ∧
    (∀ r', r' ∈ situations fallback_db →
       eligible (fallback_claim_at ModeConfigured fallback_now) fallback_db r' = true →
       key_order (fallback_order ModeConfigured) r r') ∧
    d' = set_fallbacks (fallbacks fallback_db ++
           [claimed_row (fallback_claim_at ModeConfigured fallback_now) r]) fallback_db
  | (Ok None, d') => d' = fallback_db ∧ ∀ r, r ∈ situations fallback_db →
      eligible (fallback_claim_at ModeConfigured fallback_now) fallback_db r = false
  | (Err _, _) => False
  end.
Proof.
  split; [vm_compute; reflexivity|].
  exact (claim_next_is_most_urgent (fallback_claim_at ModeConfigured fallback_now) fallback_db
    (proj1 (sound_run_calls _ _ _ _ db_ok_empty))).
Defined.

(** A clock that moves a second with every outcome. *)
Definition fallback_clock (earlier : list FallbackDispatch) : instant :=
  fallback_now + Z.of_nat (S (length earlier)) * US_PER_SECOND.

Lemma dispatch_is_one_shot_witness :
  ∃ xs rows,
    dispatch (λ _ _, Some NotifyUnavailable) fallback_clock fallback_settings 3 fallback_now fallback_db =
      (Ok (Some xs), set_fallbacks (fallbacks fallback_db ++ rows) fallback_db) ∧
    one_shot fallback_clock [] (fallback_claim_at ModeConfigured fallback_now) fallback_db xs rows.
Proof.
  refine (dispatch_is_one_shot (λ _ _, Some NotifyUnavailable) fallback_clock fallback_settings fallback_now
    (fallback_claim_at ModeConfigured fallback_now) (fallback_claim_at ModeBootstrap fallback_now)
    fallback_db (proj1 (sound_run_calls _ _ _ _ db_ok_empty)) _ _ _ _); by vm_compute.
Defined.
