(* ===== verification/Runtime.v ===== *)
(** Process coordination: the daemon's liveness row ([store/daemon_status.py]), the lease
    of lazy source reads ([store/_lazy_sync_lease.py]), the evaluation gate
    ([store/_evaluation_gate.py]) and the collectors ([store/collectors.py]). *)
From S2P Require Import Prelude PyDate PyTime Models.
#[local] Open Scope Z_scope.

(** [datetime.fromisoformat] of a stored timestamp. *)
Definition read_time (t : text) : res time_error instant :=
  match fromisoformat t with Some i => Ok i | None => Err ValueError end.

Lemma read_utc_iso t : in_range t = true → read_time (utc_iso t) = Ok t.
Proof. intros H. unfold read_time. by rewrite fromisoformat_utc_iso. Qed.

(** ** The daemon *)
Module Daemon.

Inductive DaemonLiveness := LiveNeverStarted | LiveRunning | LiveStale | LiveStopped.

Definition _STALE_POLL_COUNT : Z := 3.

(** [DaemonStatus]. *)
Record DaemonStatus := mk_daemon_status {
  st_liveness : DaemonLiveness;
  st_pid : option Z;
  st_started_at : option text;
  st_heartbeat_at : option text;
  st_cycle_count : Z;
  st_poll_interval : option timedelta;
  st_mode : option DaemonRunMode;
  st_last_run_state : DaemonLastRunState;
  st_last_failure_phase : option DaemonFailurePhase;
  st_last_failure_code : option DaemonFailureCode;
  st_last_failure_at : option text;
  st_last_completed_at : option text;
}.
Definition NEVER_STARTED : DaemonStatus :=
  mk_daemon_status LiveNeverStarted None None None 0 None None NeverRun None None None None.

Definition _interval_seconds (poll_interval : option timedelta) : op (option timedelta) :=
  match poll_interval with
  | None => mret None
  | Some p => if p <=? 0 then raise InvalidDaemonPollIntervalError else mret (Some p)
  end.

(** [self._poll_interval(heartbeat) or fallback_interval]: a zero interval is falsy. *)
Definition effective_interval (row fallback : option timedelta) : option timedelta :=
  match row with Some p => if p =? 0 then fallback else Some p | None => fallback end.

Definition _expired (heartbeat : daemon_row) (now : instant) (fallback_interval : option timedelta)
    : res time_error bool :=
  match effective_interval (dm_poll_interval heartbeat) fallback_interval with
  | None => mret false
  | Some p =>
    heartbeat_at ← read_time (dm_heartbeat_at heartbeat);
    mret (_STALE_POLL_COUNT * p <? now - heartbeat_at)
  end.

Section Store.
(** The opaque token of this store instance. *)
Context (_owner_token : text).

Definition owns (r : daemon_row) : bool := bool_decide (dm_owner_token r = Some _owner_token).
Definition running (r : daemon_row) : bool := bool_decide (dm_state r = DaemonRunning).

Definition _INSERT_START (pid : Z) (timestamp : text) (interval : option timedelta) : op unit :=
  if pid <=? 0 then raise IntegrityError else
  modify (set_daemon_status (Some (mk_daemon DaemonRunning pid timestamp timestamp 0
    (Some _owner_token) interval None RunUnknown None None None None))).

Definition _REPLACE_START (pid : Z) (timestamp : text) (interval : option timedelta)
    (r : daemon_row) : op unit :=
  if pid <=? 0 then raise IntegrityError else
  modify (set_daemon_status (Some
    (set_dm_poll_interval interval (set_dm_owner_token (Some _owner_token)
      (set_dm_cycle_count 0 (set_dm_heartbeat_at timestamp (set_dm_started_at timestamp
        (set_dm_pid pid (set_dm_state DaemonRunning r))))))))).

Definition try_record_start (now : instant) (pid : Z) (poll_interval : option timedelta)
    (incumbent_is_alive : option (Z → bool)) : op bool :=
  interval ← _interval_seconds poll_interval;
  immediate_transaction (
    incumbent ← gets daemon_status;
    match incumbent with
    | None => _INSERT_START pid (utc_iso now) interval;; mret true
    | Some r =>
      if running r && owns r then mret true else
      expired ← (if running r then lift_time (_expired r now interval) else mret false);
      if running r && negb expired &&
         match incumbent_is_alive with None => true | Some f => f (dm_pid r) end
      then mret false
      else _REPLACE_START pid (utc_iso now) interval r;; mret true
    end).

Definition record_start (now : instant) (pid : Z) (poll_interval : option timedelta) : op unit :=
  try_record_start now pid poll_interval None;; mret tt.

(** An owner-fenced [UPDATE]: it matches the row only while this instance owns it. *)
Definition update_owned (f : daemon_row → daemon_row) : op unit :=
  immediate_transaction (
    row ← gets daemon_status;
    match row with
    | None => raise DaemonNotStartedError
    | Some r =>
      if running r && owns r then modify (set_daemon_status (Some (f r))) else mret tt
    end).

Definition record_heartbeat (now : instant) : op unit :=
  update_owned (λ r, set_dm_cycle_count (dm_cycle_count r + 1)
    (set_dm_heartbeat_at (utc_iso now) (set_dm_state DaemonRunning r))).
Definition record_stop (now : instant) : op unit :=
  update_owned (λ r, set_dm_heartbeat_at (utc_iso now) (set_dm_state DaemonStopped r)).
Definition record_run_started (mode : DaemonRunMode) : op unit :=
  update_owned (set_dm_mode (Some mode)).

(** The [CHECK] of the column admits every state but [never_run].  A failure's time and the
    completion's are two readings of the clock. *)
Definition record_run_outcome (failed_now now : instant) (state : DaemonLastRunState)
    (failure_phase : option DaemonFailurePhase) (failure_code : option DaemonFailureCode)
    : op unit :=
  let write ph code at_ :=
    row ← gets daemon_status;
    if bool_decide (state = NeverRun) &&
       match row with Some r => running r && owns r | None => false end
    then raise IntegrityError
    else update_owned (λ r, set_dm_last_completed_at (Some (utc_iso now))
      (set_dm_last_failure_at at_ (set_dm_last_failure_code code
        (set_dm_last_failure_phase ph (set_dm_last_run_state state r))))) in
  if bool_decide (state = RunFailed) then
    match failure_phase, failure_code with
    | Some ph, Some code => write (Some ph) (Some code) (Some (utc_iso failed_now))
    | _, _ => raise InvalidDaemonRunOutcomeError
    end
  else write None None None.
End Store.

Definition _liveness (heartbeat : daemon_row) (now : instant) (stale_after : timedelta)
    : res time_error DaemonLiveness :=
  match dm_state heartbeat with
  | DaemonStopped => mret LiveStopped
  | DaemonRunning =>
    heartbeat_at ← read_time (dm_heartbeat_at heartbeat);
    mret (if now - heartbeat_at <=? stale_after then LiveRunning else LiveStale)
  end.

Definition status (now : instant) (stale_after : option timedelta) : op DaemonStatus :=
  row ← gets daemon_status;
  match row with
  | None => mret NEVER_STARTED
  | Some r =>
    let threshold := match stale_after with
      | Some t => t
      | None => match dm_poll_interval r with Some p => _STALE_POLL_COUNT * p | None => 0 end
      end in
    liveness ← lift_time (_liveness r now threshold);
    mret (mk_daemon_status liveness (Some (dm_pid r)) (Some (dm_started_at r))
      (Some (dm_heartbeat_at r)) (dm_cycle_count r) (dm_poll_interval r) (dm_mode r)
      (dm_last_run_state r) (dm_last_failure_phase r) (dm_last_failure_code r)
      (dm_last_failure_at r) (dm_last_completed_at r))
  end.
End Daemon.

(** ** The lease of lazy reads *)
Module Lease.

Record LazySyncLease := mk_lease {
  le_token : text;
  le_acquired_at : instant;
  le_expires_at : instant;
}.

(** [token] is [uuid4().hex]; the [WHERE] of the upsert replaces an expired row only. *)
Definition acquire (now : instant) (token : text) (lease_duration : timedelta)
    : op (option LazySyncLease) :=
  if lease_duration <=? 0 then raise InvalidLazySyncLeaseDurationError else
  expires_at ← lift_time (dt_add now lease_duration);
  immediate_transaction (
    current ← gets lazy_lease;
    if match current with
       | None => true
       | Some r => text_leb (ll_expires_at r) (utc_iso now)
       end
    then modify (set_lazy_lease (Some (mk_lazy_lease token (utc_iso now) (utc_iso expires_at))));;
         mret (Some (mk_lease token now expires_at))
    else mret None).

Definition release (lease : LazySyncLease) : op bool :=
  immediate_transaction (
    current ← gets lazy_lease;
    match current with
    | Some r =>
      if bool_decide (ll_owner_token r = le_token lease)
      then modify (set_lazy_lease None);; mret true else mret false
    | None => mret false
    end).
End Lease.

(** ** The evaluation gate *)
Module Gate.

Definition try_start (now : instant) (minimum_interval : timedelta) : op bool :=
  cutoff ← lift_time (dt_add now (- minimum_interval));
  immediate_transaction (
    last ← gets evaluation_gate;
    if match last with None => true | Some t => text_leb t (utc_iso cutoff) end
    then modify (set_evaluation_gate (Some (utc_iso now)));; mret true
    else mret false).
End Gate.

(** ** Collectors *)
Module Collectors.

Inductive CollectorState := NeverSeen | Active | CollectorStale.
Record CollectorStatus := mk_collector_status {
  cs_profile : CollectorProfile;
  cs_state : CollectorState;
  cs_last_check_at : option text;
  cs_last_confirm_at : option text;
}.
Definition DEFAULT_COLLECTOR_STALE_AFTER : timedelta := 24 * US_PER_HOUR.

Definition is_profile (p : CollectorProfile) (r : collector_row) : bool :=
  bool_decide (co_profile r = p).

(** The [CASE] of both upserts: the newest observation stays. *)
Definition newest (old : option text) (new : text) : option text :=
  match old with
  | None => Some new
  | Some o => if text_ltb o new then Some new else Some o
  end.

Definition record_check (now : instant) (p : CollectorProfile) : op unit :=
  modify (λ d, set_collectors (sql_upsert (is_profile p)
    (mk_collector p (Some (utc_iso now)) None)
    (λ r, mk_collector (co_profile r) (newest (co_last_check_at r) (utc_iso now))
            (co_last_confirm_at r)) (collectors d)) d).

Definition record_confirm (now : instant) (p : CollectorProfile) : op unit :=
  modify (λ d, set_collectors (sql_upsert (is_profile p)
    (mk_collector p (Some (utc_iso now)) (Some (utc_iso now)))
    (λ r, mk_collector (co_profile r) (co_last_check_at r)
            (newest (co_last_confirm_at r) (utc_iso now))) (collectors d)) d).

(** A row without a check cannot be read as a datetime. *)
Definition collector_status (now : instant) (p : CollectorProfile) (stale_after : timedelta)
    : op CollectorStatus :=
  row ← gets (λ d, sql_find (is_profile p) (collectors d));
  match row with
  | None => mret (mk_collector_status p NeverSeen None None)
  | Some r =>
    check_time ← lift_time (match co_last_check_at r with
                            | Some t => read_time t | None => Err ValueError end);
    mret (mk_collector_status p
      (if now - check_time <=? stale_after then Active else CollectorStale)
      (co_last_check_at r) (co_last_confirm_at r))
  end.
End Collectors.

(** ** Properties of the daemon row *)
Section DaemonProperties.
  Import Daemon.
Context (token : text).

(** The incumbent still has a claim to the row. *)
Definition live (now heartbeat_at : instant) (interval : option timedelta)
    (alive : option (Z → bool)) (r : daemon_row) : bool :=
  match effective_interval (dm_poll_interval r) interval with
  | None => true
  | Some p => now - heartbeat_at <=? _STALE_POLL_COUNT * p
  end && match alive with None => true | Some f => f (dm_pid r) end.

(** A start takes over exactly when no other instance holds a running row that is live:
    a stopped row, a row three polling intervals old and a row whose process is gone are
    replaced; a live one is left as it is, and starting twice changes nothing. *)
Theorem start_outcome now pid interval alive r h d :
  daemon_status d = Some r → dm_heartbeat_at r = utc_iso h → in_range h = true → 0 < pid →
  match interval with Some p => 0 < p | None => True end →
  ∃ d', try_record_start token now pid interval alive d =
      (Ok (negb (running r && negb (owns token r) && live now h interval alive r)), d') ∧
    (running r && (owns token r || live now h interval alive r) = true → d' = d) ∧
    (running r && (owns token r || live now h interval alive r) = false →
     ∃ r', d' = set_daemon_status (Some r') d ∧ running r' = true ∧ owns token r' = true ∧
       dm_heartbeat_at r' = utc_iso now ∧ dm_cycle_count r' = 0).
Proof.
  intros Hrow Hh Hrange Hpid Hint.
  assert (_interval_seconds interval d = (Ok interval, d)) as Hsec.
  { unfold _interval_seconds. destruct interval as [p|]; [|done].
    by rewrite (proj2 (Z.leb_gt _ _) Hint). }
  unfold try_record_start. rewrite (bind_run _ _ _ _ _ Hsec).
  unfold immediate_transaction. step. rewrite Hrow.
  assert (_REPLACE_START token pid (utc_iso now) interval r d = (Ok tt, set_daemon_status (Some
    (set_dm_poll_interval interval (set_dm_owner_token (Some token)
      (set_dm_cycle_count 0 (set_dm_heartbeat_at (utc_iso now) (set_dm_started_at (utc_iso now)
        (set_dm_pid pid (set_dm_state DaemonRunning r)))))))) d)) as Hrep.
  { unfold _REPLACE_START. by rewrite (proj2 (Z.leb_gt _ _) Hpid). }
  assert (_expired r now interval = Ok (negb match effective_interval (dm_poll_interval r) interval with
    | None => true | Some p => now - h <=? _STALE_POLL_COUNT * p end)) as Hexp.
  { unfold _expired. destruct (effective_interval _ _) as [p|]; [|done].
    rewrite Hh, read_utc_iso by done. cbn [mbind res_bind]. unfold mret, res_ret.
    by rewrite Z.ltb_antisym. }
  unfold live. destruct (running r) eqn:Hrun; simpl.
  - destruct (owns token r) eqn:Hown; simpl.
    { by eexists. }
    rewrite (lift_time_bind _ _ _ _ Hexp), negb_involutive.
    destruct (match effective_interval _ _ with None => _ | Some _ => _ end && _); simpl.
    { by eexists. }
    rewrite (bind_run _ _ _ _ _ Hrep). eexists. split; [done|]. split; [done|]. intros _.
    eexists. split; [done|]. split; [done|]. split; [|done].
    unfold owns. by apply bool_decide_eq_true.
  - rewrite mret_bind. simpl. rewrite (bind_run _ _ _ _ _ Hrep). eexists. split; [done|].
    split; [done|]. intros _. eexists. split; [done|]. split; [done|]. split; [|done].
    unfold owns. by apply bool_decide_eq_true.
Qed.

(** An instance that does not own the row writes nothing to it: heartbeats, stops, modes
    and outcomes of a previous or competing run are ignored without an error. *)
Theorem stale_owner_is_fenced failed_now now mode state r d :
  daemon_status d = Some r → running r && owns token r = false → state ≠ RunFailed →
  record_heartbeat token now d = (Ok tt, d) ∧ record_stop token now d = (Ok tt, d) ∧
  record_run_started token mode d = (Ok tt, d) ∧
  record_run_outcome token failed_now now state None None d = (Ok tt, d) ∧
  (∀ ph code, record_run_outcome token failed_now now RunFailed (Some ph) (Some code) d = (Ok tt, d)).
Proof.
  intros Hrow Hown Hst.
  assert (∀ f, update_owned token f d = (Ok tt, d)) as Hup.
  { intros f. unfold update_owned, immediate_transaction. step. by rewrite Hrow, Hown. }
  split; [apply Hup|]. split; [apply Hup|]. split; [apply Hup|]. split.
  - unfold record_run_outcome. rewrite (bool_decide_eq_false_2 (state = RunFailed)) by done.
    step. rewrite Hrow, Hown, andb_false_r. apply Hup.
  - intros ph code. unfold record_run_outcome. rewrite (bool_decide_eq_true_2 (RunFailed = _)) by done.
    step. rewrite Hrow, Hown, andb_false_r. apply Hup.
Qed.
End DaemonProperties.

(** *** One incumbent with a poll of five minutes *)
Definition incumbent_at : instant := 63839577600000000.
Definition sample_daemon_db : db :=
  (Daemon.try_record_start "a" incumbent_at 7 (Some (5 * US_PER_MINUTE)) None empty_db).2.
Definition incumbent : daemon_row :=
  mk_daemon DaemonRunning 7 (utc_iso incumbent_at) (utc_iso incumbent_at) 0 (Some "a"%string)
    (Some (5 * US_PER_MINUTE)) None RunUnknown None None None None.

Lemma start_outcome_witness :
  ∃ d', Daemon.try_record_start "b" (incumbent_at + 10 * US_PER_MINUTE) 8
      (Some (5 * US_PER_MINUTE)) None sample_daemon_db = (Ok false, d') ∧ d' = sample_daemon_db.
Proof.
  destruct (start_outcome "b" (incumbent_at + 10 * US_PER_MINUTE) 8 (Some (5 * US_PER_MINUTE)) None
    incumbent incumbent_at sample_daemon_db) as (d' & Hrun & Hkeep & _).
  - vm_compute. reflexivity.
  - reflexivity.
  - vm_compute. reflexivity.
  - reflexivity.
  - reflexivity.
  - exists d'. split; [exact Hrun|]. apply Hkeep. vm_compute. reflexivity.
Defined.

Lemma stale_owner_is_fenced_witness :
  Daemon.record_stop "b" (incumbent_at + 1) sample_daemon_db = (Ok tt, sample_daemon_db).
Proof.
  refine (proj1 (proj2 (stale_owner_is_fenced "b" (incumbent_at + 1) (incumbent_at + 1) RunOnce RunSucceeded incumbent
    sample_daemon_db _ _ _))).
  - vm_compute. reflexivity.
  - vm_compute. reflexivity.
  - discriminate.
Defined.

(** ** Properties of the lease, the gate and the collectors *)

Lemma acquire_run now token dur d :
  0 < dur → in_range (now + dur) = true →
  Lease.acquire now token dur d =
    if match lazy_lease d with None => true | Some r => text_leb (ll_expires_at r) (utc_iso now) end
    then (Ok (Some (Lease.mk_lease token now (now + dur))),
          set_lazy_lease (Some (mk_lazy_lease token (utc_iso now) (utc_iso (now + dur)))) d)
    else (Ok None, d).
Proof.
  intros Hdur Hr. unfold Lease.acquire. rewrite (proj2 (Z.leb_gt _ _) Hdur).
  assert (dt_add now dur = Ok (now + dur)) as Hadd by (by apply dt_add_ok).
  rewrite (lift_time_bind _ _ _ _ Hadd). unfold immediate_transaction. step.
  by destruct (lazy_lease d) as [r|]; [destruct (text_leb _ _)|].
Qed.

(** At most one lazy read holds the lease: after an acquisition, every attempt before its
    expiry is refused, one at or after the expiry succeeds, a release with another token
    changes nothing, and the owner's release frees it. *)
Theorem lazy_lease_excludes t1 dur1 token1 d lease d1 :
  0 < dur1 → in_range (t1 + dur1) = true →
  Lease.acquire t1 token1 dur1 d = (Ok (Some lease), d1) →
  (∀ t2 token2 dur2, 0 < dur2 → in_range t2 = true → in_range (t2 + dur2) = true →
     (t2 < t1 + dur1 → Lease.acquire t2 token2 dur2 d1 = (Ok None, d1)) ∧
     (t1 + dur1 ≤ t2 → (Lease.acquire t2 token2 dur2 d1).1 =
        Ok (Some (Lease.mk_lease token2 t2 (t2 + dur2))))) ∧
  (∀ other, Lease.le_token other ≠ token1 → Lease.release other d1 = (Ok false, d1)) ∧
  Lease.release lease d1 = (Ok true, set_lazy_lease None d1).
Proof.
  intros Hdur Hr Hacq. rewrite acquire_run in Hacq by done.
  destruct (match lazy_lease d with None => _ | Some _ => _ end); [|done].
  injection Hacq as <- <-. set (d1 := set_lazy_lease _ d). split; [|split].
  - intros t2 token2 dur2 Hdur2 Ht2 Hr2. rewrite acquire_run by done.
    change (lazy_lease d1) with (Some (mk_lazy_lease token1 (utc_iso t1) (utc_iso (t1 + dur1)))).
    cbn [ll_expires_at]. rewrite (utc_iso_leb _ _ Hr Ht2).
    destruct (Z.leb_spec (t1 + dur1) t2); split; intros; done || lia.
  - intros other Hne. unfold Lease.release, immediate_transaction. step.
    change (lazy_lease d1) with (Some (mk_lazy_lease token1 (utc_iso t1) (utc_iso (t1 + dur1)))).
    cbn [ll_owner_token]. by rewrite bool_decide_eq_false_2.
  - unfold Lease.release, immediate_transaction. step.
    change (lazy_lease d1) with (Some (mk_lazy_lease token1 (utc_iso t1) (utc_iso (t1 + dur1)))).
    cbn [ll_owner_token Lease.le_token]. by rewrite bool_decide_eq_true_2.
Qed.

Lemma lazy_lease_excludes_witness :
  let d1 := (Lease.acquire incumbent_at "a" US_PER_MINUTE empty_db).2 in
  Lease.acquire (incumbent_at + 5) "b" US_PER_MINUTE d1 = (Ok None, d1) ∧
  (Lease.acquire (incumbent_at + US_PER_MINUTE) "b" US_PER_MINUTE d1).1 =
    Ok (Some (Lease.mk_lease "b" (incumbent_at + US_PER_MINUTE)
                (incumbent_at + US_PER_MINUTE + US_PER_MINUTE))).
Proof.
  pose proof (lazy_lease_excludes incumbent_at US_PER_MINUTE "a" empty_db
    (Lease.mk_lease "a" incumbent_at (incumbent_at + US_PER_MINUTE))
    (Lease.acquire incumbent_at "a" US_PER_MINUTE empty_db).2 eq_refl eq_refl eq_refl) as [H _].
  split.
  - exact (proj1 (H (incumbent_at + 5) "b"%string US_PER_MINUTE eq_refl eq_refl eq_refl) eq_refl).
  - apply (proj2 (H (incumbent_at + US_PER_MINUTE) "b"%string US_PER_MINUTE eq_refl eq_refl eq_refl)).
    lia.
Defined.

(** The instants at which a sequence of attempts was let through. *)
Fixpoint gate_starts (minimum_interval : timedelta) (attempts : list instant) (d : db)
    : list instant :=
  match attempts with
  | [] => []
  | t :: rest =>
    match Gate.try_start t minimum_interval d with
    | (Ok true, d') => t :: gate_starts minimum_interval rest d'
    | (_, d') => gate_starts minimum_interval rest d'
    end
  end.

Lemma try_start_run t minimum_interval t0 d :
  evaluation_gate d = Some (utc_iso t0) → in_range t0 = true →
  Gate.try_start t minimum_interval d =
    if negb (in_range (t - minimum_interval)) then (Err (TimeError OverflowError), d) else
    if t0 + minimum_interval <=? t then (Ok true, set_evaluation_gate (Some (utc_iso t)) d)
    else (Ok false, d).
Proof.
  intros Hgate Ht0. unfold Gate.try_start, dt_add. change (t + - minimum_interval) with (t - minimum_interval).
  destruct (in_range (t - minimum_interval)) eqn:Hr; [|done].
  rewrite (lift_time_bind _ _ _ _ eq_refl). unfold immediate_transaction. step. rewrite Hgate.
  rewrite (utc_iso_leb _ _ Ht0 Hr). simpl.
  destruct (Z.leb_spec t0 (t - minimum_interval)), (Z.leb_spec (t0 + minimum_interval) t); done || lia.
Qed.

Lemma gate_starts_after minimum_interval attempts t0 d :
  0 ≤ minimum_interval → Forall (λ t, in_range t = true) attempts →
  evaluation_gate d = Some (utc_iso t0) → in_range t0 = true →
  Forall (λ t, t0 + minimum_interval ≤ t) (gate_starts minimum_interval attempts d) ∧
  StronglySorted (λ a b, a + minimum_interval ≤ b) (gate_starts minimum_interval attempts d).
Proof.
  intros Hmin Hall. revert t0 d. induction Hall as [|t rest Ht _ IH]; intros t0 d Hgate Ht0; simpl.
  { split; constructor. }
  rewrite (try_start_run t minimum_interval t0 d Hgate Ht0).
  destruct (in_range (t - minimum_interval)); cbn [negb]; [|by apply IH].
  destruct (Z.leb_spec (t0 + minimum_interval) t); [|by apply IH].
  destruct (IH t (set_evaluation_gate (Some (utc_iso t)) d)) as [Hge Hsorted]; [done..|].
  split; [|by constructor]. constructor; [done|].
  eapply Forall_impl; [exact Hge|]. simpl. lia.
Qed.

(** However many processes try and whatever their clocks say, two evaluation passes let
    through by the gate are at least the minimum interval apart, in the order they were
    let through. *)
Theorem gate_is_a_rate_limit minimum_interval attempts d :
  0 ≤ minimum_interval → Forall (λ t, in_range t = true) attempts → evaluation_gate d = None →
  StronglySorted (λ a b, a + minimum_interval ≤ b) (gate_starts minimum_interval attempts d).
Proof.
  intros Hmin Hall. revert d. induction Hall as [|t rest Ht Hall IH]; intros d Hgate; simpl; [constructor|].
  assert (Gate.try_start t minimum_interval d =
    if negb (in_range (t - minimum_interval)) then (Err (TimeError OverflowError), d) else
    (Ok true, set_evaluation_gate (Some (utc_iso t)) d)) as ->.
  { unfold Gate.try_start, dt_add. change (t + - minimum_interval) with (t - minimum_interval).
    destruct (in_range (t - minimum_interval)); [|done].
    rewrite (lift_time_bind _ _ _ _ eq_refl). unfold immediate_transaction. step. by rewrite Hgate. }
  destruct (in_range (t - minimum_interval)); cbn [negb]; [|by apply IH].
  destruct (gate_starts_after minimum_interval rest t (set_evaluation_gate (Some (utc_iso t)) d))
    as [Hge Hsorted]; [done..|]. by constructor.
Qed.

Lemma gate_is_a_rate_limit_witness :
  gate_starts US_PER_MINUTE [incumbent_at; incumbent_at + 1; incumbent_at + US_PER_MINUTE] empty_db =
    [incumbent_at; incumbent_at + US_PER_MINUTE] ∧
  StronglySorted (λ a b, a + US_PER_MINUTE ≤ b)
    (gate_starts US_PER_MINUTE [incumbent_at; incumbent_at + 1; incumbent_at + US_PER_MINUTE] empty_db).
Proof.
  split; [vm_compute; reflexivity|].
  apply gate_is_a_rate_limit; [vm_compute; discriminate| |reflexivity].
  repeat constructor; vm_compute; reflexivity.
Defined.

(** A collector's last check is the newest instant observed: a late observation never moves
    it back, the confirmation column and the other profile are untouched. *)
Theorem collector_check_is_monotone now p r c d :
  sql_find (Collectors.is_profile p) (collectors d) = Some r →
  co_last_check_at r = Some (utc_iso c) → in_range c = true → in_range now = true →
  let d' := (Collectors.record_check now p d).2 in
  sql_find (Collectors.is_profile p) (collectors d') =
    Some (mk_collector (co_profile r) (Some (utc_iso (Z.max c now))) (co_last_confirm_at r)) ∧
  (∀ q, q ≠ p → sql_find (Collectors.is_profile q) (collectors d') =
    sql_find (Collectors.is_profile q) (collectors d)).
Proof.
  intros Hrow Hc Hcr Hnr d'. subst d'. unfold Collectors.record_check, modify. simpl. split.
  - rewrite sql_find_upsert, Hrow, Hc.
    + unfold Collectors.newest. rewrite (utc_iso_ltb _ _ Hcr Hnr).
      destruct (Z.ltb_spec c now); [by rewrite Z.max_r by lia|by rewrite Z.max_l by lia].
    + by intros.
    + unfold Collectors.is_profile. by apply bool_decide_eq_true.
  - intros q Hq. apply sql_find_upsert_ne; unfold Collectors.is_profile; simpl.
    + intros x Hx%bool_decide_eq_true. apply bool_decide_eq_false. congruence.
    + intros x Hx%bool_decide_eq_true. apply bool_decide_eq_false. congruence.
    + apply bool_decide_eq_false. congruence.
Qed.

Lemma collector_check_is_monotone_witness :
  let d := (Collectors.record_check (incumbent_at + 5) ProfileFull empty_db).2 in
  sql_find (Collectors.is_profile ProfileFull)
    (collectors (Collectors.record_check incumbent_at ProfileFull d).2) =
  Some (mk_collector ProfileFull (Some (utc_iso (Z.max (incumbent_at + 5) incumbent_at))) None).
Proof.
  refine (proj1 (collector_check_is_monotone incumbent_at ProfileFull
    (mk_collector ProfileFull (Some (utc_iso (incumbent_at + 5))) None) (incumbent_at + 5)
    (Collectors.record_check (incumbent_at + 5) ProfileFull empty_db).2 _ _ _ _));
    vm_compute; reflexivity.
Defined.
