(* ===== verification/Memory.v ===== *)
(** The memory model ([store/_memory_models.py], [store/_memory_normalize.py],
    [store/_memory_entities.py], [store/_memory_queries.py], [store/_memory_sql.py] and
    [store/memory.py]): validation, entity resolution, dated identities and the
    operations on memory items. *)
From stdpp Require Import pretty.
From Stdlib Require Import Ascii.
From S2P Require Import Prelude PyDate PyTime.
#[local] Open Scope Z_scope.

(** ** Data *)

Inductive EntityKind := Person | Place | Org | Thing | Activity.
Inductive EntityStatus := EntityActive | EntityMerged | EntityArchived.
Inductive MemoryKind := Fact | Commitment | Preference | Note.
Inductive MemoryAttribute := Birthday | Anniversary | Deadline | Relationship | Free.
Inductive MemoryRecurrence := RecurNone | Yearly.
Inductive MemorySource := AgentConversation | Manual.
#[export] Instance EntityKind_eq_dec : EqDecision EntityKind.
Proof. solve_decision. Defined.
#[export] Instance EntityStatus_eq_dec : EqDecision EntityStatus.
Proof. solve_decision. Defined.
#[export] Instance MemoryKind_eq_dec : EqDecision MemoryKind.
Proof. solve_decision. Defined.
#[export] Instance MemoryAttribute_eq_dec : EqDecision MemoryAttribute.
Proof. solve_decision. Defined.
#[export] Instance MemoryRecurrence_eq_dec : EqDecision MemoryRecurrence.
Proof. solve_decision. Defined.
#[export] Instance MemorySource_eq_dec : EqDecision MemorySource.
Proof. solve_decision. Defined.

(** The stored spellings. *)
Definition entity_kind_text (k : EntityKind) : text :=
  match k with Person => "person" | Place => "place" | Org => "org" | Thing => "thing"
  | Activity => "activity" end%string.
Definition memory_kind_text (k : MemoryKind) : text :=
  match k with Fact => "fact" | Commitment => "commitment" | Preference => "preference"
  | Note => "note" end%string.
Definition attribute_text (a : MemoryAttribute) : text :=
  match a with Birthday => "birthday" | Anniversary => "anniversary" | Deadline => "deadline"
  | Relationship => "relationship" | Free => "free" end%string.
Definition recurrence_text (r : MemoryRecurrence) : text :=
  match r with RecurNone => "none" | Yearly => "yearly" end%string.
Definition memory_source_text (s : MemorySource) : text :=
  match s with AgentConversation => "agent_conversation" | Manual => "manual" end%string.

Definition MAX_MEMORY_CONTENT_BYTES : Z := 4096.
Definition MAX_MEMORY_ENTITY_BYTES : Z := 256.
Definition MAX_MEMORY_ENTITY_PATH_BYTES : Z := 512.
Definition MAX_MEMORY_DATE_ANCHOR_BYTES : Z := 10.
Definition MAX_MEMORY_RECORD_BYTES : Z := 5120.
Definition MAX_MEMORY_LEAD_DAYS : Z := 366.
Definition MAX_MEMORY_PAGE_SIZE : Z := 100.

Record NewMemory := mk_new_memory {
  nm_kind : MemoryKind;
  nm_content : text;
  nm_entity : option text;
  nm_entity_kind : option EntityKind;
  nm_entity_path : option text;
  nm_attribute : MemoryAttribute;
  nm_date_anchor : option text;
  nm_recurrence : MemoryRecurrence;
  nm_lead_days : Z;
  nm_source : MemorySource;
}.

Record Entity := mk_entity {
  en_id : Z;
  en_kind : EntityKind;
  en_path : option text;
  en_label : text;
  en_status : EntityStatus;
  en_created_at : text;
  en_updated_at : text;
}.

Record MemoryItem := mk_memory_item {
  mi_id : Z;
  mi_kind : MemoryKind;
  mi_entity_id : option Z;
  mi_entity : option text;
  mi_entity_kind : option EntityKind;
  mi_entity_path : option text;
  mi_attribute : MemoryAttribute;
  mi_content : text;
  mi_date_anchor : option text;
  mi_recurrence : MemoryRecurrence;
  mi_lead_days : option Z;
  mi_source : MemorySource;
  mi_created_at : text;
  mi_updated_at : text;
  mi_archived : bool;
  mi_is_contradictory : bool;
}.

Inductive memory_exn :=
  | MemoryValidationError (field reason : text)
  | MemoryNotFoundError (id : Z)
  | EntityAliasConflictError (alias : text)
  | MemoryIntegrityError.

(** ** [date.fromisoformat] *)

(** Monday of ISO week 1, and whether the year has a week 53. *)
Definition weekday_of_ordinal (o : Z) : Z := (o + 6) mod 7.
Definition iso_week1_monday (y : Z) : Z :=
  let first_day := toordinal (mk_date y 1 1) in
  let wd := weekday_of_ordinal first_day in
  first_day - wd + (if 3 <? wd then 7 else 0).
Definition has_week_53 (y : Z) : bool :=
  let wd := weekday_of_ordinal (toordinal (mk_date y 1 1)) in
  (wd =? 3) || ((wd =? 2) && _is_leap_year y).

Definition iso_week_date (y w d : Z) : option date :=
  if (1 <=? y) && (y <=? MAXYEAR) && (1 <=? w) &&
     ((w <=? 52) || ((w =? 53) && has_week_53 y)) && (1 <=? d) && (d <=? 7)
  then let o := iso_week1_monday y + (w - 1) * 7 + (d - 1) in
       if (1 <=? o) && (o <=? MAXORDINAL) then Some (fromordinal o) else None
  else None.

(** The separator of an extended form, or nothing in a basic one. *)
Definition separator (extended : bool) (s : text) : option text :=
  if extended then expect "-"%char s else Some s.

Definition parse_week_form (extended : bool) (y : Z) (s : text) : option date :=
  '(w, s) ← take_digits 2 0 s;
  match s with
  | EmptyString => iso_week_date y w 1
  | _ => s ← separator extended s; '(d, _) ← take_digits 1 0 s; iso_week_date y w d
  end.

Definition parse_month_form (extended : bool) (y : Z) (s : text) : option date :=
  '(m, s) ← take_digits 2 0 s; s ← separator extended s; '(d, _) ← take_digits 2 0 s;
  if _is_valid_date y m d then Some (mk_date y m d) else None.

(** The forms [YYYY-MM-DD], [YYYYMMDD], [YYYY-Www], [YYYY-Www-D], [YYYYWww], [YYYYWwwD]
    that Python reads since 3.11, the oldest version the project runs on; what follows a
    basic form in a text of ten bytes is not looked at. *)
Definition date_fromisoformat (s : text) : option date :=
  if negb (existsb (Nat.eqb (String.length s)) [7; 8; 10])%nat then None else
  '(y, rest) ← take_digits 4 0 s;
  let extended := match expect "-"%char rest with Some _ => true | None => false end in
  rest ← separator extended rest;
  match expect "W"%char rest with
  | Some week => parse_week_form extended y week
  | None => parse_month_form extended y rest
  end.

(** ** [validate_new_memory] *)

Definition byte_length (t : text) : Z := Z.of_nat (String.length t).
Definition default_text (t : option text) : text := default ""%string t.

Definition starts_with_dashes (s : text) : bool := String.prefix "--" s.
Definition drop_dashes (s : text) : text :=
  match s with String _ (String _ rest) => rest | _ => s end.

(** [f"2000-{value.removeprefix('--')}"] for a yearless anchor. *)
Definition normalized_anchor (value : text) : text :=
  if starts_with_dashes value then ("2000-" +:+ drop_dashes value)%string else value.

(** [date.fromisoformat] and one more day. *)
Definition anchor_date_ok (value : text) : bool :=
  match date_fromisoformat (normalized_anchor value) with
  | None => false
  | Some d => match add_days d 1 with Ok _ => true | Err _ => false end
  end.

Definition check_anchor (m : NewMemory) : res memory_exn unit :=
  match nm_date_anchor m with
  | None =>
    if bool_decide (nm_recurrence m = Yearly)
    then Err (MemoryValidationError "date_anchor" "yearly recurrence requires date_anchor")
    else mret tt
  | Some value =>
    if negb (anchor_date_ok value)
    then Err (MemoryValidationError "date_anchor" "must be an ISO date or --MM-DD")
    else if starts_with_dashes value && negb (bool_decide (nm_recurrence m = Yearly))
    then Err (MemoryValidationError "date_anchor" "yearless date_anchor requires yearly recurrence")
    else mret tt
  end.

Definition exceeds_text (maximum : Z) : text :=
  ("exceeds " +:+ pretty maximum +:+ " UTF-8 bytes")%string.

Definition bounded_fields (m : NewMemory) : list (text * option text * Z) :=
  [("content"%string, Some (nm_content m), MAX_MEMORY_CONTENT_BYTES);
   ("entity"%string, nm_entity m, MAX_MEMORY_ENTITY_BYTES);
   ("entity_path"%string, nm_entity_path m, MAX_MEMORY_ENTITY_PATH_BYTES);
   ("date_anchor"%string, nm_date_anchor m, MAX_MEMORY_DATE_ANCHOR_BYTES)].

Fixpoint check_bounded (fields : list (text * option text * Z)) : res memory_exn unit :=
  match fields with
  | [] => mret tt
  | (field, value, maximum) :: rest =>
    if match value with Some v => maximum <? byte_length v | None => false end
    then Err (MemoryValidationError field (exceeds_text maximum))
    else check_bounded rest
  end.

Definition record_bytes (m : NewMemory) : Z :=
  foldr Z.add 0 (byte_length <$>
    [memory_kind_text (nm_kind m); nm_content m; default_text (nm_entity m);
     default_text (entity_kind_text <$> nm_entity_kind m); default_text (nm_entity_path m);
     attribute_text (nm_attribute m); default_text (nm_date_anchor m);
     recurrence_text (nm_recurrence m); memory_source_text (nm_source m)]).

Definition validate_new_memory (m : NewMemory) : res memory_exn unit :=
  check_anchor m;;
  check_bounded (bounded_fields m);;
  if MAX_MEMORY_RECORD_BYTES <? record_bytes m
  then Err (MemoryValidationError "record" (exceeds_text MAX_MEMORY_RECORD_BYTES)) else
  if negb ((0 <=? nm_lead_days m) && (nm_lead_days m <=? MAX_MEMORY_LEAD_DAYS))
  then Err (MemoryValidationError "lead_days" "must be between 0 and 366") else
  mret tt.

(** ** Normalization *)

(** [str.split(sep)] on one character: at least one segment. *)
Fixpoint split_on (c : ascii) (s : text) : list text :=
  match s with
  | EmptyString => [""%string]
  | String a rest =>
    if Ascii.eqb a c then ""%string :: split_on c rest
    else match split_on c rest with
         | seg :: segs => String a seg :: segs
         | [] => [String a ""%string]
         end
  end.

(** [sep.join(parts)]. *)
Fixpoint join (sep : text) (parts : list text) : text :=
  match parts with
  | [] => ""
  | [p] => p
  | p :: rest => p +:+ sep +:+ join sep rest
  end%string.

(** [query.replace('\\', '\\\\').replace('%', '\\%').replace('_', '\\_')]. *)
Definition backslash : ascii := "092"%char.
Fixpoint replace_char (c : ascii) (by_ : text) (s : text) : text :=
  match s with
  | EmptyString => EmptyString
  | String a rest => ((if Ascii.eqb a c then by_ else String a EmptyString) +:+ replace_char c by_ rest)%string
  end.
Definition escape_like (query : text) : text :=
  replace_char "_"%char (String backslash "_")
    (replace_char "%"%char (String backslash "%")
      (replace_char backslash (String backslash (String backslash EmptyString)) query)).

(** What the standard library takes from the Unicode tables: NFC normalization, case
    folding, and stripping and splitting at white space. *)
Class Unicode := {
  nfc : text → text;
  casefold : text → text;
  strip : text → text;
  split_ws : text → list text;
}.

(** These functions on ASCII text. *)
Definition is_space (c : ascii) : bool :=
  let n := N_of_ascii c in ((9 <=? n) && (n <=? 13) || (28 <=? n) && (n <=? 32))%N.
Fixpoint lstrip_ascii (s : text) : text :=
  match s with String c rest => if is_space c then lstrip_ascii rest else s | EmptyString => s end.
Fixpoint rstrip_ascii (s : text) : text :=
  match s with
  | EmptyString => s
  | String c rest =>
    match rstrip_ascii rest with
    | EmptyString => if is_space c then EmptyString else String c EmptyString
    | rest' => String c rest'
    end
  end.
Fixpoint split_words (s : text) : list text :=
  match s with
  | EmptyString => []
  | String c rest =>
    if is_space c then split_words rest else
    let next_in_word := match rest with String c' _ => negb (is_space c') | EmptyString => false end in
    match split_words rest with
    | w :: ws => if next_in_word then String c w :: ws else String c EmptyString :: w :: ws
    | [] => [String c EmptyString]
    end
  end.
Fixpoint lower_ascii (s : text) : text :=
  match s with
  | EmptyString => s
  | String c rest =>
    let n := N_of_ascii c in
    String (if (65 <=? n) && (n <=? 90) then ascii_of_N (n + 32) else c)%N (lower_ascii rest)
  end.
Definition ascii_unicode : Unicode := {|
  nfc := id; casefold := lower_ascii; strip s := rstrip_ascii (lstrip_ascii s); split_ws := split_words |}.

Example ascii_normalization :
  (strip (Unicode := ascii_unicode) "  Jane Doe ",
   join " " (split_ws (Unicode := ascii_unicode) (casefold (Unicode := ascii_unicode) " Call  BOB now"))) =
  ("Jane Doe", "call bob now")%string.
Proof. reflexivity. Qed.

(** The values a free dated memory's identity is made of, which a new and a stored memory
    both have. *)
Class FreeDatedMemory (A : Type) := {
  fd_kind : A → MemoryKind;
  fd_content : A → text;
  fd_date_anchor : A → option text;
  fd_recurrence : A → MemoryRecurrence;
}.
#[export] Instance new_memory_dated : FreeDatedMemory NewMemory := {|
  fd_kind := nm_kind; fd_content := nm_content; fd_date_anchor := nm_date_anchor;
  fd_recurrence := nm_recurrence |}.
#[export] Instance stored_memory_dated : FreeDatedMemory MemoryItem := {|
  fd_kind := mi_kind; fd_content := mi_content; fd_date_anchor := mi_date_anchor;
  fd_recurrence := mi_recurrence |}.

Section Normalize.
Context {U : Unicode}.

Definition normalize_label (label : text) : res memory_exn text :=
  let normalized := strip (nfc label) in
  if bool_decide (normalized = ""%string)
  then Err (MemoryValidationError "entity" "must not be empty") else Ok normalized.

Definition normalize_alias (alias : text) : text :=
  join "" (split_ws (casefold (nfc alias))).

Definition normalize_memory_content (content : text) : text :=
  join " " (split_ws (casefold (nfc content))).

Definition FreeDatedMemoryKey : Type :=
  MemoryKind * option Z * option text * MemoryRecurrence * text.
Definition free_dated_memory_key `{FreeDatedMemory A} (m : A) (entity_id : option Z) : FreeDatedMemoryKey :=
  (fd_kind m, entity_id, fd_date_anchor m, fd_recurrence m, normalize_memory_content (fd_content m)).

Definition entity_aliases (label : text) (path : option text) : list text :=
  match path with
  | None => [label]
  | Some path =>
    let leaf := default ""%string (last (split_on "/"%char path)) in
    if bool_decide (normalize_alias label = normalize_alias leaf) then [label] else [label; leaf]
  end.

Definition normalize_path (path : text) : res memory_exn text :=
  let segments := split_on "/"%char path in
  if negb ((1 <=? length segments) && (length segments <=? 3))%nat
  then Err (MemoryValidationError "entity_path" "must have between 1 and 3 segments") else
  let normalized_segments := (λ s, strip (nfc s)) <$> segments in
  if existsb (λ s, bool_decide (s = ""%string)) normalized_segments
  then Err (MemoryValidationError "entity_path" "must not contain empty segments")
  else Ok (join "/" normalized_segments).

Definition normalize_opt_path (path : option text) : res memory_exn (option text) :=
  match path with Some p => Some <$> normalize_path p | None => Ok None end.

(** The normalized prefix and the pattern of its children. *)
Definition prefix_filter (path_prefix : option text) : res memory_exn (option text * option text) :=
  match normalize_opt_path path_prefix with
  | Err e => Err e
  | Ok normalized_prefix =>
    Ok (normalized_prefix, (λ p, (escape_like p +:+ "/%")%string) <$> normalized_prefix)
  end.
End Normalize.

(** SQLite's [LIKE ... ESCAPE '\']: a percent sign matches any text, an underscore one
    character, an escaped character itself, and letters match without ASCII case. *)
Definition ascii_lower (c : ascii) : N :=
  let n := N_of_ascii c in if ((65 <=? n) && (n <=? 90))%N then (n + 32)%N else n.
Definition same_char (a b : ascii) : bool := (ascii_lower a =? ascii_lower b)%N.
(** The bytes after the first of a UTF-8 character. *)
Definition continuation (c : ascii) : bool := (N.land (N_of_ascii c) 192 =? 128)%N.
Fixpoint drop_continuation (s : text) : text :=
  match s with
  | String c rest => if continuation c then drop_continuation rest else s
  | EmptyString => EmptyString
  end.

(** All suffixes, the text itself first. *)
Fixpoint suffixes (s : text) : list text :=
  s :: match s with EmptyString => [] | String _ rest => suffixes rest end.

Fixpoint like (fuel : nat) (pattern s : text) : bool :=
  match fuel with
  | O => false
  | S fuel =>
    match pattern with
    | EmptyString => match s with EmptyString => true | _ => false end
    | String p ps =>
      if Ascii.eqb p "%"%char then existsb (like fuel ps) (suffixes s)
      else if Ascii.eqb p backslash then
        match ps, s with
        | String e ps', String c rest => same_char e c && like fuel ps' rest
        | _, _ => false
        end
      else match s with
           | EmptyString => false
           | String c rest =>
             if Ascii.eqb p "_"%char then like fuel ps (drop_continuation rest)
             else same_char p c && like fuel ps rest
           end
    end
  end.
(** Each step takes a character off the pattern. *)
Definition like_escape (pattern s : text) : bool := like (S (String.length pattern)) pattern s.

(** ** Tables *)

(** [memory_items]. *)
Record item_row := mk_item {
  it_id : Z;
  it_kind : MemoryKind;
  it_entity_id : option Z;
  it_attribute : MemoryAttribute;
  it_content : text;
  it_content_norm : text;
  it_date_anchor : option text;
  it_recurrence : MemoryRecurrence;
  it_lead_days : option Z;
  it_source : MemorySource;
  it_created_at : text;
  it_updated_at : text;
  it_archived : bool;
}.
Definition set_it_updated_at (v : text) (r : item_row) : item_row :=
  mk_item (it_id r) (it_kind r) (it_entity_id r) (it_attribute r) (it_content r) (it_content_norm r)
    (it_date_anchor r) (it_recurrence r) (it_lead_days r) (it_source r) (it_created_at r) v
    (it_archived r).
Definition set_it_archived (v : bool) (r : item_row) : item_row :=
  mk_item (it_id r) (it_kind r) (it_entity_id r) (it_attribute r) (it_content r) (it_content_norm r)
    (it_date_anchor r) (it_recurrence r) (it_lead_days r) (it_source r) (it_created_at r)
    (it_updated_at r) v.

(** [entity_aliases]. *)
Record alias_row := mk_alias {
  al_entity_id : Z;
  al_alias : text;
  al_alias_norm : text;
  al_source : MemorySource;
  al_created_at : text;
}.

Record memory_db := mk_memory_db {
  items : list item_row;
  entities : list Entity;
  aliases : list alias_row;
}.
Definition set_items (v : list item_row) (d : memory_db) : memory_db := mk_memory_db v (entities d) (aliases d).
Definition set_entities (v : list Entity) (d : memory_db) : memory_db := mk_memory_db (items d) v (aliases d).
Definition set_aliases (v : list alias_row) (d : memory_db) : memory_db := mk_memory_db (items d) (entities d) v.
Definition empty_memory : memory_db := mk_memory_db [] [] [].

Abbreviation mop := (M memory_db memory_exn).

Definition _MAX_MEMORY_ROWS : Z := 10000.
Definition _MAX_ENTITY_ROWS : Z := 5000.
Definition _MAX_ENTITY_ALIAS_ROWS : Z := 15000.

(** ** Reads *)

Definition entity_by_id (i : Z) (d : memory_db) : option Entity :=
  sql_find (λ e, en_id e =? i) (entities d).
Definition item_entity (r : item_row) (d : memory_db) : option Entity :=
  i ← it_entity_id r; entity_by_id i d.

(** An active item of the same entity and dated attribute has another date. *)
Definition is_contradictory (r : item_row) (d : memory_db) : bool :=
  match it_entity_id r, it_date_anchor r with
  | Some e, Some a =>
    sql_exists (λ o, bool_decide (it_entity_id o = Some e) &&
      bool_decide (it_attribute o = it_attribute r) &&
      match it_date_anchor o with Some b => negb (bool_decide (b = a)) | None => false end &&
      negb (it_archived o) && negb (bool_decide (it_attribute o = Free))) (items d)
  | _, _ => false
  end.

(** The [LEFT JOIN] every read shares. *)
Definition joined (r : item_row) (d : memory_db) : MemoryItem :=
  let e := item_entity r d in
  mk_memory_item (it_id r) (it_kind r) (it_entity_id r) (en_label <$> e) (en_kind <$> e)
    (e ≫= en_path) (it_attribute r) (it_content r) (it_date_anchor r) (it_recurrence r)
    (it_lead_days r) (it_source r) (it_created_at r) (it_updated_at r) (it_archived r)
    (is_contradictory r d).

Definition memory_by_id (i : Z) (d : memory_db) : option MemoryItem :=
  (λ r, joined r d) <$> sql_find (λ r, it_id r =? i) (items d).

Definition list_dated_memories (d : memory_db) : list MemoryItem :=
  (λ r, joined r d) <$>
    order_by (λ r, [KInt (it_id r)])
      (sql_select (λ r, negb (it_archived r) && bool_decide (is_Some (it_date_anchor r))) (items d)).

Definition entity_id_by_alias (alias_norm : text) (d : memory_db) : option Z :=
  al_entity_id <$> sql_find (λ a, bool_decide (al_alias_norm a = alias_norm)) (aliases d).
