(* ===== verification/IsoTime.v ===== *)
(** [time.fromisoformat] and [datetime.fromisoformat] as CPython 3.11 (the oldest version the
    project runs on) reads them: basic and extended forms, fractions and offsets, with the
    leniencies of its scanner.  Positions are byte positions of the text; a position past the
    end reads as the terminating zero byte. *)
From Stdlib Require Import Ascii.
From S2P Require Import Prelude PyDate PyTime Models Memory.
#[local] Open Scope Z_scope.

Definition NUL : ascii := "000"%char.
Definition byte_at (s : text) (i : nat) : ascii := default NUL (String.get i s).
Definition is_byte (c : ascii) (s : text) (i : nat) : bool := Ascii.eqb (byte_at s i) c.

Fixpoint digits_at (s : text) (i n : nat) (acc : Z) : option Z :=
  match n with
  | O => Some acc
  | S n => v ← digit_value (byte_at s i); digits_at s (S i) n (10 * acc + v)
  end.

(** ** [HH[:?MM[:?SS]]] and a fraction *)

(** Where the scan of the parts ended: at the end of the range, telling whether a character
    follows, or at the digits of a fraction. *)
Inductive scanned :=
  | Finished (follows : bool) (parts : list Z)
  | FractionAt (p : nat) (parts : list Z).

(** The separator is settled by the character after the hour. *)
Fixpoint clock_parts (n : nat) (separated : option bool) (s : text) (p e : nat) (parts : list Z)
    : option scanned :=
  match n with
  | O => Some (FractionAt p parts)
  | S n =>
    v ← digits_at s p 2 0;
    let c := byte_at s (p + 2) in
    let sep := default (Ascii.eqb c ":") separated in
    let parts := parts ++ [v] in
    if (e <=? p + 3)%nat then Some (Finished (negb (Ascii.eqb c NUL)) parts)
    else if sep && Ascii.eqb c ":" then clock_parts n (Some sep) s (p + 3) e parts
    else if Ascii.eqb c "." || Ascii.eqb c "," then Some (FractionAt (p + 3) parts)
    else if negb sep then clock_parts n (Some sep) s (p + 2) e parts
    else None
  end.

Fixpoint skip_digits (fuel : nat) (s : text) (p : nat) : nat :=
  match fuel with
  | O => p
  | S fuel => match digit_value (byte_at s p) with Some _ => skip_digits fuel s (S p) | None => p end
  end.

Record clock := mk_clock { ck_hour : Z; ck_minute : Z; ck_second : Z; ck_microsecond : Z }.
Definition clock_of (parts : list Z) (us : Z) : clock :=
  let part i := default 0 (parts !! i) in mk_clock (part 0%nat) (part 1%nat) (part 2%nat) us.

(** The clock between two positions, and whether a character follows what was read. *)
Definition parse_clock (s : text) (b e : nat) : option (bool * clock) :=
  r ← clock_parts 3 None s b e [];
  match r with
  | Finished follows parts => Some (follows, clock_of parts 0)
  | FractionAt p parts =>
    let n := Nat.min (e - p) 6 in
    us ← digits_at s p n 0;
    let p := skip_digits (String.length s) s (p + n) in
    Some (negb (is_byte NUL s p), clock_of parts (us * 10 ^ Z.of_nat (6 - n)))
  end.

(** ** Offsets *)

Fixpoint zone_position (fuel : nat) (s : text) (i e : nat) : nat :=
  match fuel with
  | O => i
  | S fuel =>
    if is_byte "+" s i || is_byte "-" s i || is_byte "Z" s i then i
    else if (S i <? e)%nat then zone_position fuel s (S i) e else S i
  end.

Definition clock_us (c : clock) : Z :=
  ck_hour c * US_PER_HOUR + ck_minute c * US_PER_MINUTE + ck_second c * US_PER_SECOND + ck_microsecond c.

(** An offset of whole seconds zero is UTC, whatever its fraction. *)
Definition offset_us (negative : bool) (c : clock) : option Z :=
  let seconds := ck_hour c * 3600 + ck_minute c * 60 + ck_second c in
  let us := if seconds =? 0 then 0 else clock_us c in
  if us <? US_PER_DAY then Some (if negative then - us else us) else None.

(** Hours, minutes and seconds in range: what the constructors check. *)
Definition valid_clock (c : clock) : bool :=
  (ck_hour c <=? 23) && (ck_minute c <=? 59) && (ck_second c <=? 59).

(** What follows the clock at [z]: nothing, [Z], or an offset to the end of the text. *)
Definition parse_zone (follows : bool) (s : text) (z : nat) : option (option Z) :=
  let n := String.length s in
  if (z =? n)%nat then (if follows then None else Some None)
  else if is_byte "Z" s z then (if is_byte NUL s (S z) then Some (Some 0) else None)
  else
    match parse_clock s (S z) n with
    | Some (false, c) => o ← offset_us (is_byte "-" s z) c; Some (Some o)
    | _ => None
    end.

(** The time of day in microseconds and its offset. *)
Definition parse_time (s : text) : option (Z * option Z) :=
  let n := String.length s in
  let z := zone_position (S n) s 0 n in
  '(follows, c) ← parse_clock s 0 z;
  zone ← parse_zone follows s z;
  if valid_clock c then Some (clock_us c, zone) else None.

(** [time.fromisoformat]. *)
Definition time_fromisoformat (s : text) : option (Z * option Z) :=
  match expect "T"%char s with
  | Some rest => parse_time rest
  | None => parse_time s
  end.

(** ** [datetime.fromisoformat] *)

Definition is_digit_at (s : text) (i : nat) : bool :=
  match digit_value (byte_at s i) with Some _ => true | None => false end.

(** How many bytes the date takes. *)
Definition separator_location (s : text) : option nat :=
  let n := String.length s in
  if (n <? 7)%nat then None else
  if (n =? 7)%nat then Some 7%nat else
  if is_byte "-" s 4 then
    if is_byte "W" s 5 then
      if (8 <? n)%nat && is_byte "-" s 8 then
        if (n =? 9)%nat then None
        else if (10 <? n)%nat && is_digit_at s 10 then Some 8%nat else Some 10%nat
      else Some 8%nat
    else Some 10%nat
  else if is_byte "W" s 4 then
    let p := skip_digits n s 7 in
    Some (if (p <? 9)%nat then p else if Nat.even p then 7 else 8)%nat
  else Some 8%nat.

(** The byte length of the separator character at a position. *)
Definition separator_width (s : text) (i : nat) : nat :=
  let n := N_of_ascii (byte_at s i) in
  if (n <? 128)%N then 1 else
  let h := N.land n 240 in if (h =? 224)%N then 3 else if (h =? 240)%N then 4 else 2.

(** The wall clock reading and its offset. *)
Definition datetime_fromisoformat (s : text) : option (Z * option Z) :=
  loc ← separator_location s;
  d ← date_fromisoformat (String.substring 0 loc s);
  '(t, zone) ← (if (loc <? String.length s)%nat
                then parse_time (String.substring (loc + separator_width s loc) (String.length s) s)
                else Some (0, None));
  Some ((toordinal d - 1) * US_PER_DAY + t, zone).

Example iso_extended : datetime_fromisoformat "2024-03-05T12:34:56.5+09:00" =
  Some (63845238896500000, Some 32400000000).
Proof. vm_compute. reflexivity. Qed.
Example iso_basic : datetime_fromisoformat "2024W053 1234Z" = Some (63842301240000000, Some 0).
Proof. vm_compute. reflexivity. Qed.
Example iso_naive : datetime_fromisoformat "2024-03-05늘12" = Some (63845236800000000, None).
Proof. vm_compute. reflexivity. Qed.
Example iso_times : (time_fromisoformat "T21:00", time_fromisoformat "24:00", time_fromisoformat "12:+01:00") =
  (Some (75600000000, None), None, Some (43200000000, Some 3600000000)).
Proof. vm_compute. reflexivity. Qed.
