(* ===== verification/MemoryStore.v ===== *)
(** The operations of the memory store: [store/_memory_entities.py],
    [store/_memory_queries.py] and [store/memory.py].  The invariant [memory_ok], that
    every operation keeps it and that no statement runs into a table constraint; the
    merging of dated memories; keyset paging over entities; literal recall. *)
From stdpp Require Import strings.
From Stdlib Require Import Ascii.
From S2P Require Import Prelude PyDate PyTime Memory.
#[local] Open Scope Z_scope.

(** ** Statements *)

(** [COALESCE(entity_id, 0)]. *)
Definition coalesce0 (e : option Z) : Z := default 0 e.

(** The columns of [uq_memory_dated_fact] on the rows it covers. *)
Definition dated_fact (r : item_row) : option (Z * MemoryAttribute * text) :=
  match it_archived r, it_entity_id r, it_date_anchor r with
  | false, Some e, Some a => if bool_decide (it_attribute r = Free) then None else Some (e, it_attribute r, a)
  | _, _, _ => None
  end.

(** The columns of [uq_memory_free_dated] on the rows it covers. *)
Definition free_dated (r : item_row) : option (MemoryKind * Z * text * MemoryRecurrence * text) :=
  match it_archived r, it_date_anchor r with
  | false, Some a =>
    if bool_decide (it_attribute r = Free)
    then Some (it_kind r, coalesce0 (it_entity_id r), a, it_recurrence r, it_content_norm r)
    else None
  | _, _ => None
  end.

(** A row collides with another in one of the two unique indexes. *)
Definition collides (r o : item_row) : bool :=
  negb (it_id o =? it_id r) &&
  (bool_decide (is_Some (dated_fact r) ∧ dated_fact o = dated_fact r) ||
   bool_decide (is_Some (free_dated r) ∧ free_dated o = free_dated r)).

(** What the triggers [memory_items_security_bounds_*] and the foreign key let pass. *)
Definition bounds_ok (r : item_row) : bool :=
  match it_lead_days r with
  | Some l => negb ((l <? 0) || (366 <? l)) | None => true end &&
  negb (bool_decide (it_date_anchor r = Some "9999-12-31"%string)).
Definition references_ok (r : item_row) (d : memory_db) : bool :=
  match it_entity_id r with Some e => bool_decide (is_Some (entity_by_id e d)) | None => true end.

(** A written row meets the constraints of [memory_items], or the statement raises. *)
Definition item_allowed (r : item_row) (d : memory_db) : bool :=
  bounds_ok r && references_ok r d && negb (sql_exists (collides r) (items d)).

(** The columns the operations write. *)
Definition written (m : NewMemory) (entity_id : option Z) (norm created updated : text)
    (archived : bool) (i : Z) : item_row :=
  mk_item i (nm_kind m) entity_id (nm_attribute m) (nm_content m) norm (nm_date_anchor m)
    (nm_recurrence m) (Some (nm_lead_days m)) (nm_source m) created updated archived.

(** [INSERT_MEMORY_ITEM] and [LAST_INSERT_ROWID]. *)
Definition INSERT_MEMORY_ITEM (m : NewMemory) (entity_id : option Z) (norm timestamp : text) : mop Z :=
  i ← gets (λ d, next_rowid (it_id <$> items d));
  let r := written m entity_id norm timestamp timestamp false i in
  allowed ← gets (item_allowed r);
  if negb allowed then raise MemoryIntegrityError else
  modify (λ d, set_items (items d ++ [r]) d);; mret i.

(** [UPDATE_MEMORY_ITEM]: the archived flag and the creation time stay. *)
Definition UPDATE_MEMORY_ITEM (m : NewMemory) (entity_id : option Z) (norm timestamp : text) (i : Z)
    : mop unit :=
  let new (r : item_row) := written m entity_id norm (it_created_at r) timestamp (it_archived r) (it_id r) in
  allowed ← gets (λ d, forallb (λ r, item_allowed (new r) d) (sql_select (λ r, it_id r =? i) (items d)));
  if negb allowed then raise MemoryIntegrityError else
  modify (λ d, set_items (sql_update (λ r, it_id r =? i) new (items d)) d).

Definition UPDATE_MEMORY_TIMESTAMP (timestamp : text) (i : Z) : mop unit :=
  modify (λ d, set_items (sql_update (λ r, it_id r =? i) (set_it_updated_at timestamp) (items d)) d).
Definition ARCHIVE_MEMORY_ITEM (timestamp : text) (i : Z) : mop unit :=
  modify (λ d, set_items (sql_update (λ r, (it_id r =? i) && negb (it_archived r))
    (λ r, set_it_archived true (set_it_updated_at timestamp r)) (items d)) d).

(** [INSERT_ENTITY] and [LAST_INSERT_ROWID]. *)
Definition INSERT_ENTITY (k : EntityKind) (path : option text) (label timestamp : text) : mop Z :=
  i ← gets (λ d, next_rowid (en_id <$> entities d));
  modify (λ d, set_entities (entities d ++ [mk_entity i k path label EntityActive timestamp timestamp]) d);;
  mret i.

(** [INSERT_ENTITY_ALIAS]: [uq_entity_alias_norm] raises. *)
Definition INSERT_ENTITY_ALIAS (a : alias_row) : mop unit :=
  taken ← gets (entity_id_by_alias (al_alias_norm a));
  match taken with
  | Some _ => raise MemoryIntegrityError
  | None => modify (λ d, set_aliases (aliases d ++ [a]) d)
  end.

(** ** Entities *)

Section Operations.
Context {U : Unicode}.

(** The first alias that is assigned already. *)
Definition assigned_alias (l : list text) (d : memory_db) : option text :=
  head (filter (λ a, is_Some (entity_id_by_alias (normalize_alias a) d)) l).

Definition _create_entity (m : NewMemory) (label : text) (path : option text) (timestamp : text)
    : mop Entity :=
  match nm_entity_kind m with
  | None => raise (MemoryValidationError "entity_kind" "is required when entity is set")
  | Some entity_kind =>
    let aliases := entity_aliases label path in
    assigned ← gets (assigned_alias aliases);
    match assigned with
    | Some alias => raise (EntityAliasConflictError alias)
    | None =>
      new_entity_id ← INSERT_ENTITY entity_kind path label timestamp;
      for_each (λ _ alias,
        INSERT_ENTITY_ALIAS (mk_alias new_entity_id alias (normalize_alias alias) (nm_source m) timestamp))
        tt aliases;;
      created ← gets (entity_by_id new_entity_id);
      match created with
      | Some e => mret e
      | None => raise (MemoryValidationError "entity" "was not created")
      end
    end
  end.

Definition resolve_entity (m : NewMemory) (timestamp : text) : mop (option Entity) :=
  match nm_entity m with
  | None =>
    if bool_decide (is_Some (nm_entity_kind m)) || bool_decide (is_Some (nm_entity_path m))
    then raise (MemoryValidationError "entity" "is required for entity metadata") else mret None
  | Some name =>
    label ← lift (normalize_label name);
    match nm_entity_kind m with
    | None => raise (MemoryValidationError "entity_kind" "is required when entity is set")
    | Some kind =>
      path ← lift (normalize_opt_path (nm_entity_path m));
      entity_id ← gets (entity_id_by_alias (normalize_alias label));
      match entity_id with
      | Some entity_id =>
        target ← gets (entity_by_id entity_id);
        match target with
        | None => raise (MemoryValidationError "entity" "alias target does not exist")
        | Some e =>
          if negb (bool_decide (en_kind e = kind))
          then raise (MemoryValidationError "entity_kind" "does not match the alias entity")
          else mret (Some e)
        end
      | None => e ← _create_entity m label path timestamp; mret (Some e)
      end
    end
  end.

(** [path = prefix OR path LIKE pattern ESCAPE '\'], where SQL's unknown is not selected. *)
Definition path_matches (normalized_prefix prefix_pattern : option text) (path : option text) : bool :=
  match normalized_prefix, prefix_pattern with
  | Some prefix, Some pattern =>
    match path with Some p => bool_decide (p = prefix) || like_escape pattern p | None => false end
  | _, _ => true
  end.
Definition kind_matches (k : option EntityKind) (e : Entity) : bool :=
  match k with Some k => bool_decide (en_kind e = k) | None => true end.

Definition entity_key (e : Entity) : list sql_key :=
  [KText (entity_kind_text (en_kind e)); KText (default ""%string (en_path e));
   KText (en_label e); KInt (en_id e)].

(** The rows after the cursor; an unknown cursor id selects none. *)
Definition after_cursor (after_id : Z) (d : memory_db) (e : Entity) : bool :=
  if after_id =? 0 then true else
  match entity_by_id after_id d with
  | Some cursor => negb (keys_leb (entity_key e) (entity_key cursor))
  | None => false
  end.

Definition listed (kind : option EntityKind) (prefix pattern : option text) (e : Entity) : bool :=
  bool_decide (en_status e = EntityActive) && kind_matches kind e && path_matches prefix pattern (en_path e).

(** [SELECT_ACTIVE_ENTITIES]. *)
Definition select_active_entities (kind : option EntityKind) (prefix pattern : option text)
    (after_id limit : Z) (d : memory_db) : list Entity :=
  take (Z.to_nat limit) (order_by entity_key
    (sql_select (λ e, after_cursor after_id d e && listed kind prefix pattern e) (entities d))).

Definition list_active_entities (kind : option EntityKind) (path_prefix : option text)
    (after_id limit : Z) : mop (list Entity) :=
  '(prefix, pattern) ← lift (prefix_filter path_prefix);
  gets (select_active_entities kind prefix pattern after_id limit).

(** ** Duplicates *)

(** The rows [SELECT_DATED_DUPLICATE] and [SELECT_FREE_DATED_DUPLICATE] select. *)
Definition dated_duplicate (m : NewMemory) (e : Z) (r : item_row) : bool :=
  bool_decide (it_entity_id r = Some e) && bool_decide (it_attribute r = nm_attribute m) &&
  bool_decide (it_date_anchor r = nm_date_anchor m) && bool_decide (is_Some (it_date_anchor r)) &&
  negb (it_archived r).
Definition free_duplicate (key : FreeDatedMemoryKey) (r : item_row) : bool :=
  let '(kind, e, anchor, recurrence, norm) := key in
  bool_decide (it_kind r = kind) && (coalesce0 (it_entity_id r) =? coalesce0 e) &&
  bool_decide (it_date_anchor r = anchor) && bool_decide (is_Some (it_date_anchor r)) &&
  bool_decide (it_recurrence r = recurrence) && bool_decide (it_content_norm r = norm) &&
  negb (it_archived r) && bool_decide (it_attribute r = Free).
Definition not_excluded (excluding_id : option Z) (r : item_row) : bool :=
  match excluding_id with Some i => negb (it_id r =? i) | None => true end.

Definition dated_duplicate_id (m : NewMemory) (entity_id excluding_id : option Z) (d : memory_db)
    : option Z :=
  match nm_date_anchor m with
  | None => None
  | Some _ =>
    if bool_decide (nm_attribute m = Free)
    then it_id <$> sql_find (λ r, free_duplicate (free_dated_memory_key m entity_id) r &&
                                  not_excluded excluding_id r) (items d)
    else match entity_id with
         | None => None
         | Some e => it_id <$> sql_find (λ r, dated_duplicate m e r && not_excluded excluding_id r) (items d)
         end
  end.

(** ** [MemoryStore] *)

Definition _require_entity_capacity : mop unit :=
  entity_count ← gets (λ d, Z.of_nat (length (entities d)));
  if _MAX_ENTITY_ROWS <? entity_count
  then raise (MemoryValidationError "quota" "entity limit is 5000") else
  alias_count ← gets (λ d, Z.of_nat (length (aliases d)));
  if _MAX_ENTITY_ALIAS_ROWS <? alias_count
  then raise (MemoryValidationError "quota" "entity alias limit is 15000") else mret tt.

(** [memory_by_id], or [MemoryNotFoundError]. *)
Definition require_memory (i : Z) : mop MemoryItem :=
  found ← gets (memory_by_id i);
  match found with Some item => mret item | None => raise (MemoryNotFoundError i) end.

(** The body of [remember]'s transaction. *)
Definition remember_body (m : NewMemory) (timestamp : text) : mop MemoryItem :=
  entity ← resolve_entity m timestamp;
  _require_entity_capacity;;
  duplicate_id ← gets (dated_duplicate_id m (en_id <$> entity) None);
  match duplicate_id with
  | Some i => UPDATE_MEMORY_TIMESTAMP timestamp i;; require_memory i
  | None =>
    count ← gets (λ d, sql_count (λ r, negb (it_archived r)) (items d));
    if _MAX_MEMORY_ROWS <=? count
    then raise (MemoryValidationError "quota" "memory item limit is 10000") else
    i ← INSERT_MEMORY_ITEM m (en_id <$> entity) (normalize_memory_content (nm_content m)) timestamp;
    require_memory i
  end.

(** [now] is the UTC instant of the clock. *)
Definition remember (m : NewMemory) (now : instant) : mop MemoryItem :=
  lift (validate_new_memory m);;
  immediate_transaction (remember_body m (utc_iso now)).

(** The body of [update]'s transaction. *)
Definition update_body (i : Z) (m : NewMemory) (timestamp : text) : mop MemoryItem :=
  existing ← require_memory i;
  entity ← resolve_entity m timestamp;
  _require_entity_capacity;;
  duplicate_id ← gets (dated_duplicate_id m (en_id <$> entity) (Some i));
  match duplicate_id with
  | Some _ => raise (MemoryValidationError "date_anchor" "duplicates an active dated fact")
  | None =>
    UPDATE_MEMORY_ITEM m (en_id <$> entity) (normalize_memory_content (nm_content m)) timestamp
      (mi_id existing);;
    require_memory i
  end.

Definition update (i : Z) (m : NewMemory) (now : instant) : mop MemoryItem :=
  lift (validate_new_memory m);;
  immediate_transaction (update_body i m (utc_iso now)).

Definition page_limit_ok (limit : Z) : bool := (1 <=? limit) && (limit <=? MAX_MEMORY_PAGE_SIZE).

(** A column that may be NULL against a pattern. *)
Definition matches (pattern : text) (column : option text) : bool :=
  match column with Some s => like_escape pattern s | None => false end.

(** The [WHERE] of [SELECT_RECALL_MEMORY_ITEMS]. *)
Definition recalled (pattern : text) (kind : option MemoryKind) (entity_kind : option EntityKind)
    (prefix prefix_pattern : option text) (d : memory_db) (r : item_row) : bool :=
  let e := item_entity r d in
  negb (it_archived r) &&
  (matches pattern (en_label <$> e) || matches pattern (e ≫= en_path) || like_escape pattern (it_content r) ||
   match e with
   | Some e => sql_exists (λ a, (al_entity_id a =? en_id e) && like_escape pattern (al_alias a)) (aliases d)
   | None => false
   end) &&
  match kind with Some k => bool_decide (it_kind r = k) | None => true end &&
  match entity_kind with Some k => bool_decide (en_kind <$> e = Some k) | None => true end &&
  path_matches prefix prefix_pattern (e ≫= en_path).

(** [ORDER BY updated_at DESC, id DESC]. *)
Definition newest_first (rows : list item_row) : list item_row :=
  reverse (order_by (λ r, [KText (it_updated_at r); KInt (it_id r)]) rows).

Definition recall (query : text) (kind : option MemoryKind) (entity_kind : option EntityKind)
    (path_prefix : option text) (limit : Z) : mop (list MemoryItem) :=
  if negb (page_limit_ok limit)
  then raise (MemoryValidationError "limit" "must be between 1 and 100") else
  '(prefix, prefix_pattern) ← lift (prefix_filter path_prefix);
  let pattern := ("%" +:+ escape_like query +:+ "%")%string in
  gets (λ d, (λ r, joined r d) <$>
    take (Z.to_nat limit) (newest_first
      (sql_select (recalled pattern kind entity_kind prefix prefix_pattern d) (items d)))).

Definition list_entities (kind : option EntityKind) (path_prefix : option text) (after_id limit : Z)
    : mop (list Entity) :=
  if after_id <? 0 then raise (MemoryValidationError "after_id" "must be non-negative") else
  if negb (page_limit_ok limit)
  then raise (MemoryValidationError "limit" "must be between 1 and 100") else
  list_active_entities kind path_prefix after_id limit.

(** [replace(item, updated_at=timestamp, archived=True)]. *)
Definition archived_item (timestamp : text) (item : MemoryItem) : MemoryItem :=
  mk_memory_item (mi_id item) (mi_kind item) (mi_entity_id item) (mi_entity item) (mi_entity_kind item)
    (mi_entity_path item) (mi_attribute item) (mi_content item) (mi_date_anchor item)
    (mi_recurrence item) (mi_lead_days item) (mi_source item) (mi_created_at item) timestamp true
    (mi_is_contradictory item).

Definition forget (i : Z) (now : instant) : mop MemoryItem :=
  item ← require_memory i;
  if mi_archived item then mret item else
  ARCHIVE_MEMORY_ITEM (utc_iso now) i;;
  mret (archived_item (utc_iso now) item).
End Operations.

(** ** The invariant *)

(** Keys are unique, references resolve, and every row meets the table's checks and its
    two unique indexes. *)
Record memory_ok (d : memory_db) : Prop := {
  mo_items : NoDup (it_id <$> items d);
  mo_entities : NoDup (en_id <$> entities d);
  mo_positive : ∀ e, e ∈ entities d → 0 < en_id e;
  mo_aliases : NoDup (al_alias_norm <$> aliases d);
  mo_targets : ∀ a, a ∈ aliases d → is_Some (entity_by_id (al_entity_id a) d);
  mo_references : ∀ r, r ∈ items d → references_ok r d = true;
  mo_bounds : ∀ r, r ∈ items d → bounds_ok r = true;
  mo_unique : ∀ r o, r ∈ items d → o ∈ items d → collides r o = false;
}.

Lemma memory_ok_empty : memory_ok empty_memory.
Proof. split; try apply NoDup_nil_2; set_solver. Qed.

(** *** Collisions *)

Lemma collides_sym r o : collides r o = collides o r.
Proof.
  unfold collides. rewrite (Z.eqb_sym (it_id r)). f_equal. f_equal; apply bool_decide_ext;
    split; intros [? Heq]; by rewrite Heq.
Qed.

Lemma collides_same_id r o : it_id r = it_id o → collides r o = false.
Proof. intros Hid. unfold collides. by rewrite Hid, Z.eqb_refl. Qed.

Lemma collides_none r o : dated_fact r = None → free_dated r = None → collides r o = false.
Proof.
  intros Hd Hf. unfold collides. rewrite Hd, Hf, !bool_decide_eq_false_2; [by rewrite andb_false_r|..];
    by intros [[? ?] _].
Qed.

Lemma collides_ext r r' o o' :
  it_id r' = it_id r → it_id o' = it_id o → dated_fact r' = dated_fact r → dated_fact o' = dated_fact o →
  free_dated r' = free_dated r → free_dated o' = free_dated o → collides r' o' = collides r o.
Proof. unfold collides. by intros -> -> -> -> -> ->. Qed.

(** *** Writes to the items *)

Lemma memory_ok_insert_item r d :
  memory_ok d → it_id r = next_rowid (it_id <$> items d) → item_allowed r d = true →
  memory_ok (set_items (items d ++ [r]) d).
Proof.
  unfold item_allowed. rewrite !andb_true_iff, negb_true_iff.
  intros [] Hid [[Hbounds Href] Hnew]. rewrite sql_exists_false in Hnew.
  split; simpl; try done.
  - rewrite fmap_app. apply NoDup_app. split; [done|]. split; [|apply NoDup_singleton].
    intros i Hi%next_rowid_fresh Hir%list_elem_of_singleton. lia.
  - intros ? [?| ->%list_elem_of_singleton]%elem_of_app; [by apply mo_references0|done].
  - intros ? [?| ->%list_elem_of_singleton]%elem_of_app; [by apply mo_bounds0|done].
  - intros r1 r2 [?| ->%list_elem_of_singleton]%elem_of_app [?| ->%list_elem_of_singleton]%elem_of_app; auto.
    + rewrite collides_sym. auto.
    + by apply collides_same_id.
Qed.

Lemma memory_ok_update_items p f d :
  memory_ok d → (∀ r, it_id (f r) = it_id r) →
  (∀ r, r ∈ items d → p r = true → bounds_ok (f r) = true ∧ references_ok (f r) d = true ∧
    ∀ o, o ∈ items d → collides (f r) (if p o then f o else o) = false) →
  memory_ok (set_items (sql_update p f (items d)) d).
Proof.
  intros [] Hid Hf. split; simpl; try done.
  - by rewrite sql_update_column.
  - intros ? (r & -> & Hr)%elem_of_sql_update. destruct (p r) eqn:Hp; [by apply Hf|by apply mo_references0].
  - intros ? (r & -> & Hr)%elem_of_sql_update. destruct (p r) eqn:Hp; [by apply Hf|by apply mo_bounds0].
  - intros ? ? (r & -> & Hr)%elem_of_sql_update (o & -> & Ho)%elem_of_sql_update.
    destruct (p r) eqn:Hp; [by apply Hf|]. destruct (p o) eqn:Hpo; [|auto].
    rewrite collides_sym. specialize (Hf o Ho Hpo) as (_ & _ & Hc). specialize (Hc r Hr). by rewrite Hp in Hc.
Qed.

Lemma memory_ok_touch timestamp i d :
  memory_ok d → memory_ok (set_items (sql_update (λ r, it_id r =? i) (set_it_updated_at timestamp) (items d)) d).
Proof.
  intros Hok. apply memory_ok_update_items; [done..|]. intros r Hr _.
  split; [exact (mo_bounds d Hok r Hr)|]. split; [exact (mo_references d Hok r Hr)|].
  intros o Ho. destruct (it_id o =? i); rewrite (collides_ext r _ o) by done; by apply (mo_unique d Hok).
Qed.

Lemma memory_ok_archive timestamp i d :
  memory_ok d → memory_ok (set_items (sql_update (λ r, (it_id r =? i) && negb (it_archived r))
    (λ r, set_it_archived true (set_it_updated_at timestamp r)) (items d)) d).
Proof.
  intros Hok. apply memory_ok_update_items; [done..|]. intros r Hr _.
  split; [exact (mo_bounds d Hok r Hr)|]. split; [exact (mo_references d Hok r Hr)|].
  intros o Ho. by apply collides_none.
Qed.

Lemma memory_ok_rewrite m e norm timestamp i d :
  memory_ok d →
  let new r := written m e norm (it_created_at r) timestamp (it_archived r) (it_id r) in
  forallb (λ r, item_allowed (new r) d) (sql_select (λ r, it_id r =? i) (items d)) = true →
  memory_ok (set_items (sql_update (λ r, it_id r =? i) new (items d)) d).
Proof.
  intros Hok new Hall. rewrite forallb_forall in Hall.
  apply memory_ok_update_items; [done..|]. intros r Hr Hi.
  assert (item_allowed (new r) d = true) as Ha.
  { apply Hall, list_elem_of_In, elem_of_sql_select. done. }
  unfold item_allowed in Ha. rewrite !andb_true_iff, negb_true_iff, sql_exists_false in Ha.
  destruct Ha as [[? ?] Hnew]. split_and!; [done..|]. intros o Ho.
  destruct (it_id o =? i) eqn:Ho'; [|by apply Hnew].
  apply collides_same_id. rewrite Z.eqb_eq in Hi, Ho'. simpl. lia.
Qed.

Lemma require_memory_run i d :
  require_memory i d = (match memory_by_id i d with Some item => Ok item | None => Err (MemoryNotFoundError i) end, d).
Proof. unfold require_memory. step. by destruct (memory_by_id i d). Qed.

(** *** Entities and aliases *)

(** A new row's id is not found among the old ones. *)
Lemma entity_by_id_grow i es d :
  is_Some (entity_by_id i d) → entity_by_id i (set_entities (entities d ++ es) d) = entity_by_id i d.
Proof. unfold entity_by_id. simpl. rewrite sql_find_app. by intros [? ->]. Qed.

Lemma entity_by_new_id d e :
  en_id e = next_rowid (en_id <$> entities d) →
  entity_by_id (en_id e) (set_entities (entities d ++ [e]) d) = Some e.
Proof.
  intros Hid. by apply (sql_find_appended en_id).
Qed.

Lemma memory_ok_insert_entity e d :
  memory_ok d → en_id e = next_rowid (en_id <$> entities d) →
  memory_ok (set_entities (entities d ++ [e]) d).
Proof.
  intros [] Hid. split; simpl; try done.
  - rewrite fmap_app. apply NoDup_app. split; [done|]. split; [|apply NoDup_singleton].
    intros i Hi%next_rowid_fresh Hie%list_elem_of_singleton. lia.
  - intros ? [?| ->%list_elem_of_singleton]%elem_of_app; [by apply mo_positive0|].
    rewrite Hid. apply next_rowid_positive.
  - intros a Ha. rewrite entity_by_id_grow by auto. auto.
  - intros r Hr. specialize (mo_references0 r Hr). unfold references_ok in *.
    destruct (it_entity_id r) as [i|]; [|done]. rewrite bool_decide_eq_true in mo_references0.
    rewrite entity_by_id_grow by done. by rewrite bool_decide_eq_true.
Qed.

Lemma memory_ok_insert_alias a d :
  memory_ok d → entity_id_by_alias (al_alias_norm a) d = None → is_Some (entity_by_id (al_entity_id a) d) →
  memory_ok (set_aliases (aliases d ++ [a]) d).
Proof.
  intros [] Hfree Htarget. split; simpl; try done.
  - rewrite fmap_app. apply NoDup_app. split; [done|]. split; [|apply NoDup_singleton].
    intros n (b & -> & Hb)%list_elem_of_fmap Hn%list_elem_of_singleton.
    unfold entity_id_by_alias in Hfree. rewrite fmap_None, sql_find_None, sql_exists_false in Hfree.
    specialize (Hfree b Hb). by rewrite Hn, bool_decide_eq_true_2 in Hfree.
  - intros b [?| ->%list_elem_of_singleton]%elem_of_app; [by apply mo_targets0|done].
Qed.

(** The errors that report the caller's input, not a broken store or a missing row. *)
Definition input_error (e : memory_exn) : Prop :=
  match e with
  | MemoryValidationError _ _ | EntityAliasConflictError _ => True
  | MemoryNotFoundError _ | MemoryIntegrityError => False
  end.

(** ** Resolution *)

Section Resolution.
Context {U : Unicode}.

Lemma assigned_alias_none l d :
  assigned_alias l d = None ↔ ∀ a, a ∈ l → entity_id_by_alias (normalize_alias a) d = None.
Proof.
  unfold assigned_alias. split.
  - intros H a Ha. destruct (entity_id_by_alias (normalize_alias a) d) eqn:Hd; [|done].
    assert (a ∈ filter (λ a, is_Some (entity_id_by_alias (normalize_alias a) d)) l) as Hin.
    { apply list_elem_of_filter. rewrite Hd. eauto. }
    destruct (filter _ l); [by apply elem_of_nil in Hin|done].
  - intros H. destruct (filter _ l) as [|a l'] eqn:Hf; [done|].
    assert (a ∈ filter (λ a, is_Some (entity_id_by_alias (normalize_alias a) d)) l) as Hin
      by (rewrite Hf; left).
    apply list_elem_of_filter in Hin as [[i Hi] Ha]. by rewrite H in Hi.
Qed.

Lemma entity_aliases_nodup label path : NoDup (normalize_alias <$> entity_aliases label path).
Proof.
  unfold entity_aliases. destruct path as [p|]; [|apply NoDup_singleton].
  case_bool_decide as Hn; simpl; [apply NoDup_singleton|].
  apply NoDup_cons. split; [by intros ?%list_elem_of_singleton|apply NoDup_singleton].
Qed.

Lemma label_in_aliases label path : ∃ rest, entity_aliases label path = label :: rest.
Proof. unfold entity_aliases. destruct path; [case_bool_decide|]; eauto. Qed.

(** Aliases that are free and differ from each other are all inserted. *)
Lemma insert_aliases_run (mk : text → alias_row) l d :
  (∀ a, al_alias_norm (mk a) = normalize_alias a) → NoDup (normalize_alias <$> l) →
  (∀ a, a ∈ l → entity_id_by_alias (normalize_alias a) d = None) →
  for_each (λ _ a, INSERT_ENTITY_ALIAS (mk a)) tt l d = (Ok tt, set_aliases (aliases d ++ (mk <$> l)) d).
Proof.
  intros Hmk. revert d. induction l as [|a l IH]; intros d Hnd Hfree.
  { simpl. rewrite app_nil_r. by destruct d. }
  cbn [for_each fmap list_fmap] in *. apply NoDup_cons in Hnd as [Hni Hnd].
  rewrite (bind_run _ _ d tt (set_aliases (aliases d ++ [mk a]) d)).
  2: { unfold INSERT_ENTITY_ALIAS. rewrite Hmk. step. rewrite Hfree by left. done. }
  rewrite IH; [by destruct d; simpl; rewrite <- app_assoc|done|].
  intros b Hb. unfold entity_id_by_alias. cbn [set_aliases aliases].
  specialize (Hfree b ltac:(by right)). unfold entity_id_by_alias in Hfree.
  rewrite fmap_None in Hfree. rewrite sql_find_app, Hfree, sql_find_cons, Hmk.
  rewrite bool_decide_eq_false_2; [done|]. intros Heq. apply Hni. rewrite Heq.
  by apply list_elem_of_fmap_2.
Qed.

(** What creating an entity writes. *)
Definition created_entity (k : EntityKind) (label : text) (path : option text) (timestamp : text)
    (d : memory_db) : Entity :=
  mk_entity (next_rowid (en_id <$> entities d)) k path label EntityActive timestamp timestamp.
Definition created_db (m : NewMemory) (e : Entity) (timestamp : text) (d : memory_db) : memory_db :=
  set_aliases (aliases d ++ ((λ a, mk_alias (en_id e) a (normalize_alias a) (nm_source m) timestamp)
    <$> entity_aliases (en_label e) (en_path e))) (set_entities (entities d ++ [e]) d).

Lemma create_entity_run m k label path timestamp d :
  nm_entity_kind m = Some k → assigned_alias (entity_aliases label path) d = None →
  let e := created_entity k label path timestamp d in
  _create_entity m label path timestamp d = (Ok e, created_db m e timestamp d).
Proof.
  intros Hk Hfree e. unfold _create_entity. rewrite Hk. step. rewrite Hfree.
  rewrite (bind_run _ _ d (en_id e) (set_entities (entities d ++ [e]) d)) by done.
  rewrite (bind_run _ _ _ tt (created_db m e timestamp d)).
  2: { rewrite insert_aliases_run; [done|done|apply entity_aliases_nodup|].
       intros a Ha. by apply (proj1 (assigned_alias_none _ _) Hfree). }
  step. unfold created_db.
  change (entity_by_id (en_id e) _) with (entity_by_id (en_id e) (set_entities (entities d ++ [e]) d)).
  by rewrite entity_by_new_id.
Qed.

Lemma created_db_ok m e timestamp d :
  memory_ok d → en_id e = next_rowid (en_id <$> entities d) →
  assigned_alias (entity_aliases (en_label e) (en_path e)) d = None →
  memory_ok (created_db m e timestamp d).
Proof.
  intros Hok Hid Hfree. rewrite assigned_alias_none in Hfree.
  pose proof (memory_ok_insert_entity e d Hok Hid) as [].
  split; simpl; try done.
  - rewrite fmap_app, <- list_fmap_compose. apply NoDup_app. split; [done|].
    split; [|apply entity_aliases_nodup].
    intros n (b & -> & Hb)%list_elem_of_fmap (a & Hn & Ha)%list_elem_of_fmap. simpl in Hn.
    specialize (Hfree a Ha). unfold entity_id_by_alias in Hfree.
    rewrite fmap_None, sql_find_None, sql_exists_false in Hfree.
    specialize (Hfree b Hb). by rewrite Hn, bool_decide_eq_true_2 in Hfree.
  - intros b [Hb|(a & -> & Ha)%list_elem_of_fmap]%elem_of_app; [by apply mo_targets0|].
    change (is_Some (entity_by_id (en_id e) (set_entities (entities d ++ [e]) d))).
    rewrite entity_by_new_id by done. eauto.
Qed.

(** How resolution ends. *)
Inductive resolved (m : NewMemory) (timestamp : text) (d : memory_db) :
    res memory_exn (option Entity) → memory_db → Prop :=
  | resolved_none : nm_entity m = None → nm_entity_kind m = None → nm_entity_path m = None →
      resolved m timestamp d (Ok None) d
  | resolved_error e : input_error e → resolved m timestamp d (Err e) d
  | resolved_known name label kind path e :
      nm_entity m = Some name → normalize_label name = Ok label → nm_entity_kind m = Some kind →
      normalize_opt_path (nm_entity_path m) = Ok path →
      entity_id_by_alias (normalize_alias label) d = Some (en_id e) →
      entity_by_id (en_id e) d = Some e → en_kind e = kind →
      resolved m timestamp d (Ok (Some e)) d
  | resolved_new name label kind path :
      let e := created_entity kind label path timestamp d in
      nm_entity m = Some name → normalize_label name = Ok label → nm_entity_kind m = Some kind →
      normalize_opt_path (nm_entity_path m) = Ok path →
      assigned_alias (entity_aliases label path) d = None →
      resolved m timestamp d (Ok (Some e)) (created_db m e timestamp d).

Lemma normalize_label_error name e : normalize_label name = Err e → input_error e.
Proof. unfold normalize_label. case_bool_decide; by intros [= <-]. Qed.

Lemma normalize_opt_path_error path e : normalize_opt_path path = Err e → input_error e.
Proof.
  unfold normalize_opt_path, normalize_path. destruct path as [p|]; [|done].
  destruct (negb _); [by intros [= <-]|]. destruct (existsb _ _); by intros [= <-].
Qed.

Lemma resolve_entity_cases m timestamp d r d' :
  resolve_entity m timestamp d = (r, d') → resolved m timestamp d r d'.
Proof.
  unfold resolve_entity. destruct (nm_entity m) as [name|] eqn:Hname.
  2: { case_bool_decide as Hk; [intros [= <- <-]; by constructor|].
       case_bool_decide as Hp; simpl; intros [= <- <-]; [by constructor|].
       rewrite <- eq_None_not_Some in Hk. rewrite <- eq_None_not_Some in Hp. by constructor. }
  destruct (normalize_label name) as [label|e] eqn:Hlabel.
  2: { intros [= <- <-]. constructor. by eapply normalize_label_error. }
  rewrite (bind_run _ _ d label d) by done.
  destruct (nm_entity_kind m) as [kind|] eqn:Hkind; [|intros [= <- <-]; by constructor].
  destruct (normalize_opt_path (nm_entity_path m)) as [path|e] eqn:Hpath.
  2: { intros [= <- <-]. constructor. by eapply normalize_opt_path_error. }
  rewrite (bind_run _ _ d path d) by done. step.
  destruct (entity_id_by_alias (normalize_alias label) d) as [i|] eqn:Hi.
  - step. destruct (entity_by_id i d) as [e|] eqn:He; [|intros [= <- <-]; by constructor].
    assert (en_id e = i) as <- by (by apply sql_find_Some in He as [_ ?%Z.eqb_eq]).
    case_bool_decide; simpl; intros [= <- <-]; [by eapply resolved_known|by constructor].
  - destruct (assigned_alias (entity_aliases label path) d) as [alias|] eqn:Hfree.
    + unfold _create_entity. rewrite Hkind. unfold mbind at 1, M_bind at 1. step. rewrite Hfree.
      intros [= <- <-]. by constructor.
    + rewrite (bind_run _ _ _ _ _ (create_entity_run m kind label path timestamp d Hkind Hfree)).
      intros [= <- <-]. by eapply resolved_new.
Qed.
End Resolution.

(** ** The outcome of each operation *)

(** The trigger's bounds and the missing [9999-12-31] follow from validation. *)
Lemma validated_bounds m e norm created updated archived i :
  validate_new_memory m = Ok tt → bounds_ok (written m e norm created updated archived i) = true.
Proof.
  unfold validate_new_memory. intros Hv. res_inv Hv. rename Hx into Hanchor.
  destruct (MAX_MEMORY_RECORD_BYTES <? record_bytes m) eqn:?; [done|].
  destruct (negb ((0 <=? nm_lead_days m) && (nm_lead_days m <=? MAX_MEMORY_LEAD_DAYS))) eqn:Hl; [done|].
  rewrite negb_false_iff, andb_true_iff, !Z.leb_le in Hl. unfold MAX_MEMORY_LEAD_DAYS in Hl.
  unfold bounds_ok. simpl. apply andb_true_iff. split.
  - rewrite negb_true_iff, orb_false_iff, !Z.ltb_ge. lia.
  - rewrite negb_true_iff, bool_decide_eq_false. intros Heq. unfold check_anchor in Hanchor.
    rewrite Heq in Hanchor. vm_compute in Hanchor. done.
Qed.

Lemma validate_error m e :
  validate_new_memory m = Err e → input_error e.
Proof.
  assert (∀ l, check_bounded l = Err e → input_error e) as Hb.
  { induction l as [|[[field value] maximum] l IH]; [done|]. cbn [check_bounded].
    destruct (match value with Some _ => _ | None => _ end); [by intros [= <-]|done]. }
  assert (check_anchor m = Err e → input_error e) as Ha.
  { unfold check_anchor. destruct (nm_date_anchor m); repeat case_match; by intros [= <-]. }
  unfold validate_new_memory. destruct (check_anchor m); [|intros [= ->]; auto]. res_step.
  destruct (check_bounded _) eqn:Hc; [|intros [= ->]; by eapply Hb]. repeat case_match; by intros [= <-].
Qed.

Section Outcomes.
Context {U : Unicode}.

Lemma resolved_ok m timestamp d r d' :
  memory_ok d → resolved m timestamp d r d' →
  memory_ok d' ∧ items d' = items d ∧ (∀ e, r = Ok (Some e) → entity_by_id (en_id e) d' = Some e).
Proof.
  intros Hok [?|e ?|name label kind path e ? ? ? ? ? He ?|name label kind path e ? ? ? ? Hfree].
  - split_and!; [done..|by intros ? [=]].
  - split_and!; [done..|by intros ? [=]].
  - split_and!; [done..|by intros ? [= <-]].
  - split_and!; [by apply created_db_ok|done|]. intros ? [= <-].
    change (entity_by_id (en_id e) (set_entities (entities d ++ [e]) d) = Some e).
    by apply entity_by_new_id.
Qed.

(** Resolving a reference to a known entity writes nothing. *)
Lemma resolve_known m timestamp name label kind path e d :
  nm_entity m = Some name → normalize_label name = Ok label → nm_entity_kind m = Some kind →
  normalize_opt_path (nm_entity_path m) = Ok path →
  entity_id_by_alias (normalize_alias label) d = Some (en_id e) → entity_by_id (en_id e) d = Some e →
  en_kind e = kind → resolve_entity m timestamp d = (Ok (Some e), d).
Proof.
  intros Hn Hl Hk Hp Ha He Hkind. unfold resolve_entity. rewrite Hn, Hl, Hk.
  rewrite (bind_run _ _ _ label d) by done. rewrite Hp, (bind_run _ _ _ path d) by done.
  step. rewrite Ha. step. rewrite He. by rewrite bool_decide_eq_true_2.
Qed.

(** Resolving the same reference again finds the same entity, whatever became of the items. *)
Lemma resolved_again m timestamp timestamp' d entity d' rows :
  memory_ok d → resolved m timestamp d (Ok entity) d' →
  resolve_entity m timestamp' (set_items rows d') = (Ok entity, set_items rows d').
Proof.
  intros Hok Hr. inversion Hr as [Hn Hk Hp|?|name label kind path e Hn Hl Hk Hp Ha He Hkind
    |name label kind path e Hn Hl Hk Hp Hfree]; subst.
  - unfold resolve_entity. rewrite Hn, Hk, Hp. by rewrite !bool_decide_eq_false_2 by by intros [].
  - by eapply resolve_known.
  - eapply resolve_known; try done.
    + unfold entity_id_by_alias, created_db. cbn [aliases set_aliases set_items].
      rewrite assigned_alias_none in Hfree. destruct (label_in_aliases label path) as [rest Hrest].
      specialize (Hfree label ltac:(rewrite Hrest; left)). unfold entity_id_by_alias in Hfree.
      rewrite fmap_None in Hfree. cbn [aliases set_entities]. rewrite sql_find_app, Hfree.
      change (en_label e) with label. change (en_path e) with path. rewrite Hrest. cbn [fmap list_fmap].
      by rewrite sql_find_cons, bool_decide_eq_true_2.
    + by apply (resolved_ok _ _ _ _ _ Hok Hr).
Qed.

Lemma capacity_ok d :
  _require_entity_capacity d = (Ok tt, d) ↔
    Z.of_nat (length (entities d)) ≤ _MAX_ENTITY_ROWS ∧ Z.of_nat (length (aliases d)) ≤ _MAX_ENTITY_ALIAS_ROWS.
Proof.
  unfold _require_entity_capacity. step.
  destruct (_MAX_ENTITY_ROWS <? _) eqn:He; [rewrite Z.ltb_lt in He|rewrite Z.ltb_ge in He; step].
  - split; [done|lia].
  - destruct (_MAX_ENTITY_ALIAS_ROWS <? _) eqn:Ha; [rewrite Z.ltb_lt in Ha|rewrite Z.ltb_ge in Ha].
    + split; [done|lia].
    + done.
Qed.

Lemma capacity_run d r d' :
  _require_entity_capacity d = (r, d') →
  d' = d ∧ (r = Ok tt ∨ ∃ field reason, r = Err (MemoryValidationError field reason)).
Proof.
  unfold _require_entity_capacity. step. destruct (_ <? _); [intros [= <- <-]; eauto|].
  step. destruct (_ <? _); intros [= <- <-]; eauto.
Qed.

(** A row found by a duplicate query. *)
Lemma dated_duplicate_id_Some m entity_id excluding d i :
  dated_duplicate_id m entity_id excluding d = Some i →
  ∃ r, r ∈ items d ∧ it_id r = i ∧ it_archived r = false ∧
    it_attribute r = nm_attribute m ∧ it_date_anchor r = nm_date_anchor m.
Proof.
  unfold dated_duplicate_id. destruct (nm_date_anchor m) as [a|] eqn:Ha; [|done].
  case_bool_decide as Hfree; [|destruct entity_id as [e|]; [|done]];
    intros (r & Hr & ->)%fmap_Some; apply sql_find_Some in Hr as [Hin Hp];
    exists r; apply andb_true_iff in Hp as [Hp _]; unfold free_duplicate, dated_duplicate in Hp; simpl in Hp;
    rewrite !andb_true_iff, negb_true_iff, !bool_decide_eq_true in Hp; intuition congruence.
Qed.

(** Without a duplicate, the written row collides with no other row. *)
Lemma no_duplicate_no_collision m entity_id excluding d created updated archived i :
  dated_duplicate_id m entity_id excluding d = None → excluding = None ∨ excluding = Some i →
  sql_exists (collides (written m entity_id (normalize_memory_content (nm_content m))
    created updated archived i)) (items d) = false.
Proof.
  intros Hnone Hexcl. apply sql_exists_false. intros o Ho.
  destruct (it_id o =? i) eqn:Hi; [apply collides_same_id; rewrite Z.eqb_eq in Hi; simpl; lia|].
  assert (not_excluded excluding o = true) as Hne.
  { destruct Hexcl as [-> | ->]; [done|]. unfold not_excluded. by rewrite Hi. }
  unfold dated_duplicate_id in Hnone. destruct (nm_date_anchor m) as [a|] eqn:Ha.
  2: { apply collides_none; unfold dated_fact, free_dated, written; simpl; rewrite Ha;
         by destruct archived, entity_id. }
  unfold collides. rewrite andb_false_iff. right. rewrite orb_false_iff, !bool_decide_eq_false.
  unfold dated_fact at 1 3, free_dated at 1 3, written. simpl. rewrite Ha.
  destruct archived; [by split; intros [[? ?] _]|].
  case_bool_decide as Hfree; split.
  - destruct entity_id; by intros [[? ?] _].
  - intros [_ Heq]. rewrite fmap_None, sql_find_None, sql_exists_false in Hnone.
    specialize (Hnone o Ho). rewrite Hne, andb_true_r in Hnone. unfold free_dated in Heq.
    destruct (it_archived o) eqn:Har; [done|]. destruct (it_date_anchor o) as [b|] eqn:Hb; [|done].
    case_bool_decide as Hof; [|done]. injection Heq as Hk He -> Hrec Hnorm.
    unfold free_duplicate in Hnone. simpl in Hnone.
    rewrite He, Har, Hb, Ha, Z.eqb_refl, !bool_decide_eq_true_2 in Hnone by eauto. done.
  - destruct entity_id as [e|]; [|by intros [[? ?] _]]. intros [_ Heq].
    rewrite fmap_None, sql_find_None, sql_exists_false in Hnone.
    specialize (Hnone o Ho). rewrite Hne, andb_true_r in Hnone. unfold dated_fact in Heq.
    destruct (it_archived o) eqn:Har; [done|]. destruct (it_entity_id o) as [e'|] eqn:He; [|done].
    destruct (it_date_anchor o) as [b|] eqn:Hb; [|done].
    case_bool_decide as Hof; [done|]. injection Heq as -> Hattr ->.
    unfold dated_duplicate in Hnone.
    rewrite He, Har, Hb, Ha, !bool_decide_eq_true_2 in Hnone by eauto. done.
  - by intros [[? ?] _].
Qed.
End Outcomes.

Section Remember.
Context {U : Unicode}.

(** The row [remember] writes for a memory no active row repeats. *)
Definition new_row (m : NewMemory) (entity : option Entity) (timestamp : text) (d : memory_db) : item_row :=
  written m (en_id <$> entity) (normalize_memory_content (nm_content m)) timestamp timestamp false
    (next_rowid (it_id <$> items d)).

(** How a run of [remember]'s transaction ends. *)
Inductive remembered (m : NewMemory) (timestamp : text) (d : memory_db) :
    res memory_exn MemoryItem → memory_db → Prop :=
  | remembered_error e d' : input_error e →
      remembered m timestamp d (Err e) d'
  | remembered_merged entity d1 i r :
      let d' := set_items (sql_update (λ r, it_id r =? i) (set_it_updated_at timestamp) (items d1)) d1 in
      resolved m timestamp d (Ok entity) d1 → _require_entity_capacity d1 = (Ok tt, d1) →
      dated_duplicate_id m (en_id <$> entity) None d1 = Some i → r ∈ items d1 → it_id r = i →
      sql_find (λ r, it_id r =? i) (items d1) = Some r →
      remembered m timestamp d (Ok (joined (set_it_updated_at timestamp r) d')) d'
  | remembered_new entity d1 :
      let row := new_row m entity timestamp d1 in
      let d' := set_items (items d1 ++ [row]) d1 in
      resolved m timestamp d (Ok entity) d1 → _require_entity_capacity d1 = (Ok tt, d1) →
      dated_duplicate_id m (en_id <$> entity) None d1 = None → item_allowed row d1 = true →
      remembered m timestamp d (Ok (joined row d')) d'.

Lemma item_allowed_new m entity timestamp timestamp' d d1 :
  memory_ok d → validate_new_memory m = Ok tt → resolved m timestamp' d (Ok entity) d1 →
  dated_duplicate_id m (en_id <$> entity) None d1 = None → item_allowed (new_row m entity timestamp d1) d1 = true.
Proof.
  intros Hok Hv Hres Hdup. unfold item_allowed, new_row. rewrite validated_bounds by done.
  rewrite (no_duplicate_no_collision m _ None) by auto. rewrite andb_true_r. simpl. unfold references_ok. simpl.
  destruct entity as [e|]; [|done]. simpl. apply bool_decide_eq_true.
  rewrite (proj2 (proj2 (resolved_ok _ _ _ _ _ Hok Hres)) e eq_refl). eauto.
Qed.

Lemma remember_body_cases m timestamp d r d' :
  memory_ok d → validate_new_memory m = Ok tt →
  remember_body m timestamp d = (r, d') → remembered m timestamp d r d'.
Proof.
  intros Hok Hv. unfold remember_body.
  destruct (resolve_entity m timestamp d) as [[entity|e] d1] eqn:Hres.
  2: { unfold mbind at 1, M_bind at 1. rewrite Hres. intros [= <- <-]. constructor.
       apply resolve_entity_cases in Hres. by inversion Hres; subst. }
  rewrite (bind_run _ _ _ _ _ Hres). apply resolve_entity_cases in Hres as Hcase.
  destruct (_require_entity_capacity d1) as [rc d2] eqn:Hcap.
  destruct (capacity_run _ _ _ Hcap) as [-> [->|(field & reason & ->)]].
  2: { unfold mbind at 1, M_bind at 1. rewrite Hcap. intros [= <- <-]. by constructor. }
  rewrite (bind_run _ _ _ _ _ Hcap). step.
  destruct (dated_duplicate_id m (en_id <$> entity) None d1) as [i|] eqn:Hdup.
  - destruct (dated_duplicate_id_Some _ _ _ _ _ Hdup) as (r0 & Hin & Hid & _).
    unfold UPDATE_MEMORY_TIMESTAMP. step. unfold require_memory. step.
    unfold memory_by_id. cbn [items set_items].
    rewrite sql_find_update_key by done.
    destruct (sql_find (λ r, it_id r =? i) (items d1)) as [r1|] eqn:Hf.
    2: { apply sql_find_None in Hf. rewrite sql_exists_false in Hf. specialize (Hf r0 Hin). simpl in Hf. lia. }
    apply sql_find_Some in Hf as Hf'. destruct Hf' as [Hin1 Hid1]. cbn [fmap option_fmap option_map].
    rewrite Hid1. intros [= <- <-]. eapply (remembered_merged _ _ _ entity); try done. by apply Z.eqb_eq.
  - step. destruct (_MAX_MEMORY_ROWS <=? _); [intros [= <- <-]; by constructor|].
    assert (item_allowed (new_row m entity timestamp d1) d1 = true) as Hallowed by (by eapply item_allowed_new).
    set (row := new_row m entity timestamp d1) in *.
    rewrite (bind_run _ _ _ (it_id row) (set_items (items d1 ++ [row]) d1)).
    2: { unfold INSERT_MEMORY_ITEM. step. fold (new_row m entity timestamp d1). fold row. by rewrite Hallowed. }
    unfold require_memory. step. unfold memory_by_id. cbn [items set_items].
    rewrite (sql_find_appended it_id row) by done. intros [= <- <-]. by eapply (remembered_new _ _ _ entity).
Qed.

(** [remember] on every path: the invariant is kept; a failure writes nothing and is never
    a constraint of the tables or a missing row; a success is an active item that carries
    the memory's attribute and date. *)
Lemma remember_outcome m now d r d' :
  memory_ok d → remember m now d = (r, d') →
  memory_ok d' ∧
  match r with
  | Ok item =>
    memory_by_id (mi_id item) d' = Some item ∧ mi_archived item = false ∧
    mi_updated_at item = utc_iso now ∧
    mi_attribute item = nm_attribute m ∧ mi_date_anchor item = nm_date_anchor m
  | Err e => d' = d ∧ input_error e
  end.
Proof.
  intros Hok. unfold remember. destruct (validate_new_memory m) as [[]|e] eqn:Hv.
  2: { intros [= <- <-]. split; [done|]. split; [done|]. by apply validate_error in Hv. }
  rewrite (bind_run _ _ d tt d) by done. unfold immediate_transaction.
  destruct (remember_body m (utc_iso now) d) as [r1 d1] eqn:Hbody.
  apply (remember_body_cases _ _ _ _ _ Hok Hv) in Hbody.
  destruct Hbody as [e d1 ?|entity d1 i row d2 Hres _ Hdup Hin Hid Hf|entity d1 row d2 Hres _ Hdup Hallowed];
    intros [= <- <-]; [done| |]; destruct (resolved_ok _ _ _ _ _ Hok Hres) as (Hok1 & _ & _).
  - split; [by apply memory_ok_touch|].
    destruct (dated_duplicate_id_Some _ _ _ _ _ Hdup) as (r0 & Hin0 & Hid0 & Har & Hattr & Hanchor).
    assert (r0 = row) as -> by (eapply (NoDup_fmap_eq it_id); [apply (mo_items _ Hok1)|done..|congruence]).
    split_and!; try done. cbn [mi_id joined it_id set_it_updated_at]. unfold memory_by_id, d2.
    cbn [items set_items]. rewrite sql_find_update_key, Hid, Hf by done. simpl. by rewrite Hid, Z.eqb_refl.
  - split; [by apply memory_ok_insert_item|]. split_and!; try done.
    cbn [mi_id joined]. unfold memory_by_id, d2. cbn [items set_items].
    by rewrite (sql_find_appended it_id row).
Qed.

(** The duplicate queries read neither the update time nor the new row's other columns. *)
Lemma duplicate_after_touch m e p timestamp d :
  dated_duplicate_id m e None (set_items (sql_update p (set_it_updated_at timestamp) (items d)) d) =
  dated_duplicate_id m e None d.
Proof.
  unfold dated_duplicate_id. cbn [items set_items].
  destruct (nm_date_anchor m); [|done]. case_bool_decide; [|destruct e; [|done]];
    (rewrite sql_find_update_key by done; by destruct (sql_find _ _) as [r|]; [simpl; destruct (p r)|]).
Qed.

Lemma duplicate_after_new m entity timestamp d :
  is_Some (nm_date_anchor m) → nm_attribute m = Free ∨ is_Some entity →
  dated_duplicate_id m (en_id <$> entity) None d = None →
  dated_duplicate_id m (en_id <$> entity) None (set_items (items d ++ [new_row m entity timestamp d]) d) =
    Some (next_rowid (it_id <$> items d)).
Proof.
  intros [a Ha] Hwhere. unfold dated_duplicate_id. rewrite Ha. cbn [items set_items].
  case_bool_decide as Hfree.
  - rewrite fmap_None, sql_find_app. intros ->. rewrite sql_find_cons.
    unfold free_duplicate, new_row, written. simpl.
    by rewrite Ha, Z.eqb_refl, !bool_decide_eq_true_2 by eauto.
  - destruct Hwhere as [|[e ->]]; [done|]. simpl. rewrite fmap_None, sql_find_app. intros ->.
    rewrite sql_find_cons. unfold dated_duplicate, new_row, written. simpl.
    by rewrite Ha, !bool_decide_eq_true_2 by eauto.
Qed.

(** A run that finds a duplicate only renews its update time. *)
Lemma remember_body_merge m timestamp d entity i r :
  resolve_entity m timestamp d = (Ok entity, d) → _require_entity_capacity d = (Ok tt, d) →
  dated_duplicate_id m (en_id <$> entity) None d = Some i →
  sql_find (λ r, it_id r =? i) (items d) = Some r →
  let d' := set_items (sql_update (λ r, it_id r =? i) (set_it_updated_at timestamp) (items d)) d in
  remember_body m timestamp d = (Ok (joined (set_it_updated_at timestamp r) d'), d').
Proof.
  intros Hres Hcap Hdup Hf d'. unfold remember_body.
  rewrite (bind_run _ _ _ _ _ Hres), (bind_run _ _ _ _ _ Hcap). step. rewrite Hdup.
  unfold UPDATE_MEMORY_TIMESTAMP, require_memory. step. unfold memory_by_id. cbn [items set_items].
  rewrite sql_find_update_key, Hf by done. apply sql_find_Some in Hf as [_ Hid].
  cbn [fmap option_fmap option_map]. by rewrite Hid.
Qed.

(** Remembering a dated memory that names its entity, or a free one, once more: the second
    run returns the first one's item, adds no row, and renews its update time. *)
Theorem remember_merges_repeats m now now' d item d1 r d2 :
  memory_ok d → is_Some (nm_date_anchor m) → nm_attribute m = Free ∨ is_Some (nm_entity m) →
  remember m now d = (Ok item, d1) → remember m now' d1 = (r, d2) →
  ∃ item', r = Ok item' ∧ mi_id item' = mi_id item ∧ mi_updated_at item' = utc_iso now' ∧
    it_id <$> items d2 = it_id <$> items d1 ∧ entities d2 = entities d1 ∧ aliases d2 = aliases d1.
Proof.
  intros Hok Hdated Hwhere. unfold remember. destruct (validate_new_memory m) as [[]|e] eqn:Hv; [|done].
  step. rewrite transaction_ok. intros Hrun.
  pose proof (remember_body_cases _ _ _ _ _ Hok Hv Hrun) as Hcase.
  assert (∃ entity rows dm i row, d1 = set_items rows dm ∧ resolved m (utc_iso now) d (Ok entity) dm ∧
    _require_entity_capacity dm = (Ok tt, dm) ∧ dated_duplicate_id m (en_id <$> entity) None d1 = Some i ∧
    sql_find (λ r, it_id r =? i) rows = Some row ∧ mi_id item = i) as
    (entity & rows & dm & i & row & -> & Hres & Hcap & Hdup & Hf & ->).
  { inversion Hcase as [|entity dm i row d' Hres Hcap Hdup Hin Hid Hf|entity dm row d' Hres Hcap Hdup Hall]; subst.
    - eexists entity, _, dm, (it_id row), _. split_and!; try done.
      + rewrite <- Hdup. apply duplicate_after_touch.
      + rewrite sql_find_update_key, Hf by done. done.
    - eexists entity, _, dm, _, _. split_and!; try done.
      + apply duplicate_after_new; [done| |done]. destruct Hwhere as [?|[n Hn]]; [by left|right].
        inversion Hres; subst; [congruence|eauto..].
      + by apply (sql_find_appended it_id row). }
  unfold immediate_transaction.
  rewrite (remember_body_merge _ _ _ entity i row (resolved_again _ _ _ _ _ _ _ Hok Hres)); [|..|done|done].
  2: { rewrite capacity_ok in *. exact Hcap. }
  intros [= <- <-]. eexists. split_and!; try done.
  - apply sql_find_Some in Hf as [_ Hf%Z.eqb_eq]. done.
  - cbn [items set_items]. by rewrite sql_update_column.
Qed.
End Remember.

(** ** Update and forget *)

Section UpdateForget.
Context {U : Unicode}.

Lemma update_rows_allowed m entity timestamp timestamp' d d1 i :
  memory_ok d → validate_new_memory m = Ok tt → resolved m timestamp' d (Ok entity) d1 →
  dated_duplicate_id m (en_id <$> entity) (Some i) d1 = None →
  forallb (λ r, item_allowed (written m (en_id <$> entity) (normalize_memory_content (nm_content m))
    (it_created_at r) timestamp (it_archived r) (it_id r)) d1)
    (sql_select (λ r, it_id r =? i) (items d1)) = true.
Proof.
  intros Hok Hv Hres Hdup. apply forallb_forall. intros r [Hi _]%list_elem_of_In%elem_of_sql_select.
  apply Z.eqb_eq in Hi. unfold item_allowed. rewrite validated_bounds by done.
  rewrite (no_duplicate_no_collision m _ (Some i)) by (subst; auto). rewrite andb_true_r. simpl.
  unfold references_ok. simpl.
  destruct entity as [e|]; [|done]. simpl. apply bool_decide_eq_true.
  rewrite (proj2 (proj2 (resolved_ok _ _ _ _ _ Hok Hres)) e eq_refl). eauto.
Qed.

(** [update] on every path: the invariant is kept; a failure writes nothing and is a
    missing row or bad input, never a constraint of the tables; a success carries the new
    values under the old id, and no other row changes. *)
Lemma update_outcome i m now d r d' :
  memory_ok d → update i m now d = (r, d') →
  memory_ok d' ∧
  match r with
  | Ok item =>
    mi_id item = i ∧ memory_by_id i d' = Some item ∧ mi_content item = nm_content m ∧
    mi_attribute item = nm_attribute m ∧ mi_date_anchor item = nm_date_anchor m ∧
    (mi_archived <$> memory_by_id i d = Some (mi_archived item)) ∧
    ∀ j, j ≠ i → sql_find (λ r, it_id r =? j) (items d') = sql_find (λ r, it_id r =? j) (items d)
  | Err e => d' = d ∧ (input_error e ∨ e = MemoryNotFoundError i ∧ memory_by_id i d = None)
  end.
Proof.
  intros Hok. unfold update. destruct (validate_new_memory m) as [[]|e] eqn:Hv.
  2: { intros [= <- <-]. apply validate_error in Hv. auto. }
  step. unfold immediate_transaction, update_body.
  destruct (sql_find (λ r, it_id r =? i) (items d)) as [row|] eqn:Hf.
  2: { assert (memory_by_id i d = None) as Hm by (unfold memory_by_id; by rewrite Hf).
       unfold mbind at 1, M_bind at 1. rewrite require_memory_run, Hm. intros [= <- <-]. auto. }
  assert (memory_by_id i d = Some (joined row d)) as Hm by (unfold memory_by_id; by rewrite Hf).
  apply sql_find_Some in Hf as Hf'. destruct Hf' as [Hin Hid]. apply Z.eqb_eq in Hid.
  rewrite (bind_run _ _ d (joined row d) d) by (by rewrite require_memory_run, Hm).
  destruct (resolve_entity m (utc_iso now) d) as [[entity|e] d1] eqn:Hres; apply resolve_entity_cases in Hres as Hc.
  2: { unfold mbind at 1, M_bind at 1. rewrite Hres. intros [= <- <-]. inversion Hc; subst; auto. }
  destruct (resolved_ok _ _ _ _ _ Hok Hc) as (Hok1 & Hitems & _).
  rewrite (bind_run _ _ _ _ _ Hres).
  destruct (_require_entity_capacity d1) as [rc d2] eqn:Hcap.
  destruct (capacity_run _ _ _ Hcap) as [-> [->|(field & reason & ->)]].
  2: { unfold mbind at 1, M_bind at 1. rewrite Hcap. intros [= <- <-]. simpl. auto. }
  rewrite (bind_run _ _ _ _ _ Hcap). step.
  destruct (dated_duplicate_id m (en_id <$> entity) (Some i) d1) as [j|] eqn:Hdup.
  { intros [= <- <-]. simpl. auto. }
  assert (Hall := update_rows_allowed m entity (utc_iso now) (utc_iso now) d d1 i Hok Hv Hc Hdup).
  cbn [mi_id joined]. rewrite Hid. pose proof (memory_ok_rewrite _ _ _ _ i d1 Hok1 Hall) as Hok2.
  set (new := λ r, written _ _ _ _ _ _ (it_id r)) in *.
  set (d2 := set_items (sql_update (λ r, it_id r =? i) new (items d1)) d1) in *.
  rewrite (bind_run _ _ d1 tt d2).
  2: { unfold UPDATE_MEMORY_ITEM. step. fold new. by rewrite Hall. }
  assert (memory_by_id i d2 = Some (joined (new row) d2)) as Hm2.
  { unfold memory_by_id, d2. cbn [items set_items]. rewrite sql_find_update_key, Hitems, Hf by done.
    simpl. by rewrite Hid, Z.eqb_refl. }
  rewrite require_memory_run, Hm2. intros [= <- <-]. split; [done|]. rewrite Hm. split_and!; try done.
  intros j Hj. unfold d2. cbn [items set_items]. rewrite Hitems.
  apply sql_find_update_ne; simpl; intros o; rewrite Z.eqb_eq, Z.eqb_neq; lia.
Qed.
End UpdateForget.

(** *** Forget *)

(** Archiving a row leaves every column but the flag and the update time. *)
Definition archive_row (timestamp : text) (r : item_row) : item_row :=
  set_it_archived true (set_it_updated_at timestamp r).

(** Archiving a row does not change whether another active row contradicts it. *)
Lemma contradictory_after_archive timestamp i r d :
  it_id r = i → memory_ok d → r ∈ items d →
  is_contradictory (archive_row timestamp r) (set_items (sql_update
    (λ r, (it_id r =? i) && negb (it_archived r)) (archive_row timestamp) (items d)) d) =
  is_contradictory r d.
Proof.
  intros Hid Hok Hr. unfold is_contradictory, archive_row. cbn [it_entity_id it_date_anchor set_it_archived
    set_it_updated_at it_attribute items set_items].
  destruct (it_entity_id r) as [e|], (it_date_anchor r) as [a|] eqn:Ha; try done.
  apply eq_bool_prop_intro. rewrite !Is_true_true, !sql_exists_true. split.
  - intros (o & (o' & -> & Ho)%elem_of_sql_update & Hp). exists o'. split; [done|]. simpl in Hp.
    destruct ((it_id o' =? i) && negb (it_archived o')); [|exact Hp]. simpl in Hp. by rewrite andb_false_r in Hp.
  - intros (o & Ho & Hp). exists o. split; [|done]. apply elem_of_sql_update. exists o. split; [|done].
    destruct (it_id o =? i) eqn:Hoi; [|done]. apply Z.eqb_eq in Hoi.
    assert (o = r) as -> by (eapply (NoDup_fmap_eq it_id); [apply (mo_items _ Hok)|done..|congruence]).
    rewrite Ha, (bool_decide_eq_true_2 (a = a)), andb_false_r in Hp by done. done.
Qed.

Section Forget.
Context {U : Unicode}.

Lemma forget_final i now now' d item d1 :
  memory_ok d → forget i now d = (Ok item, d1) →
  memory_ok d1 ∧ mi_archived item = true ∧ memory_by_id i d1 = Some item ∧
  forget i now' d1 = (Ok item, d1).
Proof.
  intros Hok Hrun.
  assert (memory_ok d1 ∧ mi_archived item = true ∧ memory_by_id i d1 = Some item) as (Hok1 & Har & Hm1).
  { revert Hrun. unfold forget.
    destruct (sql_find (λ r, it_id r =? i) (items d)) as [row|] eqn:Hf.
    2: { unfold mbind at 1, M_bind at 1. rewrite require_memory_run. unfold memory_by_id. by rewrite Hf. }
    assert (memory_by_id i d = Some (joined row d)) as Hm by (unfold memory_by_id; by rewrite Hf).
    rewrite (bind_run _ _ d (joined row d) d) by (by rewrite require_memory_run, Hm).
    destruct (mi_archived (joined row d)) eqn:Har; [by intros [= <- <-]|].
    unfold ARCHIVE_MEMORY_ITEM. step. intros [= <- <-].
    split; [by apply memory_ok_archive|]. split; [done|].
    apply sql_find_Some in Hf as Hf'. destruct Hf' as [Hin Hid]. apply Z.eqb_eq in Hid.
    unfold memory_by_id. cbn [items set_items]. rewrite sql_find_update_key, Hf by done.
    cbn [fmap option_fmap option_map]. simpl in Har. rewrite Hid, Z.eqb_refl, Har. cbn [andb negb].
    f_equal. unfold joined at 1, archived_item.
    pose proof (contradictory_after_archive (utc_iso now) i row d Hid Hok Hin) as Hcon.
    unfold archive_row in Hcon. rewrite Hcon. done. }
  split_and!; try done. unfold forget.
  rewrite (bind_run _ _ d1 item d1) by (by rewrite require_memory_run, Hm1). by rewrite Har.
Qed.

(** *** Every sequence of operations *)

Inductive memory_call :=
  | Remember (m : NewMemory) (now : instant)
  | Update (i : Z) (m : NewMemory) (now : instant)
  | Forget (i : Z) (now : instant).

Definition run_memory_call (c : memory_call) : mop MemoryItem :=
  match c with
  | Remember m now => remember m now
  | Update i m now => update i m now
  | Forget i now => forget i now
  end.
Definition run_memory (calls : list memory_call) (d : memory_db) : memory_db :=
  foldl (λ d c, (run_memory_call c d).2) d calls.

(** An error a caller can be told: bad input, or an id that is not there. *)
Definition reported_error (c : memory_call) (d : memory_db) (e : memory_exn) : Prop :=
  input_error e ∨
  match c with
  | Update i _ _ | Forget i _ => e = MemoryNotFoundError i ∧ memory_by_id i d = None
  | Remember _ _ => False
  end.

(** One call from a store that satisfies the invariant. *)
Lemma memory_call_outcome c d r d' :
  memory_ok d → run_memory_call c d = (r, d') →
  memory_ok d' ∧
  match r with
  | Ok item => memory_by_id (mi_id item) d' = Some item
  | Err e => d' = d ∧ reported_error c d e
  end.
Proof.
  intros Hok. unfold reported_error. destruct c as [m now|i m now|i now]; simpl; intros Hrun.
  - apply remember_outcome in Hrun as [Hok' Hr]; [|done]. split; [done|].
    destruct r as [item|e]; [apply Hr|]. destruct Hr. auto.
  - apply update_outcome in Hrun as [Hok' Hr]; [|done]. split; [done|].
    destruct r as [item|e]; [|done]. by destruct Hr as (-> & ? & _).
  - destruct r as [item|e].
    + apply (forget_final _ _ now) in Hrun as (Hok' & _ & Hm & _); [|done]. split; [done|].
      assert (mi_id item = i) as ->; [|done]. unfold memory_by_id in Hm.
      apply fmap_Some in Hm as (row & Hf & ->). by apply sql_find_Some in Hf as [_ ?%Z.eqb_eq].
    + revert Hrun. unfold forget, mbind at 1, M_bind at 1. rewrite require_memory_run.
      destruct (memory_by_id i d) as [item|]; [|intros [= <- <-]; auto].
      destruct (mi_archived item); done.
Qed.

(** C31. Whatever sequence of [remember], [update] and [forget] calls built the store: its keys
    are unique, its references resolve and its rows satisfy the table's constraints; and
    the next call either returns an item the store holds under its id, or leaves the store
    untouched with an error about the caller's input or a missing id.  No call ever
    fails on a constraint of the tables. *)
Theorem memory_calls_keep_constraints calls c :
  let d := run_memory calls empty_memory in
  memory_ok d ∧
  match run_memory_call c d with
  | (Ok item, d') => memory_by_id (mi_id item) d' = Some item
  | (Err e, d') => d' = d ∧ reported_error c d e
  end.
Proof.
  assert (∀ d, memory_ok d → memory_ok (run_memory calls d)) as Hkeep.
  { induction calls as [|c' calls IH]; intros d Hok; [done|]. apply IH.
    destruct (run_memory_call c' d) as [r d'] eqn:Hrun. by apply (memory_call_outcome _ _ _ _ Hok Hrun). }
  intros d. pose proof (Hkeep _ memory_ok_empty) as Hok. split; [done|].
  destruct (run_memory_call c d) as [r d'] eqn:Hrun.
  apply (memory_call_outcome _ _ _ _ Hok) in Hrun as [_ Hrun]. by destruct r.
Qed.

(** [forget] archives the item it returns and keeps it so: forgetting again, at any later
    time, returns the same item and writes nothing. *)
Theorem forget_is_final i now now' d item d1 :
  memory_ok d → forget i now d = (Ok item, d1) →
  mi_archived item = true ∧ memory_by_id i d1 = Some item ∧ forget i now' d1 = (Ok item, d1).
Proof. intros Hok Hrun. by apply (forget_final _ _ now' _ _ _ Hok) in Hrun as (_ & ? & ? & ?). Qed.
End Forget.

(** ** Paging and recall *)

Section Reads.
Context {U : Unicode}.

(** A client that follows the cursor from page to page until an empty page. *)
Fixpoint all_pages (fuel : nat) (kind : option EntityKind) (path_prefix : option text)
    (after_id limit : Z) : mop (list Entity) :=
  match fuel with
  | O => mret []
  | S fuel =>
    page ← list_entities kind path_prefix after_id limit;
    match last page with
    | None => mret []
    | Some cursor => rest ← all_pages fuel kind path_prefix (en_id cursor) limit; mret (page ++ rest)
    end
  end.

Lemma list_entities_run kind path_prefix prefix pattern after_id limit d :
  0 ≤ after_id → page_limit_ok limit = true → prefix_filter path_prefix = Ok (prefix, pattern) →
  list_entities kind path_prefix after_id limit d =
    (Ok (select_active_entities kind prefix pattern after_id limit d), d).
Proof.
  intros Hafter Hlimit Hprefix. unfold list_entities, list_active_entities.
  rewrite (proj2 (Z.ltb_ge _ _) Hafter), Hlimit, Hprefix. done.
Qed.

(** The list a client pages through. *)
Definition listing (kind : option EntityKind) (prefix pattern : option text) (d : memory_db) : list Entity :=
  order_by entity_key (sql_select (listed kind prefix pattern) (entities d)).

Lemma entity_keys_distinct kind prefix pattern d :
  memory_ok d → NoDup (entity_key <$> sql_select (listed kind prefix pattern) (entities d)).
Proof.
  intros Hok. pose proof (NoDup_fmap_select en_id (listed kind prefix pattern) _ (mo_entities d Hok)) as Hids.
  apply (NoDup_fmap_1 (λ k, match last k with Some (KInt z) => z | _ => 0 end)).
  by rewrite <- list_fmap_compose.
Qed.

Lemma page_after kind prefix pattern limit before cursor after d :
  memory_ok d → listing kind prefix pattern d = before ++ cursor :: after →
  select_active_entities kind prefix pattern (en_id cursor) limit d = take (Z.to_nat limit) after.
Proof.
  intros Hok Hl. assert (cursor ∈ entities d) as Hc.
  { assert (cursor ∈ listing kind prefix pattern d) as Hin by (rewrite Hl; set_solver).
    unfold listing in Hin. by apply elem_of_order_by, elem_of_sql_select in Hin as []. }
  unfold select_active_entities. f_equal. rewrite sql_select_and.
  rewrite <- (order_by_after entity_key _ _ _ _ Hl) by (by apply entity_keys_distinct).
  f_equal. unfold sql_select at 1 3. apply list_filter_iff. intros e. unfold after_cursor.
  pose proof (mo_positive d Hok cursor Hc). destruct (en_id cursor =? 0) eqn:Hz; [lia|].
  unfold entity_by_id. by rewrite (sql_find_unique en_id cursor) by (done || apply Hok).
Qed.
Lemma page_first kind prefix pattern limit d :
  select_active_entities kind prefix pattern 0 limit d = take (Z.to_nat limit) (listing kind prefix pattern d).
Proof. done. Qed.

Lemma all_pages_rest fuel kind path_prefix prefix pattern after_id limit before after d :
  memory_ok d → page_limit_ok limit = true → prefix_filter path_prefix = Ok (prefix, pattern) →
  0 ≤ after_id → listing kind prefix pattern d = before ++ after →
  select_active_entities kind prefix pattern after_id limit d = take (Z.to_nat limit) after →
  (length after < fuel)%nat →
  all_pages fuel kind path_prefix after_id limit d = (Ok after, d).
Proof.
  intros Hok Hlimit Hprefix. revert after_id before after.
  induction fuel as [|fuel IH]; intros after_id before after Hafter Hl Hpage Hfuel; [lia|].
  cbn [all_pages]. rewrite (bind_run _ _ _ _ _ (list_entities_run _ _ _ _ _ _ d Hafter Hlimit Hprefix)), Hpage.
  assert (1 ≤ Z.to_nat limit)%nat as Hlim by (unfold page_limit_ok in Hlimit; lia).
  destruct (last (take (Z.to_nat limit) after)) as [cursor|] eqn:Hlast.
  - destruct (take_snoc_cursor limit after Hlim) as (page & cursor' & Htake & Hsplit);
      [destruct after; [by rewrite take_nil in Hlast|simpl; lia]|].
    rewrite Htake, last_snoc in Hlast. injection Hlast as ->.
    set (rest := drop (Z.to_nat limit) after) in *.
    assert (listing kind prefix pattern d = (before ++ page) ++ cursor :: rest) as Hl'
      by (by rewrite Hl, Hsplit, <- app_assoc).
    assert (cursor ∈ entities d) as Hc.
    { assert (cursor ∈ listing kind prefix pattern d) as Hin by (rewrite Hl'; set_solver).
      unfold listing in Hin. by apply elem_of_order_by, elem_of_sql_select in Hin as []. }
    pose proof (mo_positive d Hok cursor Hc).
    rewrite (bind_run _ _ d rest d).
    + rewrite Htake. by rewrite Hsplit, <- app_assoc.
    + apply (IH _ ((before ++ page) ++ [cursor])); [lia|by rewrite <- app_assoc| |].
      * by eapply page_after.
      * apply (f_equal length) in Hsplit. rewrite length_app in Hsplit. simpl in Hsplit. lia.
  - apply last_None in Hlast. destruct after; [done|]. destruct (Z.to_nat limit); [lia|done].
Qed.

(** Following the cursor of [list_entities] from page to page, with any page size, returns
    every active entity of the kind and path exactly once, in the listing's order, and
    ends; more pages than entities are never needed. *)
Theorem entity_pages_enumerate fuel kind path_prefix prefix pattern limit d :
  memory_ok d → page_limit_ok limit = true → prefix_filter path_prefix = Ok (prefix, pattern) →
  (length (entities d) < fuel)%nat →
  all_pages fuel kind path_prefix 0 limit d =
    (Ok (order_by entity_key (sql_select (listed kind prefix pattern) (entities d))), d).
Proof.
  intros Hok Hlimit Hprefix Hfuel. eapply (all_pages_rest _ _ _ _ _ _ _ [] _ d Hok Hlimit Hprefix); [done|done| |].
  - by apply page_first.
  - rewrite (Permutation_length (order_by_permutation entity_key _)).
    unfold sql_select. pose proof (length_filter (λ r, listed kind prefix pattern r = true) (entities d)). lia.
Qed.

(** *** Recall *)

(** A query is text, not a pattern: it matches where it occurs, letters without ASCII case. *)
Fixpoint starts_with (query s : text) : bool :=
  match query, s with
  | EmptyString, _ => true
  | String a query, String b s => same_char a b && starts_with query s
  | String _ _, EmptyString => false
  end.
Definition contains (query s : text) : bool := existsb (starts_with query) (suffixes s).

Definition escape_char (a : ascii) : text :=
  if Ascii.eqb a backslash then String backslash (String backslash EmptyString)
  else if Ascii.eqb a "%"%char then String backslash "%"
  else if Ascii.eqb a "_"%char then String backslash "_" else String a EmptyString.

Lemma replace_char_app c by_ s t :
  replace_char c by_ (s +:+ t) = (replace_char c by_ s +:+ replace_char c by_ t)%string.
Proof.
  induction s as [|a s IH]; [done|]. change (String a s +:+ t)%string with (String a (s +:+ t))%string.
  cbn [replace_char]. by rewrite IH, text_app_assoc.
Qed.

Lemma escape_like_cons a query : escape_like (String a query) = (escape_char a +:+ escape_like query)%string.
Proof.
  unfold escape_like. change (String a query) with (String a "" +:+ query)%string.
  rewrite !replace_char_app. f_equal. unfold escape_char. cbn [replace_char].
  destruct (Ascii.eqb_spec a backslash) as [->|Hb]; [done|]. change (String a "" +:+ "")%string with (String a "").
  cbn [replace_char]. destruct (Ascii.eqb_spec a "%"%char) as [->|Hp]; [done|].
  change (String a "" +:+ "")%string with (String a ""). cbn [replace_char].
  by destruct (Ascii.eqb_spec a "_"%char) as [->|Hu].
Qed.

Lemma existsb_suffixes_empty s : existsb (λ t, match t with EmptyString => true | _ => false end) (suffixes s) = true.
Proof. induction s as [|c s IH]; [done|]. exact IH. Qed.

Lemma like_escaped fuel query s :
  (S (String.length (escape_like query)) < fuel)%nat →
  like fuel (escape_like query +:+ "%") s = starts_with query s.
Proof.
  revert fuel s. induction query as [|a query IH]; intros fuel s Hfuel.
  - destruct fuel as [|[|fuel]]; [simpl in Hfuel; lia..|]. unfold escape_like. cbn [replace_char]. rewrite (eq_refl : ("" +:+ "%")%string = "%"%string). cbn [like].
    exact (existsb_suffixes_empty s).
  - rewrite escape_like_cons in *. destruct fuel as [|fuel]; [lia|].
    rewrite text_length_app in Hfuel. unfold escape_char in *.
    destruct (Ascii.eqb_spec a backslash) as [->|Hb].
    { cbn in Hfuel. rewrite !text_cons_app. cbn [like]. destruct s as [|c s]; [done|]. cbn [Ascii.eqb]. rewrite IH by lia. done. }
    destruct (Ascii.eqb_spec a "%"%char) as [->|Hp].
    { cbn in Hfuel. rewrite !text_cons_app. cbn [like]. destruct s as [|c s]; [done|]. cbn [Ascii.eqb]. rewrite IH by lia. done. }
    destruct (Ascii.eqb_spec a "_"%char) as [->|Hu].
    { cbn in Hfuel. rewrite !text_cons_app. cbn [like]. destruct s as [|c s]; [done|]. cbn [Ascii.eqb]. rewrite IH by lia. done. }
    cbn in Hfuel. rewrite !text_cons_app. cbn [like].
    rewrite (proj2 (Ascii.eqb_neq a "%") Hp), (proj2 (Ascii.eqb_neq a backslash) Hb),
      (proj2 (Ascii.eqb_neq a "_") Hu).
    destruct s as [|c s]; [done|]. rewrite IH by lia. done.
Qed.

Lemma like_contains query s :
  like_escape ("%" +:+ escape_like query +:+ "%") s = contains query s.
Proof.
  unfold like_escape, contains. rewrite text_cons_app. cbn [String.length].
  change (("" +:+ escape_like query +:+ "%")%string) with (escape_like query +:+ "%")%string.
  set (fuel := S (String.length (escape_like query +:+ "%"))). change (like (S fuel) (String "%" (escape_like query +:+ "%")) s) with
    (existsb (like fuel (escape_like query +:+ "%")) (suffixes s)).
  induction (suffixes s) as [|t l IH]; [done|]. cbn [existsb]. rewrite IH. f_equal.
  apply like_escaped. unfold fuel. rewrite text_length_app. simpl. lia.
Qed.

(** The row's content, or its entity's label, path or one of its aliases, contains the query. *)
Definition mentions (query : text) (d : memory_db) (r : item_row) : bool :=
  let within column := match column with Some s => contains query s | None => false end in
  let e := item_entity r d in
  within (en_label <$> e) || within (e ≫= en_path) || contains query (it_content r) ||
  match e with
  | Some e => sql_exists (λ a, (al_entity_id a =? en_id e) && contains query (al_alias a)) (aliases d)
  | None => false
  end.

Lemma recalled_mentions query kind entity_kind prefix pattern d r :
  recalled ("%" +:+ escape_like query +:+ "%") kind entity_kind prefix pattern d r =
  negb (it_archived r) && mentions query d r &&
  match kind with Some k => bool_decide (it_kind r = k) | None => true end &&
  match entity_kind with Some k => bool_decide (en_kind <$> item_entity r d = Some k) | None => true end &&
  path_matches prefix pattern (item_entity r d ≫= en_path).
Proof.
  assert (∀ column, matches ("%" +:+ escape_like query +:+ "%") column =
    match column with Some s => contains query s | None => false end) as Hm
    by (intros [s|]; [apply like_contains|done]).
  unfold recalled, mentions. rewrite !Hm, like_contains. repeat f_equal.
  destruct (item_entity r d) as [e|]; [|done]. apply sql_exists_ext. intros a.
  by rewrite like_contains.
Qed.

(** [recall] searches text literally, whatever LIKE wildcards or escape characters the
    query holds: it returns, newest first, the first [limit] active items of the kinds and
    path asked for whose content, entity label, path or alias contains the query. *)
Theorem recall_is_literal_search query kind entity_kind path_prefix prefix pattern limit d :
  page_limit_ok limit = true → prefix_filter path_prefix = Ok (prefix, pattern) →
  recall query kind entity_kind path_prefix limit d =
    (Ok ((λ r, joined r d) <$> take (Z.to_nat limit) (newest_first (sql_select (λ r,
       negb (it_archived r) && mentions query d r &&
       match kind with Some k => bool_decide (it_kind r = k) | None => true end &&
       match entity_kind with Some k => bool_decide (en_kind <$> item_entity r d = Some k) | None => true end &&
       path_matches prefix pattern (item_entity r d ≫= en_path)) (items d)))), d).
Proof.
  intros Hlimit Hprefix. unfold recall. rewrite Hlimit, Hprefix. cbn [negb]. step. unfold gets.
  do 5 f_equal. unfold sql_select. apply list_filter_iff. intros r. by rewrite recalled_mentions.
Qed.
End Reads.

(** ** Concrete runs *)

Definition sample_instant : instant := 63909000000000000.
Definition sample_birthday : NewMemory :=
  mk_new_memory Fact "Loves peonies" (Some " Ada Lovelace"%string) (Some Person)
    (Some "family/Ada"%string) Birthday (Some "--12-10"%string) Yearly 14 AgentConversation.
Definition sample_note : NewMemory :=
  mk_new_memory Note "Renew 100%_pass" (Some "City Gym"%string) (Some Place)
    None Free (Some "2026-09-01"%string) RecurNone 7 Manual.
Definition sample_memory : memory_db :=
  run_memory (U := ascii_unicode)
    [Remember sample_birthday sample_instant; Remember sample_note (sample_instant + 5)] empty_memory.

Lemma sample_memory_ok : memory_ok sample_memory.
Proof.
  assert (∀ calls d, memory_ok d → memory_ok (run_memory (U := ascii_unicode) calls d)) as Hkeep.
  { induction calls as [|c' calls IH]; intros d Hok; [done|]. apply IH.
    destruct (run_memory_call c' d) as [r d'] eqn:Hrun. by apply (memory_call_outcome _ _ _ _ Hok Hrun). }
  apply Hkeep, memory_ok_empty.
Qed.

(** The two runs of the merge's witness, with their results computed. *)
Definition first_run : res memory_exn MemoryItem * memory_db :=
  remember (U := ascii_unicode) sample_birthday (sample_instant + 1) sample_memory.

Lemma remember_merges_repeats_witness :
  ∃ item item', first_run.1 = Ok item ∧
    (remember (U := ascii_unicode) sample_birthday (sample_instant + 9) first_run.2).1 = Ok item' ∧
    mi_id item' = mi_id item.
Proof.
  destruct first_run as [[item|e] d1] eqn:H1; [|vm_compute in H1; discriminate].
  destruct (remember (U := ascii_unicode) sample_birthday (sample_instant + 9) d1) as [r2 d2] eqn:H2.
  destruct (remember_merges_repeats (U := ascii_unicode) sample_birthday (sample_instant + 1) (sample_instant + 9)
    sample_memory item d1 r2 d2 sample_memory_ok) as (item' & Hr & Hid & _).
  - by exists "--12-10"%string.
  - right. by exists " Ada Lovelace"%string.
  - exact H1.
  - exact H2.
  - exists item, item'. split; [reflexivity|]. split; [|exact Hid]. cbn [snd]. rewrite H2. exact Hr.
Defined.

Lemma forget_is_final_witness :
  ∃ item, forget 1 (sample_instant + 30) sample_memory = (Ok item, (forget 1 (sample_instant + 30) sample_memory).2) ∧
  mi_archived item = true.
Proof.
  destruct (forget 1 (sample_instant + 30) sample_memory) as [r d1] eqn:H1.
  destruct r as [item|e]; [|vm_compute in H1; discriminate].
  exists item. split; [done|].
  exact (proj1 (forget_is_final 1 (sample_instant + 30) (sample_instant + 60) sample_memory item d1
    sample_memory_ok H1)).
Defined.

Lemma entity_pages_enumerate_witness :
  en_label <$> order_by entity_key (sql_select (listed None None None) (entities sample_memory)) =
    ["Ada Lovelace"; "City Gym"]%string ∧
  all_pages (U := ascii_unicode) 3 None None 0 1 sample_memory =
    (Ok (order_by entity_key (sql_select (listed None None None) (entities sample_memory))), sample_memory).
Proof.
  split; [vm_compute; reflexivity|].
  apply (entity_pages_enumerate (U := ascii_unicode) 3 None None None None 1 sample_memory sample_memory_ok);
    [reflexivity|reflexivity|apply Nat.ltb_lt; vm_compute; reflexivity].
Defined.

(** The percent sign and the underscore are found as themselves. *)
Lemma recall_is_literal_search_witness :
  ∃ found, recall (U := ascii_unicode) "100%_P" None None None 5 sample_memory = (Ok found, sample_memory) ∧
    mi_content <$> found = ["Renew 100%_pass"%string].
Proof.
  eexists. split.
  - exact (recall_is_literal_search (U := ascii_unicode) "100%_P" None None None None None 5 sample_memory eq_refl eq_refl).
  - vm_compute. reflexivity.
Defined.

(** A week date passes the validation of a new memory, and no anchor parser reads it. *)
Theorem week_date_accepted_but_not_parsed :
  validate_new_memory (mk_new_memory Commitment "Pay rent" None None None Free (Some "2026-W10-1"%string)
    RecurNone 7 Manual) = Ok tt ∧
  parse_anchor "2026-W10-1" = None.
Proof. split; vm_compute; reflexivity. Qed.
