(* ===== verification/MemoryTools.v ===== *)
(** The memory tools of the MCP server ([server/memory_tools.py], [server/memory_requests.py],
    [server/memory_responses.py]): requests, answers and calls over the memory store.  The
    types of the arguments are checked by pydantic before a call; the one bound it checks on a
    value is written out. *)
From S2P Require Import Prelude PyDate PyTime Memory MemoryStore.
#[local] Open Scope Z_scope.

(** ** Requests *)

Record RememberRequest := mk_remember_request {
  rq_kind : MemoryKind;
  rq_content : text;
  rq_entity : option text;
  rq_entity_kind : option EntityKind;
  rq_entity_path : option text;
  rq_attribute : MemoryAttribute;
  rq_date_anchor : option text;
  rq_recurrence : MemoryRecurrence;
  rq_lead_days : Z;
}.
(** The flat optional arguments; what is left out takes the model's default. *)
Record MemoryOptions := mk_memory_options {
  mop_entity_kind : option EntityKind;
  mop_entity_path : option text;
  mop_attribute : option MemoryAttribute;
  mop_date_anchor : option text;
  mop_recurrence : option MemoryRecurrence;
  mop_lead_days : option Z;
}.

Inductive memory_tool_exn := InvalidRequest | MemoryRaised (e : memory_exn).
Abbreviation memory_tool := (M memory_db memory_tool_exn).

(** [RememberRequest(...)]: [lead_days] has [ge=0, le=MAX_MEMORY_LEAD_DAYS]. *)
Definition remember_request (kind : MemoryKind) (content : text) (entity : option text)
    (options : MemoryOptions) : res memory_tool_exn RememberRequest :=
  let lead_days := default 7 (mop_lead_days options) in
  if (0 <=? lead_days) && (lead_days <=? MAX_MEMORY_LEAD_DAYS)
  then Ok (mk_remember_request kind content entity (mop_entity_kind options) (mop_entity_path options)
         (default Free (mop_attribute options)) (mop_date_anchor options)
         (default RecurNone (mop_recurrence options)) lead_days)
  else Err InvalidRequest.

Definition new_memory (memory : RememberRequest) : NewMemory :=
  mk_new_memory (rq_kind memory) (rq_content memory) (rq_entity memory) (rq_entity_kind memory)
    (rq_entity_path memory) (rq_attribute memory) (rq_date_anchor memory) (rq_recurrence memory)
    (rq_lead_days memory) AgentConversation.

(** ** Answers *)

(** [trust] is the constant [untrusted_memory_data] of both answers. *)
Record MemoryItemResponse := mk_item_response {
  mir_id : Z;
  mir_kind : MemoryKind;
  mir_entity_id : option Z;
  mir_entity : option text;
  mir_entity_kind : option EntityKind;
  mir_entity_path : option text;
  mir_attribute : MemoryAttribute;
  mir_content : text;
  mir_date_anchor : option text;
  mir_recurrence : MemoryRecurrence;
  mir_lead_days : option Z;
  mir_source : MemorySource;
  mir_created_at : text;
  mir_updated_at : text;
  mir_archived : bool;
  mir_is_contradictory : bool;
}.
Record EntityResponse := mk_entity_response {
  enr_id : Z;
  enr_kind : EntityKind;
  enr_path : option text;
  enr_label : text;
  enr_status : EntityStatus;
  enr_created_at : text;
  enr_updated_at : text;
}.
Record ListEntitiesResponse := mk_entities_response {
  ler_items : list EntityResponse;
  ler_next_after_id : option Z;
}.
Record ForgetResponse := mk_forget_response { fgr_id : Z; fgr_archived : bool }.

Definition memory_item_response (item : MemoryItem) : MemoryItemResponse :=
  mk_item_response (mi_id item) (mi_kind item) (mi_entity_id item) (mi_entity item) (mi_entity_kind item)
    (mi_entity_path item) (mi_attribute item) (mi_content item) (mi_date_anchor item) (mi_recurrence item)
    (mi_lead_days item) (mi_source item) (mi_created_at item) (mi_updated_at item) (mi_archived item)
    (mi_is_contradictory item).
Definition entity_response (entity : Entity) : EntityResponse :=
  mk_entity_response (en_id entity) (en_kind entity) (en_path entity) (en_label entity) (en_status entity)
    (en_created_at entity) (en_updated_at entity).

(** ** Calls *)

Definition from_store {A} (m : mop A) : memory_tool A := λ d,
  match m d with
  | (Ok a, d') => (Ok a, d')
  | (Err e, d') => (Err (MemoryRaised e), d')
  end.

Section Tools.
Context {U : Unicode}.

Definition remember_tool (kind : MemoryKind) (content : text) (entity : option text) (options : MemoryOptions)
    (now : instant) : memory_tool MemoryItemResponse :=
  memory ← lift (remember_request kind content entity options);
  item ← from_store (remember (new_memory memory) now);
  mret (memory_item_response item).

Definition update_tool (memory_id : Z) (kind : MemoryKind) (content : text) (entity : option text)
    (options : MemoryOptions) (now : instant) : memory_tool MemoryItemResponse :=
  memory ← lift (remember_request kind content entity options);
  item ← from_store (update memory_id (new_memory memory) now);
  mret (memory_item_response item).

Definition recall_tool (query : text) (kind : option MemoryKind) (entity_kind : option EntityKind)
    (path_prefix : option text) (limit : Z) : memory_tool (list MemoryItemResponse) :=
  items ← from_store (recall query kind entity_kind path_prefix limit);
  mret (memory_item_response <$> items).

Definition list_entities_tool (kind : option EntityKind) (path_prefix : option text) (after_id limit : Z)
    : memory_tool ListEntitiesResponse :=
  entities ← from_store (list_entities kind path_prefix after_id limit);
  mret (mk_entities_response (entity_response <$> entities)
    (if Z.of_nat (length entities) =? limit then en_id <$> last entities else None)).

Definition forget_tool (memory_id : Z) (now : instant) : memory_tool ForgetResponse :=
  _ ← from_store (forget memory_id now);
  mret (mk_forget_response memory_id true).

(** ** Following [next_after_id] *)

(** A client that asks for the next page while the answer names one. *)
Fixpoint tool_pages (fuel : nat) (kind : option EntityKind) (path_prefix : option text) (after_id limit : Z)
    : memory_tool (list EntityResponse) :=
  match fuel with
  | O => mret []
  | S fuel =>
    answer ← list_entities_tool kind path_prefix after_id limit;
    match ler_next_after_id answer with
    | None => mret (ler_items answer)
    | Some cursor =>
      rest ← tool_pages fuel kind path_prefix cursor limit;
      mret (ler_items answer ++ rest)
    end
  end.

Lemma tool_pages_rest fuel kind path_prefix prefix pattern after_id limit before after d :
  memory_ok d → page_limit_ok limit = true → prefix_filter path_prefix = Ok (prefix, pattern) →
  0 ≤ after_id → listing kind prefix pattern d = before ++ after →
  select_active_entities kind prefix pattern after_id limit d = take (Z.to_nat limit) after →
  (length after < fuel)%nat →
  tool_pages fuel kind path_prefix after_id limit d = (Ok (entity_response <$> after), d).
Proof.
  intros Hok Hlimit Hprefix. revert after_id before after.
  induction fuel as [|fuel IH]; intros after_id before after Hafter Hl Hpage Hfuel; [lia|].
  cbn [tool_pages]. assert (1 ≤ Z.to_nat limit)%nat as Hlim by (unfold page_limit_ok in Hlimit; lia).
  assert (list_entities_tool kind path_prefix after_id limit d =
    (Ok (mk_entities_response (entity_response <$> take (Z.to_nat limit) after)
      (if Z.of_nat (length (take (Z.to_nat limit) after)) =? limit
       then en_id <$> last (take (Z.to_nat limit) after) else None)), d)) as Hrun.
  { unfold list_entities_tool, from_store, mbind, M_bind.
    by rewrite (list_entities_run _ _ _ _ _ _ d Hafter Hlimit Hprefix), Hpage. }
  rewrite (bind_run _ _ _ _ _ Hrun). cbn [ler_next_after_id ler_items].
  rewrite length_take. destruct (Z.eqb_spec (Z.of_nat (Z.to_nat limit `min` length after)) limit) as [Hfull|Hshort].
  - destruct (take_snoc_cursor limit after) as (page & cursor & Htake & Hsplit); [lia..|].
    rewrite Htake, last_snoc. cbn [fmap option_fmap option_map].
    set (rest := drop (Z.to_nat limit) after) in *.
    assert (listing kind prefix pattern d = (before ++ page) ++ cursor :: rest) as Hl'
      by (by rewrite Hl, Hsplit, <- app_assoc).
    assert (cursor ∈ entities d) as Hc.
    { assert (cursor ∈ listing kind prefix pattern d) as Hin by (rewrite Hl'; set_solver).
      unfold listing in Hin. by apply elem_of_order_by, elem_of_sql_select in Hin as []. }
    pose proof (mo_positive d Hok cursor Hc).
    rewrite (bind_run _ _ d (entity_response <$> rest) d).
    + rewrite <- fmap_app, <- app_assoc. cbn [app]. by rewrite <- Hsplit.
    + apply (IH _ ((before ++ page) ++ [cursor])); [lia|by rewrite <- app_assoc| |].
      * by eapply page_after.
      * apply (f_equal length) in Hsplit. rewrite length_app in Hsplit. simpl in Hsplit. lia.
  - rewrite take_ge by lia. done.
Qed.

(** Following [next_after_id] of [list_entities] from the first page to the last, with any page
    size, a client receives every active entity of the kind and path exactly once, in the
    listing's order, and stops: it never needs more calls than there are entities, plus one. *)
Theorem entity_tool_pages_enumerate fuel kind path_prefix prefix pattern limit d :
  memory_ok d → page_limit_ok limit = true → prefix_filter path_prefix = Ok (prefix, pattern) →
  (length (entities d) < fuel)%nat →
  tool_pages fuel kind path_prefix 0 limit d =
    (Ok (entity_response <$> order_by entity_key (sql_select (listed kind prefix pattern) (entities d))), d).
Proof.
  intros Hok Hlimit Hprefix Hfuel.
  apply (tool_pages_rest fuel kind path_prefix prefix pattern 0 limit [] _ d Hok Hlimit Hprefix); [done|done| |].
  - by apply page_first.
  - rewrite (Permutation_length (order_by_permutation entity_key _)).
    unfold sql_select. pose proof (length_filter (λ r, listed kind prefix pattern r = true) (entities d)). lia.
Qed.
End Tools.

Lemma entity_tool_pages_enumerate_witness :
  tool_pages (U := ascii_unicode) 3 None None 0 1 sample_memory =
    (Ok (entity_response <$> order_by entity_key (sql_select (listed None None None) (entities sample_memory))), sample_memory) ∧
  length (order_by entity_key (sql_select (listed None None None) (entities sample_memory))) = 2%nat.
Proof.
  split; [|vm_compute; reflexivity].
  apply (entity_tool_pages_enumerate (U := ascii_unicode) 3 None None None None 1 sample_memory sample_memory_ok eq_refl eq_refl).
  vm_compute. lia.
Defined.
