(* ===== verification/CalendarConflict.v ===== *)
(** Calendar conflicts: [situations/calendar_conflict.py] over the typed events of
    [sources/_calendar_models.py].  The sweep keeps a heap of end times and two
    dictionaries of open intervals; the reference it is compared with looks at every
    pair. *)
From stdpp Require Import pretty.
From S2P Require Import Prelude PyDate PyTime Models.
#[local] Open Scope Z_scope.

(** ** Events *)

Inductive EventStatus := EvConfirmed | EvTentative | EvCancelled.
Inductive EventTransparency := Opaque | Transparent.
Inductive ResponseStatus := NeedsAction | Declined | RespTentative | Accepted.
#[export] Instance EventStatus_eq_dec : EqDecision EventStatus.
Proof. solve_decision. Defined.
#[export] Instance EventTransparency_eq_dec : EqDecision EventTransparency.
Proof. solve_decision. Defined.
#[export] Instance ResponseStatus_eq_dec : EqDecision ResponseStatus.
Proof. solve_decision. Defined.

(** The adapter stores timed bounds in UTC. *)
Inductive event_bound :=
  | TimedInstant (i : instant)
  | AllDayDate (d : date).

Record CalendarEvent := mk_event {
  ev_id : text;
  ev_status : EventStatus;
  ev_summary : option text;
  ev_start : option event_bound;
  ev_end : option event_bound;
  ev_is_organizer : bool;
  ev_self_response_status : option ResponseStatus;
  ev_transparency : EventTransparency;
}.

Definition MAX_CALENDAR_CONFLICTS : Z := 1000.
Definition DEFAULT_CRITICAL_WINDOW : timedelta := 2 * US_PER_HOUR.
Definition DEFAULT_HIGH_WINDOW : timedelta := 24 * US_PER_HOUR.

Inductive CalendarConflictWarningCode := CalendarConflictOutputOverflow.

Record CalendarConflictRun := mk_conflict_run {
  cr_detections : list Detection;
  cr_resolution_safe : bool;
  cr_warning_codes : list CalendarConflictWarningCode;
}.

Record _Interval := mk_interval {
  iv_event : CalendarEvent;
  iv_start : instant;
  iv_end : instant;
  iv_all_day : bool;
}.

(** What the module can raise: date arithmetic, and [dict.pop] on a missing key. *)
Inductive conflict_error := ConflictTimeError (e : time_error) | KeyError.

Definition lift_conflict {A} (r : res time_error A) : res conflict_error A :=
  match r with Ok a => Ok a | Err e => Err (ConflictTimeError e) end.

(** ** Committed intervals *)

Definition _instant (bound : option event_bound) (tz : tzinfo)
    : res time_error (option instant) :=
  match bound with
  | Some (TimedInstant i) => mret (Some i)
  | Some (AllDayDate d) => i ← local_day_start d tz; mret (Some i)
  | None => mret None
  end.

Definition is_all_day (bound : option event_bound) : bool :=
  match bound with Some (AllDayDate _) => true | _ => false end.

(** Confirmed, busy, and organized or accepted by the user. *)
Definition committed (event : CalendarEvent) : bool :=
  bool_decide (ev_status event = EvConfirmed) &&
  bool_decide (ev_transparency event = Opaque) &&
  (ev_is_organizer event || bool_decide (ev_self_response_status event = Some Accepted)).

Fixpoint _committed_intervals (events : list CalendarEvent) (tz : tzinfo)
    : res time_error (list _Interval) :=
  match events with
  | [] => mret []
  | event :: rest =>
    if negb (committed event) then _committed_intervals rest tz else
    start ← _instant (ev_start event) tz;
    end_ ← _instant (ev_end event) tz;
    more ← _committed_intervals rest tz;
    match start, end_ with
    | Some s, Some e => mret (mk_interval event s e (is_all_day (ev_start event)) :: more)
    | _, _ => mret more
    end
  end.

(** ** Detections *)

Definition _priority (overlap_start now : instant) (critical_window high_window : timedelta)
    : res time_error SituationPriority :=
  critical_until ← dt_add now critical_window;
  if overlap_start <=? critical_until then mret Critical else
  high_until ← dt_add now high_window;
  if overlap_start <=? high_until then mret High else mret Routine.

(** [strftime('%H:%M')] of wall-clock microseconds. *)
Definition hour_minute (wall : Z) : text :=
  (pad 2 (time_of_day wall / US_PER_HOUR) +:+ ":" +:+
   pad 2 (time_of_day wall mod US_PER_HOUR / US_PER_MINUTE))%string.

(** [lead_seconds // 3600] on floats: the seconds are exact below 2{^33}, far beyond
    the fourteen days the adapter reads. *)
Definition urgency (lead : timedelta) : text :=
  (if (lead <=? 0)%Z then "the overlap already started"
   else "the overlap starts in " +:+ pretty (lead / US_PER_HOUR)%Z +:+ "h")%string.

(** [sorted] of the two ids. *)
Definition sorted_pair (a b : text) : text * text := if text_leb a b then (a, b) else (b, a).

Definition conflict_key (p c : _Interval) : text :=
  let '(low_id, high_id) := sorted_pair (ev_id (iv_event p)) (ev_id (iv_event c)) in
  ("calendar_conflict:" +:+ low_id +:+ ":" +:+ high_id)%string.

Definition summary_quote (label : text) (i : _Interval) : dict :=
  match ev_summary (iv_event i) with Some s => [(label, s)] | None => [] end.

Definition _detection (first second : _Interval) (overlap_start overlap_end now : instant)
    (tz : tzinfo) (critical_window high_window : timedelta) : res time_error Detection :=
  pr ← _priority overlap_start now critical_window high_window;
  local_start ← astimezone overlap_start tz;
  local_end ← astimezone overlap_end tz;
  let day := date_isoformat (instant_date local_start) in
  mret (mk_detection CalendarConflict (conflict_key first second) pr
    ("Calendar conflict on " +:+ day)%string
    ("Two committed events overlap " +:+ hour_minute local_start +:+ "-" +:+
      hour_minute local_end +:+ " on " +:+ day +:+ "; " +:+ urgency (overlap_start - now))%string
    (mk_evidence
      [("event_a_id", ev_id (iv_event first)); ("event_b_id", ev_id (iv_event second));
       ("event_a_start", utc_iso (iv_start first)); ("event_a_end", utc_iso (iv_end first));
       ("event_b_start", utc_iso (iv_start second)); ("event_b_end", utc_iso (iv_end second));
       ("overlap_start", utc_iso overlap_start); ("overlap_end", utc_iso overlap_end)]
      (summary_quote "event_a" first ++ summary_quote "event_b" second) [] [])
    (Some overlap_end)).

(** ** The sweep *)

(** [heapq] on [(end, sequence)]: a list in increasing order, so that [heap[0]] and
    [heappop] are its head. *)
Definition heap := list (instant * nat).
Definition heap_leb (a b : instant * nat) : bool :=
  (a.1 <? b.1) || ((a.1 =? b.1) && (a.2 <=? b.2)%nat).
Fixpoint heappush (x : instant * nat) (h : heap) : heap :=
  match h with
  | [] => [x]
  | y :: h' => if heap_leb x y then x :: h else y :: heappush x h'
  end.

(** Dictionaries keyed by sequence number, in insertion order. *)
Definition table := list (nat * _Interval).
Definition table_pop (k : nat) (t : table) : res conflict_error (_Interval * table) :=
  match sql_find (λ x, (x.1 =? k)%nat) t with
  | None => Err KeyError
  | Some (_, iv) => Ok (iv, sql_delete (λ x, (x.1 =? k)%nat) t)
  end.

(** [while ends and ends[0][0] <= current.start]. *)
Fixpoint pop_expired (start : instant) (ends : heap) (active active_timed : table)
    : res conflict_error (heap * table * table) :=
  match ends with
  | [] => mret ([], active, active_timed)
  | (e, k) :: ends' =>
    if negb (e <=? start) then mret (ends, active, active_timed) else
    '(expired, active') ← table_pop k active;
    if iv_all_day expired then pop_expired start ends' active' active_timed else
    '(_, active_timed') ← table_pop k active_timed;
    pop_expired start ends' active' active_timed'
  end.

Section Detect.
Context (now : instant) (tz : tzinfo) (critical_window high_window : timedelta).

(** The inner loop; the flag says that the output overflowed. *)
Fixpoint scan_candidates (current : _Interval) (candidates : list _Interval)
    (detections : list Detection) : res conflict_error (list Detection * bool) :=
  match candidates with
  | [] => mret (detections, false)
  | previous :: rest =>
    let overlap_start := iv_start current in
    let overlap_end := Z.min (iv_end previous) (iv_end current) in
    if overlap_end <=? now then scan_candidates current rest detections else
    if Z.of_nat (length detections) =? MAX_CALENDAR_CONFLICTS then mret (detections, true) else
    d ← lift_conflict (_detection previous current overlap_start overlap_end now tz
                         critical_window high_window);
    scan_candidates current rest (detections ++ [d])
  end.

Fixpoint sweep (sequence : nat) (intervals : list _Interval) (ends : heap)
    (active active_timed : table) (detections : list Detection)
    : res conflict_error CalendarConflictRun :=
  match intervals with
  | [] => mret (mk_conflict_run detections true [])
  | current :: rest =>
    '(ends, active, active_timed) ← pop_expired (iv_start current) ends active active_timed;
    let candidates := if iv_all_day current then active_timed else active in
    '(detections, overflow) ← scan_candidates current (candidates.*2) detections;
    if overflow : bool
    then mret (mk_conflict_run detections false [CalendarConflictOutputOverflow])
    else sweep (S sequence) rest (heappush (iv_end current, sequence) ends)
      (active ++ [(sequence, current)])
      (if iv_all_day current then active_timed else active_timed ++ [(sequence, current)])
      detections
  end.

Definition interval_key (i : _Interval) : list sql_key :=
  [KInt (iv_start i); KInt (iv_end i); KText (ev_id (iv_event i))].

(** The intervals still open after [now], in start order. *)
Definition open_intervals (events : list CalendarEvent) : res time_error (list _Interval) :=
  intervals ← _committed_intervals events tz;
  mret (order_by interval_key (sql_select (λ i, now <? iv_end i) intervals)).

Definition run_calendar_conflict_detection (events : list CalendarEvent)
    : res conflict_error CalendarConflictRun :=
  intervals ← lift_conflict (open_intervals events);
  sweep 0 intervals [] [] [] [].

Definition detect_calendar_conflicts (events : list CalendarEvent)
    : res conflict_error (list Detection) :=
  run ← run_calendar_conflict_detection events; mret (cr_detections run).
End Detect.

(** ** The reference: every pair *)

(** An earlier interval [p] still runs when [c] starts, and one of them is timed. *)
Definition conflicts (c p : _Interval) : bool :=
  (iv_start c <? iv_end p) && negb (iv_all_day c && iv_all_day p).

(** Every conflicting pair, by the later interval and then by the earlier one. *)
Fixpoint all_pairs (earlier intervals : list _Interval) : list (_Interval * _Interval) :=
  match intervals with
  | [] => []
  | c :: rest =>
    ((λ p, (p, c)) <$> sql_select (conflicts c) earlier) ++ all_pairs (earlier ++ [c]) rest
  end.

Section Reference.
Context (now : instant) (tz : tzinfo) (critical_window high_window : timedelta).

Definition pair_detection (pc : _Interval * _Interval) : res time_error Detection :=
  _detection pc.1 pc.2 (iv_start pc.2) (Z.min (iv_end pc.1) (iv_end pc.2)) now tz
    critical_window high_window.

Fixpoint detect_pairs (pairs : list (_Interval * _Interval)) (found : list Detection)
    : res conflict_error CalendarConflictRun :=
  match pairs with
  | [] => mret (mk_conflict_run found true [])
  | pc :: rest =>
    if Z.of_nat (length found) =? MAX_CALENDAR_CONFLICTS
    then mret (mk_conflict_run found false [CalendarConflictOutputOverflow])
    else d ← lift_conflict (pair_detection pc); detect_pairs rest (found ++ [d])
  end.

(** *** The heap and the tables *)

Definition heap_le (a b : instant * nat) : Prop := heap_leb a b = true.

Lemma heap_leb_spec a b : heap_leb a b = true ↔ a.1 < b.1 ∨ a.1 = b.1 ∧ (a.2 ≤ b.2)%nat.
Proof.
  unfold heap_leb. by rewrite orb_true_iff, andb_true_iff, Z.ltb_lt, Z.eqb_eq, Nat.leb_le.
Qed.

Lemma heap_leb_total a b : heap_leb a b = false → heap_leb b a = true.
Proof. rewrite <- not_true_iff_false, !heap_leb_spec. lia. Qed.

Lemma heap_leb_trans a b c : heap_leb a b = true → heap_leb b c = true → heap_leb a c = true.
Proof. rewrite !heap_leb_spec. lia. Qed.

Lemma heappush_perm x h : heappush x h ≡ₚ x :: h.
Proof.
  induction h as [|y h IH]; simpl; [done|]. destruct (heap_leb x y); [done|].
  rewrite IH. constructor.
Qed.

Lemma heappush_sorted x h : StronglySorted heap_le h → StronglySorted heap_le (heappush x h).
Proof.
  induction 1 as [|y h Hs IH Hall]; simpl; [repeat constructor|].
  destruct (heap_leb x y) eqn:Hxy.
  - constructor; [by constructor|]. constructor; [done|].
    eapply Forall_impl; [exact Hall|]. intros z Hz. by eapply heap_leb_trans.
  - constructor; [done|]. rewrite heappush_perm. constructor; [|done].
    by apply heap_leb_total.
Qed.

(** The intervals of a table that still run at [s], in insertion order. *)
Definition running (s : instant) (t : table) : table :=
  sql_select (λ x, s <? iv_end x.2) t.
Definition timed (t : table) : table := sql_select (λ x, negb (iv_all_day x.2)) t.

(** The heap and the tables describe the same intervals. *)
Record tables_ok (ends : heap) (active active_timed : table) : Prop := mk_tables_ok {
  to_heap : ends ≡ₚ (λ x, (iv_end x.2, x.1)) <$> active;
  to_sorted : StronglySorted heap_le ends;
  to_keys : NoDup active.*1;
  to_timed : active_timed = timed active;
}.

Lemma key_row (t : table) k iv iv' :
  NoDup t.*1 → (k, iv) ∈ t → (k, iv') ∈ t → iv = iv'.
Proof.
  intros Hnd [i Hi]%list_elem_of_lookup [j Hj]%list_elem_of_lookup.
  assert (i = j) as ->; [|congruence].
  eapply NoDup_lookup; [exact Hnd| |]; rewrite list_lookup_fmap.
  - by rewrite Hi.
  - by rewrite Hj.
Qed.

Lemma table_pop_key k iv t :
  NoDup t.*1 → (k, iv) ∈ t →
  table_pop k t = Ok (iv, sql_delete (λ x, (x.1 =? k)%nat) t).
Proof.
  intros Hnd Hin. unfold table_pop. destruct (sql_find _ t) as [[k' iv']|] eqn:Hf.
  - apply sql_find_Some in Hf as [Hin' Hk%Nat.eqb_eq]. simpl in Hk. subst k'.
    by rewrite (key_row t k iv iv').
  - apply sql_find_None in Hf. rewrite sql_exists_false in Hf. specialize (Hf _ Hin).
    simpl in Hf. by rewrite Nat.eqb_refl in Hf.
Qed.

Lemma sql_select_comm {A} (p q : A → bool) rows :
  sql_select p (sql_select q rows) = sql_select q (sql_select p rows).
Proof.
  unfold sql_select. rewrite !list_filter_filter. apply list_filter_iff. tauto.
Qed.

Lemma sql_delete_select' {A} (p : A → bool) rows :
  sql_delete p rows = sql_select (λ x, negb (p x)) rows.
Proof. unfold sql_delete, sql_select. apply list_filter_iff. intros x. by rewrite negb_true_iff. Qed.

(** Popping the head of the heap. *)
Lemma tables_ok_pop e k ends active iv :
  tables_ok ((e, k) :: ends) active (timed active) → (k, iv) ∈ active →
  let active' := sql_delete (λ x, (x.1 =? k)%nat) active in
  tables_ok ends active' (timed active').
Proof.
  intros [Hheap Hsorted Hnd _] Hin active'. split.
  - assert (active ≡ₚ (k, iv) :: active') as Hperm.
    { subst active'. clear -Hnd Hin. induction active as [|[k0 iv0] t IH]; [by apply elem_of_nil in Hin|].
      apply NoDup_cons in Hnd as [Hk0 Hnd]. unfold sql_delete in *.
      apply elem_of_cons in Hin as [[= <- <-]|Hin].
      - rewrite filter_cons_False by (simpl; by rewrite Nat.eqb_refl). constructor.
        rewrite <- (sql_select_all (λ x, negb (x.1 =? k)%nat) t) at 1.
        + unfold sql_select. apply reflexive_eq, list_filter_iff. intros x.
          by rewrite negb_true_iff.
        + intros [k1 iv1] H1. simpl. apply negb_true_iff, Nat.eqb_neq. intros ->.
          apply Hk0. by apply (list_elem_of_fmap_2 fst _ (k, iv1)).
      - assert (k0 ≠ k) as Hne.
        { intros ->. apply Hk0. by apply (list_elem_of_fmap_2 fst _ (k, iv)). }
        rewrite filter_cons_True by (simpl; by apply Nat.eqb_neq).
        rewrite Permutation_swap. constructor. by apply IH. }
    rewrite Hperm in Hheap. simpl in Hheap.
    assert ((iv_end iv, k) = (e, k)) as Heq.
    { assert ((e, k) ∈ (λ x, (iv_end x.2, x.1)) <$> active) as Hek.
      { rewrite Hperm. simpl. rewrite <- Hheap. by left. }
      apply list_elem_of_fmap in Hek as ([k1 iv1] & [= -> <-] & Hin1).
      by rewrite (key_row active k iv iv1). }
    rewrite Heq in Hheap. by apply Permutation_cons_inv in Hheap.
  - by inversion Hsorted.
  - eapply sublist_NoDup; [exact Hnd|]. apply fmap_sublist, sublist_filter.
  - done.
Qed.

Lemma sql_select_pop (p : nat * _Interval → bool) k t :
  (∀ iv, (k, iv) ∈ t → p (k, iv) = false) →
  sql_select p (sql_delete (λ x, (x.1 =? k)%nat) t) = sql_select p t.
Proof.
  rewrite sql_delete_select', sql_select_comm. intros H. apply sql_select_all.
  intros [k' iv] [Hp Hin]%elem_of_sql_select. apply negb_true_iff, Nat.eqb_neq. simpl.
  intros ->. by rewrite H in Hp.
Qed.

Lemma sql_select_snd (p : _Interval → bool) (t : table) :
  (sql_select (λ x, p x.2) t).*2 = sql_select p t.*2.
Proof.
  unfold sql_select. induction t as [|[k iv] t IH]; [done|]. rewrite fmap_cons.
  destruct (p iv) eqn:Hp.
  - rewrite !filter_cons_True by done. by rewrite fmap_cons, IH.
  - by rewrite !filter_cons_False by (simpl; congruence).
Qed.

Lemma elem_of_timed k iv t : (k, iv) ∈ t → iv_all_day iv = false → (k, iv) ∈ timed t.
Proof. intros Hin Ht. apply elem_of_sql_select. simpl. by rewrite Ht. Qed.

Lemma NoDup_timed (t : table) : NoDup t.*1 → NoDup (timed t).*1.
Proof. intros H. eapply sublist_NoDup; [exact H|]. apply fmap_sublist, sublist_filter. Qed.

Lemma pop_expired_run s ends active :
  tables_ok ends active (timed active) →
  ∃ ends', pop_expired s ends active (timed active) =
      Ok (ends', running s active, timed (running s active)) ∧
    tables_ok ends' (running s active) (timed (running s active)).
Proof.
  revert active. induction ends as [|[e k] ends IH]; intros active Hok; simpl.
  { assert (active = []) as ->; [|by exists []].
    destruct Hok as [Hheap _ _ _]. apply Permutation_nil_l in Hheap. by destruct active. }
  destruct (Z.leb_spec e s) as [Hle|Hgt]; simpl.
  - pose proof Hok as [Hheap Hsorted Hnd Htimed].
    assert ((e, k) ∈ (λ x, (iv_end x.2, x.1)) <$> active) as Hek by (rewrite <- Hheap; left).
    apply list_elem_of_fmap in Hek as ([k1 iv] & [= -> ->] & Hin).
    rewrite (table_pop_key k1 iv active Hnd Hin). cbn [mbind res_bind].
    set (active' := sql_delete (λ x, (x.1 =? k1)%nat) active).
    pose proof (tables_ok_pop _ _ _ _ _ Hok Hin) as Hpop. cbv zeta in Hpop. fold active' in Hpop.
    assert (running s active' = running s active) as Hrun.
    { apply sql_select_pop. intros iv' Hin'. rewrite (key_row active k1 iv' iv) by done.
      simpl. lia. }
    destruct (iv_all_day iv) eqn:Had.
    + assert (timed active = timed active') as ->.
      { symmetry. apply sql_select_pop. intros iv' Hin'. rewrite (key_row active k1 iv' iv) by done.
        simpl. by rewrite Had. }
      rewrite <- Hrun. by apply IH.
    + rewrite (table_pop_key k1 iv _ (NoDup_timed _ Hnd) (elem_of_timed _ _ _ Hin Had)).
      cbn [mbind res_bind].
      assert (sql_delete (λ x, (x.1 =? k1)%nat) (timed active) = timed active') as ->.
      { unfold active', timed. by rewrite !sql_delete_select', sql_select_comm. }
      rewrite <- Hrun. by apply IH.
  - assert (running s active = active) as ->; [|by eexists].
    destruct Hok as [Hheap Hsorted _ _]. apply sql_select_all. intros [k' iv] Hin. simpl.
    assert ((iv_end iv, k') ∈ (e, k) :: ends) as [[= <- <-]|Hin']%elem_of_cons.
    { rewrite Hheap. by apply (list_elem_of_fmap_2 (λ x, (iv_end x.2, x.1)) _ (k', iv)). }
    + lia.
    + apply StronglySorted_inv in Hsorted as [_ Hall]. rewrite Forall_forall in Hall.
      apply Hall, heap_leb_spec in Hin'. simpl in Hin'. lia.
Qed.

(** *** The loops *)

Lemma scan_detect current candidates found pairs :
  (∀ p, p ∈ candidates → now < iv_end p) → now < iv_end current →
  ('(found', overflow) ← scan_candidates now tz critical_window high_window current candidates found;
   if overflow : bool
   then mret (mk_conflict_run found' false [CalendarConflictOutputOverflow])
   else detect_pairs pairs found') =
  detect_pairs (((λ p, (p, current)) <$> candidates) ++ pairs) found.
Proof.
  intros Hall Hcur. revert found. induction candidates as [|p rest IH]; intros found; simpl; [done|].
  assert (now < iv_end p) by (apply Hall; left).
  rewrite (proj2 (Z.leb_gt _ _)) by lia.
  destruct (_ =? MAX_CALENDAR_CONFLICTS); [done|]. unfold pair_detection. simpl.
  destruct (lift_conflict _) as [d|e]; simpl; [|done].
  apply IH. intros q Hq. apply Hall. by right.
Qed.

Lemma tables_ok_push ends active seq current :
  tables_ok ends active (timed active) → (∀ k iv, (k, iv) ∈ active → (k < seq)%nat) →
  tables_ok (heappush (iv_end current, seq) ends) (active ++ [(seq, current)])
    (if iv_all_day current then timed active else timed active ++ [(seq, current)]).
Proof.
  intros [Hheap Hsorted Hnd _] Hfresh. split.
  - rewrite heappush_perm, Hheap, fmap_app. simpl. by rewrite Permutation_cons_append.
  - by apply heappush_sorted.
  - rewrite fmap_app. apply NoDup_app. split; [done|]. split; [|apply NoDup_singleton].
    intros k ([k' iv] & -> & Hin)%list_elem_of_fmap Hk%list_elem_of_singleton.
    simpl in Hk. apply Hfresh in Hin. lia.
  - unfold timed. rewrite sql_select_app. f_equal. unfold sql_select.
    destruct (iv_all_day current) eqn:Had; simpl.
    + rewrite filter_cons_False by (simpl; rewrite Had; done). by rewrite app_nil_r.
    + by rewrite filter_cons_True by (simpl; by rewrite Had).
Qed.

Lemma sweep_detect seq rest ends active prior found b :
  tables_ok ends active (timed active) →
  (∀ k iv, (k, iv) ∈ active → (k < seq)%nat) →
  (∀ s, b ≤ s → (running s active).*2 = sql_select (λ i, s <? iv_end i) prior) →
  StronglySorted (λ x y, iv_start x ≤ iv_start y) rest →
  Forall (λ i, b ≤ iv_start i ∧ now < iv_end i) rest → Forall (λ i, now < iv_end i) prior →
  sweep now tz critical_window high_window seq rest ends active (timed active) found =
    detect_pairs (all_pairs prior rest) found.
Proof.
  revert seq ends active prior found b. induction rest as [|c rest IH];
    intros seq ends active prior found b Hok Hseq Hrun Hsorted Hrest Hdone; simpl; [done|].
  apply Forall_cons in Hrest as [[Hb Hend] Hrest].
  apply StronglySorted_inv in Hsorted as [Hsorted Hstart].
  destruct (pop_expired_run (iv_start c) ends active Hok) as (ends' & -> & Hok').
  cbn [mbind res_bind]. set (active' := running (iv_start c) active) in *.
  assert ((if iv_all_day c then timed active' else active').*2 = sql_select (conflicts c) prior) as ->.
  { assert (active'.*2 = sql_select (λ i, iv_start c <? iv_end i) prior) as Ha by (by apply Hrun).
    unfold conflicts. destruct (iv_all_day c); simpl.
    - unfold timed. rewrite (sql_select_snd (λ i, negb (iv_all_day i))), Ha.
      unfold sql_select. rewrite list_filter_filter. apply list_filter_iff. intros i.
      rewrite andb_true_iff. tauto.
    - rewrite Ha. unfold sql_select. apply list_filter_iff. intros i. by rewrite andb_true_r. }
  rewrite <- scan_detect; [|..|done].
  2: { intros p [_ Hp]%elem_of_sql_select. rewrite Forall_forall in Hdone. by apply Hdone. }
  destruct (scan_candidates _ _ _ _ _ _ _) as [[found' [|]]|e]; cbn [mbind res_bind]; try done.
  pose proof (tables_ok_push ends' active' seq c Hok') as Hpush.
  assert (∀ k iv, (k, iv) ∈ active' → (k < seq)%nat) as Hseq'.
  { intros k iv [_ Hin]%elem_of_sql_select. by eapply Hseq. }
  specialize (Hpush Hseq'). rewrite (to_timed _ _ _ Hpush) in Hpush |- *.
  apply (IH _ _ _ _ _ (iv_start c)); [done|..|done| |].
  - intros k iv [Hin%Hseq'|[= -> ->]%list_elem_of_singleton]%elem_of_app; lia.
  - intros s Hs. unfold running. rewrite !sql_select_app, fmap_app. f_equal.
    + rewrite <- (Hrun s) by lia. f_equal. unfold active', running.
      unfold sql_select. rewrite list_filter_filter. apply list_filter_iff. intros x. lia.
    + apply (sql_select_snd (λ i, s <? iv_end i) [(seq, c)]).
  - rewrite Forall_forall in *. intros i Hi. split; [by apply Hstart|by apply Hrest].
  - apply Forall_app. split; [done|]. by apply Forall_singleton.
Qed.
End Reference.

(** ** Properties *)

Section Properties.
Context (now : instant) (tz : tzinfo) (critical_window high_window : timedelta).

Lemma interval_order_start x y : key_order interval_key x y → iv_start x ≤ iv_start y.
Proof.
  unfold key_order, keys_leb, interval_key. simpl.
  destruct (Z.compare_spec (iv_start x) (iv_start y)); lia || done.
Qed.

Lemma open_intervals_ok events intervals :
  open_intervals now tz events = Ok intervals →
  StronglySorted (λ x y, iv_start x ≤ iv_start y) intervals ∧
  Forall (λ i, now < iv_end i) intervals.
Proof.
  unfold open_intervals. destruct (_committed_intervals events tz) as [l|e]; simpl; [|done].
  intros [= <-]. split.
  - eapply StronglySorted_mono; [|apply order_by_sorted]. apply interval_order_start.
  - apply Forall_forall. intros i. rewrite elem_of_order_by, elem_of_sql_select. lia.
Qed.

Lemma sweep_run events :
  run_calendar_conflict_detection now tz critical_window high_window events =
  (intervals ← lift_conflict (open_intervals now tz events);
   detect_pairs now tz critical_window high_window (all_pairs [] intervals) []).
Proof.
  unfold run_calendar_conflict_detection.
  destruct (open_intervals now tz events) as [intervals|e] eqn:Hi; [|done].
  cbn [lift_conflict mbind res_bind].
  apply open_intervals_ok in Hi as [Hsorted Hend].
  destruct intervals as [|i0 rest0] eqn:Hl; [done|]. rewrite <- Hl in *.
  change (@nil (nat * _Interval)) with (timed []) at 2.
  apply (sweep_detect now tz critical_window high_window 0 intervals [] [] [] [] (iv_start i0)).
  - split; [done|constructor|constructor|done].
  - by intros k iv ?%elem_of_nil.
  - done.
  - done.
  - rewrite Hl in *. apply StronglySorted_inv in Hsorted as [_ Hs].
    apply Forall_cons in Hend as [He Hend]. constructor; [lia|].
    rewrite Forall_forall in *. intros i Hin. split; [by apply Hs|by apply Hend].
  - constructor.
Qed.

(** C16. The sweep reports, in the same order and with the same failures, what comparing
    every pair of intervals reports: the heap and the dictionaries are an
    optimisation only, and no dictionary lookup of it can fail. *)
Theorem sweep_is_all_pairs events :
  run_calendar_conflict_detection now tz critical_window high_window events =
  (intervals ← lift_conflict (open_intervals now tz events);
   detect_pairs now tz critical_window high_window (all_pairs [] intervals) []).
Proof. apply sweep_run. Qed.

(** What the reference returns. *)
Lemma detect_pairs_ok pairs found r :
  Z.of_nat (length found) ≤ MAX_CALENDAR_CONFLICTS →
  detect_pairs now tz critical_window high_window pairs found = Ok r →
  (d_dedupe_key <$> cr_detections r) = take 1000 ((d_dedupe_key <$> found) ++
    ((λ pc, conflict_key pc.1 pc.2) <$> pairs)) ∧
  cr_resolution_safe r = bool_decide (Z.of_nat (length found + length pairs) ≤ MAX_CALENDAR_CONFLICTS) ∧
  (cr_warning_codes r = [] ↔ cr_resolution_safe r = true).
Proof.
  revert found. induction pairs as [|[p c] pairs IH]; intros found Hlen; simpl.
  - intros [= <-]. simpl. rewrite app_nil_r, Nat.add_0_r, bool_decide_eq_true_2 by done.
    split; [|done]. rewrite take_ge; [done|]. rewrite length_fmap.
    unfold MAX_CALENDAR_CONFLICTS in Hlen. lia.
  - destruct (Z.eqb_spec (Z.of_nat (length found)) MAX_CALENDAR_CONFLICTS) as [Heq|Hne].
    + intros [= <-]. simpl. rewrite bool_decide_eq_false_2 by lia. split; [|done].
      rewrite take_app_le, take_ge; [done|..]; rewrite length_fmap;
        unfold MAX_CALENDAR_CONFLICTS in Heq; lia.
    + destruct (pair_detection _ _ _ _ _) as [d|e] eqn:Hd; simpl; [|done]. intros Hrun.
      apply IH in Hrun; [|rewrite length_app; simpl; lia].
      rewrite length_app, fmap_app, <- app_assoc in Hrun. simpl in Hrun.
      replace (length found + S (length pairs))%nat with (length found + 1 + length pairs)%nat by lia.
      replace (conflict_key p c) with (d_dedupe_key d); [done|]. revert Hd.
      unfold pair_detection, _detection. simpl.
      destruct (_priority _ _ _ _), (astimezone (iv_start c) tz), (astimezone _ tz); simpl;
        by try intros [= <-].
Qed.

Lemma elem_of_all_pairs p c prior l j :
  l !! j = Some c → p ∈ prior ++ take j l → conflicts c p = true → (p, c) ∈ all_pairs prior l.
Proof.
  revert prior j. induction l as [|x l IH]; intros prior j Hj Hp Hc; [done|]. simpl.
  apply elem_of_app. destruct j as [|j]; simpl in *.
  - injection Hj as ->. left. rewrite app_nil_r in Hp.
    apply (list_elem_of_fmap_2 (λ p, (p, c))). by apply elem_of_sql_select.
  - right. apply (IH _ j); [done| |done]. by rewrite <- app_assoc.
Qed.

(** Two committed intervals overlap, and are not both all-day. *)
Definition overlapping (a b : _Interval) : Prop :=
  Z.max (iv_start a) (iv_start b) < Z.min (iv_end a) (iv_end b) ∧
  (iv_all_day a = false ∨ iv_all_day b = false).

Lemma conflict_key_sym a b : conflict_key a b = conflict_key b a.
Proof.
  unfold conflict_key, sorted_pair.
  destruct (text_leb (ev_id (iv_event a)) (ev_id (iv_event b))) eqn:Hab,
    (text_leb (ev_id (iv_event b)) (ev_id (iv_event a))) eqn:Hba; try done.
  - by rewrite (text_leb_antisym _ _ Hab Hba).
  - text_order.
Qed.

Lemma all_pairs_inv p c prior l :
  (p, c) ∈ all_pairs prior l →
  ∃ j, l !! j = Some c ∧ p ∈ prior ++ take j l ∧ conflicts c p = true.
Proof.
  revert prior. induction l as [|x l IH]; intros prior; simpl; [by intros ?%elem_of_nil|].
  intros [Hin|Hin]%elem_of_app.
  - apply list_elem_of_fmap_1 in Hin as (y & [= <- <-] & [Hc Hy]%elem_of_sql_select).
    exists 0%nat. by rewrite app_nil_r.
  - apply IH in Hin as (j & Hj & Hp & Hc). exists (S j). simpl. by rewrite <- app_assoc in Hp.
Qed.

Lemma overlapping_conflicts a b : overlapping a b → conflicts b a = true.
Proof.
  intros [Hov Had]. unfold conflicts. apply andb_true_iff. split; [lia|].
  apply negb_true_iff, andb_false_iff. tauto.
Qed.

Lemma conflicts_true a b :
  conflicts b a = true ↔ iv_start b < iv_end a ∧ (iv_all_day a = false ∨ iv_all_day b = false).
Proof. unfold conflicts. rewrite andb_true_iff, negb_true_iff, andb_false_iff, Z.ltb_lt. tauto. Qed.

(** The pairs compared are the pairs of positions of which the later interval starts
    before the earlier one ends, one of them timed. *)
Lemma elem_of_all_pairs_iff a b l :
  (a, b) ∈ all_pairs [] l ↔
  ∃ i j, (i < j)%nat ∧ l !! i = Some a ∧ l !! j = Some b ∧ conflicts b a = true.
Proof.
  split.
  - intros (j & Hj & Hp & Hc)%all_pairs_inv. simpl in Hp.
    apply list_elem_of_lookup in Hp as [i Hi]. apply lookup_take_Some in Hi as [Hi Hlt]. eauto 6.
  - intros (i & j & Hij & Ha & Hb & Hc).
    apply (elem_of_all_pairs a b [] l j Hb); [|done].
    simpl. apply list_elem_of_lookup. exists i. by rewrite lookup_take_lt.
Qed.

(** C15. A run reports the conflicting pairs of open intervals in order, the first thousand
    of them, a pair being one of which the later interval starts before the earlier one
    ends and not both are all-day: it gives a warning, and calls its resolution unsafe, exactly when there are
    more than a thousand, that is when it dropped one, and otherwise every pair of
    overlapping intervals that is still open has its detection, whichever of the two comes
    first: absence from a safe run means no conflict. *)
Theorem safe_run_misses_no_conflict events intervals r :
  open_intervals now tz events = Ok intervals →
  run_calendar_conflict_detection now tz critical_window high_window events = Ok r →
  let pairs := all_pairs [] intervals in
  let dropped := (Z.of_nat (length pairs) > MAX_CALENDAR_CONFLICTS)%Z in
  d_dedupe_key <$> cr_detections r =
    take (Z.to_nat MAX_CALENDAR_CONFLICTS) ((λ pc, conflict_key pc.1 pc.2) <$> pairs) ∧
  (∀ a b, (a, b) ∈ pairs ↔
    ∃ i j, (i < j)%nat ∧ intervals !! i = Some a ∧ intervals !! j = Some b ∧
      iv_start b < iv_end a ∧ (iv_all_day a = false ∨ iv_all_day b = false)) ∧
  Z.of_nat (length (cr_detections r)) ≤ MAX_CALENDAR_CONFLICTS ∧
  (cr_warning_codes r ≠ [] ↔ dropped) ∧
  (cr_resolution_safe r = false ↔ dropped) ∧
  (cr_resolution_safe r = true → ∀ i j a b, i ≠ j →
    intervals !! i = Some a → intervals !! j = Some b → overlapping a b →
    conflict_key a b ∈ d_dedupe_key <$> cr_detections r).
Proof.
  intros Hi Hrun pairs dropped. destruct (open_intervals_ok _ _ Hi) as [Hsorted Hend].
  assert (detect_pairs now tz critical_window high_window pairs [] = Ok r) as Hd.
  { rewrite <- Hrun, sweep_run, Hi. done. }
  apply detect_pairs_ok in Hd as (Hkeys & Hsafe & Hwarn); [|done]. simpl in Hkeys, Hsafe.
  assert (cr_resolution_safe r = false ↔ dropped) as Hdrop.
  { rewrite Hsafe, bool_decide_eq_false. unfold dropped. lia. }
  split; [done|]. split; [intros a b; unfold pairs; rewrite elem_of_all_pairs_iff; by setoid_rewrite conflicts_true|]. split_and!; [| |done|].
  - rewrite <- (length_fmap d_dedupe_key), Hkeys, length_take. unfold MAX_CALENDAR_CONFLICTS. lia.
  - rewrite Hwarn, <- Hdrop. by destruct (cr_resolution_safe r).
  - intros Hs i j a b Hij Ha Hb Hov. rewrite Hs in Hsafe. symmetry in Hsafe.
    apply bool_decide_eq_true in Hsafe.
    rewrite Hkeys, take_ge by (rewrite length_fmap; unfold MAX_CALENDAR_CONFLICTS in *; lia).
    destruct (Nat.lt_gt_cases i j) as [[Hl|Hl] _]; [done|..].
    + apply (list_elem_of_fmap_2 (λ pc, conflict_key pc.1 pc.2) _ (a, b)), elem_of_all_pairs_iff.
      apply overlapping_conflicts in Hov. eauto 6.
    + rewrite conflict_key_sym.
      apply (list_elem_of_fmap_2 (λ pc, conflict_key pc.1 pc.2) _ (b, a)), elem_of_all_pairs_iff.
      exists j, i. split_and!; try done. apply overlapping_conflicts.
      unfold overlapping in *. rewrite Z.max_comm, Z.min_comm. tauto.
Qed.
End Properties.

(** ** Two events of one morning *)

Definition morning : instant := 63839577600000000.
Definition sample_event (i : text) (start stop : Z) : CalendarEvent :=
  mk_event i EvConfirmed None (Some (TimedInstant (morning + start * US_PER_HOUR)))
    (Some (TimedInstant (morning + stop * US_PER_HOUR))) true None Opaque.
Definition sample_events : list CalendarEvent := [sample_event "b" 3 5; sample_event "a" 2 4].

Definition sample_run : CalendarConflictRun :=
  match run_calendar_conflict_detection morning UTC DEFAULT_CRITICAL_WINDOW DEFAULT_HIGH_WINDOW
          sample_events with
  | Ok r => r | Err _ => mk_conflict_run [] false [] end.
Definition sample_interval (i : text) (start stop : Z) : _Interval :=
  mk_interval (sample_event i start stop) (morning + start * US_PER_HOUR)
    (morning + stop * US_PER_HOUR) false.

Lemma safe_run_misses_no_conflict_witness :
  cr_resolution_safe sample_run = true ∧
  "calendar_conflict:a:b"%string ∈ d_dedupe_key <$> cr_detections sample_run.
Proof.
  split; [vm_compute; reflexivity|].
  refine (proj2 (proj2 (proj2 (proj2 (proj2 (safe_run_misses_no_conflict morning UTC
    DEFAULT_CRITICAL_WINDOW DEFAULT_HIGH_WINDOW sample_events
    [sample_interval "a" 2 4; sample_interval "b" 3 5] sample_run _ _))))) _ 0%nat 1%nat (sample_interval "a" 2 4) (sample_interval "b" 3 5) _ _ _ _).
  1, 2, 3: vm_compute; reflexivity.
  - discriminate.
  - reflexivity.
  - reflexivity.
  - split; [vm_compute; reflexivity|by left].
Defined.
