(* ===== verification/PersonalOccasion.v ===== *)
(** The occasion detector ([situations/personal_occasion.py]): dated memories grouped by
    their identity, one detection per group whose next occurrence is inside its lead
    window.  The dictionary loop is the declarative grouping, the detections of a run have
    distinct keys, and every memory inside its window is covered. *)
From stdpp Require Import pretty.
From Stdlib Require Import Ascii.
From S2P Require Import Prelude PyDate PyTime Models Memory.
#[local] Open Scope Z_scope.

Definition DEFAULT_LEAD_DAYS : Z := 7.

Record _Occurrence := mk_occurrence { oc_item : MemoryItem; oc_occurrence : date }.

(** The keys of the dictionary of groups: two forms of tuples of three and a free memory's
    identity. *)
Inductive group_key :=
  | EntityGroup (entity_id : Z) (attribute : MemoryAttribute)
  | ItemGroup (item_id : Z)
  | FreeGroup (key : FreeDatedMemoryKey).
#[export] Instance group_key_eq_dec : EqDecision group_key.
Proof. solve_decision. Defined.

(** A dictionary of lists in insertion order. *)
Definition groups := list (group_key * list _Occurrence).
Fixpoint append_to (k : group_key) (x : _Occurrence) (g : groups) : groups :=
  match g with
  | [] => [(k, [x])]
  | (k', xs) :: rest => if decide (k = k') then (k', xs ++ [x]) :: rest else (k', xs) :: append_to k x rest
  end.

Section Occasions.
Context {U : Unicode}.

Definition _group_key (item : MemoryItem) : group_key :=
  if bool_decide (mi_attribute item = Free) then FreeGroup (free_dated_memory_key item (mi_entity_id item))
  else match mi_entity_id item with
       | Some e => EntityGroup e (mi_attribute item)
       | None => ItemGroup (mi_id item)
       end.

Definition _next_occurrence (item : MemoryItem) (today : date) : res time_error (option date) :=
  match mi_date_anchor item with
  | None => mret None
  | Some anchor =>
    match parse_anchor anchor with
    | None => mret None
    | Some (year, month, day) =>
      let yearly := o ← yearly_occurrence_on_or_after today month day; mret (Some o) in
      match year with
      | None => yearly
      | Some y =>
        if bool_decide (mi_recurrence item = Yearly) then yearly else
        occurrence ← make_date y month day;
        mret (if date_leb today occurrence then Some occurrence else None)
      end
    end
  end.

Definition _dedupe_key (item : MemoryItem) (occurrence_year : Z) : text :=
  match mi_entity_id item with
  | Some e =>
    if bool_decide (mi_attribute item = Free)
    then "personal_occasion:item:" +:+ pretty (mi_id item) +:+ ":" +:+ pretty occurrence_year
    else "personal_occasion:entity:" +:+ pretty e +:+ ":" +:+ attribute_text (mi_attribute item)
           +:+ ":" +:+ pretty occurrence_year
  | None => "personal_occasion:item:" +:+ pretty (mi_id item) +:+ ":" +:+ pretty occurrence_year
  end%string.

Definition _memory_quotes (item : MemoryItem) : dict :=
  [("content"%string, mi_content item)] ++
  match mi_entity item with Some e => [("entity"%string, e)] | None => [] end ++
  match mi_entity_path item with Some p => [("entity_path"%string, p)] | None => [] end.

Definition effective_lead (default_lead_days : Z) (item : MemoryItem) : Z :=
  default default_lead_days (mi_lead_days item).
Definition within_lead (today : date) (default_lead_days : Z) (row : _Occurrence) : bool :=
  days_between (oc_occurrence row) today <=? effective_lead default_lead_days (oc_item row).

(** The key [(occurrence, id)] of [min]; the first of equal rows wins. *)
Definition earlier (a b : _Occurrence) : bool :=
  date_ltb (oc_occurrence a) (oc_occurrence b) ||
  (bool_decide (oc_occurrence a = oc_occurrence b) && (mi_id (oc_item a) <? mi_id (oc_item b))).
Definition earliest (first : _Occurrence) (rows : list _Occurrence) : _Occurrence :=
  foldl (λ best row, if earlier row best then row else best) first rows.

(** [sorted({...})]: the distinct anchors in text order. *)
Definition sorted_anchors (rows : list _Occurrence) : list text :=
  order_by (λ a, [KText a]) (remove_dups (omap (λ row, mi_date_anchor (oc_item row)) rows)).

Definition occasion_label (item : MemoryItem) : text :=
  if bool_decide (mi_attribute item = Free) then "saved date" else attribute_text (mi_attribute item).

Definition _group_detection (rows : list _Occurrence) (today : date) (tz : tzinfo)
    (default_lead_days : Z) : res time_error (option Detection) :=
  match sql_select (within_lead today default_lead_days) rows with
  | [] => mret None
  | first :: rest =>
    let trigger := earliest first rest in
    let item := oc_item trigger in
    let days_until := days_between (oc_occurrence trigger) today in
    let anchors := sorted_anchors rows in
    let contradictory := (1 <? length anchors)%nat in
    let occurrence_iso := date_isoformat (oc_occurrence trigger) in
    let label := occasion_label item in
    let memory_ids := join "," ((λ row, pretty (mi_id (oc_item row))) <$>
                        order_by (λ row, [KInt (mi_id (oc_item row))]) rows) in
    expires_at ← local_day_end (oc_occurrence trigger) tz;
    mret (Some (mk_detection PersonalOccasion (_dedupe_key item (year (oc_occurrence trigger))) High
      ("Upcoming " +:+ label)%string
      ("D-" +:+ pretty days_until +:+ ": upcoming " +:+ label +:+ " on " +:+ occurrence_iso +:+
        if contradictory then " - contradictory dates on record: " +:+ join ", " anchors else "")%string
      (mk_evidence
        [("selected_memory_id", pretty (mi_id item)); ("memory_ids", memory_ids);
         ("occurrence", occurrence_iso); ("days_until", pretty days_until);
         ("lead_days", pretty (effective_lead default_lead_days item));
         ("memory_source", memory_source_text (mi_source item))]%string
        [] (_memory_quotes item) (if contradictory then anchors else []))
      (Some expires_at)))
  end.

(** A row whose date arithmetic fails is skipped with a logged warning, as is a group. *)
Definition skip_failed {A} (r : res time_error (option A)) : option A :=
  match r with Ok o => o | Err _ => None end.

Definition add_item (today : date) (g : groups) (item : MemoryItem) : groups :=
  match skip_failed (_next_occurrence item today) with
  | None => g
  | Some occurrence => append_to (_group_key item) (mk_occurrence item occurrence) g
  end.

Definition detect_personal_occasions (items : list MemoryItem) (now : instant) (tz : tzinfo)
    (default_lead_days : Z) : res time_error (list Detection) :=
  today ← local_date now tz;
  let g := foldl (add_item today) [] items in
  mret (omap (λ kr, skip_failed (_group_detection kr.2 today tz default_lead_days)) g).
End Occasions.

(** ** The next yearly occurrence *)

(** The date a month and day fall on in a year, February 29 on the 28th of a common year. *)
Definition occurs (m d : Z) (r : date) : Prop := ∃ y, _occurrence_in_year y m d = Ok r.

Lemma occurrence_in_year_run y m d :
  _is_valid_date 2024 m d = true → MINYEAR ≤ y ≤ MAXYEAR →
  ∃ r, _occurrence_in_year y m d = Ok r ∧ year r = y ∧ valid_date r = true.
Proof.
  intros Hmd Hy. unfold _is_valid_date, _occurrence_in_year, make_date in *.
  destruct (valid_date (mk_date 2024 m d)) eqn:Hv; [|done]. apply valid_date_spec in Hv as (_ & Hm & Hd).
  cbn [year month day] in Hm, Hd.
  destruct ((m =? 2) && (d =? 29) && negb (_is_leap_year y)) eqn:Hleap.
  - assert (valid_date (mk_date y 2 28) = true) as Hv'.
    { apply valid_date_spec. cbn [year month day].
      change (days_in_month y 2) with (if _is_leap_year y then 29 else 28).
      unfold MINYEAR, MAXYEAR in Hy. destruct (_is_leap_year y); lia. }
    rewrite Hv'. eauto.
  - assert (valid_date (mk_date y m d) = true) as Hv'.
    { apply valid_date_spec. cbn [year month day]. split; [done|]. split; [done|]. unfold days_in_month in *.
      change (_is_leap_year 2024) with true in Hd.
      destruct (m =? 2) eqn:Hm2; [|done]. destruct (_is_leap_year y); [done|]. simpl in Hleap.
      rewrite andb_true_r, Z.eqb_neq in Hleap. lia. }
    rewrite Hv'. eauto.
Qed.

Lemma occurrence_in_year_valid y m d r :
  _occurrence_in_year y m d = Ok r → year r = y ∧ MINYEAR ≤ y ≤ MAXYEAR.
Proof.
  unfold _occurrence_in_year, make_date. intros Hr.
  destruct (_ && _); destruct (valid_date _) eqn:Hv; try done; injection Hr as <-;
    apply valid_date_spec in Hv as [Hy _]; done.
Qed.

Lemma date_ltb_year a b : year a < year b → date_ltb a b = true.
Proof. intros Hy. unfold date_ltb. by rewrite (proj2 (Z.ltb_lt _ _) Hy). Qed.

(** [yearly_occurrence_on_or_after] returns the first day from today on that the month and
    day fall on; it fails only in the last year of the calendar, when no such day is left. *)
Theorem yearly_occurrence_is_next today m d :
  valid_date today = true → _is_valid_date 2024 m d = true →
  match yearly_occurrence_on_or_after today m d with
  | Ok r => date_leb today r = true ∧ occurs m d r ∧
      ∀ r', occurs m d r' → date_leb today r' = true → date_leb r r' = true
  | Err _ => year today = MAXYEAR ∧ ∀ r', occurs m d r' → date_leb today r' = false
  end.
Proof.
  intros Htoday Hmd. apply valid_date_spec in Htoday as Hyear. destruct Hyear as [Hyear _].
  unfold yearly_occurrence_on_or_after, date_leb, occurs.
  destruct (occurrence_in_year_run (year today) m d Hmd) as (r & Hr & Hry & Hv); [done|].
  rewrite Hr. res_step. destruct (date_ltb r today) eqn:Hlt; cbn [negb].
  - assert (∀ r' y, _occurrence_in_year y m d = Ok r' → negb (date_ltb r' today) = true → year today < y) as Hafter.
    { intros r' y Hr' Hle. destruct (occurrence_in_year_valid _ _ _ _ Hr') as [Hy' _].
      destruct (Z.lt_trichotomy y (year today)) as [Hlt'|[->|?]]; [| |done].
      - rewrite date_ltb_year in Hle by lia. done.
      - rewrite Hr in Hr'. injection Hr' as <-. by rewrite Hlt in Hle. }
    destruct (decide (year today = MAXYEAR)) as [Hmax|Hmax].
    + destruct (_occurrence_in_year (year today + 1) m d) as [r'|e] eqn:Hr'.
      { destruct (occurrence_in_year_valid _ _ _ _ Hr') as [_ Hb]. unfold MAXYEAR in *. lia. }
      split; [done|]. intros r' [y Hy]. apply not_true_is_false. intros Hle.
      pose proof (Hafter r' y Hy Hle). destruct (occurrence_in_year_valid _ _ _ _ Hy). lia.
    + destruct (occurrence_in_year_run (year today + 1) m d Hmd) as (r1 & Hr1 & Hry1 & _);
        [unfold MINYEAR, MAXYEAR in *; lia|].
      rewrite Hr1. split_and!; [|eauto|].
      * apply negb_true_iff. pose proof (date_ltb_year today r1 ltac:(lia)).
        unfold date_ltb in *. lia.
      * intros r' [y Hy] Hle. pose proof (Hafter r' y Hy Hle). destruct (occurrence_in_year_valid _ _ _ _ Hy) as [Hy' _].
        destruct (decide (y = year today + 1)) as [->|]; [rewrite Hr1 in Hy; injection Hy as <-|].
        { apply negb_true_iff. unfold date_ltb. lia. }
        apply negb_true_iff. pose proof (date_ltb_year r1 r' ltac:(lia)). unfold date_ltb in *. lia.
  - split_and!; [by rewrite Hlt|eauto|]. intros r' [y Hy] Hle.
    destruct (occurrence_in_year_valid _ _ _ _ Hy) as [Hy' _].
    destruct (Z.lt_trichotomy y (year today)) as [Hlt'|[->|Hgt]].
    + rewrite date_ltb_year in Hle by lia. done.
    + rewrite Hr in Hy. injection Hy as <-. apply negb_true_iff. unfold date_ltb. lia.
    + apply negb_true_iff. pose proof (date_ltb_year r r' ltac:(lia)). unfold date_ltb in *. lia.
Qed.

Lemma yearly_occurrence_from_today today m d r :
  yearly_occurrence_on_or_after today m d = Ok r → date_leb today r = true ∧ valid_date r = true.
Proof.
  unfold yearly_occurrence_on_or_after. intros Hr.
  assert (∀ y r', _occurrence_in_year y m d = Ok r' → valid_date r' = true) as Hvalid.
  { unfold _occurrence_in_year, make_date. intros y r' H.
    destruct (_ && _); destruct (valid_date _) eqn:Hv; try done; by injection H as <-. }
  apply res_bind_ok in Hr as (r1 & Hr1 & Hr). destruct (date_leb today r1) eqn:Hle.
  - injection Hr as <-. eauto.
  - split; [|by eapply Hvalid]. apply occurrence_in_year_valid in Hr as [Hy _].
    pose proof (date_ltb_year today r ltac:(lia)). unfold date_leb. apply negb_true_iff. unfold date_ltb in *. lia.
Qed.

(** ** Grouping *)

Section Grouping.
Context {U : Unicode}.

Definition row_key (row : _Occurrence) : group_key := _group_key (oc_item row).

(** The rows with an upcoming occurrence, in the order of the items. *)
Definition upcoming (today : date) (items : list MemoryItem) : list _Occurrence :=
  omap (λ item, mk_occurrence item <$> skip_failed (_next_occurrence item today)) items.

(** The distinct keys in the order of their first row, and the rows of a key. *)
Definition add_key (ks : list group_key) (row : _Occurrence) : list group_key :=
  if decide (row_key row ∈ ks) then ks else ks ++ [row_key row].
Definition distinct_keys (rows : list _Occurrence) : list group_key := foldl add_key [] rows.
Definition rows_of (k : group_key) (rows : list _Occurrence) : list _Occurrence :=
  filter (λ row, row_key row = k) rows.

Lemma elem_of_distinct_keys k rows : k ∈ distinct_keys rows ↔ ∃ row, row ∈ rows ∧ row_key row = k.
Proof.
  unfold distinct_keys. induction rows as [|row rows IH] using rev_ind; [set_solver|].
  rewrite foldl_app. simpl. unfold add_key at 1. case_decide as Hin; set_solver.
Qed.

Lemma distinct_keys_NoDup rows : NoDup (distinct_keys rows).
Proof.
  unfold distinct_keys. induction rows as [|row rows IH] using rev_ind; [apply NoDup_nil_2|].
  rewrite foldl_app. simpl. unfold add_key at 1. case_decide; [done|].
  apply NoDup_app. split; [done|]. split; [set_solver|apply NoDup_singleton].
Qed.

Lemma rows_of_other k rows row : row_key row ≠ k → rows_of k (rows ++ [row]) = rows_of k rows.
Proof. intros Hk. unfold rows_of. by rewrite filter_app, filter_cons_False, filter_nil, app_nil_r. Qed.

Lemma rows_of_key rows row : rows_of (row_key row) (rows ++ [row]) = rows_of (row_key row) rows ++ [row].
Proof. unfold rows_of. by rewrite filter_app, filter_cons_True, filter_nil. Qed.

Lemma rows_of_absent k rows : (∀ row, row ∈ rows → row_key row ≠ k) → rows_of k rows = [].
Proof.
  unfold rows_of. induction rows as [|row rows IH]; [done|]. intros Hk.
  rewrite filter_cons_False by (apply Hk; left). apply IH. intros row' Hin. apply Hk. by right.
Qed.

Lemma append_to_groups row ks rows :
  NoDup ks → (∀ k, k ∈ ks ↔ ∃ row, row ∈ rows ∧ row_key row = k) →
  append_to (row_key row) row ((λ k, (k, rows_of k rows)) <$> ks) =
    (λ k, (k, rows_of k (rows ++ [row]))) <$> add_key ks row.
Proof.
  intros Hnd Hks. unfold add_key. case_decide as Hin.
  - clear Hks. induction ks as [|k ks IH]; [by apply elem_of_nil in Hin|]. apply NoDup_cons in Hnd as [Hni Hnd].
    rewrite !fmap_cons. cbn [append_to]. case_decide as Hk.
    + subst k. rewrite rows_of_key. f_equal.
      apply list_fmap_ext. intros i k Hki. f_equal. rewrite rows_of_other; [done|].
      intros Heq. apply Hni. rewrite Heq. by eapply list_elem_of_lookup_2.
    + apply elem_of_cons in Hin as [|Hin]; [done|]. by rewrite IH, rows_of_other by done.
  - rewrite fmap_app. rewrite fmap_cons, fmap_nil, rows_of_key, (rows_of_absent _ rows).
    2: { intros row' Hin' Heq. apply Hin, Hks. eauto. }
    clear Hks Hnd. induction ks as [|k ks IH]; [done|]. apply not_elem_of_cons in Hin as [Hk Hin].
    rewrite !fmap_cons. cbn [append_to app]. case_decide; [done|]. by rewrite IH, rows_of_other by done.
Qed.

(** The dictionary loop groups the upcoming rows. *)
Lemma groups_spec today items :
  foldl (add_item today) [] items =
    (λ k, (k, rows_of k (upcoming today items))) <$> distinct_keys (upcoming today items).
Proof.
  induction items as [|item items IH] using rev_ind; [done|].
  rewrite foldl_app. cbn [foldl]. rewrite IH. unfold upcoming. rewrite omap_app. fold (upcoming today items).
  unfold add_item. cbn [omap list_omap]. destruct (skip_failed (_next_occurrence item today)) as [o|];
    cbn [fmap option_fmap option_map]; [|by rewrite app_nil_r].
  rewrite (append_to_groups (mk_occurrence item o)).
  - unfold distinct_keys at 2. by rewrite foldl_app.
  - apply distinct_keys_NoDup.
  - intros k. apply elem_of_distinct_keys.
Qed.

(** What a run returns: for each distinct key, in the order of its first row, the group's
    detection if it has one. *)
Lemma detect_groups items now tz lead dets :
  detect_personal_occasions items now tz lead = Ok dets →
  ∃ today, local_date now tz = Ok today ∧
    let rows := upcoming today items in
    dets = omap (λ k, skip_failed (_group_detection (rows_of k rows) today tz lead)) (distinct_keys rows).
Proof.
  unfold detect_personal_occasions. intros H. res_inv H. exists x. split; [done|].
  injection H as <-. rewrite groups_spec. induction (distinct_keys _) as [|k ks IH]; [done|].
  cbn [fmap list_fmap omap list_omap snd]. cbn [omap fmap] in IH. destruct (skip_failed _); [f_equal|]; exact IH.
Qed.

(** ** One notification per occasion *)

Lemma attribute_text_inj a b : attribute_text a = attribute_text b → a = b.
Proof. by destruct a, b. Qed.
Lemma attribute_text_no_colon a : has_char ":"%char (attribute_text a) = false.
Proof. by destruct a. Qed.

(** Two memories with one dedupe key belong to one group. *)
Lemma dedupe_key_inj i1 i2 y1 y2 :
  (mi_id i1 = mi_id i2 → i1 = i2) → _dedupe_key i1 y1 = _dedupe_key i2 y2 → _group_key i1 = _group_key i2.
Proof.
  intros Hid. unfold _dedupe_key, _group_key.
  assert (∀ (z1 z2 : Z) t1 t2, ("personal_occasion:item:" +:+ pretty z1 +:+ ":" +:+ t1 =
    "personal_occasion:item:" +:+ pretty z2 +:+ ":" +:+ t2)%string → z1 = z2) as Hitem.
  { intros z1 z2 t1 t2 H%text_app_inj. apply text_sep_inj in H as [H _]; [|apply pretty_no_colon..].
    by apply (inj pretty). }
  assert (∀ (z1 z2 : Z) a1 a2 t1 t2, ("personal_occasion:entity:" +:+ pretty z1 +:+ ":" +:+ attribute_text a1 +:+ ":" +:+ t1 =
    "personal_occasion:entity:" +:+ pretty z2 +:+ ":" +:+ attribute_text a2 +:+ ":" +:+ t2)%string →
    z1 = z2 ∧ a1 = a2) as Hentity.
  { intros z1 z2 a1 a2 t1 t2 H%text_app_inj. apply text_sep_inj in H as [H1 H2]; [|apply pretty_no_colon..].
    apply text_sep_inj in H2 as [H2 _]; [|apply attribute_text_no_colon..].
    split; [by apply (inj pretty)|by apply attribute_text_inj]. }
  destruct (mi_entity_id i1) as [e1|] eqn:He1, (mi_entity_id i2) as [e2|] eqn:He2;
    repeat case_bool_decide; intros Heq; try done.
  all: try (apply Hitem in Heq; by rewrite (Hid Heq) in *).
  all: try (apply Hentity in Heq as [-> ->]; done).
  all: apply Hitem in Heq; apply Hid in Heq as ->; congruence.
Qed.

(** *** The trigger *)

Lemma earlier_spec a b :
  earlier a b = true ↔ date_ltb (oc_occurrence a) (oc_occurrence b) = true ∨
    oc_occurrence a = oc_occurrence b ∧ mi_id (oc_item a) < mi_id (oc_item b).
Proof. unfold earlier. by rewrite orb_true_iff, andb_true_iff, bool_decide_eq_true, Z.ltb_lt. Qed.

Lemma earlier_trans a b c : earlier a b = true → earlier b c = true → earlier a c = true.
Proof.
  rewrite !earlier_spec. intros [H1|[-> H1]] [H2|[Heq H2]].
  - left. unfold date_ltb in *. lia.
  - left. by rewrite <- Heq.
  - by left.
  - right. split; [done|lia].
Qed.

Lemma earlier_irrefl a : earlier a a = false.
Proof. apply not_true_is_false. rewrite earlier_spec. unfold date_ltb. intros [H|[_ H]]; lia. Qed.

Lemma earliest_spec first rest :
  earliest first rest ∈ first :: rest ∧ ∀ row, row ∈ first :: rest → earlier row (earliest first rest) = false.
Proof.
  unfold earliest. induction rest as [|x rest [Hin Hmin]] using rev_ind.
  { split; [left|]. intros row ->%list_elem_of_singleton. apply earlier_irrefl. }
  rewrite foldl_app. cbn [foldl]. set (best := foldl _ first rest) in *.
  destruct (earlier x best) eqn:Hx; (split; [set_solver|]);
    intros row [Hrow|Hrow]%(elem_of_app (first :: rest) [x]); [| |by apply Hmin|].
  - apply not_true_is_false. intros Hr. specialize (Hmin row Hrow).
    by rewrite (earlier_trans _ _ _ Hr Hx) in Hmin.
  - apply list_elem_of_singleton in Hrow as ->. apply earlier_irrefl.
  - by apply list_elem_of_singleton in Hrow as ->.
Qed.

(** A group's detection is its earliest row inside its own lead window. *)
Lemma group_detection_some rows today tz lead det :
  _group_detection rows today tz lead = Ok (Some det) →
  ∃ trigger e, trigger ∈ rows ∧ within_lead today lead trigger = true ∧
    (∀ row, row ∈ rows → within_lead today lead row = true → earlier row trigger = false) ∧
    local_day_end (oc_occurrence trigger) tz = Ok e ∧
    d_situation_type det = PersonalOccasion ∧ d_expires_at det = Some e ∧
    d_dedupe_key det = _dedupe_key (oc_item trigger) (year (oc_occurrence trigger)).
Proof.
  unfold _group_detection. destruct (sql_select _ rows) as [|first rest] eqn:Hsel; [done|].
  intros H. res_inv H. injection H as <-.
  destruct (earliest_spec first rest) as [Hin Hmin]. rewrite <- Hsel in Hin.
  apply elem_of_sql_select in Hin as [Hw Hin].
  exists (earliest first rest), x. split_and!; try done.
  intros row Hrow Hr. apply Hmin. rewrite <- Hsel. by apply elem_of_sql_select.
Qed.

Lemma group_detection_due rows today tz lead row :
  row ∈ rows → within_lead today lead row = true →
  (∀ r, r ∈ rows → ∃ e, local_day_end (oc_occurrence r) tz = Ok e) →
  ∃ det, _group_detection rows today tz lead = Ok (Some det).
Proof.
  intros Hrow Hw Hend. unfold _group_detection.
  assert (row ∈ sql_select (within_lead today lead) rows) as Hin by (by apply elem_of_sql_select).
  destruct (sql_select _ rows) as [|first rest] eqn:Hsel; [by apply elem_of_nil in Hin|].
  destruct (earliest_spec first rest) as [Hin' _]. rewrite <- Hsel in Hin'.
  apply elem_of_sql_select in Hin' as [_ Hin']. destruct (Hend _ Hin') as [e He]. rewrite He. res_step. eauto.
Qed.

Lemma elem_of_rows_of k rows row : row ∈ rows_of k rows ↔ row ∈ rows ∧ row_key row = k.
Proof. unfold rows_of. rewrite list_elem_of_filter. tauto. Qed.

Lemma elem_of_upcoming today items row :
  row ∈ upcoming today items ↔
    oc_item row ∈ items ∧ _next_occurrence (oc_item row) today = Ok (Some (oc_occurrence row)).
Proof.
  unfold upcoming. rewrite list_elem_of_omap. split.
  - intros (item & Hin & (o & Ho & ->)%fmap_Some). split; [done|]. simpl.
    unfold skip_failed in Ho. by destruct (_next_occurrence item today) as [[]|]; simplify_eq.
  - intros [Hin Ho]. exists (oc_item row). split; [done|]. rewrite Ho. by destruct row.
Qed.

Lemma local_date_valid now tz today : local_date now tz = Ok today → valid_date today = true.
Proof.
  unfold local_date, astimezone. intros H. res_inv H. injection H as <-.
  apply dt_add_ok in Hx as [Hr ->]. by apply instant_date_valid.
Qed.

Lemma next_occurrence_from_today item today o :
  _next_occurrence item today = Ok (Some o) → date_leb today o = true ∧ valid_date o = true.
Proof.
  unfold _next_occurrence. destruct (mi_date_anchor item) as [a|]; [|done].
  destruct (parse_anchor a) as [[[y m] d]|]; [|done].
  assert (∀ r, (o' ← yearly_occurrence_on_or_after today m d; mret (Some o')) = Ok (Some r) →
    date_leb today r = true ∧ valid_date r = true) as Hyearly.
  { intros r H. res_inv H. injection H as <-. by eapply yearly_occurrence_from_today. }
  destruct y as [y|]; [|apply Hyearly]. case_bool_decide; [apply Hyearly|].
  intros Hd. res_inv Hd. unfold make_date in Hx. destruct (valid_date (mk_date y m d)) eqn:Hv; [|done].
  injection Hx as <-. destruct (date_leb today (mk_date y m d)) eqn:Hle; [|done]. by injection Hd as <-.
Qed.

Lemma days_between_leb d1 d2 :
  valid_date d1 = true → valid_date d2 = true → date_leb d1 d2 = (0 <=? days_between d2 d1).
Proof.
  intros H1 H2. unfold date_leb, days_between. rewrite date_ltb_ordinal by done. lia.
Qed.

(** Detections come from distinct groups. *)
Lemma detection_of_group items now tz lead today det k :
  local_date now tz = Ok today →
  skip_failed (_group_detection (rows_of k (upcoming today items)) today tz lead) = Some det →
  ∃ item o e, item ∈ items ∧ _group_key item = k ∧ _next_occurrence item today = Ok (Some o) ∧
    days_between o today ≤ effective_lead lead item ∧ local_day_end o tz = Ok e ∧
    d_situation_type det = PersonalOccasion ∧ d_expires_at det = Some e ∧
    d_dedupe_key det = _dedupe_key item (year o) ∧
    ∀ item' o', item' ∈ items → _group_key item' = k → _next_occurrence item' today = Ok (Some o') →
      days_between o' today ≤ effective_lead lead item' → date_leb o o' = true.
Proof.
  intros Htoday Hdet. unfold skip_failed in Hdet.
  destruct (_group_detection _ _ _ _) as [[det'|]|] eqn:Hg; [|done..]. injection Hdet as ->.
  apply group_detection_some in Hg as (trigger & e & Hin & Hw & Hmin & He & Hty & Hexp & Hkey).
  apply elem_of_rows_of in Hin as [Hin Hk]. apply elem_of_upcoming in Hin as [Hin Ho].
  apply Z.leb_le in Hw. exists (oc_item trigger), (oc_occurrence trigger), e. split_and!; try done.
  intros item' o' Hin' Hk' Ho' Hw'. specialize (Hmin (mk_occurrence item' o')).
  assert (earlier (mk_occurrence item' o') trigger = false) as Hle.
  { apply Hmin; [|by apply Z.leb_le]. by rewrite elem_of_rows_of, elem_of_upcoming. }
  unfold earlier in Hle. apply orb_false_iff in Hle as [Hle _]. unfold date_leb. by apply negb_true_iff.
Qed.

(** C35. A run notifies each occasion once: its detections have distinct dedupe keys. *)
Theorem occasions_notify_once items now tz lead dets :
  NoDup (mi_id <$> items) → detect_personal_occasions items now tz lead = Ok dets →
  NoDup (d_dedupe_key <$> dets).
Proof.
  intros Hids Hrun. destruct (detect_groups _ _ _ _ _ Hrun) as (today & Htoday & ->).
  apply NoDup_fmap_omap; [apply distinct_keys_NoDup|]. intros k1 k2 d1 d2 H1 H2 Heq.
  destruct (detection_of_group _ _ _ _ _ _ _ Htoday H1) as (i1 & o1 & e1 & Hin1 & <- & _ & _ & _ & _ & _ & Hk1 & _).
  destruct (detection_of_group _ _ _ _ _ _ _ Htoday H2) as (i2 & o2 & e2 & Hin2 & <- & _ & _ & _ & _ & _ & Hk2 & _).
  rewrite Hk1, Hk2 in Heq. apply dedupe_key_inj in Heq; [done|].
  intros Hid. by eapply (NoDup_fmap_eq mi_id).
Qed.

(** Every detection is due: its memory's next occurrence is today or later, within the
    memory's own lead window, the earliest of its group's, and the situation expires when
    that day ends. *)
Theorem occasions_are_due items now tz lead dets det :
  detect_personal_occasions items now tz lead = Ok dets → det ∈ dets →
  ∃ today item o e, local_date now tz = Ok today ∧ item ∈ items ∧
    _next_occurrence item today = Ok (Some o) ∧
    0 ≤ days_between o today ≤ effective_lead lead item ∧
    local_day_end o tz = Ok e ∧ d_expires_at det = Some e ∧
    d_dedupe_key det = _dedupe_key item (year o) ∧
    ∀ item' o', item' ∈ items → _group_key item' = _group_key item →
      _next_occurrence item' today = Ok (Some o') →
      days_between o' today ≤ effective_lead lead item' → date_leb o o' = true.
Proof.
  intros Hrun Hdet. destruct (detect_groups _ _ _ _ _ Hrun) as (today & Htoday & ->).
  apply list_elem_of_omap in Hdet as (k & _ & Hk).
  destruct (detection_of_group _ _ _ _ _ _ _ Htoday Hk) as (item & o & e & Hin & <- & Ho & Hw & He & _ & Hexp & Hkey & Hmin).
  destruct (next_occurrence_from_today _ _ _ Ho) as [Hle Hv].
  rewrite days_between_leb, Z.leb_le in Hle by (done || by eapply local_date_valid).
  exists today, item, o, e. split_and!; done.
Qed.

(** No due memory is missed: while the ends of the group's days can be computed, a memory
    whose next occurrence is inside its lead window is covered by a detection of its own
    group that occurs no later. *)
Theorem due_memories_are_covered items now tz lead dets today item o :
  detect_personal_occasions items now tz lead = Ok dets → local_date now tz = Ok today →
  item ∈ items → _next_occurrence item today = Ok (Some o) →
  days_between o today ≤ effective_lead lead item →
  (∀ item' o', item' ∈ items → _group_key item' = _group_key item →
     _next_occurrence item' today = Ok (Some o') → ∃ e, local_day_end o' tz = Ok e) →
  ∃ det item' o', det ∈ dets ∧ item' ∈ items ∧ _group_key item' = _group_key item ∧
    d_dedupe_key det = _dedupe_key item' (year o') ∧ date_leb o' o = true.
Proof.
  intros Hrun Htoday Hin Ho Hw Hends.
  destruct (detect_groups _ _ _ _ _ Hrun) as (today' & Htoday' & ->).
  assert (today' = today) as -> by congruence.
  set (k := _group_key item) in *.
  assert (mk_occurrence item o ∈ upcoming today items) as Hup by (by apply elem_of_upcoming).
  destruct (group_detection_due (rows_of k (upcoming today items)) today tz lead (mk_occurrence item o)) as [det Hdet].
  - by apply elem_of_rows_of.
  - by apply Z.leb_le.
  - intros r [Hr Hk]%elem_of_rows_of. apply elem_of_upcoming in Hr as [Hr Hro]. by eapply Hends.
  - assert (skip_failed (_group_detection (rows_of k (upcoming today items)) today tz lead) = Some det) as Hs
      by (by rewrite Hdet).
    destruct (detection_of_group _ _ _ _ _ _ _ Htoday Hs) as (item' & o' & e & Hin' & Hk' & _ & _ & _ & _ & _ & Hkey & Hmin).
    exists det, item', o'. split_and!; try done; [|by apply (Hmin item o)].
    apply list_elem_of_omap. exists k. split; [|done]. apply elem_of_distinct_keys. by exists (mk_occurrence item o).
Qed.
End Grouping.

(** ** Concrete runs *)

Definition occasion_now : instant := 63909000000000000.
Definition sample_item (i : Z) (e : option Z) (a : MemoryAttribute) (anchor : text) (r : MemoryRecurrence)
    : MemoryItem :=
  mk_memory_item i Fact e None None None a "call" (Some anchor) r (Some 14) Manual "t" "t" false false.
(** Two contradicting birthdays of one entity and a free date. *)
Definition sample_items : list MemoryItem :=
  [sample_item 1 (Some 4) Birthday "--03-20" Yearly; sample_item 2 (Some 4) Birthday "2025-03-18" Yearly;
   sample_item 3 None Free "2026-03-15" RecurNone; sample_item 4 None Free "2027-03-15" RecurNone].
Definition sample_detections : list Detection :=
  match detect_personal_occasions (U := ascii_unicode) sample_items occasion_now UTC 7 with
  | Ok dets => dets | Err _ => [] end.

Lemma sample_detections_run :
  detect_personal_occasions (U := ascii_unicode) sample_items occasion_now UTC 7 = Ok sample_detections.
Proof. vm_compute. reflexivity. Qed.

Example sample_detection_keys :
  d_dedupe_key <$> sample_detections =
    ["personal_occasion:entity:4:birthday:2026"; "personal_occasion:item:3:2026"]%string.
Proof. vm_compute. reflexivity. Qed.

Lemma yearly_occurrence_is_next_witness :
  yearly_occurrence_on_or_after (mk_date 2026 3 1) 2 29 = Ok (mk_date 2027 2 28) ∧
  date_leb (mk_date 2026 3 1) (mk_date 2027 2 28) = true.
Proof.
  split; [reflexivity|].
  exact (proj1 (yearly_occurrence_is_next (mk_date 2026 3 1) 2 29 eq_refl eq_refl)).
Defined.

Lemma occasions_notify_once_witness :
  length sample_detections = 2%nat ∧ NoDup (d_dedupe_key <$> sample_detections).
Proof.
  split; [vm_compute; reflexivity|].
  refine (occasions_notify_once (U := ascii_unicode) sample_items occasion_now UTC 7 sample_detections _ sample_detections_run).
  apply (bool_decide_unpack _). vm_compute. exact I.
Defined.

Definition first_detection : Detection :=
  match sample_detections with det :: _ => det | [] => mk_detection PersonalOccasion "" High "" "" (mk_evidence [] [] [] []) None end.

Lemma occasions_are_due_witness :
  d_dedupe_key first_detection = "personal_occasion:entity:4:birthday:2026"%string ∧
  ∃ today item o e, local_date occasion_now UTC = Ok today ∧ item ∈ sample_items ∧
    _next_occurrence item today = Ok (Some o) ∧ 0 ≤ days_between o today ≤ effective_lead 7 item ∧
    local_day_end o UTC = Ok e.
Proof.
  split; [vm_compute; reflexivity|].
  destruct (occasions_are_due (U := ascii_unicode) sample_items occasion_now UTC 7 sample_detections first_detection
    sample_detections_run) as (today & item & o & e & H1 & H2 & H3 & H4 & H5 & _).
  - apply list_elem_of_lookup. exists 0%nat. vm_compute. reflexivity.
  - exists today, item, o, e. exact (conj H1 (conj H2 (conj H3 (conj H4 H5)))).
Defined.

Lemma due_memories_are_covered_witness :
  ∃ det item' o', det ∈ sample_detections ∧ item' ∈ sample_items ∧
    d_dedupe_key det = _dedupe_key item' (year o') ∧ date_leb o' (mk_date 2026 3 20) = true.
Proof.
  destruct (due_memories_are_covered (U := ascii_unicode) sample_items occasion_now UTC 7 sample_detections
    (mk_date 2026 3 13) (sample_item 1 (Some 4) Birthday "--03-20" Yearly) (mk_date 2026 3 20) sample_detections_run)
    as (det & item' & o' & H1 & H2 & _ & H3 & H4).
  - vm_compute. reflexivity.
  - left.
  - vm_compute. reflexivity.
  - vm_compute. discriminate.
  - intros item' o' Hin _ Ho.
    assert (forallb (λ i, match _next_occurrence i (mk_date 2026 3 13) with
      | Ok (Some o) => match local_day_end o UTC with Ok _ => true | Err _ => false end | _ => true end) sample_items = true)
      as Hall by (vm_compute; reflexivity).
    rewrite forallb_forall in Hall. apply list_elem_of_In in Hin. specialize (Hall item' Hin). rewrite Ho in Hall.
    destruct (local_day_end o' UTC) as [e|]; [exists e; reflexivity|discriminate].
  - exists det, item', o'. exact (conj H1 (conj H2 (conj H3 H4))).
Defined.
