(* ===== verification/DeadlineText.v ===== *)
(** The deadline scanner ([situations/_deadline_text.py]).  The regular expressions of the
    module are matchers that list their matches in the order Python's backtracking engine
    tries them, over the characters of a text. *)
From stdpp Require Import pretty.
From Stdlib Require Import Ascii.
From S2P Require Import Prelude PyDate PyTime Models Memory.
#[local] Open Scope Z_scope.

(** ** Characters *)

(** A character is the text of one code point. *)
Abbreviation char := string.

(** The characters of a UTF-8 text: a byte with the continuation bytes after it. *)
Fixpoint chars (s : text) : list char :=
  match s with
  | EmptyString => []
  | String a rest =>
    match chars rest, rest with
    | c :: cs, String b _ => if continuation b then String a c :: cs else String a EmptyString :: c :: cs
    | cs, _ => String a EmptyString :: cs
    end
  end.
Definition unchars (cs : list char) : text := join "" cs.

Definition ascii_code (c : char) : option N :=
  match c with
  | String a EmptyString => if (N_of_ascii a <? 128)%N then Some (N_of_ascii a) else None
  | _ => None
  end.

(** What the engine reads from the Unicode tables about the characters beyond ASCII. *)
Class CharTables := {
  alnum_beyond : char → bool;
  space_beyond : char → bool;
  decimal_beyond : char → option Z;
}.
(** Tables that know the Hangul syllables and the four characters that fold to a letter of
    ASCII, which are all letters. *)
Definition hangul_tables : CharTables := {|
  alnum_beyond c :=
    match c with String a _ => ((234 <=? N_of_ascii a) && (N_of_ascii a <=? 237))%N | _ => false end ||
    bool_decide (c ∈ ["İ"; "ı"; "ſ"; "K"]%string);
  space_beyond _ := false; decimal_beyond _ := None |}.

Section Regex.
Context {T : CharTables}.

Definition is_word (c : char) : bool :=
  match ascii_code c with
  | Some n => ((48 <=? n) && (n <=? 57) || (65 <=? n) && (n <=? 90) || (97 <=? n) && (n <=? 122) || (n =? 95))%N
  | None => alnum_beyond c
  end.
Definition is_blank (c : char) : bool :=
  match ascii_code c with
  | Some n => ((9 <=? n) && (n <=? 13) || (28 <=? n) && (n <=? 32))%N
  | None => space_beyond c
  end.
Definition decimal (c : char) : option Z :=
  match ascii_code c with
  | Some n => if ((48 <=? n) && (n <=? 57))%N then Some (Z.of_N n - 48) else None
  | None => decimal_beyond c
  end.

(** A lower-case letter under [IGNORECASE]: its two cases, and the four characters beyond
    ASCII that fold to a letter (dotted and dotless i, long s, the Kelvin sign). *)
Definition matches_letter (a : ascii) (c : char) : bool :=
  match ascii_code c with
  | Some n => (ascii_lower (ascii_of_N n) =? N_of_ascii a)%N
  | None =>
    bool_decide (a = "i"%char ∧ (c = "İ"%string ∨ c = "ı"%string)) ||
    bool_decide (a = "s"%char ∧ c = "ſ"%string) || bool_decide (a = "k"%char ∧ c = "K"%string)
  end.
(** [[a-z]] under [IGNORECASE]. *)
Definition a_to_z (c : char) : bool :=
  match ascii_code c with
  | Some n => let l := ascii_lower (ascii_of_N n) in ((97 <=? l) && (l <=? 122))%N
  | None => bool_decide (c ∈ ["İ"; "ı"; "ſ"; "K"]%string)
  end.

(** ** Matching *)

(** A place in the text: the character before it and the characters after it. *)
Record cursor := mk_cursor { before : option char; ahead : list char }.

(** All matches from a place, in the order of preference; the first is the engine's. *)
Definition pat (A : Type) : Type := cursor → list (A * cursor).
#[export] Instance pat_ret : MRet pat := λ A a c, [(a, c)].
#[export] Instance pat_bind : MBind pat := λ A B f p c,
  '(a, c') ← p c; f a c'.

Definition one (p : char → bool) : pat char := λ c,
  match ahead c with
  | x :: rest => if p x then [(x, mk_cursor (Some x) rest)] else []
  | [] => []
  end.
Definition exactly (x : char) : pat char := one (λ c, bool_decide (c = x)).

(** [\b]. *)
Definition boundary : pat unit := λ c,
  let w o := match o with Some x => is_word x | None => false end in
  if xorb (w (before c)) (w (head (ahead c))) then [(tt, c)] else [].

(** [p|q|...]: the earlier alternative first. *)
Definition alt {A} (ps : list (pat A)) : pat A := λ c, ps ≫= (λ p, p c).

(** [p{0,n}], greedy. *)
Fixpoint up_to {A} (n : nat) (p : pat A) : pat (list A) :=
  match n with
  | O => mret []
  | S n => alt [(x ← p; xs ← up_to n p; mret (x :: xs)); mret []]
  end.
(** [p*]: a repetition takes a character each time. *)
Definition star {A} (p : pat A) : pat (list A) := λ c, up_to (length (ahead c)) p c.
Definition plus {A} (p : pat A) : pat (list A) := x ← p; xs ← star p; mret (x :: xs).
Fixpoint times {A} (n : nat) (p : pat A) : pat (list A) :=
  match n with O => mret [] | S n => x ← p; xs ← times n p; mret (x :: xs) end.

Definition blanks : pat (list char) := star (one is_blank).
Definition blanks1 : pat (list char) := plus (one is_blank).

(** A word of lower-case letters and spaces under [IGNORECASE]. *)
Fixpoint word (s : text) : pat (list char) :=
  match s with
  | EmptyString => mret []
  | String a rest =>
    x ← (if Ascii.eqb a " " then exactly " "%string else one (matches_letter a));
    xs ← word rest; mret (x :: xs)
  end.

(** [int(...)] of a run of decimal digits. *)
Definition digit_pat : pat Z := λ c,
  match ahead c with
  | x :: rest => match decimal x with Some d => [(d, mk_cursor (Some x) rest)] | None => [] end
  | [] => []
  end.
Definition number (ds : list Z) : Z := foldl (λ n d, 10 * n + d) 0 ds.
(** [\d{1,2}]. *)
Definition one_or_two : pat Z :=
  d ← digit_pat; ds ← up_to 1 digit_pat; mret (number (d :: ds)).

(** [pattern.search(text).group(0)]: the leftmost place with a match. *)
Fixpoint search_from {A} (p : pat A) (prev : option char) (cs : list char) : option (list char) :=
  match p (mk_cursor prev cs) with
  | (_, c) :: _ => Some (take (length cs - length (ahead c)) cs)
  | [] => match cs with [] => None | x :: rest => search_from p (Some x) rest end
  end.
Definition search {A} (p : pat A) (cs : list char) : option (list char) := search_from p None cs.

(** [pattern.finditer(text)]: the groups of the leftmost matches that do not overlap.  Every
    step takes a character or a match, and no pattern here matches nothing. *)
Fixpoint finditer_from {A} (fuel : nat) (p : pat A) (c : cursor) : list A :=
  match fuel with
  | O => []
  | S fuel =>
    match p c with
    | (a, c') :: _ => a :: finditer_from fuel p c'
    | [] => match ahead c with [] => [] | x :: rest => finditer_from fuel p (mk_cursor (Some x) rest) end
    end
  end.
Definition finditer {A} (p : pat A) (cs : list char) : list A :=
  finditer_from (S (length cs)) p (mk_cursor None cs).

(** ** The patterns *)

Definition bounded {A} (p : pat A) : pat A := boundary;; a ← p; boundary;; mret a.
Definition skip {A} (p : pat A) : pat unit := p;; mret tt.

Definition _MAX_SCAN_LENGTH : nat := 4000.
Definition _ROLLOVER_GRACE : Z := 7.

Definition _MARKERS : list (pat unit) :=
  [skip (bounded (word "deadline"));
   skip (bounded (word "due"));
   skip (bounded (word "asap"));
   skip (bounded (word "eod"));
   skip (bounded (word "cob"));
   skip (bounded (word "no later than"));
   skip (bounded (alt [word "respond"; word "reply"; word "rsvp"];; blanks1;; word "by"));
   skip (bounded (word "by";; blanks1;;
     alt [word "mon"; word "tues"; word "wednes"; word "thurs"; word "fri"; word "satur"; word "sun"];; word "day"));
   skip (bounded (word "by";; blanks1;; alt [word "today"; word "tomorrow"]));
   skip (bounded (word "by";; blanks1;; word "end of ";; alt [word "day"; word "week"; word "month"]));
   skip (exactly "마";; exactly "감");
   skip (exactly "기";; exactly "한");
   skip (exactly "회";; exactly "신";; blanks;;
     alt [(exactly "요";; exactly "망"); (exactly "부";; exactly "탁")]);
   skip (exactly "답";; exactly "장";; blanks;; exactly "부";; exactly "탁");
   skip (exactly "늦";; exactly "어";; exactly "도");
   skip (one (λ c, bool_decide (is_Some (decimal c)) || bool_decide (c ∈ ["일"; "늘"; "레"]%string));;
     blanks;; exactly "까";; exactly "지")].

Definition _ISO_DATE : pat (Z * Z * Z) :=
  boundary;; y ← times 4 digit_pat; exactly "-";; m ← one_or_two; exactly "-";; d ← one_or_two;
  boundary;; mret (number y, m, d).
Definition _KOREAN_DATE : pat (Z * Z) :=
  m ← one_or_two; blanks;; exactly "월";; blanks;; d ← one_or_two; blanks;; exactly "일";; mret (m, d).
Definition _MONTH_NUMBERS : list (text * Z) :=
  [("jan", 1); ("feb", 2); ("mar", 3); ("apr", 4); ("may", 5); ("jun", 6); ("jul", 7); ("aug", 8);
   ("sep", 9); ("oct", 10); ("nov", 11); ("dec", 12)]%string.
Definition _ENGLISH_DATE : pat (list char * Z) :=
  boundary;; month ← alt ((λ x, word x.1) <$> _MONTH_NUMBERS); star (one a_to_z);; up_to 1 (exactly ".");;
  blanks1;; d ← one_or_two; boundary;; mret (month, d).
Definition _SLASH_DATE : pat (Z * Z) :=
  boundary;; m ← one_or_two; exactly "/";; d ← one_or_two; boundary;; mret (m, d).
Definition _RELATIVE : list (pat unit * Z) :=
  [(skip (exactly "오";; exactly "늘";; blanks;; exactly "까";; exactly "지"), 0);
   (skip (exactly "내";; exactly "일";; blanks;; exactly "까";; exactly "지"), 1);
   (skip (exactly "모";; exactly "레";; blanks;; exactly "까";; exactly "지"), 2);
   (skip (bounded (alt [word "by"; word "due"];; blanks1;; word "today")), 0);
   (skip (bounded (alt [word "by"; word "due"];; blanks1;; word "tomorrow")), 1)].

(** ** The scan *)

Inductive scan_error := ScanTimeError (e : time_error) | ScanKeyError.
Definition lift_scan {A} (r : res time_error A) : res scan_error A :=
  match r with Ok a => Ok a | Err e => Err (ScanTimeError e) end.

Record DeadlineScan := mk_scan { matched_marker : option text; deadline_date : option date }.
Definition has_marker (s : DeadlineScan) : bool := bool_decide (is_Some (matched_marker s)).

Fixpoint first_match (patterns : list (pat unit)) (cs : list char) : option text :=
  match patterns with
  | [] => None
  | p :: rest => match search p cs with Some m => Some (unchars m) | None => first_match rest cs end
  end.
Definition _first_marker (cs : list char) : option text := first_match _MARKERS cs.

Definition _safe_date (y m d : Z) : option date :=
  match make_date y m d with Ok r => Some r | Err _ => None end.

Definition _iso_dates (cs : list char) : list date :=
  omap (λ '(y, m, d), _safe_date y m d) (finditer _ISO_DATE cs).

(** The pairs are a generator: looking a month up may fail when its turn comes. *)
Fixpoint _yearless_dates (month_day_pairs : list (res scan_error (Z * Z))) (today : date)
    : res scan_error (list date) :=
  match month_day_pairs with
  | [] => mret []
  | md_pair :: rest =>
    md ← md_pair;
    candidate ← (
      match _safe_date (year today) md.1 md.2 with
      | None => mret None
      | Some candidate =>
        grace ← lift_scan (add_days today (- _ROLLOVER_GRACE));
        mret (if date_ltb candidate grace then _safe_date (year today + 1) md.1 md.2 else Some candidate)
      end);
    found ← _yearless_dates rest today;
    mret (option_list candidate ++ found)
  end.

Definition _korean_dates (cs : list char) (today : date) : res scan_error (list date) :=
  _yearless_dates (Ok <$> finditer _KOREAN_DATE cs) today.

(** [_MONTH_NUMBERS[match.group(1).lower()]]: a dictionary lookup of the matched text.  No
    month name has an i or a k, so of the characters beyond ASCII only the long s can be
    matched, which [lower] leaves as it is. *)
Definition month_number (matched : list char) : res scan_error Z :=
  match sql_find (λ x, bool_decide (x.1 = lower_ascii (unchars matched))) _MONTH_NUMBERS with
  | Some (_, n) => Ok n
  | None => Err ScanKeyError
  end.
Definition _english_dates (cs : list char) (today : date) : res scan_error (list date) :=
  _yearless_dates ((λ '(month, d), n ← month_number month; mret (n, d)) <$> finditer _ENGLISH_DATE cs) today.

Definition _slash_dates (cs : list char) (today : date) : res scan_error (list date) :=
  _yearless_dates (Ok <$> finditer _SLASH_DATE cs) today.

Fixpoint relative_dates (patterns : list (pat unit * Z)) (cs : list char) (today : date)
    : res scan_error (list date) :=
  match patterns with
  | [] => mret []
  | (p, offset_days) :: rest =>
    match search p cs with
    | None => relative_dates rest cs today
    | Some _ =>
      d ← lift_scan (add_days today offset_days);
      found ← relative_dates rest cs today;
      mret (d :: found)
    end
  end.
Definition _relative_dates (cs : list char) (today : date) : res scan_error (list date) :=
  relative_dates _RELATIVE cs today.

Definition _date_candidates (cs : list char) (today : date) : res scan_error (list date) :=
  korean ← _korean_dates cs today;
  english ← _english_dates cs today;
  slash ← _slash_dates cs today;
  relative ← _relative_dates cs today;
  mret (_iso_dates cs ++ korean ++ english ++ slash ++ relative).

(** [min(candidates)]. *)
Definition min_date (ds : list date) : option date :=
  match ds with
  | [] => None
  | d :: rest => Some (foldl (λ best x, if date_ltb x best then x else best) d rest)
  end.

Definition scan_deadline_text (s : text) (today : date) : res scan_error DeadlineScan :=
  let scanned := take _MAX_SCAN_LENGTH (chars s) in
  match _first_marker scanned with
  | None => mret (mk_scan None None)
  | Some marker =>
    candidates ← _date_candidates scanned today;
    mret (mk_scan (Some marker) (min_date candidates))
  end.
End Regex.

(** ** Concrete scans *)

Definition scan_at (s : text) : res scan_error DeadlineScan :=
  scan_deadline_text (T := hangul_tables) s (mk_date 2026 3 13).

Example scan_english : scan_at "Please reply  by Mar. 20, or due tomorrow" =
  Ok (mk_scan (Some "due"%string) (Some (mk_date 2026 3 14))).
Proof. vm_compute. reflexivity. Qed.
Example scan_no_marker : scan_at "overdue on 2026-03-14" = Ok (mk_scan None None).
Proof. vm_compute. reflexivity. Qed.
Example scan_korean : scan_at "3월 5일까지 회신 부탁드립니다, 1 / 2" =
  Ok (mk_scan (Some "회신 부탁"%string) (Some (mk_date 2027 3 5))).
Proof. vm_compute. reflexivity. Qed.
Example scan_relative : scan_at "내일까지 ASAP by 2026-3-20" =
  Ok (mk_scan (Some "ASAP"%string) (Some (mk_date 2026 3 14))).
Proof. vm_compute. reflexivity. Qed.

(** ** What a match is *)

Section Matches.
Context {T : CharTables}.

(** A matcher only moves ahead, over the characters it consumed. *)
Class Consumes {A} (p : pat A) : Prop :=
  consumes c a c' : (a, c') ∈ p c → ∃ xs, ahead c = xs ++ ahead c'.
(** It consumes at least one. *)
Class Advances {A} (p : pat A) : Prop :=
  advances c a c' : (a, c') ∈ p c → (length (ahead c') < length (ahead c))%nat.

Lemma elem_of_bind {A B} (p : pat A) (f : A → pat B) c b c' :
  (b, c') ∈ (p ≫= f) c ↔ ∃ a c1, (a, c1) ∈ p c ∧ (b, c') ∈ f a c1.
Proof.
  unfold mbind, pat_bind. rewrite list_elem_of_bind. split.
  - intros ([a c1] & H1 & H2). eauto.
  - intros (a & c1 & H1 & H2). exists (a, c1). eauto.
Qed.

#[export] Instance consumes_ret {A} (a : A) : Consumes (mret a).
Proof. intros c b c' [= -> ->]%list_elem_of_singleton. by exists []. Qed.
#[export] Instance consumes_bind {A B} (p : pat A) (f : A → pat B) :
  Consumes p → (∀ a, Consumes (f a)) → Consumes (p ≫= f).
Proof.
  intros Hp Hf c b c' (a & c1 & H1 & H2)%elem_of_bind.
  destruct (Hp _ _ _ H1) as [xs Hxs], (Hf _ _ _ _ H2) as [ys Hys]. exists (xs ++ ys).
  by rewrite Hxs, Hys, app_assoc.
Qed.
#[export] Instance consumes_one p : Consumes (one p).
Proof.
  intros c a c'. unfold one. destruct (ahead c) as [|x rest] eqn:Hc; [by intros ?%elem_of_nil|].
  destruct (p x); [|by intros ?%elem_of_nil]. intros [= -> ->]%list_elem_of_singleton. by exists [x].
Qed.
#[export] Instance consumes_exactly x : Consumes (exactly x).
Proof. apply _. Qed.
#[export] Instance consumes_boundary : Consumes boundary.
Proof.
  intros c a c'. unfold boundary. destruct (xorb _ _); [|by intros ?%elem_of_nil].
  intros [= -> ->]%list_elem_of_singleton. by exists [].
Qed.
#[export] Instance consumes_digit : Consumes digit_pat.
Proof.
  intros c a c'. unfold digit_pat. destruct (ahead c) as [|x rest] eqn:Hc; [by intros ?%elem_of_nil|].
  destruct (decimal x); [|by intros ?%elem_of_nil]. intros [= -> ->]%list_elem_of_singleton. by exists [x].
Qed.
Lemma consumes_alt {A} (ps : list (pat A)) : Forall Consumes ps → Consumes (alt ps).
Proof.
  intros Hps c a c'. unfold alt. rewrite list_elem_of_bind. intros (p & Hin & Hp).
  rewrite Forall_forall in Hps. by eapply (Hps p).
Qed.
#[export] Instance consumes_alt_nil {A} : Consumes (alt ([] : list (pat A))).
Proof. apply consumes_alt. constructor. Qed.
#[export] Instance consumes_alt_cons {A} (p : pat A) ps : Consumes p → Consumes (alt ps) → Consumes (alt (p :: ps)).
Proof.
  intros Hp Hps c a c'. unfold alt. rewrite bind_cons, elem_of_app. intros [H|H]; [by eapply Hp|by eapply Hps].
Qed.
#[export] Instance consumes_up_to {A} n (p : pat A) : Consumes p → Consumes (up_to n p).
Proof. intros Hp. induction n; simpl; apply _. Qed.
#[export] Instance consumes_star {A} (p : pat A) : Consumes p → Consumes (star p).
Proof. intros Hp c a c'. unfold star. apply (consumes_up_to _ p Hp). Qed.
#[export] Instance consumes_times {A} n (p : pat A) : Consumes p → Consumes (times n p).
Proof. intros Hp. induction n; simpl; apply _. Qed.
#[export] Instance consumes_word s : Consumes (word s).
Proof.
  induction s as [|a s IH]; cbn [word]; [apply _|]. apply consumes_bind; [|apply _].
  destruct (Ascii.eqb a " "); apply _.
Qed.

Lemma consumes_ahead {A} (p : pat A) c a c' : Consumes p → (a, c') ∈ p c → (length (ahead c') ≤ length (ahead c))%nat.
Proof. intros Hp [xs ->]%Hp. rewrite length_app. lia. Qed.

(** A sequence advances if one of its parts does. *)
Lemma advances_bind_l {A B} (p : pat A) (f : A → pat B) :
  Advances p → (∀ a, Consumes (f a)) → Advances (p ≫= f).
Proof.
  intros Hp Hf c b c' (a & c1 & H1 & H2)%elem_of_bind.
  apply Hp in H1. apply (consumes_ahead _ _ _ _ (Hf a)) in H2. lia.
Qed.
Lemma advances_bind_r {A B} (p : pat A) (f : A → pat B) :
  Consumes p → (∀ a, Advances (f a)) → Advances (p ≫= f).
Proof.
  intros Hp Hf c b c' (a & c1 & H1 & H2)%elem_of_bind.
  apply Hf in H2. apply (consumes_ahead _ _ _ _ Hp) in H1. lia.
Qed.
#[export] Instance advances_digit : Advances digit_pat.
Proof.
  intros c a c'. unfold digit_pat. destruct (ahead c) as [|x rest] eqn:Hc; [by intros ?%elem_of_nil|].
  destruct (decimal x); [|by intros ?%elem_of_nil]. intros [= -> ->]%list_elem_of_singleton. simpl. lia.
Qed.
#[export] Instance advances_one_or_two : Advances one_or_two.
Proof. apply advances_bind_l; apply _. Qed.
Lemma advances_star_blanks : Consumes blanks1.
Proof. unfold blanks1, plus. apply _. Qed.

(** A search returns a piece of the text. *)
Lemma search_from_infix {A} (p : pat A) prev cs m :
  Consumes p → search_from p prev cs = Some m → ∃ pre post, cs = pre ++ m ++ post.
Proof.
  intros Hp. revert prev. induction cs as [|x cs IH]; intros prev; cbn [search_from].
  - destruct (p (mk_cursor prev [])) as [|[a c] l] eqn:Hc; [done|]. intros [= <-]. by exists [], [].
  - destruct (p (mk_cursor prev (x :: cs))) as [|[a c] l] eqn:Hc.
    + intros (pre & post & ->)%IH. by exists (x :: pre), post.
    + intros [= <-]. destruct (Hp (mk_cursor prev (x :: cs)) a c) as [xs Hxs]; [rewrite Hc; left|]. simpl in Hxs.
      exists [], (ahead c). cbn [app]. change (S (length cs)) with (length (x :: cs)). rewrite Hxs, length_app.
      replace (length xs + length (ahead c) - length (ahead c))%nat with (length xs) by lia. by rewrite take_app_length.
Qed.

(** The fuel of [finditer] is enough: more of it finds the same matches. *)
Lemma finditer_fuel {A} (p : pat A) f f' c :
  Advances p → (length (ahead c) < f)%nat → (length (ahead c) < f')%nat →
  finditer_from f p c = finditer_from f' p c.
Proof.
  intros Hp. revert f' c. induction f as [|f IH]; intros [|f'] c Hf Hf'; [lia..|].
  cbn [finditer_from]. destruct (p c) as [|[a c'] l] eqn:Hc.
  - destruct (ahead c) as [|x rest] eqn:Ha; [done|]. simpl in *. apply IH; simpl; lia.
  - f_equal. assert (length (ahead c') < length (ahead c))%nat by (apply (Hp c a c'); rewrite Hc; left).
    apply IH; lia.
Qed.

(** The groups of an iteration come from matches at places of the text. *)
Lemma finditer_match {A} (p : pat A) f c a :
  Consumes p → a ∈ finditer_from f p c → ∃ c0 c1 pre, (a, c1) ∈ p c0 ∧ ahead c = pre ++ ahead c0.
Proof.
  intros Hp. revert c. induction f as [|f IH]; intros c; cbn [finditer_from]; [by intros ?%elem_of_nil|].
  destruct (p c) as [|[b c'] l] eqn:Hc.
  - destruct (ahead c) as [|x rest] eqn:Ha; [by intros ?%elem_of_nil|].
    intros (c0 & c1 & pre & H & Hpre)%IH. exists c0, c1, (x :: pre). simpl in *. by rewrite Hpre.
  - assert ((b, c') ∈ p c) as Hin by (rewrite Hc; left).
    intros [->|(c0 & c1 & pre & H & Hpre)%IH]%elem_of_cons.
    + by exists c, c', [].
    + destruct (Hp _ _ _ Hin) as [xs Hxs]. exists c0, c1, (xs ++ pre). by rewrite Hxs, Hpre, app_assoc.
Qed.

#[export] Instance consumes_one_or_two : Consumes one_or_two.
Proof. unfold one_or_two. apply _. Qed.
#[export] Instance consumes_blanks : Consumes blanks.
Proof. unfold blanks. apply _. Qed.
#[export] Instance consumes_blanks1 : Consumes blanks1.
Proof. unfold blanks1, plus. apply _. Qed.
#[export] Instance consumes_months : Consumes (alt ((λ x, word x.1) <$> _MONTH_NUMBERS)).
Proof. apply consumes_alt, Forall_fmap, Forall_forall. intros x _. simpl. apply _. Qed.
#[export] Instance consumes_ENGLISH : Consumes _ENGLISH_DATE.
Proof. unfold _ENGLISH_DATE. apply _. Qed.

(** Every date pattern advances, so that [finditer] sees each place of the text. *)
Lemma date_patterns_advance :
  Advances _ISO_DATE ∧ Advances _KOREAN_DATE ∧ Advances _ENGLISH_DATE ∧ Advances _SLASH_DATE.
Proof.
  assert (∀ {A} (k : Z → pat A), (∀ d, Consumes (k d)) → Advances (d ← one_or_two; k d)) as Hnum
    by (intros A k Hk; apply advances_bind_l; apply _).
  split_and!.
  - apply advances_bind_r; [apply _|intros _]. apply advances_bind_l; [apply advances_bind_l; apply _|apply _].
  - apply Hnum. apply _.
  - do 5 (apply advances_bind_r; [apply _|intros ?]). apply Hnum. apply _.
  - apply advances_bind_r; [apply _|intros _]. apply Hnum. apply _.
Qed.

(** *** Months *)

Definition is_ascii (c : char) : Prop := is_Some (ascii_code c).
Fixpoint lower_letters (s : text) : Prop :=
  match s with EmptyString => True | String a rest => (97 <= N_of_ascii a <= 122)%N ∧ lower_letters rest end.

Lemma unchars_cons x xs : unchars (x :: xs) = (x +:+ unchars xs)%string.
Proof.
  unfold unchars. destruct xs as [|y ys]; [|done]. cbn [join].
  induction x as [|a x IH]; [done|]. by rewrite text_cons_app, <- IH.
Qed.

Lemma letter_lower a c :
  (97 <= N_of_ascii a <= 122)%N → is_ascii c → matches_letter a c = true →
  ∃ b, c = String b "" ∧ lower_ascii c = String a "".
Proof.
  intros Ha [n Hn] Hm. unfold matches_letter in Hm. rewrite Hn in Hm. apply N.eqb_eq in Hm.
  unfold ascii_code in Hn. destruct c as [|b [|? ?]]; try done.
  destruct (N_of_ascii b <? 128)%N; [|done]. injection Hn as <-. rewrite ascii_N_embedding in Hm.
  exists b. split; [done|]. cbn [lower_ascii]. unfold ascii_lower in Hm.
  destruct ((65 <=? N_of_ascii b) && (N_of_ascii b <=? 90))%N.
  - by rewrite Hm, ascii_N_embedding.
  - by rewrite <- (ascii_N_embedding a), <- Hm, ascii_N_embedding.
Qed.

(** On ASCII text a matched word is the word, up to case. *)
Lemma word_lower s c xs c' :
  lower_letters s → Forall is_ascii (ahead c) → (xs, c') ∈ word s c → lower_ascii (unchars xs) = s.
Proof.
  revert c xs. induction s as [|a s IH]; intros c xs Hs Hc; cbn [word].
  { by intros [= -> ->]%list_elem_of_singleton. }
  destruct Hs as [Ha Hs]. destruct (Ascii.eqb_spec a " ") as [->|_]; [vm_compute in Ha; by destruct Ha|].
  intros (x & c1 & H1 & (ys & c2 & H2 & [= -> ->]%list_elem_of_singleton)%elem_of_bind)%elem_of_bind.
  unfold one in H1. destruct (ahead c) as [|x' rest] eqn:Hahead; [by apply elem_of_nil in H1|].
  destruct (matches_letter a x') eqn:Hm; [|by apply elem_of_nil in H1].
  apply list_elem_of_singleton in H1 as [= -> ->]. apply Forall_cons in Hc as [Hx Hrest].
  destruct (letter_lower a x' Ha Hx Hm) as (b & -> & Hb).
  rewrite unchars_cons, text_cons_app. cbn [lower_ascii] in Hb |- *. injection Hb as Hb.
  rewrite Hb. f_equal. eapply (IH (mk_cursor _ rest)); [exact Hs|exact Hrest|exact H2].
Qed.

Lemma month_names : Forall (λ x, lower_letters x.1) _MONTH_NUMBERS.
Proof.
  unfold _MONTH_NUMBERS. repeat (apply Forall_cons; split); [cbn; repeat split; vm_compute; discriminate..|].
  by apply Forall_nil.
Qed.

Lemma month_number_known x : x ∈ _MONTH_NUMBERS → ∀ m, lower_ascii (unchars m) = x.1 → ∃ n, month_number m = Ok n.
Proof.
  intros Hx m Hm. unfold month_number. destruct (sql_find _ _) as [[t n]|] eqn:Hf; [eauto|].
  apply sql_find_None in Hf. rewrite sql_exists_false in Hf. specialize (Hf x Hx). simpl in Hf.
  rewrite Hm, bool_decide_eq_true_2 in Hf; done.
Qed.

Lemma english_months_known cs month d :
  Forall is_ascii cs → (month, d) ∈ finditer _ENGLISH_DATE cs → ∃ n, month_number month = Ok n.
Proof.
  intros Hcs Hin. unfold finditer in Hin. apply finditer_match in Hin as (c0 & c1 & pre & Hm & Hpre); [|apply _].
  simpl in Hpre. rewrite Hpre in Hcs. apply Forall_app in Hcs as [_ Hcs].
  unfold _ENGLISH_DATE in Hm. apply elem_of_bind in Hm as (u & c2 & Hb & Hm).
  destruct (consumes_boundary _ _ _ Hb) as [xs Hxs]. rewrite Hxs in Hcs. apply Forall_app in Hcs as [_ Hcs].
  apply elem_of_bind in Hm as (m & c3 & Halt & Hm).
  assert (month = m) as ->.
  { repeat (apply elem_of_bind in Hm as (? & ? & _ & Hm)). by apply list_elem_of_singleton in Hm as [= -> _]. }
  unfold alt in Halt. apply list_elem_of_bind in Halt as (p & Hp & (x & -> & Hx)%list_elem_of_fmap).
  apply (month_number_known x Hx). eapply word_lower; [|exact Hcs|exact Hp].
  pose proof month_names as Hnames. rewrite Forall_forall in Hnames. by apply Hnames.
Qed.

(** ** Dates *)

Lemma safe_date_some y m d r : _safe_date y m d = Some r ↔ r = mk_date y m d ∧ valid_date r = true.
Proof.
  unfold _safe_date. rewrite <- make_date_ok. destruct (make_date y m d); split; by intros [= ->].
Qed.

(** Where the year is missing, the date found is the nearest: from seven days ago to a
    year ahead. *)
Lemma yearless_near today m d grace r :
  valid_date today = true → add_days today (- _ROLLOVER_GRACE) = Ok grace →
  (c ← _safe_date (year today) m d;
   if date_ltb c grace then _safe_date (year today + 1) m d else Some c) = Some r →
  valid_date r = true ∧ -7 ≤ days_between r today ≤ 365.
Proof.
  intros Htoday Hgrace Hr. apply bind_Some in Hr as (c & Hc & Hr). apply safe_date_some in Hc as [-> Hc].
  apply add_days_ok in Hgrace as [Hgv Hg]. unfold days_between, _ROLLOVER_GRACE in *.
  pose proof (toordinal_in_year _ Htoday). pose proof (toordinal_in_year _ Hc) as Hcy. cbn [year] in Hcy.
  rewrite date_ltb_ordinal in Hr by done. destruct (Z.ltb_spec (toordinal (mk_date (year today) m d)) (toordinal grace)).
  - apply safe_date_some in Hr as [-> Hr]. split; [done|].
    pose proof (toordinal_next_year (year today) m d). pose proof (toordinal_in_year _ Hr) as Hry. cbn [year] in Hry. lia.
  - injection Hr as <-. split; [done|]. rewrite days_before_year_succ in *.
    assert (year_length (year today) ≤ 366) by (unfold year_length; by destruct (_is_leap_year _)). lia.
Qed.

Lemma yearless_dates_near today pairs ds :
  valid_date today = true → _yearless_dates pairs today = Ok ds →
  Forall (λ r, valid_date r = true ∧ -7 ≤ days_between r today ≤ 365) ds.
Proof.
  intros Htoday. revert ds. induction pairs as [|p pairs IH]; intros ds; cbn [_yearless_dates].
  { intros [= <-]. constructor. }
  intros H. res_inv H. injection H as <-. apply Forall_app. split; [|by apply IH].
  destruct x0 as [r|]; [|constructor]. apply Forall_singleton.
  destruct (_safe_date (year today) x.1 x.2) as [c|] eqn:Hc; [|done].
  res_inv Hx0. unfold lift_scan in Hx2. destruct (add_days today (- _ROLLOVER_GRACE)) as [g|] eqn:Hg; [|done].
  injection Hx2 as ->. eapply (yearless_near today x.1 x.2); [done|done|]. rewrite Hc. simpl.
  injection Hx0 as Hx0. destruct (date_ltb c x0); congruence.
Qed.

Lemma yearless_dates_total today pairs :
  8 ≤ toordinal today ≤ MAXORDINAL → Forall (λ p, ∃ md, p = Ok md) pairs →
  ∃ ds, _yearless_dates pairs today = Ok ds.
Proof.
  intros Htoday. induction 1 as [|p pairs [md ->] Hpairs [ds IH]]; cbn [_yearless_dates]; [by eexists|].
  res_step. destruct (add_days_total today (- _ROLLOVER_GRACE)) as [g Hg]; [unfold _ROLLOVER_GRACE; lia|].
  destruct (_safe_date (year today) md.1 md.2); [rewrite Hg|]; res_step; rewrite IH; res_step; eauto.
Qed.

Lemma relative_dates_total patterns cs today :
  Forall (λ p, 0 ≤ p.2 ≤ 2) patterns → 1 ≤ toordinal today → toordinal today + 2 ≤ MAXORDINAL →
  ∃ ds, relative_dates patterns cs today = Ok ds.
Proof.
  intros Hp H1 H2. induction Hp as [|[p n] patterns Hn _ [ds IH]]; cbn [relative_dates]; [by eexists|].
  destruct (search p cs); [|eauto]. simpl in Hn.
  destruct (add_days_total today n) as [r Hr]; [lia|]. rewrite Hr. cbn [lift_scan]. res_step. rewrite IH. eauto.
Qed.

(** Mail in ASCII never makes the scan fail, away from the ends of the calendar. *)
Theorem ascii_scan_returns s today :
  Forall is_ascii (chars s) → 8 ≤ toordinal today → toordinal today + 2 ≤ MAXORDINAL →
  ∃ scan, scan_deadline_text s today = Ok scan.
Proof.
  intros Hascii H1 H2. unfold scan_deadline_text.
  set (cs := take _MAX_SCAN_LENGTH (chars s)).
  assert (Forall is_ascii cs) as Hcs by (by apply Forall_take).
  destruct (_first_marker cs) as [m|]; [|by eexists].
  assert (∀ ps : list (Z * Z), ∃ ds, _yearless_dates (Ok <$> ps) today = Ok ds) as Hplain.
  { intros ps. apply yearless_dates_total; [lia|]. apply Forall_fmap, Forall_forall. intros md _. by exists md. }
  unfold _date_candidates. destruct (Hplain (finditer _KOREAN_DATE cs)) as [ds1 Hds1].
  unfold _korean_dates. rewrite Hds1. res_step.
  destruct (yearless_dates_total today ((λ '(month, d), n ← month_number month; mret (n, d)) <$> finditer _ENGLISH_DATE cs))
    as [ds2 Hds2].
  { lia. }
  { apply Forall_fmap, Forall_forall. intros [month d] Hin. simpl.
    destruct (english_months_known cs month d Hcs Hin) as [n ->]. by exists (n, d). }
  unfold _english_dates. rewrite Hds2. res_step.
  destruct (Hplain (finditer _SLASH_DATE cs)) as [ds3 Hds3]. unfold _slash_dates. rewrite Hds3. res_step.
  destruct (relative_dates_total _RELATIVE cs today) as [ds4 Hds4]; [|lia..|].
  { unfold _RELATIVE. repeat (apply Forall_cons; split; [simpl; lia|]). by apply Forall_nil. }
  unfold _relative_dates. rewrite Hds4. res_step. eauto.
Qed.

(** *** The marker and the date *)

Lemma unchars_chars s : unchars (chars s) = s.
Proof.
  induction s as [|a s IH]; [done|]. cbn [chars]. destruct (chars s) as [|c cs] eqn:Hcs.
  - destruct s as [|b s]; [done|]. discriminate IH.
  - destruct s as [|b s]; [done|]. destruct (continuation b);
      rewrite unchars_cons, text_cons_app; f_equal; rewrite <- IH, unchars_cons; done.
Qed.
Lemma unchars_app xs ys : unchars (xs ++ ys) = (unchars xs +:+ unchars ys)%string.
Proof.
  induction xs as [|x xs IH]; [done|]. cbn [app]. rewrite !unchars_cons, IH. by rewrite text_app_assoc.
Qed.

#[export] Instance consumes_skip {A} (p : pat A) : Consumes p → Consumes (skip p).
Proof. unfold skip. apply _. Qed.
#[export] Instance consumes_bounded {A} (p : pat A) : Consumes p → Consumes (bounded p).
Proof. unfold bounded. apply _. Qed.
Lemma markers_consume : Forall Consumes _MARKERS.
Proof. unfold _MARKERS. repeat (apply Forall_cons; split; [apply _|]). by apply Forall_nil. Qed.

Lemma first_match_infix (ps : list (pat unit)) cs m :
  Forall Consumes ps → first_match ps cs = Some m → ∃ pre mid post, cs = pre ++ mid ++ post ∧ m = unchars mid.
Proof.
  induction 1 as [|p ps Hp _ IH]; cbn [first_match]; [done|].
  destruct (search p cs) as [mid|] eqn:Hs; [|done]. intros [= <-].
  apply search_from_infix in Hs as (pre & post & ->); [|done]. by exists pre, mid, post.
Qed.

Lemma min_date_least ds r :
  Forall (λ d, valid_date d = true) ds → min_date ds = Some r →
  r ∈ ds ∧ Forall (λ d, toordinal r ≤ toordinal d) ds.
Proof.
  destruct ds as [|d ds]; [done|]. intros [Hd Hds]%Forall_cons [= <-].
  revert d Hd. induction ds as [|x ds IH]; intros d Hd; cbn [foldl].
  { split; [by left|]. by apply Forall_singleton. }
  apply Forall_cons in Hds as [Hx Hds]. rewrite date_ltb_ordinal by done.
  destruct (Z.ltb_spec (toordinal x) (toordinal d)).
  - destruct (IH Hds x Hx) as [Hin Hmin]. apply Forall_cons in Hmin as [Hhd Hmin].
    split; [by right|]. repeat (apply Forall_cons; split); [lia|lia|done].
  - destruct (IH Hds d Hd) as [Hin Hmin]. apply Forall_cons in Hmin as [Hhd Hmin].
    split; [apply elem_of_cons in Hin as [->|Hin]; [by left|by right; right]|].
    repeat (apply Forall_cons; split); [lia|lia|done].
Qed.

Lemma iso_dates_valid cs : Forall (λ d, valid_date d = true) (_iso_dates cs).
Proof.
  apply Forall_forall. intros d (((y & m) & dd) & _ & H)%list_elem_of_omap.
  by apply safe_date_some in H as [-> H].
Qed.
Lemma relative_dates_valid patterns cs today ds :
  relative_dates patterns cs today = Ok ds → Forall (λ d, valid_date d = true) ds.
Proof.
  revert ds. induction patterns as [|[p n] ps IH]; intros ds; cbn [relative_dates].
  { intros [= <-]. constructor. }
  destruct (search p cs); [|apply IH]. intros H. res_inv H. injection H as <-.
  unfold lift_scan in Hx. destruct (add_days today n) as [r|] eqn:Hr; [|done]. injection Hx as <-.
  apply add_days_ok in Hr as [Hv _]. constructor; [done|by apply IH].
Qed.
Lemma candidates_valid cs today ds :
  valid_date today = true → _date_candidates cs today = Ok ds → Forall (λ d, valid_date d = true) ds.
Proof.
  intros Ht H. unfold _date_candidates in H. res_inv H. injection H as <-.
  assert (∀ ps r, _yearless_dates ps today = Ok r → Forall (λ d, valid_date d = true) r) as Hy.
  { intros ps r Hr. eapply Forall_impl; [by eapply yearless_dates_near|]. by intros ? [? _]. }
  rewrite !Forall_app. split_and!; [apply iso_dates_valid|by eapply Hy..|by eapply relative_dates_valid].
Qed.
End Matches.

(** The scanned part of a text holds deadline language. *)
Definition holds_marker `{T : CharTables} (s : text) : Prop :=
  ∃ p, p ∈ _MARKERS ∧ search p (take _MAX_SCAN_LENGTH (chars s)) ≠ None.

Lemma first_match_some `{T : CharTables} ps cs :
  is_Some (first_match ps cs) ↔ ∃ p, p ∈ ps ∧ search p cs ≠ None.
Proof.
  induction ps as [|p ps IH]; cbn [first_match].
  { split; [by intros [? ?]|by intros (? & ?%elem_of_nil & _)]. }
  destruct (search p cs) as [m|] eqn:Hs.
  - split; [|by eauto]. intros _. exists p. split; [left|]. by rewrite Hs.
  - rewrite IH. split; intros (q & Hq & Hne).
    + exists q. split; [by right|done].
    + apply elem_of_cons in Hq as [->|Hq]; [done|]. by exists q.
Qed.

(** What a scan of any text quotes is a piece of it, and it quotes something exactly when the
    text holds a marker. *)
Lemma scan_marker `{T : CharTables} s today scan :
  scan_deadline_text s today = Ok scan →
  (is_Some (matched_marker scan) ↔ holds_marker s) ∧
  ∀ m, matched_marker scan = Some m → ∃ pre post, s = (pre +:+ m +:+ post)%string.
Proof.
  unfold scan_deadline_text, _first_marker, holds_marker. set (cs := take _MAX_SCAN_LENGTH (chars s)).
  rewrite <- first_match_some. destruct (first_match _MARKERS cs) as [m|] eqn:Hm.
  - intros H. res_inv H. injection H as <-. cbn [matched_marker]. split; [done|]. intros ? [= <-].
    apply first_match_infix in Hm as (pre & mid & post & Hcs & ->); [|apply markers_consume].
    exists (unchars pre), (unchars (post ++ drop _MAX_SCAN_LENGTH (chars s))).
    rewrite <- !unchars_app, !app_assoc, <- (app_assoc pre), <- Hcs.
    unfold cs. by rewrite take_drop, unchars_chars.
  - intros [= <-]. cbn [matched_marker]. split; [done|by intros m].
Qed.

(** The marker a scan reports is quoted from the text, within the scanned length, and a scan
    finds a marker exactly when one of the patterns matches there; without a marker no date
    is reported; and the date reported is the earliest of the candidates. *)
Theorem scan_quotes_the_text `{T : CharTables} s today scan :
  valid_date today = true → scan_deadline_text s today = Ok scan →
  match matched_marker scan with
  | None =>
      deadline_date scan = None ∧
      Forall (λ p, search p (take _MAX_SCAN_LENGTH (chars s)) = None) _MARKERS
  | Some m =>
      (∃ pre mid post, take _MAX_SCAN_LENGTH (chars s) = pre ++ mid ++ post ∧ m = unchars mid) ∧
      (∃ pre post, s = pre +:+ m +:+ post)%string ∧
      ∃ ds, _date_candidates (take _MAX_SCAN_LENGTH (chars s)) today = Ok ds ∧
        match deadline_date scan with
        | None => ds = []
        | Some d => d ∈ ds ∧ Forall (λ d', toordinal d ≤ toordinal d') ds
        end
  end.
Proof.
  intros Ht Hscan. pose proof (proj2 (scan_marker s today scan Hscan)) as Hquote. revert Hscan Hquote.
  unfold scan_deadline_text, _first_marker. set (cs := take _MAX_SCAN_LENGTH (chars s)).
  destruct (first_match _MARKERS cs) as [m|] eqn:Hm.
  - intros H. res_inv H. injection H as <-. cbn [matched_marker deadline_date]. intros Hquote.
    pose proof (Hquote _ eq_refl) as Hpiece.
    apply first_match_infix in Hm as (pre & mid & post & Hcs & ->); [|apply markers_consume].
    split_and!; [by eauto|done|].
    + exists x. split; [done|]. destruct (min_date x) as [d|] eqn:Hd.
      * apply min_date_least; [by eapply candidates_valid|done].
      * by destruct x.
  - intros [= <-] _. cbn [matched_marker deadline_date]. split; [done|].
    revert Hm. generalize _MARKERS as ps. induction ps as [|p ps IH]; cbn [first_match]; [by constructor|].
    destruct (search p cs) eqn:Hs; [done|]. constructor; eauto.
Qed.
Lemma scan_quotes_the_text_witness :
  ∃ scan, scan_at "Please reply by Mar. 20" = Ok scan ∧
    (∃ pre post, "Please reply by Mar. 20" = pre +:+ default "" (matched_marker scan) +:+ post)%string.
Proof.
  eexists. split; [vm_compute; reflexivity|].
  refine (proj1 (proj2 (scan_quotes_the_text (T := hangul_tables) "Please reply by Mar. 20" (mk_date 2026 3 13)
    (mk_scan (Some "reply by"%string) (Some (mk_date 2026 3 20))) _ _))); [reflexivity|vm_compute; reflexivity].
Defined.

Lemma ascii_scan_returns_witness :
  ∃ scan, scan_at "Please reply by Mar. 20" = Ok scan.
Proof.
  apply (ascii_scan_returns (T := hangul_tables)); [|vm_compute; discriminate..].
  apply Forall_forall. intros c Hc. assert (forallb (λ c, bool_decide (is_Some (ascii_code c))) (chars "Please reply by Mar. 20") = true) as H by (vm_compute; reflexivity).
  rewrite forallb_forall in H. apply list_elem_of_In in Hc. exact (proj1 (bool_decide_eq_true _) (H c Hc)).
Defined.

(** A month without a year is taken in the coming year unless it is at most a week past. *)
Theorem yearless_deadlines_are_near today pairs ds :
  valid_date today = true → _yearless_dates pairs today = Ok ds →
  Forall (λ d, valid_date d = true ∧ -7 ≤ days_between d today ≤ 365) ds.
Proof. apply yearless_dates_near. Qed.
Lemma yearless_deadlines_are_near_witness :
  Forall (λ d, valid_date d = true ∧ -7 ≤ days_between d (mk_date 2026 3 13) ≤ 365)
    [mk_date 2026 3 6; mk_date 2027 3 5].
Proof.
  apply (yearless_deadlines_are_near (mk_date 2026 3 13) [Ok (3, 6); Ok (2, 30); Ok (3, 5)]);
    vm_compute; reflexivity.
Defined.

(** Mail can make the scan raise [KeyError]: the long s matches the pattern's s under
    [IGNORECASE], and lower-casing leaves it as it is. *)
Lemma long_s_month_raises : scan_at "due ſep 3" = Err ScanKeyError.
Proof. vm_compute. reflexivity. Qed.
