(* ===== verification/ReplyDeadline.v ===== *)
(** The reply detector ([situations/reply_deadline.py]) over the inbox threads of
    [situations/inputs.py]: a thread is reported exactly when it waits for the user's answer
    and has aged past the threshold or its text holds a deadline marker. *)
From stdpp Require Import pretty.
From Stdlib Require Import Ascii.
From S2P Require Import Prelude PyDate PyTime Models Memory DeadlineText.
#[local] Open Scope Z_scope.

Inductive InboxThreadDegradationReason :=
  | DegBodySnippetFallback | DegBodyTruncated | DegDirectionMetadataAmbiguous
  | DegDirectionMetadataMissing | DegIdentityHeadersAmbiguous | DegMimeStructureTruncated.
#[export] Instance InboxThreadDegradationReason_eq_dec : EqDecision InboxThreadDegradationReason.
Proof. solve_decision. Defined.

Record InboxThreadSnapshot := mk_thread {
  th_thread_id : text;
  th_latest_message_id : text;
  th_latest_from_user : bool;
  th_user_is_recipient : bool;
  th_latest_message_at : instant;
  th_subject : option text;
  th_sender_display : option text;
  th_snippet : option text;
  th_body_text : option text;
  th_resolution_safe : bool;
  th_degradation_reasons : list InboxThreadDegradationReason;
  th_provider_history_cursor : option text;
}.
Definition is_complete (thread : InboxThreadSnapshot) : bool := th_resolution_safe thread.

Definition DEFAULT_REPLY_THRESHOLD : timedelta := 48 * US_PER_HOUR.
Definition _HIGH_PRIORITY_MAX_DAYS : Z := 1.

(** [str.capitalize] on the ASCII texts built here. *)
Definition upper_ascii_char (a : ascii) : ascii :=
  let n := N_of_ascii a in if ((97 <=? n) && (n <=? 122))%N then ascii_of_N (n - 32) else a.
Definition capitalize (s : text) : text :=
  match s with EmptyString => EmptyString | String a rest => String (upper_ascii_char a) (lower_ascii rest) end.

Definition newline : text := String "010" "".

Definition thread_text (thread : InboxThreadSnapshot) : text :=
  join newline (omap (λ o, o) [th_subject thread; th_body_text thread; th_snippet thread]).

(** [int(delta.total_seconds() // 3600)], rounded down; the floating point value is exact
    for spans of less than 2^53 microseconds, some 285 years. *)
Definition whole_hours (delta : timedelta) : Z := delta / US_PER_HOUR.

Definition optional_entry (k : text) (v : option text) : dict :=
  match v with Some v => [(k, v)] | None => [] end.

Section ReplyDeadline.
Context {T : CharTables}.

Definition _priority (scan : DeadlineScan) (today : date) : SituationPriority :=
  match deadline_date scan with
  | None => Routine
  | Some d => if days_between d today <=? _HIGH_PRIORITY_MAX_DAYS then High else Routine
  end.

Definition reply_key (thread : InboxThreadSnapshot) : text :=
  ("reply_deadline:" +:+ th_thread_id thread +:+ ":" +:+ th_latest_message_id thread)%string.

Definition _detection (thread : InboxThreadSnapshot) (age threshold : timedelta)
    (scan : DeadlineScan) (today : date) : Detection :=
  let age_hours := pretty (whole_hours age) in
  let deadline := date_isoformat <$> deadline_date scan in
  let reasons :=
    (if threshold <=? age
     then ["no reply for " +:+ age_hours +:+ "h (threshold " +:+ pretty (whole_hours threshold) +:+ "h)"]
     else []) ++
    (if has_marker scan
     then ["deadline language detected" +:+
           match deadline with Some d => " for " +:+ d | None => "" end]
     else []) in
  let title :=
    match deadline with
    | Some d => "Reply needed by " +:+ d
    | None => "Reply pending for " +:+ age_hours +:+ "h"
    end in
  mk_detection ReplyDeadline (reply_key thread) (_priority scan today) title
    (capitalize (join "; " reasons))
    (mk_evidence
      ([("thread_id", th_thread_id thread); ("latest_message_id", th_latest_message_id thread);
        ("age_hours", age_hours)] ++ optional_entry "deadline_date" deadline)
      (optional_entry "subject" (th_subject thread) ++ optional_entry "sender" (th_sender_display thread) ++
       optional_entry "matched_deadline_text" (matched_marker scan))
      [] [])
    None.

Definition awaits_reply (thread : InboxThreadSnapshot) : bool :=
  negb (th_latest_from_user thread || negb (th_user_is_recipient thread)).

(** One turn of the loop: [continue] yields nothing. *)
Definition detect_thread (now : instant) (today : date) (threshold : timedelta)
    (thread : InboxThreadSnapshot) : res scan_error (option Detection) :=
  if negb (awaits_reply thread) then mret None else
  let age := now - th_latest_message_at thread in
  scan ← scan_deadline_text (thread_text thread) today;
  if (age <? threshold) && negb (has_marker scan) then mret None else
  mret (Some (_detection thread age threshold scan today)).

Fixpoint detect_threads (threads : list InboxThreadSnapshot) (now : instant) (today : date)
    (threshold : timedelta) : res scan_error (list Detection) :=
  match threads with
  | [] => mret []
  | thread :: rest =>
    found ← detect_thread now today threshold thread;
    detections ← detect_threads rest now today threshold;
    mret (option_list found ++ detections)
  end.

Definition detect_reply_deadlines (threads : list InboxThreadSnapshot) (now : instant) (tz : tzinfo)
    (threshold : timedelta) : res scan_error (list Detection) :=
  today ← lift_scan (local_date now tz);
  detect_threads threads now today threshold.

(** ** What is detected *)

Lemma detect_threads_elem threads now today threshold dets det :
  detect_threads threads now today threshold = Ok dets →
  det ∈ dets ↔ ∃ thread, thread ∈ threads ∧ detect_thread now today threshold thread = Ok (Some det).
Proof.
  revert dets. induction threads as [|th threads IH]; intros dets; cbn [detect_threads].
  { intros [= <-]. split; [by intros ?%elem_of_nil|by intros (? & ?%elem_of_nil & _)]. }
  intros H. res_inv H. injection H as <-. rewrite elem_of_app, (IH _ Hx0). split.
  - intros [Hin|(thread & Hin & Hth)].
    + exists th. split; [left|]. destruct x; [|by apply elem_of_nil in Hin].
      by apply list_elem_of_singleton in Hin as ->.
    + exists thread. split; [by right|done].
  - intros (thread & [->|Hin]%elem_of_cons & Hth); [left|right; eauto].
    rewrite Hth in Hx. injection Hx as <-. by left.
Qed.

Lemma detect_thread_some now today threshold thread det :
  detect_thread now today threshold thread = Ok (Some det) ↔
  ∃ scan, th_latest_from_user thread = false ∧ th_user_is_recipient thread = true ∧
    scan_deadline_text (thread_text thread) today = Ok scan ∧
    (threshold ≤ now - th_latest_message_at thread ∨ is_Some (matched_marker scan)) ∧
    det = _detection thread (now - th_latest_message_at thread) threshold scan today.
Proof.
  unfold detect_thread, awaits_reply.
  destruct (th_latest_from_user thread); cbn [negb orb]; [by split; [|intros (? & ? & _)]|].
  destruct (th_user_is_recipient thread); cbn [negb]; [|by split; [|intros (? & _ & ? & _)]].
  rewrite res_bind_ok. split.
  - intros (scan & Hscan & H). exists scan. split_and!; try done.
    + destruct (Z.ltb_spec (now - th_latest_message_at thread) threshold); [|by left].
      right. apply (bool_decide_eq_true_1 _). destruct (has_marker scan) eqn:Hm; [done|discriminate H].
    + destruct ((_ <? _) && _); [done|]. by injection H as <-.
  - intros (scan & _ & _ & Hscan & Hwhy & ->). exists scan. split; [done|].
    assert ((now - th_latest_message_at thread <? threshold) && negb (has_marker scan) = false) as ->; [|done].
    apply andb_false_iff. destruct Hwhy as [Hage|Hm]; [left; lia|right].
    unfold has_marker. by rewrite bool_decide_eq_true_2.
Qed.


(** Mail in ASCII never stops the detector, away from the ends of the calendar. *)
Lemma detect_threads_total threads now today threshold :
  Forall (λ thread, ∃ scan, scan_deadline_text (thread_text thread) today = Ok scan) threads →
  ∃ dets, detect_threads threads now today threshold = Ok dets.
Proof.
  induction 1 as [|thread threads [scan Hscan] _ [dets IH]]; cbn [detect_threads]; [by eexists|].
  assert (∃ o, detect_thread now today threshold thread = Ok o) as [o ->].
  { unfold detect_thread. destruct (negb _); [by eexists|]. rewrite Hscan. res_step.
    destruct (_ && _); by eexists. }
  res_step. rewrite IH. by eexists.
Qed.
End ReplyDeadline.

(** ** Concrete threads *)

Definition sample_thread (from_user : bool) (at_ : instant) (subject : text) : InboxThreadSnapshot :=
  mk_thread "t1" "m9" from_user true at_ (Some subject) (Some "Ana"%string) None
    (Some "please reply by 2026-03-14"%string) true [] None.
Definition mail_now : instant := 63909000000000000.
Definition sample_reply : list Detection :=
  match detect_reply_deadlines (T := hangul_tables)
    [sample_thread false (mail_now - 3 * US_PER_HOUR) "Contract"; sample_thread true 0 "mine"]
    mail_now UTC DEFAULT_REPLY_THRESHOLD with Ok dets => dets | Err _ => [] end.

Example sample_reply_texts :
  (λ x, (d_dedupe_key x, d_priority x, d_title x, d_why_now x)) <$> sample_reply =
    [("reply_deadline:t1:m9", High, "Reply needed by 2026-03-14",
      "Deadline language detected for 2026-03-14")]%string.
Proof. vm_compute. reflexivity. Qed.

