(* ===== verification/Transport.v ===== *)
(** Reading Google over HTTP: the bounded streaming GET of [sources/transport.py] and the
    budgeted transports of [sources/__init__.py], behind the interface the adapters are
    written against.  A session, its responses and the chunks of their bodies are what the
    network does: a parameter. *)
From Stdlib Require Import Ascii.
From S2P Require Import Prelude PyDate PyTime Models Memory.
#[local] Open Scope Z_scope.

(** ** Errors of a read *)

Inductive limit_reason := LimitResponse | LimitSync.
#[export] Instance limit_reason_eq_dec : EqDecision limit_reason.
Proof. solve_decision. Defined.

(** What a reader can raise; the last two are exceptions no reader names. *)
Inductive read_error :=
  | InvalidGrantError
  | GoogleTransportError (error_code : SourceErrorCode)
  | GmailError (error_code : SourceErrorCode) (http_status : option Z)
  | GmailBodyLimitError (reason : limit_reason)
  | CalendarError (error_code : SourceErrorCode) (http_status : option Z)
  | ReadTimeError (e : time_error)
  | UnnamedRequestError.

(** ** One streamed GET *)

(** The exceptions of google-auth and requests, as [GoogleAuthenticatedGetTransport.get] tells
    them apart. *)
Inductive session_error :=
  | RefreshError (message : text)
  | RequestsTimeout
  | RequestsConnectionError
  | OtherSessionError.

(** The chunks of a decoded body, which an exception may cut short. *)
Inductive stream :=
  | StreamEnd
  | StreamError (e : session_error)
  | Chunk (bytes : text) (rest : stream).

Record streaming_response := mk_streaming {
  sr_status_code : Z;
  sr_content_length : option text;
  sr_body : stream;
}.

Record GoogleHttpResponse := mk_google_response {
  gr_status_code : Z;
  gr_body : text;
  gr_too_large : bool;
}.

Definition byte_size (s : text) : Z := Z.of_nat (String.length s).
Definition take_bytes (n : Z) (s : text) : text := String.substring 0 (Z.to_nat n) s.

(** [int(text)] of an ASCII header: digits with single underscores between them, signed, with
    blanks around; at most 4300 digits. *)
Fixpoint digits_value (s : text) (acc : Z) (n : nat) (after_digit : bool) : option Z :=
  match s with
  | EmptyString => if after_digit && (n <=? 4300)%nat then Some acc else None
  | String c rest =>
    match digit_value c with
    | Some v => digits_value rest (10 * acc + v) (S n) true
    | None => if Ascii.eqb c "_" && after_digit then digits_value rest acc n false else None
    end
  end.
Definition int_of_text (s : text) : option Z :=
  match rstrip_ascii (lstrip_ascii s) with
  | String c rest =>
    if Ascii.eqb c "-" then Z.opp <$> digits_value rest 0 0 false
    else if Ascii.eqb c "+" then digits_value rest 0 0 false
    else digits_value (String c rest) 0 0 false
  | EmptyString => None
  end.

(** The loop over the chunks: [None] once more than [max_bytes] came. *)
Fixpoint read_chunks (max_bytes : Z) (body : text) (s : stream) : res session_error (option text) :=
  match s with
  | StreamEnd => mret (Some body)
  | StreamError e => Err e
  | Chunk chunk rest =>
    if bool_decide (chunk = ""%string) then read_chunks max_bytes body rest else
    let remaining := max_bytes + 1 - byte_size body in
    let body := (body +:+ take_bytes remaining chunk)%string in
    if max_bytes <? byte_size body then mret None else read_chunks max_bytes body rest
  end.

(** [_GoogleAuthorizedSession.get]. *)
Definition session_get (answer : res session_error streaming_response) (max_bytes : Z)
    : res session_error GoogleHttpResponse :=
  response ← answer;
  let too_large := mk_google_response (sr_status_code response) ""%string true in
  if match sr_content_length response ≫= int_of_text with
     | Some declared => max_bytes <? declared
     | None => false
     end
  then mret too_large else
  body ← read_chunks max_bytes ""%string (sr_body response);
  mret match body with
       | Some body => mk_google_response (sr_status_code response) body false
       | None => too_large
       end.

(** [needle in text]. *)
Fixpoint contains (needle s : text) : bool :=
  String.prefix needle s ||
  match s with EmptyString => false | String _ rest => contains needle rest end.

(** [GoogleAuthenticatedGetTransport.get]. *)
Definition transport_error (e : session_error) : read_error :=
  match e with
  | RefreshError message =>
    if contains "invalid_grant" message then InvalidGrantError else GoogleTransportError unknown
  | RequestsTimeout => GoogleTransportError timeout
  | RequestsConnectionError => GoogleTransportError network
  | OtherSessionError => UnnamedRequestError
  end.
Definition transport_get (answer : res session_error streaming_response) (max_bytes : Z)
    : res read_error GoogleHttpResponse :=
  if max_bytes <? 1 then Err (GoogleTransportError unknown) else
  match session_get answer max_bytes with
  | Ok r => Ok r
  | Err e => Err (transport_error e)
  end.

(** ** The interface of the adapters *)

(** [GmailHttpResponse] and [CalendarHttpResponse]. *)
Record HttpResponse := mk_response {
  hr_status_code : Z;
  hr_body : text;
  hr_limit_reason : option limit_reason;
}.

(** A GET through a transport whose state is [S]. *)
Class SourceTransport (S : Type) := request : text → dict → M S read_error HttpResponse.

(** ** Budgets *)

Definition _MAX_GMAIL_PROFILE_BYTES : Z := 64 * 1024.
Definition _MAX_GMAIL_PAGE_BYTES : Z := 1000000.
Definition _MAX_GMAIL_THREAD_BYTES : Z := 1000000.
Definition _MAX_CALENDAR_PAGE_BYTES : Z := 2000000.
Definition _MAX_SOURCE_SYNC_BYTES : Z := 8000000.
Definition _MAX_SOURCE_SYNC_REQUESTS : Z := 64.
Definition _MAX_GMAIL_SYNC_REQUESTS : Z := 1 + 20 + 200.

(** The budget of one pass, with the requests it sent and the bytes of the bodies it handed
    on, which the class does not keep. *)
Record _SourceReadBudget := mk_budget {
  bytes_remaining : Z;
  requests_remaining : Z;
  sent : list (text * dict * Z);
  received : Z;
}.
Definition fresh_budget (request_capacity : Z) : _SourceReadBudget :=
  mk_budget _MAX_SOURCE_SYNC_BYTES request_capacity [] 0.

Definition request_limit (endpoint_limit : Z) : M _SourceReadBudget read_error Z := λ b,
  if (requests_remaining b <=? 0) || (bytes_remaining b <=? 0) then (Ok 0, b)
  else (Ok (Z.min endpoint_limit (bytes_remaining b)),
        mk_budget (bytes_remaining b) (requests_remaining b - 1) (sent b) (received b)).
Definition consume (size : Z) : M _SourceReadBudget read_error unit :=
  modify (λ b, mk_budget (Z.max 0 (bytes_remaining b - size)) (requests_remaining b) (sent b) (received b)).

Section Transport.
(** What the session answers to the next request, after the ones already sent. *)
Context (session : list (text * dict * Z) → text → dict → res session_error streaming_response).

(** One GET, entered in the log. *)
Definition logged_get (url : text) (query : dict) (max_bytes : Z)
    : M _SourceReadBudget read_error GoogleHttpResponse := λ b,
  let b' := mk_budget (bytes_remaining b) (requests_remaining b) (sent b ++ [(url, query, max_bytes)]) (received b) in
  (transport_get (session (sent b) url query) max_bytes, b').
Definition hand_on (n : Z) : M _SourceReadBudget read_error unit :=
  modify (λ b, mk_budget (bytes_remaining b) (requests_remaining b) (sent b) (received b + n)).

(** What the two transports share. *)
Definition budgeted_request (endpoint_limit : Z) (url : text) (query : dict)
    : M _SourceReadBudget read_error HttpResponse :=
  allowed ← request_limit endpoint_limit;
  if allowed =? 0 then mret (mk_response 200 ""%string (Some LimitSync)) else
  response ← logged_get url query allowed;
  limit_reason ← (
    if gr_too_large response
    then consume allowed;; mret (Some (if allowed <? endpoint_limit then LimitSync else LimitResponse))
    else consume (byte_size (gr_body response));; mret None);
  hand_on (byte_size (gr_body response));;
  mret (mk_response (gr_status_code response) (gr_body response) limit_reason).

(** [url.endswith(suffix)]. *)
Definition ends_with (suffix s : text) : bool :=
  (String.length suffix <=? String.length s)%nat &&
  bool_decide (String.substring (String.length s - String.length suffix) (String.length suffix) s = suffix).

(** [_GmailReadTransport.request]. *)
Definition gmail_endpoint_limit (url : text) : Z :=
  if ends_with "/profile" url then _MAX_GMAIL_PROFILE_BYTES
  else if contains "/threads/" url then _MAX_GMAIL_THREAD_BYTES
  else _MAX_GMAIL_PAGE_BYTES.
Definition gmail_request (url : text) (query : dict) : M _SourceReadBudget read_error HttpResponse :=
  budgeted_request (gmail_endpoint_limit url) url query.

(** [_CalendarReadTransport.request]. *)
Definition calendar_request (url : text) (query : dict) : M _SourceReadBudget read_error HttpResponse :=
  budgeted_request _MAX_CALENDAR_PAGE_BYTES url query.
End Transport.

(** ** What the budget bounds *)

Lemma byte_size_app a b : byte_size (a +:+ b)%string = byte_size a + byte_size b.
Proof. unfold byte_size. rewrite text_length_app. lia. Qed.
Lemma byte_size_nonneg s : 0 ≤ byte_size s.
Proof. unfold byte_size. lia. Qed.

(** A body that is read whole holds at most [max_bytes]. *)
Lemma read_chunks_bound max_bytes s body r :
  byte_size body ≤ max_bytes → read_chunks max_bytes body s = Ok (Some r) → byte_size r ≤ max_bytes.
Proof.
  revert body. induction s as [|e|chunk rest IH]; intros body Hb; cbn [read_chunks].
  - by intros [= <-].
  - done.
  - case_bool_decide; [by apply IH|]. destruct (Z.ltb_spec max_bytes (byte_size (body +:+ take_bytes (max_bytes + 1 - byte_size body) chunk)%string));
      [done|by apply IH].
Qed.

Lemma transport_get_bound answer max_bytes r :
  transport_get answer max_bytes = Ok r → 1 ≤ max_bytes ∧ byte_size (gr_body r) ≤ max_bytes.
Proof.
  unfold transport_get. destruct (Z.ltb_spec max_bytes 1); [done|].
  destruct (session_get answer max_bytes) as [r'|] eqn:Hget; [|done]. intros [= ->]. split; [done|].
  unfold session_get in Hget. res_inv Hget.
  destruct (match sr_content_length x ≫= int_of_text with Some _ => _ | None => _ end).
  { injection Hget as <-. cbn. unfold byte_size. simpl. lia. }
  apply res_bind_ok in Hget as (body & Hbody & [= <-]). destruct body as [body|]; cbn [gr_body].
  - eapply read_chunks_bound; [|exact Hbody]. unfold byte_size. simpl. lia.
  - unfold byte_size. simpl. lia.
Qed.

(** What the requests of a log took from the allowance: the bytes of a body that was handed
    on, the whole limit of one that was too large, nothing where the request raised. *)
Section Log.
Context (session : list (text * dict * Z) → text → dict → res session_error streaming_response).
Definition charge (before : list (text * dict * Z)) (x : text * dict * Z) : Z :=
  match transport_get (session before x.1.1 x.1.2) x.2 with
  | Ok r => if gr_too_large r then x.2 else byte_size (gr_body r)
  | Err _ => 0
  end.
Fixpoint charges (before log : list (text * dict * Z)) : Z :=
  match log with
  | [] => 0
  | x :: rest => charge before x + charges (before ++ [x]) rest
  end.
Definition bytes_left (log : list (text * dict * Z)) : Z := _MAX_SOURCE_SYNC_BYTES - charges [] log.

Lemma charges_snoc before log x :
  charges before (log ++ [x]) = charges before log + charge (before ++ log) x.
Proof.
  revert before. induction log as [|y log IH]; intros before; cbn [app charges].
  - rewrite app_nil_r. lia.
  - rewrite IH, <- app_assoc. cbn [app]. lia.
Qed.

(** Every request of a log asked for the smaller of its endpoint's limit and the bytes that the
    requests before it left, and there were some. *)
Definition asked_within (limit : text → Z) (log : list (text * dict * Z)) : Prop :=
  ∀ before url query asked after, log = before ++ (url, query, asked) :: after →
    asked = Z.min (limit url) (bytes_left before) ∧ 1 ≤ asked.

Lemma asked_within_snoc limit log url query asked :
  asked_within limit log → asked = Z.min (limit url) (bytes_left log) → 1 ≤ asked →
  asked_within limit (log ++ [(url, query, asked)]).
Proof.
  intros Hlog Heq Hge before url' query' asked' after Hsplit.
  destruct after as [|y after _] using rev_ind.
  - by apply app_inj_tail in Hsplit as [<- [= <- <- <-]].
  - rewrite app_comm_cons, app_assoc in Hsplit. apply app_inj_tail in Hsplit as [-> _]. by eapply Hlog.
Qed.
End Log.

(** Bytes handed on and bytes left are within the pass's allowance, requests sent and left
    within its capacity, and no request asked for more than was left. *)
Record budget_ok (session : list (text * dict * Z) → text → dict → res session_error streaming_response)
    (limit : text → Z) (capacity : Z) (b : _SourceReadBudget) : Prop := mk_budget_ok {
  bo_bytes : 0 ≤ bytes_remaining b;
  bo_left : bytes_remaining b = bytes_left session (sent b);
  bo_received : 0 ≤ received b ∧ received b + bytes_remaining b ≤ _MAX_SOURCE_SYNC_BYTES;
  bo_requests : 0 ≤ requests_remaining b ∧ Z.of_nat (length (sent b)) + requests_remaining b ≤ capacity;
  bo_sent : asked_within session limit (sent b);
}.
Definition budget_step session (limit : text → Z) (capacity : Z) (b b' : _SourceReadBudget) : Prop :=
  budget_ok session limit capacity b → budget_ok session limit capacity b' ∧ sent b `prefix_of` sent b'.
#[export] Instance budget_step_preorder session limit capacity : PreOrder (budget_step session limit capacity).
Proof.
  split; [intros b Hb; split; [done|reflexivity]|]. intros b1 b2 b3 H12 H23 H1.
  destruct (H12 H1) as [H2 P12], (H23 H2) as [H3 P23]. split; [done|]. by etrans.
Qed.
Lemma fresh_budget_ok session limit capacity : 0 ≤ capacity → budget_ok session limit capacity (fresh_budget capacity).
Proof.
  intros. split; cbn; [unfold bytes_left, _MAX_SOURCE_SYNC_BYTES; simpl; lia..|].
  intros before url query asked after H0. by destruct before.
Qed.

Lemma budgeted_request_run session limit url query b :
  budgeted_request session limit url query b =
  if (requests_remaining b <=? 0) || (bytes_remaining b <=? 0) then (Ok (mk_response 200 "" (Some LimitSync)), b) else
  let allowed := Z.min limit (bytes_remaining b) in
  if allowed =? 0
  then (Ok (mk_response 200 "" (Some LimitSync)),
        mk_budget (bytes_remaining b) (requests_remaining b - 1) (sent b) (received b)) else
  let sent' := sent b ++ [(url, query, allowed)] in
  match transport_get (session (sent b) url query) allowed with
  | Err e => (Err e, mk_budget (bytes_remaining b) (requests_remaining b - 1) sent' (received b))
  | Ok r =>
    (Ok (mk_response (gr_status_code r) (gr_body r)
       (if gr_too_large r then Some (if allowed <? limit then LimitSync else LimitResponse) else None)),
     mk_budget (Z.max 0 (bytes_remaining b - (if gr_too_large r then allowed else byte_size (gr_body r))))
       (requests_remaining b - 1) sent' (received b + byte_size (gr_body r)))
  end.
Proof.
  unfold budgeted_request, request_limit. unfold mbind at 1, M_bind at 1.
  destruct (_ || _); [done|]. destruct (_ =? 0); [done|].
  unfold logged_get. unfold mbind at 1, M_bind at 1. cbn [sent bytes_remaining requests_remaining received].
  destruct (transport_get _ _) as [r|e]; [|done]. by destruct (gr_too_large r).
Qed.

Lemma budgeted_request_step capacity session limit url query :
  1 ≤ limit url →
  Preserves (budget_step session limit capacity) (budgeted_request session (limit url) url query).
Proof.
  intros Hlimit b r b'. rewrite budgeted_request_run.
  destruct (_ || _) eqn:Hleft; [intros [= <- <-]; reflexivity|]. apply orb_false_iff in Hleft as [Hr Hb].
  set (allowed := Z.min (limit url) (bytes_remaining b)). cbv zeta.
  destruct (Z.eqb_spec allowed 0); [intros [= <- <-] [? ? ? ? ?]; split; [split; simpl; try done; lia|reflexivity]|].
  assert (Hsnoc : budget_ok session limit capacity b →
    asked_within session limit (sent b ++ [(url, query, allowed)])).
  { intros [? Hl ? ? ?]. apply asked_within_snoc; [done|by rewrite <- Hl|lia]. }
  destruct (transport_get _ _) as [resp|e] eqn:Hget.
  - pose proof Hget as Hcharge.
    apply transport_get_bound in Hget as [Hge Hle]. pose proof (byte_size_nonneg (gr_body resp)).
    intros [= <- <-] Hok. pose proof (Hsnoc Hok) as Hasked. destruct Hok as [? Hl ? ? ?].
    split; [split; cbn [bytes_remaining received requests_remaining sent]|by apply prefix_app_r].
    + lia.
    + unfold bytes_left in *. rewrite charges_snoc, app_nil_l. unfold charge. cbn [fst snd].
      rewrite Hcharge. destruct (gr_too_large resp); lia.
    + destruct (gr_too_large resp); lia.
    + rewrite length_app. simpl. lia.
    + done.
  - intros [= <- <-] Hok. pose proof (Hsnoc Hok) as Hasked. destruct Hok as [? Hl ? ? ?].
    split; [split; cbn [bytes_remaining received requests_remaining sent]|by apply prefix_app_r].
    + lia.
    + unfold bytes_left in *. rewrite charges_snoc, app_nil_l. unfold charge. cbn [fst snd].
      rewrite Hget. lia.
    + lia.
    + rewrite length_app. simpl. lia.
    + done.
Qed.

#[export] Instance gmail_request_step capacity session url query :
  Preserves (budget_step session gmail_endpoint_limit capacity) (gmail_request session url query).
Proof.
  apply budgeted_request_step. unfold gmail_endpoint_limit.
  destruct (ends_with "/profile" url), (contains "/threads/" url); done.
Qed.
Definition calendar_endpoint_limit (url : text) : Z := _MAX_CALENDAR_PAGE_BYTES.
#[export] Instance calendar_request_step capacity session url query :
  Preserves (budget_step session calendar_endpoint_limit capacity) (calendar_request session url query).
Proof. by apply (budgeted_request_step capacity session calendar_endpoint_limit). Qed.
