(* ===== verification/Config.v ===== *)
(** The user's settings ([config.py], [config_parse.py], [config_raw.py]): the raw tables of
    [config.toml], the parsers of each field, and the settings they accept.  Reading the file
    and pydantic's check of the tables give the raw document, or a failure. *)
From stdpp Require Import pretty.
From S2P Require Import Prelude PyDate PyTime Codec Durations Models Attention Fallback IsoTime Transport.
#[local] Open Scope Z_scope.

(** ** The raw document *)

Inductive TomlValue :=
  | TomlBool (b : bool)
  | TomlInt (n : Z)
  | TomlFloat (x : binary64)
  | TomlStr (s : text)
  | TomlDate (d : date)
  | TomlTime (clock : Z)
  | TomlDatetime (wall : Z) (offset : option Z).

Record RawAttention := mk_raw_attention {
  raw_quiet_hours_start : option TomlValue;
  raw_quiet_hours_end : option TomlValue;
  raw_daily_budget : option TomlValue;
  raw_cooldown_hours : option TomlValue;
  raw_timezone : option TomlValue;
}.
Record RawDetectors := mk_raw_detectors {
  raw_reply_threshold_hours : option TomlValue;
  raw_calendar_high_hours : option TomlValue;
  raw_calendar_critical_hours : option TomlValue;
  raw_occasion_default_lead_days : option TomlValue;
}.
(** The daemon and the fallback tables share a model. *)
Record RawSlice := mk_raw_slice {
  raw_poll_interval_minutes : option TomlValue;
  raw_priorities : option (list TomlValue);
  raw_wait_minutes : option TomlValue;
  raw_enabled : option TomlValue;
}.
Record RawSources := mk_raw_sources { raw_gmail_lookback_days : option TomlValue }.
Record RawConfig := mk_raw_config {
  raw_attention : RawAttention;
  raw_detectors : RawDetectors;
  raw_daemon : RawSlice;
  raw_fallback : RawSlice;
  raw_sources : RawSources;
}.
Definition empty_slice : RawSlice := mk_raw_slice None None None None.
Definition empty_config : RawConfig :=
  mk_raw_config (mk_raw_attention None None None None None) (mk_raw_detectors None None None None)
    empty_slice empty_slice (mk_raw_sources None).

(** What reading, decoding, parsing and validating the file gave: a validated document, or what
    was raised. [FileNotFoundError] is the missing file; the other [OSError]s and the three errors
    named beside them in the handler are told apart from the two that are in none of its classes:
    the plain [ValueError] of a decimal integer of more than 4300 digits, which [tomllib] leaves
    to [int], and the [RecursionError] of deeply nested values. *)
Inductive caught_error := ReadOSError | UnicodeDecodeError | TOMLDecodeError | ValidationError.
Inductive uncaught_error := HugeIntegerValueError | NestingRecursionError.
#[export] Instance uncaught_error_eq_dec : EqDecision uncaught_error.
Proof. solve_decision. Defined.
Inductive ConfigFile :=
  | FileMissing
  | FileUnusable (error : caught_error)
  | FileRaising (error : uncaught_error)
  | FileDocument (raw : RawConfig).

(** ** Errors *)

Record ConfigError := mk_config_error { ce_field : text; ce_reason : text }.
#[export] Instance ConfigError_eq_dec : EqDecision ConfigError.
Proof. solve_decision. Defined.

(** What a load can raise: [TimeFailure] is the [OverflowError] of a float duration, [ParserRaised]
    an error of the parser that is not translated. *)
Inductive config_failure :=
  Invalid (error : ConfigError) | TimeFailure (error : time_error) | ParserRaised (error : uncaught_error).
#[export] Instance config_failure_eq_dec : EqDecision config_failure.
Proof. solve_decision. Defined.
Definition invalid {A} (field reason : text) : res config_failure A :=
  Err (Invalid (mk_config_error field reason)).
Definition duration {A} (r : res time_error A) : res config_failure A :=
  match r with Ok a => Ok a | Err e => Err (TimeFailure e) end.

(** ** Field parsers *)

Definition PRIORITIES (name : text) : option SituationPriority :=
  if String.eqb name "critical" then Some Critical
  else if String.eqb name "high" then Some High
  else if String.eqb name "routine" then Some Routine else None.

Definition parse_time (value : option TomlValue) (key : text) (default : time)
    : res config_failure time :=
  match value with
  | None => mret default
  | Some (TomlTime clock) => mret (naive clock)
  | Some (TomlStr s) =>
    match time_fromisoformat s with
    | Some t => mret t
    | None => invalid key "must be an HH:MM string"
    end
  | Some _ => invalid key "must be an HH:MM string"
  end.

Definition parse_count (value : option TomlValue) (key : text) (spec : Z * Z)
    : res config_failure Z :=
  let '(default, maximum) := spec in
  match value with
  | None => mret default
  | Some (TomlInt n) =>
    if (0 <=? n) && (n <=? maximum) then mret n
    else invalid key ("must be an integer between 0 and " +:+ pretty maximum)
  | Some _ => invalid key ("must be an integer between 0 and " +:+ pretty maximum)
  end.

Definition parse_bool (value : option TomlValue) (key : text) (default : bool)
    : res config_failure bool :=
  match value with
  | None => mret default
  | Some (TomlBool b) => mret b
  | Some _ => invalid key "must be a boolean"
  end.

Inductive span_unit := Minutes | Days | Hours.
Definition unit_of (key : text) : span_unit :=
  if ends_with "_minutes" key then Minutes
  else if ends_with "_days" key then Days else Hours.
Definition unit_name (u : span_unit) : text :=
  match u with Minutes => "minutes" | Days => "days" | Hours => "hours" end.
Definition span_maximum (u : span_unit) : Z :=
  match u with Minutes => 60 * 24 * 365 | Days => 365 | Hours => 24 * 365 end.
Definition unit_factor (u : span_unit) : Z :=
  match u with Minutes => US_PER_MINUTE | Days => US_PER_DAY | Hours => US_PER_HOUR end.

Definition parse_span (value : option TomlValue) (key : text) (default : timedelta)
    : res config_failure timedelta :=
  let unit := unit_of key in
  let refused := invalid key ("must be a positive number of " +:+ unit_name unit) in
  match value with
  | None => mret default
  | Some (TomlInt n) =>
    if (0 <? n) && (n <=? span_maximum unit) then mret (n * unit_factor unit) else refused
  | Some (TomlFloat x) =>
    if float_in (`x) (span_maximum unit) then duration (float_span (`x) (unit_factor unit))
    else refused
  | Some _ => refused
  end.

(** The loop of [parse_priorities]; [seen] holds the names so far. *)
Fixpoint collect_priorities (values : list TomlValue) (seen : list SituationPriority)
    : res config_failure (list SituationPriority) :=
  match values with
  | [] => mret []
  | item :: rest =>
    match (match item with TomlStr s => PRIORITIES s | _ => None end) with
    | None => invalid "priorities" "must be one of critical, high, routine"
    | Some name =>
      if bool_decide (name ∈ seen) then invalid "priorities" "must not contain duplicates" else
      names ← collect_priorities rest (name :: seen);
      mret (name :: names)
    end
  end.
Definition parse_priorities (values : option (list TomlValue))
    : res config_failure (list SituationPriority) :=
  match values with
  | None => mret [Critical]
  | Some [] => invalid "priorities" "must not be empty"
  | Some values => collect_priorities values []
  end.

Definition parse_timezone_name (value : option TomlValue) : res config_failure (option text) :=
  match value with
  | None => mret None
  | Some (TomlStr s) =>
    if String.eqb s "" then invalid "timezone" "must be an IANA timezone name" else mret (Some s)
  | Some _ => invalid "timezone" "must be an IANA timezone name"
  end.

(** ** The settings *)

(** [DetectorSettings]. *)
Record DetectorSettings := mk_detectors {
  reply_threshold : timedelta;
  calendar_high_window : timedelta;
  calendar_critical_window : timedelta;
  occasion_default_lead_days : Z;
}.
Definition default_detectors : DetectorSettings :=
  mk_detectors (48 * US_PER_HOUR) (24 * US_PER_HOUR) (2 * US_PER_HOUR) 7.

Record DaemonSettings := mk_daemon_settings { poll_interval : timedelta }.
Definition default_daemon_settings : DaemonSettings := mk_daemon_settings (5 * US_PER_MINUTE).
Definition default_fallback : FallbackSettings :=
  mk_fallback_settings [Critical] (30 * US_PER_MINUTE) true.
Record SourceSettings := mk_source_settings { gmail_lookback : timedelta }.
Definition default_sources : SourceSettings := mk_source_settings (7 * US_PER_DAY).

Record ProactiveConfig := mk_config {
  attention : AttentionSettings;
  detectors : DetectorSettings;
  daemon : DaemonSettings;
  fallback : FallbackSettings;
  sources : SourceSettings;
}.
Definition default_config : ProactiveConfig :=
  mk_config default_attention default_detectors default_daemon_settings default_fallback
    default_sources.

Definition _MAX_DAILY_BUDGET : Z := 1000.
Definition _MAX_LEAD_DAYS : Z := 365.

Definition load_config (path : ConfigFile) : res config_failure ProactiveConfig :=
  match path with
  | FileMissing => mret default_config
  | FileUnusable _ => invalid "config.toml" "cannot be parsed"
  | FileRaising error => Err (ParserRaised error)
  | FileDocument raw =>
    let d := raw_detectors raw in
    let a := raw_attention raw in
    let f := raw_fallback raw in
    high ← parse_span (raw_calendar_high_hours d) "calendar_high_hours" (24 * US_PER_HOUR);
    critical ← parse_span (raw_calendar_critical_hours d) "calendar_critical_hours" (2 * US_PER_HOUR);
    if high <? critical
    then invalid "calendar_critical_hours" "must not exceed calendar_high_hours" else
    quiet_start ← parse_time (raw_quiet_hours_start a) "quiet_hours_start" (naive (21 * US_PER_HOUR));
    quiet_end ← parse_time (raw_quiet_hours_end a) "quiet_hours_end" (naive (7 * US_PER_HOUR));
    budget ← parse_count (raw_daily_budget a) "daily_budget" (4, _MAX_DAILY_BUDGET);
    cooldown ← parse_span (raw_cooldown_hours a) "cooldown_hours" (24 * US_PER_HOUR);
    timezone ← parse_timezone_name (raw_timezone a);
    reply ← parse_span (raw_reply_threshold_hours d) "reply_threshold_hours" (48 * US_PER_HOUR);
    lead ← parse_count (raw_occasion_default_lead_days d) "occasion_default_lead_days"
             (7, _MAX_LEAD_DAYS);
    poll ← parse_span (raw_poll_interval_minutes (raw_daemon raw)) "poll_interval_minutes"
             (5 * US_PER_MINUTE);
    priorities ← parse_priorities (raw_priorities f);
    wait ← parse_span (raw_wait_minutes f) "wait_minutes" (30 * US_PER_MINUTE);
    enabled ← parse_bool (raw_enabled f) "fallback.enabled" true;
    lookback ← parse_span (raw_gmail_lookback_days (raw_sources raw)) "gmail_lookback_days"
                 (7 * US_PER_DAY);
    mret (mk_config (mk_attention_settings quiet_start quiet_end budget cooldown timezone)
            (mk_detectors reply high critical lead) (mk_daemon_settings poll)
            (mk_fallback_settings priorities wait enabled) (mk_source_settings lookback))
  end.

Section Timezone.
(** [ZoneInfo(name)]: [None] for a [ZoneInfoNotFoundError] or a [ValueError]; and the zone of
    [tzlocal], [None] where there is none. *)
Context (zone_info : text → option tzinfo) (get_localzone : option tzinfo).

(** [now.astimezone] raises [OverflowError] at the ends of the calendar. *)
Definition resolve_timezone (name : option text) (now : instant) : res config_failure tzinfo :=
  match name with
  | Some name =>
    match zone_info name with
    | Some tz => mret tz
    | None => invalid "timezone" "is not a known IANA timezone"
    end
  | None =>
    match get_localzone with
    | Some tz => _ ← duration (astimezone now tz); mret tz
    | None => invalid "timezone" "local timezone is unavailable"
    end
  end.
End Timezone.

(** ** What a load accepts *)

(** The fields an error can name. *)
Definition known_fields : list text :=
  ["config.toml"; "calendar_high_hours"; "calendar_critical_hours"; "quiet_hours_start";
   "quiet_hours_end"; "daily_budget"; "cooldown_hours"; "timezone"; "reply_threshold_hours";
   "occasion_default_lead_days"; "poll_interval_minutes"; "priorities"; "wait_minutes";
   "fallback.enabled"; "gmail_lookback_days"]%string.

Definition settings_ok (c : ProactiveConfig) : Prop :=
  0 ≤ daily_budget (attention c) ≤ 1000 ∧ 0 ≤ cooldown (attention c) ∧
  timezone (attention c) ≠ Some ""%string ∧
  0 ≤ reply_threshold (detectors c) ∧
  0 ≤ calendar_critical_window (detectors c) ≤ calendar_high_window (detectors c) ∧
  0 ≤ occasion_default_lead_days (detectors c) ≤ 365 ∧
  0 ≤ poll_interval (daemon c) ∧ 0 ≤ fset_wait (fallback c) ∧ 0 ≤ gmail_lookback (sources c) ∧
  fset_priorities (fallback c) ≠ [] ∧ NoDup (fset_priorities (fallback c)).

(** A field's outcome: an accepted value satisfies [P], and a refusal names a known field. *)
Definition outcome {A} (P : A → Prop) (r : res config_failure A) : Prop :=
  match r with
  | Ok a => P a
  | Err (Invalid e) => ce_field e ∈ known_fields
  | Err (TimeFailure _) | Err (ParserRaised _) => False
  end.

Lemma outcome_bind {A B} (P : A → Prop) (Q : B → Prop) m (f : A → res config_failure B) :
  outcome P m → (∀ a, P a → outcome Q (f a)) → outcome Q (m ≫= f).
Proof. destruct m; simpl; auto. Qed.

Lemma outcome_weaken {A} (P Q : A → Prop) r :
  outcome P r → (∀ a, P a → Q a) → outcome Q r.
Proof. destruct r as [a|[]]; simpl; auto. Qed.

Lemma invalid_outcome {A} (P : A → Prop) key reason :
  key ∈ known_fields → outcome P (invalid key reason).
Proof. done. Qed.

Ltac known := apply invalid_outcome; first [assumption | by apply (bool_decide_unpack _)].

Lemma parse_time_outcome value key default :
  key ∈ known_fields → outcome (λ _, True) (parse_time value key default).
Proof.
  intros Hk. destruct value as [[]|]; simpl; try exact Hk; try exact I.
  destruct (time_fromisoformat _); [exact I|exact Hk].
Qed.

Lemma parse_count_outcome value key default maximum :
  key ∈ known_fields → 0 ≤ default ≤ maximum →
  outcome (λ n, 0 ≤ n ≤ maximum) (parse_count value key (default, maximum)).
Proof.
  intros Hk Hd. destruct value as [[]|]; try exact Hk; [|exact Hd]. cbn [parse_count].
  destruct (_ && _) eqn:Hr; [|exact Hk]. simpl. lia.
Qed.

Lemma parse_bool_outcome value key default :
  key ∈ known_fields → outcome (λ _, True) (parse_bool value key default).
Proof. intros Hk. destruct value as [[]|]; simpl; first [exact Hk|exact I]. Qed.

Lemma parse_span_outcome value key default :
  key ∈ known_fields → 0 ≤ default → outcome (λ d, 0 ≤ d) (parse_span value key default).
Proof.
  intros Hk Hd. assert (0 ≤ unit_factor (unit_of key) ≤ 2 ^ 60) as Hf
    by (destruct (unit_of key); vm_compute; split; discriminate).
  assert (span_maximum (unit_of key) ≤ 2 ^ 60) as Hm by (by destruct (unit_of key)).
  destruct value as [[]|]; try exact Hk; [| |exact Hd]; cbn [parse_span].
  - destruct (_ && _) eqn:Hr; [|exact Hk]. simpl. nia.
  - destruct (float_in _ _) eqn:Hr; [|exact Hk].
    by destruct (float_span_total x _ _ Hr Hm Hf) as (d & -> & Hpos).
Qed.

Lemma collect_priorities_outcome values : ∀ seen,
  outcome (λ names, length names = length values ∧ NoDup names ∧ ∀ name, name ∈ names → name ∉ seen)
    (collect_priorities values seen).
Proof.
  assert ("priorities"%string ∈ known_fields) as Hk by (by apply (bool_decide_unpack _)).
  induction values as [|item rest IH]; intros seen; simpl.
  - split; [done|]. split; [constructor|set_solver].
  - destruct (match item with TomlStr s => PRIORITIES s | _ => None end) as [name|]; [|exact Hk].
    destruct (bool_decide_reflect (name ∈ seen)); [exact Hk|].
    apply (outcome_bind _ _ _ _ (IH (name :: seen))). simpl. intros names (Hlen & Hnd & Hnew).
    split; [by f_equal|]. split; [constructor; [set_solver|done]|set_solver].
Qed.

Lemma parse_priorities_outcome values :
  outcome (λ names, names ≠ [] ∧ NoDup names) (parse_priorities values).
Proof.
  destruct values as [[|v vs]|]; simpl parse_priorities.
  - known.
  - eapply outcome_weaken; [apply (collect_priorities_outcome (v :: vs) [])|].
    intros names (Hlen & Hnd & _). split; [by destruct names|done].
  - simpl. split; [done|]. apply NoDup_singleton.
Qed.

Lemma parse_timezone_name_outcome value :
  outcome (λ name, name ≠ Some ""%string) (parse_timezone_name value).
Proof.
  destruct value as [[| | |s| | |]|]; try known; [|simpl; congruence]. cbn [parse_timezone_name].
  destruct (String.eqb_spec s "") as [_|Hs]; [known|]. simpl. congruence.
Qed.

(** Runs the next field's parser. *)
Ltac field lemma := eapply outcome_bind;
  [first [apply lemma; first [by apply (bool_decide_unpack _)|by vm_compute|by split; vm_compute]|apply lemma]
  |intros; simpl in *].

Lemma default_config_ok : settings_ok default_config.
Proof. vm_compute. repeat split; try discriminate. apply NoDup_singleton. Qed.

(** C37. Loading a missing file gives the defaults. Loading a file whose reading, parsing and
    validation end in a document or in an error the handler names either returns settings in their
    ranges - a budget of 0 to 1000, a lead of 0 to 365 days, no negative duration, a critical
    window within the high window, a nonempty list of distinct fallback priorities, a nonempty zone
    name - or raises a [ConfigError] that names one of the file's fields: no document makes a float
    duration overflow. The two errors of the parser that the handler does not name, of a huge
    integer and of deep nesting, are raised as they are. *)
Theorem loaded_settings_are_in_range path :
  match path with
  | FileMissing => load_config path = Ok default_config ∧ settings_ok default_config
  | FileUnusable _ => load_config path = Err (Invalid (mk_config_error "config.toml" "cannot be parsed"))
  | FileRaising error => load_config path = Err (ParserRaised error)
  | FileDocument _ => outcome settings_ok (load_config path)
  end.
Proof.
  destruct path as [| | |raw]; [by split; [|exact default_config_ok]|done|done|]. cbn [load_config].
  field parse_span_outcome. field parse_span_outcome.
  destruct (Z.ltb_spec a a0) as [|Hle]; [known|].
  field parse_time_outcome. field parse_time_outcome. field parse_count_outcome.
  field parse_span_outcome. field parse_timezone_name_outcome. field parse_span_outcome.
  field parse_count_outcome. field parse_span_outcome. field parse_priorities_outcome.
  field parse_span_outcome. field parse_bool_outcome. field parse_span_outcome.
  unfold _MAX_DAILY_BUDGET, _MAX_LEAD_DAYS in *. unfold settings_ok. simpl. tauto.
Qed.

(** ** Two settings that are accepted and cannot work *)

(** A positive span below half a microsecond becomes a zero duration. *)
Lemma tiny_span_is_zero :
  (λ x, parse_span (Some (TomlFloat x)) "poll_interval_minutes" (5 * US_PER_MINUTE)) <$>
    double 1 (-40) = Some (Ok 0).
Proof. vm_compute. reflexivity. Qed.

(** A quiet hour with an offset is accepted, and each policy decision then raises. *)
Lemma aware_quiet_hour_is_accepted now tz wall :
  astimezone now tz = Ok wall →
  ∃ start, parse_time (Some (TomlStr "21:00+09:00")) "quiet_hours_start" (naive 0) = Ok start ∧
    quiet_state (mk_attention_settings start (naive (7 * US_PER_HOUR)) 4 0 None) tz now = Err TypeError.
Proof.
  intros Hw. exists (75600000000, Some 32400000000). split; [by vm_compute|].
  unfold quiet_state. rewrite Hw. by apply aware_quiet_hours_raise; [|left].
Qed.
