(* ===== verification/CalendarSource.v ===== *)
(** The Calendar adapter ([sources/calendar.py]): typed events from untrusted wire events, and
    the paged read of the primary calendar.  Pydantic's parsing of a page is a parameter. *)
From stdpp Require Import pretty.
From Stdlib Require Import Ascii.
From S2P Require Import Prelude PyDate PyTime Models Memory IsoTime CalendarConflict Transport.
#[local] Open Scope Z_scope.

(** ** Wire events *)

Record _WireEventTime := mk_wire_time { wt_date : option text; wt_date_time : option text }.
Record _WireAttendee := mk_wire_attendee { wa_is_self : bool; wa_response_status : option text }.
Record _WireEvent := mk_wire_event {
  we_id : option text;
  we_status : option text;
  we_summary : option text;
  we_start : option _WireEventTime;
  we_end : option _WireEventTime;
  we_organizer_is_self : option bool;
  we_attendees : list _WireAttendee;
  we_transparency : option text;
}.
Record _WireEventsPage := mk_wire_page { wp_items : list _WireEvent; wp_next_page_token : option text }.

Record CalendarReadResult := mk_calendar_read {
  crr_events : list CalendarEvent;
  crr_fetched_at : text;
  crr_window_start : text;
  crr_window_end : text;
  crr_page_count : Z;
  crr_skipped_count : Z;
}.

Definition CALENDAR_EVENTS_URL : text := "https://www.googleapis.com/calendar/v3/calendars/primary/events".
Definition DEFAULT_LOOKAHEAD : timedelta := 14 * US_PER_DAY.
Definition DEFAULT_MAX_PAGES : nat := 20.
Definition DEFAULT_MAX_RESULTS : Z := 250.
Definition EVENT_FIELDS : text :=
  "items(id,status,summary,start,end,transparency,eventType,recurringEventId,organizer/self,attendees(self,responseStatus)),nextPageToken".

Definition _STATUSES (raw : text) : option EventStatus :=
  if bool_decide (raw = "confirmed"%string) then Some EvConfirmed
  else if bool_decide (raw = "tentative"%string) then Some EvTentative
  else if bool_decide (raw = "cancelled"%string) then Some EvCancelled else None.
Definition _RESPONSES (raw : text) : option ResponseStatus :=
  if bool_decide (raw = "needsAction"%string) then Some NeedsAction
  else if bool_decide (raw = "declined"%string) then Some Declined
  else if bool_decide (raw = "tentative"%string) then Some RespTentative
  else if bool_decide (raw = "accepted"%string) then Some Accepted else None.

Definition _parse_status (raw : option text) : option EventStatus := _STATUSES (default "confirmed"%string raw).
Definition _parse_response (raw : option text) : option ResponseStatus := raw ≫= _RESPONSES.

(** [raw[:-1] + "+00:00" if raw.endswith("Z") else raw]. *)
Definition normalized_zulu (raw : text) : text :=
  if ends_with "Z" raw
  then (String.substring 0 (String.length raw - 1) raw +:+ "+00:00")%string else raw.

(** [None] drops the event; converting an extreme instant to UTC raises [OverflowError], which
    no handler names. *)
Definition _parse_event_time (wire : _WireEventTime) : res time_error (option event_bound) :=
  match wt_date_time wire with
  | Some raw =>
    match datetime_fromisoformat (normalized_zulu raw) with
    | Some (wall, Some offset) => i ← dt_add wall (- offset); mret (Some (TimedInstant i))
    | _ => mret None
    end
  | None => mret (AllDayDate <$> (wt_date wire ≫= date_fromisoformat))
  end.

Definition _parse_bounds (status : EventStatus) (start_wire end_wire : option _WireEventTime)
    : res time_error (option (option event_bound * option event_bound)) :=
  match start_wire, end_wire with
  | None, None => mret (if bool_decide (status = EvCancelled) then Some (None, None) else None)
  | Some start_wire, Some end_wire =>
    start ← _parse_event_time start_wire;
    stop ← _parse_event_time end_wire;
    mret match start, stop with
         | Some start, Some stop => Some (Some start, Some stop)
         | _, _ => None
         end
  | _, _ => mret None
  end.

(** The first attendee that is the user. *)
Definition self_status (attendees : list _WireAttendee) : option ResponseStatus :=
  a ← sql_find wa_is_self attendees; _parse_response (wa_response_status a).

Definition _parse_event (wire : _WireEvent) : res time_error (option CalendarEvent) :=
  match we_id wire, _parse_status (we_status wire) with
  | Some event_id, Some status =>
    if bool_decide (event_id = ""%string) then mret None else
    bounds ← _parse_bounds status (we_start wire) (we_end wire);
    mret match bounds with
         | Some (start, stop) =>
           Some (mk_event event_id status (we_summary wire) start stop
             (default false (we_organizer_is_self wire)) (self_status (we_attendees wire))
             (if bool_decide (we_transparency wire = Some "transparent"%string) then Transparent else Opaque))
         | None => None
         end
  | _, _ => mret None
  end.

(** ** The paged read *)

(** [value.astimezone(UTC).replace(microsecond=0).isoformat()] with [Z] for the offset. *)
Definition _rfc3339_z (t : instant) : text :=
  (date_isoformat (instant_date t) +:+ "T" +:+
   pad 2 (time_of_day t / US_PER_HOUR) +:+ ":" +:+ pad 2 (time_of_day t mod US_PER_HOUR / US_PER_MINUTE) +:+ ":" +:+
   pad 2 (time_of_day t mod US_PER_MINUTE / US_PER_SECOND) +:+ "Z")%string.

Definition lift_read {S A} (r : res time_error A) : M S read_error A :=
  lift match r with Ok a => Ok a | Err e => Err (ReadTimeError e) end.

Section CalendarAdapter.
Context {St : Type} {Tr : SourceTransport St}.
Context (validate_page : text → option _WireEventsPage).

Definition page_query (window_start window_end : text) (page_token : option text) : dict :=
  [("singleEvents", "true"); ("showDeleted", "true"); ("orderBy", "startTime");
   ("maxResults", pretty DEFAULT_MAX_RESULTS); ("timeMin", window_start); ("timeMax", window_end);
   ("fields", EVENT_FIELDS)]%string ++
  match page_token with Some t => [("pageToken"%string, t)] | None => [] end.

(** The checks of one response, then its page. *)
Definition _require_within_limit (response : HttpResponse) : M St read_error unit :=
  match hr_limit_reason response with
  | Some _ => raise (CalendarError resource_limit None)
  | None => mret tt
  end.
Definition read_page (window_start window_end : text) (page_token : option text) : M St read_error _WireEventsPage :=
  response ← request CALENDAR_EVENTS_URL (page_query window_start window_end page_token);
  _require_within_limit response;;
  let status := hr_status_code response in
  if negb (status =? 200) then
    if (status =? 401) || (status =? 403) then raise (CalendarError http_4xx (Some status))
    else if (500 <=? status) && (status <? 600) then raise (CalendarError http_5xx (Some status))
    else raise (CalendarError unknown (Some status))
  else
    match validate_page (hr_body response) with
    | Some page => mret page
    | None => raise (CalendarError unknown None)
    end.

(** The items of a page, in order: events kept and items dropped. *)
Definition collect_items (events : list CalendarEvent) (skipped : Z) (items : list _WireEvent)
    : M St read_error (list CalendarEvent * Z) :=
  for_each (λ acc item,
    event ← lift_read (_parse_event item);
    mret match event with
         | Some event => (acc.1 ++ [event], acc.2)
         | None => (acc.1, acc.2 + 1)
         end) (events, skipped) items.

(** The [while] loop; [n] pages may still be read. *)
Fixpoint read_pages (n : nat) (now : instant) (window_start window_end : text) (page_token : option text)
    (events : list CalendarEvent) (skipped page_count : Z) : M St read_error CalendarReadResult :=
  match n with
  | O => raise (CalendarError unknown None)
  | S n =>
    page ← read_page window_start window_end page_token;
    collected ← collect_items events skipped (wp_items page);
    match wp_next_page_token page with
    | None =>
      mret (mk_calendar_read collected.1 (utc_iso now) window_start window_end (page_count + 1) collected.2)
    | Some token =>
      read_pages n now window_start window_end (Some token) collected.1 collected.2 (page_count + 1)
    end
  end.

Definition list_events (now : instant) : M St read_error CalendarReadResult :=
  window_end ← lift_read (dt_add now DEFAULT_LOOKAHEAD);
  read_pages DEFAULT_MAX_PAGES now (_rfc3339_z now) (_rfc3339_z window_end) None [] 0 0.
End CalendarAdapter.

(** ** What a read returns *)

Lemma date_fromisoformat_valid s d : date_fromisoformat s = Some d → valid_date d = true.
Proof.
  unfold date_fromisoformat. destruct (negb _); [done|].
  intros ([y rest] & _ & (rest' & _ & H)%bind_Some)%bind_Some.
  assert (∀ w wd r, iso_week_date y w wd = Some r → valid_date r = true) as Hweek.
  { intros w wd r. unfold iso_week_date. destruct (_ && _); [|done]. destruct (_ && _) eqn:Ho; [|done].
    intros [= <-]. apply fromordinal_valid. lia. }
  destruct (expect "W"%char rest') as [week|].
  - unfold parse_week_form in H. apply bind_Some in H as ([w rest2] & _ & H).
    destruct rest2; [by eapply Hweek|].
    apply bind_Some in H as (rest3 & _ & H). apply bind_Some in H as ([wd rest4] & _ & H). by eapply Hweek.
  - unfold parse_month_form in H. apply bind_Some in H as ([m rest2] & _ & H).
    apply bind_Some in H as (rest3 & _ & H). apply bind_Some in H as ([dd rest4] & _ & H).
    unfold _is_valid_date in H. destruct (make_date y m dd) as [r|] eqn:Hv; [|done].
    apply make_date_ok in Hv as [-> Hv]. by injection H as <-.
Qed.

(** A bound inside the years Python can represent. *)
Definition bound_ok (b : option event_bound) : Prop :=
  match b with
  | Some (TimedInstant i) => in_range i = true
  | Some (AllDayDate d) => valid_date d = true
  | None => True
  end.
Record event_ok (e : CalendarEvent) : Prop := mk_event_ok {
  eo_id : ev_id e ≠ ""%string;
  eo_start : bound_ok (ev_start e);
  eo_end : bound_ok (ev_end e);
  eo_both : is_Some (ev_start e) ↔ is_Some (ev_end e);
  eo_bounds : ev_status e ≠ EvCancelled → is_Some (ev_start e);
}.

Lemma event_time_ok wire b : _parse_event_time wire = Ok (Some b) → bound_ok (Some b).
Proof.
  unfold _parse_event_time. destruct (wt_date_time wire) as [raw|].
  - destruct (datetime_fromisoformat _) as [[wall [offset|]]|]; [|done..].
    intros (i & [Hi ->]%dt_add_ok & [= <-])%res_bind_ok. done.
  - intros [= H]. destruct (wt_date wire) as [s|]; [|done]. simpl in H.
    destruct (date_fromisoformat s) eqn:Hd; [|done]. injection H as <-. by eapply date_fromisoformat_valid.
Qed.

Lemma parse_event_ok wire e : _parse_event wire = Ok (Some e) → event_ok e ∧ we_id wire = Some (ev_id e).
Proof.
  unfold _parse_event. destruct (we_id wire) as [i|]; [|done]. destruct (_parse_status _) as [st|]; [|done].
  case_bool_decide as Hi; [done|]. intros (b & Hb & H)%res_bind_ok.
  destruct b as [[start stop]|]; [|done]. injection H as <-. split; [|done].
  unfold _parse_bounds in Hb. destruct (we_start wire) as [sw|], (we_end wire) as [ew|]; [|done..|].
  - apply res_bind_ok in Hb as (s & Hs & Hb). apply res_bind_ok in Hb as (t & Ht & Hb).
    destruct s as [s|], t as [t|]; [|done..]. injection Hb as <- <-.
    apply event_time_ok in Hs, Ht. split; cbn; try done; by split; eauto.
  - case_bool_decide as Hst; [|done]. injection Hb as <- <-. split; cbn; try done; by split.
Qed.

Section Reads.
Context {St : Type} {Tr : SourceTransport St}.
Context (validate_page : text → option _WireEventsPage).

(** The pages of a read: from a token to a page without one. *)
Inductive paged (ws we : text) : St → option text → list _WireEvent → nat → St → Prop :=
  | paged_last s tok page s' :
      read_page validate_page ws we tok s = (Ok page, s') → wp_next_page_token page = None →
      paged ws we s tok (wp_items page) 1 s'
  | paged_more s tok page s1 next items n s' :
      read_page validate_page ws we tok s = (Ok page, s1) → wp_next_page_token page = Some next →
      paged ws we s1 (Some next) items n s' → paged ws we s tok (wp_items page ++ items) (S n) s'.

(** Items that were all read as events or dropped, and the events kept. *)
Inductive kept : list _WireEvent → list CalendarEvent → Prop :=
  | kept_nil : kept [] []
  | kept_event w e items events : _parse_event w = Ok (Some e) → kept items events → kept (w :: items) (e :: events)
  | kept_drop w items events : _parse_event w = Ok None → kept items events → kept (w :: items) events.

Lemma kept_app items1 events1 items2 events2 :
  kept items1 events1 → kept items2 events2 → kept (items1 ++ items2) (events1 ++ events2).
Proof. intros H1 H2. induction H1; simpl; [done|by apply kept_event|by apply kept_drop]. Qed.
Lemma kept_length items events : kept items events → (length events ≤ length items)%nat.
Proof. induction 1; simpl; lia. Qed.
Lemma kept_all items events :
  kept items events → length events = length items → Forall2 (λ w e, _parse_event w = Ok (Some e)) items events.
Proof.
  induction 1 as [|w e items events Hw H IH|w items events Hw H IH]; simpl; intros Hlen; [done|..].
  - constructor; auto.
  - apply kept_length in H. lia.
Qed.
(** An item [_parse_event] drops: no id or status it knows, or bounds it cannot read. *)
Definition dropped_item (w : _WireEvent) : bool :=
  match _parse_event w with Ok None => true | _ => false end.
Lemma kept_dropped items events :
  kept items events → sql_count dropped_item items = Z.of_nat (length items) - Z.of_nat (length events).
Proof.
  unfold sql_count.
  induction 1 as [|w e items events Hw H IH|w items events Hw H IH]; [done|..].
  - rewrite filter_cons_False by (unfold dropped_item; by rewrite Hw). cbn [length]. lia.
  - rewrite filter_cons_True by (unfold dropped_item; by rewrite Hw). cbn [length]. lia.
Qed.
Lemma kept_ok items events : kept items events → Forall event_ok events.
Proof. induction 1 as [|w e items events Hw|]; [by constructor| |done]. constructor; [apply (parse_event_ok w e Hw)|done]. Qed.

Lemma collect_items_kept events skipped items (s : St) r s' :
  collect_items events skipped items s = (Ok r, s') →
  ∃ found, s' = s ∧ r.1 = events ++ found ∧ kept items found ∧
    r.2 = skipped + (Z.of_nat (length items) - Z.of_nat (length found)).
Proof.
  unfold collect_items. revert events skipped. induction items as [|w items IH]; intros events skipped.
  { intros [= <- <-]. exists []. rewrite app_nil_r. split_and!; [done..|constructor|simpl; lia]. }
  cbn [for_each]. intros (acc & s1 & (o & s2 & H1 & [= <- <-])%bind_ok & H2)%bind_ok.
  unfold lift_read, lift in H1. destruct (_parse_event w) as [o'|] eqn:Hw; [|done]. injection H1 as -> ->.
  cbn [fst snd] in H2. destruct o as [e|].
  - apply IH in H2 as (found & -> & Heq & Hk & Hn). exists (e :: found).
    split_and!; [done|by rewrite Heq, <- app_assoc|by constructor|]. rewrite Hn. simpl. lia.
  - apply IH in H2 as (found & -> & Heq & Hk & Hn). exists found.
    split_and!; [done|done|by constructor|]. rewrite Hn. simpl. lia.
Qed.

Lemma read_pages_paged n now ws we tok events skipped count s r s' :
  read_pages validate_page n now ws we tok events skipped count s = (Ok r, s') →
  ∃ items found k, paged ws we s tok items k s' ∧ (1 ≤ k ≤ n)%nat ∧ kept items found ∧
    crr_events r = events ++ found ∧ crr_page_count r = count + Z.of_nat k ∧
    crr_skipped_count r = skipped + (Z.of_nat (length items) - Z.of_nat (length found)).
Proof.
  revert tok events skipped count s. induction n as [|n IH]; intros tok events skipped count s; [done|].
  cbn [read_pages]. intros (page & s1 & Hp & (c & s2 & (found & -> & He & Hk & Hs)%collect_items_kept & H)%bind_ok)%bind_ok.
  destruct (wp_next_page_token page) as [next|] eqn:Htok.
  - apply IH in H as (items & found2 & k & Hpg & Hk' & Hkept & -> & -> & ->).
    exists (wp_items page ++ items), (found ++ found2), (S k).
    split_and!; [by econstructor|lia|lia|by apply kept_app|by rewrite He, app_assoc|lia|].
    rewrite Hs, !length_app. lia.
  - injection H as <- <-. exists (wp_items page), found, 1%nat. cbn.
    split_and!; [by constructor|lia|lia|done..].
Qed.

Lemma read_pages_window n now ws we tok events skipped count s r s' :
  read_pages validate_page n now ws we tok events skipped count s = (Ok r, s') →
  crr_window_start r = ws ∧ crr_window_end r = we.
Proof.
  revert tok events skipped count s. induction n as [|n IH]; intros tok events skipped count s; [done|].
  cbn [read_pages]. intros (page & s1 & _ & (c & s2 & _ & H)%bind_ok)%bind_ok.
  destruct (wp_next_page_token page); [by eapply IH|]. injection H as H _. by rewrite <- H.
Qed.

(** C33. A read that returns has followed the page tokens to the last page, within the limit, and
    holds exactly the events its items parse to, in order; its skipped count is the number of
    the items it dropped, so that a read without skipped items is complete.  Every event is well typed: an id, both bounds
    or neither, both unless cancelled, and bounds inside the representable years. *)
Theorem calendar_reads_are_complete now s r s' :
  list_events validate_page now s = (Ok r, s') →
  ∃ items k, paged (crr_window_start r) (crr_window_end r) s None items k s' ∧ (1 ≤ k ≤ DEFAULT_MAX_PAGES)%nat ∧
    crr_page_count r = Z.of_nat k ∧ kept items (crr_events r) ∧ Forall event_ok (crr_events r) ∧
    crr_skipped_count r = sql_count dropped_item items ∧
    (crr_skipped_count r = 0 → Forall2 (λ w e, _parse_event w = Ok (Some e)) items (crr_events r)).
Proof.
  unfold list_events. intros (we & s1 & Hwe & H)%bind_ok.
  unfold lift_read, lift in Hwe. destruct (dt_add now DEFAULT_LOOKAHEAD); [|done]. injection Hwe as -> <-.
  assert (crr_window_start r = _rfc3339_z now ∧ crr_window_end r = _rfc3339_z we) as [-> ->].
  { by eapply read_pages_window. }
  apply read_pages_paged in H as (items & found & k & Hp & Hk & Hkept & He & Hc & Hs).
  simpl in He. rewrite He. pose proof (kept_length _ _ Hkept). exists items, k.
  split_and!; [done|lia|lia|lia|done|by eapply kept_ok|rewrite (kept_dropped _ _ Hkept); lia|].
  intros H0. apply kept_all; [done|lia].
Qed.

(** Whatever the requests preserve, the read preserves. *)
Lemma list_events_preserves (R : relation St) `{!PreOrder R} now :
  (∀ url query, Preserves R (request url query)) → Preserves R (list_events validate_page now).
Proof.
  intros Hreq. unfold list_events. apply preserves_bind; [apply _|apply _|]. intros we.
  assert (∀ n ws we tok events skipped count,
    Preserves R (read_pages validate_page n now ws we tok events skipped count)) as Hpages; [|apply Hpages].
  induction n as [|n IH]; intros ws we' tok events skipped count; cbn [read_pages]; [apply _|].
  apply preserves_bind; [apply _| |].
  - unfold read_page, _require_within_limit. apply preserves_bind; [apply _..|]. intros response.
    apply preserves_bind; [apply _|destruct (hr_limit_reason response); apply _|]. intros _.
    apply preserves_if; [apply _|]. destruct (validate_page _); apply _.
  - intros page. apply preserves_bind; [apply _|unfold collect_items; apply _|]. intros c.
    destruct (wp_next_page_token page); [apply IH|apply _].
Qed.
End Reads.

(** ** Concrete reads *)

Definition wire_event (i start stop : text) : _WireEvent :=
  mk_wire_event (Some i) None (Some "Sync"%string) (Some (mk_wire_time None (Some start)))
    (Some (mk_wire_time None (Some stop))) (Some true) [] None.
Definition sample_wire_items : list _WireEvent :=
  [wire_event "a" "2026-03-13T09:00:00Z" "2026-03-13T10:00:00+00:00"; wire_event "" "x" "y";
   wire_event "b" "2026-03-13T09:30:00+09:00" "2026-03-13T11:00:00+09:00"].
(** Two pages, answered by their token. *)
#[local] Instance sample_transport : SourceTransport unit := λ _ query s,
  (Ok (mk_response 200 (default "first"%string (dict_get "pageToken" query)) None), s).
Definition sample_pages (body : text) : option _WireEventsPage :=
  if bool_decide (body = "first"%string) then Some (mk_wire_page sample_wire_items (Some "second"%string))
  else if bool_decide (body = "second"%string) then Some (mk_wire_page [wire_event "c" "2026-03-13" "2026-03-14T00:00Z"] None)
  else None.
Definition calendar_now : instant := 63909000000000000.
Definition sample_read : CalendarReadResult :=
  match list_events sample_pages calendar_now tt with
  | (Ok r, _) => r
  | (Err _, _) => mk_calendar_read [] "" "" "" 0 0
  end.
Example sample_read_result :
  (ev_id <$> crr_events sample_read, crr_window_start sample_read, crr_page_count sample_read, crr_skipped_count sample_read) =
  (["a"; "b"], "2026-03-13T12:00:00Z", 2, 2)%string.
Proof. vm_compute. reflexivity. Qed.

Lemma calendar_reads_are_complete_witness :
  crr_page_count sample_read = 2 ∧ Forall event_ok (crr_events sample_read).
Proof.
  split; [vm_compute; reflexivity|].
  destruct (calendar_reads_are_complete sample_pages calendar_now tt sample_read tt) as (items & k & _ & _ & _ & _ & H & _).
  - vm_compute. reflexivity.
  - exact H.
Defined.

(** An event at the edge of the calendar makes the read raise [OverflowError], which
    [list_events] does not turn into a [CalendarError]. *)
Lemma extreme_event_raises :
  _parse_event (wire_event "a" "0001-01-01T00:00:00+14:00" "2026-03-13T10:00:00Z") = Err OverflowError.
Proof. vm_compute. reflexivity. Qed.
