(* ===== verification/GmailProjection.v ===== *)
(** The projection of one Gmail thread ([sources/_gmail_projection.py], with the visible text
    of [sources/_gmail_html.py]): the latest message's direction, headers and bounded body.
    The tokens of [html.parser] and [email.utils.parseaddr] are parameters. *)
From Stdlib Require Import Ascii.
From S2P Require Import Prelude PyDate PyTime Codec Models Memory DeadlineText ReplyDeadline.
#[local] Open Scope Z_scope.

(** ** Visible text of HTML *)

(** What [HTMLParser.feed] reports. *)
Inductive html_token := HtmlData (data : text) | HtmlStartTag (tag : text) | HtmlEndTag (tag : text).

Definition _HTML_BREAK_TAGS : list text :=
  ["address"; "article"; "aside"; "blockquote"; "br"; "dd"; "div"; "dl"; "dt"; "figcaption"; "figure";
   "footer"; "form"; "h1"; "h2"; "h3"; "h4"; "h5"; "h6"; "header"; "hr"; "li"; "main"; "nav"; "ol"; "p";
   "pre"; "section"; "table"; "tbody"; "td"; "tfoot"; "th"; "thead"; "tr"; "ul"]%string.

(** The pieces in order; a break is a blank after a piece that does not end with one. *)
Fixpoint last_char (s : text) : option ascii :=
  match s with
  | EmptyString => None
  | String a EmptyString => Some a
  | String _ rest => last_char rest
  end.
Definition ends_blank (s : text) : bool :=
  match last_char s with Some a => bool_decide (a ∈ [" "; "009"; "010"; "013"]%char) | None => false end.
Definition _append_break (pieces : list text) : list text :=
  match last pieces with
  | Some p => if ends_blank p then pieces else pieces ++ [" "%string]
  | None => pieces
  end.
Definition handle_token (pieces : list text) (t : html_token) : list text :=
  match t with
  | HtmlData data => pieces ++ [data]
  | HtmlStartTag tag | HtmlEndTag tag =>
    if bool_decide (tag ∈ _HTML_BREAK_TAGS) then _append_break pieces else pieces
  end.

(** [text[:n]] and [len(text)], in characters. *)
Definition take_chars (n : nat) (s : text) : text := unchars (take n (chars s)).
Definition char_length (s : text) : nat := length (chars s).

(** ** Wire messages *)

Record _WireHeader := mk_wire_header { wh_name : text; wh_value : text }.
(** The body's [data] is flattened into the part. *)
Inductive _WirePart := mk_part {
  wpt_mime_type : option text;
  wpt_headers : list _WireHeader;
  wpt_data : option text;
  wpt_parts : list _WirePart;
}.
Record _WireMessage := mk_message {
  wm_id : option text;
  wm_internal_date : option Z;
  wm_snippet : option text;
  wm_label_ids : option (list text);
  wm_payload : option _WirePart;
}.
Record WireThreadDetail := mk_thread_detail { td_messages : list _WireMessage }.

Definition _MAX_BODY_CHARS : nat := 4000.
Definition _MAX_MIME_DEPTH : nat := 8.
Definition _MAX_MIME_PARTS : nat := 64.

(** [tuple(dict.fromkeys(reasons))]: the first occurrence of each. *)
Definition unique_in_order {A} `{EqDecision A} (l : list A) : list A :=
  foldl (λ seen x, if bool_decide (x ∈ seen) then seen else seen ++ [x]) [] l.

(** [datetime.fromtimestamp] of a message that has both an id and a date. *)
Definition candidate (message : _WireMessage) : option (instant * text * _WireMessage) :=
  i ← wm_id message; ms ← wm_internal_date message; t ← fromtimestamp_ms ms; Some (t, i, message).
(** The key [(sent_at, id)], compared as a tuple. *)
Definition candidate_key (c : instant * text * _WireMessage) : list sql_key := [KInt c.1.1; KText c.1.2].
Definition later (a b : instant * text * _WireMessage) : bool :=
  negb (keys_leb (candidate_key b) (candidate_key a)).
(** [max]: the first of the largest. *)
Definition latest_candidate (cs : list (instant * text * _WireMessage)) : option (instant * text * _WireMessage) :=
  match cs with
  | [] => None
  | c :: rest => Some (foldl (λ best x, if later best x then x else best) c rest)
  end.

Definition _trusted_direction (label_ids : option (list text)) : bool * bool * list InboxThreadDegradationReason :=
  let labels := default [] label_ids in
  let sent := bool_decide ("SENT"%string ∈ labels) in
  let inbox := bool_decide ("INBOX"%string ∈ labels) in
  (sent, inbox,
   if bool_decide (labels = []) then [DegDirectionMetadataMissing]
   else if (sent && inbox) || negb (sent || inbox) then [DegDirectionMetadataAmbiguous] else []).

Definition identity_names : list text := ["from"; "to"; "cc"; "bcc"]%string.
Definition dict_set (k v : text) (d : dict) : dict :=
  if existsb (λ e, bool_decide (e.1 = k)) d
  then (λ e, if bool_decide (e.1 = k) then (k, v) else e) <$> d else d ++ [(k, v)].

Definition _decode_body (part : _WirePart) : res time_error (option text * bool) :=
  match wpt_data part with
  | None => mret (None, false)
  | Some encoded =>
    let maximum_encoded := ((_MAX_BODY_CHARS * 4 / 3 + 8) / 4 * 4)%nat in
    let bounded := take_chars maximum_encoded encoded in
    let padding := Z.to_nat ((- Z.of_nat (char_length bounded)) mod 4) in
    bytes ← b64decode (bounded +:+ join "" (replicate padding "="%string))%string;
    mret match bytes with
         | None => (None, false)
         | Some bytes =>
           let decoded := decode_ignore bytes in
           (Some (take_chars _MAX_BODY_CHARS decoded),
            (char_length bounded <? char_length encoded)%nat || (_MAX_BODY_CHARS <? char_length decoded)%nat)
         end
  end.

Record _BodyProjection := mk_body {
  bp_text : option text;
  bp_truncated : bool;
  bp_structure_truncated : bool;
}.

(** The number of parts of a tree. *)
Fixpoint part_size (p : _WirePart) : nat :=
  S (foldr (λ q n, part_size q + n)%nat 0%nat (wpt_parts p)).
Definition stack_size (stack : list (_WirePart * nat)) : nat :=
  foldr (λ e n, part_size e.1 + n)%nat 0%nat stack.

Section Projection.
Context {U : Unicode}.
Context (html_tokens : text → list html_token) (parseaddr : text → text * text).

Definition extract_html_text (html : text) (max_chars : nat) : text * bool :=
  let extracted := strip (join "" (foldl handle_token [] (html_tokens html))) in
  (take_chars max_chars extracted, (max_chars <? char_length extracted)%nat).

(** The casefolded headers, the last of a name winning, and whether an identity header
    repeats. *)
Definition add_header (acc : dict * bool) (header : _WireHeader) : dict * bool :=
  let name := casefold (wh_name header) in
  let repeats := bool_decide (name ∈ identity_names) && bool_decide (is_Some (dict_get name acc.1)) in
  (dict_set name (wh_value header) acc.1, acc.2 || repeats).
Definition _headers (payload : option _WirePart) : dict * bool :=
  match payload with
  | None => ([], false)
  | Some payload => foldl add_header ([], false) (wpt_headers payload)
  end.

(** The loop over the stack of parts, its top first; the fuel bounds the parts popped. *)
Fixpoint walk_parts (fuel : nat) (stack : list (_WirePart * nat)) (seen : nat) (html_text : option text)
    (cut structure_cut : bool) : res time_error _BodyProjection :=
  match fuel, stack with
  | S fuel, (current, depth) :: rest =>
    let seen := S seen in
    if (_MAX_MIME_PARTS <? seen)%nat || (_MAX_MIME_DEPTH <? depth)%nat
    then walk_parts fuel rest seen html_text cut true else
    let mime_type := casefold (default ""%string (wpt_mime_type current)) in
    dt ← _decode_body current;
    let cut := cut || dt.2 in
    match dt.1, bool_decide (mime_type = "text/plain"%string) with
    | Some decoded, true => mret (mk_body (Some decoded) cut structure_cut)
    | _, _ =>
      let html :=
        match dt.1, html_text with
        | Some decoded, None =>
          if bool_decide (mime_type = "text/html"%string) then Some (extract_html_text decoded _MAX_BODY_CHARS) else None
        | _, _ => None
        end in
      let html_text := match html with Some h => Some h.1 | None => html_text end in
      let cut := cut || match html with Some h => h.2 | None => false end in
      walk_parts fuel (((λ child, (child, S depth)) <$> wpt_parts current) ++ rest) seen html_text
        cut structure_cut
    end
  | _, _ => mret (mk_body html_text cut structure_cut)
  end.
Definition _project_body (part : option _WirePart) : res time_error _BodyProjection :=
  match part with
  | None => mret (mk_body None false false)
  | Some part => walk_parts (S (part_size part)) [(part, 0%nat)] 0 None false false
  end.

(** [x or None] of a text. *)
Definition nonempty (s : option text) : option text := x ← s; if bool_decide (x = ""%string) then None else Some x.

Definition body_reasons (body : _BodyProjection) : list InboxThreadDegradationReason :=
  match bp_text body with
  | None => [DegBodySnippetFallback]
  | Some _ =>
    if bp_truncated body then [DegBodyTruncated]
    else if bp_structure_truncated body then [DegMimeStructureTruncated] else []
  end.

Definition project_thread (thread_id : text) (wire : WireThreadDetail) (profile_history_cursor : text)
    : res time_error (option InboxThreadSnapshot) :=
  match latest_candidate (omap candidate (td_messages wire)) with
  | None => mret None
  | Some (sent_at, message_id, latest) =>
    let '(headers, ambiguous) := _headers (wm_payload latest) in
    let '(sender_name, sender_address) := parseaddr (default ""%string (dict_get "from" headers)) in
    let '(sent, inbox, direction_reasons) := _trusted_direction (wm_label_ids latest) in
    body ← _project_body (wm_payload latest);
    let reasons := direction_reasons ++
      (if ambiguous then [DegIdentityHeadersAmbiguous] else []) ++ body_reasons body in
    let degradation_reasons := unique_in_order reasons in
    mret (Some (mk_thread thread_id message_id sent inbox sent_at (nonempty (dict_get "subject" headers))
      (match nonempty (Some sender_name) with Some n => Some n | None => nonempty (Some sender_address) end)
      (wm_snippet latest)
      (match bp_text body with Some t => Some t | None => wm_snippet latest end)
      (bool_decide (degradation_reasons = [])) degradation_reasons (Some profile_history_cursor)))
  end.
End Projection.

(** ** The walk ends *)

Lemma part_size_pos p : (0 < part_size p)%nat.
Proof. destruct p; simpl; lia. Qed.
Lemma stack_size_app s1 s2 : stack_size (s1 ++ s2) = (stack_size s1 + stack_size s2)%nat.
Proof. unfold stack_size. induction s1; simpl in *; lia. Qed.
Lemma stack_size_children p depth :
  part_size p = S (stack_size ((λ child, (child, S depth)) <$> wpt_parts p)).
Proof.
  destruct p as [m h dat ps]. cbn [part_size wpt_parts]. f_equal. unfold stack_size.
  induction ps as [|q ps IH]; [done|]. cbn [foldr fmap list_fmap fst] in *. by rewrite IH.
Qed.

Section Walk.
Context {U : Unicode}.
Context (html_tokens : text → list html_token) (parseaddr : text → text * text).

(** Fuel for every part on the stack is enough. *)
Lemma walk_parts_fuel f f' stack seen html cut scut :
  (stack_size stack ≤ f)%nat → (stack_size stack ≤ f')%nat →
  walk_parts html_tokens f stack seen html cut scut = walk_parts html_tokens f' stack seen html cut scut.
Proof.
  revert f' stack seen html cut scut. induction f as [|f IH]; intros f' stack seen html cut scut Hf Hf'.
  { destruct stack as [|[p n] stack]; [by destruct f'|]. cbn in Hf. pose proof (part_size_pos p). lia. }
  destruct f' as [|f'].
  { destruct stack as [|[p n] stack]; [done|]. cbn in Hf'. pose proof (part_size_pos p). lia. }
  destruct stack as [|[p depth] stack]; [done|]. cbn [walk_parts].
  assert (stack_size ((p, depth) :: stack) = (part_size p + stack_size stack)%nat) as Hs by done.
  pose proof (part_size_pos p).
  destruct (_ || _); [apply IH; lia|].
  destruct (_decode_body p) as [[decoded tr]|]; [|done]. res_step. cbn [fst snd].
  pose proof (stack_size_children p depth).
  destruct decoded as [decoded|]; [|apply IH; rewrite stack_size_app; lia].
  destruct (bool_decide _); [done|]. apply IH; rewrite stack_size_app; lia.
Qed.

(** ** What a snapshot says *)

Lemma unique_in_order_spec {A} `{EqDecision A} (l : list A) :
  NoDup (unique_in_order l) ∧ ∀ x, x ∈ unique_in_order l ↔ x ∈ l.
Proof.
  unfold unique_in_order.
  assert (∀ seen, NoDup seen →
    let r := foldl (λ seen x, if bool_decide (x ∈ seen) then seen else seen ++ [x]) seen l in
    NoDup r ∧ ∀ x, x ∈ r ↔ x ∈ seen ∨ x ∈ l) as H.
  { induction l as [|y l IH]; intros seen Hnd; simpl.
    - split; [done|]. intros x. split; [by left|]. by intros [?|?%elem_of_nil].
    - case_bool_decide as Hy.
      + destruct (IH seen Hnd) as [H1 H2]. split; [done|]. intros x. rewrite H2, elem_of_cons. naive_solver.
      + destruct (IH (seen ++ [y])) as [H1 H2].
        { apply NoDup_app. split; [done|]. split; [|apply NoDup_singleton].
          intros x Hx ->%list_elem_of_singleton. done. }
        split; [done|]. intros x. rewrite H2, elem_of_app, list_elem_of_singleton, elem_of_cons. tauto. }
  destruct (H [] (NoDup_nil_2)) as [H1 H2]. split; [done|]. intros x. rewrite H2. split; [|by right].
  by intros [?%elem_of_nil|?].
Qed.
Lemma unique_in_order_nil {A} `{EqDecision A} (l : list A) : unique_in_order l = [] → l = [].
Proof.
  destruct (unique_in_order_spec l) as [_ H]. intros Hnil. destruct l as [|x l]; [done|].
  assert (x ∈ unique_in_order (x :: l)) as Hx by (apply H; left). rewrite Hnil in Hx. by apply elem_of_nil in Hx.
Qed.

(** [max] returns a candidate no other is later than. *)
Lemma latest_candidate_max cs c :
  latest_candidate cs = Some c → c ∈ cs ∧ Forall (λ x, key_order candidate_key x c) cs.
Proof.
  destruct cs as [|c0 cs]; [done|]. intros [= <-]. revert c0.
  induction cs as [|x cs IH]; intros c0; cbn [foldl].
  { split; [by left|]. apply Forall_singleton. apply keys_leb_refl. }
  assert (∀ a b, keys_leb a b = false → keys_leb b a = true) as Htot.
  { intros a b. unfold keys_leb. rewrite (keys_compare_antisym b a). by destruct (keys_compare a b). }
  unfold later at 2 4. destruct (keys_leb (candidate_key x) (candidate_key c0)) eqn:Hx; cbn [negb].
  - destruct (IH c0) as [Hin Hmax]. apply Forall_cons in Hmax as [H0 Hmax].
    split; [apply elem_of_cons in Hin as [->|Hin]; [by left|by right; right]|].
    repeat (apply Forall_cons; split); try done. by transitivity c0.
  - destruct (IH x) as [Hin Hmax]. apply Forall_cons in Hmax as [H0 Hmax].
    split; [by right|]. repeat (apply Forall_cons; split); try done. transitivity x; [by apply Htot|done].
Qed.

(** What a projected thread reports: the latest dated message decides; its labels are the
    direction; the reasons are distinct and their absence is [resolution_safe]; a safe
    snapshot's message is either sent or in the inbox, and its text is a whole text part. *)
Theorem safe_snapshots_are_trusted thread_id wire cursor snap :
  project_thread html_tokens parseaddr thread_id wire cursor = Ok (Some snap) →
  ∃ latest body, latest ∈ omap candidate (td_messages wire) ∧
    Forall (λ c, key_order candidate_key c latest) (omap candidate (td_messages wire)) ∧
    latest.1 = (th_latest_message_at snap, th_latest_message_id snap) ∧
    _project_body html_tokens (wm_payload latest.2) = Ok body ∧
    th_thread_id snap = thread_id ∧
    th_latest_from_user snap = bool_decide ("SENT"%string ∈ default [] (wm_label_ids latest.2)) ∧
    th_user_is_recipient snap = bool_decide ("INBOX"%string ∈ default [] (wm_label_ids latest.2)) ∧
    NoDup (th_degradation_reasons snap) ∧
    (th_resolution_safe snap = true ↔ th_degradation_reasons snap = []) ∧
    (th_resolution_safe snap = true →
       th_latest_from_user snap = negb (th_user_is_recipient snap) ∧
       (_headers (wm_payload latest.2)).2 = false ∧
       is_Some (th_body_text snap) ∧ th_body_text snap = bp_text body ∧
       bp_truncated body = false ∧ bp_structure_truncated body = false).
Proof.
  unfold project_thread. destruct (latest_candidate _) as [[[sent_at mid] latest]|] eqn:Hlatest; [|done].
  apply latest_candidate_max in Hlatest as [Hin Hmax].
  destruct (_headers (wm_payload latest)) as [headers ambiguous] eqn:Hh.
  destruct (parseaddr _) as [name address]. unfold _trusted_direction.
  set (labels := default [] (wm_label_ids latest)). intros (body & Hbody & H)%res_bind_ok. injection H as <-.
  exists (sent_at, mid, latest), body. cbn [fst snd]. rewrite Hh.
  match goal with |- context [unique_in_order ?l] => set (reasons := l) end.
  destruct (unique_in_order_spec reasons) as [Hnd _].
  split_and!; try done; cbn [th_resolution_safe th_degradation_reasons].
  - apply bool_decide_eq_true.
  - intros Hsafe%bool_decide_eq_true%unique_in_order_nil. unfold reasons in Hsafe.
    apply app_nil in Hsafe as [Hdir [Hamb Hbr]%app_nil]. cbn.
    split_and!.
    + destruct (bool_decide (labels = [])); [done|].
      by destruct (bool_decide ("SENT"%string ∈ labels)), (bool_decide ("INBOX"%string ∈ labels)).
    + by destruct ambiguous.
    + unfold body_reasons in Hbr. destruct (bp_text body); [by eexists|done].
    + unfold body_reasons in Hbr. by destruct (bp_text body).
    + unfold body_reasons in Hbr. destruct (bp_text body); [|done]. by destruct (bp_truncated body).
    + unfold body_reasons in Hbr. destruct (bp_text body); [|done].
      destruct (bp_truncated body); [done|]. by destruct (bp_structure_truncated body).
Qed.
End Walk.

(** ** A concrete thread *)

Definition sample_part (mime data : text) : _WirePart := mk_part (Some mime) [] (Some data) [].
Definition sample_message (i : text) (ms : Z) (labels : list text) (data : text) : _WireMessage :=
  mk_message (Some i) (Some ms) (Some "snippet"%string) (Some labels)
    (Some (mk_part (Some "multipart/alternative"%string)
      [mk_wire_header "From" "Ann <ann@x.org>"; mk_wire_header "SUBJECT" "Report"] None
      [sample_part "text/html" "PGI-aGk8L2I-"; sample_part "text/plain" data])).
Definition sample_detail : WireThreadDetail :=
  mk_thread_detail [sample_message "m1" 1760000000000 ["INBOX"]%string "b2xk";
                    sample_message "m2" 1760000360000 ["INBOX"; "UNREAD"]%string "UmVwbHkgYnkgRnJpZGF5";
                    mk_message (Some "m3"%string) None None None None].
(** The words of the sample's addresses and markup. *)
Definition sample_tokens (html : text) : list html_token :=
  if bool_decide (html = "<b>hi</b>"%string) then [HtmlStartTag "b"; HtmlData "hi"; HtmlEndTag "b"] else [HtmlData html].
Definition sample_parseaddr (s : text) : text * text :=
  if bool_decide (s = "Ann <ann@x.org>"%string) then ("Ann", "ann@x.org")%string else ("", s)%string.
Definition sample_projection : res time_error (option InboxThreadSnapshot) :=
  project_thread (U := ascii_unicode) sample_tokens sample_parseaddr "t1" sample_detail "77".
Definition sample_snapshot : InboxThreadSnapshot :=
  match sample_projection with
  | Ok (Some snap) => snap
  | _ => mk_thread "" "" false false 0 None None None None false [] None
  end.
Example sample_snapshot_fields :
  (th_latest_message_id sample_snapshot, th_user_is_recipient sample_snapshot, th_subject sample_snapshot,
   th_sender_display sample_snapshot, th_body_text sample_snapshot, th_resolution_safe sample_snapshot) =
  ("m2", true, Some "Report", Some "Ann", Some "Reply by Friday", true)%string.
Proof. vm_compute. reflexivity. Qed.

Lemma safe_snapshots_are_trusted_witness :
  th_resolution_safe sample_snapshot = true ∧
  th_latest_from_user sample_snapshot = negb (th_user_is_recipient sample_snapshot).
Proof.
  assert (th_resolution_safe sample_snapshot = true) as Hsafe by (vm_compute; reflexivity).
  split; [exact Hsafe|].
  destruct (safe_snapshots_are_trusted (U := ascii_unicode) sample_tokens sample_parseaddr "t1" sample_detail "77"
    sample_snapshot ltac:(vm_compute; reflexivity)) as (latest & body & H).
  destruct H as (_ & _ & _ & _ & _ & _ & _ & _ & _ & H). exact (proj1 (H Hsafe)).
Defined.
