(* ===== verification/GmailSource.v ===== *)
(** The Gmail adapter ([sources/gmail.py] with [_gmail_list_wire.py] and [_gmail_models.py]):
    the profile, the paged listing of the inbox and the bounded reads of its threads.
    Pydantic's parsing of the three bodies is a parameter. *)
From stdpp Require Import pretty gmap.
From Stdlib Require Import Ascii.
From S2P Require Import Prelude PyDate PyTime Codec Models Memory DeadlineText ReplyDeadline Transport CalendarSource GmailProjection.
#[local] Open Scope Z_scope.

(** ** Values *)

Record _WireProfile := mk_wire_profile {
  wpf_email_address : text;
  wpf_messages_total : Z;
  wpf_threads_total : Z;
  wpf_history_id : text;
}.
Record _WireThread := mk_wire_thread { wth_id : option text; wth_history_id : option text }.
Record _WireThreadsPage := mk_wire_threads { wtp_threads : list _WireThread; wtp_next_page_token : option text }.

Record GmailProfile := mk_profile {
  gp_email_address : text;
  gp_messages_total : Z;
  gp_threads_total : Z;
  gp_history_id : text;
}.
Record GmailThread := mk_gmail_thread { gt_id : text; gt_history_id : option text }.
#[export] Instance GmailThread_eq_dec : EqDecision GmailThread.
Proof. solve_decision. Defined.

Record ThreadListPage := mk_list_page {
  lp_threads : list (option GmailThread);
  lp_next_page_token : option text;
}.
Record GmailReadResult := mk_gmail_read {
  grr_threads : list GmailThread;
  grr_fetched_at : text;
  grr_page_count : Z;
  grr_skipped_count : Z;
  grr_is_complete : bool;
  grr_degradation_reasons : list SourceReadReason;
}.
Record GmailInboxReadResult := mk_inbox_read {
  gir_threads : list InboxThreadSnapshot;
  gir_fetched_at : text;
  gir_provider_history_cursor : text;
  gir_page_count : Z;
  gir_coverage_complete : bool;
  gir_degradation_reasons : list SourceReadReason;
  gir_request_count : Z;
  gir_projected_thread_count : Z;
  gir_excluded_thread_count : Z;
  gir_allows_absent_resolution : bool;
  gir_resolution_safe_thread_ids : gset text;
  gir_resolution_excluded_thread_ids : gset text;
  gir_degradation_reason_counts : list (SourceReadReason * Z);
}.

Definition GMAIL_PROFILE_URL : text := "https://gmail.googleapis.com/gmail/v1/users/me/profile".
Definition GMAIL_THREADS_URL : text := "https://gmail.googleapis.com/gmail/v1/users/me/threads".
Definition DEFAULT_MAX_PAGES : nat := 20.
Definition DEFAULT_MAX_RESULTS : Z := 100.
Definition DEFAULT_MAX_PROJECTED_THREADS : nat := 200.
Definition DEFAULT_LOOKBACK : timedelta := 7 * US_PER_DAY.
Definition THREAD_FIELDS : text := "nextPageToken,threads(id,historyId)".
Definition _MAX_THREAD_RESPONSE_BYTES : Z := 1000000.

(** A projection's reason among those of a read. *)
Definition projection_reason (r : InboxThreadDegradationReason) : SourceReadReason :=
  match r with
  | DegBodySnippetFallback => body_snippet_fallback
  | DegBodyTruncated => body_truncated
  | DegDirectionMetadataAmbiguous => direction_metadata_ambiguous
  | DegDirectionMetadataMissing => direction_metadata_missing
  | DegIdentityHeadersAmbiguous => identity_headers_ambiguous
  | DegMimeStructureTruncated => mime_structure_truncated
  end.

(** [urllib.parse.quote(s, safe='')]. *)
Definition unreserved (a : ascii) : bool :=
  let n := byte_value a in
  (48 <=? n) && (n <=? 57) || (65 <=? n) && (n <=? 90) || (97 <=? n) && (n <=? 122) ||
  bool_decide (a ∈ ["_"; "."; "-"; "~"]%char).
Definition hex_digit (n : Z) : ascii := ascii_of_N (Z.to_N (if n <? 10 then n + 48 else n + 55)).
Fixpoint quote (s : text) : text :=
  match s with
  | EmptyString => EmptyString
  | String a rest =>
    if unreserved a then String a (quote rest)
    else let n := byte_value a in String "%" (String (hex_digit (n / 16)) (String (hex_digit (n mod 16)) (quote rest)))
  end.
Example quote_id : quote "a/b ~é" = "a%2Fb%20~%C3%A9"%string.
Proof. vm_compute. reflexivity. Qed.

(** [GmailAdapter.__init__] refuses a lookback that is not positive. *)
Definition lookback_ok (lookback : timedelta) : bool := negb (lookback <=? 0).

(** [Counter(reasons).items()]. *)
Definition count_of {A} `{EqDecision A} (x : A) (l : list A) : Z :=
  Z.of_nat (length (filter (λ y, y = x) l)).
Definition counter {A} `{EqDecision A} (l : list A) : list (A * Z) :=
  (λ x, (x, count_of x l)) <$> unique_in_order l.

(** What the loop over the projected threads collects. *)
Record inbox_progress := mk_progress {
  ip_snapshots : list InboxThreadSnapshot;
  ip_detail_request_count : Z;
  ip_reasons : list SourceReadReason;
  ip_source_is_complete : bool;
  ip_excluded : gset text;
}.

Definition ids (threads : list GmailThread) : gset text := list_to_set (gt_id <$> threads).
(** [threads[threads.index(thread):]]. *)
Fixpoint from_first (t : GmailThread) (threads : list GmailThread) : list GmailThread :=
  match threads with
  | [] => []
  | x :: rest => if bool_decide (x = t) then threads else from_first t rest
  end.

Definition _parse_list_thread (wire : _WireThread) : option GmailThread :=
  match wth_id wire with
  | None => None
  | Some i => if bool_decide (i = ""%string) then None else Some (mk_gmail_thread i (wth_history_id wire))
  end.

(** The rows of a page without an id. *)
Definition skipped_rows (rows : list (option GmailThread)) : Z :=
  Z.of_nat (length (filter (λ t, t = None) rows)).

Section GmailAdapter.
Context {U : Unicode} {St : Type} {Tr : SourceTransport St}.
Context (html_tokens : text → list html_token) (parseaddr : text → text * text).
Context (validate_profile : text → option _WireProfile) (validate_page : text → option _WireThreadsPage).
Context (validate_detail : text → option WireThreadDetail).
Context (_max_projected_threads : nat) (_lookback : timedelta).

(** [_get]. *)
Definition _get (url : text) (query : dict) : M St read_error text :=
  response ← request url query;
  let status := hr_status_code response in
  match hr_limit_reason response with
  | Some reason => raise (GmailBodyLimitError reason)
  | None =>
    if status =? 200 then mret (hr_body response)
    else if (status =? 401) || (status =? 403) then raise (GmailError http_4xx (Some status))
    else if (500 <=? status) && (status <? 600) then raise (GmailError http_5xx (Some status))
    else raise (GmailError unknown (Some status))
  end.

Definition parse_json {A} (validate : text → option A) (body : text) : M St read_error A :=
  match validate body with Some a => mret a | None => raise (GmailError unknown None) end.

Definition parse_profile (body : text) : M St read_error GmailProfile :=
  wire ← parse_json validate_profile body;
  mret (mk_profile (wpf_email_address wire) (wpf_messages_total wire) (wpf_threads_total wire) (wpf_history_id wire)).
Definition parse_thread_list_page (body : text) : M St read_error ThreadListPage :=
  page ← parse_json validate_page body;
  mret (mk_list_page (_parse_list_thread <$> wtp_threads page) (wtp_next_page_token page)).

Definition read_profile : M St read_error GmailProfile :=
  body ← _get GMAIL_PROFILE_URL [];
  parse_profile body.

Definition threads_query (after_query : text) (page_token : option text) : dict :=
  [("maxResults", pretty DEFAULT_MAX_RESULTS); ("labelIds", "INBOX"); ("fields", THREAD_FIELDS);
   ("q", after_query)]%string ++
  match page_token with Some t => [("pageToken"%string, t)] | None => [] end.
Definition read_threads_page (after_query : text) (page_token : option text) : M St read_error ThreadListPage :=
  body ← _get GMAIL_THREADS_URL (threads_query after_query page_token);
  parse_thread_list_page body.

(** The [while] loop; [n] pages may still be read. *)
Fixpoint list_pages (n : nat) (fetched_at after_query : text) (page_token : option text) (seen_tokens : list text)
    (threads : list GmailThread) (skipped_count page_count : Z) : M St read_error GmailReadResult :=
  match n with
  | O => mret (mk_gmail_read threads fetched_at page_count skipped_count false [pagination_limit])
  | S n =>
    page ← read_threads_page after_query page_token;
    let page_count := page_count + 1 in
    let threads := threads ++ omap (λ t, t) (lp_threads page) in
    let skipped_count := skipped_count + skipped_rows (lp_threads page) in
    match lp_next_page_token page with
    | None => mret (mk_gmail_read threads fetched_at page_count skipped_count true [])
    | Some token =>
      if bool_decide (token ∈ seen_tokens) then raise (GmailError unknown None)
      else list_pages n fetched_at after_query (Some token) (token :: seen_tokens) threads skipped_count page_count
    end
  end.
Definition list_threads (now : instant) : M St read_error GmailReadResult :=
  after ← lift_read (dt_add now (- _lookback));
  list_pages DEFAULT_MAX_PAGES (utc_iso now) ("after:" +:+ pretty (timestamp_seconds after))%string
    None [] [] 0 0.

(** [try: ... except GmailBodyLimitError]. *)
Definition catch_limit {A} (m : M St read_error A) : M St read_error (A + limit_reason) := λ s,
  match m s with
  | (Ok a, s') => (Ok (inl a), s')
  | (Err (GmailBodyLimitError reason), s') => (Ok (inr reason), s')
  | (Err e, s') => (Err e, s')
  end.

Definition detail_url (thread : GmailThread) : text := (GMAIL_THREADS_URL +:+ "/" +:+ quote (gt_id thread))%string.

(** A thread left out, with the reason. *)
Definition leave_out (reason : SourceReadReason) (left_out : gset text) (complete : bool) (p : inbox_progress) : inbox_progress :=
  mk_progress (ip_snapshots p) (ip_detail_request_count p) (ip_reasons p ++ [reason])
    (complete && ip_source_is_complete p) (ip_excluded p ∪ left_out).
Definition keep (thread_id : text) (snapshot : InboxThreadSnapshot) (p : inbox_progress) : inbox_progress :=
  mk_progress (ip_snapshots p ++ [snapshot]) (ip_detail_request_count p)
    (ip_reasons p ++ (projection_reason <$> th_degradation_reasons snapshot)) (ip_source_is_complete p)
    (if th_resolution_safe snapshot then ip_excluded p else ip_excluded p ∪ {[thread_id]}).
Definition count_request (p : inbox_progress) : inbox_progress :=
  mk_progress (ip_snapshots p) (ip_detail_request_count p + 1) (ip_reasons p) (ip_source_is_complete p) (ip_excluded p).

(** The body of the [for] loop: the progress, and whether the loop breaks. *)
Definition read_detail (profile : GmailProfile) (projected_threads : list GmailThread) (thread : GmailThread)
    (p : inbox_progress) : M St read_error (inbox_progress * bool) :=
  let p := count_request p in
  body ← catch_limit (A:=text) (_get (detail_url thread) [("format", "full")]%string);
  match body with
  | inr LimitSync =>
    mret (leave_out sync_budget_exhausted (ids (from_first thread projected_threads)) false p, true)
  | inr LimitResponse => mret (leave_out thread_response_too_large {[gt_id thread]} false p, false)
  | inl response_body =>
    if _MAX_THREAD_RESPONSE_BYTES <? byte_size response_body
    then mret (leave_out thread_response_too_large {[gt_id thread]} false p, false) else
    detail ← parse_json validate_detail response_body;
    snapshot ← lift_read (project_thread html_tokens parseaddr (gt_id thread) detail (gp_history_id profile));
    mret (match snapshot with
          | None => leave_out thread_without_projectable_message {[gt_id thread]} true p
          | Some snapshot => keep (gt_id thread) snapshot p
          end, false)
  end.
Fixpoint read_details (profile : GmailProfile) (projected_threads rest : list GmailThread) (p : inbox_progress)
    : M St read_error inbox_progress :=
  match rest with
  | [] => mret p
  | thread :: rest =>
    step ← read_detail profile projected_threads thread p;
    match step with
    | (p, true) => mret p
    | (p, false) => read_details profile projected_threads rest p
    end
  end.

(** The progress before the loop. *)
Definition start_progress (listed : GmailReadResult) : inbox_progress :=
  let skipped := negb (grr_skipped_count listed =? 0) in
  let beyond := drop _max_projected_threads (grr_threads listed) in
  let limited := negb (bool_decide (beyond = [])) in
  mk_progress [] 0
    (grr_degradation_reasons listed ++ (if skipped then [thread_list_entry_skipped] else []) ++
     (if limited then [thread_projection_limit] else []))
    (grr_is_complete listed && negb skipped && negb limited) (ids beyond).

Definition inbox_result (profile : GmailProfile) (listed : GmailReadResult) (p : inbox_progress) : GmailInboxReadResult :=
  let projected_threads := take _max_projected_threads (grr_threads listed) in
  mk_inbox_read (ip_snapshots p) (grr_fetched_at listed) (gp_history_id profile) (grr_page_count listed)
    (ip_source_is_complete p) (unique_in_order (ip_reasons p))
    (1 + grr_page_count listed + ip_detail_request_count p)
    (Z.of_nat (length (ip_snapshots p))) (Z.of_nat (size (ip_excluded p)))
    (grr_is_complete listed && (grr_skipped_count listed =? 0) &&
     bool_decide (length projected_threads = length (grr_threads listed)))
    (list_to_set (th_thread_id <$> filter (λ t, th_resolution_safe t = true) (ip_snapshots p)))
    (ip_excluded p) (counter (ip_reasons p)).

Definition read_inbox_threads (now : instant) : M St read_error GmailInboxReadResult :=
  profile ← read_profile;
  listed ← list_threads now;
  let projected_threads := take _max_projected_threads (grr_threads listed) in
  p ← read_details profile projected_threads projected_threads (start_progress listed);
  mret (inbox_result profile listed p).
End GmailAdapter.

(** ** The listing *)

Section Listing.
Context {St : Type} {Tr : SourceTransport St}.
Context (validate_page : text → option _WireThreadsPage).

Abbreviation read_threads_page := (read_threads_page validate_page).

(** The pages of a listing from a token on: to a page without one, or cut short. *)
Inductive listing (after : text) : St → option text → list (option GmailThread) → nat → bool → St → Prop :=
  | listing_last s tok page s' :
      read_threads_page after tok s = (Ok page, s') → lp_next_page_token page = None →
      listing after s tok (lp_threads page) 1 true s'
  | listing_more s tok page s1 next rows n whole s' :
      read_threads_page after tok s = (Ok page, s1) → lp_next_page_token page = Some next →
      listing after s1 (Some next) rows n whole s' →
      listing after s tok (lp_threads page ++ rows) (S n) whole s'
  | listing_stop s tok : listing after s tok [] 0 false s.

Lemma skipped_rows_app a b : skipped_rows (a ++ b) = skipped_rows a + skipped_rows b.
Proof. unfold skipped_rows. rewrite filter_app, length_app. lia. Qed.
Lemma kept_rows_length rows :
  Z.of_nat (length (omap (λ t, t) rows)) + skipped_rows rows = Z.of_nat (length rows).
Proof.
  unfold skipped_rows. induction rows as [|[t|] rows IH]; [done|..]; simpl; unfold omap in IH.
  - rewrite filter_cons_False by done. lia.
  - lia.
Qed.
Lemma no_skipped_rows rows : skipped_rows rows = 0 → rows = Some <$> omap (λ t, t) rows.
Proof.
  unfold skipped_rows. induction rows as [|[t|] rows IH]; [done|..]; simpl.
  - rewrite filter_cons_False by done. intros H. f_equal. by apply IH.
  - lia.
Qed.

Lemma list_pages_listing n fetched after tok seen threads skipped count s r s' :
  list_pages validate_page n fetched after tok seen threads skipped count s = (Ok r, s') →
  ∃ rows k, listing after s tok rows k (grr_is_complete r) s' ∧ (k ≤ n)%nat ∧
    grr_threads r = threads ++ omap (λ t, t) rows ∧
    grr_skipped_count r = skipped + skipped_rows rows ∧ grr_page_count r = count + Z.of_nat k ∧
    grr_degradation_reasons r = (if grr_is_complete r then [] else [pagination_limit]) ∧
    grr_fetched_at r = fetched.
Proof.
  revert tok seen threads skipped count s. induction n as [|n IH]; intros tok seen threads skipped count s; cbn [list_pages].
  { intros [= <- <-]. exists [], 0%nat. cbn. rewrite app_nil_r. unfold skipped_rows. simpl.
    split_and!; [constructor|lia|done|lia|lia|done..]. }
  intros (page & s1 & Hp & H)%bind_ok. destruct (lp_next_page_token page) as [next|] eqn:Htok.
  - case_bool_decide; [done|]. apply IH in H as (rows & k & Hl & Hk & Ht & Hs & Hc & Hr & Hf).
    exists (lp_threads page ++ rows), (S k).
    split_and!; [by econstructor|lia| | |lia|done..].
    + rewrite Ht, omap_app. by rewrite app_assoc.
    + rewrite Hs, skipped_rows_app. lia.
  - injection H as <- <-. exists (lp_threads page), 1%nat. cbn.
    split_and!; [by constructor|lia|done|done|lia|done..].
Qed.

(** What the service promises of [maxResults]. *)
Definition honours_max_results : Prop :=
  ∀ after tok s page s', read_threads_page after tok s = (Ok page, s') →
    Z.of_nat (length (lp_threads page)) ≤ DEFAULT_MAX_RESULTS.
Lemma listing_length after s tok rows n whole s' :
  honours_max_results → listing after s tok rows n whole s' →
  Z.of_nat (length rows) ≤ DEFAULT_MAX_RESULTS * Z.of_nat n.
Proof.
  intros Hmax. induction 1 as [s tok page s' Hp _|s tok page s1 next rows n whole s' Hp _ _ IH|].
  - apply Hmax in Hp. lia.
  - apply Hmax in Hp. rewrite length_app. lia.
  - simpl. lia.
Qed.
End Listing.

(** ** The threads *)

Lemma project_thread_id {U : Unicode} html_tokens parseaddr thread_id wire cursor snap :
  project_thread html_tokens parseaddr thread_id wire cursor = Ok (Some snap) →
  th_thread_id snap = thread_id ∧ NoDup (th_degradation_reasons snap).
Proof.
  unfold project_thread. destruct (latest_candidate _) as [[[sent_at mid] latest]|]; [|done].
  destruct (_headers _) as [headers ambiguous]. destruct (parseaddr _) as [name address].
  destruct (_trusted_direction _) as [[sent inbox] direction].
  intros (body & _ & [= <-])%res_bind_ok. split; [done|].
  match goal with |- context [unique_in_order ?l] => apply (unique_in_order_spec l) end.
Qed.

Lemma count_of_app {A} `{EqDecision A} (x : A) l k : count_of x (l ++ k) = count_of x l + count_of x k.
Proof. unfold count_of. rewrite filter_app, length_app. lia. Qed.
Lemma count_of_NoDup {A} `{EqDecision A} (x : A) l : NoDup l → count_of x l ≤ 1.
Proof.
  unfold count_of. induction 1 as [|y l Hy Hnd IH]; [done|]. destruct (decide (y = x)) as [->|].
  - rewrite filter_cons_True by done. simpl.
    destruct (filter (λ y, y = x) l) as [|z k] eqn:Hf; [simpl; lia|].
    assert (z ∈ filter (λ y, y = x) l) as [-> ?]%list_elem_of_filter by (rewrite Hf; left). done.
  - rewrite filter_cons_False by done. done.
Qed.
Lemma count_of_absent {A} `{EqDecision A} (x : A) l : x ∉ l → count_of x l = 0.
Proof.
  intros Hx. unfold count_of. destruct (filter (λ y, y = x) l) as [|z k] eqn:Hf; [done|].
  assert (z ∈ filter (λ y, y = x) l) as [-> ?]%list_elem_of_filter by (rewrite Hf; left). done.
Qed.
Lemma count_of_nonneg {A} `{EqDecision A} (x : A) l : 0 ≤ count_of x l.
Proof. unfold count_of. lia. Qed.

Lemma from_first_suffix t pre rest : ids (t :: rest) ⊆ ids (from_first t (pre ++ t :: rest)).
Proof.
  induction pre as [|x pre IH]; simpl.
  - by rewrite bool_decide_eq_true_2.
  - case_bool_decide; [|done]. unfold ids. rewrite !fmap_cons, fmap_app, fmap_cons, !list_to_set_cons, list_to_set_app, list_to_set_cons. set_solver.
Qed.
Lemma from_first_sub t threads : ids (from_first t threads) ⊆ ids threads.
Proof.
  induction threads as [|x threads IH]; simpl; [done|]. case_bool_decide; [done|].
  unfold ids in *. rewrite fmap_cons, list_to_set_cons. set_solver.
Qed.
Lemma elem_of_thread_ids t threads : t ∈ threads → gt_id t ∈ ids threads.
Proof. intros H. unfold ids. apply elem_of_list_to_set. apply list_elem_of_fmap. eauto. Qed.

(** A listed thread is excluded from resolution or has a snapshot that is safe to resolve by. *)
Definition accounted (snapshots : list InboxThreadSnapshot) (excluded : gset text) (t : GmailThread) : Prop :=
  gt_id t ∈ excluded ∨ ∃ snap, snap ∈ snapshots ∧ th_thread_id snap = gt_id t ∧ th_resolution_safe snap = true.

Lemma accounted_mono snaps snaps' ex ex' t :
  snaps ⊆ snaps' → ex ⊆ ex' → accounted snaps ex t → accounted snaps' ex' t.
Proof. intros Hs He [H|(snap & Hin & H)]; [left; set_solver|right]. exists snap. split; [by apply Hs|done]. Qed.

(** The reasons a listing gives, which no thread gives. *)
Definition listing_reasons : list SourceReadReason := [pagination_limit; thread_list_entry_skipped; thread_projection_limit].

(** What reading threads adds to the progress: [n] details asked for, [snaps] found, [rs] given
    as reasons, [out] left out. *)
Record adds (p p' : inbox_progress) (n : nat) (snaps : list InboxThreadSnapshot) (rs : list SourceReadReason)
    (out : gset text) : Prop := mk_adds {
  ad_snapshots : ip_snapshots p' = ip_snapshots p ++ snaps;
  ad_requests : ip_detail_request_count p' = ip_detail_request_count p + Z.of_nat n;
  ad_reasons : ip_reasons p' = ip_reasons p ++ rs;
  ad_excluded : ip_excluded p' = ip_excluded p ∪ out;
  ad_complete : ip_source_is_complete p' = true → ip_source_is_complete p = true;
  ad_incomplete : ip_source_is_complete p' = false → ip_source_is_complete p = false ∨ rs ≠ [];
  ad_count : (length snaps ≤ n)%nat;
  ad_thread_reasons : Forall (λ r, r ∉ listing_reasons) rs;
  ad_often : ∀ r, count_of r rs ≤ Z.of_nat n;
}.
Lemma adds_nothing p : adds p p 0 [] [] ∅.
Proof. split; rewrite ?app_nil_r; try done; solve [lia|set_solver|by left]. Qed.
Lemma adds_trans p1 p2 p3 n m snaps1 snaps2 rs1 rs2 out1 out2 :
  adds p1 p2 n snaps1 rs1 out1 → adds p2 p3 m snaps2 rs2 out2 →
  adds p1 p3 (n + m) (snaps1 ++ snaps2) (rs1 ++ rs2) (out1 ∪ out2).
Proof.
  intros [S1 R1 G1 E1 C1 I1 L1 T1 O1] [S2 R2 G2 E2 C2 I2 L2 T2 O2]. split.
  - by rewrite S2, S1, app_assoc.
  - lia.
  - by rewrite G2, G1, app_assoc.
  - rewrite E2, E1. set_solver.
  - auto.
  - intros [H|H]%I2; [apply I1 in H as [H|H]|]; [by left|right..]; by intros [? ?]%app_nil.
  - rewrite length_app. lia.
  - by apply Forall_app.
  - intros r. rewrite count_of_app. specialize (O1 r). specialize (O2 r). lia.
Qed.

Lemma Forall_take_drop {A} (P : A → Prop) n l : Forall P (take n l) → Forall P (drop n l) → Forall P l.
Proof. intros H1 H2. rewrite <- (take_drop n l). by apply Forall_app. Qed.

Section Details.
Context {U : Unicode} {St : Type} {Tr : SourceTransport St}.
Context (html_tokens : text → list html_token) (parseaddr : text → text * text).
Context (validate_profile : text → option _WireProfile) (validate_page : text → option _WireThreadsPage).
Context (validate_detail : text → option WireThreadDetail).
Context (_max_projected_threads : nat) (_lookback : timedelta).

Abbreviation read_detail := (read_detail html_tokens parseaddr validate_detail).
Abbreviation read_details := (read_details html_tokens parseaddr validate_detail).
Abbreviation read_inbox_threads :=
  (read_inbox_threads html_tokens parseaddr validate_profile validate_page validate_detail _max_projected_threads _lookback).

(** One reason for one thread left out. *)
Lemma adds_leave_out reason left_out complete p :
  reason ∉ listing_reasons →
  adds p (leave_out reason left_out complete (count_request p)) 1 [] [reason] left_out.
Proof.
  intros Hr. split; cbn; rewrite ?app_nil_r; try done.
  - by intros [_ H]%andb_true_iff.
  - by right.
  - lia.
  - by apply Forall_singleton.
  - intros r. etrans; [apply count_of_NoDup, NoDup_singleton|lia].
Qed.
Lemma projection_reason_thread r : projection_reason r ∉ listing_reasons.
Proof. apply (bool_decide_unpack _). by destruct r. Qed.
#[local] Instance projection_reason_inj : Inj (=) (=) projection_reason.
Proof. by intros [] []. Qed.

Lemma read_detail_adds profile projected thread p s p' stop s' :
  read_detail profile projected thread p s = (Ok (p', stop), s') →
  ∃ snaps rs out, adds p p' 1 snaps rs out ∧ out ⊆ {[gt_id thread]} ∪ ids (from_first thread projected) ∧
    Forall (λ snap, th_thread_id snap = gt_id thread) snaps ∧
    (if stop then ids (from_first thread projected) ⊆ out else accounted snaps out thread).
Proof.
  unfold GmailSource.read_detail. intros (body & s1 & _ & H)%bind_ok.
  assert (accounted [] {[gt_id thread]} thread) as Hout by (left; set_solver).
  destruct body as [body|[|]].
  - destruct (_ <? _).
    { injection H as <- <- _. exists [], [thread_response_too_large], {[gt_id thread]}.
      split; [by apply adds_leave_out, (bool_decide_unpack _)|]. split_and!; [set_solver|done..]. }
    apply bind_ok in H as (detail & s2 & _ & (snapshot & s3 & Hp & H)%bind_ok).
    unfold lift_read, lift in Hp. destruct (project_thread _ _ _ _ _) as [snap'|] eqn:Hproj; [|done].
    injection Hp as -> ->. destruct snapshot as [snap|].
    + apply project_thread_id in Hproj as [Hid Hnd]. injection H as <- <- _.
      exists [snap], (projection_reason <$> th_degradation_reasons snap),
        (if th_resolution_safe snap then ∅ else {[gt_id thread]}).
      split; [split; cbn; try done|].
      * destruct (th_resolution_safe snap); set_solver.
      * by left.
      * apply Forall_fmap, Forall_true. apply projection_reason_thread.
      * intros r. etrans; [apply count_of_NoDup, (NoDup_fmap_2 projection_reason), Hnd|lia].
      * split; [destruct (th_resolution_safe snap); set_solver|]. split; [by apply Forall_singleton|].
        destruct (th_resolution_safe snap) eqn:Hs; [right|left; set_solver]. exists snap. split; [left|done].
    + injection H as <- <- _. exists [], [thread_without_projectable_message], {[gt_id thread]}.
      split; [by apply adds_leave_out, (bool_decide_unpack _)|]. split_and!; [set_solver|done..].
  - injection H as <- <- _. exists [], [thread_response_too_large], {[gt_id thread]}.
    split; [by apply adds_leave_out, (bool_decide_unpack _)|]. split_and!; [set_solver|done..].
  - injection H as <- <- _. exists [], [sync_budget_exhausted], (ids (from_first thread projected)).
    split; [by apply adds_leave_out, (bool_decide_unpack _)|]. split_and!; [set_solver|done..].
Qed.

Lemma read_details_adds profile projected pre rest p s p' s' :
  projected = pre ++ rest → read_details profile projected rest p s = (Ok p', s') →
  ∃ n snaps rs out, adds p p' n snaps rs out ∧ (n ≤ length rest)%nat ∧ out ⊆ ids projected ∧
    Forall (λ snap, th_thread_id snap ∈ ids projected) snaps ∧ Forall (accounted snaps out) rest.
Proof.
  revert pre p s. induction rest as [|t rest IH]; intros pre p s Heq; cbn [GmailSource.read_details].
  { intros [= <- _]. exists 0%nat, [], [], ∅.
    split_and!; [apply adds_nothing|simpl; lia|set_solver|by apply Forall_nil..]. }
  intros ([p1 stop] & s1 & (snaps & rs & out & Hadd & Hout & Hids & Hstop)%read_detail_adds & H)%bind_ok.
  assert (gt_id t ∈ ids projected) as Ht.
  { apply elem_of_thread_ids. rewrite Heq. apply elem_of_app. right. left. }
  assert (out ⊆ ids projected) as Hsub by (pose proof (from_first_sub t projected); set_solver).
  assert (Forall (λ snap, th_thread_id snap ∈ ids projected) snaps) as Hsnaps.
  { eapply Forall_impl; [exact Hids|]. by intros snap ->. }
  destruct stop.
  - injection H as <- _. exists 1%nat, snaps, rs, out. split_and!; [done|simpl; lia|done..|].
    pose proof (from_first_suffix t pre rest) as Hsuf. rewrite <- Heq in Hsuf.
    apply Forall_forall. intros x Hx. left. apply Hstop, Hsuf. by apply elem_of_thread_ids.
  - apply (IH (pre ++ [t])) in H as (n & snaps2 & rs2 & out2 & Hadd2 & Hn & Hout2 & Hids2 & Hacc); [|by rewrite <- app_assoc].
    exists (1 + n)%nat, (snaps ++ snaps2), (rs ++ rs2), (out ∪ out2).
    split_and!; [by eapply adds_trans|simpl; lia|set_solver|by apply Forall_app|].
    constructor; [|eapply Forall_impl; [exact Hacc|]; intros x Hx].
    + eapply accounted_mono; [..|exact Hstop]; set_solver.
    + eapply accounted_mono; [..|exact Hx]; set_solver.
Qed.

(** The parts of an inbox read. *)
Lemma read_inbox_parts now s r s' :
  read_inbox_threads now s = (Ok r, s') →
  ∃ profile listed s1 s2 p n snaps rs out,
    read_profile validate_profile s = (Ok profile, s1) ∧ list_threads validate_page _lookback now s1 = (Ok listed, s2) ∧
    r = inbox_result _max_projected_threads profile listed p ∧
    adds (start_progress _max_projected_threads listed) p n snaps rs out ∧
    (n ≤ length (take _max_projected_threads (grr_threads listed)))%nat ∧
    out ⊆ ids (grr_threads listed) ∧
    Forall (λ snap, th_thread_id snap ∈ ids (grr_threads listed)) snaps ∧
    Forall (accounted snaps out) (take _max_projected_threads (grr_threads listed)).
Proof.
  intros (profile & s1 & H1 & (listed & s2 & H2 & (p & s3 & H3 & [= <- _])%bind_ok)%bind_ok)%bind_ok.
  apply (read_details_adds _ _ []) in H3 as (n & snaps & rs & out & Ha & Hn & Hout & Hs & Hacc); [|done].
  assert (ids (take _max_projected_threads (grr_threads listed)) ⊆ ids (grr_threads listed)) as Hsub.
  { unfold ids. rewrite <- (take_drop _max_projected_threads (grr_threads listed)) at 2.
    rewrite fmap_app, list_to_set_app. set_solver. }
  exists profile, listed, s1, s2, p, n, snaps, rs, out.
  split_and!; [done..|set_solver| |done]. eapply Forall_impl; [exact Hs|]. set_solver.
Qed.

Lemma list_threads_listing now s r s' :
  list_threads validate_page _lookback now s = (Ok r, s') →
  ∃ after rows k, dt_add now (- _lookback) = Ok after ∧
    listing validate_page ("after:" +:+ pretty (timestamp_seconds after)) s None rows k (grr_is_complete r) s' ∧
    (k ≤ DEFAULT_MAX_PAGES)%nat ∧ grr_threads r = omap (λ t, t) rows ∧
    grr_skipped_count r = skipped_rows rows ∧ grr_page_count r = Z.of_nat k ∧
    grr_degradation_reasons r = (if grr_is_complete r then [] else [pagination_limit]) ∧
    grr_fetched_at r = utc_iso now.
Proof.
  intros (after & s1 & Ha & H)%bind_ok. unfold lift_read, lift in Ha.
  destruct (dt_add now (- _lookback)); [|done]. injection Ha as -> <-.
  apply list_pages_listing in H as (rows & k & Hl & Hk & Ht & Hs & Hc & Hr & Hf).
  exists after, rows, k. split_and!; try done; by rewrite ?Ht, ?Hs, ?Hc.
Qed.

Lemma size_ids threads : (size (ids threads) ≤ length threads)%nat.
Proof.
  unfold ids. induction threads as [|t threads IH]; [by rewrite fmap_nil, list_to_set_nil, size_empty|].
  rewrite fmap_cons, list_to_set_cons. rewrite size_union_alt, size_singleton. simpl.
  apply le_n_S. etrans; [|exact IH]. apply subseteq_size. set_solver.
Qed.

Lemma ids_drop n threads : ids (drop n threads) ⊆ ids threads.
Proof.
  unfold ids. intros i. rewrite !elem_of_list_to_set, !list_elem_of_fmap. intros (t & -> & Ht).
  exists t. split; [done|]. rewrite <- (take_drop n threads). apply elem_of_app. by right.
Qed.

(** The counts of a read, and the reasons of one that is not complete. *)
Lemma inbox_read_counts now s r s' :
  honours_max_results validate_page → read_inbox_threads now s = (Ok r, s') →
  (0 ≤ gir_page_count r ≤ Z.of_nat DEFAULT_MAX_PAGES) ∧
  (0 ≤ gir_request_count r ≤ 1 + Z.of_nat DEFAULT_MAX_PAGES + Z.of_nat _max_projected_threads) ∧
  (0 ≤ gir_projected_thread_count r ≤ Z.of_nat _max_projected_threads) ∧
  (0 ≤ gir_excluded_thread_count r ≤ DEFAULT_MAX_RESULTS * Z.of_nat DEFAULT_MAX_PAGES) ∧
  NoDup (gir_degradation_reason_counts r).*1 ∧
  Forall (λ e, 0 ≤ e.2 ≤ Z.max 1 (Z.of_nat _max_projected_threads)) (gir_degradation_reason_counts r) ∧
  (gir_degradation_reasons r = (gir_degradation_reason_counts r).*1) ∧
  (gir_coverage_complete r = false → gir_degradation_reasons r ≠ []).
Proof.
  intros Hmax (profile & listed & s1 & s2 & p & n & snaps & rs & out & _ & H2 & -> & Ha & Hn & Hout & Hs & Hacc)%read_inbox_parts.
  apply list_threads_listing in H2 as (after & rows & k & Hafter & Hl & Hk & Ht & Hsk & Hc & Hr & Hf).
  apply listing_length in Hl; [|done]. rewrite length_take in Hn.
  destruct Ha as [Asnaps Areq Areas Aex Acomp Ainc Alen Athr Aoft]. cbn in Asnaps, Areq, Areas, Aex, Acomp, Ainc.
  cbn [gir_page_count gir_request_count gir_projected_thread_count gir_excluded_thread_count inbox_result
    gir_degradation_reason_counts gir_degradation_reasons gir_coverage_complete].
  assert ((counter (ip_reasons p)).*1 = unique_in_order (ip_reasons p)) as Hkeys.
  { unfold counter. rewrite <- list_fmap_compose. apply list_fmap_id. }
  rewrite Hkeys. destruct (unique_in_order_spec (ip_reasons p)) as [Hnd Hin]. split_and!; try done; try lia.
  - rewrite Asnaps. simpl. lia.
  - rewrite Aex. assert (ids (drop _max_projected_threads (grr_threads listed)) ∪ out ⊆ ids (grr_threads listed)) as Hsub.
    { pose proof (ids_drop _max_projected_threads (grr_threads listed)). set_solver. }
    apply subseteq_size in Hsub. pose proof (size_ids (grr_threads listed)).
    pose proof (kept_rows_length rows). rewrite Ht in *. unfold skipped_rows, DEFAULT_MAX_RESULTS, DEFAULT_MAX_PAGES in *. lia.
  - unfold counter. apply Forall_fmap, Forall_true. intros x. cbn [fst snd compose].
    split; [apply count_of_nonneg|]. rewrite Areas, count_of_app. specialize (Aoft x).
    match goal with |- count_of x ?l + _ ≤ _ => assert (NoDup l ∧ Forall (λ y, y ∈ listing_reasons) l) as [Hnl Hll] end.
    { rewrite Hr. destruct (grr_is_complete listed), (grr_skipped_count listed =? 0), (bool_decide _);
        (split; apply (bool_decide_unpack _); vm_compute; done). }
    destruct (decide (x ∈ listing_reasons)) as [Hx|Hx].
    + rewrite (count_of_absent x rs); [pose proof (count_of_NoDup x _ Hnl); lia|].
      intros Hin'. rewrite Forall_forall in Athr. by apply (Athr x).
    + rewrite count_of_absent; [lia|]. intros Hin'. rewrite Forall_forall in Hll. by apply Hx, Hll.
  - intros Hinc Hnil%unique_in_order_nil. rewrite Areas in Hnil. apply app_nil in Hnil as [Hstart Hrs].
    apply Ainc in Hinc as [Hinc|]; [|done]. rewrite Hr in Hstart.
    destruct (grr_is_complete listed), (grr_skipped_count listed =? 0), (bool_decide (drop _ _ = [])); done.
Qed.

(** C14. An inbox read leaves no listed thread unaccounted: each is excluded from resolution by name
    or has a snapshot that is safe to resolve by, and the safe ids are exactly those of the
    safe snapshots.  Absence may be taken as evidence only when the listing was followed to its
    last page, every row of it named a thread, and no thread was beyond the projection limit;
    full coverage implies that. *)
Theorem listed_threads_are_accounted now s r s' :
  read_inbox_threads now s = (Ok r, s') →
  ∃ after query_from s1 s2 rows k whole,
    dt_add now (- _lookback) = Ok after ∧
    query_from = ("after:" +:+ pretty (timestamp_seconds after))%string ∧
    listing validate_page query_from s1 None rows k whole s2 ∧
    Forall (accounted (gir_threads r) (gir_resolution_excluded_thread_ids r)) (omap (λ t, t) rows) ∧
    Forall (λ snap, th_thread_id snap ∈ ids (omap (λ t, t) rows)) (gir_threads r) ∧
    (∀ i, i ∈ gir_resolution_safe_thread_ids r ↔
       ∃ snap, snap ∈ gir_threads r ∧ th_thread_id snap = i ∧ th_resolution_safe snap = true) ∧
    (gir_allows_absent_resolution r = true →
       whole = true ∧ rows = Some <$> omap (λ t, t) rows ∧ (length rows ≤ _max_projected_threads)%nat) ∧
    (gir_coverage_complete r = true → gir_allows_absent_resolution r = true).
Proof.
  intros (profile & listed & s1 & s2 & p & n & snaps & rs & out & _ & H2 & -> & Ha & Hn & Hout & Hs & Hacc)%read_inbox_parts.
  apply list_threads_listing in H2 as (after & rows & k & Hafter & Hl & Hk & Ht & Hsk & Hc & Hr & Hf).
  destruct Ha as [Asnaps _ _ Aex Acomp _ _ _ _]. cbn in Asnaps, Aex, Acomp.
  exists after, ("after:" +:+ pretty (timestamp_seconds after))%string, s1, s2, rows, k, (grr_is_complete listed).
  split_and!; [done..| | | | |]; cbn [gir_threads gir_resolution_excluded_thread_ids gir_resolution_safe_thread_ids
    gir_allows_absent_resolution gir_coverage_complete inbox_result]; rewrite ?Asnaps, ?Aex, <- ?Ht.
  - apply (Forall_take_drop _ _max_projected_threads).
    + eapply Forall_impl; [exact Hacc|]. intros x Hx. eapply accounted_mono; [..|exact Hx]; set_solver.
    + apply Forall_forall. intros x Hx%elem_of_thread_ids. left. apply elem_of_union. by left.
  - done.
  - intros i. rewrite elem_of_list_to_set, list_elem_of_fmap. split.
    + intros (snap & -> & [Hsafe Hin]%list_elem_of_filter). eauto.
    + intros (snap & Hin & <- & Hsafe). exists snap. split; [done|]. by apply list_elem_of_filter.
  - intros [[-> Hz]%andb_true_iff Hlen%bool_decide_eq_true]%andb_true_iff. split; [done|].
    assert (rows = Some <$> grr_threads listed) as Hrows by (rewrite Ht; apply no_skipped_rows; lia).
    split; [done|]. apply (f_equal length) in Hrows. rewrite length_fmap in Hrows. rewrite length_take in Hlen. lia.
  - intros [[-> Hz]%andb_true_iff Hlim]%Acomp%andb_true_iff. rewrite negb_involutive in Hz, Hlim.
    rewrite Hz. apply bool_decide_eq_true in Hlim. apply bool_decide_eq_true.
    rewrite length_take. apply (f_equal length) in Hlim. rewrite length_drop in Hlim. simpl in Hlim. lia.
Qed.

(** Whatever the requests preserve, the read preserves. *)
Lemma read_inbox_threads_preserves (R : relation St) `{!PreOrder R} now :
  (∀ url query, Preserves R (request url query)) → Preserves R (read_inbox_threads now).
Proof.
  intros Hreq.
  assert (∀ url query, Preserves R (_get url query : M St read_error text)) as Hget.
  { intros url query. unfold _get. apply preserves_bind; [apply _..|]. intros response.
    apply preserves_option; [apply _|]. apply _. }
  assert (∀ {A} (v : text → option A) body, Preserves R (parse_json v body : M St read_error A)) as Hparse.
  { intros A v body. unfold parse_json. apply _. }
  unfold GmailSource.read_inbox_threads. apply preserves_bind; [apply _| |].
  { unfold read_profile, parse_profile. apply _. }
  intros profile. apply preserves_bind; [apply _| |].
  { unfold list_threads, lift_read. apply preserves_bind; [apply _..|]. intros after.
    assert (∀ n fetched q tok seen threads skipped count,
      Preserves R (list_pages validate_page n fetched q tok seen threads skipped count)) as Hpages; [|apply Hpages].
    induction n as [|n IH]; intros; cbn [list_pages]; [apply _|].
    unfold read_threads_page, parse_thread_list_page. apply preserves_bind; [apply _..|]. intros page.
    destruct (lp_next_page_token page); [|apply _]. apply preserves_if; [apply _|apply IH]. }
  intros listed. apply preserves_bind; [apply _| |intros p; apply _].
  generalize (start_progress _max_projected_threads listed).
  generalize (take _max_projected_threads (grr_threads listed)) at 1. intros projected.
  induction (take _max_projected_threads (grr_threads listed)) as [|t rest IH]; intros p; cbn [GmailSource.read_details]; [apply _|].
  apply preserves_bind; [apply _| |intros [p1 []]; [apply _|apply IH]].
  unfold GmailSource.read_detail. apply preserves_bind; [apply _| |].
  { intros x r x'. unfold catch_limit. destruct (_get _ _ x) as [[a|e] x1] eqn:Hx.
    - intros [= _ <-]. by eapply Hget.
    - apply Hget in Hx. by destruct e; intros [= _ <-]. }
  intros [body|[|]]; [|apply _..]. unfold lift_read. apply _.
Qed.
End Details.

(** ** A concrete inbox *)

(** Two pages of threads, one of them beyond the response limit, answered by URL and token. *)
#[local] Instance sample_gmail : SourceTransport unit := λ url query s,
  (Ok (if bool_decide (url = GMAIL_PROFILE_URL) then mk_response 200 "profile" None
       else if bool_decide (url = GMAIL_THREADS_URL)
       then mk_response 200 (default "first"%string (dict_get "pageToken" query)) None
       else if bool_decide (url = GMAIL_THREADS_URL +:+ "/b%2F2")%string then mk_response 200 "" (Some LimitResponse)
       else mk_response 200 "detail" None), s).
Definition sample_validate_profile (_ : text) : option _WireProfile :=
  Some (mk_wire_profile "me@example.org" 10 5 "77").
Definition sample_validate_page (body : text) : option _WireThreadsPage :=
  if bool_decide (body = "first"%string)
  then Some (mk_wire_threads [mk_wire_thread (Some "t1"%string) None; mk_wire_thread (Some "b/2"%string) None] (Some "second"%string))
  else Some (mk_wire_threads [mk_wire_thread (Some "t3"%string) (Some "9"%string)] None).
Definition sample_validate_detail (_ : text) : option WireThreadDetail := Some sample_detail.
Definition sample_inbox_read : M unit read_error GmailInboxReadResult :=
  read_inbox_threads (U := ascii_unicode) sample_tokens sample_parseaddr sample_validate_profile sample_validate_page
    sample_validate_detail 2 DEFAULT_LOOKBACK calendar_now.
Definition sample_inbox : GmailInboxReadResult :=
  match (sample_inbox_read tt).1 with
  | Ok r => r
  | Err _ => mk_inbox_read [] "" "" 0 false [] 0 0 0 false ∅ ∅ []
  end.
Example sample_inbox_result :
  (th_thread_id <$> gir_threads sample_inbox, gir_request_count sample_inbox, gir_degradation_reason_counts sample_inbox,
   gir_coverage_complete sample_inbox, elements (gir_resolution_safe_thread_ids sample_inbox)) =
  (["t1"%string], 5, [(thread_projection_limit, 1); (thread_response_too_large, 1)], false, ["t1"%string]).
Proof. vm_compute. reflexivity. Qed.

Lemma listed_threads_are_accounted_witness :
  gir_request_count sample_inbox = 5 ∧
  (gir_coverage_complete sample_inbox = true → gir_allows_absent_resolution sample_inbox = true).
Proof.
  split; [vm_compute; reflexivity|].
  assert (sample_inbox_read tt = (Ok sample_inbox, tt)) as Hrun by (vm_compute; reflexivity).
  apply listed_threads_are_accounted in Hrun as (after & q & s1 & s2 & rows & k & whole & H).
  destruct H as (_ & _ & _ & _ & _ & _ & _ & H). exact H.
Defined.
