(* ===== verification/Health.v ===== *)
(** The coherent read of source state ([store/_sync_snapshot.py], and [list_source_sync]
    of [store/sync.py]): one snapshot of the sync rows, the Gmail diagnostics, the
    generations and the credential state. *)
From S2P Require Import Prelude PyDate PyTime Models SourceSync.
Import Diagnostics SyncState Freshness.
#[local] Open Scope Z_scope.

(** The texts of the closed enumerations, as the tables and the answers hold them. *)
Definition source_text (s : SourceName) : text :=
  match s with Gmail => "gmail" | Calendar => "calendar" end.
Definition error_code_text (c : SourceErrorCode) : text :=
  match c with
  | invalid_grant => "invalid_grant" | scope_mismatch => "scope_mismatch"
  | http_4xx => "http_4xx" | http_5xx => "http_5xx" | network => "network"
  | resource_limit => "resource_limit" | timeout => "timeout" | degraded => "degraded"
  | unknown => "unknown"
  end.
Definition reason_text (r : SourceReadReason) : text :=
  match r with
  | ReasonError c => error_code_text c
  | body_snippet_fallback => "body_snippet_fallback" | body_truncated => "body_truncated"
  | direction_metadata_ambiguous => "direction_metadata_ambiguous"
  | direction_metadata_missing => "direction_metadata_missing"
  | identity_headers_ambiguous => "identity_headers_ambiguous"
  | mime_structure_truncated => "mime_structure_truncated"
  | never_synced => "never_synced" | not_configured => "not_configured"
  | pagination_limit => "pagination_limit" | stale => "stale"
  | sync_budget_exhausted => "sync_budget_exhausted"
  | thread_list_entry_skipped => "thread_list_entry_skipped"
  | thread_projection_limit => "thread_projection_limit"
  | thread_response_too_large => "thread_response_too_large"
  | thread_without_projectable_message => "thread_without_projectable_message"
  end.
Definition freshness_text (s : SourceFreshnessStatus) : text :=
  match s with
  | FreshNotConfigured => "not_configured" | NeverSynced => "never_synced" | FreshOk => "ok"
  | Stale => "stale" | FreshError => "error" | FreshNeedsReauth => "needs_reauth"
  end.

Record CredentialOperationalState := mk_credential_operational {
  cop_state : SourceCredentialState;
  cop_observed_at : option Z;
}.

(** The generations keep their timestamps as the text of the table. *)
Record SourceHealthSnapshot := mk_health {
  hs_gmail : SourceSyncState;
  hs_calendar : SourceSyncState;
  hs_gmail_diagnostics : option SourceReadDiagnostics;
  hs_gmail_generation : SourceGenerationState;
  hs_calendar_generation : SourceGenerationState;
  hs_credential : CredentialOperationalState;
}.

(** [ORDER BY reason]. *)
Definition read_diagnostics (g : SourceReadDiagnostics) : SourceReadDiagnostics :=
  mk_diagnostics (dg_outcome g) (dg_request_count g) (dg_page_count g) (dg_projected_count g)
    (dg_excluded_count g) (dg_byte_budget g)
    (order_by (λ r, [KText (reason_text (rc_reason r))]) (dg_reason_counts g)).

Section Health.
(** Pydantic's reading of a stored timestamp. *)
Context (parse_datetime : text → option Z).

(** The [dict] of the captured rows by source: one row per source. *)
Definition source_state (s : SourceName) (d : db) : SourceSyncState :=
  decode_row parse_datetime (sync_row s d).

Definition health (d : db) : SourceHealthSnapshot :=
  mk_health (source_state Gmail d) (source_state Calendar d)
    (read_diagnostics <$> gmail_diagnostics d)
    (Generation.generation_state Gmail d) (Generation.generation_state Calendar d)
    (match credential_state d with
     | Some c => mk_credential_operational (cr_state c) (parse_datetime (cr_observed_at c))
     | None => mk_credential_operational CredentialUnknown None
     end).

Definition list_source_sync (d : db) : SourceSyncState * SourceSyncState :=
  (source_state Gmail d, source_state Calendar d).
End Health.
