(* ===== verification/Engine.v ===== *)
(** The evaluation pass ([situations/engine.py] over the snapshots of
    [situations/inputs.py]): wake and expire, run the three detectors, apply their findings,
    and report the health of the sources. *)
From stdpp Require Import pretty.
From S2P Require Import Prelude PyDate PyTime Models SourceSync Situations StateMachine Resolution Memory CalendarConflict PersonalOccasion DeadlineText ReplyDeadline Health Config.
Import SyncState Freshness Reader Sql Upsert Store.
#[local] Open Scope Z_scope.

(** ** Inputs and outcome *)

Record SourceSnapshot (A : Type) := mk_snapshot {
  sn_generation : SourceGeneration;
  sn_items : list A;
  sn_complete : bool;
  sn_sync_cursor : option text;
  sn_warning_codes : list text;
  sn_error_code : option SourceErrorCode;
  sn_resolve_absent : bool;
  sn_resolution_scope_ids : list text;
  sn_resolution_excluded_ids : list text;
}.
Arguments mk_snapshot {_}.
Arguments sn_generation {_}.
Arguments sn_items {_}.
Arguments sn_complete {_}.
Arguments sn_sync_cursor {_}.
Arguments sn_warning_codes {_}.
Arguments sn_error_code {_}.
Arguments sn_resolve_absent {_}.
Arguments sn_resolution_scope_ids {_}.
Arguments sn_resolution_excluded_ids {_}.

Record EngineInputs := mk_inputs {
  in_gmail_threads : option (SourceSnapshot InboxThreadSnapshot);
  in_calendar_events : option (SourceSnapshot CalendarEvent);
  in_gmail_diagnostics : option SourceReadDiagnostics;
}.
Definition no_inputs : EngineInputs := mk_inputs None None None.

Record EvaluationResult := mk_evaluation {
  er_created : Z;
  er_reactivated : Z;
  er_refreshed : Z;
  er_resolved : Z;
  er_expired : Z;
  er_woken : Z;
  er_warnings : list text;
  er_gmail_freshness : SourceFreshness;
  er_calendar_freshness : SourceFreshness;
  er_accepted_gmail_diagnostics : option SourceReadDiagnostics;
}.

Definition _CAPACITY_WARNING_PREFIX : text := "situations: persistence capacity rejected".
Definition _CAPACITY_WARNING_SUFFIX : text := "detection(s); results may be incomplete".

Definition conflict_warning_text (c : CalendarConflictWarningCode) : text :=
  match c with CalendarConflictOutputOverflow => "calendar_conflict_output_overflow" end.

(** The readings of the clock one pass makes, in the order of the calls. *)
Record pass_clock := mk_pass_clock {
  pc_now : instant;
  pc_woken : instant;
  pc_expired : instant;
  pc_local : instant;
  pc_gmail : instant; pc_gmail_accept : instant; pc_gmail_sync : instant;
  pc_calendar : instant; pc_calendar_accept : instant; pc_calendar_sync : instant;
}.

(** A detector's exception in the pass. *)
Definition lift_scan_exn {A} (r : res scan_error A) : op A :=
  lift match r with
       | Ok a => Ok a
       | Err (ScanTimeError e) => Err (TimeError e)
       | Err ScanKeyError => Err MappingKeyError
       end.
Definition lift_conflict_exn {A} (r : res conflict_error A) : op A :=
  lift match r with
       | Ok a => Ok a
       | Err (ConflictTimeError e) => Err (TimeError e)
       | Err KeyError => Err MappingKeyError
       end.

(** [try: ... except DelayedSourceGenerationError]. *)
Definition catch_delayed {A} (m : op A) : op (option A) := λ d,
  match m d with
  | (Ok a, d') => (Ok (Some a), d')
  | (Err (DelayedSourceGenerationError _ _), d') => (Ok None, d')
  | (Err e, d') => (Err e, d')
  end.

Definition generation_status (complete : bool) : SourceGenerationStatus :=
  if complete then Complete else Degraded.
Definition source_warnings (s : SourceName) (codes : list text) : list text :=
  (λ code, source_text s +:+ ": " +:+ code)%string <$> codes.
Definition delayed_warning {A} (s : SourceName) (applied : option A) : list text :=
  match applied with
  | None => [source_text s +:+ ": delayed source generation ignored"]%string
  | Some _ => []
  end.

Definition skipped_warning (s : SourceName) (was_skipped : bool) (f : SourceFreshness) : list text :=
  if was_skipped && negb (bool_decide (fr_status f = FreshOk))
  then [source_text s +:+ ": skipped this pass (no snapshot); situations kept"]%string else [].
Definition unhealthy_warning (s : SourceName) (f : SourceFreshness) : list text :=
  if negb (bool_decide (fr_status f = FreshOk))
  then [source_text s +:+ ": source is " +:+ freshness_text (fr_status f)]%string else [].

Definition _warnings (inputs : EngineInputs) (gmail calendar : SourceFreshness)
    (source_warnings : list text) : list text :=
  source_warnings ++
  skipped_warning Gmail (bool_decide (in_gmail_threads inputs = None)) gmail ++
  skipped_warning Calendar (bool_decide (in_calendar_events inputs = None)) calendar ++
  unhealthy_warning Gmail gmail ++ unhealthy_warning Calendar calendar.

Definition total (f : DetectionApplySummary → Z) (applied : list DetectionApplySummary) : Z :=
  foldr (λ a n, f a + n) 0 applied.
Definition capacity_warning (skipped : Z) : list text :=
  if skipped =? 0 then []
  else [join " " [_CAPACITY_WARNING_PREFIX; pretty skipped; _CAPACITY_WARNING_SUFFIX]].

Section Engine.
Context {U : Unicode} {T : CharTables}.
Context (dump_json : SituationEvidence → text) (parse_datetime : text → option Z).
Context (tz : tzinfo) (detectors : DetectorSettings).

(** The branch [if gmail is not None]. *)
Definition gmail_pass (k : pass_clock) (diagnostics : option SourceReadDiagnostics)
    (gmail : SourceSnapshot InboxThreadSnapshot) : op (list DetectionApplySummary * list text) :=
  detections ← lift_scan_exn (detect_reply_deadlines (sn_items gmail) (pc_now k) tz (reply_threshold detectors));
  applied ← catch_delayed (apply_source_generation dump_json (pc_gmail k) (pc_gmail_accept k) (pc_gmail_sync k)
    (sn_generation gmail) detections (generation_status (sn_complete gmail)) (sn_sync_cursor gmail)
    (sn_error_code gmail) diagnostics
    (mk_resolution_args (sn_resolve_absent gmail) (sn_resolution_scope_ids gmail) (sn_resolution_excluded_ids gmail)));
  mret (option_list applied, delayed_warning Gmail applied ++ source_warnings Gmail (sn_warning_codes gmail)).

Definition calendar_pass (k : pass_clock) (calendar : SourceSnapshot CalendarEvent)
    : op (list DetectionApplySummary * list text) :=
  run ← lift_conflict_exn (run_calendar_conflict_detection (pc_now k) tz
    (calendar_critical_window detectors) (calendar_high_window detectors) (sn_items calendar));
  applied ← catch_delayed (apply_source_generation dump_json (pc_calendar k) (pc_calendar_accept k) (pc_calendar_sync k)
    (sn_generation calendar) (cr_detections run)
    (generation_status (sn_complete calendar && cr_resolution_safe run)) (sn_sync_cursor calendar)
    (sn_error_code calendar) None no_resolution);
  mret (option_list applied,
    delayed_warning Calendar applied ++ source_warnings Calendar (sn_warning_codes calendar) ++
    source_warnings Calendar (conflict_warning_text <$> cr_warning_codes run)).

Definition skipped_pass : op (list DetectionApplySummary * list text) := mret ([], []).

(** [SituationEngine.evaluate]; the memory tables are only read. *)
Definition evaluate (k : pass_clock) (memory : memory_db) (inputs : EngineInputs) : op EvaluationResult :=
  woken ← wake_snoozed (pc_woken k);
  expired ← expire_lapsed (pc_expired k);
  occasions ← lift_time (detect_personal_occasions (list_dated_memories memory) (pc_now k) tz
    (occasion_default_lead_days detectors));
  local ← apply_local_detections dump_json (pc_local k) occasions;
  gmail ← (match in_gmail_threads inputs with
           | Some gmail => gmail_pass k (in_gmail_diagnostics inputs) gmail
           | None => skipped_pass
           end);
  calendar ← (match in_calendar_events inputs with
              | Some calendar => calendar_pass k calendar
              | None => skipped_pass
              end);
  source_health ← gets (health parse_datetime);
  let gmail_freshness := evaluate_source_freshness (hs_gmail source_health) (pc_now k) DEFAULT_STALE_AFTER in
  let calendar_freshness := evaluate_source_freshness (hs_calendar source_health) (pc_now k) DEFAULT_STALE_AFTER in
  let applied := local :: gmail.1 ++ calendar.1 in
  let warnings := _warnings inputs gmail_freshness calendar_freshness
    (gmail.2 ++ calendar.2 ++ capacity_warning (total (λ a, capacity_skipped (upsert a)) applied)) in
  mret (mk_evaluation
    (total (λ a, created (upsert a)) applied) (total (λ a, reactivated (upsert a)) applied)
    (total (λ a, refreshed (upsert a)) applied) (total resolved applied) expired woken warnings
    gmail_freshness calendar_freshness (hs_gmail_diagnostics source_health)).
End Engine.

(** ** The parts of a pass *)

Lemma catch_delayed_ok {A} (m : op A) o d d' :
  catch_delayed (immediate_transaction m) d = (Ok o, d') →
  match o with
  | Some a => immediate_transaction m d = (Ok a, d')
  | None => d' = d ∧ ∃ g n, immediate_transaction m d = (Err (DelayedSourceGenerationError g n), d)
  end.
Proof.
  unfold catch_delayed. destruct (immediate_transaction m d) as [[a|e] d1] eqn:Hm; [by intros [= <- <-]|].
  pose proof (transaction_rolls_back _ _ _ _ Hm) as ->. destruct e; intros [= <- <-]; eauto.
Qed.

#[export] Instance preserves_catch_delayed (R : relation db) `{!PreOrder R} {A} (m : op A) :
  Preserves R m → Preserves R (catch_delayed m).
Proof.
  intros Hm d r d'. unfold catch_delayed. destruct (m d) as [[a|e] d1] eqn:Hrun.
  - intros [= _ <-]. by eapply Hm.
  - apply Hm in Hrun. by destruct e; intros [= _ <-].
Qed.

Lemma source_write_total now_s s status cur ec d : ∃ d', source_write now_s s status cur ec d = (Ok tt, d').
Proof. unfold source_write. destruct ec as [[]|], status; by eexists. Qed.

(** A source row that cannot be [ok]. *)
Definition flawed (s : SourceName) (d : db) : Prop :=
  ss_auth_state (sync_row s d) ≠ Configured ∨ ss_last_error_code (sync_row s d) ≠ None.

Lemma sync_row_upsert s s' new f d :
  ss_source new = s → (∀ r, ss_source (f r) = ss_source r) →
  sync_row s' (upsert_sync s new f d).2 =
    if decide (s = s')
    then match sql_find (has_source s) (sync_states d) with Some r => f r | None => new end
    else sync_row s' d.
Proof.
  intros Hnew Hf. unfold upsert_sync, modify, sync_row. cbn [snd sync_states set_sync_states].
  rewrite find_sync_upsert by done. by case_decide.
Qed.

Lemma flawed_failure now s c d : flawed s (record_failure now s c d).2.
Proof.
  right. unfold record_failure. rewrite sync_row_upsert by done. rewrite decide_True by done.
  by destruct (sql_find _ _).
Qed.
Lemma flawed_reauth now c s d : flawed s (write_google_auth now NeedsReauth c d).2.
Proof.
  left. destruct (all_auth_write now NeedsReauth c d s) as (r & Hr & Ha). unfold sync_row.
  rewrite Hr. simpl. by rewrite Ha.
Qed.

Lemma source_write_flawed now_s s status cur ec d d' :
  source_write now_s s status cur ec d = (Ok tt, d') → status = Degraded ∨ ec ≠ None → flawed s d'.
Proof.
  intros Hw Hbad. assert (d' = (source_write now_s s status cur ec d).2) as -> by (by rewrite Hw).
  unfold source_write. destruct ec as [c|].
  - destruct c; [apply flawed_reauth|apply flawed_failure..].
  - destruct status; [by destruct Hbad|]. apply flawed_failure.
Qed.
Lemma source_write_other now_s s s' status cur ec d d' :
  source_write now_s s status cur ec d = (Ok tt, d') → s ≠ s' → flawed s' d → flawed s' d'.
Proof.
  intros Hw Hne Hf. assert (d' = (source_write now_s s status cur ec d).2) as -> by (by rewrite Hw).
  assert (∀ new f, ss_source new = s → (∀ r, ss_source (f r) = ss_source r) →
    flawed s' (upsert_sync s new f d).2) as Hother.
  { intros new f Hnew Hkeep. unfold flawed. by rewrite sync_row_upsert, decide_False. }
  unfold source_write. destruct ec as [c|].
  - destruct c; [apply flawed_reauth|by apply Hother..].
  - destruct status; by apply Hother.
Qed.

(** What an applied batch leaves of its own source and of the other. *)
Section Applied.
Context (dump_json : SituationEvidence → text).

Lemma accept_source_parts now gen status dg d d' :
  accept_source_generation now gen status dg d = (Ok tt, d') →
  ∃ d2, Generation.accept now gen status d = (Ok tt, d2) ∧
    sync_states d' = sync_states d2 ∧ generations d' = generations d2.
Proof.
  unfold accept_source_generation.
  intros ([] & d1 & H1 & ([] & d2 & H2 & H3)%bind_ok)%bind_ok. exists d2.
  assert (d1 = d) as ->.
  { destruct dg as [g|]; [|by inversion H1]. destruct (negb _); [by inversion H1|].
    unfold Diagnostics.validate in H1. destruct (Diagnostics.diagnostics_valid g); by inversion H1. }
  split; [done|]. destruct dg as [g|]; [|by inversion H3].
  unfold Diagnostics.write in H3. destruct (_ && _); by inversion H3.
Qed.
Lemma accept_keeps_sync now gen status dg d d' :
  accept_source_generation now gen status dg d = (Ok tt, d') → sync_states d' = sync_states d.
Proof.
  intros (d2 & H2 & -> & _)%accept_source_parts.
  unfold Generation.accept in H2. rewrite gets_bind, modify_bind in H2.
  destruct (negb _); [by inversion H2|]. rewrite gets_bind in H2. by destruct (_ <=? _).
Qed.
Lemma accept_moves_generation now gen status dg d d' :
  db_ok d → accept_source_generation now gen status dg d = (Ok tt, d') →
  gs_applied (Generation.generation_state (sg_source gen) d') = sg_number gen ∧
  ∀ s, s ≠ sg_source gen → Generation.generation_state s d' = Generation.generation_state s d.
Proof.
  intros Hok (d2 & H2 & _ & Hg)%accept_source_parts.
  pose proof (Generation.accept_cases now gen status d (ok_generations _ Hok)) as (Hout & Hst & _).
  rewrite H2 in Hout, Hst. cbn [fst snd] in Hout, Hst.
  set (st := Generation.generation_state (sg_source gen) d) in *.
  assert (gs_applied st < sg_number gen ≤ gs_issued st) as Hacc.
  { destruct (Z.leb_spec (sg_number gen) (gs_applied st)); [done|].
    destruct (Z.ltb_spec (gs_issued st) (sg_number gen)); [done|]. lia. }
  assert (∀ s, Generation.generation_state s d' = Generation.generation_state s d2) as Hd2
    by (intros s; unfold Generation.generation_state; by rewrite Hg).
  split.
  - rewrite Hd2, Hst. by rewrite decide_True.
  - intros s Hs. rewrite Hd2, Hst. rewrite decide_False; [done|]. by intros [? _].
Qed.

Lemma apply_source_health now now_a now_s gen xs status cur ec dg ra d summary d' :
  db_ok d →
  apply_source_generation dump_json now now_a now_s gen xs status cur ec dg ra d = (Ok summary, d') →
  (status = Degraded ∨ ec ≠ None → flawed (sg_source gen) d') ∧
  gs_applied (Generation.generation_state (sg_source gen) d') = sg_number gen ∧
  ∀ s, s ≠ sg_source gen →
    (flawed s d → flawed s d') ∧ Generation.generation_state s d' = Generation.generation_state s d.
Proof.
  intros Hok (d1 & d2 & d3 & n & H1 & H2 & H3 & H4 & _)%apply_source_parts.
  assert (sync_states d3 = sync_states d1 ∧ generations d3 = generations d1) as [Hsync Hgen].
  { assert (∀ {X} (view : db → X), (∀ v d, view (set_situations v d) = view d) → view d3 = view d1) as Hview; [|by split; apply Hview].
    intros X view Hv. trans (view d2).
    - destruct (_RESOLVES_ABSENT status); [by apply (keeps_resolve view Hv _ _ _ _ _ _ _ H3)|].
      destruct (ra_resolve_absent ra); [by apply (keeps_resolve_by view Hv _ _ _ _ _ _ _ _ _ H3)|].
      destruct (negb _); [by apply (keeps_resolve_by view Hv _ _ _ _ _ _ _ _ _ H3)|]. by injection H3 as _ <-.
    - by apply (keeps_upsert_batch view Hv _ _ _ _ _ _ _ _ _ H2). }
  pose proof (accept_keeps_sync _ _ _ _ _ _ H1) as Hsync1.
  destruct (accept_moves_generation _ _ _ _ _ _ Hok H1) as [Happlied Hothers].
  pose proof (source_write_situations _ _ _ _ _ _ _ H4) as [_ Hgen'].
  assert (∀ s, Generation.generation_state s d' = Generation.generation_state s d1) as Hst
    by (intros s; unfold Generation.generation_state; by rewrite Hgen', Hgen).
  split; [by apply (source_write_flawed _ _ _ _ _ _ _ H4)|]. split; [by rewrite Hst|].
  intros s Hs. split; [|by rewrite Hst, Hothers].
  intros Hf. apply (source_write_other _ _ _ _ _ _ _ _ H4); [done|].
  unfold flawed, sync_row in *. by rewrite Hsync, Hsync1.
Qed.
End Applied.

Lemma flawed_not_ok parse s d now :
  flawed s d → fr_status (evaluate_source_freshness (source_state parse s d) now DEFAULT_STALE_AFTER) ≠ FreshOk.
Proof. intros Hf (Ha & He & _)%freshness_ok_cases. by destruct Hf. Qed.

(** ** The pass *)

Section Pass.
Context {U : Unicode} {T : CharTables}.
Context (dump_json : SituationEvidence → text) (parse_datetime : text → option Z).
Context (tz : tzinfo) (detectors : DetectorSettings).

Abbreviation gmail_pass := (gmail_pass dump_json tz detectors).
Abbreviation calendar_pass := (calendar_pass dump_json tz detectors).
Abbreviation evaluate := (evaluate dump_json parse_datetime tz detectors).

(** A branch either applied its snapshot or was told that it came late. *)
Lemma gmail_pass_parts k dg gmail d applied w d' :
  gmail_pass k dg gmail d = (Ok (applied, w), d') →
  ∃ xs, detect_reply_deadlines (sn_items gmail) (pc_now k) tz (reply_threshold detectors) = Ok xs ∧
    ((∃ summary, applied = [summary] ∧ w = source_warnings Gmail (sn_warning_codes gmail) ∧
       apply_source_generation dump_json (pc_gmail k) (pc_gmail_accept k) (pc_gmail_sync k)
         (sn_generation gmail) xs (generation_status (sn_complete gmail)) (sn_sync_cursor gmail)
         (sn_error_code gmail) dg
         (mk_resolution_args (sn_resolve_absent gmail) (sn_resolution_scope_ids gmail)
            (sn_resolution_excluded_ids gmail)) d = (Ok summary, d')) ∨
     (applied = [] ∧ w ≠ [] ∧ d' = d)).
Proof.
  unfold Engine.gmail_pass. intros (xs & d1 & H1 & (o & d2 & H2 & [= <- <- <-])%bind_ok)%bind_ok.
  unfold lift_scan_exn, lift in H1.
  destruct (detect_reply_deadlines _ _ _ _) as [xs'|[]]; [|done..]. injection H1 as -> ->.
  exists xs. split; [done|]. apply catch_delayed_ok in H2. destruct o as [summary|]; [left|right].
  - by exists summary.
  - by destruct H2 as [-> _].
Qed.

Lemma calendar_pass_parts k calendar d applied w d' :
  calendar_pass k calendar d = (Ok (applied, w), d') →
  ∃ run, run_calendar_conflict_detection (pc_now k) tz (calendar_critical_window detectors)
      (calendar_high_window detectors) (sn_items calendar) = Ok run ∧
    ((∃ summary, applied = [summary] ∧
       apply_source_generation dump_json (pc_calendar k) (pc_calendar_accept k) (pc_calendar_sync k)
         (sn_generation calendar) (cr_detections run)
         (generation_status (sn_complete calendar && cr_resolution_safe run)) (sn_sync_cursor calendar)
         (sn_error_code calendar) None no_resolution d = (Ok summary, d')) ∨
     (applied = [] ∧ w ≠ [] ∧ d' = d)).
Proof.
  unfold Engine.calendar_pass. intros (run & d1 & H1 & (o & d2 & H2 & [= <- <- <-])%bind_ok)%bind_ok.
  unfold lift_conflict_exn, lift in H1.
  destruct (run_calendar_conflict_detection _ _ _ _ _) as [run'|[]]; [|done..]. injection H1 as -> ->.
  exists run. split; [done|]. apply catch_delayed_ok in H2. destruct o as [summary|]; [left|right].
  - by exists summary.
  - by destruct H2 as [-> _].
Qed.

Lemma evaluate_parts k memory inputs d r d' :
  evaluate k memory inputs d = (Ok r, d') →
  ∃ n1 n2 occasions local d1 d2 d3 d4 gmail calendar,
    wake_snoozed (pc_woken k) d = (Ok n1, d1) ∧ expire_lapsed (pc_expired k) d1 = (Ok n2, d2) ∧
    detect_personal_occasions (list_dated_memories memory) (pc_now k) tz
      (occasion_default_lead_days detectors) = Ok occasions ∧
    apply_local_detections dump_json (pc_local k) occasions d2 = (Ok local, d3) ∧
    match in_gmail_threads inputs with
    | Some gm => gmail_pass k (in_gmail_diagnostics inputs) gm
    | None => skipped_pass end d3 = (Ok gmail, d4) ∧
    match in_calendar_events inputs with
    | Some c => calendar_pass k c
    | None => skipped_pass end d4 = (Ok calendar, d') ∧
    let f s := evaluate_source_freshness (source_state parse_datetime s d') (pc_now k) DEFAULT_STALE_AFTER in
    let applied := local :: gmail.1 ++ calendar.1 in
    er_gmail_freshness r = f Gmail ∧ er_calendar_freshness r = f Calendar ∧
    er_created r = total (λ a, created (upsert a)) applied ∧ er_resolved r = total resolved applied ∧
    er_expired r = n2 ∧ er_woken r = n1 ∧
    er_warnings r = _warnings inputs (f Gmail) (f Calendar)
      (gmail.2 ++ calendar.2 ++ capacity_warning (total (λ a, capacity_skipped (upsert a)) applied)).
Proof.
  unfold Engine.evaluate.
  intros (n1 & d1 & H1 & (n2 & d2 & H2 & (occ & d3 & H3 & (local & d4 & H4 & H5)%bind_ok)%bind_ok)%bind_ok)%bind_ok.
  apply bind_ok in H5 as (gmail & d5 & H5 & (calendar & d6 & H6 & H7)%bind_ok). rewrite gets_bind in H7.
  injection H7 as <- <-.
  unfold lift_time, lift in H3. destruct (detect_personal_occasions _ _ _ _) as [occ'|] eqn:Hocc; [|done].
  injection H3 as -> ->. exists n1, n2, occ, local, d1, d3, d4, d5, gmail, calendar. by split_and!.
Qed.

#[export] Instance sound_lift {A} (x : res exn A) : Preserves sound_step (lift x : op A).
Proof. apply preserves_lift, _. Qed.
#[export] Instance sound_gmail_pass k dg gm : Preserves sound_step (gmail_pass k dg gm).
Proof. unfold Engine.gmail_pass, lift_scan_exn. apply _. Qed.
#[export] Instance sound_calendar_pass k c : Preserves sound_step (calendar_pass k c).
Proof. unfold Engine.calendar_pass, lift_conflict_exn. apply _. Qed.
#[export] Instance sound_skipped_pass : Preserves sound_step skipped_pass.
Proof. unfold skipped_pass. apply _. Qed.
#[export] Instance sound_evaluate k memory inputs : Preserves sound_step (evaluate k memory inputs).
Proof.
  unfold Engine.evaluate, lift_time. destruct (in_gmail_threads inputs), (in_calendar_events inputs); apply _.
Qed.

(** The inputs carry the generations of their own sources. *)
Definition well_sourced (inputs : EngineInputs) : Prop :=
  (∀ gm, in_gmail_threads inputs = Some gm → sg_source (sn_generation gm) = Gmail) ∧
  (∀ c, in_calendar_events inputs = Some c → sg_source (sn_generation c) = Calendar).

Lemma unhealthy_warning_nil s f : unhealthy_warning s f = [] → fr_status f = FreshOk.
Proof. unfold unhealthy_warning. by destruct (bool_decide (fr_status f = FreshOk)) eqn:H; [apply bool_decide_eq_true in H|]. Qed.

Lemma all_clear k memory inputs d r d' :
  db_ok d → well_sourced inputs → evaluate k memory inputs d = (Ok r, d') → er_warnings r = [] →
  (fr_status (er_gmail_freshness r) = FreshOk ∧ fr_status (er_calendar_freshness r) = FreshOk) ∧
  (∀ gm, in_gmail_threads inputs = Some gm → sn_complete gm = true ∧ sn_error_code gm = None ∧
     sn_warning_codes gm = [] ∧
     gs_applied (Generation.generation_state Gmail d') = sg_number (sn_generation gm)) ∧
  (∀ c, in_calendar_events inputs = Some c → sn_complete c = true ∧ sn_error_code c = None ∧
     gs_applied (Generation.generation_state Calendar d') = sg_number (sn_generation c)).
Proof.
  intros Hok [Hg Hc] (n1 & n2 & occ & local & d1 & d2 & d3 & d4 & [ag wg] & [ac wc] & H1 & H2 & _ & H3 & H4 & H5 &
    -> & -> & _ & _ & _ & _ & ->)%evaluate_parts Hw.
  unfold _warnings in Hw. apply app_nil in Hw as [Hsrc [_ [_ [Hgw Hcw]%app_nil]%app_nil]%app_nil].
  apply app_nil in Hsrc as [Hwg0 [Hwc0 _]%app_nil]. cbn [fst snd] in *.
  assert (db_ok d3) as Hok3.
  { apply (sound_apply_local _ _ _ _ _ _ H3). apply (sound_expire_lapsed _ _ _ _ H2).
    by apply (sound_wake_snoozed _ _ _ _ H1). }
  assert (db_ok d4) as Hok4.
  { destruct (in_gmail_threads inputs); [by apply (sound_gmail_pass _ _ _ _ _ _ H4)|by apply (sound_skipped_pass _ _ _ H4)]. }
  apply unhealthy_warning_nil in Hgw, Hcw. split; [done|].
  assert (¬ flawed Gmail d' ∧ ¬ flawed Calendar d') as [Hgf Hcf]
    by (split; intros Hf; by apply (flawed_not_ok parse_datetime _ _ (pc_now k)) in Hf).
  assert (flawed Gmail d4 → flawed Gmail d' ) as Hgkeep.
  { destruct (in_calendar_events inputs) as [c|]; [|by injection H5 as _ _ <-].
    apply calendar_pass_parts in H5 as (run & _ & [(s & _ & Happ)|(_ & _ & ->)]); [|done].
    destruct (apply_source_health _ _ _ _ _ _ _ _ _ _ _ _ _ _ Hok4 Happ) as (_ & _ & Hother).
    rewrite (Hc c) in Hother by done. by apply Hother. }
  assert (Generation.generation_state Gmail d' = Generation.generation_state Gmail d4) as Hgen.
  { destruct (in_calendar_events inputs) as [c|]; [|by injection H5 as _ _ <-].
    apply calendar_pass_parts in H5 as (run & _ & [(s & _ & Happ)|(_ & _ & ->)]); [|done].
    destruct (apply_source_health _ _ _ _ _ _ _ _ _ _ _ _ _ _ Hok4 Happ) as (_ & _ & Hother).
    rewrite (Hc c) in Hother by done. by apply Hother. }
  split.
  - intros gm Hgm. rewrite Hgm in H4.
    apply gmail_pass_parts in H4 as (xs & _ & [(s & _ & Hwg & Happ)|(_ & Hne & _)]); [|by destruct Hne].
    destruct (apply_source_health _ _ _ _ _ _ _ _ _ _ _ _ _ _ Hok3 Happ) as (Hbad & Hnum & _).
    rewrite (Hg gm Hgm) in Hbad, Hnum. rewrite Hgen. split_and!; [| | |done].
    + destruct (sn_complete gm); [done|]. exfalso. apply Hgf, Hgkeep, Hbad. by left.
    + destruct (sn_error_code gm); [|done]. exfalso. apply Hgf, Hgkeep, Hbad. by right.
    + subst wg. by destruct (sn_warning_codes gm).
  - intros c Hcal. rewrite Hcal in H5.
    apply calendar_pass_parts in H5 as (run & _ & [(s & _ & Happ)|(_ & Hne & _)]); [|by destruct Hne].
    destruct (apply_source_health _ _ _ _ _ _ _ _ _ _ _ _ _ _ Hok4 Happ) as (Hbad & Hnum & _).
    rewrite (Hc c Hcal) in Hbad, Hnum. split_and!; [| |done].
    + destruct (sn_complete c); [done|]. exfalso. apply Hcf, Hbad. by left.
    + destruct (sn_error_code c); [|done]. exfalso. apply Hcf, Hbad. by right.
Qed.

(** What lets a pass resolve a stored situation of a type. *)
Definition resolution_evidence (k : pass_clock) (memory : memory_db) (inputs : EngineInputs)
    (ty : SituationType) (key : text) : Prop :=
  match ty with
  | PersonalOccasion =>
    ∃ xs, detect_personal_occasions (list_dated_memories memory) (pc_now k) tz
        (occasion_default_lead_days detectors) = Ok xs ∧ key ∉ d_dedupe_key <$> xs
  | ReplyDeadline =>
    ∃ gm xs, in_gmail_threads inputs = Some gm ∧
      (sn_complete gm = true ∨ sn_resolve_absent gm = true ∨ sn_resolution_scope_ids gm ≠ []) ∧
      detect_reply_deadlines (sn_items gm) (pc_now k) tz (reply_threshold detectors) = Ok xs ∧
      key ∉ d_dedupe_key <$> xs
  | CalendarConflict =>
    ∃ c run, in_calendar_events inputs = Some c ∧ sn_complete c = true ∧
      run_calendar_conflict_detection (pc_now k) tz (calendar_critical_window detectors)
        (calendar_high_window detectors) (sn_items c) = Ok run ∧
      cr_resolution_safe run = true ∧ key ∉ d_dedupe_key <$> cr_detections run
  end.

Lemma generation_status_complete b : generation_status b = Complete → b = true.
Proof. by destruct b. Qed.

Lemma evaluate_resolves k memory inputs d res d' :
  well_sourced inputs → evaluate k memory inputs d = (Ok res, d') →
  resolves_only (resolution_evidence k memory inputs) d d'.
Proof.
  intros [Hg Hc] (n1 & n2 & occ & local & d1 & d2 & d3 & d4 & [ag wg] & [ac wc] & H1 & H2 & Hocc & H3 & H4 & H5 & _)%evaluate_parts.
  set (P := resolution_evidence k memory inputs).
  assert (resolves_only P d d1) as R1.
  { eapply (resolves_only_closes P (wake_snoozed (pc_woken k))); [unfold wake_snoozed; apply _..|exact H1]. }
  assert (resolves_only P d1 d2) as R2.
  { eapply (resolves_only_closes P (expire_lapsed (pc_expired k))); [unfold expire_lapsed; apply _..|exact H2]. }
  assert (resolves_only P d2 d3) as R3.
  { eapply (resolves_apply_local dump_json P); [|exact H3]. intros key Hk. by exists occ. }
  assert (resolves_only P d3 d4) as R4.
  { destruct (in_gmail_threads inputs) as [gm|] eqn:Hgm; [|injection H4 as _ _ <-; reflexivity].
    apply gmail_pass_parts in H4 as (xs & Hxs & [(s & _ & _ & Happ)|(_ & _ & ->)]); [|reflexivity].
    eapply (resolves_apply_source dump_json P); [|exact Happ]. rewrite (Hg gm) by done.
    intros Hwhy key Hk. exists gm, xs. split_and!; try done.
    destruct Hwhy as [Hst|Hwhy]; [left; by apply generation_status_complete|by right]. }
  assert (resolves_only P d4 d') as R5.
  { destruct (in_calendar_events inputs) as [c|] eqn:Hcal; [|injection H5 as _ _ <-; reflexivity].
    apply calendar_pass_parts in H5 as (run & Hrun & [(s & _ & Happ)|(_ & _ & ->)]); [|reflexivity].
    eapply (resolves_apply_source dump_json P); [|exact Happ]. rewrite (Hc c) by done.
    intros [Hst|[Habs|Hscope]] key Hk; [|done|done].
    apply generation_status_complete, andb_true_iff in Hst as [Hst Hsafe]. by exists c, run. }
  etrans; [exact R1|]. etrans; [exact R2|]. etrans; [exact R3|]. by etrans.
Qed.

(** A pass whose warnings are empty is a real all-clear: both sources are fresh, and every
    snapshot given was complete, error free and is the generation the store holds now. *)
Theorem no_false_all_clear k memory inputs d r d' :
  db_ok d → well_sourced inputs → evaluate k memory inputs d = (Ok r, d') → er_warnings r = [] →
  (fr_status (er_gmail_freshness r) = FreshOk ∧ fr_status (er_calendar_freshness r) = FreshOk) ∧
  (∀ gm, in_gmail_threads inputs = Some gm → sn_complete gm = true ∧ sn_error_code gm = None ∧
     sn_warning_codes gm = [] ∧
     gs_applied (Generation.generation_state Gmail d') = sg_number (sn_generation gm)) ∧
  (∀ c, in_calendar_events inputs = Some c → sn_complete c = true ∧ sn_error_code c = None ∧
     gs_applied (Generation.generation_state Calendar d') = sg_number (sn_generation c)).
Proof. apply all_clear. Qed.

(** C9. A pass resolves a stored situation only on evidence: its source was read in this pass,
    completely or with a scope to resolve in, and the detectors no longer report it.  A
    source that was skipped, failed or overflowed keeps its situations. *)
Theorem situations_resolve_on_evidence k memory inputs d res d' r r' :
  db_ok d → well_sourced inputs → evaluate k memory inputs d = (Ok res, d') →
  r ∈ situations d → r' ∈ situations d' → id r' = id r →
  state r' = Resolved → state r ≠ Resolved →
  resolution_evidence k memory inputs (situation_type r) (dedupe_key r).
Proof.
  intros Hok Hsrc Hrun Hr Hr' Hid Hres Hnot.
  destruct (evaluate_resolves _ _ _ _ _ _ Hsrc Hrun Hok) as [Hok' Hcl].
  destruct (closes_only_row _ _ _ _ _ Hok' Hcl Hr Hr' Hid) as [_ _ _ Hs].
  by destruct (Hs Hres).
Qed.

(** Once the user answers, the situation goes: after a complete Gmail snapshot is applied,
    every open reply situation belongs to a thread of the snapshot that still waits for the
    user. *)
Theorem answered_threads_are_resolved k dg gm d applied w d' r :
  db_ok d → sg_source (sn_generation gm) = Gmail → sn_complete gm = true →
  gmail_pass k dg gm d = (Ok (applied, w), d') → applied ≠ [] →
  r ∈ situations d' → situation_type r = ReplyDeadline → source_name r = SourceGmail →
  state r = Pending ∨ state r = Delivered →
  ∃ thread, thread ∈ sn_items gm ∧ dedupe_key r = reply_key thread ∧
    th_latest_from_user thread = false ∧ th_user_is_recipient thread = true.
Proof.
  intros Hok Hsrc Hcomplete (xs & Hxs & [(s & _ & _ & Happ)|(? & _)])%gmail_pass_parts Hne Hr Hty Hname Hst; [|done].
  rewrite Hcomplete in Happ.
  eapply (complete_generation_open dump_json) in Happ as Hin; [|done|exact Hr|by rewrite Hsrc..|by apply open_state_true].
  apply list_elem_of_fmap in Hin as (det & -> & Hdet).
  unfold detect_reply_deadlines in Hxs. apply res_bind_ok in Hxs as (today & _ & Hxs).
  apply (detect_threads_elem _ _ _ _ _ _ Hxs) in Hdet as (thread & Hin & (scan & Hu & Hrec & _ & _ & ->)%detect_thread_some).
  by exists thread.
Qed.

Lemma evaluate_sound k memory inputs d : sound_step d (evaluate k memory inputs d).2.
Proof. apply preserves_snd, _. Qed.
End Pass.

(** ** Concrete passes *)

Definition engine_now : instant := mail_now.
Definition engine_clock (i : instant) : pass_clock := mk_pass_clock i i i i i i i i i i.
(** Both sources authorized, one generation of each handed out. *)
Definition engine_db : db :=
  (Generation.reserve engine_now Calendar (Generation.reserve engine_now Gmail
    (write_google_auth engine_now Configured None empty_db).2).2).2.
Definition sample_snapshot {A} (s : SourceName) (n : Z) (xs : list A) : SourceSnapshot A :=
  mk_snapshot (mk_generation s n) xs true None [] None false [] [].
Definition sample_inputs (from_user : bool) (n : Z) : EngineInputs :=
  mk_inputs (Some (sample_snapshot Gmail n [sample_thread from_user (engine_now - 3 * US_PER_HOUR) "Contract"]))
    (Some (sample_snapshot Calendar n [sample_event "b" 19290 19292; sample_event "a" 19291 19293])) None.
Definition sample_evaluate (k : instant) (inputs : EngineInputs) (d : db) : res exn EvaluationResult * db :=
  evaluate (U := ascii_unicode) (T := hangul_tables) (λ _, ""%string) fromisoformat UTC default_detectors
    (engine_clock k) empty_memory inputs d.
Definition no_result : EvaluationResult :=
  mk_evaluation 0 0 0 0 0 0 [] (mk_freshness Stale None None None None) (mk_freshness Stale None None None None) None.
Definition result_of (x : res exn EvaluationResult * db) : EvaluationResult :=
  match x.1 with Ok r => r | Err _ => no_result end.
Definition first_pass : res exn EvaluationResult * db := sample_evaluate engine_now (sample_inputs false 1) engine_db.
(** The user answers; the sources are read again an hour later. *)
Definition second_db : db :=
  (Generation.reserve (engine_now + 1) Calendar (Generation.reserve (engine_now + 1) Gmail first_pass.2).2).2.
Definition second_pass : res exn EvaluationResult * db :=
  sample_evaluate (engine_now + US_PER_HOUR) (sample_inputs true 2) second_db.

Example first_pass_result :
  (er_created (result_of first_pass), er_warnings (result_of first_pass),
   (λ r, (dedupe_key r, state r)) <$> situations first_pass.2) =
  (2, [], [("reply_deadline:t1:m9", Pending); ("calendar_conflict:a:b", Pending)])%string.
Proof. vm_compute. reflexivity. Qed.
Example second_pass_result :
  (er_resolved (result_of second_pass), er_warnings (result_of second_pass),
   (λ r, (dedupe_key r, state r)) <$> situations second_pass.2) =
  (1, [], [("reply_deadline:t1:m9", Resolved); ("calendar_conflict:a:b", Pending)])%string.
Proof. vm_compute. reflexivity. Qed.
(** A pass without snapshots warns about both sources and resolves nothing. *)
Example skipped_pass_warnings :
  er_warnings (result_of (sample_evaluate (engine_now + 25 * US_PER_HOUR) no_inputs first_pass.2)) =
  ["gmail: skipped this pass (no snapshot); situations kept";
   "calendar: skipped this pass (no snapshot); situations kept";
   "gmail: source is stale"; "calendar: source is stale"]%string.
Proof. vm_compute. reflexivity. Qed.

Lemma engine_db_ok : db_ok engine_db.
Proof.
  unfold engine_db. do 2 (apply (preserves_snd _ _ (sound_reserve_generation _ _))).
  apply (preserves_snd _ _ (sound_write_google_auth _ _ _)). apply db_ok_empty.
Qed.
Lemma sample_well_sourced b n : well_sourced (sample_inputs b n).
Proof. split; intros x Hx; injection Hx as <-; reflexivity. Qed.
Lemma first_pass_run :
  evaluate (U := ascii_unicode) (T := hangul_tables) (λ _, ""%string) fromisoformat UTC default_detectors
    (engine_clock engine_now) empty_memory (sample_inputs false 1) engine_db = 
  (Ok (result_of first_pass), first_pass.2).
Proof. vm_compute. reflexivity. Qed.
Lemma second_pass_run :
  evaluate (U := ascii_unicode) (T := hangul_tables) (λ _, ""%string) fromisoformat UTC default_detectors
    (engine_clock (engine_now + US_PER_HOUR)) empty_memory (sample_inputs true 2) second_db = 
  (Ok (result_of second_pass), second_pass.2).
Proof. vm_compute. reflexivity. Qed.
Lemma first_pass_ok : db_ok first_pass.2.
Proof.
  exact (proj1 (evaluate_sound (U := ascii_unicode) (T := hangul_tables) (λ _, ""%string) fromisoformat UTC
    default_detectors (engine_clock engine_now) empty_memory (sample_inputs false 1) engine_db engine_db_ok)).
Qed.
Lemma second_db_ok : db_ok second_db.
Proof.
  unfold second_db. do 2 (apply (preserves_snd _ _ (sound_reserve_generation _ _))).
  exact first_pass_ok.
Qed.

Lemma no_false_all_clear_witness :
  fr_status (er_gmail_freshness (result_of first_pass)) = FreshOk ∧
  fr_status (er_calendar_freshness (result_of first_pass)) = FreshOk.
Proof.
  refine (proj1 (no_false_all_clear (U := ascii_unicode) (T := hangul_tables) (λ _, ""%string) fromisoformat UTC
    default_detectors (engine_clock engine_now) empty_memory (sample_inputs false 1) engine_db (result_of first_pass)
    first_pass.2 engine_db_ok (sample_well_sourced false 1) first_pass_run _)).
  vm_compute. reflexivity.
Defined.

Definition sample_situation (i : nat) (d : db) : Situation :=
  default (mk_situation 0 ReplyDeadline SourceGmail None "" Pending High "" "" (mk_evidence [] [] [] []) None "" ""
    None None None None None None false) (situations d !! i).

Lemma situations_resolve_on_evidence_witness :
  resolution_evidence (U := ascii_unicode) (T := hangul_tables) UTC default_detectors
    (engine_clock (engine_now + US_PER_HOUR)) empty_memory (sample_inputs true 2) ReplyDeadline "reply_deadline:t1:m9".
Proof.
  refine (situations_resolve_on_evidence (U := ascii_unicode) (T := hangul_tables) (λ _, ""%string) fromisoformat UTC
    default_detectors (engine_clock (engine_now + US_PER_HOUR)) empty_memory (sample_inputs true 2) second_db
    (result_of second_pass) second_pass.2 (sample_situation 0 second_db) (sample_situation 0 second_pass.2)
    second_db_ok (sample_well_sourced true 2) second_pass_run _ _ _ _ _).
  - apply list_elem_of_lookup. exists 0%nat. vm_compute. reflexivity.
  - apply list_elem_of_lookup. exists 0%nat. vm_compute. reflexivity.
  - vm_compute. reflexivity.
  - vm_compute. reflexivity.
  - vm_compute. discriminate.
Defined.

Definition sample_gmail_pass : res exn (list DetectionApplySummary * list text) * db :=
  gmail_pass (T := hangul_tables) (λ _, ""%string) UTC default_detectors (engine_clock engine_now) None
    (sample_snapshot Gmail 1 [sample_thread false (engine_now - 3 * US_PER_HOUR) "Contract"]) engine_db.
Lemma answered_threads_are_resolved_witness :
  ∃ thread, th_latest_from_user thread = false ∧
    dedupe_key (sample_situation 0 sample_gmail_pass.2) = reply_key thread.
Proof.
  destruct (answered_threads_are_resolved (T := hangul_tables) (λ _, ""%string) UTC default_detectors
    (engine_clock engine_now) None
    (sample_snapshot Gmail 1 [sample_thread false (engine_now - 3 * US_PER_HOUR) "Contract"]) engine_db
    [mk_apply_summary (mk_upsert_summary 1 0 0 0 0) 0] [] sample_gmail_pass.2 (sample_situation 0 sample_gmail_pass.2)
    engine_db_ok) as (thread & _ & Hkey & Hu & _).
  - reflexivity.
  - reflexivity.
  - vm_compute. reflexivity.
  - discriminate.
  - apply list_elem_of_lookup. exists 0%nat. vm_compute. reflexivity.
  - vm_compute. reflexivity.
  - vm_compute. reflexivity.
  - left. vm_compute. reflexivity.
  - exists thread. exact (conj Hu Hkey).
Defined.
