(* ===== verification/GoogleSync.v ===== *)
(** One authenticated Google read ([sources/google_sync.py], [sources/_google_evaluation.py]
    and the transports opened by [sources/__init__.py]): reserving generations, reading both
    sources, and either preparing the inputs of a pass or recording the outcome directly. *)
From stdpp Require Import pretty gmap.
From S2P Require Import Prelude PyDate PyTime Models SourceSync Situations Resolution Memory CalendarConflict DeadlineText ReplyDeadline Health Engine Transport CalendarSource GmailProjection GmailSource.
Import Diagnostics SyncState.
#[local] Open Scope Z_scope.

(** ** The readers of a pass *)

(** [GmailProfileReader], [CalendarEventsReader] and [GoogleCredentialStore]: they act on the
    outside world, not on the store.  [delete_credentials] tells whether it raised
    [CredentialStorageError]. *)
Class GoogleReaders (W : Type) := {
  read_inbox : M W read_error GmailInboxReadResult;
  read_events : M W read_error CalendarReadResult;
  delete_credentials : W → bool * W;
}.

(** What a pass may raise. *)
Inductive pass_exn := StoreError (e : exn) | ReadError (e : read_error).

(** An operation of a pass acts on the world and on the store. *)
Abbreviation pass W := (M (W * db) pass_exn).
Definition on_store {W A} (m : op A) : pass W A := λ s,
  match m s.2 with
  | (Ok a, d) => (Ok a, (s.1, d))
  | (Err e, d) => (Err (StoreError e), (s.1, d))
  end.
(** A read inside [try]: its outcome, to be matched by the [except] clauses. *)
Definition try_read {W A} (m : M W read_error A) : pass W (res read_error A) := λ s,
  let (r, w) := m s.1 in (Ok r, (w, s.2)).
Definition on_world {W A} (f : W → A * W) : pass W A := λ s, let (a, w) := f s.1 in (Ok a, (w, s.2)).

(** The [except] clauses: an error code, a grant that is no longer valid, or an exception that
    goes on. *)
Inductive caught := ReadFailed (code : SourceErrorCode) | InvalidGrant | Uncaught.
Definition gmail_except (e : read_error) : caught :=
  match e with
  | InvalidGrantError => InvalidGrant
  | GmailError code _ => ReadFailed code
  | GmailBodyLimitError _ => ReadFailed resource_limit
  | GoogleTransportError code => ReadFailed code
  | _ => Uncaught
  end.
Definition calendar_except (e : read_error) : caught :=
  match e with
  | InvalidGrantError => InvalidGrant
  | CalendarError code _ => ReadFailed code
  | GoogleTransportError code => ReadFailed code
  | _ => Uncaught
  end.

(** [_gmail_read_diagnostics]. *)
Definition _gmail_read_diagnostics (result : GmailInboxReadResult) : SourceReadDiagnostics :=
  let pairs := match gir_degradation_reason_counts result with
               | [] => counter (gir_degradation_reasons result)
               | counts => counts
               end in
  mk_diagnostics (if gir_coverage_complete result then OutcomeHealthy else OutcomePartial)
    (gir_request_count result) (gir_page_count result) (gir_projected_thread_count result)
    (gir_excluded_thread_count result) GMAIL_READ_BYTE_BUDGET
    ((λ e, mk_reason_count e.1 e.2) <$> pairs).

(** ** Preparing the inputs of a pass *)

Definition error_snapshot {A} (generation : SourceGeneration) (warning : text) (code : SourceErrorCode) : SourceSnapshot A :=
  mk_snapshot generation [] false None [warning] (Some code) false [] [].
Definition gmail_error_snapshot (generation : SourceGeneration) (code : SourceErrorCode) : SourceSnapshot InboxThreadSnapshot :=
  error_snapshot generation ("gmail_" +:+ error_code_text code)%string code.
Definition calendar_error_snapshot (generation : SourceGeneration) (code : SourceErrorCode) : SourceSnapshot CalendarEvent :=
  error_snapshot generation ("calendar_" +:+ error_code_text code)%string code.
Definition gmail_snapshot (generation : SourceGeneration) (result : GmailInboxReadResult) : SourceSnapshot InboxThreadSnapshot :=
  mk_snapshot generation (gir_threads result) (gir_coverage_complete result) (Some (gir_provider_history_cursor result))
    (reason_text <$> gir_degradation_reasons result) None (gir_allows_absent_resolution result)
    (elements (gir_resolution_safe_thread_ids result)) (elements (gir_resolution_excluded_thread_ids result)).
Definition calendar_snapshot (generation : SourceGeneration) (result : CalendarReadResult) : SourceSnapshot CalendarEvent :=
  let whole := crr_skipped_count result =? 0 in
  mk_snapshot generation (crr_events result) whole None
    (if whole then [] else ["calendar_skipped_items"%string]) None false [] [].

Section Google.
Context {W : Type} {R : GoogleReaders W}.

(** [_invalid_grant_inputs]; a credential that cannot be deleted is ignored. *)
Definition _invalid_grant_inputs (gmail_generation calendar_generation : SourceGeneration) : pass W EngineInputs :=
  on_world delete_credentials;;
  mret (mk_inputs (Some (gmail_error_snapshot gmail_generation invalid_grant))
    (Some (calendar_error_snapshot calendar_generation invalid_grant))
    (Some (source_failure_diagnostics invalid_grant))).

(** [prepare_evaluation]; [now_g] and [now_c] are the clock readings of the reservations. *)
Definition prepare_evaluation (now_g now_c : instant) : pass W EngineInputs :=
  gmail_generation ← on_store (Generation.reserve now_g Gmail);
  calendar_generation ← on_store (Generation.reserve now_c Calendar);
  gmail_result ← try_read read_inbox;
  let read_calendar (gmail : SourceSnapshot InboxThreadSnapshot) (diagnostics : SourceReadDiagnostics) :=
    calendar_result ← try_read read_events;
    match calendar_result with
    | Ok result => mret (mk_inputs (Some gmail) (Some (calendar_snapshot calendar_generation result)) (Some diagnostics))
    | Err e =>
      match calendar_except e with
      | ReadFailed code => mret (mk_inputs (Some gmail) (Some (calendar_error_snapshot calendar_generation code)) (Some diagnostics))
      | InvalidGrant => _invalid_grant_inputs gmail_generation calendar_generation
      | Uncaught => raise (ReadError e)
      end
    end in
  match gmail_result with
  | Ok result => read_calendar (gmail_snapshot gmail_generation result) (_gmail_read_diagnostics result)
  | Err e =>
    match gmail_except e with
    | ReadFailed code => read_calendar (gmail_error_snapshot gmail_generation code) (source_failure_diagnostics code)
    | InvalidGrant => _invalid_grant_inputs gmail_generation calendar_generation
    | Uncaught => raise (ReadError e)
    end
  end.

(** ** Recording a read without a pass *)

Record GoogleReadSummary := mk_summary {
  gsm_gmail_count : Z;
  gsm_gmail_ids : list text;
  gsm_gmail_error_code : option SourceErrorCode;
  gsm_calendar_count : Z;
  gsm_calendar_ids : list text;
  gsm_calendar_error_code : option SourceErrorCode;
  gsm_credential_cleanup_failed : bool;
  gsm_gmail_diagnostics : SourceReadDiagnostics;
}.
Record _SourceReadOutcome := mk_outcome {
  oc_count : Z;
  oc_ids : list text;
  oc_error_code : option SourceErrorCode;
}.
Record _GmailReadOutcome := mk_gmail_outcome {
  go_outcome : _SourceReadOutcome;
  go_diagnostics : SourceReadDiagnostics;
}.
Definition failed_outcome (code : SourceErrorCode) : _SourceReadOutcome := mk_outcome 0 [] (Some code).

(** [None] stands for the [InvalidGrantError] that [sync] catches. *)
Definition _sync_gmail (now : instant) : pass W (option _GmailReadOutcome) :=
  result ← try_read read_inbox;
  match result with
  | Err e =>
    match gmail_except e with
    | ReadFailed code =>
      let diagnostics := source_failure_diagnostics code in
      on_store (record_gmail_sync now diagnostics None (Some code));;
      mret (Some (mk_gmail_outcome (failed_outcome code) diagnostics))
    | InvalidGrant => mret None
    | Uncaught => raise (ReadError e)
    end
  | Ok result =>
    let diagnostics := _gmail_read_diagnostics result in
    let error_code := if gir_coverage_complete result then None else Some degraded in
    on_store (record_gmail_sync now diagnostics (Some (gir_provider_history_cursor result)) error_code);;
    mret (Some (mk_gmail_outcome
      (mk_outcome (Z.of_nat (length (gir_threads result))) (th_thread_id <$> gir_threads result) error_code) diagnostics))
  end.
Definition _record_failure (now : instant) (source : SourceName) (code : SourceErrorCode) : pass W _SourceReadOutcome :=
  on_store (record_failure now source code);;
  mret (failed_outcome code).
Definition _sync_calendar (now : instant) : pass W (option _SourceReadOutcome) :=
  result ← try_read read_events;
  match result with
  | Err e =>
    match calendar_except e with
    | ReadFailed code => outcome ← _record_failure now Calendar code; mret (Some outcome)
    | InvalidGrant => mret None
    | Uncaught => raise (ReadError e)
    end
  | Ok result =>
    error_code ← (if crr_skipped_count result =? 0
      then on_store (record_success now Calendar None);; mret None
      else on_store (record_failure now Calendar degraded);; mret (Some degraded));
    mret (Some (mk_outcome (Z.of_nat (length (crr_events result))) (ev_id <$> crr_events result) error_code))
  end.
Definition _reauthentication_summary (now : instant) : pass W GoogleReadSummary :=
  let diagnostics := source_failure_diagnostics invalid_grant in
  on_store (record_google_invalid_grant now (Some diagnostics));;
  cleanup_failed ← on_world delete_credentials;
  mret (mk_summary 0 [] (Some invalid_grant) 0 [] (Some invalid_grant) cleanup_failed diagnostics).
Definition _summary (gmail : _GmailReadOutcome) (calendar : _SourceReadOutcome) : GoogleReadSummary :=
  mk_summary (oc_count (go_outcome gmail)) (oc_ids (go_outcome gmail)) (oc_error_code (go_outcome gmail))
    (oc_count calendar) (oc_ids calendar) (oc_error_code calendar) false (go_diagnostics gmail).

(** [GoogleSyncService.sync]; the clock readings are those of the writes. *)
Definition sync (now_gmail now_calendar now_reauth : instant) : pass W GoogleReadSummary :=
  gmail ← _sync_gmail now_gmail;
  match gmail with
  | None => _reauthentication_summary now_reauth
  | Some gmail =>
    calendar ← _sync_calendar now_calendar;
    match calendar with
    | None => _reauthentication_summary now_reauth
    | Some calendar => mret (_summary gmail calendar)
    end
  end.
End Google.

(** ** The readers that [GoogleReadServiceFactory.open] binds *)

(** Each transport has a budget of its own; the credential is in the state directory or not. *)
Record google_world := mk_world {
  gw_gmail : _SourceReadBudget;
  gw_calendar : _SourceReadBudget;
  gw_credential : option text;
}.
Definition fresh_world (credential : option text) : google_world :=
  mk_world (fresh_budget _MAX_GMAIL_SYNC_REQUESTS) (fresh_budget _MAX_SOURCE_SYNC_REQUESTS) credential.

Definition on_gmail {A} (m : M _SourceReadBudget read_error A) : M google_world read_error A := λ w,
  let (r, b) := m (gw_gmail w) in (r, mk_world b (gw_calendar w) (gw_credential w)).
Definition on_calendar {A} (m : M _SourceReadBudget read_error A) : M google_world read_error A := λ w,
  let (r, b) := m (gw_calendar w) in (r, mk_world (gw_gmail w) b (gw_credential w)).

Section Open.
Context {U : Unicode} (html_tokens : text → list html_token) (parseaddr : text → text * text).
Context (validate_profile : text → option _WireProfile) (validate_page : text → option _WireThreadsPage).
Context (validate_detail : text → option WireThreadDetail) (validate_events : text → option _WireEventsPage).
Context (gmail_session calendar_session :
  list (text * dict * Z) → text → dict → res session_error streaming_response).
Context (gmail_lookback : timedelta) (now_gmail now_calendar : instant).
(** Whether the credential store can be written. *)
Context (delete_ok : bool).

Definition gmail_reader : M _SourceReadBudget read_error GmailInboxReadResult :=
  read_inbox_threads (Tr := gmail_request gmail_session) html_tokens parseaddr validate_profile validate_page
    validate_detail DEFAULT_MAX_PROJECTED_THREADS gmail_lookback now_gmail.
Definition calendar_reader : M _SourceReadBudget read_error CalendarReadResult :=
  list_events (Tr := calendar_request calendar_session) validate_events now_calendar.
Definition open_readers : GoogleReaders google_world := {|
  read_inbox := on_gmail gmail_reader;
  read_events := on_calendar calendar_reader;
  delete_credentials := λ w,
    (negb delete_ok, if delete_ok then mk_world (gw_gmail w) (gw_calendar w) None else w);
|}.
End Open.

(** ** What the readers promise *)

(** A read's diagnostics are within the bounds of the table, and a read that is not complete
    says why. *)
Class GoogleReadersLaws (W : Type) {R : GoogleReaders W} : Prop := {
  reads_are_bounded w r w' : read_inbox w = (Ok r, w') → diagnostics_valid (_gmail_read_diagnostics r) = true;
  reads_explain w r w' : read_inbox w = (Ok r, w') → gir_coverage_complete r = false → gir_degradation_reasons r ≠ [];
}.

Lemma NoDup_map_reason (l : list (SourceReadReason * Z)) :
  NoDup l.*1 → NoDup (rc_reason <$> ((λ e, mk_reason_count e.1 e.2) <$> l)).
Proof. by rewrite <- list_fmap_compose. Qed.

Section Laws.
Context {U : Unicode} (html_tokens : text → list html_token) (parseaddr : text → text * text).
Context (validate_profile : text → option _WireProfile) (validate_page : text → option _WireThreadsPage).
Context (validate_detail : text → option WireThreadDetail) (validate_events : text → option _WireEventsPage).
Context (gmail_session calendar_session :
  list (text * dict * Z) → text → dict → res session_error streaming_response).
Context (gmail_lookback : timedelta) (now_gmail now_calendar : instant) (delete_ok : bool).

Abbreviation readers := (open_readers html_tokens parseaddr validate_profile validate_page validate_detail
  validate_events gmail_session calendar_session gmail_lookback now_gmail now_calendar delete_ok).

Lemma counter_nil {A} `{EqDecision A} (l : list A) : counter l = [] → l = [].
Proof. unfold counter. intros H%fmap_nil_inv. by apply unique_in_order_nil. Qed.

Lemma open_readers_laws :
  honours_max_results (Tr := gmail_request gmail_session) validate_page → GoogleReadersLaws google_world (R := readers).
Proof.
  intros Hmax.
  assert (∀ w r w', read_inbox (GoogleReaders := readers) w = (Ok r, w') → ∃ b b',
    gmail_reader html_tokens parseaddr validate_profile validate_page validate_detail gmail_session gmail_lookback
      now_gmail b = (Ok r, b')) as Hread.
  { intros w r w'. cbn [read_inbox open_readers]. unfold on_gmail.
    destruct (gmail_reader _ _ _ _ _ _ _ _ (gw_gmail w)) as [r' b'] eqn:Hb. intros [= -> <-]. by eexists _, _. }
  split; intros w r w' (b & b' & Hrun)%Hread; unfold gmail_reader in Hrun.
  - apply inbox_read_counts in Hrun as (Hp & Hr & Hj & He & Hnd & Hall & Hkeys & _); [|done].
    unfold diagnostics_valid, _gmail_read_diagnostics, diagnostic_counts.
    cbn [dg_request_count dg_page_count dg_projected_count dg_excluded_count dg_byte_budget dg_reason_counts].
    change (Z.of_nat DEFAULT_MAX_PAGES) with 20 in *. change (Z.of_nat DEFAULT_MAX_PROJECTED_THREADS) with 200 in *.
    change (Z.max 1 200) with 200 in *. unfold DEFAULT_MAX_RESULTS in He.
    match goal with |- context [rc_reason <$> (_ <$> ?l)] => assert (l = gir_degradation_reason_counts r) as -> end.
    { destruct (gir_degradation_reason_counts r) as [|e l]; [|done]. by rewrite Hkeys. }
    rewrite !andb_true_iff. split_and!.
    + cbn. rewrite !andb_true_iff. split_and!; try done; lia.
    + apply bool_decide_eq_true. by apply NoDup_map_reason.
    + apply forallb_forall. intros x Hx%list_elem_of_In. apply list_elem_of_fmap in Hx as (e & -> & Hx).
      rewrite Forall_forall in Hall. specialize (Hall e Hx). unfold _MAX_DIAGNOSTIC_REASON_COUNT. cbn. lia.
  - by apply inbox_read_counts in Hrun as (_ & _ & _ & _ & _ & _ & _ & H).
Qed.
End Laws.

(** ** What a preparation gives *)

Section Runs.
Context {W : Type} {A B : Type}.
Lemma try_read_bind (m : M W read_error A) (f : res read_error A → pass W B) w d :
  (try_read m ≫= f) (w, d) = f (m w).1 ((m w).2, d).
Proof. unfold try_read, mbind, M_bind. cbn [fst snd]. by destruct (m w). Qed.
Lemma on_world_bind (g : W → A * W) (f : A → pass W B) w d :
  (on_world g ≫= f) (w, d) = f (g w).1 ((g w).2, d).
Proof. unfold on_world, mbind, M_bind. cbn [fst snd]. by destruct (g w). Qed.
Lemma on_store_bind (m : op A) (f : A → pass W B) a w d d' :
  m d = (Ok a, d') → (on_store m ≫= f) (w, d) = f a (w, d').
Proof. unfold on_store, mbind, M_bind. cbn [fst snd]. by intros ->. Qed.
End Runs.

Section Prepared.
Context {W : Type} {R : GoogleReaders W}.

(** The code an error of a read names; the others do not name one. *)
Inductive gmail_failure : read_error → SourceErrorCode → Prop :=
  | gmail_failure_named code status : gmail_failure (GmailError code status) code
  | gmail_failure_limit reason : gmail_failure (GmailBodyLimitError reason) resource_limit
  | gmail_failure_transport code : gmail_failure (GoogleTransportError code) code.
Inductive calendar_failure : read_error → SourceErrorCode → Prop :=
  | calendar_failure_named code status : calendar_failure (CalendarError code status) code
  | calendar_failure_transport code : calendar_failure (GoogleTransportError code) code.

(** A snapshot holds what its reader returned, or it holds nothing and names the failure its
    reader raised. *)
Definition gmail_source (generation : SourceGeneration) (read : res read_error GmailInboxReadResult)
    (gm : SourceSnapshot InboxThreadSnapshot) (diagnostics : SourceReadDiagnostics) : Prop :=
  match read with
  | Ok result => gm = gmail_snapshot generation result ∧ diagnostics = _gmail_read_diagnostics result
  | Err e => ∃ code, gmail_failure e code ∧ gm = gmail_error_snapshot generation code ∧
      diagnostics = source_failure_diagnostics code
  end.
Definition calendar_source (generation : SourceGeneration) (read : res read_error CalendarReadResult)
    (c : SourceSnapshot CalendarEvent) : Prop :=
  match read with
  | Ok result => c = calendar_snapshot generation result
  | Err e => ∃ code, calendar_failure e code ∧ c = calendar_error_snapshot generation code
  end.

(** What a preparation hands over after the inbox was read from [w] and the events from the
    world that left: a snapshot of each, or, when one of the readers found the grant no longer
    valid, two empty ones that say so, the credential having been deleted. *)
Definition prepared_from (gg gc : SourceGeneration) (w : W) (inputs : EngineInputs) (w' : W) : Prop :=
  let (inbox, w1) := read_inbox w in
  let (events, w2) := read_events w1 in
  ∃ gm c dg, inputs = mk_inputs (Some gm) (Some c) (Some dg) ∧
    ((gmail_source gg inbox gm dg ∧ calendar_source gc events c ∧ w' = w2) ∨
     (gm = gmail_error_snapshot gg invalid_grant ∧ c = calendar_error_snapshot gc invalid_grant ∧
      dg = source_failure_diagnostics invalid_grant ∧
      ((inbox = Err InvalidGrantError ∧ w' = (delete_credentials w1).2) ∨
       (events = Err InvalidGrantError ∧ w' = (delete_credentials w2).2)))).

Lemma gmail_except_failed e code : gmail_except e = ReadFailed code → gmail_failure e code.
Proof. destruct e; intros [= <-]; constructor. Qed.
Lemma gmail_except_grant e : gmail_except e = InvalidGrant → e = InvalidGrantError.
Proof. by destruct e. Qed.
Lemma calendar_except_failed e code : calendar_except e = ReadFailed code → calendar_failure e code.
Proof. destruct e; intros [= <-]; constructor. Qed.
Lemma calendar_except_grant e : calendar_except e = InvalidGrant → e = InvalidGrantError.
Proof. by destruct e. Qed.

(** The store after the two reservations, and the numbers handed out. *)
Definition reserved (now_g now_c : instant) (d : db) : db :=
  (Generation.reserve now_c Calendar (Generation.reserve now_g Gmail d).2).2.
Definition next_generation (s : SourceName) (d : db) : SourceGeneration :=
  mk_generation s (gs_issued (Generation.generation_state s d) + 1).

Lemma prepare_run now_g now_c w d :
  prepare_evaluation now_g now_c (w, d) =
  (gmail_result ← try_read read_inbox;
   let read_calendar gmail diagnostics :=
     calendar_result ← try_read read_events;
     match calendar_result with
     | Ok result => mret (mk_inputs (Some gmail) (Some (calendar_snapshot (next_generation Calendar d) result)) (Some diagnostics))
     | Err e =>
       match calendar_except e with
       | ReadFailed code =>
         mret (mk_inputs (Some gmail) (Some (calendar_error_snapshot (next_generation Calendar d) code)) (Some diagnostics))
       | InvalidGrant => _invalid_grant_inputs (next_generation Gmail d) (next_generation Calendar d)
       | Uncaught => raise (ReadError e)
       end
     end in
   match gmail_result with
   | Ok result => read_calendar (gmail_snapshot (next_generation Gmail d) result) (_gmail_read_diagnostics result)
   | Err e =>
     match gmail_except e with
     | ReadFailed code => read_calendar (gmail_error_snapshot (next_generation Gmail d) code) (source_failure_diagnostics code)
     | InvalidGrant => _invalid_grant_inputs (next_generation Gmail d) (next_generation Calendar d)
     | Uncaught => raise (ReadError e)
     end
   end) (w, reserved now_g now_c d).
Proof.
  unfold prepare_evaluation, reserved. pose proof (Generation.reserve_state now_g Gmail Calendar d) as Hst.
  destruct (Generation.reserve_result now_g Gmail d) as [d1 Hr]. rewrite Hr in *. cbn [snd] in *.
  destruct (Generation.reserve_result now_c Calendar d1) as [d2 Hr2].
  rewrite (on_store_bind _ _ _ _ _ _ Hr), (on_store_bind _ _ _ _ _ _ Hr2), Hr2. cbn [snd].
  rewrite Hst. done.
Qed.

(** The preparation's inputs, in every case that returns. *)
Lemma prepare_inputs now_g now_c w d inputs w' d' :
  prepare_evaluation now_g now_c (w, d) = (Ok inputs, (w', d')) →
  d' = reserved now_g now_c d ∧
  prepared_from (next_generation Gmail d) (next_generation Calendar d) w inputs w'.
Proof.
  rewrite prepare_run. set (d2 := reserved now_g now_c d).
  set (gg := next_generation Gmail d). set (gc := next_generation Calendar d).
  unfold prepared_from. rewrite try_read_bind. destruct (read_inbox w) as [inbox w1]. cbn [fst snd].
  assert (∀ gm dg, gmail_source gg inbox gm dg →
    (calendar_result ← try_read read_events;
     match calendar_result with
     | Ok result => mret (mk_inputs (Some gm) (Some (calendar_snapshot gc result)) (Some dg))
     | Err e =>
       match calendar_except e with
       | ReadFailed code => mret (mk_inputs (Some gm) (Some (calendar_error_snapshot gc code)) (Some dg))
       | InvalidGrant => _invalid_grant_inputs gg gc
       | Uncaught => raise (ReadError e)
       end
     end) (w1, d2) = (Ok inputs, (w', d')) →
    d' = d2 ∧ let (events, w2) := read_events w1 in ∃ gm c dg, inputs = mk_inputs (Some gm) (Some c) (Some dg) ∧
      ((gmail_source gg inbox gm dg ∧ calendar_source gc events c ∧ w' = w2) ∨
       (gm = gmail_error_snapshot gg invalid_grant ∧ c = calendar_error_snapshot gc invalid_grant ∧
        dg = source_failure_diagnostics invalid_grant ∧
        ((inbox = Err InvalidGrantError ∧ w' = (delete_credentials w1).2) ∨
         (events = Err InvalidGrantError ∧ w' = (delete_credentials w2).2))))) as Hcal.
  { intros gm dg Hgm. rewrite try_read_bind. destruct (read_events w1) as [[result|e] w2]; cbn [fst snd].
    - intros [= <- <- <-]. split; [done|]. eexists _, _, _. split; [done|]. left. by split_and!.
    - destruct (calendar_except e) as [code| |] eqn:He; [| |done].
      + intros [= <- <- <-]. split; [done|]. eexists _, _, _. split; [done|]. left.
        split_and!; [done| |done]. exists code. split; [by apply calendar_except_failed|done].
      + unfold _invalid_grant_inputs. rewrite on_world_bind. intros [= <- <- <-]. split; [done|].
        eexists _, _, _. split; [done|]. right. split_and!; [done..|]. right.
        by rewrite (calendar_except_grant e He). }
  destruct inbox as [result|e]; [by apply Hcal|].
  destruct (gmail_except e) as [code| |] eqn:He; [| |done].
  - apply Hcal. exists code. split; [by apply gmail_except_failed|done].
  - unfold _invalid_grant_inputs. rewrite on_world_bind. intros [= <- <- <-]. split; [done|].
    destruct (read_events w1) as [events w2]. eexists _, _, _. split; [done|]. right. split_and!; [done..|].
    left. by rewrite (gmail_except_grant e He).
Qed.

(** The snapshots carry the generations that were reserved for them. *)
Lemma prepared_generations gg gc w gm c dg w' :
  prepared_from gg gc w (mk_inputs (Some gm) (Some c) (Some dg)) w' →
  sn_generation gm = gg ∧ sn_generation c = gc.
Proof.
  unfold prepared_from. destruct (read_inbox w) as [inbox w1], (read_events w1) as [events w2].
  intros (? & ? & ? & [= <- <- <-] & [(Hg & Hc & _)|(-> & -> & _)]); [|done]. split.
  - destruct inbox; [by destruct Hg as [-> _]|by destruct Hg as (? & _ & -> & _)].
  - destruct events; [by rewrite Hc|by destruct Hc as (? & _ & ->)].
Qed.

(** A snapshot marked complete holds what its reader returned, complete. *)
Lemma prepared_complete gg gc w gm c dg w' :
  prepared_from gg gc w (mk_inputs (Some gm) (Some c) (Some dg)) w' →
  (sn_complete gm = true → ∃ result, (read_inbox w).1 = Ok result ∧
    gir_coverage_complete result = true ∧ gm = gmail_snapshot gg result ∧ dg = _gmail_read_diagnostics result) ∧
  (sn_complete c = true → ∃ result, read_events (read_inbox w).2 = (Ok result, w') ∧
    crr_skipped_count result = 0 ∧ c = calendar_snapshot gc result).
Proof.
  unfold prepared_from. destruct (read_inbox w) as [inbox w1]. cbn [fst snd].
  destruct (read_events w1) as [events w2].
  intros (? & ? & ? & [= <- <- <-] & [(Hg & Hc & ->)|(-> & -> & _)]); [|done]. split; intros Hwhole.
  - destruct inbox as [result|e]; [|by destruct Hg as (? & _ & -> & _)].
    exists result. destruct Hg as [-> ->]. done.
  - destruct events as [result|e]; [|by destruct Hc as (? & _ & ->)].
    exists result. rewrite Hc in Hwhole |- *. split_and!; [done| |done]. by apply Z.eqb_eq.
Qed.

(** C21. A preparation that returns has reserved the next generation of each source and changed
    nothing else of the store; it read the inbox, then the events, and each snapshot carries
    its generation and either exactly what its reader returned, marked complete exactly if
    that read was, or nothing, with the code of the very error its reader raised; only when a
    reader found the grant invalid are both empty, named [invalid_grant].  Whatever is not
    complete has a warning, and the diagnostics always fit the table. *)
Theorem preparations_are_truthful {L : GoogleReadersLaws W} now_g now_c w d inputs w' d' :
  prepare_evaluation now_g now_c (w, d) = (Ok inputs, (w', d')) →
  d' = reserved now_g now_c d ∧ well_sourced inputs ∧
  prepared_from (next_generation Gmail d) (next_generation Calendar d) w inputs w' ∧ ∃ gm c dg,
    inputs = mk_inputs (Some gm) (Some c) (Some dg) ∧
    sn_generation gm = next_generation Gmail d ∧ sn_generation c = next_generation Calendar d ∧
    diagnostics_valid dg = true ∧
    (sn_complete gm = false → sn_warning_codes gm ≠ []) ∧ (sn_complete c = false → sn_warning_codes c ≠ []) ∧
    (sn_complete gm = true → ∃ result, (read_inbox w).1 = Ok result ∧
       gir_coverage_complete result = true ∧ sn_items gm = gir_threads result) ∧
    (sn_complete c = true → ∃ result, read_events (read_inbox w).2 = (Ok result, w') ∧
       crr_skipped_count result = 0 ∧ sn_items c = crr_events result).
Proof.
  intros [-> Hp]%prepare_inputs. split; [done|].
  assert (∃ gm c dg, inputs = mk_inputs (Some gm) (Some c) (Some dg)) as (gm & c & dg & ->).
  { unfold prepared_from in Hp. destruct (read_inbox w) as [? w1], (read_events w1).
    destruct Hp as (gm & c & dg & -> & _). by exists gm, c, dg. }
  pose proof (prepared_generations _ _ _ _ _ _ _ Hp) as [Hgg Hgc].
  pose proof (prepared_complete _ _ _ _ _ _ _ Hp) as [Hgw Hcw].
  split; [by split; intros x [= <-]; rewrite ?Hgg, ?Hgc|]. split; [done|].
  exists gm, c, dg. split; [done|]. split; [done|]. split; [done|].
  revert Hp. unfold prepared_from. destruct (read_inbox w) as [inbox w1] eqn:Hread.
  destruct (read_events w1) as [events w2]. intros (? & ? & ? & [= <- <- <-] & Hp).
  split_and!.
  - destruct Hp as [(Hg & _)|(_ & _ & -> & _)]; [|apply failure_diagnostics_valid].
    destruct inbox; [destruct Hg as [_ ->]; by eapply reads_are_bounded|].
    destruct Hg as (? & _ & _ & ->). apply failure_diagnostics_valid.
  - destruct Hp as [(Hg & _)|(-> & _)]; [|done]. destruct inbox as [result|]; [|by destruct Hg as (? & _ & -> & _)].
    destruct Hg as [-> _]. cbn. intros Hcov Hnil%fmap_nil_inv. by apply (reads_explain _ _ _ Hread).
  - destruct Hp as [(_ & Hc & _)|(_ & -> & _)]; [|done]. destruct events as [result|]; [|by destruct Hc as (? & _ & ->)].
    rewrite Hc. cbn. by intros ->.
  - intros (result & ? & ? & -> & _)%Hgw. by exists result.
  - intros (result & ? & ? & ->)%Hcw. by exists result.
Qed.
End Prepared.

(** ** The budgets of a pass *)


Lemma preserves_final {S E A} (Q : relation S) (m : M S E A) s : Preserves Q m → Q s (m s).2.
Proof. intros H. destruct (m s) as [r s'] eqn:Hm. by eapply H. Qed.

Section Budget.
Context {U : Unicode} (html_tokens : text → list html_token) (parseaddr : text → text * text).
Context (validate_profile : text → option _WireProfile) (validate_page : text → option _WireThreadsPage).
Context (validate_detail : text → option WireThreadDetail) (validate_events : text → option _WireEventsPage).
Context (gmail_session calendar_session :
  list (text * dict * Z) → text → dict → res session_error streaming_response).
Context (gmail_lookback : timedelta) (now_gmail now_calendar : instant) (delete_ok : bool).

#[local] Instance budget_readers : GoogleReaders google_world :=
  open_readers html_tokens parseaddr validate_profile validate_page validate_detail
    validate_events gmail_session calendar_session gmail_lookback now_gmail now_calendar delete_ok.

(** What a step of a pass does to the budgets of its two transports. *)
Definition world_step (s s' : google_world * db) : Prop :=
  budget_step gmail_session gmail_endpoint_limit _MAX_GMAIL_SYNC_REQUESTS (gw_gmail s.1) (gw_gmail s'.1) ∧
  budget_step calendar_session calendar_endpoint_limit _MAX_SOURCE_SYNC_REQUESTS (gw_calendar s.1) (gw_calendar s'.1).
#[local] Instance world_step_preorder : PreOrder world_step.
Proof.
  split; [split; reflexivity|]. intros s1 s2 s3 [G12 C12] [G23 C23]. split; etrans; eassumption.
Qed.
#[local] Instance world_on_store {A} (m : op A) : Preserves world_step (on_store (W := google_world) m).
Proof.
  intros [w d] r s'. unfold on_store. cbn [snd fst]. destruct (m d) as [[a|e] d1]; intros [= _ <-]; split; reflexivity.
Qed.
#[local] Instance world_read_inbox : Preserves world_step (try_read (W := google_world) read_inbox).
Proof.
  intros [w d] r s'. unfold try_read. cbn [fst snd read_inbox budget_readers open_readers]. unfold on_gmail.
  destruct (gmail_reader _ _ _ _ _ _ _ _ (gw_gmail w)) as [x b] eqn:Hrun. intros [= _ <-].
  split; [|reflexivity]. cbn [fst gw_gmail]. unfold gmail_reader in Hrun. revert Hrun.
  apply (read_inbox_threads_preserves (Tr := gmail_request gmail_session)); [apply _|].
  intros url query. exact (gmail_request_step _ _ url query).
Qed.
#[local] Instance world_read_events : Preserves world_step (try_read (W := google_world) read_events).
Proof.
  intros [w d] r s'. unfold try_read. cbn [fst snd read_events budget_readers open_readers]. unfold on_calendar.
  destruct (calendar_reader _ _ _ (gw_calendar w)) as [x b] eqn:Hrun. intros [= _ <-].
  split; [reflexivity|]. cbn [fst gw_calendar]. unfold calendar_reader in Hrun. revert Hrun.
  apply (list_events_preserves (Tr := calendar_request calendar_session)); [apply _|].
  intros url query. exact (calendar_request_step _ _ url query).
Qed.
#[local] Instance world_delete : Preserves world_step (on_world (W := google_world) delete_credentials).
Proof.
  intros [w d] r s'. unfold on_world. cbn [fst snd delete_credentials budget_readers open_readers].
  destruct delete_ok; intros [= _ <-]; split; reflexivity.
Qed.
#[local] Instance world_option {A} (x : option A) : Preserves world_step (mret x : pass google_world (option A)).
Proof. apply _. Qed.

Lemma world_prepare now_g now_c : Preserves world_step (prepare_evaluation (W := google_world) now_g now_c).
Proof.
  unfold prepare_evaluation, _invalid_grant_inputs. apply preserves_bind; [apply _..|]. intros gg.
  apply preserves_bind; [apply _..|]. intros cg. apply preserves_bind; [apply _..|]. cbv zeta.
  assert (∀ (gm : SourceSnapshot InboxThreadSnapshot) (dg : SourceReadDiagnostics), Preserves world_step
    (calendar_result ← try_read (W := google_world) read_events;
     match calendar_result with
     | Ok result => mret (mk_inputs (Some gm) (Some (calendar_snapshot cg result)) (Some dg))
     | Err e =>
       match calendar_except e with
       | ReadFailed code => mret (mk_inputs (Some gm) (Some (calendar_error_snapshot cg code)) (Some dg))
       | InvalidGrant =>
         on_world delete_credentials;;
         mret (mk_inputs (Some (gmail_error_snapshot gg invalid_grant)) (Some (calendar_error_snapshot cg invalid_grant))
           (Some (source_failure_diagnostics invalid_grant)))
       | Uncaught => raise (ReadError e)
       end
     end)) as Hcal.
  { intros gm dg. apply preserves_bind; [apply _..|]. intros [x|e]; [apply _|]. destruct (calendar_except e); apply _. }
  intros [x|e]; [apply Hcal|]. destruct (gmail_except e); [apply Hcal|apply _..].
Qed.

(** C20. However many pages, threads and bytes the services offer, one pass sends at most 221
    requests to Gmail and 64 to Calendar and keeps at most 8,000,000 bytes of each; every
    request asks for the smaller of its endpoint's limit and the bytes that the requests before
    it left of the 8,000,000, and for one at least; whether the pass returns or raises. *)
Theorem source_reads_stay_in_budget now_g now_c credential d :
  let w := (prepare_evaluation now_g now_c (fresh_world credential, d)).2.1 in
  (Z.of_nat (length (sent (gw_gmail w))) ≤ 221 ∧ received (gw_gmail w) ≤ 8000000 ∧
   ∀ before url query asked after, sent (gw_gmail w) = before ++ (url, query, asked) :: after →
     asked = Z.min (gmail_endpoint_limit url) (8000000 - charges gmail_session [] before) ∧ 1 ≤ asked) ∧
  (Z.of_nat (length (sent (gw_calendar w))) ≤ 64 ∧ received (gw_calendar w) ≤ 8000000 ∧
   ∀ before url query asked after, sent (gw_calendar w) = before ++ (url, query, asked) :: after →
     asked = Z.min 2000000 (8000000 - charges calendar_session [] before) ∧ 1 ≤ asked).
Proof.
  destruct (preserves_final _ _ _ (world_prepare now_g now_c) : world_step (fresh_world credential, d) _) as [HG HC].
  destruct (HG (fresh_budget_ok gmail_session gmail_endpoint_limit _MAX_GMAIL_SYNC_REQUESTS ltac:(done))) as [[? _ [? ?] [? ?] HGs] _].
  destruct (HC (fresh_budget_ok calendar_session calendar_endpoint_limit _MAX_SOURCE_SYNC_REQUESTS ltac:(done))) as [[? _ [? ?] [? ?] HCs] _].
  unfold _MAX_GMAIL_SYNC_REQUESTS, _MAX_SOURCE_SYNC_REQUESTS, _MAX_SOURCE_SYNC_BYTES in *. cbv zeta.
  split; (split; [lia|split; [lia|]]); [exact HGs|exact HCs].
Qed.
End Budget.

(** ** What a direct synchronization records *)

Lemma record_gmail_sync_run now dg cursor code d :
  diagnostics_valid dg = true →
  record_gmail_sync now dg cursor code d =
    (Ok tt, set_gmail_diagnostics (Some dg)
      (match code with
       | None => record_success now Gmail cursor d
       | Some invalid_grant => write_google_auth now NeedsReauth (Some invalid_grant) d
       | Some c => record_failure now Gmail c d
       end).2).
Proof.
  intros Hv. unfold record_gmail_sync, validate. rewrite Hv, mret_bind. unfold immediate_transaction.
  match goal with |- context [(?m ≫= _) d] => assert (m d = (Ok tt, (m d).2)) as Hrun by (by destruct code as [[]|]) end.
  rewrite (bind_run _ _ _ _ _ Hrun). rewrite (validated_diagnostics_written _ _ Hv). by destruct code as [[]|].
Qed.

(** A source row that tells of one attempt: its time, its error, and a success without one. *)
Definition attempted (s : SourceName) (now : instant) (code : option SourceErrorCode) (d : db) : Prop :=
  ss_last_attempt_at (sync_row s d) = Some (utc_iso now) ∧ ss_last_error_code (sync_row s d) = code ∧
  (code = None → ss_last_success_at (sync_row s d) = Some (utc_iso now)).

Lemma sync_row_set_diagnostics s g d : sync_row s (set_gmail_diagnostics g d) = sync_row s d.
Proof. done. Qed.
Lemma attempted_success now s cursor d : attempted s now None (record_success now s cursor d).2.
Proof.
  unfold attempted, record_success. rewrite sync_row_upsert by done. rewrite decide_True by done.
  by destruct (sql_find _ _).
Qed.
Lemma attempted_failure now s c d : attempted s now (Some c) (record_failure now s c d).2.
Proof.
  unfold attempted, record_failure. rewrite sync_row_upsert by done. rewrite decide_True by done.
  by destruct (sql_find _ _).
Qed.
Lemma attempted_reauth now s c d : attempted s now (Some c) (write_google_auth now NeedsReauth (Some c) d).2.
Proof.
  unfold attempted, write_google_auth, _GOOGLE_SOURCES, upsert_sync, modify, sync_row. simpl.
  unfold mbind, M_bind, mret, M_ret. simpl. rewrite !find_sync_upsert by done.
  destruct s; simpl; by destruct (sql_find _ _).
Qed.
Lemma attempted_other s s' now c new f d :
  ss_source new = s → (∀ r, ss_source (f r) = ss_source r) → s ≠ s' →
  attempted s' now c d → attempted s' now c (upsert_sync s new f d).2.
Proof. intros Hnew Hf Hne. unfold attempted. rewrite sync_row_upsert by done. by rewrite decide_False. Qed.

(** Gmail's diagnostics as stored are those of the summary. *)
Definition recorded (now_g now_c : instant) (summary : GoogleReadSummary) (d : db) : Prop :=
  attempted Gmail now_g (gsm_gmail_error_code summary) d ∧
  attempted Calendar now_c (gsm_calendar_error_code summary) d ∧
  gmail_diagnostics d = Some (gsm_gmail_diagnostics summary).

Section Direct.
Context {W : Type} {R : GoogleReaders W} {L : GoogleReadersLaws W}.

Lemma reauthentication_recorded now w d :
  ∃ failed w' d', _reauthentication_summary now (w, d) =
    (Ok (mk_summary 0 [] (Some invalid_grant) 0 [] (Some invalid_grant) failed (source_failure_diagnostics invalid_grant)), (w', d')) ∧
    attempted Gmail now (Some invalid_grant) d' ∧ attempted Calendar now (Some invalid_grant) d' ∧
    all_auth NeedsReauth d' ∧ gmail_diagnostics d' = Some (source_failure_diagnostics invalid_grant).
Proof.
  unfold _reauthentication_summary.
  assert (record_google_invalid_grant now (Some (source_failure_diagnostics invalid_grant)) d =
    (Ok tt, set_gmail_diagnostics (Some (source_failure_diagnostics invalid_grant))
      (write_google_auth now NeedsReauth (Some invalid_grant) d).2)) as Hrun by done.
  rewrite (on_store_bind _ _ _ _ _ _ Hrun), on_world_bind. eexists _, _, _. split; [done|].
  split; [apply (attempted_reauth now Gmail)|]. split; [apply (attempted_reauth now Calendar)|].
  split; [apply (all_auth_write now NeedsReauth)|done].
Qed.

Lemma sync_gmail_recorded now w d :
  match _sync_gmail now (w, d) with
  | (Ok (Some gmail), (_, d')) =>
    attempted Gmail now (oc_error_code (go_outcome gmail)) d' ∧ gmail_diagnostics d' = Some (go_diagnostics gmail)
  | (Ok None, _) => True
  | (Err e, _) => ∃ x, e = ReadError x ∧ gmail_except x = Uncaught
  end.
Proof.
  unfold _sync_gmail. rewrite try_read_bind. destruct (read_inbox w) as [[result|e] w1] eqn:Hread; cbn [fst snd].
  - rewrite (on_store_bind _ _ _ _ _ _ (record_gmail_sync_run _ _ _ _ _ (reads_are_bounded _ _ _ Hread))).
    cbn. split; [|done]. destruct (gir_coverage_complete result); [apply attempted_success|apply attempted_failure].
  - destruct (gmail_except e) as [code| |] eqn:He; [|done|by exists e].
    rewrite (on_store_bind _ _ _ _ _ _ (record_gmail_sync_run _ _ _ _ _ (failure_diagnostics_valid code))).
    cbn. split; [|done]. destruct code; [apply (attempted_reauth now Gmail)|apply attempted_failure..].
Qed.

Lemma sync_calendar_recorded now w d :
  match _sync_calendar now (w, d) with
  | (Ok (Some calendar), (_, d')) =>
    attempted Calendar now (oc_error_code calendar) d' ∧ gmail_diagnostics d' = gmail_diagnostics d ∧
    ∀ t c, attempted Gmail t c d → attempted Gmail t c d'
  | (Ok None, _) => True
  | (Err e, _) => ∃ x, e = ReadError x ∧ calendar_except x = Uncaught
  end.
Proof.
  unfold _sync_calendar. rewrite try_read_bind. destruct (read_events w) as [[result|e] w1] eqn:Hread; cbn [fst snd].
  - destruct (_ =? 0); cbn; split_and!; try done; try apply attempted_success; try apply attempted_failure;
      intros t c; by apply attempted_other.
  - destruct (calendar_except e) as [code| |] eqn:He; [|done|by exists e]. cbn.
    split_and!; [apply attempted_failure|done|]. intros t c. by apply attempted_other.
Qed.

(** A direct synchronization records what it reports: each source's row carries the attempt,
    its error code or its success, and the diagnostics stored are those of the summary.  A
    grant that is no longer valid puts both sources in [needs_reauth]; the store never refuses
    a write, so only an exception the readers do not name escapes. *)
Theorem direct_syncs_are_recorded now_g now_c now_r w d :
  match sync now_g now_c now_r (w, d) with
  | (Ok summary, (_, d')) =>
    recorded now_g now_c summary d' ∨
    (gsm_gmail_error_code summary = Some invalid_grant ∧ recorded now_r now_r summary d' ∧ all_auth NeedsReauth d')
  | (Err e, _) => ∃ x, e = ReadError x ∧ (gmail_except x = Uncaught ∨ calendar_except x = Uncaught)
  end.
Proof.
  assert (∀ w1 d1, match _reauthentication_summary now_r (w1, d1) with
    | (Ok summary, (_, d')) => recorded now_g now_c summary d' ∨
        (gsm_gmail_error_code summary = Some invalid_grant ∧ recorded now_r now_r summary d' ∧ all_auth NeedsReauth d')
    | (Err e, _) => ∃ x, e = ReadError x ∧ (gmail_except x = Uncaught ∨ calendar_except x = Uncaught)
    end) as Hreauth.
  { intros w1 d1. destruct (reauthentication_recorded now_r w1 d1) as (b & w' & d' & -> & Hg & Hc & Ha & Hd).
    right. split; [done|]. split; [|exact Ha]. split; [exact Hg|]. split; [exact Hc|exact Hd]. }
  unfold sync. unfold mbind at 1, M_bind at 1. pose proof (sync_gmail_recorded now_g w d) as Hg.
  destruct (_sync_gmail now_g (w, d)) as [[[gmail|]|e] [w1 d1]].
  - unfold mbind at 1, M_bind at 1. pose proof (sync_calendar_recorded now_c w1 d1) as Hc.
    destruct (_sync_calendar now_c (w1, d1)) as [[[calendar|]|e] [w2 d2]].
    + destruct Hg as [Hg Hdg], Hc as (Hc & Hdc & Hkeep). left. split_and!; [by apply Hkeep|done|].
      by rewrite Hdc, Hdg.
    + apply Hreauth.
    + destruct Hc as (x & -> & Hx). exists x. split; [done|by right].
  - apply Hreauth.
  - destruct Hg as (x & -> & Hx). exists x. split; [done|by left].
Qed.
End Direct.

(** ** Concrete reads *)

(** A session that answers every URL with a short body in two chunks; the second thread's
    detail is declared longer than one response may be. *)
Definition body_stream (s : text) : stream := Chunk (take_bytes 1 s) (Chunk "" (Chunk (String.substring 1 (String.length s) s) StreamEnd)).
Definition sample_session (_ : list (text * dict * Z)) (url : text) (query : dict) : res session_error streaming_response :=
  let answer body := Ok (mk_streaming 200 None (body_stream body)) in
  if bool_decide (url = GMAIL_PROFILE_URL) then answer "profile"%string
  else if contains "/threads/b" url then Ok (mk_streaming 200 (Some " 1_000_001 "%string) StreamEnd)
  else if contains "/threads/" url then answer "detail"%string
  else answer (default "first"%string (dict_get "pageToken" query)).
Definition sample_readers : GoogleReaders google_world :=
  open_readers (U := ascii_unicode) sample_tokens sample_parseaddr sample_validate_profile sample_validate_page
    sample_validate_detail sample_pages sample_session sample_session GmailSource.DEFAULT_LOOKBACK calendar_now calendar_now true.
Lemma sample_honours_max_results : honours_max_results (Tr := gmail_request sample_session) sample_validate_page.
Proof.
  intros after tok s page s' (body & s1 & _ & (wire & s2 & Hp & [= <- _])%bind_ok)%bind_ok.
  unfold parse_json, sample_validate_page in Hp. cbn [lp_threads]. rewrite length_fmap.
  case_bool_decide; injection Hp as <- _; vm_compute; discriminate.
Qed.
Definition sample_laws : GoogleReadersLaws google_world (R := sample_readers) :=
  open_readers_laws (U := ascii_unicode) sample_tokens sample_parseaddr sample_validate_profile sample_validate_page
    sample_validate_detail sample_pages sample_session sample_session GmailSource.DEFAULT_LOOKBACK calendar_now calendar_now true
    sample_honours_max_results.

Definition sample_preparation : res pass_exn EngineInputs * (google_world * db) :=
  prepare_evaluation (R := sample_readers) calendar_now calendar_now (fresh_world (Some "token"%string), empty_db).
Definition sample_prepared : EngineInputs :=
  match sample_preparation.1 with Ok inputs => inputs | Err _ => no_inputs end.
Example sample_preparation_counts :
  (length (sent (gw_gmail sample_preparation.2.1)), received (gw_gmail sample_preparation.2.1),
   length (sent (gw_calendar sample_preparation.2.1)),
   (sn_complete <$> in_gmail_threads sample_prepared), (sn_warning_codes <$> in_gmail_threads sample_prepared)) =
  (6%nat, 7 + 5 + 6 + 6 + 6, 2%nat, Some false, Some ["thread_response_too_large"%string]).
Proof. vm_compute. reflexivity. Qed.

Lemma preparations_are_truthful_witness :
  well_sourced sample_prepared ∧
  ∃ gm c dg, sample_prepared = mk_inputs (Some gm) (Some c) (Some dg) ∧ diagnostics_valid dg = true ∧
    (sn_complete gm = false → sn_warning_codes gm ≠ []).
Proof.
  assert (prepare_evaluation (R := sample_readers) calendar_now calendar_now (fresh_world (Some "token"%string), empty_db) =
    (Ok sample_prepared, (sample_preparation.2.1, sample_preparation.2.2))) as Hrun by (vm_compute; reflexivity).
  destruct (preparations_are_truthful (R := sample_readers) (L := sample_laws) _ _ _ _ _ _ _ Hrun)
    as (_ & Hsrc & _ & gm & c & dg & Heq & _ & _ & Hdg & Hwarn & _).
  split; [exact Hsrc|]. exists gm, c, dg. split; [exact Heq|]. split; [exact Hdg|exact Hwarn].
Defined.

Definition sample_sync : res pass_exn GoogleReadSummary * (google_world * db) :=
  sync (R := sample_readers) calendar_now (calendar_now + 1) (calendar_now + 2) (fresh_world (Some "token"%string), empty_db).
Definition sample_summary : GoogleReadSummary :=
  match sample_sync.1 with
  | Ok summary => summary
  | Err _ => mk_summary 0 [] None 0 [] None false (source_failure_diagnostics unknown)
  end.
Lemma direct_syncs_are_recorded_witness :
  gsm_gmail_error_code sample_summary = Some degraded ∧
  (recorded calendar_now (calendar_now + 1) sample_summary sample_sync.2.2 ∨
   (gsm_gmail_error_code sample_summary = Some invalid_grant ∧
    recorded (calendar_now + 2) (calendar_now + 2) sample_summary sample_sync.2.2 ∧ all_auth NeedsReauth sample_sync.2.2)).
Proof.
  split; [vm_compute; reflexivity|].
  pose proof (direct_syncs_are_recorded (R := sample_readers) (L := sample_laws) calendar_now (calendar_now + 1)
    (calendar_now + 2) (fresh_world (Some "token"%string)) empty_db) as H.
  assert (sync (R := sample_readers) calendar_now (calendar_now + 1) (calendar_now + 2)
    (fresh_world (Some "token"%string), empty_db) = (Ok sample_summary, (sample_sync.2.1, sample_sync.2.2))) as Hrun
    by (vm_compute; reflexivity).
  rewrite Hrun in H. exact H.
Defined.
