(* ===== verification/Evaluation.v ===== *)
(** One evaluation pass: the gates of its remote reads ([sources/lazy_sync.py]) and the service
    the daemon and [proactive_check] share ([delivery/evaluation.py]). *)
From stdpp Require Import pretty.
From S2P Require Import Prelude PyDate PyTime Models SourceSync Situations StateMachine Resolution Runtime Memory CalendarConflict DeadlineText ReplyDeadline Health Config Engine Transport CalendarSource GmailSource GoogleSync.
Import Diagnostics SyncState Freshness.
#[local] Open Scope Z_scope.

(** ** Outcomes *)

Inductive SourceSkipReason :=
  | SkipNotConfigured | SkipNeedsReauth | SkipMissingCredentials | SkipCredentialStorageUnavailable
  | SkipDaemonRunning | SkipAlreadyFresh | SkipSyncInFlight.
#[export] Instance SourceSkipReason_eq_dec : EqDecision SourceSkipReason.
Proof. solve_decision. Defined.
Inductive SourceOutcome :=
  | PreparedSources (inputs : EngineInputs)
  | SkippedSources (reason : SourceSkipReason).
Record EvaluationPass := mk_pass {
  ep_result : EvaluationResult;
  ep_sources : SourceOutcome;
  ep_warnings : list text;
}.

Definition skip_guidance (reason : SourceSkipReason) : text :=
  match reason with
  | SkipNotConfigured => "google: sources are not configured; run proactive-mcp setup"
  | SkipNeedsReauth => "google: authorization is no longer valid; run proactive-mcp setup --reauth"
  | SkipMissingCredentials => "google: stored credentials are missing; run proactive-mcp setup"
  | SkipCredentialStorageUnavailable =>
    "google: credential storage is unavailable; unlock this session's OS keyring, then run proactive-mcp setup if reads stay skipped"
  | SkipSyncInFlight => "google: another read attempt is in flight; read skipped"
  | SkipDaemonRunning | SkipAlreadyFresh => ""
  end.
Definition _skip_warnings (reason : SourceSkipReason) : list text :=
  let guidance := skip_guidance reason in
  if bool_decide (guidance = ""%string) then [] else [guidance].

(** [EvaluationService.run_once] over any source provider and evaluator. *)
Definition run_once {S E} (prepare_sources : M S E SourceOutcome) (evaluate : EngineInputs → M S E EvaluationResult)
    : M S E EvaluationPass :=
  outcome ← prepare_sources;
  let '(inputs, skipped) := match outcome with
                            | PreparedSources inputs => (inputs, [])
                            | SkippedSources reason => (no_inputs, _skip_warnings reason)
                            end in
  result ← evaluate inputs;
  mret (mk_pass result outcome (skipped ++ er_warnings result)).

(** ** The gates *)

Record LazySyncPolicy := mk_policy {
  lp_daemon_stale_after : timedelta;
  lp_min_attempt_interval : timedelta;
  lp_stale_after : timedelta;
}.
Definition _DAEMON_STALE_POLLS : Z := 3.
Definition for_poll_interval (poll_interval : timedelta) : LazySyncPolicy :=
  mk_policy (_DAEMON_STALE_POLLS * poll_interval) poll_interval DEFAULT_STALE_AFTER.

Definition authorization_block (auth : SourceAuthState) : option SourceSkipReason :=
  match auth with
  | NotConfigured => Some SkipNotConfigured
  | NeedsReauth => Some SkipNeedsReauth
  | Configured => None
  end.
Definition _authorization_skip (states : SourceSyncState * SourceSyncState) : option SourceSkipReason :=
  match authorization_block (auth_state states.1) with
  | Some reason => Some reason
  | None => authorization_block (auth_state states.2)
  end.

Definition _daemon_owns_reads (liveness : Daemon.DaemonLiveness) : bool :=
  match liveness with
  | Daemon.LiveRunning => true
  | Daemon.LiveNeverStarted | Daemon.LiveStale | Daemon.LiveStopped => false
  end.

Definition _latest_attempt_age (states : SourceSyncState * SourceSyncState) (now : instant) : option timedelta :=
  match last_attempt_at states.1, last_attempt_at states.2 with
  | Some a, Some b => Some (now - Z.max a b)
  | Some a, None | None, Some a => Some (now - a)
  | None, None => None
  end.
Definition _all_fresh (policy : LazySyncPolicy) (states : SourceSyncState * SourceSyncState) (now : instant) : bool :=
  let fresh st := bool_decide (fr_status (evaluate_source_freshness st now (lp_stale_after policy)) = FreshOk) in
  fresh states.1 && fresh states.2.

(** State, credentials and reader construction ([SourceAccess]); [None] is
    [CredentialStorageError]. *)
Class SourceAccess (W : Type) := {
  credential : Type;
  load_credential : W → option (option credential) * W;
  open_credential : credential → GoogleReaders W;
}.

(** The clock readings of one read: the credential's row and the two reservations. *)
Record read_clock := mk_read_clock { rk_credential : instant; rk_gmail : instant; rk_calendar : instant }.
(** Those of the lazy gate, and the token of its lease. *)
Record gate_clock := mk_gate_clock { gk_status : instant; gk_now : instant; gk_acquire : instant; gk_token : text }.

(** [try: body finally: last]. *)
Definition try_finally {S E A} (body : M S E A) (last : M S E unit) : M S E A := λ s,
  let (r, s1) := body s in
  match last s1 with
  | (Ok _, s2) => (r, s2)
  | (Err e, s2) => (Err e, s2)
  end.

Section Access.
Context {W : Type} {A : SourceAccess W}.
Context (parse_datetime : text → option Z).

Definition _read (k : read_clock) : pass W SourceOutcome :=
  loaded ← on_world load_credential;
  match loaded with
  | None =>
    on_store (record_credential_state (rk_credential k) CredentialUnavailable);;
    mret (SkippedSources SkipCredentialStorageUnavailable)
  | Some None =>
    on_store (record_credential_state (rk_credential k) CredentialMissing);;
    mret (SkippedSources SkipMissingCredentials)
  | Some (Some credential) =>
    on_store (record_credential_state (rk_credential k) CredentialAvailable);;
    inputs ← prepare_evaluation (R := open_credential credential) (rk_gmail k) (rk_calendar k);
    mret (PreparedSources inputs)
  end.

(** [ScheduledSourceProvider.prepare_sources]. *)
Definition scheduled_sources (k : read_clock) : pass W SourceOutcome :=
  states ← on_store (gets (list_source_sync parse_datetime));
  match _authorization_skip states with
  | Some blocked => mret (SkippedSources blocked)
  | None => _read k
  end.

(** [LazySourceProvider._degraded_skip]. *)
Definition _degraded_skip (policy : LazySyncPolicy) (g : gate_clock) (states : SourceSyncState * SourceSyncState)
    : pass W (option SourceSkipReason) :=
  watcher ← on_store (Daemon.status (gk_status g) (Some (lp_daemon_stale_after policy)));
  if _daemon_owns_reads (Daemon.st_liveness watcher) then mret (Some SkipDaemonRunning) else
  if _all_fresh policy states (gk_now g) then mret (Some SkipAlreadyFresh) else
  mret match _latest_attempt_age states (gk_now g) with
       | Some age => if age <? lp_min_attempt_interval policy then Some SkipSyncInFlight else None
       | None => None
       end.

Definition _read_with_lease (g : gate_clock) (k : read_clock) (lease_duration : timedelta) : pass W SourceOutcome :=
  lease ← on_store (Lease.acquire (gk_acquire g) (gk_token g) lease_duration);
  match lease with
  | None => mret (SkippedSources SkipSyncInFlight)
  | Some lease => try_finally (_read k) (on_store (Lease.release lease);; mret tt)
  end.

(** [LazySourceProvider.prepare_sources]. *)
Definition lazy_sources (policy : LazySyncPolicy) (g : gate_clock) (k : read_clock) : pass W SourceOutcome :=
  states ← on_store (gets (list_source_sync parse_datetime));
  blocked ← (match _authorization_skip states with
             | Some blocked => mret (Some blocked)
             | None => _degraded_skip policy g states
             end);
  match blocked with
  | Some blocked => mret (SkippedSources blocked)
  | None => _read_with_lease g k (lp_min_attempt_interval policy)
  end.
End Access.

(** ** What a pass does to the store *)

(** A relation on stores, of passes: what the readers do to the world does not touch it. *)
Definition on_db {W} (Q : relation db) : relation (W * db) := λ s s', Q s.2 s'.2.
#[export] Instance on_db_preorder {W} Q `{!PreOrder Q} : PreOrder (on_db (W := W) Q).
Proof. split; [intros s; apply (reflexivity s.2)|]. intros s1 s2 s3 H12 H23. unfold on_db in *. by etrans. Qed.
(** The columns a view reads are left alone. *)
Definition unchanged {X} (view : db → X) : relation db := λ d d', view d' = view d.
#[export] Instance unchanged_preorder {X} (view : db → X) : PreOrder (unchanged view).
Proof. split; [by intros d|]. intros d1 d2 d3 H12 H23. unfold unchanged in *. by rewrite H23. Qed.

Section Steps.
Context {W : Type} (Q : relation db) `{!PreOrder Q}.

#[export] Instance db_on_store {A} (m : op A) : Preserves Q m → Preserves (on_db Q) (on_store (W := W) m).
Proof.
  intros Hm [w d] r s'. unfold on_store. cbn [fst snd]. destruct (m d) as [[a|e] d1] eqn:Hd;
    intros [= _ <-]; by apply (Hm _ _ _ Hd).
Qed.
#[export] Instance db_try_read {A} (m : M W read_error A) : Preserves (on_db Q) (try_read m).
Proof. intros [w d] r s'. unfold try_read. cbn [fst snd]. destruct (m w). intros [= _ <-]. apply (reflexivity d). Qed.
#[export] Instance db_on_world {A} (f : W → A * W) : Preserves (on_db Q) (on_world f).
Proof. intros [w d] r s'. unfold on_world. cbn [fst snd]. destruct (f w). intros [= _ <-]. apply (reflexivity d). Qed.
#[export] Instance db_try_finally {A} (body : pass W A) (last : pass W unit) :
  Preserves (on_db Q) body → Preserves (on_db Q) last → Preserves (on_db Q) (try_finally body last).
Proof.
  intros Hb Hl s r s'. unfold try_finally. destruct (body s) as [r1 s1] eqn:H1.
  destruct (last s1) as [[[]|e] s2] eqn:H2; intros [= _ <-];
    (etrans; [by apply (Hb _ _ _ H1)|by apply (Hl _ _ _ H2)]).
Qed.

Lemma db_prepare {R : GoogleReaders W} now_g now_c :
  (∀ now s, Preserves Q (Generation.reserve now s)) →
  Preserves (on_db Q) (prepare_evaluation (R := R) now_g now_c).
Proof.
  intros Hres. unfold prepare_evaluation, _invalid_grant_inputs. apply preserves_bind; [apply _..|]. intros gg.
  apply preserves_bind; [apply _..|]. intros cg. apply preserves_bind; [apply _..|]. cbv zeta.
  assert (∀ (gm : SourceSnapshot InboxThreadSnapshot) (dg : SourceReadDiagnostics), Preserves (on_db Q)
    (calendar_result ← try_read read_events;
     match calendar_result with
     | Ok result => mret (mk_inputs (Some gm) (Some (calendar_snapshot cg result)) (Some dg))
     | Err e =>
       match calendar_except e with
       | ReadFailed code => mret (mk_inputs (Some gm) (Some (calendar_error_snapshot cg code)) (Some dg))
       | InvalidGrant =>
         on_world delete_credentials;;
         mret (mk_inputs (Some (gmail_error_snapshot gg invalid_grant)) (Some (calendar_error_snapshot cg invalid_grant))
           (Some (source_failure_diagnostics invalid_grant)))
       | Uncaught => raise (ReadError e)
       end
     end)) as Hcal.
  { intros gm dg. apply preserves_bind; [apply _..|]. intros [x|e]; [apply _|]. destruct (calendar_except e); apply _. }
  intros [x|e]; [apply Hcal|]. destruct (gmail_except e); [apply Hcal|apply _..].
Qed.

Lemma db_read {A : SourceAccess W} k :
  (∀ now s, Preserves Q (Generation.reserve now s)) → (∀ now c, Preserves Q (record_credential_state now c)) →
  Preserves (on_db Q) (_read k).
Proof.
  intros Hres Hcred. unfold _read. apply preserves_bind; [apply _..|]. intros [[c|]|]; [|apply _..].
  apply preserves_bind; [apply _..|]. intros _. apply preserves_bind; [apply _|by apply db_prepare|apply _].
Qed.
End Steps.

Lemma status_reads now stale d : (Daemon.status now stale d).2 = d.
Proof.
  unfold Daemon.status. rewrite gets_bind. destruct (daemon_status d) as [r|]; [|done].
  unfold lift_time, lift, mbind, M_bind. by destruct (Daemon._liveness _ _ _).
Qed.
Lemma acquire_cases now token dur d r d1 :
  Lease.acquire now token dur d = (r, d1) →
  (∃ lease, r = Ok (Some lease) ∧ lazy_lease d1 = Some (mk_lazy_lease token (utc_iso now) (utc_iso (now + dur))) ∧
     Lease.le_token lease = token) ∨
  (r = Ok None ∧ d1 = d) ∨ (∃ e, r = Err e ∧ d1 = d).
Proof.
  unfold Lease.acquire. destruct (_ <=? _); [intros [= <- <-]; eauto|].
  unfold lift_time, lift, mbind at 1, M_bind at 1. destruct (dt_add now dur) as [x|e] eqn:Hx; [|intros [= <- <-]; eauto].
  apply dt_add_ok in Hx as [_ ->]. unfold immediate_transaction. step.
  destruct (match lazy_lease d with None => _ | Some _ => _ end); intros [= <- <-]; [left|right; left; done].
  by eexists.
Qed.

(** ** The lazy gate *)

Section Gate.
Context {W : Type} {A : SourceAccess W}.
Context (parse_datetime : text → option Z) (policy : LazySyncPolicy) (g : gate_clock) (k : read_clock).

Abbreviation lazy := (lazy_sources parse_datetime policy g k).

Definition fresh_now (s : SourceName) (d : db) : Prop :=
  fr_status (evaluate_source_freshness (source_state parse_datetime s d) (gk_now g) (lp_stale_after policy)) = FreshOk.
Definition recently_attempted (s : SourceName) (d : db) : Prop :=
  ∃ t, last_attempt_at (source_state parse_datetime s d) = Some t ∧ gk_now g - t < lp_min_attempt_interval policy.
Definition watched (d : db) : Prop :=
  ∃ st, Daemon.status (gk_status g) (Some (lp_daemon_stale_after policy)) d = (Ok st, d) ∧
    Daemon.st_liveness st = Daemon.LiveRunning.
Definition lease_taken (d : db) : Prop :=
  Lease.acquire (gk_acquire g) (gk_token g) (lp_min_attempt_interval policy) d = (Ok None, d).

(** What the store says when a lazy read is skipped. *)
Definition skip_justified (reason : SourceSkipReason) (d : db) : Prop :=
  match reason with
  | SkipNotConfigured => ∃ s, auth_state (source_state parse_datetime s d) = NotConfigured
  | SkipNeedsReauth => ∃ s, auth_state (source_state parse_datetime s d) = NeedsReauth
  | SkipDaemonRunning => watched d
  | SkipAlreadyFresh => ∀ s, fresh_now s d
  | SkipSyncInFlight => (∃ s, recently_attempted s d) ∨ lease_taken d
  | SkipMissingCredentials | SkipCredentialStorageUnavailable => False
  end.

Lemma authorization_skip_cases d :
  match _authorization_skip (list_source_sync parse_datetime d) with
  | Some reason => skip_justified reason d
  | None => ∀ s, auth_state (source_state parse_datetime s d) = Configured
  end.
Proof.
  unfold _authorization_skip, list_source_sync. cbn [fst snd].
  destruct (auth_state (source_state parse_datetime Gmail d)) eqn:Hg; cbn [authorization_block].
  - by exists Gmail.
  - destruct (auth_state (source_state parse_datetime Calendar d)) eqn:Hc; cbn [authorization_block].
    + by exists Calendar.
    + by intros [].
    + by exists Calendar.
  - by exists Gmail.
Qed.

Lemma all_fresh_true d : _all_fresh policy (list_source_sync parse_datetime d) (gk_now g) = true ↔ ∀ s, fresh_now s d.
Proof.
  unfold _all_fresh, list_source_sync, fresh_now. cbn [fst snd]. rewrite andb_true_iff, !bool_decide_eq_true.
  split; [by intros [? ?] []|by intros H]. 
Qed.
Lemma attempt_age_recent d age :
  _latest_attempt_age (list_source_sync parse_datetime d) (gk_now g) = Some age →
  (age < lp_min_attempt_interval policy ↔ ∃ s, recently_attempted s d).
Proof.
  unfold _latest_attempt_age, list_source_sync, recently_attempted. cbn [fst snd].
  destruct (last_attempt_at (source_state parse_datetime Gmail d)) as [a|] eqn:Ha,
    (last_attempt_at (source_state parse_datetime Calendar d)) as [b|] eqn:Hb; intros [= <-];
    (split; [intros Hlt|intros [[] (t & Ht & Hlt)]; simplify_eq; lia]).
  - destruct (Z.max_spec a b) as [[? Hm]|[? Hm]]; rewrite Hm in Hlt; [exists Calendar|exists Gmail]; eauto.
  - exists Gmail; eauto.
  - exists Calendar; eauto.
Qed.
Lemma no_attempt d :
  _latest_attempt_age (list_source_sync parse_datetime d) (gk_now g) = None → ¬ ∃ s, recently_attempted s d.
Proof.
  unfold _latest_attempt_age, list_source_sync, recently_attempted. cbn [fst snd].
  destruct (last_attempt_at (source_state parse_datetime Gmail d)) as [a|] eqn:Ha,
    (last_attempt_at (source_state parse_datetime Calendar d)) as [b|] eqn:Hb; [done..|].
  intros _ [[] (t & Ht & _)]; congruence.
Qed.

(** The read itself: the lease is held all along and is free again at the end. *)
Lemma read_with_lease_cases w d r w' d' :
  _read_with_lease g k (lp_min_attempt_interval policy) (w, d) = (r, (w', d')) →
  (∃ e, r = Err (StoreError e) ∧ w' = w ∧ d' = d) ∨
  (r = Ok (SkippedSources SkipSyncInFlight) ∧ w' = w ∧ d' = d ∧ lease_taken d) ∨
  (∃ lease d1 d2, Lease.acquire (gk_acquire g) (gk_token g) (lp_min_attempt_interval policy) d = (Ok (Some lease), d1) ∧
     _read k (w, d1) = (r, (w', d2)) ∧ lazy_lease d2 = lazy_lease d1 ∧ d' = set_lazy_lease None d2).
Proof.
  unfold _read_with_lease, mbind at 1, M_bind at 1, on_store at 1. cbn [fst snd].
  destruct (Lease.acquire _ _ _ d) as [r1 d1] eqn:Hacq.
  destruct (acquire_cases _ _ _ _ _ _ Hacq) as [(lease & -> & Hl & Htok)|[[-> ->]|(e & -> & ->)]].
  - unfold try_finally. destruct (_read k (w, d1)) as [r2 [w2 d2]] eqn:Hread.
    assert (lazy_lease d2 = lazy_lease d1) as Hkeep.
    { apply (db_read (unchanged lazy_lease) k) in Hread; [done|intros now []; by intros ? ? ? [= _ <-]|].
      by intros now c ? ? ? [= _ <-]. }
    unfold on_store, mbind, M_bind, mret, M_ret. cbn [fst snd].
    assert (Lease.release lease d2 = (Ok true, set_lazy_lease None d2)) as ->.
    { unfold Lease.release, immediate_transaction. rewrite gets_bind, Hkeep, Hl. cbn [ll_owner_token].
      by rewrite bool_decide_eq_true_2. }
    intros [= <- <- <-]. right. right. exists lease, d1, d2. done.
  - intros [= <- <- <-]. right. left. done.
  - intros [= <- <- <-]. left. by exists e.
Qed.

(** C10. A lazy read happens only when both sources are authorized, no daemon keeps them fresh, one
    is not fresh, no attempt was recent and the lease was free; it holds the lease throughout
    and leaves it free.  In every other case the outside world and the store are untouched,
    and a skip's reason is what the store says. *)
Theorem lazy_reads_are_gated w d r w' d' :
  lazy (w, d) = (r, (w', d')) →
  (w' = w ∧ d' = d ∧
     ((∃ e, r = Err (StoreError e)) ∨ ∃ reason, r = Ok (SkippedSources reason) ∧ skip_justified reason d)) ∨
  ((∀ s, auth_state (source_state parse_datetime s d) = Configured) ∧ ¬ watched d ∧ ¬ (∀ s, fresh_now s d) ∧
   ¬ (∃ s, recently_attempted s d) ∧
   ∃ lease d1 d2, Lease.acquire (gk_acquire g) (gk_token g) (lp_min_attempt_interval policy) d = (Ok (Some lease), d1) ∧
     _read k (w, d1) = (r, (w', d2)) ∧ lazy_lease d2 = lazy_lease d1 ∧ d' = set_lazy_lease None d2).
Proof.
  unfold lazy_sources. rewrite (on_store_bind (gets (list_source_sync parse_datetime)) _ (list_source_sync parse_datetime d) w d d eq_refl).
  pose proof (authorization_skip_cases d) as Hauth. destruct (_authorization_skip _) as [reason|].
  { intros [= <- <- <-]. left. split_and!; [done..|]. right. by exists reason. }
  unfold mbind at 1, M_bind at 1, _degraded_skip. unfold mbind at 1, M_bind at 1, on_store at 1. cbn [fst snd].
  pose proof (status_reads (gk_status g) (Some (lp_daemon_stale_after policy)) d) as Hread.
  destruct (Daemon.status _ _ d) as [[st|e] d0] eqn:Hst; cbn [snd] in Hread; subst d0;
    [|intros [= <- <- <-]; left; split_and!; [done..|]; left; by exists e].
  destruct (_daemon_owns_reads (Daemon.st_liveness st)) eqn:Hown.
  { intros [= <- <- <-]. left. split_and!; [done..|]. right. exists SkipDaemonRunning. split; [done|].
    exists st. split; [done|]. by destruct (Daemon.st_liveness st). }
  assert (¬ watched d) as Hnw.
  { intros (st' & Hst' & Hlive). rewrite Hst in Hst'. injection Hst' as ->. by rewrite Hlive in Hown. }
  destruct (_all_fresh _ _ _) eqn:Hfresh.
  { intros [= <- <- <-]. left. split_and!; [done..|]. right. exists SkipAlreadyFresh. split; [done|]. exact (proj1 (all_fresh_true d) Hfresh). }
  assert (¬ ∀ s, fresh_now s d) as Hnf by (rewrite <- all_fresh_true; congruence).
  destruct (_latest_attempt_age _ _) as [age|] eqn:Hage.
  - pose proof (attempt_age_recent d age Hage) as Hrec. destruct (Z.ltb_spec age (lp_min_attempt_interval policy)) as [Hlt|Hge].
    { intros [= <- <- <-]. left. split_and!; [done..|]. right. exists SkipSyncInFlight. split; [done|]. left. by apply Hrec. }
    intros [(e & -> & -> & ->)|[(-> & -> & -> & Hl)|H]]%read_with_lease_cases.
    + left. split_and!; [done..|]. left. by exists e.
    + left. split_and!; [done..|]. right. exists SkipSyncInFlight. split; [done|]. by right.
    + right. split_and!; try done. rewrite <- Hrec. lia.
  - apply no_attempt in Hage.
    intros [(e & -> & -> & ->)|[(-> & -> & -> & Hl)|H]]%read_with_lease_cases.
    + left. split_and!; [done..|]. left. by exists e.
    + left. split_and!; [done..|]. right. exists SkipSyncInFlight. split; [done|]. by right.
    + right. by split_and!.
Qed.
End Gate.

(** ** The shared pass *)

(** Inputs read in a pass over the access [A]: the credential was loaded from the pass's
    world, and the readers it opens were run from the world that left, to the pass's last. *)
Definition read_in_pass {W} {A : SourceAccess W} (w : W) (inputs : EngineInputs) (w' : W) : Prop :=
  ∃ c w0 gg gc, load_credential w = (Some (Some c), w0) ∧
    sg_source gg = Gmail ∧ sg_source gc = Calendar ∧
    prepared_from (R := open_credential c) gg gc w0 inputs w'.

(** What a source provider promises the service: it keeps the store sound, and the snapshots
    it hands over were read in the pass. *)
Class SourceProvider {W} {A : SourceAccess W} (prepare_sources : pass W SourceOutcome) : Prop := {
  provider_sound : Preserves (on_db sound_step) prepare_sources;
  provider_prepares w d inputs w' d' :
    prepare_sources (w, d) = (Ok (PreparedSources inputs), (w', d')) → read_in_pass w inputs w';
}.

#[export] Instance sound_record_credential now c : Preserves sound_step (record_credential_state now c).
Proof. apply sound_modify_frame; done. Qed.
#[export] Instance sound_acquire now token dur : Preserves sound_step (Lease.acquire now token dur).
Proof.
  unfold Lease.acquire. apply preserves_if; [apply _|]. apply preserves_bind; [apply _|unfold lift_time; apply _|].
  intros e. apply preserves_transaction; [apply _|]. apply preserves_bind; [apply _..|]. intros cur.
  apply preserves_if; [|apply _]. apply preserves_bind; [apply _| |apply _]. by apply sound_modify_frame.
Qed.
#[export] Instance sound_release lease : Preserves sound_step (Lease.release lease).
Proof.
  unfold Lease.release. apply preserves_transaction; [apply _|]. apply preserves_bind; [apply _..|]. intros [r|]; [|apply _].
  apply preserves_if; [|apply _]. apply preserves_bind; [apply _| |apply _]. by apply sound_modify_frame.
Qed.
#[export] Instance sound_status now o : Preserves sound_step (Daemon.status now o).
Proof. intros d r d' H. pose proof (status_reads now o d) as Hs. rewrite H in Hs. cbn in Hs. rewrite Hs. reflexivity. Qed.

(** A lazy read starts from the world the pass started from: its gates only look at the store. *)
Lemma lazy_reads_from {W} {A : SourceAccess W} parse_datetime policy g k w d inputs w' d' :
  lazy_sources parse_datetime policy g k (w, d) = (Ok (PreparedSources inputs), (w', d')) →
  ∃ d1 d2, _read k (w, d1) = (Ok (PreparedSources inputs), (w', d2)).
Proof.
  unfold lazy_sources. rewrite (on_store_bind (gets (list_source_sync parse_datetime)) _ (list_source_sync parse_datetime d) w d d eq_refl).
  intros ([b|] & [w2 d2] & Hskip & H)%bind_ok; [done|].
  assert (w2 = w) as ->.
  { destruct (_authorization_skip _); [done|]. unfold _degraded_skip in Hskip.
    unfold mbind at 1, M_bind at 1, on_store at 1 in Hskip. cbn [fst snd] in Hskip.
    destruct (Daemon.status _ _ d) as [[st|e] d0]; [|done].
    destruct (_daemon_owns_reads _); [done|]. destruct (_all_fresh _ _ _); [done|]. by injection Hskip. }
  apply read_with_lease_cases in H as [(e & [=] & _)|[([=] & _)|(lease & d3 & d4 & _ & H & _)]]. eauto.
Qed.

Section Providers.
Context {W : Type} {A : SourceAccess W}.
Context (parse_datetime : text → option Z).

Lemma sound_read k : Preserves (on_db sound_step) (_read k : pass W SourceOutcome).
Proof. apply db_read; apply _. Qed.
Lemma read_prepares k w d inputs w' d' :
  _read k (w, d) = (Ok (PreparedSources inputs), (w', d')) → read_in_pass w inputs w'.
Proof.
  unfold _read. rewrite on_world_bind. destruct (load_credential w) as [[[c|]|] w1] eqn:Hload; cbn [fst snd].
  - rewrite (on_store_bind (record_credential_state (rk_credential k) CredentialAvailable) _ tt _ _ _ eq_refl).
    intros (inputs' & [w2 d2] & [_ Hp]%prepare_inputs & [= <- <- _])%bind_ok.
    by exists c, w1, (next_generation Gmail (record_credential_state (rk_credential k) CredentialAvailable d).2),
      (next_generation Calendar (record_credential_state (rk_credential k) CredentialAvailable d).2).
  - by intros (? & ? & _ & ?)%bind_ok.
  - by intros (? & ? & _ & ?)%bind_ok.
Qed.

#[export] Instance scheduled_provider k : SourceProvider (scheduled_sources parse_datetime k : pass W SourceOutcome).
Proof.
  split.
  - unfold scheduled_sources. apply preserves_bind; [apply _..|]. intros states.
    destruct (_authorization_skip states); [apply _|apply sound_read].
  - unfold scheduled_sources. intros w d inputs w' d' (states & [w1 d1] & [= _ <- <-] & H)%bind_ok.
    destruct (_authorization_skip states); [done|]. by eapply read_prepares.
Qed.
#[export] Instance lazy_provider policy g k : SourceProvider (lazy_sources parse_datetime policy g k : pass W SourceOutcome).
Proof.
  split.
  - unfold lazy_sources, _degraded_skip, _read_with_lease. apply preserves_bind; [apply _..|]. intros states.
    apply preserves_bind; [apply _| |].
    + destruct (_authorization_skip states); [apply _|]. apply preserves_bind; [apply _..|]. intros st.
      apply preserves_if; [apply _|]. apply preserves_if; apply _.
    + intros [blocked|]; [apply _|]. apply preserves_bind; [apply _..|]. intros [lease|]; [|apply _].
      apply db_try_finally; [apply _|apply sound_read|apply _].
  - intros w d inputs w' d' H. apply lazy_reads_from in H as (d1 & d2 & H). by eapply read_prepares.
Qed.
End Providers.

Section Service.
Context {U : Unicode} {T : CharTables}.
Context (dump_json : SituationEvidence → text) (parse_datetime : text → option Z).
Context (tz : tzinfo) (detectors : DetectorSettings).
Context {W : Type} {A : SourceAccess W}.
Context (prepare_sources : pass W SourceOutcome) {P : SourceProvider prepare_sources}.

(** [EvaluationService] over the engine. *)
Definition evaluate_pass (k : pass_clock) (memory : memory_db) : pass W EvaluationPass :=
  run_once prepare_sources (λ inputs, on_store (evaluate dump_json parse_datetime tz detectors k memory inputs)).

Lemma evaluate_pass_parts k memory w d p w' d' :
  evaluate_pass k memory (w, d) = (Ok p, (w', d')) →
  ∃ w1 d1 inputs r, prepare_sources (w, d) = (Ok (ep_sources p), (w1, d1)) ∧ w' = w1 ∧
    evaluate dump_json parse_datetime tz detectors k memory inputs d1 = (Ok r, d') ∧ ep_result p = r ∧
    match ep_sources p with
    | PreparedSources i => inputs = i ∧ ep_warnings p = er_warnings r
    | SkippedSources reason => inputs = no_inputs ∧ ep_warnings p = _skip_warnings reason ++ er_warnings r
    end.
Proof.
  unfold evaluate_pass, run_once. intros (o & [w1 d1] & H1 & H)%bind_ok.
  assert (∀ inputs skipped, (result ← on_store (evaluate dump_json parse_datetime tz detectors k memory inputs);
      mret (mk_pass result o (skipped ++ er_warnings result))) (w1, d1) = (Ok p, (w', d')) →
    ∃ r, w' = w1 ∧ evaluate dump_json parse_datetime tz detectors k memory inputs d1 = (Ok r, d') ∧
      p = mk_pass r o (skipped ++ er_warnings r)) as Hrun.
  { intros inputs skipped (r & [w2 d2] & H2 & [= <- <- <-])%bind_ok. exists r. unfold on_store in H2. cbn [fst snd] in H2.
    destruct (evaluate _ _ _ _ _ _ _ d1) as [[r'|] d3]; [|done]. by injection H2 as -> <- <-. }
  destruct o as [inputs|reason]; apply Hrun in H as (r & -> & Hev & ->).
  - by exists w1, d1, inputs, r.
  - by exists w1, d1, no_inputs, r.
Qed.

Lemma skip_warnings_nil reason :
  _skip_warnings reason = [] ↔ reason = SkipDaemonRunning ∨ reason = SkipAlreadyFresh.
Proof. destruct reason; cbn; (split; [|by intros [?|?]]); intros H; done || (by left) || (by right). Qed.

(** C3. A pass of the daemon or of [proactive_check] that gives no warning is an all-clear one may
    trust: both sources are fresh, and either both were read in this pass, completely, by the
    readers that the loaded credential opens, run one after the other from the pass's world to
    its last, and the snapshots evaluated are exactly what they returned, or the read was
    skipped with the reason that a daemon is running or that everything was fresh already. *)
Theorem quiet_passes_are_all_clear k memory w d p w' d' :
  db_ok d → evaluate_pass k memory (w, d) = (Ok p, (w', d')) → ep_warnings p = [] →
  (fr_status (er_gmail_freshness (ep_result p)) = FreshOk ∧ fr_status (er_calendar_freshness (ep_result p)) = FreshOk) ∧
  match ep_sources p with
  | SkippedSources reason => reason = SkipDaemonRunning ∨ reason = SkipAlreadyFresh
  | PreparedSources inputs =>
    ∃ c w0 w1 inbox events gg gc,
      load_credential w = (Some (Some c), w0) ∧
      read_inbox (GoogleReaders := open_credential c) w0 = (Ok inbox, w1) ∧
      read_events (GoogleReaders := open_credential c) w1 = (Ok events, w') ∧
      gir_coverage_complete inbox = true ∧ gir_degradation_reasons inbox = [] ∧ crr_skipped_count events = 0 ∧
      inputs = mk_inputs (Some (gmail_snapshot gg inbox)) (Some (calendar_snapshot gc events))
        (Some (_gmail_read_diagnostics inbox))
  end.
Proof.
  intros Hok (w1 & d1 & inputs & r & Hprep & -> & Hev & Hres & Hsrc)%evaluate_pass_parts Hquiet. rewrite Hres.
  assert (db_ok d1) as Hok1 by (by apply (provider_sound _ _ _ Hprep)).
  destruct (ep_sources p) as [i|reason].
  - destruct Hsrc as [-> Hw]. rewrite Hw in Hquiet.
    apply provider_prepares in Hprep as (cr & w0 & gg & gc & Hload & Hsg & Hsc & Hp).
    assert (∃ gm c dg, i = mk_inputs (Some gm) (Some c) (Some dg)) as (gm & c & dg & ->).
    { unfold prepared_from in Hp. destruct (read_inbox w0) as [? w2], (read_events w2).
      destruct Hp as (gm & c & dg & -> & _). by exists gm, c, dg. }
    pose proof (prepared_generations _ _ _ _ _ _ _ Hp) as [Hgg Hgc].
    assert (well_sourced (mk_inputs (Some gm) (Some c) (Some dg))) as Hsourced
      by (split; intros x [= <-]; by rewrite ?Hgg, ?Hgc).
    destruct (all_clear dump_json parse_datetime tz detectors k memory _ _ _ _ Hok1 Hsourced Hev Hquiet) as (Hfresh & Hgm & Hcal).
    split; [done|]. destruct (Hgm gm eq_refl) as (Hgw & _ & Hcodes & _). destruct (Hcal c eq_refl) as (Hcw & _).
    apply prepared_complete in Hp as [Hg Hc].
    destruct (Hg Hgw) as (inbox & Hri & Hcov & -> & ->), (Hc Hcw) as (events & Hre & Hz & ->).
    cbn in Hcodes. apply fmap_nil_inv in Hcodes.
    destruct (read_inbox w0) as [ri w2] eqn:Hread. cbn [fst snd] in Hri, Hre. subst ri.
    exists cr, w0, w2, inbox, events, gg, gc. by split_and!.
  - destruct Hsrc as [-> Hw]. rewrite Hw in Hquiet. apply app_nil in Hquiet as [Hskip Hquiet].
    assert (well_sourced no_inputs) as Hsourced by (by split).
    destruct (all_clear dump_json parse_datetime tz detectors k memory _ _ _ _ Hok1 Hsourced Hev Hquiet) as (Hfresh & _).
    split; [done|]. by apply skip_warnings_nil.
Qed.
End Service.

(** ** Concrete passes *)

Definition quiet_page (_ : text) : option _WireThreadsPage := Some (mk_wire_threads [mk_wire_thread (Some "t1"%string) None] None).
Definition quiet_events (_ : text) : option _WireEventsPage := Some (mk_wire_page [wire_event "c" "2026-03-13T09:00:00Z" "2026-03-13T10:00:00Z"] None).
Definition quiet_readers : GoogleReaders google_world :=
  open_readers (U := ascii_unicode) GmailProjection.sample_tokens GmailProjection.sample_parseaddr sample_validate_profile
    quiet_page sample_validate_detail quiet_events sample_session sample_session GmailSource.DEFAULT_LOOKBACK engine_now engine_now true.
#[local] Instance sample_access : SourceAccess google_world := {|
  credential := text;
  load_credential := λ w, (Some (gw_credential w), w);
  open_credential := λ _, quiet_readers;
|}.
Definition pass_db : db := (write_google_auth engine_now Configured None empty_db).2.
Definition pass_world : google_world := fresh_world (Some "token"%string).
Definition sample_read_clock : read_clock := mk_read_clock engine_now engine_now engine_now.
Definition sample_pass : res pass_exn EvaluationPass * (google_world * db) :=
  evaluate_pass (U := ascii_unicode) (T := hangul_tables) (λ _, ""%string) fromisoformat UTC default_detectors
    (scheduled_sources fromisoformat sample_read_clock) (engine_clock engine_now) empty_memory (pass_world, pass_db).
Definition pass_of (r : res pass_exn EvaluationPass * (google_world * db)) : EvaluationPass :=
  match r.1 with
  | Ok p => p
  | Err _ => mk_pass no_result (SkippedSources SkipSyncInFlight) []
  end.
Example sample_pass_result : (ep_warnings (pass_of sample_pass), er_created (ep_result (pass_of sample_pass))) = ([], 1).
Proof. vm_compute. reflexivity. Qed.

Lemma pass_db_ok : db_ok pass_db.
Proof. apply (preserves_snd _ _ (sound_write_google_auth _ _ _)). apply db_ok_empty. Qed.

Lemma quiet_passes_are_all_clear_witness :
  ep_warnings (pass_of sample_pass) = [] ∧
  fr_status (er_gmail_freshness (ep_result (pass_of sample_pass))) = FreshOk ∧
  fr_status (er_calendar_freshness (ep_result (pass_of sample_pass))) = FreshOk.
Proof.
  assert (ep_warnings (pass_of sample_pass) = []) as Hquiet by (vm_compute; reflexivity).
  split; [exact Hquiet|].
  assert (evaluate_pass (U := ascii_unicode) (T := hangul_tables) (λ _, ""%string) fromisoformat UTC default_detectors
    (scheduled_sources fromisoformat sample_read_clock) (engine_clock engine_now) empty_memory (pass_world, pass_db) =
    (Ok (pass_of sample_pass), (sample_pass.2.1, sample_pass.2.2))) as Hrun by (vm_compute; reflexivity).
  destruct (quiet_passes_are_all_clear (A := sample_access) _ _ _ _ _ _ _ _ _ _ _ _ pass_db_ok Hrun Hquiet) as [H _]; exact H.
Defined.

Definition sample_policy : LazySyncPolicy := for_poll_interval (15 * US_PER_MINUTE).
Definition sample_gate (now : instant) (token : text) : gate_clock := mk_gate_clock now now now token.
Definition sample_lazy (now : instant) (d : db) : res pass_exn SourceOutcome * (google_world * db) :=
  lazy_sources fromisoformat sample_policy (sample_gate now "a") sample_read_clock (pass_world, d).
(** The first read goes through and leaves the lease free; a fresh store is then left alone. *)
Lemma lazy_reads_are_gated_witness :
  lazy_lease (sample_lazy engine_now pass_db).2.2 = None ∧
  (sample_lazy (engine_now + 1) sample_pass.2.2).2.1 = pass_world.
Proof.
  split.
  - assert (lazy_sources fromisoformat sample_policy (sample_gate engine_now "a") sample_read_clock (pass_world, pass_db) =
      ((sample_lazy engine_now pass_db).1, ((sample_lazy engine_now pass_db).2.1, (sample_lazy engine_now pass_db).2.2))) as Hrun
      by (unfold sample_lazy; destruct (lazy_sources _ _ _ _ _) as [? [? ?]]; reflexivity).
    destruct (lazy_reads_are_gated _ _ _ _ _ _ _ _ _ Hrun) as [(_ & Hd & _)|(_ & _ & _ & _ & l & d1 & d2 & _ & _ & _ & Hd)].
    + rewrite Hd. reflexivity.
    + rewrite Hd. reflexivity.
  - vm_compute. reflexivity.
Defined.
