(* ===== verification/Frames.v ===== *)
(** What an evaluation pass leaves alone: a pass and its reads write the situations, the
    generations, the sync rows, the diagnostics, the credential state, the read lease and the
    gate before the pass, and nothing else, so that every view of the other tables is the same
    after it. *)
From S2P Require Import Prelude PyDate PyTime Models SourceSync Situations StateMachine Resolution Fallback Runtime Memory CalendarConflict DeadlineText Health Config Engine Transport GoogleSync Evaluation.
Import SyncState Freshness Diagnostics Sql Upsert Store Reader.
#[local] Open Scope Z_scope.

(** A view of the tables a pass does not write. *)
Class Aside {X} (view : db → X) : Prop := {
  aside_situations v d : view (set_situations v d) = view d;
  aside_generations v d : view (set_generations v d) = view d;
  aside_sync_states v d : view (set_sync_states v d) = view d;
  aside_gmail_diagnostics v d : view (set_gmail_diagnostics v d) = view d;
  aside_credential_state v d : view (set_credential_state v d) = view d;
  aside_lazy_lease v d : view (set_lazy_lease v d) = view d;
  aside_evaluation_gate v d : view (set_evaluation_gate v d) = view d;
}.
#[export] Instance aside_daemon_status : Aside daemon_status.
Proof. by split. Qed.
#[export] Instance aside_claims : Aside claims.
Proof. by split. Qed.
#[export] Instance aside_receipts : Aside receipts.
Proof. by split. Qed.
#[export] Instance aside_deliveries : Aside deliveries.
Proof. by split. Qed.
#[export] Instance aside_type_mutes : Aside type_mutes.
Proof. by split. Qed.
#[export] Instance aside_collectors : Aside collectors.
Proof. by split. Qed.

Lemma frame_modify {X} (view : db → X) f :
  (∀ d, view (f d) = view d) → Preserves (unchanged view) (modify f : op unit).
Proof. intros H. by apply preserves_modify. Qed.

(** Takes an operation apart into statements on other tables. *)
Ltac frames :=
  intros; repeat first
    [ done
    | apply frame_modify; intros ?; first [apply aside_situations|apply aside_generations|apply aside_sync_states
        |apply aside_gmail_diagnostics|apply aside_credential_state|apply aside_lazy_lease|apply aside_evaluation_gate]
    | apply preserves_bind; [apply _| |intros ?]
    | apply preserves_transaction; [apply _|]
    | apply preserves_for_each; [apply _|intros ? ?]
    | apply preserves_if; [apply _| |]
    | match goal with |- Preserves _ (match ?x with _ => _ end) => destruct x end
    | progress (unfold lift_time, lift_scan_exn, lift_conflict_exn)
    | apply _ ].

Section Frames.
Context {X : Type} (view : db → X) {V : Aside view}.
Abbreviation kept := (unchanged view).

#[export] Instance frame_update_situations p f : Preserves kept (update_situations p f).
Proof. intros d r d'. rewrite update_situations_run. intros [= _ <-]. apply aside_situations. Qed.
#[export] Instance frame_wake t : Preserves kept (wake_snoozed t).
Proof. unfold wake_snoozed, WAKE_SNOOZED. frames. Qed.
#[export] Instance frame_expire t : Preserves kept (expire_lapsed t).
Proof. unfold expire_lapsed, EXPIRE_LAPSED. frames. Qed.
#[export] Instance frame_upsert_batch dump x t src gen ty : Preserves kept (upsert_batch dump x t src gen ty).
Proof. apply (keeps_upsert_batch view), aside_situations. Qed.
#[export] Instance frame_resolve ty keys t src : Preserves kept (resolve ty keys t src).
Proof. apply (keeps_resolve view), aside_situations. Qed.
#[export] Instance frame_resolve_by ty keys sids t inc src :
  Preserves kept (resolve_by_source_ids ty keys sids t inc src).
Proof. apply (keeps_resolve_by view), aside_situations. Qed.
#[export] Instance frame_local dump k xs : Preserves kept (apply_local_detections dump k xs).
Proof. unfold apply_local_detections. frames. Qed.
#[export] Instance frame_upsert_sync s new f : Preserves kept (upsert_sync s new f).
Proof. unfold upsert_sync. frames. Qed.
#[export] Instance frame_validate g : Preserves kept (validate g).
Proof. unfold validate. frames. Qed.
#[export] Instance frame_write g : Preserves kept (Diagnostics.write g).
Proof. unfold Diagnostics.write. frames. Qed.
#[export] Instance frame_accept now gen st dg : Preserves kept (accept_source_generation now gen st dg).
Proof. unfold accept_source_generation, Generation.accept. frames. Qed.
#[export] Instance frame_apply_source dump now now' now'' gen xs st cur ec dg ra :
  Preserves kept (apply_source_generation dump now now' now'' gen xs st cur ec dg ra).
Proof. unfold apply_source_generation, write_google_auth, record_failure, record_success. cbv zeta. frames. Qed.
#[export] Instance frame_reserve now s : Preserves kept (Generation.reserve now s).
Proof. unfold Generation.reserve. frames. Qed.
#[export] Instance frame_credential now c : Preserves kept (record_credential_state now c).
Proof. unfold record_credential_state. frames. Qed.
#[export] Instance frame_acquire now token dur : Preserves kept (Lease.acquire now token dur).
Proof. unfold Lease.acquire. frames. Qed.
#[export] Instance frame_try_start now minimum : Preserves kept (Gate.try_start now minimum).
Proof. unfold Gate.try_start. frames. Qed.
#[export] Instance frame_release lease : Preserves kept (Lease.release lease).
Proof. unfold Lease.release. frames. Qed.
#[export] Instance frame_daemon_status now stale : Preserves kept (Daemon.status now stale).
Proof. intros d r d' H. pose proof (status_reads now stale d) as Hd. rewrite H in Hd. by rewrite <- Hd. Qed.

Section Evaluation.
Context {U : Unicode} {T : CharTables}.
Context (dump_json : SituationEvidence → text) (parse_datetime : text → option Z).
Context (tz : tzinfo) (detectors : DetectorSettings).

#[export] Instance frame_evaluate k memory inputs :
  Preserves kept (evaluate dump_json parse_datetime tz detectors k memory inputs).
Proof. unfold evaluate, gmail_pass, calendar_pass, skipped_pass. frames. Qed.

Context {W : Type} {A : SourceAccess W}.
#[export] Instance frame_read k : Preserves (on_db (W := W) kept) (_read k).
Proof. apply db_read; apply _. Qed.
#[export] Instance frame_lazy_sources policy g k :
  Preserves (on_db (W := W) kept) (lazy_sources parse_datetime policy g k).
Proof. unfold lazy_sources, _degraded_skip, _read_with_lease. frames. Qed.
#[export] Instance frame_scheduled_sources k :
  Preserves (on_db (W := W) kept) (scheduled_sources parse_datetime k).
Proof. unfold scheduled_sources. frames. Qed.
#[export] Instance frame_evaluate_pass sources k memory :
  Preserves (on_db (W := W) kept) sources →
  Preserves (on_db (W := W) kept) (evaluate_pass dump_json parse_datetime tz detectors sources k memory).
Proof. intros Hs. unfold evaluate_pass, Evaluation.run_once. frames. Qed.
End Evaluation.
End Frames.
