(* ===== verification/Credentials.v ===== *)
(** The shared Google credential ([sources/credentials.py], [_credential_models.py],
    [_credential_files.py], [_credential_cleanup.py], [_credential_legacy.py]): one credential per
    state directory, kept in the platform's keyring or, where there is none, in a private file,
    with a marker file that says which of the two is authoritative.  The keyring, the JSON
    validation and Google's credential object are parameters; the private files are an interface
    ([PrivateFiles]). *)
From S2P Require Import Prelude Paths.
#[local] Open Scope Z_scope.

(** ** Backends *)

(** The errors of the keyring library; all are [KeyringError]s. *)
Inductive keyring_error := InitError | NoKeyringError | PasswordDeleteError | OtherKeyringError.
Definition no_keyring (e : keyring_error) : bool :=
  match e with InitError | NoKeyringError => true | _ => false end.
(** The errors of [store/private_file.py]. *)
Inductive file_error := OSError | PrivateFileUnsupportedError | UnsafeDatabasePathError.
Inductive private_read_error := FileError (e : file_error) | UnicodeDecodeError.

Class Backends (W : Type) := {
  get_password : text → text → M W keyring_error (option text);
  set_password : text → text → text → M W keyring_error unit;
  delete_password : text → text → M W keyring_error unit;
  read_private_text : Path → M W private_read_error (option text);
  write_private_text : Path → text → M W file_error unit;
  delete_private_file : Path → M W file_error unit;
  (** What is stored: an entry of the keyring, the text of a file. *)
  keyring_entry : W → text → text → option text;
  file_text : W → Path → option text;
}.

(** ** Records and their validation *)

Definition GOOGLE_READONLY_SCOPES : list text :=
  ["https://www.googleapis.com/auth/gmail.readonly"; "https://www.googleapis.com/auth/calendar.readonly"].
Definition OAUTH_ENDPOINT : text := "https://oauth2.googleapis.com/token".

Inductive credential_error := MissingRefreshTokenError | CredentialScopeError | CredentialStorageError.
#[export] Instance credential_error_eq_dec : EqDecision credential_error.
Proof. solve_decision. Defined.

(** What the code asks of a credential. *)
Record GoogleCredential := mk_credential {
  gc_refresh_token : option text;
  gc_scopes : option (list text);
  gc_to_json : text;
}.
Record AuthorizedUserWire := mk_wire {
  aw_client_id : text;
  aw_client_secret : text;
  aw_refresh_token : text;
  aw_token : option text;
  aw_scopes : list text;
}.
Record CredentialEnvelope := mk_envelope { ev_epoch : Z; ev_revision : text; ev_credential : text }.
Inductive Backend := BackendKeyring | BackendFile | BackendDeleted.
#[export] Instance Backend_eq_dec : EqDecision Backend.
Proof. solve_decision. Defined.
Record CredentialState := mk_state {
  cs_epoch : Z;
  cs_revision : text;
  cs_backend : Backend;
  cs_tombstone : bool;
}.
(** The constraints of both models. *)
Definition version_ok (epoch : Z) (revision : text) : bool := (1 <=? epoch) && (Nat.eqb (String.length revision) 64).

(** JSON validation ([TypeAdapter.validate_json], [None] for a [ValidationError]), serialization,
    and the constructor of Google's credentials ([None] for a [ValueError]). *)
Class CredentialJson := {
  validate_wire : text → option AuthorizedUserWire;
  validate_envelope : text → option CredentialEnvelope;
  validate_state : text → option CredentialState;
  dump_envelope : CredentialEnvelope → text;
  dump_state : CredentialState → text;
  google_credentials : AuthorizedUserWire → text → list text → option GoogleCredential;
}.

Section Models.
Context {J : CredentialJson}.

Definition require_refreshable_readonly_credentials (c : GoogleCredential) : res credential_error unit :=
  match gc_refresh_token c with
  | None | Some EmptyString => Err MissingRefreshTokenError
  | Some _ =>
    if bool_decide (default [] (gc_scopes c) = GOOGLE_READONLY_SCOPES) then Ok tt else Err CredentialScopeError
  end.

Definition parse_credentials (serialized : text) : option GoogleCredential :=
  wire ← validate_wire serialized;
  if negb (bool_decide (aw_scopes wire = GOOGLE_READONLY_SCOPES)) then None else
  credentials ← google_credentials wire OAUTH_ENDPOINT GOOGLE_READONLY_SCOPES;
  match require_refreshable_readonly_credentials credentials with
  | Ok _ => Some credentials
  | Err _ => None
  end.

Definition parse_envelope (serialized : text) : option CredentialEnvelope := validate_envelope serialized.

Definition parse_enveloped_credentials (serialized : text) (expected_epoch : Z) (expected_revision : text)
    : option GoogleCredential :=
  envelope ← parse_envelope serialized;
  if negb (ev_epoch envelope =? expected_epoch) || negb (bool_decide (ev_revision envelope = expected_revision))
  then None
  else parse_credentials (ev_credential envelope).
End Models.

(** ** The store *)

Definition _KEYRING_SERVICE : text := "proactive-mcp".
Definition _KEYRING_USERNAME : text := "google-readonly-oauth".
Definition _CREDENTIAL_FILE_NAME : text := "google-readonly-oauth.json".
Definition _CREDENTIAL_STATE_FILE_NAME : text := "google-readonly-oauth.state.json".
Definition _LEGACY_MIGRATED_MARKER : text := "proactive-mcp:migrated-to-profile:v1".

(** A store object: the backends and its [_loaded_version]. *)
Abbreviation loaded := (option (Z * text)).
Abbreviation store_op W := (M (W * loaded) credential_error).

Section Store.
Context {W : Type} {B : Backends W} {J : CredentialJson}.
(** [os.path.normcase] of the resolved path, the hash of a text in hexadecimal, and the two state
    directories a store knows. *)
Context (canonical_state_root : Path → text) (sha256_hex : text → text).
Context (state_directory default_state_directory : Path).

Definition file_path : Path := joined (joined state_directory "credentials") _CREDENTIAL_FILE_NAME.
Definition state_path : Path := joined (joined state_directory "credentials") _CREDENTIAL_STATE_FILE_NAME.
Definition keyring_username : text :=
  _KEYRING_USERNAME +:+ ":" +:+ sha256_hex (canonical_state_root state_directory).
Definition _is_default : bool :=
  bool_decide (canonical_state_root state_directory = canonical_state_root default_state_directory).

(** [try: m; ok except ...: handler], for an operation of a backend. *)
Definition attempt {E A C} (m : M W E A) (ok : A → store_op W C) (handler : E → store_op W C) : store_op W C := λ s,
  match m s.1 with
  | (Ok a, w) => ok a (w, s.2)
  | (Err e, w) => handler e (w, s.2)
  end.
Definition _set_loaded_version (version : Z * text) : store_op W unit := modify (λ s, (s.1, Some version)).
Definition storage_error {E A} (_ : E) : store_op W A := raise CredentialStorageError.

(** *** Private files *)

Definition write_private (path : Path) (content : text) : store_op W unit :=
  attempt (write_private_text path content) mret storage_error.
Definition write_credential (serialized : text) : store_op W unit := write_private file_path serialized.
Definition write_state (state : CredentialState) : store_op W unit := write_private state_path (dump_state state).
(** Every error of the read counts as an absent file. *)
Definition read_credential : store_op W (option text) := attempt (read_private_text file_path) mret (λ _, mret None).
Definition read_state : store_op W (option CredentialState) :=
  serialized ← attempt (read_private_text state_path) mret (λ _, mret None);
  mret (serialized ≫= validate_state).

(** *** Cleanup *)

Definition delete_fallback : store_op W unit :=
  attempt (delete_private_file file_path) mret (λ e,
    match e with PrivateFileUnsupportedError => mret tt | _ => raise CredentialStorageError end).
Definition purge_tombstoned : store_op W unit :=
  delete_fallback;;
  attempt (delete_password _KEYRING_SERVICE keyring_username) mret (λ e,
    match e with OtherKeyringError => raise CredentialStorageError | _ => mret tt end).

(** *** Saving *)

(** [revision] is the [token_hex(32)] of the call. *)
Definition save (revision : text) (credentials : GoogleCredential) : store_op W unit :=
  lift (require_refreshable_readonly_credentials credentials);;
  state ← read_state;
  let epoch := match state with None => 1 | Some s => cs_epoch s + 1 end in
  let serialized := dump_envelope (mk_envelope epoch revision (gc_to_json credentials)) in
  attempt (set_password _KEYRING_SERVICE keyring_username serialized)
    (λ _, write_state (mk_state epoch revision BackendKeyring false);;
          delete_fallback;;
          _set_loaded_version (epoch, revision))
    (λ e, if no_keyring e then
            write_credential serialized;;
            write_state (mk_state epoch revision BackendFile false);;
            _set_loaded_version (epoch, revision)
          else raise CredentialStorageError).

(** *** Adoption of a record from before the marker *)

Definition _retire_global (expected : text) : store_op W unit :=
  attempt (get_password _KEYRING_SERVICE _KEYRING_USERNAME)
    (λ current,
      match current with
      | None => mret tt
      | Some c =>
        if bool_decide (c = _LEGACY_MIGRATED_MARKER) then mret tt else
        if negb (bool_decide (c = expected)) then raise CredentialStorageError else
        attempt (set_password _KEYRING_SERVICE _KEYRING_USERNAME _LEGACY_MIGRATED_MARKER) mret storage_error
      end)
    storage_error.

Definition _adopt (revision : text) (serialized : option text) (backend : Backend) (retire_global : bool)
    : store_op W (option GoogleCredential) :=
  match serialized with
  | None => mret None
  | Some serialized =>
    match parse_envelope serialized with
    | Some envelope =>
      match parse_credentials (ev_credential envelope) with
      | None => mret None
      | Some credentials =>
        (if retire_global then _retire_global (ev_credential envelope) else mret tt);;
        write_state (mk_state (ev_epoch envelope) (ev_revision envelope) backend false);;
        _set_loaded_version (ev_epoch envelope, ev_revision envelope);;
        mret (Some credentials)
      end
    | None =>
      match parse_credentials serialized with
      | None => mret None
      | Some credentials => save revision credentials;; mret (Some credentials)
      end
    end
  end.

Definition _migrate_global (revision serialized : text) (credentials : GoogleCredential)
    : store_op W GoogleCredential :=
  attempt (set_password _KEYRING_SERVICE keyring_username (dump_envelope (mk_envelope 1 revision serialized)))
    mret storage_error;;
  _retire_global serialized;;
  write_state (mk_state 1 revision BackendKeyring false);;
  delete_fallback;;
  _set_loaded_version (1, revision);;
  mret credentials.

Definition load_legacy (revision : text) : store_op W (option GoogleCredential) :=
  attempt (get_password _KEYRING_SERVICE keyring_username)
    (λ serialized,
      match serialized with
      | Some _ => _adopt revision serialized BackendKeyring _is_default
      | None =>
        migrated ← (if _is_default then
          attempt (get_password _KEYRING_SERVICE _KEYRING_USERNAME)
            (λ serialized,
              match serialized with
              | None => mret None
              | Some s =>
                if bool_decide (s = _LEGACY_MIGRATED_MARKER) then mret None else
                match parse_credentials s with
                | None => mret (Some None)
                | Some credentials => c ← _migrate_global revision s credentials; mret (Some (Some c))
                end
              end)
            storage_error
          else mret None);
        match migrated with
        | Some result => mret result
        | None => text ← read_credential; _adopt revision text BackendFile false
        end
      end)
    (λ e, if no_keyring e then text ← read_credential; _adopt revision text BackendFile false
          else raise CredentialStorageError).

(** *** Loading and deleting *)

Definition _load_authoritative_file (state : CredentialState) : store_op W (option GoogleCredential) :=
  serialized ← read_credential;
  match serialized with
  | None => mret None
  | Some serialized =>
    match parse_enveloped_credentials serialized (cs_epoch state) (cs_revision state) with
    | None => mret None
    | Some credentials =>
      attempt (set_password _KEYRING_SERVICE keyring_username serialized)
        (λ _, write_state (mk_state (cs_epoch state) (cs_revision state) BackendKeyring false);;
              delete_fallback;;
              mret (Some credentials))
        (λ e, if no_keyring e then mret (Some credentials) else raise CredentialStorageError)
    end
  end.

Definition load (revision : text) : store_op W (option GoogleCredential) :=
  state ← read_state;
  match state with
  | None => load_legacy revision
  | Some state =>
    _set_loaded_version (cs_epoch state, cs_revision state);;
    if cs_tombstone state || bool_decide (cs_backend state = BackendDeleted) then purge_tombstoned;; mret None else
    if bool_decide (cs_backend state = BackendFile) then _load_authoritative_file state else
    attempt (get_password _KEYRING_SERVICE keyring_username)
      (λ serialized, mret (s ← serialized; parse_enveloped_credentials s (cs_epoch state) (cs_revision state)))
      storage_error
  end.

Definition delete (revision : text) : store_op W unit :=
  state ← read_state;
  version ← gets snd;
  let stale := match version, state with
               | Some v, Some s => negb (bool_decide ((cs_epoch s, cs_revision s) = v))
               | _, _ => false
               end in
  if stale then mret tt else
  let epoch := match state with None => 1 | Some s => cs_epoch s + 1 end in
  write_state (mk_state epoch revision BackendDeleted true);;
  _set_loaded_version (epoch, revision);;
  attempt (delete_password _KEYRING_SERVICE keyring_username)
    (λ _, delete_fallback)
    (λ e, match e with
          | OtherKeyringError => raise CredentialStorageError
          | _ => delete_fallback;; raise CredentialStorageError
          end).
End Store.

(** ** What the backends promise *)

Section Laws.
Context {W : Type} {B : Backends W}.

Definition keyring_except (sv u : text) (w w' : W) : Prop :=
  ∀ sv' u', (sv', u') ≠ (sv, u) → keyring_entry w' sv' u' = keyring_entry w sv' u'.
Definition files_except (p : Path) (w w' : W) : Prop := ∀ q, q ≠ p → file_text w' q = file_text w q.
Definition same_keyring (w w' : W) : Prop := ∀ sv u, keyring_entry w' sv u = keyring_entry w sv u.
Definition same_files (w w' : W) : Prop := ∀ q, file_text w' q = file_text w q.
(** An entry or a text after a call that should make it [new]: an error may come before or after
    the change. *)
Definition written {E A} (r : res E A) (old new : option text) (after : option text) : Prop :=
  match r with Ok _ => after = new | Err _ => after = old ∨ after = new end.

(** A keyring call changes its entry only, and none where there is no keyring; a file call changes
    its file only, a read may fail at any time but returns nothing else than the text, and there is
    no private file on a platform without them. *)
Class BackendLaws : Prop := {
  get_law sv u w r w' : get_password sv u w = (r, w') →
    same_keyring w w' ∧ same_files w w' ∧ (∀ p, r = Ok p → p = keyring_entry w sv u);
  set_law sv u p w r w' : set_password sv u p w = (r, w') →
    keyring_except sv u w w' ∧ same_files w w' ∧
    written r (keyring_entry w sv u) (Some p) (keyring_entry w' sv u);
  delete_law sv u w r w' : delete_password sv u w = (r, w') →
    keyring_except sv u w w' ∧ same_files w w' ∧ written r (keyring_entry w sv u) None (keyring_entry w' sv u);
  read_law p w r w' : read_private_text p w = (r, w') →
    same_keyring w w' ∧ same_files w w' ∧ (∀ t, r = Ok t → t = file_text w p);
  write_law p t w r w' : write_private_text p t w = (r, w') →
    same_keyring w w' ∧ files_except p w w' ∧ written r (file_text w p) (Some t) (file_text w' p);
  delete_file_law p w r w' : delete_private_file p w = (r, w') →
    same_keyring w w' ∧ files_except p w w' ∧ written r (file_text w p) None (file_text w' p) ∧
    (r = Err PrivateFileUnsupportedError → file_text w p = None);
}.
End Laws.

(** Validation accepts what serialization produced from a valid record. *)
Class JsonLaws {J : CredentialJson} : Prop := {
  envelope_roundtrip e r c : version_ok e r = true →
    validate_envelope (dump_envelope (mk_envelope e r c)) = Some (mk_envelope e r c);
  state_roundtrip e r b t : version_ok e r = true →
    validate_state (dump_state (mk_state e r b t)) = Some (mk_state e r b t);
  state_valid t s : validate_state t = Some s → version_ok (cs_epoch s) (cs_revision s) = true;
}.

(** ** Only read-only credentials *)

(** What a run that returns yields. *)
Definition Yields {S E A} (P : A → Prop) (m : M S E A) : Prop := ∀ s a s', m s = (Ok a, s') → P a.
Definition readonly (o : option GoogleCredential) : Prop :=
  ∀ c, o = Some c → require_refreshable_readonly_credentials c = Ok tt.

Lemma yields_bind {S E A C} (P : C → Prop) (m : M S E A) (f : A → M S E C) :
  (∀ a, Yields P (f a)) → Yields P (m ≫= f).
Proof. intros Hf s c s' (a & s1 & _ & H)%bind_ok. by apply (Hf a _ _ _ H). Qed.
Lemma yields_bind_post {S E A C} (Q : A → Prop) (P : C → Prop) (m : M S E A) (f : A → M S E C) :
  Yields Q m → (∀ a, Q a → Yields P (f a)) → Yields P (m ≫= f).
Proof. intros Hm Hf s c s' (a & s1 & Ha & H)%bind_ok. exact (Hf a (Hm _ _ _ Ha) _ _ _ H). Qed.
Lemma yields_ret {S E A} (P : A → Prop) (a : A) : P a → Yields P (mret a : M S E A).
Proof. by intros Ha s b s' [= <- _]. Qed.
Lemma yields_raise {S E A} (P : A → Prop) (e : E) : Yields P (raise e : M S E A).
Proof. by intros s b s'. Qed.
Lemma yields_attempt {W E A C} (P : C → Prop) (m : M W E A) ok handler :
  (∀ a, Yields P (ok a)) → (∀ e, Yields P (handler e)) → Yields P (attempt m ok handler).
Proof.
  intros Hok Herr s c s'. unfold attempt. destruct (m s.1) as [[a|e] w]; intros H; [by apply (Hok _ _ _ _ H)|by apply (Herr _ _ _ _ H)].
Qed.
Create HintDb yields discriminated.
#[export] Hint Resolve yields_ret yields_raise : yields.

Lemma parse_readonly {J : CredentialJson} t : readonly (parse_credentials t).
Proof.
  intros c. unfold parse_credentials. destruct (validate_wire t); [|done]. cbn.
  destruct (negb _); [done|]. destruct (google_credentials _ _ _) as [c'|]; [|done]. cbn.
  destruct (require_refreshable_readonly_credentials c') as [[]|] eqn:Hc; [|done]. by intros [= <-].
Qed.
Lemma readonly_none : readonly None.
Proof. done. Qed.
#[export] Hint Resolve parse_readonly readonly_none : yields.

(** Follows the branches of an operation to the values it returns. *)
Ltac yields :=
  lazymatch goal with
  | |- Yields _ (mbind _ _) => apply yields_bind; intros ?; yields
  | |- Yields _ (attempt _ _ _) => apply yields_attempt; intros ?; yields
  | |- Yields _ (storage_error _) => apply yields_raise
  | |- Yields _ (if ?b then _ else _) => destruct b eqn:?; yields
  | |- Yields _ (match ?x with _ => _ end) => destruct x eqn:?; yields
  | |- _ => eauto with yields
  end.

Section Readonly.
Context {W : Type} {B : Backends W} {J : CredentialJson}.
Context (canonical_state_root : Path → text) (sha256_hex : text → text).
Context (state_directory default_state_directory : Path).

Lemma readonly_some c t : parse_credentials t = Some c → readonly (Some c).
Proof. intros <-. apply parse_readonly. Qed.
#[local] Hint Resolve readonly_some : yields.
Lemma adopt_readonly rev t b g :
  Yields readonly (_adopt (B := B) canonical_state_root sha256_hex state_directory rev t b g).
Proof. unfold _adopt. yields. Qed.
#[local] Hint Resolve adopt_readonly : yields.

Lemma enveloped_readonly t e r : readonly (parse_enveloped_credentials t e r).
Proof.
  unfold parse_enveloped_credentials. destruct (parse_envelope t); [|done]. cbn. destruct (_ || _); [done|]. apply parse_readonly.
Qed.
Lemma migrate_yields rev t c :
  Yields (λ c', c' = c) (_migrate_global (B := B) canonical_state_root sha256_hex state_directory rev t c).
Proof. unfold _migrate_global. yields. Qed.
Lemma legacy_readonly rev :
  Yields readonly (load_legacy (B := B) canonical_state_root sha256_hex state_directory default_state_directory rev).
Proof.
  unfold load_legacy. apply yields_attempt; [intros [t|]|intros e]; [apply adopt_readonly| |yields].
  apply (yields_bind_post (λ o, ∀ r, o = Some r → readonly r)); [|intros [r|] Hr; [by apply yields_ret, Hr|yields]].
  destruct (_is_default _ _ _); [|by apply yields_ret]. apply yields_attempt; [|intros e; apply yields_raise].
  intros [t|]; [|by apply yields_ret]. destruct (bool_decide _); [by apply yields_ret|].
  destruct (parse_credentials t) as [c|] eqn:Hc; [|apply yields_ret; by intros r [= <-]].
  eapply yields_bind_post; [apply migrate_yields|]. intros c' ->. apply yields_ret. intros r [= <-]. by eapply readonly_some.
Qed.

(** Whatever the keyring, the files and the validation answer, and whatever errors they raise, a
    credential that is loaded asks for exactly the two read-only scopes and can be refreshed. *)
Theorem loads_are_readonly rev s c s' :
  load (B := B) canonical_state_root sha256_hex state_directory default_state_directory rev s = (Ok (Some c), s') →
  gc_scopes c = Some GOOGLE_READONLY_SCOPES ∧ ∃ t, gc_refresh_token c = Some t ∧ t ≠ ""%string.
Proof.
  assert (Yields readonly (load (B := B) canonical_state_root sha256_hex state_directory default_state_directory rev)) as Hy.
  { unfold load, _load_authoritative_file. apply yields_bind. intros [state|]; [|apply legacy_readonly].
    apply yields_bind. intros _. yields.
    1-2: apply yields_ret; intros c' [= <-]; by eapply enveloped_readonly.
    apply yields_ret. intros c' (t & _ & Hc')%bind_Some. by apply (enveloped_readonly _ _ _ _ Hc'). }
  intros Hload. specialize (Hy _ _ _ Hload c eq_refl). revert Hy. unfold require_refreshable_readonly_credentials.
  destruct (gc_refresh_token c) as [[|a t]|]; [done| |done].
  case_bool_decide as Hs; [|done]. intros _. split; [|by eexists].
  destruct (gc_scopes c); cbn in Hs; [by subst|done].
Qed.
End Readonly.
