(* ===== verification/CredentialRegister.v ===== *)
(** The credential store as one register ([Credentials]): what each operation does to the cells it
    uses, the refinement to a register that any number of processes share, what a deletion leaves,
    and the move of the record from before the marker. *)
From Stdlib Require Import Ascii.
From S2P Require Import Prelude Paths Credentials.
#[local] Open Scope Z_scope.

(** ** The cells a store uses *)

(** The entry of this profile, the entry all profiles once shared, the fallback and the marker. *)
Record cells := mk_cells { c_entry : option text; c_global : option text; c_file : option text; c_marker : option text }.
Definition set_entry (x : option text) (c : cells) : cells := mk_cells x (c_global c) (c_file c) (c_marker c).
Definition set_global (x : option text) (c : cells) : cells := mk_cells (c_entry c) x (c_file c) (c_marker c).
Definition set_file (x : option text) (c : cells) : cells := mk_cells (c_entry c) (c_global c) x (c_marker c).
Definition set_marker (x : option text) (c : cells) : cells := mk_cells (c_entry c) (c_global c) (c_file c) x.

(** An update that an error may leave undone. *)
Definition effect {E A} (upd : cells → cells) (r : res E A) (c c' : cells) : Prop :=
  match r with Ok _ => c' = upd c | Err _ => c' = c ∨ c' = upd c end.

Section Cells.
Context {W : Type} {B : Backends W} {BL : BackendLaws} {J : CredentialJson} {JL : JsonLaws}.
Context (canonical_state_root : Path → text) (sha256_hex : text → text).
Context (state_directory default_state_directory : Path).
Abbreviation username := (keyring_username canonical_state_root sha256_hex state_directory).
Abbreviation file_path := (file_path state_directory).
Abbreviation state_path := (state_path state_directory).

Definition cells_of (w : W) : cells :=
  mk_cells (keyring_entry w _KEYRING_SERVICE username) (keyring_entry w _KEYRING_SERVICE _KEYRING_USERNAME)
    (file_text w file_path) (file_text w state_path).

#[local] Arguments cells_of : simpl never.
Lemma username_ne : username ≠ _KEYRING_USERNAME.
Proof.
  unfold keyring_username. intros H%(f_equal String.length). rewrite !text_length_app in H. cbn in H. lia.
Qed.
Lemma paths_ne : file_path ≠ state_path.
Proof. unfold Credentials.file_path, Credentials.state_path, joined. cbn. intros [= H]. apply app_inj_tail in H as [_ H]. discriminate. Qed.
Lemma cells_same w w' : same_keyring w w' → same_files w w' → cells_of w' = cells_of w.
Proof. intros Hk Hf. unfold cells_of. by rewrite !Hk, !Hf. Qed.

Lemma get_cells sv u w r w' :
  get_password sv u w = (r, w') → cells_of w' = cells_of w ∧ (∀ p, r = Ok p → p = keyring_entry w sv u).
Proof. intros (Hk & Hf & Hr)%get_law. split; [by apply cells_same|done]. Qed.

Lemma written_effect {E A} (r : res E A) upd old new after w w' :
  written r old new after →
  (after = new → cells_of w' = upd (cells_of w)) → (after = old → cells_of w' = cells_of w) →
  effect upd r (cells_of w) (cells_of w').
Proof. destruct r; cbn; [auto|]. intros [?|?]; auto. Qed.

Lemma keyring_effect upd sv u p (r : res keyring_error unit) w w' :
  keyring_except sv u w w' → same_files w w' → written r (keyring_entry w sv u) p (keyring_entry w' sv u) →
  sv = _KEYRING_SERVICE →
  (u = username ∧ upd = set_entry p) ∨ (u = _KEYRING_USERNAME ∧ upd = set_global p) →
  effect upd r (cells_of w) (cells_of w').
Proof.
  intros Hk Hf Hw -> Hu. pose proof username_ne as Hne.
  destruct Hu as [[-> ->]|[-> ->]]; apply (written_effect _ _ _ _ _ _ _ Hw); intros Hnew;
    unfold cells_of, set_entry, set_global; cbn; rewrite !Hf, Hnew; [rewrite (Hk _ _KEYRING_USERNAME)..|
      rewrite (Hk _ username)|rewrite (Hk _ username)]; congruence.
Qed.
Lemma set_entry_effect p w r w' :
  set_password _KEYRING_SERVICE username p w = (r, w') → effect (set_entry (Some p)) r (cells_of w) (cells_of w').
Proof. intros (Hk & Hf & Hw)%set_law. eapply keyring_effect; eauto. Qed.
Lemma set_global_effect p w r w' :
  set_password _KEYRING_SERVICE _KEYRING_USERNAME p w = (r, w') → effect (set_global (Some p)) r (cells_of w) (cells_of w').
Proof. intros (Hk & Hf & Hw)%set_law. eapply keyring_effect; eauto. Qed.
Lemma delete_entry_effect w r w' :
  delete_password _KEYRING_SERVICE username w = (r, w') → effect (set_entry None) r (cells_of w) (cells_of w').
Proof. intros (Hk & Hf & Hw)%delete_law. eapply keyring_effect; eauto. Qed.

Lemma file_effect upd q t {E} (r : res E unit) w w' :
  same_keyring w w' → files_except q w w' → written r (file_text w q) t (file_text w' q) →
  (q = file_path ∧ upd = set_file t) ∨ (q = state_path ∧ upd = set_marker t) →
  effect upd r (cells_of w) (cells_of w').
Proof.
  intros Hk Hf Hw Hq. pose proof paths_ne as Hne.
  destruct Hq as [[-> ->]|[-> ->]]; apply (written_effect _ _ _ _ _ _ _ Hw); intros Hnew;
    unfold cells_of, set_file, set_marker; cbn; rewrite !Hk, Hnew; [rewrite (Hf state_path)..|
      rewrite (Hf file_path)|rewrite (Hf file_path)]; congruence.
Qed.

(** *** The operations on the cells *)

Lemma bind_assoc_run {S E A C D} (m : M S E A) (f : A → M S E C) (g : C → M S E D) s :
  (m ≫= λ a, f a ≫= g) s = ((m ≫= f) ≫= g) s.
Proof. unfold mbind, M_bind. by destruct (m s) as [[a|e] s1]. Qed.
Lemma attempt_cases {E A C} (m : M W E A) ok handler s (r : res credential_error C) s' :
  attempt m ok handler s = (r, s') →
  (∃ a w, m s.1 = (Ok a, w) ∧ ok a (w, s.2) = (r, s')) ∨ (∃ e w, m s.1 = (Err e, w) ∧ handler e (w, s.2) = (r, s')).
Proof. unfold attempt. destruct (m s.1) as [[a|e] w]; intros H; [left|right]; eauto. Qed.
Lemma bind_cases {S E A C} (m : M S E A) (f : A → M S E C) s r s' :
  (m ≫= f) s = (r, s') →
  (∃ a s1, m s = (Ok a, s1) ∧ f a s1 = (r, s')) ∨ (∃ e, m s = (Err e, s') ∧ r = Err e).
Proof. unfold mbind, M_bind. destruct (m s) as [[a|e] s1]; [by eauto|]. intros [= <- <-]. eauto. Qed.

Abbreviation cells_at s := (cells_of (fst s)).
Lemma write_private_run upd p t s r s' :
  write_private p t s = (r, s') →
  (p = file_path ∧ upd = set_file (Some t)) ∨ (p = state_path ∧ upd = set_marker (Some t)) →
  s'.2 = s.2 ∧ effect upd r (cells_at s) (cells_at s').
Proof.
  intros [([] & w & Hw & [= <- <-])|(e & w & Hw & [= <- <-])]%attempt_cases Hp; (split; [done|]);
    apply write_law in Hw as (Hk & Hf & Hw); by apply (file_effect upd _ _ _ _ _ Hk Hf Hw).
Qed.
Lemma write_credential_run t s r s' :
  write_credential state_directory t s = (r, s') → s'.2 = s.2 ∧ effect (set_file (Some t)) r (cells_at s) (cells_at s').
Proof. intros H. apply (write_private_run _ _ _ _ _ _ H). by left. Qed.
Lemma write_state_run st s r s' :
  write_state state_directory st s = (r, s') →
  s'.2 = s.2 ∧ effect (set_marker (Some (dump_state st))) r (cells_at s) (cells_at s').
Proof. intros H. apply (write_private_run _ _ _ _ _ _ H). by right. Qed.
(** Whether a read of the marker, or of the fallback, would succeed now, and what [read_state] sees:
    a marker that cannot be read counts as absent. *)
Definition marker_readable (w : W) : bool :=
  match (read_private_text state_path w).1 with Ok _ => true | Err _ => false end.
Definition fallback_readable (w : W) : bool :=
  match (read_private_text file_path w).1 with Ok _ => true | Err _ => false end.
Definition seen (w : W) : option CredentialState :=
  match (read_private_text state_path w).1 with Ok t => t ≫= validate_state | Err _ => None end.
Definition marker (c : cells) : option CredentialState := c_marker c ≫= validate_state.

Lemma read_credential_run s :
  ∃ s', read_credential state_directory s =
      (Ok (if fallback_readable s.1 then c_file (cells_at s) else None), s') ∧
    s'.2 = s.2 ∧ cells_at s' = cells_at s.
Proof.
  unfold read_credential, attempt, fallback_readable.
  destruct (read_private_text file_path s.1) as [r w] eqn:Hread. apply read_law in Hread as (Hk & Hf & Ht).
  exists (w, s.2). cbn [fst].
  destruct r as [t|e]; (split; [|split; [done|by apply cells_same]]); [by rewrite (Ht t)|done].
Qed.
Lemma read_state_run s :
  ∃ s', read_state state_directory s = (Ok (seen s.1), s') ∧ s' = ((read_private_text state_path s.1).2, s.2) ∧
    cells_at s' = cells_at s.
Proof.
  unfold read_state, mbind, M_bind, attempt, seen.
  destruct (read_private_text state_path s.1) as [r w] eqn:Hread. apply read_law in Hread as (Hk & Hf & Ht).
  exists (w, s.2). destruct r as [t|e]; (split; [done|split; [done|by apply cells_same]]).
Qed.
Lemma seen_readable w : marker_readable w = true → seen w = marker (cells_of w).
Proof.
  unfold marker_readable, seen, marker. destruct (read_private_text state_path w) as [[t|e] w'] eqn:Hread; [|done].
  intros _. apply read_law in Hread as (_ & _ & Ht). by rewrite (Ht t).
Qed.
Lemma seen_unreadable w : marker_readable w = false → seen w = None.
Proof. unfold marker_readable, seen. by destruct (read_private_text state_path w) as [[t|e] w']. Qed.
Lemma delete_fallback_run s r s' :
  delete_fallback state_directory s = (r, s') →
  s'.2 = s.2 ∧ (cells_at s' = cells_at s ∨ cells_at s' = set_file None (cells_at s)) ∧ (r = Ok tt → c_file (cells_at s') = None).
Proof.
  unfold delete_fallback.
  intros [([] & w & Hw & [= <- <-])|(e & w & Hw & He)]%attempt_cases;
    apply delete_file_law in Hw as (Hk & Hf & Hw & Hun);
    assert (effect (set_file None) _ (cells_at s) (cells_of w)) as Heff
      by (apply (file_effect _ _ _ _ _ _ Hk Hf Hw); by left).
  - cbn in Heff |- *. rewrite Heff. auto.
  - cbn in Heff. destruct e; injection He as <- <-; cbn [fst snd]; (split; [done|]); (split; [exact Heff|]); try done.
    intros _. specialize (Hun eq_refl). destruct Heff as [->| ->]; [|done]. exact Hun.
Qed.

(** ** The register a store implements

    [view]: the credential the marker stands for.  [None]: there is no marker, so the record is one
    from before it, if any. *)
Definition held (st : CredentialState) (c : cells) : option GoogleCredential :=
  if cs_tombstone st || bool_decide (cs_backend st = BackendDeleted) then None else
  t ← (if bool_decide (cs_backend st = BackendFile) then c_file c else c_entry c);
  parse_enveloped_credentials t (cs_epoch st) (cs_revision st).
Definition view (c : cells) : option (option GoogleCredential) := (λ st, held st c) <$> marker c.

Definition next_epoch (st : option CredentialState) : Z := match st with None => 1 | Some s => cs_epoch s + 1 end.
Lemma next_epoch_ok c rev : String.length rev = 64%nat → version_ok (next_epoch (marker c)) rev = true.
Proof.
  intros Hrev. unfold version_ok, marker. rewrite Hrev. destruct (c_marker c ≫= validate_state) as [st|] eqn:Hst; cbn; [|done].
  apply bind_Some in Hst as (t & _ & Hst%state_valid). unfold version_ok in Hst. lia.
Qed.

Lemma seen_epoch_ok w rev : String.length rev = 64%nat → version_ok (next_epoch (seen w)) rev = true.
Proof.
  intros Hrev. destruct (marker_readable w) eqn:Hw.
  - rewrite (seen_readable _ Hw). by apply next_epoch_ok.
  - rewrite (seen_unreadable _ Hw). unfold version_ok. cbn. by rewrite Hrev.
Qed.

Lemma parse_own e r j : version_ok e r = true →
  parse_enveloped_credentials (dump_envelope (mk_envelope e r j)) e r = parse_credentials j.
Proof.
  intros Hv. unfold parse_enveloped_credentials, parse_envelope. rewrite envelope_roundtrip by done. cbn.
  by rewrite Z.eqb_refl, bool_decide_eq_true_2.
Qed.
Lemma parse_other e r j e' r' : version_ok e r = true → e ≠ e' →
  parse_enveloped_credentials (dump_envelope (mk_envelope e r j)) e' r' = None.
Proof.
  intros Hv Hne. unfold parse_enveloped_credentials, parse_envelope. rewrite envelope_roundtrip by done. cbn.
  by rewrite (proj2 (Z.eqb_neq e e')).
Qed.
Lemma next_epoch_ne c st : marker c = Some st → next_epoch (marker c) ≠ cs_epoch st.
Proof. intros ->. cbn. lia. Qed.

(** A backend that is overwritten under the marker of another version holds nothing. *)
Lemma view_set_entry c rev j : String.length rev = 64%nat →
  let c' := set_entry (Some (dump_envelope (mk_envelope (next_epoch (marker c)) rev j))) c in
  view c' = view c ∨ view c' = Some None.
Proof.
  intros Hrev c'. subst c'. unfold view. change (marker (set_entry _ c)) with (marker c).
  destruct (marker c) as [st|] eqn:Hst; cbn; [|by left]. unfold held. cbn.
  destruct (_ || _); [by left|]. case_bool_decide; [by left|]. right. cbn.
  pose proof (next_epoch_ok c rev Hrev) as Hv. pose proof (next_epoch_ne c st Hst) as Hne. rewrite Hst in Hv, Hne.
  by rewrite parse_other.
Qed.
Lemma view_set_file c rev j : String.length rev = 64%nat →
  let c' := set_file (Some (dump_envelope (mk_envelope (next_epoch (marker c)) rev j))) c in
  view c' = view c ∨ view c' = Some None.
Proof.
  intros Hrev c'. subst c'. unfold view. change (marker (set_file _ c)) with (marker c).
  destruct (marker c) as [st|] eqn:Hst; cbn; [|by left]. unfold held. cbn.
  destruct (_ || _); [by left|]. case_bool_decide; [|by left]. right. cbn.
  pose proof (next_epoch_ok c rev Hrev) as Hv. pose proof (next_epoch_ne c st Hst) as Hne. rewrite Hst in Hv, Hne.
  by rewrite parse_other.
Qed.
(** A marker written over its own envelope makes it the credential. *)
Lemma view_set_marker c e r b t : version_ok e r = true →
  view (set_marker (Some (dump_state (mk_state e r b t))) c) = Some (held (mk_state e r b t) c).
Proof. intros Hv. unfold view, marker. cbn. by rewrite state_roundtrip. Qed.
Lemma held_keyring e r t c : c_entry c = Some t →
  held (mk_state e r BackendKeyring false) c = parse_enveloped_credentials t e r.
Proof. intros Hc. unfold held. cbn. by rewrite Hc. Qed.
Lemma held_file e r j c : version_ok e r = true → c_file c = Some (dump_envelope (mk_envelope e r j)) →
  held (mk_state e r BackendFile false) c = parse_credentials j.
Proof. intros Hv Hc. unfold held. cbn. rewrite Hc. cbn. by apply parse_own. Qed.
(** The fallback of a keyring credential is no part of it. *)
Lemma view_keyring_file c e r b x : version_ok e r = true → b ≠ BackendFile →
  view (set_file x (set_marker (Some (dump_state (mk_state e r b false))) c)) =
  view (set_marker (Some (dump_state (mk_state e r b false))) c).
Proof.
  intros Hv Hb. unfold view, marker. cbn. rewrite state_roundtrip by done. cbn. unfold held. cbn.
  by rewrite (bool_decide_eq_false_2 (b = BackendFile)).
Qed.

(** What a call may leave in the register: the old value, nothing, or the new one; the new one if
    it returned. *)
Definition settles {A} (r : res credential_error A) (new : option GoogleCredential) (c c' : cells) : Prop :=
  match r with
  | Ok _ => view c' = Some new
  | Err _ => view c' = view c ∨ view c' = Some None ∨ view c' = Some new
  end.

Abbreviation save := (save (B := B) canonical_state_root sha256_hex state_directory).
(** Once the entry is written, the marker makes it authoritative and the fallback goes. *)
Lemma claim_keyring e rev t s r s' : version_ok e rev = true → c_entry (cells_at s) = Some t →
  (write_state state_directory (mk_state e rev BackendKeyring false);; delete_fallback state_directory) s = (r, s') →
  s'.2 = s.2 ∧
  match r with
  | Ok _ => view (cells_at s') = Some (parse_enveloped_credentials t e rev) ∧ c_file (cells_at s') = None
  | Err _ => view (cells_at s') = view (cells_at s) ∨
             view (cells_at s') = Some (parse_enveloped_credentials t e rev)
  end.
Proof.
  intros Hv He [([] & s1 & [Hl1 H1]%write_state_run & H)|(x & [Hl1 Hx]%write_state_run & ->)]%bind_cases.
  - cbn in H1. assert (view (cells_at s1) = Some (parse_enveloped_credentials t e rev)) as Hs1
      by (rewrite H1, view_set_marker by done; by rewrite (held_keyring _ _ t)).
    apply delete_fallback_run in H as (Hl & H2 & Hfile). split; [congruence|].
    assert (view (cells_at s') = Some (parse_enveloped_credentials t e rev)) as Hview.
    { destruct H2 as [->| ->]; [exact Hs1|]. rewrite H1 in Hs1 |- *. by rewrite view_keyring_file. }
    destruct r as [[]|x]; [split; [exact Hview|by apply Hfile]|by right].
  - split; [done|]. cbn in Hx. destruct Hx as [Hx|Hx]; rewrite Hx; [by left|right].
    rewrite view_set_marker by done. by rewrite (held_keyring _ _ t).
Qed.

Lemma save_keyring e rev t s r s' : version_ok e rev = true → c_entry (cells_at s) = Some t →
  (write_state state_directory (mk_state e rev BackendKeyring false);;
   delete_fallback state_directory;; _set_loaded_version (e, rev)) s = (r, s') →
  (r = Ok tt → s'.2 = Some (e, rev)) ∧
  match r with
  | Ok _ => view (cells_at s') = Some (parse_enveloped_credentials t e rev)
  | Err _ => view (cells_at s') = view (cells_at s) ∨
             view (cells_at s') = Some (parse_enveloped_credentials t e rev)
  end.
Proof.
  intros Hv He H. rewrite bind_assoc_run in H. apply bind_cases in H as [([] & s1 & H1 & [= <- <-])|(x & H1 & ->)];
    apply (claim_keyring _ _ t) in H1 as [Hl H1]; try done; by split; [|apply H1].
Qed.
(** A save that returns has stored the credential; one that fails, having read the marker, has
    left the old value, nothing or the new one. *)
Lemma save_run rev cr s r s' : String.length rev = 64%nat → save rev cr s = (r, s') →
  (r = Ok tt ∨ marker_readable s.1 = true →
   settles r (parse_credentials (gc_to_json cr)) (cells_at s) (cells_at s')) ∧
  (r = Ok tt → s'.2 = Some (next_epoch (seen s.1), rev)).
Proof.
  intros Hrev. unfold Credentials.save.
  intros [([] & s0 & H0 & H)|(e & [= H0 <-] & ->)]%bind_cases; [|split; [by left|done]].
  assert (s0 = s) as -> by (by injection H0). clear H0.
  destruct (read_state_run s) as (s1 & Hread & -> & Hc). rewrite (bind_run _ _ _ _ _ Hread) in H.
  set (s1 := (_, s.2)) in *. clear Hread.
  pose proof (seen_epoch_ok s.1 rev Hrev) as Hv.
  fold (next_epoch (seen s.1)) in H. set (epoch := next_epoch (seen s.1)) in *.
  assert (∀ c, marker_readable s.1 = true → marker c = marker (cells_at s) → epoch = next_epoch (marker c)) as Hepoch
    by (intros c Hr Hm; unfold epoch; by rewrite (seen_readable _ Hr), Hm).
  assert (∀ c, marker_readable s.1 = true → marker c = marker (cells_at s) →
    (let c' := set_entry (Some (dump_envelope (mk_envelope epoch rev (gc_to_json cr)))) c in view c' = view c ∨ view c' = Some None) ∧
    (let c' := set_file (Some (dump_envelope (mk_envelope epoch rev (gc_to_json cr)))) c in view c' = view c ∨ view c' = Some None)) as Hover
    by (intros c Hr Hm; rewrite (Hepoch c Hr Hm); split; [by apply view_set_entry|by apply view_set_file]).
  clearbody epoch. rewrite <- Hc in Hover |- *. apply attempt_cases in H as [([] & w & Hset & H)|(e & w & Hset & H)];
    apply set_entry_effect in Hset; cbn in Hset.
  - assert (parse_enveloped_credentials (dump_envelope (mk_envelope epoch rev (gc_to_json cr))) epoch rev =
      parse_credentials (gc_to_json cr)) as Hown by (by apply parse_own).
    eapply save_keyring in H as [Hl2 H]; [|done|by cbn; rewrite Hset]. rewrite Hown in H.
    destruct r as [[]|x]; [by split|]. split; [|done]. intros [Hx|Hr]; [discriminate|].
    cbn. destruct H as [H|H]; [|by auto]. cbn in H. rewrite Hset in H. rewrite H.
    destruct (proj1 (Hover (cells_at s1) Hr eq_refl)) as [Hs|Hs]; cbn in Hs |- *; auto.
  - assert (marker_readable s.1 = true → view (cells_of w) = view (cells_at s1) ∨ view (cells_of w) = Some None) as Hview.
    { intros Hr. destruct Hset as [->| ->]; [by left|]. by apply Hover. }
    destruct (no_keyring e); [|injection H as <- <-; split; [|done]; intros [Hx|Hr]; [discriminate|];
      destruct (Hview Hr); cbn; auto].
    assert (marker (cells_of w) = marker (cells_at s1)) as Hm by (by destruct Hset as [->| ->]).
    assert (marker_readable s.1 = true →
      view (set_file (Some (dump_envelope (mk_envelope epoch rev (gc_to_json cr)))) (cells_of w)) = view (cells_at s1) ∨
      view (set_file (Some (dump_envelope (mk_envelope epoch rev (gc_to_json cr)))) (cells_of w)) = Some None) as Hfile.
    { intros Hr. destruct (proj2 (Hover (cells_of w) Hr Hm)) as [Hf|Hf]; rewrite Hf; [by apply Hview|by right]. }
    apply bind_cases in H as [([] & s2 & [Hl2 H2]%write_credential_run & H)|(x & [_ H2]%write_credential_run & ->)]; cbn in H2.
    + apply bind_cases in H as [([] & s3 & [Hl3 H3]%write_state_run & [= <- <-])|(x & [_ H3]%write_state_run & ->)]; cbn in H3.
      * split; [|done]. intros _. cbn. rewrite H3, view_set_marker by done. by rewrite (held_file _ _ (gc_to_json cr)) by (done || by rewrite H2).
      * split; [|done]. intros [Hx|Hr]; [discriminate|]. cbn. destruct H3 as [H3|H3]; rewrite H3.
        -- rewrite H2. destruct (Hfile Hr); auto.
        -- rewrite view_set_marker by done. rewrite (held_file _ _ (gc_to_json cr)) by (done || by rewrite H2). auto.
    + split; [|done]. intros [Hx|Hr]; [discriminate|]. cbn.
      destruct H2 as [H2|H2]; rewrite H2; [destruct (Hview Hr); auto|destruct (Hfile Hr); auto].
Qed.

Abbreviation load := (load (B := B) canonical_state_root sha256_hex state_directory default_state_directory).
(** A deleted credential stays deleted whatever else changes. *)
Definition deleted (st : CredentialState) : bool := cs_tombstone st || bool_decide (cs_backend st = BackendDeleted).
Lemma view_deleted c c' st : marker c = Some st → deleted st = true → c_marker c' = c_marker c → view c' = Some None.
Proof. intros Hc Hd Hm. unfold view, marker. rewrite Hm. unfold marker in Hc. rewrite Hc. cbn. unfold held. by fold (deleted st); rewrite Hd. Qed.

Lemma purge_run s r s' :
  purge_tombstoned canonical_state_root sha256_hex state_directory s = (r, s') →
  c_marker (cells_at s') = c_marker (cells_at s).
Proof.
  intros [([] & s1 & (_ & H1 & _)%delete_fallback_run & H)|(e & (_ & H1 & _)%delete_fallback_run & ->)]%bind_cases.
  - assert (c_marker (cells_at s1) = c_marker (cells_at s)) as <- by (by destruct H1 as [->| ->]).
    apply attempt_cases in H as [([] & w & Hd%delete_entry_effect & [= <- <-])|(e & w & Hd%delete_entry_effect & H)]; cbn in Hd.
    + cbn. by rewrite Hd.
    + assert (s' = (w, s1.2)) as -> by (destruct e; by injection H). cbn. by destruct Hd as [->| ->].
  - by destruct H1 as [->| ->].
Qed.

Lemma view_held c st : marker c = Some st → view c = Some (held st c).
Proof. intros H. unfold view. by rewrite H. Qed.
Lemma marker_valid c st : marker c = Some st → version_ok (cs_epoch st) (cs_revision st) = true.
Proof. unfold marker. by intros (t & _ & H%state_valid)%bind_Some. Qed.

Lemma authoritative_file_run st s r s' :
  marker (cells_at s) = Some st → deleted st = false → cs_backend st = BackendFile →
  _load_authoritative_file (B := B) canonical_state_root sha256_hex state_directory st s = (r, s') →
  view (cells_at s') = view (cells_at s) ∧
  ∀ o, r = Ok o → view (cells_at s) = Some o ∨ (o = None ∧ fallback_readable s.1 = false).
Proof.
  intros Hm Hd Hb. destruct (read_credential_run s) as (s1 & Hread & Hl & Hc). unfold _load_authoritative_file.
  rewrite (bind_run _ _ _ _ _ Hread). clear Hread.
  destruct (fallback_readable s.1); [|intros [= <- <-]; rewrite Hc; split; [done|]; intros o [= <-]; by right].
  pose proof (view_held _ _ Hm) as Hview. unfold held in Hview.
  fold (deleted st) in Hview. rewrite Hd, bool_decide_eq_true_2 in Hview by done.
  destruct (c_file (cells_at s)) as [t|] eqn:Hfile; cbn in Hview.
  2: { intros [= <- <-]. rewrite Hc, Hview. split; [done|]. intros o [= <-]. by left. }
  destruct (parse_enveloped_credentials t _ _) as [c|] eqn:Hp.
  2: { intros [= <- <-]. rewrite Hc, Hview. split; [done|]. intros o [= <-]. by left. }
  rewrite Hview. intros [([] & w & Hset%set_entry_effect & H)|(e & w & Hset%set_entry_effect & H)]%attempt_cases;
    cbn in Hset; rewrite Hc in Hset.
  - rewrite bind_assoc_run in H. assert (view (cells_of w) = Some (Some c)) as Hw.
    { rewrite Hset, (view_held _ st) by done. unfold held. fold (deleted st). rewrite Hd, bool_decide_eq_true_2 by done.
      cbn. rewrite Hfile. cbn. by rewrite Hp. }
    apply bind_cases in H as [([] & s2 & H & [= <- <-])|(x & H & ->)];
      eapply claim_keyring in H as [_ H]; try (by apply (marker_valid _ _ Hm)); try (cbn; by rewrite Hset);
      rewrite Hp in H; cbn in H.
    + split; [apply H|]. intros o [= <-]. by left.
    + split; [|done]. rewrite Hw in H. by destruct H.
  - assert (view (cells_of w) = Some (Some c)) as Hw.
    { destruct Hset as [->| ->]; [done|]. rewrite (view_held _ st) by done. unfold held. fold (deleted st).
      rewrite Hd, bool_decide_eq_true_2 by done. cbn. rewrite Hfile. cbn. by rewrite Hp. }
    destruct (no_keyring e); injection H as <- <-; (split; [done|]); [intros o [= <-]; by left|done].
Qed.

(** Whether a call that has read the marker could read the fallback next. *)
Definition fallback_read (w : W) : bool := fallback_readable (read_private_text state_path w).2.

(** A load that reads the marker returns the register, or nothing when the fallback that holds it
    cannot be read, and changes nothing of it. *)
Lemma load_run rev s r s' :
  marker_readable s.1 = true → is_Some (marker (cells_at s)) → load rev s = (r, s') →
  view (cells_at s') = view (cells_at s) ∧
  ∀ o, r = Ok o → view (cells_at s) = Some o ∨ (o = None ∧ fallback_read s.1 = false).
Proof.
  intros Hr [st Hst]. destruct (read_state_run s) as (s1 & Hread & Hs1 & Hc). unfold Credentials.load.
  rewrite (bind_run _ _ _ _ _ Hread), (seen_readable _ Hr), Hst. unfold _set_loaded_version. rewrite modify_bind.
  set (s2 := (s1.1, _)). assert (cells_at s2 = cells_at s) as H2 by exact Hc. fold (deleted st).
  assert (fallback_readable s2.1 = fallback_read s.1) as Hfb by (unfold s2; by rewrite Hs1).
  rewrite <- H2 in Hst |- *. rewrite <- Hfb. clearbody s2. clear s1 Hread Hs1 Hc Hfb. pose proof (view_held _ _ Hst) as Hview.
  unfold held in Hview. fold (deleted st) in Hview. destruct (deleted st) eqn:Hdel.
  - rewrite Hview. intros [([] & s3 & H3%purge_run & [= <- <-])|(x & H3%purge_run & ->)]%bind_cases.
    + split; [by apply (view_deleted _ _ st Hst)|]. intros o [= <-]. by left.
    + split; [by apply (view_deleted _ _ st Hst)|done].
  - case_bool_decide as Hb; [by apply authoritative_file_run|]. rewrite Hview.
    intros [(t & w & [Hc Ht]%get_cells & [= <- <-])|(e & w & [Hc _]%get_cells & [= <- <-])]%attempt_cases; cbn; rewrite Hc, Hview.
    + split; [done|]. intros o [= <-]. left. by rewrite (Ht _ eq_refl).
    + done.
Qed.

Abbreviation delete := (delete (B := B) canonical_state_root sha256_hex state_directory).
(** A store that loaded another version than the marker's leaves a deletion to those that know it. *)
Definition stale (version : loaded) (marker : option CredentialState) : bool :=
  match version, marker with
  | Some v, Some st => negb (bool_decide ((cs_epoch st, cs_revision st) = v))
  | _, _ => false
  end.

(** What follows a tombstone. *)
Lemma tombstone_run e rev s r s' : version_ok e rev = true →
  c_marker (cells_at s) = Some (dump_state (mk_state e rev BackendDeleted true)) →
  attempt (delete_password _KEYRING_SERVICE username) (λ _, delete_fallback state_directory)
    (λ e, match e with
          | OtherKeyringError => raise CredentialStorageError
          | _ => delete_fallback state_directory;; raise CredentialStorageError
          end) s = (r, s') →
  view (cells_at s') = Some None ∧ s'.2 = s.2 ∧
  (r = Ok tt → c_entry (cells_at s') = None ∧ c_file (cells_at s') = None).
Proof.
  intros Hv Hm. assert (∀ c, c_marker c = c_marker (cells_at s) → view c = Some None) as Hview.
  { intros c Hc. unfold view, marker. rewrite Hc, Hm. cbn. by rewrite state_roundtrip. }
  intros [([] & w & Hd%delete_entry_effect & H)|(x & w & Hd%delete_entry_effect & H)]%attempt_cases; cbn in Hd.
  - apply delete_fallback_run in H as (Hl & H & Hf). split_and!; [|done|].
    + apply Hview. destruct H as [->| ->]; cbn; by rewrite Hd.
    + intros Hr. split; [|by apply Hf]. destruct H as [->| ->]; cbn; by rewrite Hd.
  - assert (∃ c, r = Err c ∧ s'.2 = s.2 ∧ c_marker (cells_at s') = c_marker (cells_of w)) as (c & -> & Hl & Hc).
    { destruct x; try (injection H as <- <-; by eexists);
        apply bind_cases in H as [([] & s1 & (Hl & H1 & _)%delete_fallback_run & [= <- <-])|(c & (Hl & H1 & _)%delete_fallback_run & ->)];
        eexists; (split_and!; [done|exact Hl|]); by destruct H1 as [->| ->]. }
    split_and!; [|done|done]. apply Hview. rewrite Hc. by destruct Hd as [->| ->].
Qed.

Lemma delete_run rev s r s' : String.length rev = 64%nat → delete rev s = (r, s') →
  if stale s.2 (seen s.1) then r = Ok tt ∧ cells_at s' = cells_at s
  else match r with
       | Ok _ => view (cells_at s') = Some None ∧ c_entry (cells_at s') = None ∧ c_file (cells_at s') = None
       | Err _ => view (cells_at s') = view (cells_at s) ∨ view (cells_at s') = Some None
       end.
Proof.
  intros Hrev. destruct (read_state_run s) as (s1 & Hread & -> & Hc). unfold Credentials.delete.
  set (s1 := (_, s.2)) in *. rewrite (bind_run _ _ _ _ _ Hread), gets_bind.
  change (snd s1) with (s.2). fold (stale s.2 (seen s.1)).
  destruct (stale s.2 (seen s.1)); [by intros [= <- <-]|].
  fold (next_epoch (seen s.1)). pose proof (seen_epoch_ok s.1 rev Hrev) as Hv.
  intros [([] & s2 & [_ H2]%write_state_run & H)|(x & [_ H2]%write_state_run & ->)]%bind_cases; cbn in H2.
  - unfold _set_loaded_version in H. rewrite modify_bind in H.
    apply (tombstone_run _ _ _ _ _ Hv) in H as (Hview & _ & Hgone); [|cbn; by rewrite H2].
    destruct r as [[]|x]; [|by right]. split; [done|by apply Hgone].
  - destruct H2 as [->| ->]; [left; unfold s1; by rewrite <- Hc|right]. rewrite view_set_marker by done. done.
Qed.

(** *** A directory without a credential *)

(** The register is empty and neither backend holds a record. *)
Definition disconnected (c : cells) : Prop := view c = Some None ∧ c_entry c = None ∧ c_file c = None.
(** The profile may not adopt a record from the shared entry: it is not the default one, or there
    is no valid record. *)
Definition nothing_to_adopt (c : cells) : Prop :=
  _is_default canonical_state_root state_directory default_state_directory = false ∨
  ∀ t, c_global c = Some t → t = _LEGACY_MIGRATED_MARKER ∨ parse_credentials t = None.

Lemma set_entry_none c : c_entry c = None → set_entry None c = c.
Proof. destruct c. cbn. by intros ->. Qed.
Lemma set_file_none c : c_file c = None → set_file None c = c.
Proof. destruct c. cbn. by intros ->. Qed.

Lemma purge_nothing s r s' : c_entry (cells_at s) = None → c_file (cells_at s) = None →
  purge_tombstoned canonical_state_root sha256_hex state_directory s = (r, s') → cells_at s' = cells_at s.
Proof.
  intros He Hf. assert (∀ r1 s1, delete_fallback state_directory s = (r1, s1) → cells_at s1 = cells_at s) as Hdel.
  { intros r1 s1 (_ & H & _)%delete_fallback_run. destruct H as [->| ->]; [done|by apply set_file_none]. }
  intros [([] & s1 & H1%Hdel & H)|(e & H1%Hdel & ->)]%bind_cases; [|done]. rewrite <- H1 in He.
  assert (∀ r2 w, delete_password _KEYRING_SERVICE username s1.1 = (r2, w) → cells_of w = cells_at s1) as Hkey.
  { intros r2 w Hd%delete_entry_effect. destruct r2 as [[]|x]; cbn in Hd; [|destruct Hd as [->| ->]; [done|]];
      rewrite ?Hd; by apply set_entry_none. }
  apply attempt_cases in H as [([] & w & Hw%Hkey & [= <- <-])|(e & w & Hw%Hkey & H)]; [cbn; congruence|].
  assert (s' = (w, s1.2)) as -> by (destruct e; by injection H). cbn. congruence.
Qed.
Lemma fallback_nothing rev b g s r s' : c_file (cells_at s) = None →
  (text ← read_credential state_directory;
   _adopt (B := B) canonical_state_root sha256_hex state_directory rev text b g) s = (r, s') →
  r = Ok None ∧ cells_at s' = cells_at s.
Proof.
  intros Hf. destruct (read_credential_run s) as (s1 & Hread & _ & Hc).
  rewrite (bind_run _ _ _ _ _ Hread), Hf. destruct (fallback_readable s.1); by intros [= <- <-].
Qed.

(** A load there finds nothing and leaves all cells alone; without its marker it may look for a
    record to adopt. *)
Lemma load_disconnected rev s r s' :
  disconnected (cells_at s) → marker_readable s.1 = true ∨ nothing_to_adopt (cells_at s) →
  load rev s = (r, s') → cells_at s' = cells_at s ∧ ∀ o, r = Ok o → o = None.
Proof.
  intros (Hview & He & Hf) Hr. destruct (read_state_run s) as (s1 & Hread & _ & Hc). unfold Credentials.load.
  rewrite (bind_run _ _ _ _ _ Hread). clear Hread.
  assert (nothing_to_adopt (cells_at s) ∨ is_Some (seen s.1)) as Hseen.
  { destruct Hr as [Hr|Hr]; [right|by left]. rewrite (seen_readable _ Hr). unfold view in Hview.
    destruct (marker (cells_at s)); [done|discriminate]. }
  clear Hr Hview. rewrite <- Hc in He, Hf, Hseen |- *. generalize dependent (seen s.1). clear Hc. intros [st|] Hseen.
  - unfold _set_loaded_version. rewrite modify_bind. set (s2 := (s1.1, _)).
    assert (cells_at s1 = cells_at s2) as Hs2 by done. rewrite Hs2 in *. clearbody s2. clear Hs2 s1 Hseen.
    fold (deleted st). destruct (deleted st).
    { intros [([] & s3 & H3%purge_nothing & [= <- <-])|(x & H3%purge_nothing & ->)]%bind_cases; try done.
      split; [done|]. by intros o [= <-]. }
    destruct (bool_decide _).
    + unfold _load_authoritative_file. destruct (read_credential_run s2) as (s3 & Hread & _ & Hc).
      rewrite (bind_run _ _ _ _ _ Hread), Hf. destruct (fallback_readable s2.1); intros [= <- <-];
        (split; [done|]); by intros o [= <-].
    + intros [(t & w & [Hc Ht]%get_cells & [= <- <-])|(e & w & [Hc _]%get_cells & [= <- <-])]%attempt_cases; [|done].
      split; [done|]. specialize (Ht _ eq_refl). change (keyring_entry s2.1 _ _) with (c_entry (cells_at s2)) in Ht.
      rewrite He in Ht. subst t. by intros o [= <-].
  - destruct Hseen as [Hun|[? [=]]]. unfold load_legacy.
    intros [(o & w & [Hc Ho]%get_cells & H)|(e & w & [Hc _]%get_cells & H)]%attempt_cases.
    2: { destruct (no_keyring e); [|by injection H as <- <-].
         apply fallback_nothing in H as [-> H]; [|cbn; by rewrite Hc]. cbn in H. rewrite H.
         split; [done|]. by intros o [= <-]. }
    specialize (Ho _ eq_refl). change (keyring_entry s1.1 _ _) with (c_entry (cells_at s1)) in Ho.
    rewrite He in Ho. subst o.
    assert (∀ sx, cells_at sx = cells_at s1 → (text ← read_credential state_directory;
      _adopt (B := B) canonical_state_root sha256_hex state_directory rev text BackendFile false) sx = (r, s') →
      cells_at s' = cells_at s1 ∧ ∀ o, r = Ok o → o = None) as Hnext.
    { intros sx Hsx Hrun. apply fallback_nothing in Hrun as [-> Hrun]; [|by rewrite Hsx]. rewrite Hrun.
      split; [done|]. by intros o [= <-]. }
    destruct Hun as [Hdef|Hglobal].
    { rewrite Hdef, mret_bind in H. by apply (Hnext (w, s1.2)). }
    destruct (_is_default _ _ _); [|rewrite mret_bind in H; by apply (Hnext (w, s1.2))].
    apply bind_cases in H as [(o & s2 & H2 & H)|(x & H2 & ->)];
      apply attempt_cases in H2 as [(g & w2 & [Hc2 Hg2]%get_cells & H2)|(e2 & w2 & [Hc2 _]%get_cells & H2)].
    all: cycle 1.
    + by injection H2.
    + specialize (Hg2 _ eq_refl). change (keyring_entry _ _ _) with (c_global (cells_at (w, s1.2))) in Hg2.
      cbn [fst] in Hg2. rewrite Hc in Hg2. destruct g as [t|]; [|done].
      destruct (Hglobal t (eq_sym Hg2)) as [Ht|Ht]; [by rewrite bool_decide_eq_true_2 in H2|].
      destruct (bool_decide _); [done|]. by rewrite Ht in H2.
    + injection H2 as _ <-. cbn [fst] in Hc2 |- *. split; [congruence|done].
    + specialize (Hg2 _ eq_refl). change (keyring_entry _ _ _) with (c_global (cells_at (w, s1.2))) in Hg2.
      cbn [fst] in Hg2, Hc2. rewrite Hc in Hg2.
      assert ((o = None ∨ o = Some None) ∧ s2 = (w2, s1.2)) as [Ho ->].
      { destruct g as [t|]; [|injection H2 as <- <-; auto].
        destruct (Hglobal t (eq_sym Hg2)) as [Ht|Ht]; [rewrite bool_decide_eq_true_2 in H2 by done; injection H2 as <- <-; auto|].
        destruct (bool_decide _); [injection H2 as <- <-; auto|]. rewrite Ht in H2. injection H2 as <- <-. auto. }
      destruct Ho as [->| ->]; [apply (Hnext (w2, s1.2)); [cbn; congruence|done]|].
      injection H as <- <-. cbn. split; [congruence|]. by intros o [= <-].
Qed.

(** *** The specification *)

Inductive credential_call :=
  | Save (revision : text) (credentials : GoogleCredential)
  | Load (revision : text)
  | Delete (revision : text).
Definition call_revision (c : credential_call) : text :=
  match c with Save r _ | Load r | Delete r => r end.
(** A call of a store that has loaded [version]; its answer, if it has one. *)
Definition run_credential_call (c : credential_call) (version : loaded) (w : W)
    : res credential_error (option GoogleCredential) * (W * loaded) :=
  match c with
  | Save rev cr => (save rev cr;; mret None) (w, version)
  | Load rev => load rev (w, version)
  | Delete rev => (delete rev;; mret None) (w, version)
  end.

(** What a call met: whether its reads of the marker and of the fallback succeed, and whether its
    store has loaded another version than the marker's. *)
Record met := mk_met { met_marker : bool; met_fallback : bool; met_stale : bool }.
Definition meets (version : loaded) (w : W) : met :=
  mk_met (marker_readable w) (fallback_read w) (stale version (marker (cells_of w))).

(** One register: a load reads it, or answers nothing when it cannot read the fallback; a save sets
    it; a deletion clears it, or leaves it when its store has loaded another version.  A load or a
    deletion that fails has done nothing or, the deletion, all of it; a save that fails has done
    nothing, all of it, or has cleared the register, its envelope having replaced the one that the
    marker names. *)
Inductive register_step (v : option GoogleCredential) : credential_call → met →
    res credential_error (option GoogleCredential) → option GoogleCredential → Prop :=
  | step_load rev m : register_step v (Load rev) m (Ok v) v
  | step_load_unread rev m : met_fallback m = false → register_step v (Load rev) m (Ok None) v
  | step_load_error rev m e : register_step v (Load rev) m (Err e) v
  | step_save rev cr m o : register_step v (Save rev cr) m (Ok o) (parse_credentials (gc_to_json cr))
  | step_save_error rev cr m e v' :
      v' = v ∨ v' = None ∨ v' = parse_credentials (gc_to_json cr) → register_step v (Save rev cr) m (Err e) v'
  | step_delete rev m o : met_stale m = false → register_step v (Delete rev) m (Ok o) None
  | step_delete_stale rev m o : met_stale m = true → register_step v (Delete rev) m (Ok o) v
  | step_delete_error rev m e v' :
      met_stale m = false → v' = v ∨ v' = None → register_step v (Delete rev) m (Err e) v'.

Lemma call_refines c version w v r s' :
  String.length (call_revision c) = 64%nat → marker_readable w = true → view (cells_of w) = Some v →
  run_credential_call c version w = (r, s') →
  ∃ v', view (cells_at s') = Some v' ∧ register_step v c (meets version w) r v'.
Proof.
  intros Hrev Hr Hview. destruct c as [rev cr|rev|rev]; cbn in Hrev |- *.
  - intros [([] & s1 & [H _]%save_run & [= <- <-])|(e & [H _]%save_run & ->)]%bind_cases; try done;
      specialize (H (or_intror Hr)); cbn in H.
    + eexists. split; [exact H|constructor].
    + rewrite Hview in H. destruct H as [H|[H|H]]; eexists; (split; [exact H|]); constructor; auto.
  - intros H. apply load_run in H as [H Ho]; [|done|].
    2: { cbn. unfold view in Hview. destruct (marker (cells_of w)); [done|discriminate]. }
    cbn in H, Ho. rewrite Hview in H, Ho. exists v. split; [done|].
    destruct r as [o|e]; [|constructor]. destruct (Ho o eq_refl) as [[= <-]|[-> Hf]]; by constructor.
  - intros [([] & s1 & H%delete_run & [= <- <-])|(e & H%delete_run & ->)]%bind_cases; try done; cbn [fst snd] in H;
      rewrite (seen_readable _ Hr) in H; cbn in H;
      (destruct (stale version (marker (cells_of w))) eqn:Hs; [destruct H as [Hx Hc]; try discriminate|]).
    + exists v. rewrite Hc. split; [done|]. by apply step_delete_stale.
    + exists None. split; [by apply H|]. by apply step_delete.
    + rewrite Hview in H. destruct H as [H|H]; eexists; (split; [exact H|]); constructor; auto.
Qed.

(** *** The record shared by all profiles *)

(** A valid record [t] in the shared entry, which the default profile has not claimed, has copied
    to its own entry, or has copied and retired. *)
Definition copied (t : text) (c : cells) : Prop :=
  ∃ rev, String.length rev = 64%nat ∧ c_entry c = Some (dump_envelope (mk_envelope 1 rev t)).
Definition unclaimed (t : text) (c : cells) : Prop :=
  marker c = None ∧ c_file c = None ∧
  ((c_entry c = None ∧ c_global c = Some t) ∨
   (copied t c ∧ (c_global c = Some t ∨ c_global c = Some _LEGACY_MIGRATED_MARKER))).
Definition claimed (t : text) (c : cells) : Prop :=
  view c = Some (parse_credentials t) ∧ c_global c = Some _LEGACY_MIGRATED_MARKER.

Lemma retire_run t s r s' :
  t ≠ _LEGACY_MIGRATED_MARKER → copied t (cells_at s) → unclaimed t (cells_at s) →
  _retire_global (B := B) t s = (r, s') →
  c_entry (cells_at s') = c_entry (cells_at s) ∧ unclaimed t (cells_at s') ∧ s'.2 = s.2 ∧
  (r = Ok tt → c_global (cells_at s') = Some _LEGACY_MIGRATED_MARKER).
Proof.
  intros Ht Hcopied Hun. assert (∀ c, c = cells_at s ∨ c = set_global (Some _LEGACY_MIGRATED_MARKER) (cells_at s) →
    c_entry c = c_entry (cells_at s) ∧ unclaimed t c) as Hkeep.
  { intros c [->| ->]; [done|]. split; [done|]. destruct Hun as (Hm & Hf & _). split; [exact Hm|].
    split; [exact Hf|]. right. split; [exact Hcopied|]. by right. }
  intros [(cur & w & [Hc Hcur]%get_cells & H)|(e & w & [Hc _]%get_cells & [= <- <-])]%attempt_cases.
  2: { cbn. rewrite Hc. split_and!; [done..|discriminate]. }
  specialize (Hcur _ eq_refl). change (keyring_entry s.1 _ _) with (c_global (cells_at s)) in Hcur. subst cur.
  pose proof Hun as (Hm & Hf & [[_ Hg]|[_ [Hg|Hg]]]); rewrite Hg in H; cbv beta match in H.
  1-2: rewrite (bool_decide_eq_false_2 (t = _)), (bool_decide_eq_true_2 (t = t)) in H by done; cbn [negb] in H;
    apply attempt_cases in H as [([] & w2 & H%set_global_effect & [= <- <-])|(e & w2 & H%set_global_effect & [= <- <-])];
    cbn in H; rewrite Hc in H; cbn;
    [rewrite H; split_and!; [by apply Hkeep; right..|done|done]|
     specialize (Hkeep _ H) as [? ?]; split_and!; [done..|discriminate]].
  rewrite bool_decide_eq_true_2 in H by done. injection H as <- <-. cbn. rewrite Hc.
  split_and!; [done..|]. by intros _.
Qed.

(** The marker over a copied record claims it. *)
Lemma shared_claim_run t rev e s r s' : version_ok e rev = true →
  c_entry (cells_at s) = Some (dump_envelope (mk_envelope e rev t)) →
  c_global (cells_at s) = Some _LEGACY_MIGRATED_MARKER → unclaimed t (cells_at s) →
  write_state state_directory (mk_state e rev BackendKeyring false) s = (r, s') →
  (unclaimed t (cells_at s') ∨ claimed t (cells_at s')) ∧ (r = Ok tt → claimed t (cells_at s')) ∧
  c_entry (cells_at s') = c_entry (cells_at s).
Proof.
  intros Hv He Hg Hun [_ H]%write_state_run.
  assert (claimed t (set_marker (Some (dump_state (mk_state e rev BackendKeyring false))) (cells_at s))) as Hclaimed.
  { split; [|exact Hg]. rewrite view_set_marker, (held_keyring _ _ _ _ He) by done. by rewrite parse_own. }
  destruct r as [[]|x]; cbn in H.
  - rewrite H. auto.
  - destruct H as [H|H]; rewrite H; (split; [auto|by split]).
Qed.

Lemma claimed_set_file t c x : marker c ≠ None → claimed t c → (∀ st, marker c = Some st → cs_backend st = BackendKeyring) →
  claimed t (set_file x c).
Proof.
  intros Hm [Hview Hg] Hst. split; [|done]. rewrite <- Hview. unfold view. change (marker (set_file x c)) with (marker c).
  destruct (marker c) as [st|]; [|done]. cbn. f_equal. unfold held. by rewrite (Hst st eq_refl).
Qed.

Section Migration.
Context (t : text) (cr : GoogleCredential).
Hypothesis t_valid : parse_credentials t = Some cr.
Hypothesis t_marker : t ≠ _LEGACY_MIGRATED_MARKER.
Hypothesis default_profile : canonical_state_root state_directory = canonical_state_root default_state_directory.

Lemma is_default : _is_default canonical_state_root state_directory default_state_directory = true.
Proof. by apply bool_decide_eq_true_2. Qed.

Lemma adopt_copied rev s r s' :
  copied t (cells_at s) → unclaimed t (cells_at s) →
  _adopt (B := B) canonical_state_root sha256_hex state_directory rev (c_entry (cells_at s)) BackendKeyring true s = (r, s') →
  (unclaimed t (cells_at s') ∨ claimed t (cells_at s')) ∧ ∀ o, r = Ok o → o = Some cr ∧ claimed t (cells_at s').
Proof.
  intros Hcopied Hun. pose proof Hcopied as (rev0 & Hrev0 & He). rewrite He.
  assert (version_ok 1 rev0 = true) as Hv by (unfold version_ok; by rewrite Hrev0).
  cbn [_adopt]. unfold parse_envelope. rewrite envelope_roundtrip by done. cbn [ev_credential]. rewrite t_valid.
  intros [([] & s1 & (Hc1 & Hu1 & _ & Hg1)%retire_run & H)|(e & (_ & Hu1 & _)%retire_run & ->)]%bind_cases; try done.
  2: { split; [by left|discriminate]. }
  specialize (Hg1 eq_refl). rewrite He in Hc1.
  apply bind_cases in H as [([] & s2 & (_ & H2 & _)%(shared_claim_run t) & [= <- <-])|(e & (H2 & _ & _)%(shared_claim_run t) & ->)]; try done.
  - specialize (H2 eq_refl). split; [by right|]. by intros o [= <-].
Qed.

Lemma migrate_run rev s r s' : String.length rev = 64%nat →
  unclaimed t (cells_at s) → c_entry (cells_at s) = None →
  _migrate_global (B := B) canonical_state_root sha256_hex state_directory rev t cr s = (r, s') →
  (unclaimed t (cells_at s') ∨ claimed t (cells_at s')) ∧ ∀ c, r = Ok c → c = cr ∧ claimed t (cells_at s').
Proof.
  intros Hrev Hun He. assert (version_ok 1 rev = true) as Hv by (unfold version_ok; by rewrite Hrev).
  set (env := dump_envelope (mk_envelope 1 rev t)).
  assert (unclaimed t (set_entry (Some env) (cells_at s))) as Hset.
  { destruct Hun as (Hm & Hf & [[_ Hg]|[(? & _ & ?) _]]); [|congruence].
    split; [exact Hm|]. split; [exact Hf|]. right. split; [by exists rev|by left]. }
  intros [([] & s1 & H1 & H)|(e & H1 & ->)]%bind_cases.
  2: { apply attempt_cases in H1 as [([] & w & _ & [=])|(e' & w & H1%set_entry_effect & [= _ <-])].
       split; [|discriminate]. left. cbn in H1 |- *. by destruct H1 as [->| ->]. }
  apply attempt_cases in H1 as [([] & w & H1%set_entry_effect & [= <-])|(e' & w & _ & [=])]. cbn in H1.
  assert (copied t (cells_at (w, s.2)) ∧ unclaimed t (cells_at (w, s.2))) as [Hcp1 Hun1].
  { cbn [fst]. rewrite H1. split; [by exists rev|done]. }
  apply bind_cases in H as [([] & s2 & (Hc2 & Hu2 & _ & Hg2)%(retire_run _ _ _ _ t_marker Hcp1 Hun1) & H)
    |(e & (_ & Hu2 & _)%(retire_run _ _ _ _ t_marker Hcp1 Hun1) & ->)].
  2: { split; [by left|discriminate]. }
  specialize (Hg2 eq_refl). cbn [fst] in Hc2. rewrite H1 in Hc2. cbn in Hc2.
  apply bind_cases in H as [([] & s3 & H3 & H)|(e & (H3 & _ & _)%(shared_claim_run t) & ->)]; try done.
  pose proof H3 as [_ Hm3]%write_state_run. cbn in Hm3. apply (shared_claim_run t) in H3 as (_ & H3 & _); try done.
  specialize (H3 eq_refl). assert (marker (cells_at s3) = Some (mk_state 1 rev BackendKeyring false)) as Hst
    by (rewrite Hm3; unfold marker; cbn; by rewrite state_roundtrip).
  assert (∀ c, c = cells_at s3 ∨ c = set_file None (cells_at s3) → claimed t c) as Hclaimed.
  { intros c [->| ->]; [done|]. apply claimed_set_file; [by rewrite Hst|done|]. intros st. rewrite Hst. by intros [= <-]. }
  apply bind_cases in H as [([] & s4 & (_ & H4 & _)%delete_fallback_run & [= <- <-])|(e & (_ & H4 & _)%delete_fallback_run & ->)].
  - split; [by right; apply Hclaimed|]. intros c [= <-]. split; [done|by apply Hclaimed].
  - split; [by right; apply Hclaimed|discriminate].
Qed.

Lemma unclaimed_file s rev : unclaimed t (cells_at s) →
  ∃ s', (text ← read_credential state_directory;
         _adopt (B := B) canonical_state_root sha256_hex state_directory rev text BackendFile false) s = (Ok None, s') ∧
    cells_at s' = cells_at s.
Proof.
  intros (_ & Hf & _). destruct (read_credential_run s) as (s1 & Hread & _ & Hc). exists s1.
  rewrite (bind_run _ _ _ _ _ Hread), Hf. by destruct (fallback_readable s.1).
Qed.

(** A load of the default profile moves the shared record on, and returns nothing else. *)
Lemma legacy_run rev s r s' : String.length rev = 64%nat → unclaimed t (cells_at s) → load rev s = (r, s') →
  (unclaimed t (cells_at s') ∨ claimed t (cells_at s')) ∧
  ∀ c, r = Ok (Some c) → c = cr ∧ claimed t (cells_at s').
Proof.
  intros Hrev Hun. destruct (read_state_run s) as (s1 & Hread & _ & Hc). unfold Credentials.load.
  destruct Hun as [Hm Hun]. assert (seen s.1 = None) as Hseen.
  { destruct (marker_readable s.1) eqn:Hr; [by rewrite (seen_readable _ Hr)|by apply seen_unreadable]. }
  rewrite (bind_run _ _ _ _ _ Hread), Hseen. rewrite <- Hc in Hm, Hun.
  assert (unclaimed t (cells_at s1)) as Hun1 by done. clear Hm Hun s Hread Hseen Hc. revert s1 Hun1. intros s Hun.
  unfold load_legacy. rewrite is_default.
  intros [(o & w & [Hc Ho]%get_cells & H)|(e & w & [Hc _]%get_cells & H)]%attempt_cases;
    assert (unclaimed t (cells_at (w, s.2))) as Hw by (by cbn [fst]; rewrite Hc).
  2: { destruct (no_keyring e); [|injection H as <- <-; by split; [left|]].
       destruct (unclaimed_file _ rev Hw) as (s2 & Hrun & Hc2). rewrite Hrun in H. injection H as <- <-.
       split; [|done]. left. by rewrite Hc2. }
  specialize (Ho _ eq_refl). change (keyring_entry s.1 _ _) with (c_entry (cells_at s)) in Ho. rewrite <- Hc in Ho.
  destruct o as [entry|].
  - assert (copied t (cells_at (w, s.2))) as Hcp
      by (destruct Hw as (_ & _ & [[Hw _]|[Hw _]]); [cbn [fst] in Hw; congruence|done]).
    change (cells_of w) with (cells_at (w, s.2)) in Ho. rewrite Ho in H.
    apply (adopt_copied rev _ _ _ Hcp Hw) in H as [? H]. split; [done|]. by intros c [[= ->] ?]%H.
  - destruct Hw as (Hm & Hf & [[_ Hg]|[(? & _ & Hw) _]]); [|cbn [fst] in Hw; congruence].
    assert (unclaimed t (cells_at (w, s.2))) as Hw by (split; [done|]; split; [done|]; by left).
    apply bind_cases in H as [(o & s2 & H2 & H)|(e & H2 & ->)];
      apply attempt_cases in H2 as [(g & w2 & [Hc2 Hg2]%get_cells & H2)|(e2 & w2 & [Hc2 _]%get_cells & H2)].
    all: cycle 1.
    + by injection H2.
    + specialize (Hg2 _ eq_refl). change (keyring_entry _ _ _) with (c_global (cells_at (w, s.2))) in Hg2.
      rewrite Hg in Hg2. subst g. rewrite bool_decide_eq_false_2, t_valid in H2 by done.
      apply bind_cases in H2 as [(c & s3 & H3 & [=])|(x & H3 & [= <-])].
      apply (migrate_run rev _ _ _ Hrev) in H3 as [H3 _]; [by split|by cbn [fst]; rewrite Hc2|by cbn [fst]; rewrite Hc2].
    + injection H2 as <- <-. cbn [fst]. split; [left; by rewrite Hc2|done].
    + specialize (Hg2 _ eq_refl). change (keyring_entry _ _ _) with (c_global (cells_at (w, s.2))) in Hg2.
      rewrite Hg in Hg2. subst g. rewrite bool_decide_eq_false_2, t_valid in H2 by done.
      apply bind_cases in H2 as [(c & s3 & H3 & [= <- <-])|(x & H3 & [=])]. injection H as <- <-.
      apply (migrate_run rev _ _ _ Hrev) in H3 as [H3 H3']; [|by cbn [fst]; rewrite Hc2|by cbn [fst]; rewrite Hc2].
      split; [done|]. intros c' [= <-]. by apply H3'.
Qed.
End Migration.
End Cells.

(** ** The store as a register *)

Section Register.
Context {W : Type} {B : Backends W} {BL : BackendLaws} {J : CredentialJson} {JL : JsonLaws}.
Context (canonical_state_root : Path → text) (sha256_hex : text → text).
Context (state_directory default_state_directory : Path).
Abbreviation cells_of := (cells_of canonical_state_root sha256_hex state_directory).
Abbreviation run_credential_call :=
  (run_credential_call canonical_state_root sha256_hex state_directory default_state_directory).

(** The calls of any number of stores over one state directory, each with the version its store
    has loaded, and the answers. *)
Fixpoint run_credential_calls (calls : list (loaded * credential_call)) (w : W)
    : list (res credential_error (option GoogleCredential)) * W :=
  match calls with
  | [] => ([], w)
  | (version, c) :: rest =>
    let '(r, (w1, _)) := run_credential_call c version w in
    let '(rs, w2) := run_credential_calls rest w1 in (r :: rs, w2)
  end.
(** What each of the calls met. *)
Fixpoint meetings (calls : list (loaded * credential_call)) (w : W) : list met :=
  match calls with
  | [] => []
  | (version, c) :: rest =>
    meets canonical_state_root sha256_hex state_directory version w ::
    meetings rest (run_credential_call c version w).2.1
  end.
Inductive register_run : option GoogleCredential → list credential_call → list met →
    list (res credential_error (option GoogleCredential)) → option GoogleCredential → Prop :=
  | register_done v : register_run v [] [] [] v
  | register_call v c m r v1 cs ms rs v2 :
      register_step v c m r v1 → register_run v1 cs ms rs v2 → register_run v (c :: cs) (m :: ms) (r :: rs) v2.
Definition fresh_calls (calls : list (loaded * credential_call)) : Prop :=
  Forall (λ x, String.length (call_revision x.2) = 64%nat) calls.
Definition markers_read (calls : list (loaded * credential_call)) (w : W) : Prop :=
  Forall (λ m, met_marker m = true) (meetings calls w).

Lemma calls_refine calls w v :
  fresh_calls calls → markers_read calls w → view (cells_of w) = Some v →
  ∃ v', view (cells_of (run_credential_calls calls w).2) = Some v' ∧
    register_run v (snd <$> calls) (meetings calls w) (run_credential_calls calls w).1 v'.
Proof.
  intros Hfresh. revert w v. induction Hfresh as [|[version c] calls Hc _ IH]; intros w v Hread Hview.
  - exists v. split; [done|constructor].
  - unfold markers_read in Hread. cbn [run_credential_calls meetings] in Hread |- *.
    apply Forall_cons in Hread as [Hr Hread].
    destruct (run_credential_call c version w) as [r [w1 l1]] eqn:Hrun. cbn [fst snd] in Hread |- *.
    destruct (call_refines _ _ _ _ c version w v r (w1, l1) Hc Hr Hview Hrun) as (v1 & Hview1 & Hstep).
    destruct (IH w1 v1 Hread Hview1) as (v2 & Hview2 & Hrest).
    destruct (run_credential_calls calls w1) as [rs w2]. exists v2. split; [done|]. by econstructor.
Qed.

(** C8. Once a state directory has a marker, and as long as every call can read it, its keyring
    entry, its fallback file and the marker together are one register, for any number of processes
    and whatever else fails, reads of the fallback included: a load answers the credential last
    saved, or nothing after a deletion or while the fallback that holds it cannot be read; a
    deletion empties the register, unless its store has loaded another version; a failed load
    leaves the content, a failed deletion leaves or empties it, and a failed save has done all of
    its work, none of it, or has emptied the register; an older credential never comes back. *)
Theorem credential_store_is_a_register calls w v :
  fresh_calls calls → markers_read calls w → view (cells_of w) = Some v →
  ∃ v', view (cells_of (run_credential_calls calls w).2) = Some v' ∧
    register_run v (snd <$> calls) (meetings calls w) (run_credential_calls calls w).1 v'.
Proof. apply calls_refine. Qed.

(** A deletion that returns leaves no copy of the credential, unless another process has saved
    or deleted since: then it changes nothing.  One that fails after its tombstone still hides the
    credential from every later load that can read it. *)
Theorem deletions_leave_no_copy rev version w r s' :
  String.length rev = 64%nat →
  delete canonical_state_root sha256_hex state_directory rev (w, version) = (r, s') →
  if stale version (seen state_directory w) then r = Ok tt ∧ cells_of s'.1 = cells_of w
  else match r with
       | Ok _ => view (cells_of s'.1) = Some None ∧
           keyring_entry s'.1 _KEYRING_SERVICE (keyring_username canonical_state_root sha256_hex state_directory) = None ∧
           file_text s'.1 (file_path state_directory) = None
       | Err _ => view (cells_of s'.1) = view (cells_of w) ∨ view (cells_of s'.1) = Some None
       end.
Proof. intros Hrev H. by apply delete_run in H. Qed.

(** The record that all profiles shared before the marker is claimed by the default profile
    only, and once: any sequence of its loads, each of which may fail at any step, either leaves it
    to the next load or has moved it to the profile and retired the shared entry; no load returns
    any other credential, and after the first that returns one the profile holds it.  As long as
    every load can read the marker: one that cannot would adopt the entry again. *)
Theorem shared_record_moves_once t cr loads w :
  parse_credentials t = Some cr → t ≠ _LEGACY_MIGRATED_MARKER →
  canonical_state_root state_directory = canonical_state_root default_state_directory →
  Forall (λ x : loaded * text, String.length x.2 = 64%nat) loads →
  markers_read ((λ x, (x.1, Load x.2)) <$> loads) w → unclaimed t (cells_of w) →
  let run := run_credential_calls ((λ x, (x.1, Load x.2)) <$> loads) w in
  (unclaimed t (cells_of run.2) ∨ view (cells_of run.2) = Some (Some cr)) ∧
  ∀ c, Ok (Some c) ∈ run.1 → c = cr ∧ view (cells_of run.2) = Some (Some cr).
Proof.
  intros Hvalid Hmarker Hdefault Hfresh. revert w.
  enough (∀ w, markers_read ((λ x, (x.1, Load x.2)) <$> loads) w →
    unclaimed t (cells_of w) ∨ view (cells_of w) = Some (Some cr) →
    let run := run_credential_calls ((λ x, (x.1, Load x.2)) <$> loads) w in
    (unclaimed t (cells_of run.2) ∨ view (cells_of run.2) = Some (Some cr)) ∧
    (view (cells_of w) = Some (Some cr) → view (cells_of run.2) = Some (Some cr)) ∧
    ∀ c, Ok (Some c) ∈ run.1 → c = cr ∧ view (cells_of run.2) = Some (Some cr)) as Hall.
  { intros w Hread Hw run. destruct (Hall w Hread (or_introl Hw)) as (? & _ & ?). done. }
  induction Hfresh as [|[version rev] loads Hrev _ IH]; intros w Hread Hw.
  { split; [done|]. split; [done|]. by intros c ?%elem_of_nil. }
  unfold markers_read in Hread. cbn [fmap list_fmap run_credential_calls meetings fst snd] in Hread |- *.
  apply Forall_cons in Hread as [Hr0 Hread].
  destruct (run_credential_call (Load rev) version w) as [r [w1 l1]] eqn:Hrun. cbn in Hrun.
  cbn [fst snd] in Hread.
  assert ((unclaimed t (cells_of w1) ∨ view (cells_of w1) = Some (Some cr)) ∧
    (view (cells_of w) = Some (Some cr) → view (cells_of w1) = Some (Some cr)) ∧
    ∀ c, r = Ok (Some c) → c = cr ∧ view (cells_of w1) = Some (Some cr)) as (Hw1 & Hstay & Hr).
  { destruct Hw as [Hw|Hw].
    - assert (view (cells_of w) = None) as Hno by (unfold view; by rewrite (proj1 Hw)). rewrite Hno.
      edestruct legacy_run with (s := (w, version)) (cr := cr) as [H1 H2]; [done..|exact Hw|exact Hrun|].
      unfold claimed in H1, H2. rewrite Hvalid in H1, H2. cbn [fst] in H1, H2. split; [tauto|]. split; [done|].
      intros c (Hc & Hv & _)%H2. done.
    - assert (is_Some (marker (cells_of w))) as Hm by (unfold view in Hw; destruct (marker (cells_of w)); [done|discriminate]).
      edestruct load_run with (s := (w, version)) as [H1 H2]; [exact Hr0|exact Hm|exact Hrun|]. cbn [fst] in H1, H2. rewrite Hw in H1, H2.
      split; [by right|]. split; [done|]. intros c ->. destruct (H2 _ eq_refl) as [[= ->]|[[=] _]]. done. }
  destruct (IH w1 Hread Hw1) as (H1 & H2 & H3).
  destruct (run_credential_calls ((λ x, (x.1, Load x.2)) <$> loads) w1) as [rs w2]. cbn [fst snd] in *.
  split; [done|]. split; [by intros ?%Hstay%H2|]. intros c [Hc|Hc]%elem_of_cons; [|by apply H3].
  symmetry in Hc. destruct (Hr c Hc) as [-> ?]. split; [done|by apply H2].
Qed.
End Register.

(** ** A machine with a keyring and files *)

(** Entries by key, the newest first. *)
Section Entries.
Context {K : Type} `{EqDecision K}.
Fixpoint entry (k : K) (l : list (K * text)) : option text :=
  match l with [] => None | (k', v) :: l => if bool_decide (k = k') then Some v else entry k l end.
Fixpoint drop_entry (k : K) (l : list (K * text)) : list (K * text) :=
  match l with [] => [] | (k', v) :: l => if bool_decide (k = k') then drop_entry k l else (k', v) :: drop_entry k l end.
Lemma entry_cons k v l : entry k ((k, v) :: l) = Some v.
Proof. cbn. by rewrite bool_decide_eq_true_2. Qed.
Lemma entry_cons_ne k k' v l : k ≠ k' → entry k ((k', v) :: l) = entry k l.
Proof. intros. cbn. by rewrite bool_decide_eq_false_2. Qed.
Lemma entry_drop k l : entry k (drop_entry k l) = None.
Proof. induction l as [|[k' v] l IH]; [done|]. cbn. case_bool_decide; [done|]. by rewrite entry_cons_ne. Qed.
Lemma entry_drop_ne k k' l : k ≠ k' → entry k (drop_entry k' l) = entry k l.
Proof.
  intros Hne. induction l as [|[k2 v] l IH]; [done|]. cbn. case_bool_decide as Hk.
  - subst k2. by rewrite (bool_decide_eq_false_2 (k = k')).
  - cbn. by rewrite IH.
Qed.
End Entries.
#[local] Arguments entry : simpl never.
#[local] Arguments drop_entry : simpl never.

(** The keyring's entries, the private files, and which of the next calls fail. *)
Record machine := mk_machine {
  ma_keyring : list ((text * text) * text);
  ma_files : list (Path * text);
  ma_available : bool;
  ma_faults : list bool;
}.
Definition faulty {E A} (e : E) (m : M machine E A) : M machine E A := λ s,
  match ma_faults s with
  | true :: rest => (Err e, mk_machine (ma_keyring s) (ma_files s) (ma_available s) rest)
  | _ :: rest => m (mk_machine (ma_keyring s) (ma_files s) (ma_available s) rest)
  | [] => m s
  end.
Definition with_keyring {A} (m : M machine keyring_error A) : M machine keyring_error A := λ s,
  if ma_available s then m s else (Err NoKeyringError, s).
#[export] Instance machine_backends : Backends machine := {|
  get_password sv u := with_keyring (faulty OtherKeyringError (gets (λ s, entry (sv, u) (ma_keyring s))));
  set_password sv u p := with_keyring (faulty OtherKeyringError
    (modify (λ s, mk_machine (((sv, u), p) :: ma_keyring s) (ma_files s) (ma_available s) (ma_faults s))));
  delete_password sv u := with_keyring (faulty OtherKeyringError (λ s,
    match entry (sv, u) (ma_keyring s) with
    | Some _ => (Ok tt, mk_machine (drop_entry (sv, u) (ma_keyring s)) (ma_files s) (ma_available s) (ma_faults s))
    | None => (Err PasswordDeleteError, s)
    end));
  read_private_text p := faulty UnicodeDecodeError (gets (λ s, entry p (ma_files s)));
  write_private_text p t := faulty OSError
    (modify (λ s, mk_machine (ma_keyring s) ((p, t) :: ma_files s) (ma_available s) (ma_faults s)));
  delete_private_file p := faulty OSError
    (modify (λ s, mk_machine (ma_keyring s) (drop_entry p (ma_files s)) (ma_available s) (ma_faults s)));
  keyring_entry s sv u := entry (sv, u) (ma_keyring s);
  file_text s p := entry p (ma_files s);
|}.

Definition stores (s s' : machine) : Prop := ma_keyring s' = ma_keyring s ∧ ma_files s' = ma_files s.
Lemma faulty_cases {E A} (e : E) (m : M machine E A) s r s' :
  faulty e m s = (r, s') → ∃ s1, stores s s1 ∧ ((r = Err e ∧ s' = s1) ∨ m s1 = (r, s')).
Proof.
  unfold faulty. destruct (ma_faults s) as [|[] rest].
  - intros H. exists s. split; [done|by right].
  - intros [= <- <-]. eexists. split; [|by left]. done.
  - intros H. eexists. split; [|right; exact H]. done.
Qed.
Lemma keyring_cases {A} (m : M machine keyring_error A) s r s' :
  with_keyring (faulty OtherKeyringError m) s = (r, s') →
  ∃ s1, stores s s1 ∧ ((∃ e, r = Err e ∧ s' = s1) ∨ m s1 = (r, s')).
Proof.
  unfold with_keyring. destruct (ma_available s).
  - intros (s1 & Hs & [[-> ->]|H])%faulty_cases; exists s1; (split; [done|]); [left; by eexists|by right].
  - intros [= <- <-]. exists s. split; [done|]. left. by eexists.
Qed.
Ltac stored H := destruct H as [Hkr Hfs]; cbn; unfold same_keyring, same_files, keyring_except, files_except; cbn.

#[export] Instance machine_laws : BackendLaws (W := machine).
Proof.
  split.
  - intros sv u w r w' (s1 & Hs & [(e & -> & ->)|[= <- <-]])%keyring_cases; stored Hs; rewrite Hkr, Hfs; split_and!; try done.
    by intros ? [= <-].
  - intros sv u p w r w' (s1 & Hs & [(e & -> & ->)|[= <- <-]])%keyring_cases; stored Hs; rewrite Hkr, Hfs; split_and!; try done.
    + by left.
    + intros sv' u' Hne. by rewrite entry_cons_ne by congruence.
    + by rewrite entry_cons.
  - intros sv u w r w' (s1 & Hs & [(e & -> & ->)|H])%keyring_cases.
    + stored Hs. rewrite Hkr, Hfs. split_and!; try done. by left.
    + destruct (entry (sv, u) (ma_keyring s1)) eqn:Hold; injection H as <- <-; stored Hs; rewrite <- Hkr, <- Hfs; split_and!; try done.
      * intros sv' u' Hne. by rewrite entry_drop_ne by congruence.
      * by rewrite entry_drop.
      * by left.
  - intros p w r w' (s1 & Hs & [[-> ->]|[= <- <-]])%faulty_cases; stored Hs; rewrite Hkr, Hfs; split_and!; try done.
    by intros ? [= <-].
  - intros p t w r w' (s1 & Hs & [[-> ->]|[= <- <-]])%faulty_cases; stored Hs; rewrite Hkr, Hfs; split_and!; try done.
    + by left.
    + intros q Hne. by rewrite entry_cons_ne.
    + by rewrite entry_cons.
  - intros p w r w' (s1 & Hs & [[-> ->]|[= <- <-]])%faulty_cases; stored Hs; rewrite Hkr, Hfs; split_and!; try done.
    + by left.
    + intros q Hne. by rewrite entry_drop_ne.
    + by rewrite entry_drop.
Qed.

(** A plain serialization: an epoch in unary, 64 characters of revision, the rest. *)
Fixpoint unary (n : nat) : text := match n with O => ":" | S n => String "1"%char (unary n) end.
Fixpoint read_unary (s : text) : option (nat * text) :=
  match s with
  | String c s =>
    if bool_decide (c = "1"%char) then (λ x, (S x.1, x.2)) <$> read_unary s
    else if bool_decide (c = ":"%char) then Some (O, s) else None
  | EmptyString => None
  end.
Fixpoint take_text (n : nat) (s : text) : option (text * text) :=
  match n, s with
  | O, s => Some (EmptyString, s)
  | S n, String c s => (λ x, (String c x.1, x.2)) <$> take_text n s
  | S _, EmptyString => None
  end.
Definition read_version (s : text) : option (Z * text * text) :=
  '(n, s) ← read_unary s;
  '(rev, s) ← take_text 64 s;
  if Nat.eqb n 0 then None else Some (Z.of_nat n, rev, s).
Definition write_version (e : Z) (rev rest : text) : text := unary (Z.to_nat e) +:+ rev +:+ rest.
Lemma read_unary_spec n s : read_unary (unary n +:+ s) = Some (n, s).
Proof. induction n as [|n IH]; [done|]. change (unary (S n)) with (String "1" (unary n)). rewrite text_cons_app. cbn [read_unary]. rewrite IH. done. Qed.
Lemma take_text_spec s t : take_text (String.length s) (s +:+ t) = Some (s, t).
Proof. induction s as [|c s IH]; [done|]. rewrite text_cons_app. simpl. by rewrite IH. Qed.
Lemma take_text_length n s a b : take_text n s = Some (a, b) → String.length a = n.
Proof.
  revert s a b. induction n as [|n IH]; intros s a b; cbn; [by intros [= <- _]|].
  destruct s as [|c s]; [done|]. destruct (take_text n s) as [[a' b']|] eqn:H; [|done]. intros [= <- _]. cbn. by rewrite (IH _ _ _ H).
Qed.
Lemma read_version_spec e rev rest : version_ok e rev = true → read_version (write_version e rev rest) = Some (e, rev, rest).
Proof.
  intros [He Hr]%andb_true_iff. apply Nat.eqb_eq in Hr. unfold read_version, write_version.
  rewrite read_unary_spec. cbn -[take_text]. pose proof (take_text_spec rev rest) as Ht. rewrite Hr in Ht. rewrite Ht. cbn.
  destruct (Nat.eqb_spec (Z.to_nat e) 0); [lia|]. by rewrite Z2Nat.id by lia.
Qed.
Lemma read_version_ok s e rev rest : read_version s = Some (e, rev, rest) → version_ok e rev = true.
Proof.
  unfold read_version. destruct (read_unary s) as [[n s1]|]; [|done]. cbn -[take_text].
  destruct (take_text 64 s1) as [[a b]|] eqn:Ht; [|done]. cbn.
  destruct (Nat.eqb_spec n 0); [done|]. intros [= <- <- <-]. unfold version_ok. rewrite (take_text_length _ _ _ _ Ht). cbn. lia.
Qed.
#[local] Arguments read_version : simpl never.
#[local] Arguments write_version : simpl never.
Definition write_backend (b : Backend) : text :=
  match b with BackendKeyring => "k" | BackendFile => "f" | BackendDeleted => "d" end.
Definition read_state_rest (s : text) : option (Backend * bool) :=
  match s with
  | "kt"%string => Some (BackendKeyring, true) | "kf"%string => Some (BackendKeyring, false)
  | "ft"%string => Some (BackendFile, true) | "ff"%string => Some (BackendFile, false)
  | "dt"%string => Some (BackendDeleted, true) | "df"%string => Some (BackendDeleted, false)
  | _ => None
  end.
#[export] Instance plain_json : CredentialJson := {|
  validate_wire t := if bool_decide (t = ""%string) then None else Some (mk_wire "id" "secret" t None GOOGLE_READONLY_SCOPES);
  validate_envelope t := '(e, r, c) ← read_version t; Some (mk_envelope e r c);
  validate_state t := '(e, r, s) ← read_version t; '(b, d) ← read_state_rest s; Some (mk_state e r b d);
  dump_envelope e := write_version (ev_epoch e) (ev_revision e) (ev_credential e);
  dump_state s := write_version (cs_epoch s) (cs_revision s)
    (write_backend (cs_backend s) +:+ (if cs_tombstone s then "t" else "f"));
  google_credentials w uri scopes := Some (mk_credential (Some (aw_refresh_token w)) (Some scopes) (aw_refresh_token w));
|}.
#[export] Instance plain_laws : JsonLaws (J := plain_json).
Proof.
  split; cbn.
  - intros e r c Hv. by rewrite read_version_spec.
  - intros e r b t Hv. rewrite read_version_spec by done. by destruct b, t.
  - intros t s. destruct (read_version t) as [[[e r] rest]|] eqn:Ht; [|done]. cbn.
    destruct (read_state_rest rest) as [[b d]|]; [|done]. intros [= <-]. by apply read_version_ok in Ht.
Qed.

(** ** Witnesses *)

Definition revision_a : text := "aaaaaaaaaaaaaaaaaaaaaaaaaaaaaaaaaaaaaaaaaaaaaaaaaaaaaaaaaaaaaaaa".
Definition revision_b : text := "bbbbbbbbbbbbbbbbbbbbbbbbbbbbbbbbbbbbbbbbbbbbbbbbbbbbbbbbbbbbbbbb".
Definition revision_c : text := "cccccccccccccccccccccccccccccccccccccccccccccccccccccccccccccccc".
Definition sample_root : Path := mk_path "/" ["home"; "user"; ".proactive-mcp"].
Definition lexical_root (p : Path) : text := String.concat "/" (names p).
Definition sample_credential (t : text) : GoogleCredential := mk_credential (Some t) (Some GOOGLE_READONLY_SCOPES) t.
Abbreviation on_machine f := (f lexical_root (λ t, t) sample_root).
Definition fresh_machine : machine := mk_machine [] [] true [].
(** The machine after a first credential was saved in its keyring. *)
Definition saved_machine : machine := (on_machine save revision_a (sample_credential "first") (fresh_machine, None)).2.1.
Abbreviation sample_cells := (on_machine (cells_of (B := machine_backends))).

Lemma loads_are_readonly_witness :
  match on_machine load sample_root revision_b (saved_machine, None) with
  | (Ok (Some c), _) => c = sample_credential "first" ∧ gc_scopes c = Some GOOGLE_READONLY_SCOPES
  | _ => False
  end.
Proof.
  destruct (on_machine load sample_root revision_b (saved_machine, None)) as [[[c|]|e] s'] eqn:Hrun.
  - split; [vm_compute in Hrun; by injection Hrun as <- _|].
    exact (proj1 (loads_are_readonly (B := machine_backends) lexical_root (λ t, t) sample_root sample_root revision_b _ c s' Hrun)).
  - vm_compute in Hrun. discriminate.
  - vm_compute in Hrun. discriminate.
Defined.

(** A save whose marker cannot be written, a load, a save that works, a load, and a deletion. *)
Definition sample_credential_calls : list (loaded * credential_call) :=
  [(None, Save revision_b (sample_credential "second")); (None, Load revision_c);
   (None, Save revision_c (sample_credential "third")); (None, Load revision_b);
   (None, Delete revision_b); (None, Load revision_a)].
Definition faulty_machine : machine := mk_machine (ma_keyring saved_machine) (ma_files saved_machine) true [false; false; true].
Abbreviation run_sample calls m :=
  (run_credential_calls (B := machine_backends) lexical_root (λ t, t) sample_root sample_root calls m).
Lemma credential_store_is_a_register_witness :
  (run_sample sample_credential_calls faulty_machine).1 =
    [Err CredentialStorageError; Ok None; Ok None; Ok (Some (sample_credential "third")); Ok None; Ok None] ∧
  view (sample_cells (run_sample sample_credential_calls faulty_machine).2) = Some None.
Proof.
  assert ((run_sample sample_credential_calls faulty_machine).1 =
    [Err CredentialStorageError; Ok None; Ok None; Ok (Some (sample_credential "third")); Ok None; Ok None]) as Hrs
    by (vm_compute; reflexivity).
  split; [exact Hrs|].
  destruct (credential_store_is_a_register (B := machine_backends) lexical_root (λ t, t) sample_root sample_root
    sample_credential_calls faulty_machine (Some (sample_credential "first"))) as (v & Hview & _).
  - repeat constructor.
  - vm_compute. repeat constructor.
  - vm_compute. reflexivity.
  - rewrite Hview. vm_compute in Hview. exact (eq_sym Hview).
Defined.

(** A failed deletion leaves a tombstone; one that works leaves no copy. *)
Definition keyring_down : machine := mk_machine (ma_keyring saved_machine) (ma_files saved_machine) false [].
Lemma deletions_leave_no_copy_witness :
  match on_machine delete revision_b (saved_machine, None), on_machine delete revision_b (keyring_down, None) with
  | (Ok _, (m, _)), (Err CredentialStorageError, (m', _)) =>
    view (sample_cells m) = Some None ∧ ma_keyring m = [] ∧
    (view (sample_cells m') = view (sample_cells keyring_down) ∨ view (sample_cells m') = Some None)
  | _, _ => False
  end.
Proof.
  destruct (on_machine delete revision_b (saved_machine, None)) as [[[]|e] [m l]] eqn:Hrun;
    [|vm_compute in Hrun; discriminate].
  destruct (on_machine delete revision_b (keyring_down, None)) as [[[]|e] [m' l']] eqn:Hrun';
    [vm_compute in Hrun'; discriminate|].
  assert (e = CredentialStorageError) as -> by (vm_compute in Hrun'; by injection Hrun' as <- _).
  pose proof (deletions_leave_no_copy (B := machine_backends) lexical_root (λ t, t) sample_root revision_b None _ _ _ eq_refl Hrun) as H.
  pose proof (deletions_leave_no_copy (B := machine_backends) lexical_root (λ t, t) sample_root revision_b None _ _ _ eq_refl Hrun') as H'.
  cbn [stale] in H, H'. split; [exact (proj1 H)|]. split; [vm_compute in Hrun; by injection Hrun as <- _|exact H'].
Defined.

(** Two loads fail, before and after the copy; the third finishes the move. *)
Definition shared_machine : machine :=
  mk_machine [((_KEYRING_SERVICE, _KEYRING_USERNAME), "old"%string)] [] true [false; false; true; false; false; false; true].
Definition sample_loads : list (loaded * text) := [(None, revision_a); (None, revision_b); (None, revision_c)].
Lemma shared_record_moves_once_witness :
  (run_sample ((λ x, (x.1, Load x.2)) <$> sample_loads) shared_machine).1 =
    [Err CredentialStorageError; Err CredentialStorageError; Ok (Some (sample_credential "old"))] ∧
  view (sample_cells (run_sample ((λ x, (x.1, Load x.2)) <$> sample_loads) shared_machine).2) = Some (Some (sample_credential "old")).
Proof.
  assert ((run_sample ((λ x, (x.1, Load x.2)) <$> sample_loads) shared_machine).1 =
    [Err CredentialStorageError; Err CredentialStorageError; Ok (Some (sample_credential "old"))]) as Hrs by (vm_compute; reflexivity).
  split; [exact Hrs|].
  assert (parse_credentials "old" = Some (sample_credential "old")) as Hold by (vm_compute; reflexivity).
  assert ("old"%string ≠ _LEGACY_MIGRATED_MARKER) as Hmarker by discriminate.
  assert (unclaimed "old" (sample_cells shared_machine)) as Hun
    by (split; [vm_compute; reflexivity|]; split; [vm_compute; reflexivity|]; left; split; vm_compute; reflexivity).
  assert (Forall (λ x : loaded * text, String.length x.2 = 64%nat) sample_loads) as Hfresh by (repeat constructor).
  assert (markers_read (B := machine_backends) lexical_root (λ t, t) sample_root sample_root
    ((λ x, (x.1, Load x.2)) <$> sample_loads) shared_machine) as Hread by (vm_compute; repeat constructor).
  destruct (shared_record_moves_once (B := machine_backends) lexical_root (λ t, t) sample_root sample_root "old"
    (sample_credential "old") sample_loads shared_machine Hold Hmarker eq_refl Hfresh Hread Hun) as [_ Hreturned].
  apply (Hreturned (sample_credential "old")). rewrite Hrs. right. right. left.
Defined.

(** A marker that cannot be read counts as absent: a deletion whose keyring call failed hides the
    credential only as long as its tombstone is readable. *)
Definition undeleted_machine : machine :=
  (on_machine delete revision_b
    (mk_machine (ma_keyring saved_machine) (ma_files saved_machine) true [false; false; true], None)).2.1.
Definition unreadable_marker : machine :=
  mk_machine (ma_keyring undeleted_machine) (ma_files undeleted_machine) true [true].
Abbreviation reviving_load := (on_machine load sample_root revision_c (unreadable_marker, None)).
Example unreadable_tombstone_is_ignored :
  view (sample_cells undeleted_machine) = Some None ∧
  marker_readable sample_root unreadable_marker = false ∧
  reviving_load.1 = Ok (Some (sample_credential "first")) ∧
  view (sample_cells reviving_load.2.1) = Some (Some (sample_credential "first")).
Proof. split_and!; vm_compute; reflexivity. Qed.
