(* ===== verification/GoogleSetup.v ===== *)
(** Connecting and disconnecting Google ([sources/oauth.py], [_oauth_flow.py], [_oauth_logging.py],
    [_google_setup.py] and the commands of [sources/__init__.py]): the client file, the loopback
    flow and its prompt, what a setup stores and in which order, and the log fences.  The OAuth
    library, its loopback server and the opening of the database are parameters. *)
From S2P Require Import Prelude Paths PyDate PyTime Models SourceSync Runtime GoogleSync Evaluation Credentials CredentialRegister.
Import SyncState.
#[local] Open Scope Z_scope.

(** ** The client file *)

Definition GOOGLE_AUTHORIZATION_ENDPOINT : text := "https://accounts.google.com/o/oauth2/auth".
Definition GOOGLE_OAUTH_ENDPOINT : text := "https://oauth2.googleapis.com/token".
Definition _SUPPORTED_REDIRECT_URIS : list text := ["http://127.0.0.1"].

Record InstalledAppClientWire := mk_client_wire { cw_client_id : text; cw_client_secret : text }.
Record GoogleInstalledApplicationConfig := mk_installed {
  gi_auth_uri : text;
  gi_client_id : text;
  gi_client_secret : text;
  gi_redirect_uris : list text;
  gi_token_uri : text;
}.
Record GoogleClientConfig := mk_client_config { gi_installed : GoogleInstalledApplicationConfig }.
Definition as_google_config (w : InstalledAppClientWire) : GoogleClientConfig :=
  mk_client_config (mk_installed GOOGLE_AUTHORIZATION_ENDPOINT (cw_client_id w) (cw_client_secret w)
    _SUPPORTED_REDIRECT_URIS GOOGLE_OAUTH_ENDPOINT).

(** ** Errors *)

(** What the flow library raises; the last stands for the errors the code does not name. *)
Inductive flow_error := WSGITimeoutError | FlowOSError | BrowserError | OAuth2Error | RequestException | OtherFlowError.
(** What opening the database raises. *)
Inductive open_error := OpenOSError | SqliteError | ReceiptErasurePendingError | UnsafeDatabase | OtherOpenError.
Inductive setup_error :=
  | OAuthClientConfigError
  | GoogleOAuthAuthorizationError
  | GoogleOAuthAuthorizationTimeoutError
  | FlowRaised (e : flow_error)
  | CredentialRaised (e : credential_error)
  | GoogleSourceConfigurationError
  | StoreRaised (e : open_error).

(** ** The prompt *)

Definition HEADLESS_AUTHORIZATION_URL_EVENT : text := "oauth.authorization_url".
Definition HEADLESS_SETUP_SUCCESS_EVENT : text := "Google read-only sources configured.".
Definition _BROWSER_AUTHORIZATION_EVENT : text := "Waiting for Google authorization in your browser.".

(** The lines a call writes to standard output. *)
Definition write_headless_authorization_url (url : text) : list text :=
  if String.prefix GOOGLE_AUTHORIZATION_ENDPOINT url then [HEADLESS_AUTHORIZATION_URL_EVENT +:+ " " +:+ url] else [].
Definition write_headless_setup_success : list text := [HEADLESS_SETUP_SUCCESS_EVENT].
Definition _write_browser_authorization_status : list text := [_BROWSER_AUTHORIZATION_EVENT].

(** [_OwnedAuthorizationPrompt.format]: the library formats the prompt once for its log and once to
    print it. *)
Definition format (headless emitted : bool) (url : text) : bool * list text :=
  if emitted then (emitted, [])
  else (true, if headless then write_headless_authorization_url url else _write_browser_authorization_status).
Fixpoint format_all (headless emitted : bool) (urls : list text) : list text :=
  match urls with
  | [] => []
  | url :: rest => let '(emitted, out) := format headless emitted url in out ++ format_all headless emitted rest
  end.

(** ** The log fences *)

Record LogRecord := mk_log_record { lr_name : text; lr_pathname : text; lr_funcName : text; lr_levelno : Z }.
Definition DEBUG : Z := 10.
Definition _OAUTHLIB_LOGGER_NAME : text := "google_auth_oauthlib.flow".
Definition _REQUESTS_OAUTHLIB_LOGGER_NAME : text := "requests_oauthlib.oauth2_session".

Section Fences.
(** The files of the two libraries. *)
Context (_OAUTHLIB_FLOW_SOURCE _REQUESTS_OAUTHLIB_SOURCE : option text).

Definition callback_filter (r : LogRecord) : bool :=
  negb (bool_decide (lr_name r = _OAUTHLIB_LOGGER_NAME) &&
        bool_decide (Some (lr_pathname r) = _OAUTHLIB_FLOW_SOURCE) && bool_decide (lr_funcName r = "log_message"%string)).
Definition debug_filter (r : LogRecord) : bool :=
  negb (bool_decide (lr_name r = _REQUESTS_OAUTHLIB_LOGGER_NAME) &&
        bool_decide (Some (lr_pathname r) = _REQUESTS_OAUTHLIB_SOURCE) && (lr_levelno r =? DEBUG)).
(** [install_oauth_log_filters]: the filters of a logger; a record passes when all of them keep it. *)
Definition install_oauth_log_filters (logger : text) : list (LogRecord → bool) :=
  (if bool_decide (logger = _OAUTHLIB_LOGGER_NAME) then [callback_filter] else []) ++
  (if bool_decide (logger = _REQUESTS_OAUTHLIB_LOGGER_NAME) then [debug_filter] else []).
End Fences.

(** ** Authorization *)

Definition _LOOPBACK_HOST : text := "127.0.0.1".
Definition _LOOPBACK_PORT : Z := 0.
Definition _AUTHORIZATION_TIMEOUT_SECONDS : Z := 300.

Record LocalServer := mk_local_server {
  ls_host : text;
  ls_port : Z;
  ls_open_browser : bool;
  ls_timeout_seconds : Z;
  ls_prompt : option text;
}.
(** The library: a flow for a client and scopes; its loopback server, which reports the addresses
    it formatted the prompt with and how it ended. *)
Class FlowLibrary (W : Type) := {
  flow : Type;
  from_client_config : GoogleClientConfig → list text → res flow_error flow;
  run_local_server : flow → LocalServer → W → (list text * res flow_error GoogleCredential) * W;
}.

(** The secrets, the database and standard output. *)
Record installation W := mk_installation { in_secrets : W; in_db : db; in_out : list text }.
Arguments mk_installation {_}.
Arguments in_secrets {_}.
Arguments in_db {_}.
Arguments in_out {_}.
Abbreviation setup W := (M (installation W) setup_error).

Record GoogleSetupOptions := mk_setup_options {
  so_client_secrets : option text;   (** the bytes of the file; [None]: it cannot be read *)
  so_reauth : bool;
  so_headless : bool;
}.

Section Setup.
Context {W : Type} {B : Backends W} {J : CredentialJson} {F : FlowLibrary W}.
Context (canonical_state_root : Path → text) (sha256_hex : text → text).
(** Validation of the client file. *)
Context (validate_client : text → option InstalledAppClientWire).

Definition _load_client_config (raw : option text) : res setup_error GoogleClientConfig :=
  match raw with
  | None => Err OAuthClientConfigError
  | Some raw =>
    match validate_client raw with
    | None => Err OAuthClientConfigError
    | Some wire => Ok (as_google_config wire)
    end
  end.

(** The [except] clauses around the flow. *)
Definition flow_failure (e : flow_error) : setup_error :=
  match e with
  | WSGITimeoutError => GoogleOAuthAuthorizationTimeoutError
  | FlowOSError | BrowserError | OAuth2Error | RequestException => GoogleOAuthAuthorizationError
  | OtherFlowError => FlowRaised e
  end.
Definition write_out (lines : list text) : setup W unit :=
  modify (λ s, mk_installation (in_secrets s) (in_db s) (in_out s ++ lines)).
(** A run of the adapter [_GoogleLocalInstalledAppFlow]. *)
Definition run_flow (f : flow) (server : LocalServer) : setup W GoogleCredential := λ s,
  let '((urls, r), w) := run_local_server f server (in_secrets s) in
  let out := format_all (negb (ls_open_browser server)) false urls in
  (match r with Ok c => Ok c | Err e => Err (flow_failure e) end, mk_installation w (in_db s) (in_out s ++ out)).
(** A call of a credential store made for this command. *)
Definition on_secrets {A} (m : store_op W A) : setup W A := λ s,
  let '(r, (w, _)) := m (in_secrets s, None) in
  (match r with Ok a => Ok a | Err e => Err (CredentialRaised e) end, mk_installation w (in_db s) (in_out s)).

Definition authorize (state_directory : Path) (revision : text) (client_secrets : option text) (reauth headless : bool)
    : setup W GoogleCredential :=
  client_config ← lift (_load_client_config client_secrets);
  f ← lift (match from_client_config client_config GOOGLE_READONLY_SCOPES with
            | Ok f => Ok f
            | Err e => Err (flow_failure e)
            end);
  credentials ← run_flow f (mk_local_server _LOOPBACK_HOST _LOOPBACK_PORT (negb headless)
    _AUTHORIZATION_TIMEOUT_SECONDS (if reauth then Some "consent"%string else None));
  on_secrets (save canonical_state_root sha256_hex state_directory revision credentials);;
  mret credentials.

(** ** The commands *)

(** What the database does for a command: how its opening ends, and how closing it at the end of the
    [with] block does, which verifies the files again and closes them ([Database.close_connection]). *)
Record store_session := mk_session { ss_opened : res open_error unit; ss_closed : res open_error unit }.
(** [with Store(path) as store: m], inside the [except] clauses [handler]: a failing close replaces
    the outcome of the block, whose writes stay. *)
Definition with_store (session : store_session) (handler : open_error → setup_error) (m : op unit) : setup W unit :=
  λ s,
  match ss_opened session with
  | Err e => (Err (handler e), s)
  | Ok _ =>
    let (r, d) := m (in_db s) in
    let s' := mk_installation (in_secrets s) d (in_out s) in
    match ss_closed session, r with
    | Err e, _ => (Err (handler e), s')
    | Ok _, Ok _ => (Ok tt, s')
    | Ok _, Err _ => (Err (handler OtherOpenError), s')
    end
  end.
Definition persist_google_setup_state (session : store_session) (now : instant) : setup W unit :=
  with_store session (λ e,
    match e with
    | OpenOSError | SqliteError | ReceiptErasurePendingError | UnsafeDatabase => GoogleSourceConfigurationError
    | OtherOpenError => StoreRaised e
    end) (set_google_auth_state now Configured).

Definition configure_google_sources (database_path : Path) (options : GoogleSetupOptions) (revision : text)
    (session : store_session) (now : instant) : setup W unit :=
  authorize (parent database_path) revision (so_client_secrets options) (so_reauth options) (so_headless options);;
  persist_google_setup_state session now;;
  write_out write_headless_setup_success.

(** [paths] is the layout of [ProactivePaths.for_database]. *)
Definition disconnect_google_sources (paths : ProactivePaths) (revision : text) (session : store_session)
    (now now' : instant) : setup W unit :=
  on_secrets (delete canonical_state_root sha256_hex (state_directory paths) revision);;
  with_store session StoreRaised (disconnect_google_auth now now').
End Setup.

(** ** What a command prints *)

Lemma format_emitted headless urls : format_all headless true urls = [].
Proof. induction urls as [|url urls IH]; [done|]. cbn. exact IH. Qed.
Lemma format_all_spec headless urls :
  format_all headless false urls =
  match urls with [] => [] | url :: _ => (format headless false url).2 end.
Proof. destruct urls as [|url urls]; [done|]. cbn. by rewrite format_emitted, app_nil_r. Qed.

(** What the prompt may print: one line, without the address unless it is the only way to show it. *)
Definition prompt_lines (headless : bool) (lines : list text) : Prop :=
  lines = [] ∨ (headless = false ∧ lines = _write_browser_authorization_status) ∨
  (headless = true ∧ ∃ url, String.prefix GOOGLE_AUTHORIZATION_ENDPOINT url = true ∧
     lines = [HEADLESS_AUTHORIZATION_URL_EVENT +:+ " " +:+ url]).
Lemma format_all_lines headless urls : prompt_lines headless (format_all headless false urls).
Proof.
  rewrite format_all_spec. destruct urls as [|url urls]; [by left|]. cbn. destruct headless; [|right; by left].
  unfold write_headless_authorization_url. destruct (String.prefix _ url) eqn:Hp; [|by left].
  right; right. split; [done|]. by exists url.
Qed.

(** The two writes of the shared authorization state. *)
Lemma set_google_auth_run now a d : ∃ d', set_google_auth_state now a d = (Ok tt, d') ∧ all_auth a d'.
Proof.
  exists (write_google_auth now a None d).2. split; [|apply all_auth_write]. done.
Qed.
Lemma disconnect_run now now' d : ∃ d', disconnect_google_auth now now' d = (Ok tt, d') ∧ all_auth NotConfigured d'.
Proof.
  pose proof (all_auth_write now NotConfigured None d) as Hall.
  exists (record_credential_state now' CredentialUnknown (write_google_auth now NotConfigured None d).2).2.
  split; [done|]. exact Hall.
Qed.

(** ** What the commands establish *)

Section Commands.
Context {W : Type} {B : Backends W} {BL : BackendLaws} {J : CredentialJson} {JL : JsonLaws} {F : FlowLibrary W}.
Context (canonical_state_root : Path → text) (sha256_hex : text → text).
Context (validate_client : text → option InstalledAppClientWire).
Abbreviation register dir w := (view (cells_of canonical_state_root sha256_hex dir w)).

Lemma on_secrets_cases {A} (m : store_op W A) s r s' :
  on_secrets m s = (r, s') →
  ∃ r0 l, m (in_secrets s, None) = (r0, (in_secrets s', l)) ∧ in_db s' = in_db s ∧ in_out s' = in_out s ∧
    r = match r0 with Ok a => Ok a | Err e => Err (CredentialRaised e) end.
Proof.
  unfold on_secrets. destruct (m (in_secrets s, None)) as [r0 [w l]]. intros [= <- <-]. by exists r0, l.
Qed.

Lemma authorize_run dir rev raw reauth headless s r s' :
  String.length rev = 64%nat →
  authorize canonical_state_root sha256_hex validate_client dir rev raw reauth headless s = (r, s') →
  in_db s' = in_db s ∧ (∃ lines, prompt_lines headless lines ∧ in_out s' = in_out s ++ lines) ∧
  ∀ c, r = Ok c → require_refreshable_readonly_credentials c = Ok tt ∧
    register dir (in_secrets s') = Some (parse_credentials (gc_to_json c)).
Proof.
  intros Hrev. unfold authorize.
  assert (∃ lines, prompt_lines headless lines ∧ in_out s = in_out s ++ lines) as Hsilent
    by (exists []; rewrite app_nil_r; by split; [left|]).
  intros [(config & s1 & [= _ <-] & H)|(e & [= _ <-] & ->)]%bind_cases; [|done].
  apply bind_cases in H as [(f & s1 & [= _ <-] & H)|(e & [= _ <-] & ->)]; [|done].
  set (server := mk_local_server _ _ _ _ _) in H.
  assert (∀ r1 s1, run_flow f server s = (r1, s1) →
    in_db s1 = in_db s ∧ ∃ lines, prompt_lines headless lines ∧ in_out s1 = in_out s ++ lines) as Hflow.
  { intros r1 s1. unfold run_flow. destruct (run_local_server f server (in_secrets s)) as [[urls o] w]. intros [= _ <-].
    split; [done|]. exists (format_all (negb (negb headless)) false urls). rewrite negb_involutive. split; [apply format_all_lines|done]. }
  apply bind_cases in H as [(c & s1 & H1%Hflow & H)|(e & H1%Hflow & ->)]; [|by split; [apply H1|split; [apply H1|]]].
  destruct H1 as [Hdb (lines & Hlines & Hout)].
  assert (∀ r2 s2, on_secrets (save canonical_state_root sha256_hex dir rev c) s1 = (r2, s2) →
    in_db s2 = in_db s ∧ in_out s2 = in_out s ++ lines ∧
    (r2 = Ok tt → require_refreshable_readonly_credentials c = Ok tt ∧
       register dir (in_secrets s2) = Some (parse_credentials (gc_to_json c)))) as Hsave.
  { intros r2 s2 (r0 & l & Hs & Hdb2 & Hout2 & ->)%on_secrets_cases. split; [congruence|]. split; [congruence|].
    intros Hr. destruct r0 as [[]|e]; [|done]. split.
    - unfold save in Hs. apply bind_ok in Hs as ([] & s3 & [= Hreq _] & _). done.
    - apply save_run in Hs as [Hs _]; [|done]. exact (Hs (or_introl eq_refl)). }
  apply bind_cases in H as [([] & s2 & H2%Hsave & [= <- <-])|(e & H2%Hsave & ->)]; destruct H2 as (Hdb2 & Hout2 & Hreg).
  - split; [done|]. split; [by exists lines|]. intros c' [= <-]. by apply Hreg.
  - split; [done|]. split; [by exists lines|done].
Qed.

(** C12. A setup marks the sources configured only after a read-only credential is stored where the
    readers look for it; one that fails leaves the authorization state as it was, unless all that
    failed was the closing of the database after the state was committed, the credential being
    stored then.  Besides its success it prints at most one line, and the authorization address
    only when it was asked not to open a browser. *)
Theorem setups_store_before_they_configure path options rev session now s r s' :
  String.length rev = 64%nat →
  configure_google_sources canonical_state_root sha256_hex validate_client path options rev session now s = (r, s') →
  (∃ lines, prompt_lines (so_headless options) lines ∧
     in_out s' = in_out s ++ lines ++ match r with Ok _ => write_headless_setup_success | Err _ => [] end) ∧
  let configured := all_auth Configured (in_db s') ∧
      ∃ c, require_refreshable_readonly_credentials c = Ok tt ∧
        register (parent path) (in_secrets s') = Some (parse_credentials (gc_to_json c)) in
  match r with
  | Ok _ => configured
  | Err _ => in_db s' = in_db s ∨
      (ss_opened session = Ok tt ∧ (∃ e, ss_closed session = Err e) ∧ configured)
  end.
Proof.
  intros Hrev. unfold configure_google_sources.
  intros [(c & s1 & H1 & H)|(e & H1 & ->)]%bind_cases; apply authorize_run in H1 as (Hdb & (lines & Hl & Hout) & Hc); try done.
  2: { split; [|by left]. exists lines. by rewrite app_nil_r. }
  destruct (Hc c eq_refl) as [Hreq Hreg].
  unfold persist_google_setup_state, with_store in H. destruct session as [[[]|e] closed]; cbn in H |- *.
  - destruct (set_google_auth_run now Configured (in_db s1)) as (d & Hrun & Hall).
    unfold mbind, M_bind in H. rewrite Hrun in H. destruct closed as [[]|e]; injection H as <- <-; cbn.
    + split; [|split; [done|by exists c]]. exists lines. by rewrite Hout, app_assoc.
    + split; [|right; split_and!; [done|by eexists|done|by exists c]].
      exists lines. by rewrite app_nil_r.
  - injection H as <- <-. split; [|by left]. exists lines. by rewrite app_nil_r.
Qed.

(** A disconnection removes every copy of the credential before it clears the authorization
    state: if it returns, both are gone; if it fails, the authorization state is as it was, so the
    command can be repeated, or both are gone and all that failed was closing the database. *)
Theorem disconnects_delete_before_they_clear paths rev session now now' s r s' :
  String.length rev = 64%nat →
  disconnect_google_sources canonical_state_root sha256_hex paths rev session now now' s = (r, s') →
  in_out s' = in_out s ∧
  let gone := register (state_directory paths) (in_secrets s') = Some None ∧
      keyring_entry (in_secrets s') _KEYRING_SERVICE
        (keyring_username canonical_state_root sha256_hex (state_directory paths)) = None ∧
      file_text (in_secrets s') (file_path (state_directory paths)) = None in
  match r with
  | Ok _ => all_auth NotConfigured (in_db s') ∧ gone
  | Err _ =>
      (in_db s' = in_db s ∧
       (register (state_directory paths) (in_secrets s') = register (state_directory paths) (in_secrets s) ∨
        register (state_directory paths) (in_secrets s') = Some None)) ∨
      ((∃ e, ss_closed session = Err e) ∧ all_auth NotConfigured (in_db s') ∧ gone)
  end.
Proof.
  intros Hrev. unfold disconnect_google_sources.
  intros [([] & s1 & H1 & H)|(e & H1 & ->)]%bind_cases; apply on_secrets_cases in H1 as (r0 & l & Hrun & Hdb & Hout & Hr);
    (destruct r0 as [[]|e0]; [|]); try discriminate; apply delete_run in Hrun; try done; cbn in Hrun.
  2: { split; [done|]. left. by split. }
  unfold with_store in H. destruct session as [[[]|e] closed]; cbn in H |- *.
  - destruct (disconnect_run now now' (in_db s1)) as (d & Hd & Hall). rewrite Hd in H.
    destruct closed as [[]|e]; injection H as <- <-; cbn; [done|]. split; [done|]. right.
    split; [by eexists|]. done.
  - injection H as <- <-. split; [done|]. left. split; [done|]. right. apply Hrun.
Qed.
End Commands.

(** ** The readers' access *)

Section Access.
Context {W : Type} {B : Backends W} {J : CredentialJson}.
Context (canonical_state_root : Path → text) (sha256_hex : text → text).
Context (state_dir default_state_directory : Path).
(** The random revision of a load, and the readers of a credential. *)
Context (revision : W → text) (open_readers : GoogleCredential → GoogleReaders W).

(** [open_source_access]: the credential store of the state directory. *)
Definition open_source_access : SourceAccess W := {|
  credential := GoogleCredential;
  load_credential w :=
    match load canonical_state_root sha256_hex state_dir default_state_directory (revision w) (w, None) with
    | (Ok c, (w', _)) => (Some c, w')
    | (Err _, (w', _)) => (None, w')
    end;
  open_credential := open_readers;
|}.
End Access.

(** What a run from an empty register leaves: the register is empty, and nothing was prepared. *)
Definition skipped (o : SourceOutcome) : Prop := ∃ reason, o = SkippedSources reason.

Section Silence.
Context {W : Type} {B : Backends W} {BL : BackendLaws} {J : CredentialJson} {JL : JsonLaws}.
Context (canonical_state_root : Path → text) (sha256_hex : text → text).
Context (state_dir default_state_directory : Path).
Context (revision : W → text) (open_readers : GoogleCredential → GoogleReaders W).
Context (parse_datetime : text → option Z).
Abbreviation register w := (view (cells_of canonical_state_root sha256_hex state_dir w)).
#[local] Instance access : SourceAccess W :=
  open_source_access canonical_state_root sha256_hex state_dir default_state_directory revision open_readers.

Abbreviation secrets w := (cells_of canonical_state_root sha256_hex state_dir w).

(** A load here cannot adopt a record from the shared entry: it reads the marker, or there is no
    such record for this profile. *)
Definition settled (w : W) : Prop :=
  marker_readable state_dir w = true ∨
  nothing_to_adopt canonical_state_root state_dir default_state_directory (secrets w).
(** A computation that finds nothing in a directory without a credential: it leaves the secrets
    alone and prepares no snapshots. *)
Definition quiet (m : pass W SourceOutcome) : Prop := ∀ s r s',
  disconnected (secrets s.1) → settled s.1 → m s = (r, s') →
  secrets s'.1 = secrets s.1 ∧ ∀ o, r = Ok o → skipped o.

(** Statements on the store leave the secrets alone. *)
Lemma on_store_world {A} (m : op A) (s : W * db) r s' : on_store m s = (r, s') → s'.1 = s.1.
Proof. unfold on_store. by destruct (m s.2) as [[a|e] d]; intros [= _ <-]. Qed.
Definition keeps_world {A} (m : pass W A) : Prop := ∀ s r s', m s = (r, s') → s'.1 = s.1.
Lemma quiet_bind {A} (m : pass W A) (f : A → pass W SourceOutcome) :
  keeps_world m → (∀ a, quiet (f a)) → quiet (m ≫= f).
Proof.
  intros Hm Hf s r s' Hdis Hset [(a & s1 & H1%Hm & H)|(e & H1%Hm & ->)]%bind_cases.
  - rewrite <- H1 in Hdis, Hset |- *. by apply (Hf a _ _ _ Hdis Hset H).
  - split; [by rewrite H1|done].
Qed.
Lemma quiet_after {A} (m : op A) (f : A → pass W SourceOutcome) :
  (∀ a, quiet (f a)) → quiet (on_store m ≫= f).
Proof. apply quiet_bind. intros s r s'. apply on_store_world. Qed.
Lemma quiet_skip reason : quiet (mret (SkippedSources reason)).
Proof. intros s r s' _ _ [= <- <-]. split; [done|]. intros o [= <-]. by eexists. Qed.

(** What follows a load that found nothing records it and skips. *)
Lemma skips_after {A} (m : op A) reason (s : W * db) r s' :
  (on_store m;; mret (SkippedSources reason)) s = (r, s') → s'.1 = s.1 ∧ ∀ o, r = Ok o → skipped o.
Proof.
  intros [(a & s1 & H1%on_store_world & [= <- <-])|(e & H1%on_store_world & ->)]%bind_cases; (split; [done|]); [|done].
  intros o [= <-]. by eexists.
Qed.
Lemma quiet_read k : quiet (_read k).
Proof.
  intros [w d] r s' Hdis Hset. unfold _read, mbind at 1, M_bind at 1, on_world. cbn [fst snd load_credential access open_source_access].
  destruct (load _ _ _ _ _ _) as [o [w1 l1]] eqn:Hload. apply load_disconnected in Hload as [Hcells Ho]; [|done..].
  cbn [fst] in Hcells.
  assert (∀ c, o = Ok c → c = None) as Hnone by done.
  destruct o as [c|e]; [rewrite (Hnone c eq_refl)|]; intros [Hw Hs]%skips_after; cbn [fst] in Hw; rewrite Hw; done.
Qed.
Lemma quiet_scheduled k : quiet (scheduled_sources parse_datetime k).
Proof. unfold scheduled_sources. apply quiet_after. intros states. destruct (_authorization_skip states); [apply quiet_skip|apply quiet_read]. Qed.

Lemma quiet_finally (m : pass W SourceOutcome) (last : pass W unit) :
  keeps_world last → quiet m → quiet (try_finally m last).
Proof.
  intros Hlast Hm s r s' Hdis Hset. unfold try_finally. destruct (m s) as [r1 s1] eqn:Hr1.
  destruct (Hm _ _ _ Hdis Hset Hr1) as [Hcells Hskip].
  destruct (last s1) as [[[]|e] s2] eqn:H; apply Hlast in H; intros [= <- <-]; rewrite H; by split.
Qed.
Lemma quiet_lazy policy g k : quiet (lazy_sources parse_datetime policy g k).
Proof.
  unfold lazy_sources. apply quiet_after. intros states. apply quiet_bind.
  - intros s r s'. destruct (_authorization_skip states); [by intros [= _ <-]|]. unfold _degraded_skip.
    intros [(w & s1 & H1%on_store_world & H)|(e & H1%on_store_world & _)]%bind_cases; [|done].
    rewrite <- H1. destruct (_daemon_owns_reads _); [by injection H as _ <-|].
    destruct (_all_fresh _ _ _); by injection H as _ <-.
  - intros [blocked|]; [apply quiet_skip|]. unfold _read_with_lease. apply quiet_after. intros [lease|]; [|apply quiet_skip].
    apply quiet_finally; [|apply quiet_read].
    intros s r s' [(b & s1 & H1%on_store_world & [= _ <-])|(e & H1%on_store_world & _)]%bind_cases; done.
Qed.

(** A pass of some process over the secrets [w], with whatever its store holds. *)
Inductive source_pass (w : W) : res pass_exn SourceOutcome → W → Prop :=
  | pass_scheduled k d r s : scheduled_sources parse_datetime k (w, d) = (r, s) → source_pass w r s.1
  | pass_lazy policy g k d r s : lazy_sources parse_datetime policy g k (w, d) = (r, s) → source_pass w r s.1.
Lemma pass_quiet w r w' : disconnected (secrets w) → settled w → source_pass w r w' →
  secrets w' = secrets w ∧ ∀ o, r = Ok o → skipped o.
Proof.
  intros Hdis Hset [k d r1 s H|policy g k d r1 s H];
    [by apply (quiet_scheduled k (w, d) r1 s)|by apply (quiet_lazy policy g k (w, d) r1 s)].
Qed.
(** Passes one after the other, each with its outcome. *)
Inductive passes (w : W) : list (res pass_exn SourceOutcome) → W → Prop :=
  | passes_done : passes w [] w
  | passes_more r w1 rs w2 : settled w → source_pass w r w1 → passes w1 rs w2 → passes w (r :: rs) w2.

(** C13. After a disconnection that returned, no pass of any process reads Google for this state
    directory, scheduled or lazy, however many there are and whatever the database says, until a
    credential is saved: all of them skip their sources and leave the secrets as they are.  Each
    pass must be able to read the marker the deletion left, unless there is no record from before
    the markers in the entry all profiles shared that this profile could adopt. *)
Theorem disconnected_directories_are_not_read paths rev session now now' s s' rs w :
  String.length rev = 64%nat → state_directory paths = state_dir →
  disconnect_google_sources canonical_state_root sha256_hex paths rev session now now' s = (Ok tt, s') →
  passes (in_secrets s') rs w →
  secrets w = secrets (in_secrets s') ∧ register w = Some None ∧
  Forall (λ r, ∀ o, r = Ok o → skipped o) rs.
Proof.
  intros Hrev Hdir Hrun Hpasses.
  assert (disconnected (secrets (in_secrets s'))) as Hdis.
  { unfold disconnect_google_sources in Hrun. apply bind_ok in Hrun as ([] & s1 & H1 & Hst).
    apply on_secrets_cases in H1 as (r0 & l & H1 & _ & _ & Hr). destruct r0 as [[]|e0]; [|done].
    apply delete_run in H1; [|done]. cbn in H1. unfold with_store in Hst. destruct (ss_opened session) as [[]|e]; [|done].
    destruct (disconnect_google_auth now now' (in_db s1)) as [[[]|e] d1], (ss_closed session) as [[]|e'];
      try done; injection Hst as <-; by rewrite Hdir in H1. }
  revert Hdis Hpasses. generalize (in_secrets s'). intros w0 Hdis Hpasses.
  assert (secrets w = secrets w0 ∧ Forall (λ r, ∀ o, r = Ok o → skipped o) rs) as [Hw Hrs].
  { clear Hrun. induction Hpasses as [|w1 r w2 rs w3 Hset Hpass Hmore IH]; [done|].
    destruct (pass_quiet _ _ _ Hdis Hset Hpass) as [H2 Hr]. rewrite <- H2 in Hdis |- *.
    destruct (IH Hdis) as [Hw3 Hrs]. split; [done|by constructor]. }
  split; [done|]. split; [|done]. rewrite Hw. apply Hdis.
Qed.
End Silence.

(** ** Witnesses *)

(** A library that grants a credential and formats its prompt twice. *)
Definition sample_url : text := GOOGLE_AUTHORIZATION_ENDPOINT +:+ "?state=x".
#[local] Instance sample_flow : FlowLibrary machine := {|
  flow := unit;
  from_client_config _ _ := Ok tt;
  run_local_server _ _ w := (([sample_url; sample_url], Ok (sample_credential "granted")), w);
|}.
Definition sample_client (t : text) : option InstalledAppClientWire :=
  if bool_decide (t = "client"%string) then Some (mk_client_wire "id" "secret") else None.
Definition sample_installation : installation machine := mk_installation fresh_machine empty_db [].
Definition sample_database : Path := joined sample_root "proactive.db".
Definition sample_session : store_session := mk_session (Ok tt) (Ok tt).
Abbreviation sample_setup raw := (configure_google_sources lexical_root (λ t, t) sample_client sample_database
  (mk_setup_options raw false true) revision_a sample_session 0 sample_installation).

Lemma setups_store_before_they_configure_witness :
  match sample_setup (Some "client"%string), sample_setup None with
  | (Ok _, s), (Err OAuthClientConfigError, s') =>
    all_auth Configured (in_db s) ∧
    in_out s = [HEADLESS_AUTHORIZATION_URL_EVENT +:+ " " +:+ sample_url; HEADLESS_SETUP_SUCCESS_EVENT] ∧
    in_db s' = empty_db
  | _, _ => False
  end.
Proof.
  destruct (sample_setup (Some "client"%string)) as [[[]|e] s] eqn:Hrun; [|vm_compute in Hrun; discriminate].
  destruct (sample_setup None) as [[[]|e] s'] eqn:Hrun'; [vm_compute in Hrun'; discriminate|].
  pose proof (setups_store_before_they_configure (F := sample_flow) lexical_root (λ t, t) sample_client sample_database
    (mk_setup_options (Some "client"%string) false true) revision_a sample_session 0 sample_installation _ s eq_refl Hrun) as [_ [Hall _]].
  pose proof (setups_store_before_they_configure (F := sample_flow) lexical_root (λ t, t) sample_client sample_database
    (mk_setup_options None false true) revision_a sample_session 0 sample_installation _ s' eq_refl Hrun') as [_ Hdb].
  assert (e = OAuthClientConfigError) as -> by (vm_compute in Hrun'; by injection Hrun' as <- _).
  cbv zeta in Hdb. destruct Hdb as [Hdb|(_ & [x Hx] & _)]; [|discriminate Hx].
  split; [exact Hall|]. split; [vm_compute in Hrun; by injection Hrun as <-|exact Hdb].
Defined.

Definition connected_installation : installation machine := (sample_setup (Some "client"%string)).2.
Definition sample_layout : ProactivePaths := mk_paths sample_database (joined sample_root "config.toml").
Abbreviation sample_disconnect := (disconnect_google_sources lexical_root (λ t, t) sample_layout revision_b sample_session 0 0
  connected_installation).
Lemma disconnects_delete_before_they_clear_witness :
  match sample_disconnect with
  | (Ok _, s) => all_auth NotConfigured (in_db s) ∧ ma_keyring (in_secrets s) = []
  | _ => False
  end.
Proof.
  destruct sample_disconnect as [[[]|e] s] eqn:Hrun; [|vm_compute in Hrun; discriminate].
  pose proof (disconnects_delete_before_they_clear (B := machine_backends) lexical_root (λ t, t) sample_layout revision_b
    sample_session 0 0 connected_installation _ s eq_refl Hrun) as [_ [Hall _]].
  split; [exact Hall|]. vm_compute in Hrun. by injection Hrun as <-.
Defined.

(** A reader that would answer anything is not asked. *)
Definition unused_readers (_ : GoogleCredential) : GoogleReaders machine := {|
  read_inbox := raise Transport.InvalidGrantError;
  read_events := raise Transport.InvalidGrantError;
  delete_credentials w := (true, w);
|}.
Abbreviation sample_pass w d :=
  (scheduled_sources (A := open_source_access lexical_root (λ t, t) sample_root sample_root (λ _, revision_c) unused_readers)
    (λ _, None) (mk_read_clock 0 0 0) (w, d)).
Lemma disconnected_directories_are_not_read_witness :
  match sample_disconnect with
  | (Ok _, s) =>
    match sample_pass (in_secrets s) (in_db connected_installation) with
    | (Ok o, _) => skipped o
    | _ => False
    end
  | _ => False
  end.
Proof.
  destruct sample_disconnect as [[[]|e] s] eqn:Hrun; [|vm_compute in Hrun; discriminate].
  destruct (sample_pass (in_secrets s) (in_db connected_installation)) as [[o|e] s2] eqn:Hpass.
  - destruct (disconnected_directories_are_not_read (B := machine_backends) lexical_root (λ t, t) sample_root sample_root
      (λ _, revision_c) unused_readers (λ _, None) sample_layout revision_b sample_session 0 0 connected_installation s
      [Ok o] s2.1 eq_refl eq_refl Hrun) as (_ & _ & Hskip).
    + eapply passes_more; [|eapply pass_scheduled; exact Hpass|constructor].
      left. vm_compute in Hrun. by injection Hrun as <-.
    + apply Forall_inv in Hskip. exact (Hskip o eq_refl).
  - vm_compute in Hrun. injection Hrun as <-. vm_compute in Hpass. discriminate.
Defined.

(** The database cannot be closed after the commit: the setup fails, and the sources are configured. *)
Example unclosed_setups_are_configured :
  let run := configure_google_sources lexical_root (λ t, t) sample_client sample_database
    (mk_setup_options (Some "client"%string) false true) revision_a (mk_session (Ok tt) (Err UnsafeDatabase)) 0
    sample_installation in
  run.1 = Err GoogleSourceConfigurationError ∧
  ss_auth_state <$> sync_states (in_db run.2) = [Configured; Configured].
Proof. vm_compute. split; reflexivity. Qed.
