(* ===== verification/Tools.v ===== *)
(** The delivery tools of the MCP server ([server/situation_tools.py],
    [server/situation_requests.py]) and the runtime they are wired from
    ([situations/runtime.py]): the check that evaluates, leases and reports, its confirmation,
    and the tools that read and move single situations.  A tool call opens the store, runs one
    of these operations and closes it; the protocol is a library's. *)
From S2P Require Import Prelude PyDate PyTime Models SourceSync Situations Delivery StateMachine DeliveryRefinement Attention Responses Runtime Memory IsoTime DeadlineText GmailProjection Config Health Engine Transport GoogleSync Evaluation Frames.
Import Freshness Reader.
#[local] Open Scope Z_scope.

(** ** Errors *)

Inductive tool_exn :=
  | PassRaised (e : pass_exn)
  | ConfigRaised (e : config_failure)
  | SituationRequestError (field reason : text).
Abbreviation tool W := (M (W * db) tool_exn).

(** What a collaborator raises passes through. *)
Definition from_pass {W A} (m : pass W A) : tool W A := λ s,
  match m s with
  | (Ok a, s') => (Ok a, s')
  | (Err e, s') => (Err (PassRaised e), s')
  end.
Definition stored {W A} (m : op A) : tool W A := from_pass (on_store m).

(** ** Requests *)

(** The wake time, as an instant; [datetime.fromisoformat] reads a wall clock and an offset. *)
Definition parse_snooze_until (raw : text) (now : instant) : res tool_exn instant :=
  match datetime_fromisoformat raw with
  | None => Err (SituationRequestError "until" "must be an ISO-8601 timestamp")
  | Some (_, None) => Err (SituationRequestError "until" "must carry a UTC offset")
  | Some (wall, Some offset) =>
    if wall - offset <=? now then Err (SituationRequestError "until" "must be in the future")
    else Ok (wall - offset)
  end.

(** ** The service *)

Definition _MIN_EVALUATION_INTERVAL : timedelta := 5 * US_PER_SECOND.

(** The readings of the clock in one check: of the policy and the answer, of the gate, of the
    credential row and of the collector's row. *)
Record check_clock := mk_check_clock {
  ck_now : instant;
  ck_gate : instant;
  ck_credential : instant;
  ck_check : instant;
}.

(** [not warning.startswith(("gmail:", "calendar:"))]. *)
Definition source_warning (warning : text) : bool :=
  String.prefix "gmail:" warning || String.prefix "calendar:" warning.
Definition unfresh_warning (source : text) (f : SourceFreshness) : list text :=
  if bool_decide (fr_status f = FreshOk) then []
  else [source +:+ ": source is " +:+ freshness_text (fr_status f)]%string.

Definition credential_override (c : CredentialOperationalState) : option SourceAuthorizationState :=
  match cop_state c with
  | CredentialUnavailable => Some AuthCredentialUnavailable
  | CredentialMissing => Some AuthCredentialMissing
  | _ => None
  end.

Section Service.
Context {W : Type}.
Context (parse_datetime : text → option Z) (receipt_digest : text → text).
Context (settings : AttentionSettings) (tz : tzinfo).
(** The evaluation the service was wired with ([EvaluationRunner]). *)
Context (evaluation : pass W EvaluationPass).

(** The pass a check runs when the gate lets it, and the warnings of it that are not about a
    source. *)
Definition check_evaluation (k : check_clock) : tool W (list text) :=
  started ← stored (Gate.try_start (ck_gate k) _MIN_EVALUATION_INTERVAL);
  if negb started then mret [] else
  completed ← from_pass evaluation;
  (match ep_sources completed with
   | SkippedSources SkipCredentialStorageUnavailable =>
     stored (SyncState.record_credential_state (ck_credential k) CredentialUnavailable)
   | SkippedSources SkipMissingCredentials =>
     stored (SyncState.record_credential_state (ck_credential k) CredentialMissing)
   | _ => mret tt
   end);;
  mret (filter (λ w, source_warning w = false) (ep_warnings completed)).

(** The answer of a check, from the reservation and the state of the sources. *)
Definition check_response (evaluation_warnings : list text) (reservation : DeliveryReservation)
    (held_count : Z) (gmail calendar : SourceFreshness) (freshness : GoogleFreshnessResponse)
    (usage : BudgetUsage) : ProactiveCheckResponse :=
  let claimed := rv_situations reservation in
  let receipt_token := if bool_decide (claimed = []) then None else Some (rv_claim_token reservation) in
  let source_warnings := unfresh_warning "gmail" gmail ++ unfresh_warning "calendar" calendar in
  let warnings := unique_in_order (evaluation_warnings ++ source_warnings) in
  mk_check_response
    (negb (bool_decide (claimed = [])) && negb (bool_decide (receipt_token = None)))
    ((λ item, situation_response item (Some (rv_expires_at reservation))) <$> claimed)
    receipt_token freshness (budget_response usage) held_count warnings
    (bool_decide (claimed = []) && (held_count =? 0) && bool_decide (warnings = [])).

(** [claim_token] is the [token_urlsafe(32)] of the reservation. *)
Definition proactive_check (k : check_clock) (claim_token : text) (profile : CollectorProfile)
    : tool W ProactiveCheckResponse :=
  let now := ck_now k in
  evaluation_warnings ← check_evaluation k;
  reservation ← stored (policy_reserve_for_delivery settings tz receipt_digest claim_token now);
  pending ← stored (gets (count_situations (Some Pending)));
  let held_count := Z.max 0 (pending - Z.of_nat (length (rv_situations reservation))) in
  source_health ← stored (gets (health parse_datetime));
  let gmail := evaluate_source_freshness (hs_gmail source_health) now DEFAULT_STALE_AFTER in
  let calendar := evaluate_source_freshness (hs_calendar source_health) now DEFAULT_STALE_AFTER in
  freshness ← stored (lift_time (google_freshness_response gmail calendar (hs_gmail_diagnostics source_health)
    (Some (hs_gmail source_health)) (Some (hs_calendar source_health))
    (Some (hs_gmail_generation source_health)) (Some (hs_calendar_generation source_health)) (Some now)
    (credential_override (hs_credential source_health))));
  usage ← stored (budget_usage settings tz now);
  stored (Collectors.record_check (ck_check k) profile);;
  mret (check_response evaluation_warnings reservation held_count gmail calendar freshness usage).

(** [_situation_response] reads the clock for each row. *)
Definition _situation_response (now : instant) (r : Situation) : tool W SituationResponse :=
  lease ← stored (gets (active_lease_expires_at (id r) (utc_iso now)));
  mret (situation_response r lease).
Fixpoint situation_responses (n : nat) (clock : nat → instant) (rows : list Situation)
    : tool W (list SituationResponse) :=
  match rows with
  | [] => mret []
  | r :: rest =>
    item ← _situation_response (clock n) r;
    items ← situation_responses (S n) clock rest;
    mret (item :: items)
  end.

Definition list_situations (clock : nat → instant) (state : option SituationState) (after_id limit : Z)
    : tool W ListSituationsResponse :=
  page ← stored (Store.list_page state after_id limit);
  items ← situation_responses 0 clock page;
  mret (mk_list_response items
    (if Z.of_nat (length page) =? limit then id <$> last page else None)).

Definition get_situation (now : instant) (situation_id : Z) : tool W SituationResponse :=
  situation ← stored (gets (Reader.get_situation situation_id));
  match situation with
  | None => raise (PassRaised (StoreError (SituationNotFoundError situation_id)))
  | Some r => _situation_response now r
  end.

Definition confirm_status (s : ConfirmationStatus) : ConfirmStatus :=
  match s with Confirmed => AnswerConfirmed | AlreadyConfirmed => AnswerAlreadyConfirmed end.

(** The store's clock gives [confirmed_at]. *)
Definition confirm_delivery (now now_confirm : instant) (receipt_token : text) (profile : CollectorProfile)
    : tool W ConfirmDeliveryResponse := λ s,
  match stored (Delivery.confirm_delivery receipt_digest receipt_token (utc_iso now)) s with
  | (Err (PassRaised (StoreError DeliveryReceiptError)), s') =>
    (Ok (mk_confirm_response AnswerInvalidOrExpired 0), s')
  | (Err e, s') => (Err e, s')
  | (Ok confirmation, s') =>
    (stored (Collectors.record_confirm now_confirm profile);;
     mret (mk_confirm_response (confirm_status (cf_status confirmation)) (cf_delivered_count confirmation))) s'
  end.

Definition acknowledge_situation (now : instant) (situation_id : Z) : tool W SituationResponse :=
  r ← stored (Store.acknowledge_situation now situation_id);
  mret (situation_response r None).

(** Converting the wake time to UTC raises [OverflowError] past the end of the calendar. *)
Definition snooze_situation (now now_store : instant) (situation_id : Z) (until : text)
    : tool W SituationResponse :=
  wake ← lift (parse_snooze_until until now);
  if negb (in_range wake) then raise (PassRaised (StoreError (TimeError OverflowError))) else
  r ← stored (Store.snooze_situation now_store situation_id (Some wake));
  mret (situation_response r None).

Definition mute_situation (now : instant) (situation_id : Z) (scope : MuteScope) : tool W MuteResponse :=
  muted ← stored (match scope with
                  | ScopeInstance => Store.mute_situation now situation_id
                  | ScopeType => Store.mute_situation_type now situation_id
                  end);
  types ← stored (gets muted_types);
  mret (mk_mute_response (situation_response muted None) scope types).
End Service.

(** ** What a check changes *)

(** What a service may rely on of its evaluation: it keeps the store well formed and writes
    none of the delivery tables. *)
Class EvaluationRunner {W} (evaluation : pass W EvaluationPass) : Prop := {
  runner_sound : Preserves (on_db sound_step) evaluation;
  runner_aside {X} (view : db → X) : Aside view → Preserves (on_db (unchanged view)) evaluation;
}.
#[export] Instance lazy_runner {U : Unicode} {T : CharTables} {W} {A : SourceAccess W} dump parse tz detectors
    policy g k pk memory :
  EvaluationRunner (W := W) (evaluate_pass dump parse tz detectors (lazy_sources parse policy g k) pk memory).
Proof.
  split; [|intros X view HA; apply _].
  unfold evaluate_pass, Evaluation.run_once. apply preserves_bind; [apply _|apply provider_sound|].
  intros o. destruct o; apply _.
Qed.

#[export] Instance preserves_from_pass {W A} R (m : pass W A) : Preserves R m → Preserves R (from_pass m).
Proof.
  intros Hm s r s'. unfold from_pass. destruct (m s) as [[a|e] s1] eqn:Hs; intros [= _ <-]; by apply (Hm _ _ _ Hs).
Qed.
#[export] Instance preserves_stored {W A} (Q : relation db) `{!PreOrder Q} (m : op A) :
  Preserves Q m → Preserves (on_db Q) (stored (W := W) m).
Proof. intros Hm. apply preserves_from_pass. apply _. Qed.

#[export] Instance sound_try_start now minimum : Preserves sound_step (Gate.try_start now minimum).
Proof.
  unfold Gate.try_start, lift_time. apply preserves_bind; [apply _..|]. intros cutoff.
  apply preserves_transaction; [apply _|]. apply preserves_bind; [apply _..|]. intros last.
  apply preserves_if; [|apply _]. apply preserves_bind; [apply _| |apply _]. by apply sound_modify_frame.
Qed.
#[export] Instance sound_record_check now profile : Preserves sound_step (Collectors.record_check now profile).
Proof. by apply sound_modify_frame. Qed.

(** A stored operation of a run that returned. *)
Lemma stored_ok {W A} (m : op A) (w : W) d a s :
  stored m (w, d) = (Ok a, s) → ∃ d', s = (w, d') ∧ m d = (Ok a, d').
Proof.
  unfold stored, from_pass, on_store. cbn [fst snd]. destruct (m d) as [[x|e] d1]; [|done].
  intros [= -> <-]. by exists d1.
Qed.

(** Reading the budget changes nothing. *)
Lemma budget_usage_reads settings tz now : Preserves eq (budget_usage settings tz now).
Proof. unfold budget_usage, lift_time. apply _. Qed.

Section Checks.
Context {W : Type}.
Context (parse_datetime : text → option Z) (receipt_digest : text → text).
Context (settings : AttentionSettings) (tz : tzinfo).
Context (evaluation : pass W EvaluationPass).
Abbreviation check_evaluation := (check_evaluation evaluation).
Abbreviation proactive_check := (proactive_check parse_datetime receipt_digest settings tz evaluation).
Abbreviation confirm_delivery := (confirm_delivery (W := W) receipt_digest).

(** The steps of a check that returned. *)
Lemma check_parts k tok profile w d r w' d' :
  proactive_check k tok profile (w, d) = (Ok r, (w', d')) →
  ∃ warnings d1 reservation d2 freshness usage,
    check_evaluation k (w, d) = (Ok warnings, (w', d1)) ∧
    policy_reserve_for_delivery settings tz receipt_digest tok (ck_now k) d1 = (Ok reservation, d2) ∧
    d' = (Collectors.record_check (ck_check k) profile d2).2 ∧
    r = check_response warnings reservation
      (Z.max 0 (count_situations (Some Pending) d2 - Z.of_nat (length (rv_situations reservation))))
      (evaluate_source_freshness (source_state parse_datetime Gmail d2) (ck_now k) DEFAULT_STALE_AFTER)
      (evaluate_source_freshness (source_state parse_datetime Calendar d2) (ck_now k) DEFAULT_STALE_AFTER)
      freshness usage.
Proof.
  unfold Tools.proactive_check. cbv zeta. intros (warnings & [w1 d1] & H1 & H)%bind_ok.
  apply bind_ok in H as (rv & s2 & (d2 & -> & H2)%stored_ok & H).
  apply bind_ok in H as (pending & s3 & (d3 & -> & [= <- <-])%stored_ok & H).
  apply bind_ok in H as (hs & s4 & (d4 & -> & [= <- <-])%stored_ok & H).
  apply bind_ok in H as (fresh & s5 & (d5 & -> & H5)%stored_ok & H).
  apply lift_time_ok in H5 as [_ ->].
  apply bind_ok in H as (usage & s6 & (d6 & -> & H6)%stored_ok & H).
  assert (d2 = d6) as <- by by apply (budget_usage_reads _ _ _ _ _ _ H6).
  apply bind_ok in H as ([] & s7 & (d7 & -> & H7)%stored_ok & H). injection H as <- <- <-.
  exists warnings, d1, rv, d2, fresh, usage. rewrite H7. done.
Qed.

(** What the last step leaves to read. *)
Lemma record_check_keeps k profile d :
  situations (Collectors.record_check k profile d).2 = situations d ∧
  same_deliveries d (Collectors.record_check k profile d).2 ∧
  ∀ s, source_state parse_datetime s (Collectors.record_check k profile d).2 = source_state parse_datetime s d.
Proof. by repeat split. Qed.

Lemma no_pending_rows d : count_situations (Some Pending) d = 0 → ∀ r, r ∈ situations d → state r ≠ Pending.
Proof.
  unfold count_situations. intros Hcount r Hr Hs.
  assert (in_state Pending r = false) as Hno by (by apply (proj1 (sql_count_zero _ _) Hcount)).
  apply (proj2 (in_state_true _ _)) in Hs. congruence.
Qed.

Lemma unfresh_warning_nil source f : unfresh_warning source f = [] → fr_status f = FreshOk.
Proof. unfold unfresh_warning. by destruct (bool_decide_reflect (fr_status f = FreshOk)). Qed.

(** C2. A check that reports all clear may be believed: nothing was leased, no stored situation is
    pending, and both sources are configured, were read without an error last, and succeeded
    within a day of the check. *)
Theorem all_clear_checks_are_true k tok profile w d r w' d' :
  proactive_check k tok profile (w, d) = (Ok r, (w', d')) → pcr_all_clear r = true →
  pcr_situations r = [] ∧ pcr_receipt_token r = None ∧ pcr_warnings r = [] ∧
  (∀ s, s ∈ situations d' → state s ≠ Pending) ∧
  ∀ source, let st := source_state parse_datetime source d' in
    auth_state st = Configured ∧ last_error_code st = None ∧
    ∃ t, last_success_at st = Some t ∧ ck_now k - t < DEFAULT_STALE_AFTER.
Proof.
  intros (warnings & d1 & rv & d2 & fresh & usage & _ & _ & -> & ->)%check_parts.
  destruct (record_check_keeps (ck_check k) profile d2) as (Hst & _ & Hsrc).
  unfold check_response. cbn [pcr_all_clear pcr_situations pcr_receipt_token pcr_warnings].
  rewrite !andb_true_iff, !bool_decide_eq_true. intros [[Hnil Hheld%Z.eqb_eq] Hwarn].
  rewrite Hnil, Hwarn, bool_decide_eq_true_2 by done. rewrite Hnil in Hheld. cbn [length] in Hheld.
  split_and!; [done..| |].
  - rewrite Hst. apply no_pending_rows. pose proof (sql_count_nonneg (state_filter (Some Pending)) (situations d2)).
    unfold count_situations in *. lia.
  - intros source. cbv zeta. rewrite Hsrc. apply (proj1 (freshness_ok_cases _ _)).
    apply unique_in_order_nil, app_nil in Hwarn as [_ [Hg Hc]%app_nil].
    destruct source; by eapply unfresh_warning_nil.
Qed.
(** *** From a check to its confirmation *)

Context {R : EvaluationRunner evaluation}.

Lemma check_evaluation_step k warnings w d w' d' :
  check_evaluation k (w, d) = (Ok warnings, (w', d')) → db_ok d →
  db_ok d' ∧ claims d' = claims d ∧ receipts d' = receipts d ∧ deliveries d' = deliveries d.
Proof.
  intros Hrun Hok.
  assert (∀ Q, PreOrder Q → Preserves (on_db (W := W) Q) evaluation →
    (∀ now minimum, Preserves Q (Gate.try_start now minimum)) →
    (∀ now c, Preserves Q (SyncState.record_credential_state now c)) → Q d d') as Hall.
  { intros Q HQ Hev Hgate Hcred. assert (Preserves (on_db (W := W) Q) (check_evaluation k)) as Hc.
    { unfold Tools.check_evaluation. apply preserves_bind; [apply _..|]. intros started.
      apply preserves_if; [apply _|]. apply preserves_bind; [apply _..|]. intros c.
      apply preserves_bind; [apply _| |intros; apply _]. destruct (ep_sources c) as [|[]]; apply _. }
    by apply (Hc _ _ _ Hrun). }
  split; [|split_and!].
  - apply (Hall sound_step); [apply _|apply runner_sound|apply _..|done].
  - apply (Hall (unchanged claims)); [apply _|by apply runner_aside, _|apply _..].
  - apply (Hall (unchanged receipts)); [apply _|by apply runner_aside, _|apply _..].
  - apply (Hall (unchanged deliveries)); [apply _|by apply runner_aside, _|apply _..].
Qed.

(** What a check leased, and where the store stands when it answers. *)
Lemma check_leases k tok profile w d r w' d' :
  db_ok d → in_range (ck_now k) = true → fresh_token (receipt_digest tok) d →
  proactive_check k tok profile (w, d) = (Ok r, (w', d')) →
  ∃ claim e sel d1 d2,
    dt_add (ck_now k) _DELIVERY_CLAIM_LEASE = Ok e ∧
    pcr_situations r = ((λ item, situation_response item (Some (utc_iso e))) <$> sel) ∧
    pcr_receipt_token r = (if bool_decide (sel = []) then None else Some tok) ∧
    (pcr_requires_confirmation r = true ↔ sel ≠ []) ∧
    text_ltb (dc_delivered_at claim) (utc_iso e) = true ∧
    reserve_for_delivery receipt_digest claim tok (utc_iso e) d1 =
      (Ok (mk_reservation tok sel (utc_iso e)), d2) ∧
    db_ok d1 ∧ fresh_token (receipt_digest tok) d1 ∧ deliveries d1 = deliveries d ∧
    db_ok d' ∧ same_deliveries d2 d' ∧ deliveries d2 = deliveries d1 ∧
    ∀ row, row ∈ sel → row ∈ situations d' ∧ state row = Pending.
Proof.
  intros Hok Hnow Hfresh (warnings & d1 & rv & d2 & fresh & usage & Hev & Hres & -> & ->)%check_parts.
  destruct (check_evaluation_step _ _ _ _ _ _ Hev Hok) as (Hok1 & Hcl & Hre & Hde).
  assert (fresh_token (receipt_digest tok) d1) as Hfresh1 by (by unfold fresh_token; rewrite Hcl, Hre).
  apply policy_reserve_runs in Hres as (claim & e & _ & He & Hat & Hlt & Hrun); [|done].
  assert (db_ok d2) as Hok2 by (by apply (sound_reserve_for_delivery _ _ _ _ _ _ _ Hrun)).
  destruct (record_check_keeps (ck_check k) profile d2) as (Hst & Hsame & _).
  pose proof Hrun as Hrun'. rewrite reserve_run in Hrun' by done.
  destruct rv as [tok' sel e']. injection Hrun' as <- Hsel <- Hd2.
  exists claim, e, sel, d1, d2. unfold check_response. cbn [pcr_requires_confirmation pcr_situations
    pcr_receipt_token rv_situations rv_claim_token rv_expires_at].
  split_and!; try done; [by destruct sel| |by rewrite <- Hd2|].
  - by apply (preserves_snd _ _ (sound_record_check (ck_check k) profile)).
  - rewrite Hst, <- Hsel. intros row (Hrow & Hp & _)%lease_selection_in. by rewrite <- Hd2.
Qed.

(** C1. A check reports what it leased: the rows are pending under its token, the token is given
    exactly when there are some, and nothing has been delivered.  Confirming the token in time
    delivers every reported row and counts them; confirming it again, at any time, answers
    that it was already confirmed and delivers nothing more. *)
Theorem checked_rows_are_confirmed k tok profile w d r w' d' :
  db_ok d → in_range (ck_now k) = true → fresh_token (receipt_digest tok) d →
  proactive_check k tok profile (w, d) = (Ok r, (w', d')) →
  (pcr_requires_confirmation r = true ↔ pcr_situations r ≠ []) ∧
  pcr_receipt_token r = (if bool_decide (pcr_situations r = []) then None else Some tok) ∧
  deliveries d' = deliveries d ∧
  ∃ e, dt_add (ck_now k) _DELIVERY_CLAIM_LEASE = Ok e ∧
    Forall (λ item, sir_delivery item = mk_delivery_response Leased (Some (utc_iso e)) ∧
      ∃ row, row ∈ situations d' ∧ item = situation_response row (Some (utc_iso e))) (pcr_situations r) ∧
    (pcr_situations r ≠ [] → ∀ t t' who, text_ltb (utc_iso t) (utc_iso e) = true →
      ∃ d2, confirm_delivery t t' tok who (w', d') =
          (Ok (mk_confirm_response AnswerConfirmed (Z.of_nat (length (pcr_situations r)))), (w', d2)) ∧
        Forall (λ item, ∃ row, row ∈ situations d2 ∧ id row = sir_id item ∧ state row = Delivered ∧
          delivered_at row = Some (utc_iso t)) (pcr_situations r) ∧
        length (deliveries d2) = (length (deliveries d) + length (pcr_situations r))%nat ∧
        ∀ u u' who', ∃ d3, confirm_delivery u u' tok who' (w', d2) =
          (Ok (mk_confirm_response AnswerAlreadyConfirmed (Z.of_nat (length (pcr_situations r)))), (w', d3)) ∧
          deliveries d3 = deliveries d2).
Proof.
  intros Hok Hnow Hfresh (claim & e & sel & d1 & d2 & He & Hitems & -> & Hreq & Hlt & Hrun & Hok1 & Hfresh1 &
    Hde & Hok' & Hsame & Hd2 & Hin)%check_leases; [|done..].
  assert (pcr_situations r = [] ↔ sel = []) as Hnil by (rewrite Hitems; by destruct sel).
  assert (length (pcr_situations r) = length sel) as Hlen by (by rewrite Hitems, length_fmap).
  rewrite (bool_decide_ext (pcr_situations r = []) (sel = [])), Hnil by done.
  split_and!; [done..|by rewrite (same_history _ _ Hsame), Hd2|exists e]. split_and!; [done| |].
  - rewrite Hitems. apply Forall_fmap, Forall_forall. intros row [Hrow Hp]%Hin. split; [|by exists row].
    unfold situation_response, _situation_delivery_state. cbn. by rewrite Hp.
  - rewrite Hnil, Hlen. intros Hne t t' who Ht.
    destruct (lease_then_confirm receipt_digest claim tok (utc_iso e) (utc_iso t) d1 sel d2 d')
      as (d3 & Hconf & Hrows & Hhist & Hreplay); try done.
    exists (Collectors.record_confirm t' who d3).2. unfold Tools.confirm_delivery, stored, from_pass, on_store.
    cbn [fst snd]. split_and!; [by rewrite Hconf| | |].
    + rewrite Hitems. apply Forall_fmap, Forall_forall. intros row Hrow.
      exists (Sql.deliver_row (utc_iso t) row). split; [by apply Hrows|]. by destruct row.
    + cbn. by rewrite Hhist, length_app, length_fmap, Hde.
    + intros u u' who'. exists (Collectors.record_confirm u' who' (Collectors.record_confirm t' who d3).2).2.
      by rewrite (replay_run _ _ _ _ _ (Hreplay : receipts_replay _ (Collectors.record_confirm t' who d3).2 = _)).
Qed.
End Checks.

(** ** Snoozing *)

(** A row found by its id, after an update that keeps ids. *)
Lemma get_situation_update i p f d :
  (∀ r, id (f r) = id r) →
  Reader.get_situation i (Sql.update_situations p f d).2 = (λ r, if p r then f r else r) <$> Reader.get_situation i d.
Proof. intros Hf. rewrite update_situations_run. apply sql_find_update_key. intros r. by rewrite Hf. Qed.

Lemma snooze_run now i u d r d' :
  db_ok d → Store.snooze_situation now i (Some u) d = (Ok r, d') →
  (∃ before, Reader.get_situation i d = Some before ∧ state before = Delivered) ∧
  Reader.get_situation i d' = Some r ∧ state r = Snoozed ∧ snoozed_until r = Some (utc_iso u).
Proof.
  unfold Store.snooze_situation. intros Hok H. apply (proj1 (transaction_ok _ _ _ _)) in H.
  pose proof (guarded_returns _ _ _ _ _ _ H) as Hget. unfold Store.guarded in H.
  apply bind_ok in H as (n & d2 & Hsql & ([] & d3 & Hcount & Hreq)%bind_ok).
  assert (d' = d3) as ->.
  { unfold Store._require_situation in Hreq. rewrite gets_bind in Hreq. destruct (Reader.get_situation i d3); [|done].
    by injection Hreq. }
  destruct (Z.eqb_spec n 0) as [->|Hn].
  { unfold Store._raise_transition_error in Hcount. rewrite gets_bind in Hcount. by destruct (Reader.get_situation i d2). }
  injection Hcount as <-. unfold Sql.SNOOZE_SITUATION in Hsql.
  assert (d2 = (Sql.update_situations _ _ d).2) as Hd2 by (by rewrite Hsql).
  pose proof Hget as Hrow. rewrite Hd2, get_situation_update in Hget by done. rewrite update_situations_run in Hsql. injection Hsql as Hcount _.
  destruct (Reader.get_situation i d) as [before|] eqn:Hb; [|done].
  destruct (sql_exists (λ r, (id r =? i) && in_state Delivered r) (situations d)) eqn:Hex.
  2: { exfalso. apply Hn. rewrite <- Hcount. apply sql_count_zero. by apply sql_exists_false. }
  apply sql_exists_true in Hex as (r' & Hr' & [Hi Hs]%andb_true_iff).
  apply get_situation_spec in Hb as [Hbin Hbid].
  assert (before = r') as -> by (apply (same_id d); [done..|lia]).
  injection Hget as <-. rewrite Hi, Hs. split; [exists r'; split; [done|by apply in_state_true]|].
  rewrite Hi, Hs in Hrow. done.
Qed.

(** A snooze that is accepted holds a delivered situation until the instant asked for, which is
    in the future, and no longer: the first pass at or after it makes the situation deliverable
    again, and no earlier pass does. *)
Theorem snoozed_rows_wake_on_time {W} now now_store i until (w : W) d item s' :
  db_ok d → snooze_situation now now_store i until (w, d) = (Ok item, s') →
  ∃ wake d' before row, s' = (w, d') ∧ parse_snooze_until until now = Ok wake ∧ now < wake ∧
    Reader.get_situation i d = Some before ∧ state before = Delivered ∧
    Reader.get_situation i d' = Some row ∧ item = situation_response row None ∧ state row = Snoozed ∧
    ∀ t, in_range t = true → ∃ woken, Reader.get_situation i (Store.wake_snoozed t d').2 = Some woken ∧
      state woken = (if wake <=? t then Pending else Snoozed).
Proof.
  intros Hok. unfold snooze_situation. intros (wake & s1 & Hw & H)%bind_ok.
  unfold lift in Hw. injection Hw as Hparse <-.
  destruct (in_range wake) eqn:Hrange; [|done]. cbn [negb] in H.
  apply bind_ok in H as (row & s2 & (d' & -> & Hrun)%stored_ok & [= <- <-]).
  apply (snooze_run _ _ _ _ _ _ Hok) in Hrun as ((before & Hb & Hdel) & Hget & Hst & Hu).
  exists wake, d', before, row. split_and!; try done.
  - revert Hparse. unfold parse_snooze_until. destruct (datetime_fromisoformat until) as [[wall [offset|]]|]; [|done..].
    destruct (Z.leb_spec (wall - offset) now); [done|]. intros [= <-]. done.
  - intros t Ht. unfold Store.wake_snoozed, Sql.WAKE_SNOOZED. rewrite get_situation_update, Hget by done.
    eexists. split; [done|]. unfold Sql.wake_due. rewrite Hu, (proj2 (in_state_true _ _) Hst), utc_iso_leb by done.
    by destruct (wake <=? t).
Qed.

(** ** Wiring *)

(** [SituationRuntime]: one configuration for the engine and the policy. *)
Record SituationRuntime := mk_runtime {
  rt_tz : tzinfo;
  rt_config : ProactiveConfig;
}.

Section Wiring.
Context {U : Unicode} {T : CharTables} {W : Type} {A : SourceAccess W}.
Context (dump_json : SituationEvidence → text) (parse_datetime : text → option Z) (receipt_digest : text → text).
Context (zone_info : text → option tzinfo) (get_localzone : option tzinfo).

Definition from_config (config_path : ConfigFile) (now : instant) : res config_failure SituationRuntime :=
  config ← load_config config_path;
  tz ← resolve_timezone zone_info get_localzone (timezone (attention config)) now;
  mret (mk_runtime tz config).

(** [store.daemon.status().poll_interval or config.daemon.poll_interval]: a zero is falsy. *)
Definition effective_poll_interval (watcher : Daemon.DaemonStatus) (config : ProactiveConfig) : timedelta :=
  match Daemon.st_poll_interval watcher with
  | Some p => if p =? 0 then poll_interval (daemon config) else p
  | None => poll_interval (daemon config)
  end.

(** The service's policy settings, zone and evaluation. *)
Record SituationToolService := mk_service {
  sv_runtime : SituationRuntime;
  sv_evaluation : pass W EvaluationPass;
}.

(** The readings of the clock in one evaluation, and the token of its lease. *)
Record evaluation_clock := mk_evaluation_clock {
  ec_gate : gate_clock;
  ec_read : read_clock;
  ec_pass : pass_clock;
}.

Definition open_situation_service (config_path : ConfigFile) (now now_status : instant) (e : evaluation_clock)
    (memory : memory_db) : tool W SituationToolService :=
  runtime ← lift (match from_config config_path now with Ok r => Ok r | Err x => Err (ConfigRaised x) end);
  watcher ← stored (Daemon.status now_status None);
  let policy := for_poll_interval (effective_poll_interval watcher (rt_config runtime)) in
  mret (mk_service runtime
    (evaluate_pass dump_json parse_datetime (rt_tz runtime) (detectors (rt_config runtime))
       (lazy_sources parse_datetime policy (ec_gate e) (ec_read e)) (ec_pass e) memory)).

(** The call of the tool: [proactive_check_for_profile]. *)
Definition proactive_check_for_profile (config_path : ConfigFile) (now now_status : instant)
    (e : evaluation_clock) (memory : memory_db) (k : check_clock) (claim_token : text) (profile : CollectorProfile)
    : tool W ProactiveCheckResponse :=
  service ← open_situation_service config_path now now_status e memory;
  proactive_check parse_datetime receipt_digest (Config.attention (rt_config (sv_runtime service)))
    (rt_tz (sv_runtime service)) (sv_evaluation service) k claim_token profile.

(** Opening a service reads the store and changes nothing; its evaluation is one a service may
    rely on. *)
Lemma open_service_cases config_path now now_status e memory w d s s' :
  open_situation_service config_path now now_status e memory (w, d) = (Ok s, s') →
  s' = (w, d) ∧ EvaluationRunner (sv_evaluation s).
Proof.
  unfold open_situation_service. intros (rt & s1 & H1 & H)%bind_ok.
  assert (s1 = (w, d)) as -> by (revert H1; unfold lift; by intros [= _ <-]).
  apply bind_ok in H as (st & s2 & (d2 & -> & H2)%stored_ok & [= <- <-]).
  pose proof (status_reads now_status None d) as Hd. rewrite H2 in Hd. cbn [snd] in Hd. subst d2.
  split; [done|]. cbn [sv_evaluation]. apply _.
Qed.
End Wiring.

(** ** Witnesses *)

Definition tool_check (now : instant) : check_clock := mk_check_clock now now now now.
Abbreviation sample_evaluation now := (evaluate_pass (W := google_world) (U := ascii_unicode) (T := hangul_tables)
  (λ _, ""%string) fromisoformat UTC default_detectors
  (lazy_sources (A := sample_access) fromisoformat sample_policy (sample_gate now "lease") sample_read_clock)
  (engine_clock now) empty_memory).
Abbreviation sample_check now d := (proactive_check fromisoformat (λ t, t) default_attention UTC
  (sample_evaluation now) (tool_check now) "token" ProfileFull (pass_world, d)).
(** Both sources were read a minute before the check, and nothing is stored. *)
Definition fresh_db : db :=
  (SyncState.record_success engine_now Calendar None (SyncState.record_success engine_now Gmail None pass_db).2).2.
Lemma all_clear_checks_are_true_witness :
  match sample_check (engine_now + US_PER_MINUTE) fresh_db with
  | (Ok r, (_, d')) => pcr_all_clear r = true ∧
      auth_state (source_state fromisoformat Gmail d') = Configured ∧ (∀ s, s ∈ situations d' → state s ≠ Pending)
  | _ => False
  end.
Proof.
  destruct (sample_check (engine_now + US_PER_MINUTE) fresh_db) as [[r|e] [w' d']] eqn:Hrun.
  - assert (pcr_all_clear r = true) as Hclear by (vm_compute in Hrun; injection Hrun as <- _ _; reflexivity).
    destruct (all_clear_checks_are_true _ _ _ _ _ _ _ _ _ _ _ _ _ Hrun Hclear) as (_ & _ & _ & Hrows & Hsrc).
    split; [exact Hclear|]. split; [exact (proj1 (Hsrc Gmail))|exact Hrows].
  - vm_compute in Hrun. discriminate.
Defined.

(** A first check over an inbox with one waiting thread leases it, and its confirmation delivers it. *)
Lemma checked_rows_are_confirmed_witness :
  match sample_check engine_now pass_db with
  | (Ok r, (w', d')) => length (pcr_situations r) = 1%nat ∧ pcr_receipt_token r = Some "token"%string ∧
      ∃ d2, confirm_delivery (λ t, t) (engine_now + US_PER_MINUTE) engine_now "token" ProfileFull (w', d') =
        (Ok (mk_confirm_response AnswerConfirmed 1), (w', d2))
  | _ => False
  end.
Proof.
  destruct (sample_check engine_now pass_db) as [[r|e] [w' d']] eqn:Hrun.
  - assert (length (pcr_situations r) = 1%nat) as Hone by (vm_compute in Hrun; injection Hrun as <- _ _; reflexivity).
    assert (claims pass_db = [] ∧ receipts pass_db = []) as [Hcl Hre] by (split; vm_compute; reflexivity).
    assert (fresh_token "token" pass_db) as Hfresh
      by (unfold fresh_token; rewrite Hcl, Hre; split; intros c []%elem_of_nil).
    destruct (checked_rows_are_confirmed fromisoformat (λ t, t) default_attention UTC (sample_evaluation engine_now)
      (tool_check engine_now) "token" ProfileFull pass_world pass_db r w' d' pass_db_ok eq_refl Hfresh Hrun)
      as (_ & Htok & _ & e & He & _ & Hconf).
    assert (pcr_situations r ≠ []) as Hne by (by intros Hnil; rewrite Hnil in Hone).
    rewrite bool_decide_eq_false_2 in Htok by exact Hne. injection He as <-.
    destruct (Hconf Hne (engine_now + US_PER_MINUTE) engine_now ProfileFull eq_refl) as (d2 & Hd2 & _).
    rewrite Hone in Hd2. split; [exact Hone|]. split; [exact Htok|]. by exists d2.
  - vm_compute in Hrun. discriminate.
Defined.

(** A delivered row, snoozed for two hours, sleeps for one and is pending after three. *)
Definition snoozable_db : db := (Store.mark_delivered engine_now [1] sample_db).2.
Lemma snoozable_db_ok : db_ok snoozable_db.
Proof. apply (preserves_snd _ _ (sound_mark_delivered engine_now [1])). exact sample_db_ok. Qed.
Lemma snoozed_rows_wake_on_time_witness :
  match snooze_situation engine_now engine_now 1 "2026-03-13T23:00:00+09:00" (tt, snoozable_db) with
  | (Ok item, (_, d')) => sir_state item = Snoozed ∧
      state <$> Reader.get_situation 1 (Store.wake_snoozed (engine_now + US_PER_HOUR) d').2 = Some Snoozed ∧
      state <$> Reader.get_situation 1 (Store.wake_snoozed (engine_now + 3 * US_PER_HOUR) d').2 = Some Pending
  | _ => False
  end.
Proof.
  destruct (snooze_situation engine_now engine_now 1 "2026-03-13T23:00:00+09:00" (tt, snoozable_db)) as [[item|e] s'] eqn:Hrun.
  - destruct (snoozed_rows_wake_on_time engine_now engine_now 1 "2026-03-13T23:00:00+09:00" tt snoozable_db item s'
      snoozable_db_ok Hrun) as (wake & d' & before & row & -> & Hwake & _ & _ & _ & _ & -> & Hst & Hat).
    injection Hwake as <-. split; [exact Hst|].
    destruct (Hat (engine_now + US_PER_HOUR) eq_refl) as (r1 & -> & Hr1).
    destruct (Hat (engine_now + 3 * US_PER_HOUR) eq_refl) as (r2 & -> & Hr2).
    cbn [fmap option_fmap option_map]. rewrite Hr1, Hr2. split; reflexivity.
  - vm_compute in Hrun. discriminate.
Defined.
