(* ===== verification/ToolCalls.v ===== *)
(** The delivery tools as calls ([server/situation_tools.py], the module's functions): each opens
    the store, wires a service from the configuration, runs one operation of [Tools] and closes
    the store.  Executions of any sequence of them, and the pages of a listing. *)
From S2P Require Import Prelude PyDate PyTime Models SourceSync Situations Delivery StateMachine DeliveryRefinement Attention Responses Runtime Memory IsoTime DeadlineText GmailProjection Config Health Engine Transport GoogleSync Evaluation Frames Tools.
Import Freshness Reader.
#[local] Open Scope Z_scope.

(** ** The calls *)

Section Calls.
Context {U : Unicode} {T : CharTables} {W : Type} {A : SourceAccess W}.
Context (dump_json : SituationEvidence → text) (parse_datetime : text → option Z) (receipt_digest : text → text).
Context (zone_info : text → option tzinfo) (get_localzone : option tzinfo).

(** What the opening of a call reads: the configuration file, the clock and the memories. *)
Record opening := mk_opening {
  op_config : ConfigFile;
  op_now : instant;
  op_status : instant;
  op_evaluation : evaluation_clock;
  op_memory : memory_db;
}.

(** [_ToolCall.__enter__]: the service of one call, for the body of the [with] statement.  An
    error of the body leaves the store as the body left it. *)
Definition ToolCall {X} (o : opening) (body : SituationToolService (W := W) → tool W X) : tool W X :=
  service ← open_situation_service dump_json parse_datetime zone_info get_localzone (op_config o) (op_now o)
    (op_status o) (op_evaluation o) (op_memory o);
  body service.

(** The tools, each with the readings of the clock its operation makes; a check also with the
    token of its lease. *)
Inductive tool_request :=
  | ProactiveCheck (k : check_clock) (claim_token : text) (profile : CollectorProfile)
  | ListSituations (clock : nat → instant) (state : option SituationState) (after_id limit : Z)
  | GetSituation (now : instant) (situation_id : Z)
  | ConfirmDelivery (now now_confirm : instant) (receipt_token : text) (profile : CollectorProfile)
  | AcknowledgeSituation (now : instant) (situation_id : Z)
  | SnoozeSituation (now now_store : instant) (situation_id : Z) (until : text)
  | MuteSituation (now : instant) (situation_id : Z) (scope : MuteScope).
Inductive tool_answer :=
  | CheckAnswer (r : ProactiveCheckResponse)
  | ListAnswer (r : ListSituationsResponse)
  | SituationAnswer (r : SituationResponse)
  | ConfirmAnswer (r : ConfirmDeliveryResponse)
  | MuteAnswer (r : MuteResponse).

(** The body of each tool's [with] statement. *)
Definition tool_body (service : SituationToolService (W := W)) (q : tool_request) : tool W tool_answer :=
  match q with
  | ProactiveCheck k token profile =>
    r ← Tools.proactive_check parse_datetime receipt_digest (Config.attention (rt_config (sv_runtime service)))
      (rt_tz (sv_runtime service)) (sv_evaluation service) k token profile;
    mret (CheckAnswer r)
  | ListSituations clock st after_id limit => r ← Tools.list_situations clock st after_id limit; mret (ListAnswer r)
  | GetSituation now i => r ← Tools.get_situation now i; mret (SituationAnswer r)
  | ConfirmDelivery now now' token profile =>
    r ← Tools.confirm_delivery receipt_digest now now' token profile; mret (ConfirmAnswer r)
  | AcknowledgeSituation now i => r ← Tools.acknowledge_situation now i; mret (SituationAnswer r)
  | SnoozeSituation now now' i until => r ← Tools.snooze_situation now now' i until; mret (SituationAnswer r)
  | MuteSituation now i scope => r ← Tools.mute_situation now i scope; mret (MuteAnswer r)
  end.
Definition run_tool (o : opening) (q : tool_request) : tool W tool_answer := ToolCall o (λ service, tool_body service q).

(** An execution: the store after any number of calls, each of which may fail. *)
Definition run_tools (calls : list (opening * tool_request)) (s : W * db) : W * db :=
  foldl (λ s c, (run_tool c.1 c.2 s).2) s calls.
End Calls.

(** ** What the calls preserve *)

Section Soundness.
Context {W : Type}.
Context (parse_datetime : text → option Z) (receipt_digest : text → text).
Context (settings : AttentionSettings) (tz : tzinfo).
Context (evaluation : pass W EvaluationPass) {R : EvaluationRunner evaluation}.

#[export] Instance sound_lift_time {A} (x : res time_error A) : Preserves sound_step (lift_time x : op A).
Proof. unfold lift_time. apply _. Qed.

#[export] Instance sound_check_evaluation k : Preserves (on_db (W := W) sound_step) (check_evaluation evaluation k).
Proof.
  unfold check_evaluation. apply preserves_bind; [apply _..|]. intros started. apply preserves_if; [apply _|].
  apply preserves_bind; [apply _|apply preserves_from_pass, runner_sound|]. intros completed.
  apply preserves_bind; [apply _| |intros; apply _]. destruct (ep_sources completed) as [|[]]; apply _.
Qed.

#[export] Instance sound_policy_reserve dg token now :
  Preserves sound_step (policy_reserve_for_delivery settings tz dg token now).
Proof. unfold policy_reserve_for_delivery, lift_time. apply _. Qed.
#[export] Instance sound_budget_usage now : Preserves sound_step (budget_usage settings tz now).
Proof. unfold budget_usage, lift_time. apply _. Qed.
#[export] Instance sound_check k token profile :
  Preserves (on_db (W := W) sound_step) (proactive_check parse_datetime receipt_digest settings tz evaluation k token profile).
Proof. unfold Tools.proactive_check. cbv zeta. apply _. Qed.
#[export] Instance sound_record_confirm now profile : Preserves sound_step (Collectors.record_confirm now profile).
Proof. by apply sound_modify_frame. Qed.
#[export] Instance sound_confirm_tool now now' token profile :
  Preserves (on_db (W := W) sound_step) (confirm_delivery receipt_digest now now' token profile).
Proof.
  intros s r s'. unfold confirm_delivery.
  destruct (stored (Delivery.confirm_delivery receipt_digest token (utc_iso now)) s) as [a s1] eqn:Hc.
  pose proof (preserves_stored sound_step _ _ _ _ _ Hc) as H1.
  destruct a as [c|e].
  - set (m := mbind _ _). intros Hr. etrans; [exact H1|].
    assert (Preserves (on_db sound_step) m) as Hm by apply _. by apply (Hm _ _ _ Hr).
  - destruct e as [[]| |]; repeat case_match; by intros [= _ <-].
Qed.
#[export] Instance sound_situation_response now row : Preserves (on_db (W := W) sound_step) (_situation_response now row).
Proof. unfold _situation_response. apply _. Qed.
#[export] Instance sound_situation_responses clock rows n :
  Preserves (on_db (W := W) sound_step) (situation_responses n clock rows).
Proof. revert n. induction rows as [|row rows IH]; intros n; apply _. Qed.
#[export] Instance sound_list_page state after_id limit : Preserves sound_step (Store.list_page state after_id limit).
Proof. unfold Store.list_page. apply _. Qed.
#[export] Instance sound_acknowledge_tool now i : Preserves (on_db (W := W) sound_step) (Tools.acknowledge_situation now i).
Proof. unfold Tools.acknowledge_situation. apply _. Qed.
#[export] Instance sound_snooze_tool now now' i until : Preserves (on_db (W := W) sound_step) (Tools.snooze_situation now now' i until).
Proof. unfold Tools.snooze_situation. apply _. Qed.
#[export] Instance sound_mute_tool now i scope : Preserves (on_db (W := W) sound_step) (Tools.mute_situation now i scope).
Proof. unfold Tools.mute_situation. destruct scope; apply _. Qed.
End Soundness.

Section Executions.
Context {U : Unicode} {T : CharTables} {W : Type} {A : SourceAccess W}.
Context (dump_json : SituationEvidence → text) (parse_datetime : text → option Z) (receipt_digest : text → text).
Context (zone_info : text → option tzinfo) (get_localzone : option tzinfo).
Abbreviation run_tool := (run_tool (W := W) dump_json parse_datetime receipt_digest zone_info get_localzone).
Abbreviation run_tools := (run_tools (W := W) dump_json parse_datetime receipt_digest zone_info get_localzone).

#[export] Instance sound_run_tool o q : Preserves (on_db sound_step) (run_tool o q).
Proof.
  unfold ToolCalls.run_tool, ToolCall. apply preserves_bind_post; [apply _|unfold open_situation_service; apply _|].
  intros [w d] service s1 Hopen r s'. apply open_service_cases in Hopen as [-> HR].
  assert (Preserves (on_db sound_step) (tool_body parse_datetime receipt_digest service q)) as Hq; [|apply Hq].
  destruct q; cbn [tool_body]; apply _.
Qed.

Lemma sound_run_tools calls s : on_db sound_step s (run_tools calls s).
Proof.
  revert s. induction calls as [|[o q] calls IH]; intros s; [reflexivity|].
  cbn [foldl ToolCalls.run_tools fst snd]. etrans; [|apply IH]. cbn [fst snd].
  eapply sound_run_tool, surjective_pairing.
Qed.

(** C6. Over any sequence of tool calls, whatever their arguments, the readings of the clock, the
    configuration and the world they meet, and whether they answer or fail: the database stays
    well formed, no situation is lost or changes its identity, each moves only along the edges of
    the state machine, one that was acknowledged or muted stays so, and the delivery history, the
    receipts and the mutes are append-only. *)
Theorem tool_calls_follow_the_state_machine calls w d :
  db_ok d →
  let d' := (run_tools calls (w, d)).2 in
  db_ok d' ∧
  (∀ r, r ∈ situations d → ∃ r', r' ∈ situations d' ∧ row_step r r' ∧
    (state r = Acknowledged ∨ state r = Muted → state r' = state r)) ∧
  deliveries d `prefix_of` deliveries d' ∧ receipts d `prefix_of` receipts d' ∧ type_mutes d `prefix_of` type_mutes d'.
Proof.
  intros Hok d'. destruct (sound_run_tools calls (w, d) Hok) as [Hok' [(kept & new & Heq & Hsteps) ? ? ?]].
  split; [done|]. split; [|done]. intros r [i Hi]%list_elem_of_lookup.
  destruct (Forall2_lookup_l _ _ _ _ _ Hsteps Hi) as (r' & Hr' & Hstep).
  exists r'. split; [|split; [done|]].
  - subst d'. rewrite Heq. apply elem_of_app. left. by eapply list_elem_of_lookup_2.
  - destruct Hstep. by apply terminal_stays.
Qed.
End Executions.

(** ** The pages of a listing *)

Section Pages.
Context {W : Type}.

(** A client that asks for the next page while the answer names one; the clock is read once for
    every row of every page. *)
Fixpoint situation_pages (fuel : nat) (clock : nat → nat → instant) (st : option SituationState) (after_id limit : Z)
    : tool W (list SituationResponse) :=
  match fuel with
  | O => mret []
  | S fuel =>
    answer ← Tools.list_situations (clock fuel) st after_id limit;
    match lsr_next_after_id answer with
    | None => mret (lsr_items answer)
    | Some cursor =>
      rest ← situation_pages fuel clock st cursor limit;
      mret (lsr_items answer ++ rest)
    end
  end.

(** The rows a client pages through. *)
Definition listing (st : option SituationState) (after_id : Z) (d : db) : list Situation :=
  order_by by_id (sql_select (λ r, state_filter st r && (after_id <? id r)) (situations d)).
(** What a row reads as, with a lease or without one. *)
Definition shows (item : SituationResponse) (row : Situation) : Prop := ∃ lease, item = situation_response row lease.

Lemma situation_responses_run n clock rows (w : W) d :
  ∃ items, situation_responses n clock rows (w, d) = (Ok items, (w, d)) ∧ Forall2 shows items rows.
Proof.
  revert n. induction rows as [|row rows IH]; intros n; [by exists []|].
  destruct (IH (S n)) as (items & Hrun & Hitems).
  exists (situation_response row (active_lease_expires_at (id row) (utc_iso (clock n)) d) :: items).
  split; [|constructor; [by eexists|done]].
  cbn [situation_responses]. erewrite bind_run; [|done]. erewrite bind_run; [|exact Hrun]. done.
Qed.

Lemma listing_above st after_id d cursor : cursor ∈ listing st after_id d → after_id < id cursor.
Proof. unfold listing. rewrite elem_of_order_by, elem_of_sql_select. lia. Qed.
Lemma listing_after st after_id before cursor after d :
  NoDup (ids d) → listing st after_id d = before ++ cursor :: after → listing st (id cursor) d = after.
Proof.
  intros Hids Hl. assert (after_id < id cursor) as Hc by (eapply listing_above; rewrite Hl; set_solver).
  rewrite <- (order_by_after by_id _ _ _ _ Hl).
  - unfold listing. f_equal. rewrite <- sql_select_and. unfold sql_select. apply list_filter_iff. intros r.
    unfold by_id, keys_leb. cbn. destruct (state_filter st r); cbn; [|by rewrite andb_false_r].
    destruct (Z.compare_spec (id r) (id cursor)); cbn; lia.
  - apply (NoDup_fmap_1 (λ k, match k with [KInt z] => z | _ => 0 end)). rewrite <- list_fmap_compose.
    apply (NoDup_fmap_select id _ _ Hids).
Qed.
Lemma list_situations_run clock st after_id limit (w : W) d :
  0 ≤ after_id → 1 ≤ limit ≤ Store.MAX_SITUATION_PAGE_SIZE →
  let page := take (Z.to_nat limit) (listing st after_id d) in
  ∃ items, Forall2 shows items page ∧
    Tools.list_situations clock st after_id limit (w, d) =
      (Ok (mk_list_response items (if Z.of_nat (length page) =? limit then id <$> last page else None)), (w, d)).
Proof.
  intros Hafter Hlimit page. destruct (situation_responses_run 0 clock page w d) as (items & Hrun & Hitems).
  exists items. split; [done|]. unfold Tools.list_situations.
  erewrite bind_run with (a := page) (s' := (w, d)).
  - erewrite bind_run; [|exact Hrun]. done.
  - unfold stored, from_pass, on_store, Store.list_page. cbn [fst snd].
    replace (_ || _) with false by lia. done.
Qed.

Lemma situation_pages_rest fuel clock st after_id limit (w : W) d :
  NoDup (ids d) → 0 ≤ after_id → 1 ≤ limit ≤ Store.MAX_SITUATION_PAGE_SIZE →
  (length (listing st after_id d) < fuel)%nat →
  ∃ items, Forall2 shows items (listing st after_id d) ∧
    situation_pages fuel clock st after_id limit (w, d) = (Ok items, (w, d)).
Proof.
  intros Hids. revert after_id. induction fuel as [|fuel IH]; intros after_id Hafter Hlimit Hfuel; [lia|].
  destruct (list_situations_run (clock fuel) st after_id limit w d Hafter Hlimit) as (items & Hitems & Hrun).
  cbn [situation_pages]. erewrite bind_run; [|exact Hrun]. cbn [lsr_next_after_id lsr_items].
  set (rows := listing st after_id d) in *. rewrite length_take.
  destruct (Z.eqb_spec (Z.of_nat (Z.to_nat limit `min` length rows)) limit) as [Hfull|Hshort].
  - destruct (take_snoc_cursor limit rows) as (page & cursor & Htake & Hsplit); [lia..|].
    rewrite Htake in Hitems |- *. rewrite last_snoc. cbn [fmap option_fmap option_map].
    pose proof (listing_after _ _ _ _ _ _ Hids Hsplit) as Hrest.
    assert (after_id < id cursor) as Hcursor by (apply (listing_above st _ d); fold rows; rewrite Hsplit; set_solver).
    destruct (IH (id cursor)) as (rest & Hrests & Hrun'); [lia|done| |].
    + rewrite Hrest. apply (f_equal length) in Hsplit. rewrite length_app in Hsplit. simpl in Hsplit. lia.
    + exists (items ++ rest). split.
      * rewrite Hsplit. change (page ++ ?x :: ?l) with (page ++ [x] ++ l). rewrite (assoc_L (++)).
        apply Forall2_app; [done|]. by rewrite <- Hrest.
      * by rewrite (bind_run _ _ _ _ _ Hrun').
  - exists items. rewrite take_ge in Hitems by lia. done.
Qed.

(** Following [next_after_id] of [list_situations] from the first page to the last, with any
    page size, a client receives every stored situation of the state asked for exactly once, in the
    order of ids, and stops; nothing is delivered or changed by the reading. *)
Theorem situation_pages_enumerate fuel clock st limit (w : W) d :
  NoDup (ids d) → 1 ≤ limit ≤ Store.MAX_SITUATION_PAGE_SIZE → (length (situations d) < fuel)%nat →
  ∃ items, Forall2 shows items (order_by by_id (sql_select (λ r, state_filter st r && (0 <? id r)) (situations d))) ∧
    situation_pages fuel clock st 0 limit (w, d) = (Ok items, (w, d)).
Proof.
  intros Hids Hlimit Hfuel. apply situation_pages_rest; [done..|].
  unfold listing. rewrite (Permutation_length (order_by_permutation by_id _)).
  unfold sql_select. pose proof (length_filter (λ r, state_filter st r && (0 <? id r) = true) (situations d)). lia.
Qed.
End Pages.

(** ** Witnesses *)

(** A check leases the waiting thread, its confirmation delivers it, and the user closes it. *)
Definition sample_opening (now : instant) : opening :=
  mk_opening FileMissing now now
    (mk_evaluation_clock (sample_gate now "lease") sample_read_clock (engine_clock now)) empty_memory.
Definition sample_calls : list (opening * tool_request) :=
  [(sample_opening engine_now, ProactiveCheck (tool_check engine_now) "token" ProfileFull);
   (sample_opening (engine_now + US_PER_MINUTE),
     ConfirmDelivery (engine_now + US_PER_MINUTE) (engine_now + US_PER_MINUTE) "token" ProfileFull);
   (sample_opening (engine_now + US_PER_HOUR), AcknowledgeSituation (engine_now + US_PER_HOUR) 1)].
Abbreviation run_sample := (run_tools (W := google_world) (U := ascii_unicode) (T := hangul_tables) (A := sample_access)
  (λ _, ""%string) fromisoformat (λ t, t) (λ _, None) (Some UTC)).
Lemma tool_calls_follow_the_state_machine_witness :
  state <$> situations (run_sample sample_calls (pass_world, pass_db)).2 = [Acknowledged] ∧
  db_ok (run_sample sample_calls (pass_world, pass_db)).2.
Proof.
  split; [vm_compute; reflexivity|].
  apply (tool_calls_follow_the_state_machine (U := ascii_unicode) (T := hangul_tables) (A := sample_access)
    (λ _, ""%string) fromisoformat (λ t, t) (λ _, None) (Some UTC) sample_calls pass_world pass_db pass_db_ok).
Defined.

Definition page_clock : nat → nat → instant := λ _ _, engine_now.
Lemma situation_pages_enumerate_witness :
  match situation_pages 9 page_clock None 0 1 (tt, sample_db) with
  | (Ok items, s) => s = (tt, sample_db) ∧ length items = length (situations sample_db)
  | _ => False
  end.
Proof.
  destruct (situation_pages_enumerate 9 page_clock None 1 tt sample_db (ok_ids _ sample_db_ok)) as (items & Hitems & Hrun).
  - vm_compute. split; discriminate.
  - vm_compute. lia.
  - rewrite Hrun. split; [reflexivity|]. rewrite (Forall2_length _ _ _ Hitems). vm_compute. reflexivity.
Defined.
