(* ===== verification/Status.v ===== *)
(** The status document ([server/status.py]): database, sources, daemon, notifications, budget
    and collectors, from persisted state alone.  The connection's settings and the platform's
    notifier are observed by code the document only quotes. *)
From stdpp Require Import pretty.
From S2P Require Import Prelude PyDate PyTime Models SourceSync Situations Attention Responses Fallback Runtime DeadlineText Config Health Engine Transport GoogleSync Evaluation Frames Tools.
Import Freshness.
#[local] Open Scope Z_scope.

(** ** The document *)

(** What [store.status()] observes of the connection. *)
Record DatabaseStatus := mk_database_status {
  dbs_path : text;
  dbs_journal_mode : text;
  dbs_busy_timeout : Z;
  dbs_migration_version : Z;
}.
Inductive DatabaseHealth := HealthStarting | HealthReady | HealthMaintenance | HealthReadOnly | HealthUnavailable.
Record DatabaseStatusResponse := mk_database_response {
  dbr_health : DatabaseHealth;
  dbr_observed : DatabaseStatus;
}.
Record DaemonDiagnosticResponse := mk_daemon_diagnostic {
  ddr_phase : DaemonFailurePhase;
  ddr_code : DaemonFailureCode;
}.
(** [status] is [running] or [not_running]; [desired_state] is always [enabled]. *)
Record DaemonStatusResponse := mk_daemon_response {
  dsr_running : bool;
  dsr_liveness : Daemon.DaemonLiveness;
  dsr_pid : option Z;
  dsr_started_at : option text;
  dsr_heartbeat_at : option text;
  dsr_cycle_count : Z;
  dsr_mode : option DaemonRunMode;
  dsr_last_run_state : DaemonLastRunState;
  dsr_last_failure : option DaemonDiagnosticResponse;
  dsr_last_failure_at : option text;
  dsr_last_completed_at : option text;
}.
Inductive FallbackState := StateDisabled | StateUnavailable | StateHealthy | StateDegraded.
#[export] Instance FallbackState_eq_dec : EqDecision FallbackState.
Proof. solve_decision. Defined.
Record FallbackStatusResponse := mk_fallback_response {
  fsr_state : FallbackState;
  fsr_history_degraded : bool;
  fsr_enabled : bool;
  fsr_claimed : Z;
  fsr_sent : Z;
  fsr_failed : Z;
  fsr_failure_codes : list FallbackFailureCode;
}.
Record CollectorStatusResponse := mk_collector_response {
  csr_state : Collectors.CollectorState;
  csr_last_check_at : option text;
  csr_last_confirm_at : option text;
}.
Record CollectorsStatusResponse := mk_collectors_response {
  cls_full : CollectorStatusResponse;
  cls_scheduled : CollectorStatusResponse;
}.
Inductive SystemHealth := SystemOk | SystemDegraded.
#[export] Instance SystemHealth_eq_dec : EqDecision SystemHealth.
Proof. solve_decision. Defined.
Record StatusResponse := mk_status_response {
  str_overall : SystemHealth;
  str_system_health : SystemHealth;
  str_delivery_readiness : Collectors.CollectorState;
  str_database : DatabaseStatusResponse;
  str_google : GoogleFreshnessResponse;
  str_daemon : DaemonStatusResponse;
  str_fallback : FallbackStatusResponse;
  str_budget : BudgetResponse;
  str_deliveries : Z;
  str_collectors : CollectorsStatusResponse;
  str_warnings : list text;
}.

(** ** Warnings *)

(** [_SOURCE_WARNINGS[status].format(source=source)]. *)
Definition _SOURCE_WARNINGS (status : SourceFreshnessStatus) (source : text) : text :=
  match status with
  | FreshOk => ""
  | FreshNeedsReauth =>
    "Google " +:+ source +:+ " requires reauthentication; run proactive-mcp setup --reauth."
  | FreshNotConfigured => "Google " +:+ source +:+ " is not configured; run proactive-mcp setup."
  | NeverSynced => "Google " +:+ source +:+ " has not completed a read sync."
  | Stale => "Google " +:+ source +:+ " data is stale."
  | FreshError => "Google " +:+ source +:+ " read sync failed."
  end%string.
Definition _source_warnings (google : GoogleFreshnessResponse) : list text :=
  filter (λ w, w ≠ ""%string)
    [_SOURCE_WARNINGS (sfr_status (gfr_source (ggl_gmail google))) "Gmail";
     _SOURCE_WARNINGS (sfr_status (ggl_calendar google)) "Calendar"].

Definition _daemon_warnings (liveness : Daemon.DaemonLiveness) : list text :=
  match liveness with
  | Daemon.LiveRunning => []
  | Daemon.LiveNeverStarted => ["Daemon has never run; periodic source sync is unavailable."]
  | Daemon.LiveStopped => ["Daemon is stopped; periodic source sync is unavailable."]
  | Daemon.LiveStale => ["Daemon heartbeat is stale; periodic source sync may lag."]
  end%string.

Definition _fallback_warnings (fallback : FallbackStatusResponse) : list text :=
  if bool_decide (fsr_state fallback = StateDisabled) then [] else
  (if bool_decide (fsr_state fallback = StateUnavailable)
   then ["OS notification fallback is enabled but unavailable."%string] else []) ++
  (if fsr_history_degraded fallback
   then ["OS notification fallback failed for " +:+ pretty (fsr_failed fallback) +:+ " situation(s)."]%string
   else []).

(** ** Parts *)

Definition _daemon_response (st : Daemon.DaemonStatus) : DaemonStatusResponse :=
  mk_daemon_response
    match Daemon.st_liveness st with Daemon.LiveRunning => true | _ => false end
    (Daemon.st_liveness st) (Daemon.st_pid st) (Daemon.st_started_at st) (Daemon.st_heartbeat_at st)
    (Daemon.st_cycle_count st) (Daemon.st_mode st) (Daemon.st_last_run_state st)
    match Daemon.st_last_failure_phase st, Daemon.st_last_failure_code st with
    | Some phase, Some code => Some (mk_daemon_diagnostic phase code)
    | _, _ => None
    end
    (Daemon.st_last_failure_at st) (Daemon.st_last_completed_at st).

Definition _delivery_readiness (collectors : CollectorsStatusResponse) : Collectors.CollectorState :=
  match csr_state (cls_full collectors), csr_state (cls_scheduled collectors) with
  | Collectors.Active, _ | _, Collectors.Active => Collectors.Active
  | Collectors.CollectorStale, _ | _, Collectors.CollectorStale => Collectors.CollectorStale
  | _, _ => Collectors.NeverSeen
  end.

(** What the store raises passes through. *)
Definition read_store {A} (m : op A) : M db tool_exn A := λ d,
  match m d with (Ok a, d') => (Ok a, d') | (Err e, d') => (Err (PassRaised (StoreError e)), d') end.

Section Status.
(** [notification_available()] and the stamp of each reading of the clock. *)
Context (notification_available : bool) (parse_datetime : text → option Z).
Context (zone_info : text → option tzinfo) (get_localzone : option tzinfo).

Definition _fallback_status (enabled : bool) : op FallbackStatusResponse :=
  s ← gets summary;
  let degraded := negb (fs_failed s =? 0) in
  let state := if negb enabled then StateDisabled
               else if negb notification_available then StateUnavailable
               else if degraded then StateDegraded else StateHealthy in
  mret (mk_fallback_response state degraded enabled (fs_claimed s) (fs_sent s) (fs_failed s) (fs_failure_codes s)).

Definition collector_response (st : Collectors.CollectorStatus) : CollectorStatusResponse :=
  mk_collector_response (Collectors.cs_state st) (Collectors.cs_last_check_at st) (Collectors.cs_last_confirm_at st).
Definition _collectors_status (now_full now_scheduled : instant) : op CollectorsStatusResponse :=
  full ← Collectors.collector_status now_full ProfileFull Collectors.DEFAULT_COLLECTOR_STALE_AFTER;
  scheduled ← Collectors.collector_status now_scheduled ProfileScheduled Collectors.DEFAULT_COLLECTOR_STALE_AFTER;
  mret (mk_collectors_response (collector_response full) (collector_response scheduled)).

(** The readings of the clock: of the document, the runtime, the two reads of the daemon's row
    and the two collectors. *)
Record status_clock := mk_status_clock {
  sk_now : instant;
  sk_runtime : instant;
  sk_poll : instant;
  sk_daemon : instant;
  sk_full : instant;
  sk_scheduled : instant;
}.

Definition status_response (k : status_clock) (config_path : ConfigFile) (observed : DatabaseStatus)
    : M db tool_exn StatusResponse :=
  let now := sk_now k in
  runtime ← lift (match from_config zone_info get_localzone config_path (sk_runtime k) with
                  | Ok r => Ok r | Err x => Err (ConfigRaised x) end);
  sources ← gets (health parse_datetime);
  google ← read_store (lift_time (google_freshness_response
    (evaluate_source_freshness (hs_gmail sources) now DEFAULT_STALE_AFTER)
    (evaluate_source_freshness (hs_calendar sources) now DEFAULT_STALE_AFTER)
    (hs_gmail_diagnostics sources) (Some (hs_gmail sources)) (Some (hs_calendar sources))
    (Some (hs_gmail_generation sources)) (Some (hs_calendar_generation sources)) (Some now)
    (credential_override (hs_credential sources))));
  watcher ← read_store (Daemon.status (sk_poll k) None);
  let policy := for_poll_interval (effective_poll_interval watcher (rt_config runtime)) in
  watcher ← read_store (Daemon.status (sk_daemon k) (Some (lp_daemon_stale_after policy)));
  notifications ← read_store (_fallback_status (fset_enabled (fallback (rt_config runtime))));
  seen ← read_store (_collectors_status (sk_full k) (sk_scheduled k));
  let warnings := _source_warnings google ++ _daemon_warnings (Daemon.st_liveness watcher) ++
                  _fallback_warnings notifications in
  let system_health := if bool_decide (warnings = []) then SystemOk else SystemDegraded in
  usage ← read_store (budget_usage (Config.attention (rt_config runtime)) (rt_tz runtime) now);
  total ← gets Reader.count_deliveries;
  mret (mk_status_response system_health system_health (_delivery_readiness seen)
    (mk_database_response HealthReady observed) google (_daemon_response watcher) notifications
    (budget_response usage) total seen warnings).

(** ** What the document says *)

(** A read that returned left the store as it was. *)
Lemma read_store_ok {A} (m : op A) d a d' :
  Preserves eq m → read_store m d = (Ok a, d') → d' = d ∧ m d = (Ok a, d).
Proof.
  intros Hm. unfold read_store. destruct (m d) as [[x|e] d1] eqn:Hd; [|done].
  intros [= <- <-]. by rewrite (Hm _ _ _ Hd).
Qed.

Lemma lift_time_reads {A} (x : res time_error A) : Preserves eq (lift_time x : op A).
Proof. unfold lift_time. apply _. Qed.
Lemma daemon_status_reads now stale : Preserves eq (Daemon.status now stale).
Proof. intros d r d' H. pose proof (status_reads now stale d) as Hd. by rewrite H in Hd. Qed.
Lemma fallback_status_reads enabled : Preserves eq (_fallback_status enabled).
Proof. unfold _fallback_status. apply _. Qed.
Lemma collectors_status_reads a b : Preserves eq (_collectors_status a b).
Proof.
  assert (∀ t p, Preserves eq (Collectors.collector_status t p Collectors.DEFAULT_COLLECTOR_STALE_AFTER)) as Hc.
  { intros t p. unfold Collectors.collector_status, lift_time. apply preserves_bind; [apply _..|].
    intros [c|]; apply _. }
  unfold _collectors_status. apply _.
Qed.

Lemma source_warnings_nil google :
  _source_warnings google = [] ↔
  sfr_status (gfr_source (ggl_gmail google)) = FreshOk ∧ sfr_status (ggl_calendar google) = FreshOk.
Proof.
  unfold _source_warnings. generalize (sfr_status (gfr_source (ggl_gmail google))) (sfr_status (ggl_calendar google)).
  intros [] []; (split; [intros H; vm_compute in H; done|by intros [? ?]]).
Qed.
Lemma daemon_warnings_nil l : _daemon_warnings l = [] ↔ l = Daemon.LiveRunning.
Proof. by destruct l. Qed.

Lemma google_statuses gmail calendar diagnostics gs cs gg cg now over google :
  google_freshness_response gmail calendar diagnostics gs cs gg cg now over = Ok google →
  sfr_status (gfr_source (ggl_gmail google)) = fr_status gmail ∧ sfr_status (ggl_calendar google) = fr_status calendar.
Proof.
  unfold google_freshness_response, freshness_response. intros H. res_inv H. injection H as <-.
  apply (proj1 (res_bind_ok _ _ _)) in Hx as (g1 & _ & [= <-]).
  apply (proj1 (res_bind_ok _ _ _)) in Hx0 as (g2 & _ & [= <-]). done.
Qed.

Lemma fallback_warnings_nil enabled d fb :
  _fallback_status enabled d = (Ok fb, d) →
  _fallback_warnings fb = [] ↔ (enabled = true → notification_available = true ∧ count_outcome FallbackFailed d = 0).
Proof.
  unfold _fallback_status. rewrite gets_bind. intros [= <-].
  unfold _fallback_warnings. cbn [fsr_state fsr_history_degraded fsr_failed summary fs_failed].
  destruct enabled; [|by split]. destruct notification_available; cbn [negb];
    destruct (Z.eqb_spec (count_outcome FallbackFailed d) 0) as [->|Hne]; cbn; naive_solver.
Qed.

(** A source that is authorized, whose last read was free of errors, and that succeeded within
    a day of [now]. *)
Definition source_healthy (now : instant) (st : SourceSyncState) : Prop :=
  auth_state st = Configured ∧ last_error_code st = None ∧
  ∃ t, last_success_at st = Some t ∧ now - t < DEFAULT_STALE_AFTER.

(** C19. The status document changes nothing, and it is [ok] exactly when both sources are healthy,
    the daemon's row is live by three poll intervals, and the notification fallback, if
    enabled, is available and never failed; then and only then it has no warning. *)
Theorem status_is_the_health k config_path observed d r d' :
  status_response k config_path observed d = (Ok r, d') →
  d' = d ∧ str_system_health r = str_overall r ∧ (str_overall r = SystemOk ↔ str_warnings r = []) ∧
  ∃ runtime watcher st,
    from_config zone_info get_localzone config_path (sk_runtime k) = Ok runtime ∧
    Daemon.status (sk_poll k) None d = (Ok watcher, d) ∧
    Daemon.status (sk_daemon k)
      (Some (_DAEMON_STALE_POLLS * effective_poll_interval watcher (rt_config runtime))) d = (Ok st, d) ∧
    str_daemon r = _daemon_response st ∧
    (str_overall r = SystemOk ↔
     (∀ source, source_healthy (sk_now k) (source_state parse_datetime source d)) ∧
     Daemon.st_liveness st = Daemon.LiveRunning ∧
     (fset_enabled (fallback (rt_config runtime)) = true →
      notification_available = true ∧ count_outcome FallbackFailed d = 0)).
Proof.
  unfold status_response. cbv zeta. intros (rt & d0 & Hrt & H)%bind_ok. unfold lift in Hrt. injection Hrt as Hrt <-.
  rewrite gets_bind in H. apply bind_ok in H as (google & d1 & [-> Hg]%read_store_ok & H); [|apply lift_time_reads].
  apply bind_ok in H as (watcher & d2 & [-> Hw]%read_store_ok & H); [|apply daemon_status_reads].
  apply bind_ok in H as (st & d3 & [-> Hs]%read_store_ok & H); [|apply daemon_status_reads].
  apply bind_ok in H as (fb & d4 & [-> Hfb]%read_store_ok & H); [|apply fallback_status_reads].
  apply bind_ok in H as (seen & d5 & [-> _]%read_store_ok & H); [|apply collectors_status_reads].
  apply bind_ok in H as (usage & d6 & [-> _]%read_store_ok & H); [|apply budget_usage_reads].
  rewrite gets_bind in H. injection H as <- <-. cbn [str_system_health str_overall str_warnings str_daemon].
  split; [done|]. split; [done|]. set (warnings := _source_warnings google ++ _ ++ _).
  assert ((if bool_decide (warnings = []) then SystemOk else SystemDegraded) = SystemOk ↔ warnings = []) as Hok
    by (by destruct (bool_decide_reflect (warnings = []))).
  split; [exact Hok|]. exists rt, watcher, st.
  assert (from_config zone_info get_localzone config_path (sk_runtime k) = Ok rt) as Hrt'
    by (destruct (from_config _ _ _ _); [by injection Hrt as ->|done]).
  split_and!; [done..|]. rewrite Hok. unfold warnings. rewrite !app_nil, source_warnings_nil, daemon_warnings_nil.
  rewrite (fallback_warnings_nil _ _ _ Hfb).
  apply lift_time_ok in Hg as [[-> ->]%google_statuses _].
  rewrite !freshness_ok_cases. split.
  - intros ([Hgm Hcal] & ? & ?). split; [by intros []|done].
  - intros (Hall & ? & ?). split; [split; [apply (Hall Gmail)|apply (Hall Calendar)]|done].
Qed.
End Status.

(** A machine whose sources were read a minute ago and whose daemon beats is [ok]. *)
Definition healthy_db : db :=
  (Daemon.try_record_start "me" engine_now 7 (Some (5 * US_PER_MINUTE)) None fresh_db).2.
Definition healthy_clock : status_clock :=
  let now := engine_now + US_PER_MINUTE in mk_status_clock now now now now now now.
Definition sample_observed : DatabaseStatus := mk_database_status "/db" "wal" 5000 20.
Lemma status_is_the_health_witness :
  match status_response true fromisoformat (λ _, None) (Some UTC) healthy_clock FileMissing sample_observed healthy_db with
  | (Ok r, d') => str_overall r = SystemOk ∧ d' = healthy_db ∧
      ∀ source, source_healthy (sk_now healthy_clock) (source_state fromisoformat source healthy_db)
  | _ => False
  end.
Proof.
  destruct (status_response true fromisoformat (λ _, None) (Some UTC) healthy_clock FileMissing sample_observed healthy_db)
    as [[r|e] d'] eqn:Hrun.
  - assert (str_overall r = SystemOk) as Hok by (vm_compute in Hrun; injection Hrun as <- _; reflexivity).
    destruct (status_is_the_health true fromisoformat (λ _, None) (Some UTC) healthy_clock FileMissing sample_observed
      healthy_db r d' Hrun) as (Hd & _ & _ & rt & watcher & st & _ & _ & _ & _ & Hiff).
    split; [exact Hok|]. split; [exact Hd|]. exact (proj1 (proj1 Hiff Hok)).
  - vm_compute in Hrun. discriminate.
Defined.
