(* ===== verification/Notify.v ===== *)
(** The host's notifier ([delivery/notify.py]) and the test notification of the setup
    ([cli/setup_notification.py]): the executable of each platform, the argument vector, the
    environment it runs in, and what its end means. *)
From Stdlib Require Import Ascii.
From S2P Require Import Prelude Runs PyDate PyTime Models Situations Fallback Memory.
#[local] Open Scope Z_scope.

(** ** Platforms *)

Inductive NotificationPlatform := PlatformLinux | PlatformDarwin | PlatformWin32.
#[export] Instance NotificationPlatform_eq_dec : EqDecision NotificationPlatform.
Proof. solve_decision. Defined.
Definition _PLATFORMS : list (text * NotificationPlatform) :=
  [("linux", PlatformLinux); ("darwin", PlatformDarwin); ("win32", PlatformWin32)]%string.
Definition parse_notification_platform (raw : text) : res NotificationErrorCode NotificationPlatform :=
  match sql_find (λ x, bool_decide (x.1 = raw)) _PLATFORMS with
  | Some x => Ok x.2
  | None => Err NotifyUnsupportedPlatform
  end.

Definition DEFAULT_NOTIFICATION_TIMEOUT : timedelta := 5000000.
Definition _LINUX_NOTIFY_SEND : text := "/usr/bin/notify-send".
Definition _MACOS_OSASCRIPT : text := "/usr/bin/osascript".

(** How [subprocess.run] ended; every error but the first two is an [OSError]. *)
Inductive Finished := Exited (returncode : Z) | ProcessNotFound | ProcessTimedOut | ProcessError.
(** [sys.platform], the environment block the process was started with, [str.upper], the answer of
    [GetSystemDirectoryW], the directory of the package's scripts, [Path.is_file], and
    [subprocess.run] with an argument vector, a working directory, an environment and a timeout. *)
Class NotifierHost (W : Type) := {
  sys_platform : text;
  process_environment : list (text * text);
  upper : text → text;
  get_system_directory : Z → Z * text;
  package_directory : text;
  is_file : W → text → bool;
  spawn : list text → text → list (text * text) → timedelta → W → Finished * W;
}.

(** ** Commands *)

(** [d[key] = value] of a dictionary, which keeps the place of a key. *)
Fixpoint set_item (key value : text) (d : list (text * text)) : list (text * text) :=
  match d with
  | [] => [(key, value)]
  | x :: d => if bool_decide (x.1 = key) then (key, value) :: d else x :: set_item key value d
  end.
(** [os.environ]: on Windows the names are upper-cased when the block is read. *)
Definition encodekey {W} {H : NotifierHost W} (key : text) : text :=
  if bool_decide (sys_platform = "win32"%string) then upper key else key.
Definition environ {W} {H : NotifierHost W} : list (text * text) :=
  foldl (λ data x, set_item (encodekey x.1) x.2 data) [] process_environment.
(** [str(Path(s).parent)] of an absolute path below a directory. *)
Definition parent_of (separator : ascii) (s : text) : text :=
  join (String separator "") (take (pred (length (split_on separator s))) (split_on separator s)).

Section Notify.
Context {W : Type} {H : NotifierHost W}.
Abbreviation op A := (M W NotificationErrorCode A).

Definition _windows_system_directory : res NotificationErrorCode text :=
  if negb (bool_decide (sys_platform = "win32"%string)) then Ok "C:\Windows\System32"%string else
  let '(length, buffer) := get_system_directory 32768 in
  if (length =? 0) || (32768 <=? length) then Err NotifyUnavailable else Ok buffer.
Definition trusted_notifier_path (platform : NotificationPlatform) : res NotificationErrorCode text :=
  match platform with
  | PlatformLinux => Ok _LINUX_NOTIFY_SEND
  | PlatformDarwin => Ok _MACOS_OSASCRIPT
  | PlatformWin32 => directory ← _windows_system_directory; Ok (directory +:+ "\WindowsPowerShell\v1.0\powershell.exe")
  end.

Definition MACOS_NOTIFICATION_SCRIPT : text := package_directory +:+ "/macos_notification.applescript".
Definition WINDOWS_TOAST_SCRIPT : text := package_directory +:+ "\windows_toast.ps1".
(** The table holds the commands of all platforms, so the system directory is asked for on each. *)
Definition _notification_argv (title body : text) (platform : NotificationPlatform) : res NotificationErrorCode (list text) :=
  linux ← trusted_notifier_path PlatformLinux;
  darwin ← trusted_notifier_path PlatformDarwin;
  win32 ← trusted_notifier_path PlatformWin32;
  Ok (match platform with
      | PlatformLinux => [linux; "--"%string; title; body]
      | PlatformDarwin => [darwin; MACOS_NOTIFICATION_SCRIPT; title; body]
      | PlatformWin32 => [win32; "-NoProfile"; "-NonInteractive"; "-File"; WINDOWS_TOAST_SCRIPT; title; body]%string
      end).

Definition blocked : list text :=
  ["DYLD_INSERT_LIBRARIES"; "LD_LIBRARY_PATH"; "LD_PRELOAD"; "PSModulePath"; "PYTHONHOME"; "PYTHONPATH"]%string.
Definition search_path : res NotificationErrorCode text :=
  if bool_decide (sys_platform = "win32"%string) then _windows_system_directory else Ok "/usr/bin:/bin"%string.
Definition _sanitized_environment : res NotificationErrorCode (list (text * text)) :=
  let environment := sql_select (λ x, negb (bool_decide (x.1 ∈ blocked))) environ in
  path ← search_path;
  Ok (set_item "PATH" path environment).

(** [SubprocessNotificationRunner.run]. *)
Definition outcome (finished : Finished) : res NotificationErrorCode unit :=
  match finished with
  | Exited code => if negb (code =? 0) then Err NotifyFailed else Ok tt
  | ProcessNotFound => Err NotifyUnavailable
  | ProcessTimedOut => Err NotifyTimeout
  | ProcessError => Err NotifyFailed
  end.
Definition subprocess_run (argv : list text) (cwd : text) (environment : list (text * text)) (timeout : timedelta) : op unit :=
  λ w, let '(finished, w') := spawn argv cwd environment timeout w in (outcome finished, w').
Definition run_notifier (argv : list text) (timeout : timedelta) : op unit :=
  environment ← lift _sanitized_environment;
  let separator := if bool_decide (sys_platform = "win32"%string) then "\"%char else "/"%char in
  subprocess_run argv (parent_of separator (default ""%string (head argv))) environment timeout.

Definition send_os_notification (title body : text) (platform : NotificationPlatform) : op unit :=
  argv ← lift (_notification_argv title body platform);
  run_notifier argv DEFAULT_NOTIFICATION_TIMEOUT.

Definition notification_available (w : W) : bool :=
  match (platform ← parse_notification_platform sys_platform; trusted_notifier_path platform) with
  | Ok notifier => is_file w notifier
  | Err _ => false
  end.

(** ** The test notification of the setup *)

Definition _TITLE : text := "proactive-mcp".
Definition _BODY : text := "Setup test notification".
(** [None]: ["ok"]. *)
Definition send_setup_test_notification : M W False (option NotificationErrorCode) :=
  available ← gets notification_available;
  if negb available then mret (Some NotifyUnavailable) else
  try_except
    (platform ← lift (parse_notification_platform sys_platform);
     send_os_notification _TITLE _BODY platform;;
     mret None)
    (λ error, mret (Some error)).
End Notify.

(** ** What is run *)

Lemma elem_of_set_item key value d x :
  x ∈ set_item key value d → x = (key, value) ∨ x ∈ d.
Proof.
  induction d as [|y d IH]; cbn [set_item]; [set_solver|]. case_bool_decide; set_solver.
Qed.
Lemma set_item_keys key value d : NoDup d.*1 → NoDup (set_item key value d).*1.
Proof.
  induction d as [|[k u] d IH]; cbn [set_item fmap list_fmap fst].
  - intros _. apply NoDup_singleton.
  - intros [Hk Hd]%NoDup_cons. case_bool_decide as Heq; cbn in Heq |- *.
    + subst k. by apply NoDup_cons.
    + apply NoDup_cons. split; [|by apply IH]. intros ([k' v'] & -> & Hin)%list_elem_of_fmap. cbn in Hk, Heq.
      apply elem_of_set_item in Hin as [[= -> _]|Hin]; [done|]. apply Hk, list_elem_of_fmap. by exists (k', v').
Qed.
Lemma set_item_lookup key value d k v :
  NoDup d.*1 → (k, v) ∈ set_item key value d ↔ (k = key ∧ v = value) ∨ (k ≠ key ∧ (k, v) ∈ d).
Proof.
  induction d as [|[k1 u] d IH]; cbn [set_item fmap list_fmap fst].
  - intros _. rewrite list_elem_of_singleton. set_solver.
  - intros [Hk Hd]%NoDup_cons. assert (∀ v', (k1, v') ∈ d → False) as Hno.
    { intros v' Hin. apply Hk, list_elem_of_fmap. by exists (k1, v'). }
    specialize (IH Hd). case_bool_decide as Heq; cbn in Heq; rewrite !elem_of_cons; [subst k1|rewrite IH].
    + destruct (decide (k = key)) as [->|Hne]; [|set_solver]. split; [intros [[= ->]|Hin]; [by left|by destruct (Hno v)]|].
      intros [[_ ->]|[? _]]; [by left|done].
    + destruct (decide (k = key)) as [->|Hne]; [|set_solver]. split; [intros [[= -> _]|H]; [done|tauto]|intros [?|[? _]]; [by right; left|done]].
Qed.

Section Runs.
Context {W : Type} {H : NotifierHost W}.

Lemma environ_names : NoDup environ.*1 ∧
  ∀ key value, (key, value) ∈ environ → ∃ name, (name, value) ∈ process_environment ∧ key = encodekey name.
Proof.
  unfold environ. assert (∀ block data, NoDup data.*1 →
    NoDup (foldl (λ data x, set_item (encodekey x.1) x.2 data) data block).*1 ∧
    ∀ key value, (key, value) ∈ foldl (λ data x, set_item (encodekey x.1) x.2 data) data block →
      (key, value) ∈ data ∨ ∃ name, (name, value) ∈ block ∧ key = encodekey name) as Hall.
  { induction block as [|[name v] block IH]; intros data Hdata; cbn [foldl fst snd]; [by split; [|left]|].
    destruct (IH _ (set_item_keys (encodekey name) v data Hdata)) as [Hkeys Hin]. split; [done|].
    intros key value [Hold|(name' & ? & ->)]%Hin; [|right; exists name'; by split; [right|]].
    apply elem_of_set_item in Hold as [[= -> ->]|?]; [right; exists name; by split; [left|]|by left]. }
  destruct (Hall process_environment [] (NoDup_nil_2 (A := text))) as [Hkeys Hin]. split; [done|].
  intros key value [[]%elem_of_nil|Hname]%Hin. done.
Qed.

(** What a started process is given: the search path, and what [os.environ] holds under every other
    name that is not spelled as a blocked one. *)
Lemma environment_is_sanitized env :
  _sanitized_environment = Ok env →
  ∃ path, search_path = Ok path ∧
    ∀ key value, (key, value) ∈ env ↔
      (key = "PATH"%string ∧ value = path) ∨ (key ≠ "PATH"%string ∧ key ∉ blocked ∧ (key, value) ∈ environ).
Proof.
  unfold _sanitized_environment. set (kept := sql_select _ environ).
  assert (NoDup kept.*1) as Hkept by (apply NoDup_fmap_select, environ_names).
  destruct search_path as [path|e] eqn:Hpath; [|done]. intros [= <-]. exists path. split; [done|].
  intros key value. rewrite set_item_lookup by done. unfold kept. rewrite elem_of_sql_select.
  rewrite negb_true_iff, bool_decide_eq_false. cbn [fst]. tauto.
Qed.

(** The words of a command that are not the title and the body. *)
Definition fixed_words (platform : NotificationPlatform) : list text :=
  match platform with
  | PlatformLinux => ["--"%string]
  | PlatformDarwin => [MACOS_NOTIFICATION_SCRIPT]
  | PlatformWin32 => ["-NoProfile"; "-NonInteractive"; "-File"; WINDOWS_TOAST_SCRIPT]%string
  end.

(** C30. A notification runs at most one process: the trusted executable of the platform, with fixed
    words followed by the title and the body, in an environment that holds the trusted search path
    and, under every other name, exactly what [os.environ] holds under a name not spelled as a
    blocked one. The names there are those the process was started with, upper-cased on Windows:
    off Windows no injection control is passed on, while on Windows the mixed-case PSModulePath
    is never recognized. It reports success exactly when that process exits with zero, and without
    one it reports unavailable. *)
Theorem notifications_run_the_trusted_notifier title body platform w r w' :
  send_os_notification title body platform w = (r, w') →
  (r = Err NotifyUnavailable ∧ w' = w) ∨
  ∃ program cwd env path finished,
    trusted_notifier_path platform = Ok program ∧ search_path = Ok path ∧
    spawn (program :: fixed_words platform ++ [title; body]) cwd env 5000000 w = (finished, w') ∧
    (∀ key value, (key, value) ∈ env ↔
      (key = "PATH"%string ∧ value = path) ∨ (key ≠ "PATH"%string ∧ key ∉ blocked ∧ (key, value) ∈ environ)) ∧
    (∀ key value, (key, value) ∈ environ → ∃ name, (name, value) ∈ process_environment ∧
      key = (if bool_decide (sys_platform = "win32"%string) then upper name else name)) ∧
    (r = Ok tt ↔ finished = Exited 0).
Proof.
  intros Hrun. pattern r, w'. refine (wp_run _ _ _ _ _ Hrun _). clear r w' Hrun. unfold send_os_notification.
  apply wp_bind, wp_lift.
  assert (∀ e, _windows_system_directory = Err e → e = NotifyUnavailable) as Hun.
  { unfold _windows_system_directory. intros e. case_bool_decide; cbn [negb]; [|done].
    destruct (get_system_directory 32768) as [n buffer]. destruct (_ || _); [by intros [= <-]|done]. }
  assert (∃ program, trusted_notifier_path platform = Ok program ∧
    _notification_argv title body platform = Ok (program :: fixed_words platform ++ [title; body]) ∨
    _notification_argv title body platform = Err NotifyUnavailable) as (program & [[Hp ->]| ->]).
  { unfold _notification_argv. cbn [trusted_notifier_path mbind res_bind]. destruct _windows_system_directory as [d|e] eqn:Hd.
    - destruct platform; cbn [trusted_notifier_path fixed_words]; rewrite ?Hd; eexists; left; by split.
    - exists ""%string. right. cbn. by rewrite (Hun e). }
  2: { left. by split. }
  unfold run_notifier. apply wp_bind, wp_lift. destruct _sanitized_environment as [env|e] eqn:Henv.
  2: { left. split; [|done]. f_equal. revert Henv. unfold _sanitized_environment, search_path. case_bool_decide; [|done].
    destruct _windows_system_directory as [d|e'] eqn:Hd; [done|]. intros [= <-]. by apply Hun. }
  apply wp_intro. intros r w'. unfold subprocess_run. cbn [default head].
  destruct (environment_is_sanitized _ Henv) as (path & Hpath & Hin).
  destruct (spawn _ _ env _ w) as [finished w1] eqn:Hs. intros [= <- <-]. right. eexists program, _, env, path, finished.
  split; [done|]. split; [done|]. split; [exact Hs|]. split; [done|]. split; [apply environ_names|].
  unfold outcome. destruct finished as [code| | |]; try done. destruct (Z.eqb_spec code 0) as [->|]; [done|].
  split; [done|]. by intros [= ->].
Qed.
End Runs.

(** [str.upper] on ASCII texts. *)
Fixpoint upper_ascii (s : text) : text :=
  match s with
  | EmptyString => s
  | String a rest =>
    let n := N_of_ascii a in String (if ((97 <=? n) && (n <=? 122))%N then ascii_of_N (n - 32) else a) (upper_ascii rest)
  end.
(** A session whose environment was tampered with. *)
Definition tampered (platform : text) : NotifierHost (list (list text)) := {|
  sys_platform := platform;
  process_environment := [("LD_PRELOAD", "/tmp/x.so"); ("Path", "/tmp"); ("PATH", "/tmp"); ("PSModulePath", "C:\tmp"); ("DISPLAY", ":0")]%string;
  upper := upper_ascii;
  get_system_directory _ := (19, "C:\Windows\System32"%string);
  package_directory := "/opt/proactive_mcp/delivery";
  is_file _ p := bool_decide (p = _LINUX_NOTIFY_SEND);
  spawn argv _ env _ w := (Exited 0, w ++ [argv ++ env.*1 ++ env.*2]);
|}.
#[local] Instance linux_host : NotifierHost (list (list text)) := tampered "linux".
Lemma notifications_run_the_trusted_notifier_witness :
  (send_os_notification "Reply needed" "reply_deadline" PlatformLinux []).2 =
    [[_LINUX_NOTIFY_SEND; "--"; "Reply needed"; "reply_deadline"; "Path"; "PATH"; "DISPLAY"; "/tmp"; "/usr/bin:/bin"; ":0"]]%string ∧
  ∃ env : list (text * text), ("PATH", "/usr/bin:/bin")%string ∈ env ∧ ∀ value, ("LD_PRELOAD"%string, value) ∉ env.
Proof.
  split; [reflexivity|].
  destruct (notifications_run_the_trusted_notifier "Reply needed" "reply_deadline" PlatformLinux [] _ _ (surjective_pairing _))
    as [[H _]|(program & cwd & env & path & finished & _ & Hpath & _ & Henv & _)].
  - vm_compute in H. discriminate.
  - exists env. split.
    + apply Henv. left. injection Hpath as <-. by split.
    + intros value [[[=] _]|(_ & Hb & _)]%Henv. apply Hb. by right; right; left.
Defined.
Example setup_is_notified :
  (send_setup_test_notification []).1 = Ok None ∧
  (send_setup_test_notification []).2 =
    [[_LINUX_NOTIFY_SEND; "--"; "proactive-mcp"; "Setup test notification"; "Path"; "PATH"; "DISPLAY"; "/tmp"; "/usr/bin:/bin"; ":0"]]%string.
Proof. done. Qed.
(** On Windows [os.environ] spells the control PSMODULEPATH, which is not the name that is blocked. *)
Example module_path_reaches_powershell :
  _sanitized_environment (H := tampered "linux") =
    Ok [("Path", "/tmp"); ("PATH", "/usr/bin:/bin"); ("DISPLAY", ":0")]%string ∧
  _sanitized_environment (H := tampered "win32") =
    Ok [("PATH", "C:\Windows\System32"); ("PSMODULEPATH", "C:\tmp"); ("DISPLAY", ":0")]%string.
Proof. done. Qed.
