(* ===== verification/Services.v ===== *)
(** What the service commands of the three platforms share: their contract ([cli/service_models.py]),
    the trusted executable they install ([cli/service_invocation.py]), and the heartbeat a snapshot
    reads from the status document.  Subprocesses and the file system are an interface. *)
From Stdlib Require Import Ascii.
From S2P Require Import Prelude Runs Paths PyDate PyTime Models Memory DeadlineText Runtime Status.
#[local] Open Scope Z_scope.

(** ** The contract *)

Inductive ServiceAction := ActionInstall | ActionStatus | ActionRemove.
Inductive ServiceState :=
  | Installed | ServiceActive | ServiceInactive | Removed | Absent | Unsupported | ServiceFailed | Unmanaged.
Inductive ServiceCode :=
  | UnsupportedPlatform | BinaryNotFound | UnmanagedUnit | CommandFailed | HeartbeatUnavailable | InvalidValue | IoFailed.
Inductive LingerState := LingerEnabled | LingerDisabled | LingerUnknown | LingerNotApplicable.
Inductive Guidance := GuidanceNone | EnableLinger.
Abbreviation HeartbeatState := Daemon.DaemonLiveness.
#[export] Instance ServiceState_eq_dec : EqDecision ServiceState.
Proof. solve_decision. Defined.
#[export] Instance ServiceCode_eq_dec : EqDecision ServiceCode.
Proof. solve_decision. Defined.
#[export] Instance LingerState_eq_dec : EqDecision LingerState.
Proof. solve_decision. Defined.
#[export] Instance HeartbeatState_eq_dec : EqDecision HeartbeatState.
Proof. solve_decision. Defined.

Record ServiceResponse := mk_service_response {
  sr_action : ServiceAction;
  sr_state : ServiceState;
  sr_unit : text;
  sr_managed : bool;
  sr_enabled : bool;
  sr_active : bool;
  sr_main_pid : option Z;
  sr_heartbeat : option HeartbeatState;
  sr_linger : LingerState;
  sr_guidance : Guidance;
  sr_code : option ServiceCode;
}.
Record ServiceCommandResult := mk_service_result { scr_response : ServiceResponse; scr_success : bool }.
Record ServiceOutcome := mk_service_outcome { so_action : ServiceAction; so_state : ServiceState; so_code : option ServiceCode }.

(** The errors the handlers tell apart; the last escapes all of them. *)
Inductive service_exn := OSError | ValueError | OtherError.
#[export] Instance service_exn_eq_dec : EqDecision service_exn.
Proof. solve_decision. Defined.
(** What [build_status] raises: an error the snapshots answer, or one that passes through. *)
Inductive status_exn := StatusUnavailable | StatusRaises (e : service_exn).

(** ** Text files *)

(** [open] in text mode reads every line end as a newline. *)
Fixpoint universal_newlines (s : text) : text :=
  match s with
  | EmptyString => EmptyString
  | String a rest =>
    if Ascii.eqb a "013" then
      String "010" match rest with
                   | String b rest' => if Ascii.eqb b "010" then universal_newlines rest' else universal_newlines rest
                   | EmptyString => EmptyString
                   end
    else String a (universal_newlines rest)
  end.

(** ** The host *)

(** The fields of [os.stat_result] the code reads. *)
Record stat_result := mk_stat { st_mode : Z; st_uid : Z; st_nlink : Z; st_dev : Z; st_ino : Z }.
(** A finished subprocess. *)
Record Completed := mk_completed { cp_returncode : Z; cp_stdout : text; cp_stderr : text }.

(** Subprocesses ([None]: it did not start or timed out), the daemon part of the status document
    ([build_status().daemon]), and the facts about the file this process was started from: what [open] without
    following links and [fstat] give, and [lstat]. *)
Class ServiceHost (W : Type) := {
  run_process : list text → W → option Completed * W;
  status_daemon : M W status_exn DaemonStatusResponse;
  path_exists : W → Path → bool;
  open_and_fstat : W → Path → option (option stat_result);
  lstat : W → Path → option stat_result;
}.

(** ** The executable *)

Definition S_IFMT : Z := 61440.
Definition S_IFREG : Z := 32768.
Definition S_ISREG (mode : Z) : bool := Z.land mode S_IFMT =? S_IFREG.
Definition _UNTRUSTED_WRITE_BITS : Z := 2.
Definition _EXECUTE_BITS : Z := 73.

(** [sys.argv[0]], [os.name == "nt"] and [os.getuid()]. *)
Record Invocation := mk_invocation { iv_argv0 : Path; iv_nt : bool; iv_uid : Z }.

(** The name ends in a dot and [ext], with something before it. *)
Definition has_suffix (ext : text) (file_name : text) : bool :=
  let n := String.length file_name in let k := String.length ext in
  (k <? n)%nat && bool_decide (lower_ascii (String.substring (n - k) k file_name) = ext).

Section Executable.
Context {W : Type} {H : ServiceHost W} (iv : Invocation).

Definition trusted_file (observed current : stat_result) : bool :=
  let trusted_owner := iv_nt iv || (st_uid observed =? 0) || (st_uid observed =? iv_uid iv) in
  let executable := iv_nt iv || negb (Z.land (st_mode observed) _EXECUTE_BITS =? 0) in
  let trusted_permissions := iv_nt iv || (Z.land (st_mode observed) _UNTRUSTED_WRITE_BITS =? 0) in
  let trusted_links := (st_nlink observed =? st_nlink current) && (st_nlink current =? 1) in
  S_ISREG (st_mode observed) && trusted_owner && trusted_links && trusted_permissions && executable &&
  (st_dev current =? st_dev observed) && (st_ino current =? st_ino observed).

Definition current_executable (w : W) : option Path :=
  let candidate := iv_argv0 iv in
  if negb (is_absolute candidate) then None else
  let candidate :=
    if iv_nt iv && negb (has_suffix ".exe" (name candidate)) && negb (path_exists w candidate)
    then with_name candidate (name candidate +:+ ".exe") else candidate in
  observed ← open_and_fstat w candidate;
  observed ← observed;
  current ← lstat w candidate;
  if trusted_file observed current then Some candidate else None.

(** An executable is installed only from the file the path names now: an executable regular file
    with one name, of root or the user, that others may not write. *)
Lemma trusted_on_posix observed current :
  iv_nt iv = false → trusted_file observed current = true →
  S_ISREG (st_mode observed) = true ∧ (st_uid observed = 0 ∨ st_uid observed = iv_uid iv) ∧
  st_nlink current = 1 ∧ Z.land (st_mode observed) _UNTRUSTED_WRITE_BITS = 0 ∧
  (st_dev current, st_ino current) = (st_dev observed, st_ino observed).
Proof.
  intros Hnt. unfold trusted_file. rewrite Hnt, !andb_true_iff, !orb_true_iff, !Z.eqb_eq.
  intros ((((((? & Howner) & [? ?]) & Hwrite) & ?) & ?) & ?). split; [done|].
  split; [destruct Howner as [[|]|]; auto; done|]. split; [done|]. split; [by destruct Hwrite|]. congruence.
Qed.
End Executable.

(** ** What a snapshot reads *)

Section Snapshot.
Context {W : Type} {H : ServiceHost W} {T : CharTables}.

(** [value.isdecimal()] and then [int(value)]. *)
Fixpoint decimal_value (acc : Z) (cs : list char) : option Z :=
  match cs with
  | [] => Some acc
  | c :: cs => d ← decimal c; decimal_value (10 * acc + d) cs
  end.
Definition parse_decimal (value : text) : option Z :=
  match chars value with [] => None | cs => decimal_value 0 cs end.

(** [try: build_status().daemon ... except ...]: the liveness and the process it names. *)
Definition daemon_heartbeat : M W service_exn (option HeartbeatState * option Z) :=
  try_except
    (daemon ← status_daemon; mret (Some (dsr_liveness daemon), dsr_pid daemon))
    (λ e, match e with StatusUnavailable => mret (None, None) | StatusRaises e => raise e end).

(** [except OSError], [except ValueError] around one lifecycle operation. *)
Definition execute_guarded (failed : ServiceCode → M W service_exn ServiceResponse)
    (operation : M W service_exn (ServiceResponse * bool)) : M W service_exn ServiceCommandResult :=
  try_except (r ← operation; mret (mk_service_result r.1 r.2))
    (λ e, match e with
          | OSError => r ← failed IoFailed; mret (mk_service_result r false)
          | ValueError => r ← failed InvalidValue; mret (mk_service_result r false)
          | OtherError => raise OtherError
          end).

Lemma preserves_guarded (R : relation W) `{!PreOrder R} failed operation :
  Preserves R operation → (∀ code, Preserves R (failed code)) → Preserves R (execute_guarded failed operation).
Proof. intros Hm Hf. unfold execute_guarded. apply preserves_try; [apply _|apply _|intros []; apply _]. Qed.
(** The states a command can answer with. *)
Definition answers (action : ServiceAction) (state : ServiceState) : bool :=
  match action, state with
  | ActionInstall, (Installed | Unmanaged | ServiceFailed)
  | ActionStatus, (ServiceActive | ServiceInactive | Absent | Unmanaged | ServiceFailed)
  | ActionRemove, (Removed | Absent | Unmanaged | ServiceFailed) => true
  | _, _ => false
  end.
(** An answer that names an error that was raised. *)
Definition raised_answer (action : ServiceAction) (resp : ServiceResponse) (ok : bool) : Prop :=
  ok = false ∧ sr_action resp = action ∧ sr_state resp = ServiceFailed ∧
  (sr_code resp = Some IoFailed ∨ sr_code resp = Some InvalidValue).
(** What holds of every answer of the operation, or of an answer that names the failure. *)
Lemma wp_guarded action (failed : ServiceCode → M W service_exn ServiceResponse) operation (P : ServiceResponse → bool → W → Prop) w :
  wp operation (λ r w', match r with Ok (resp, ok) => P resp ok w' | Err _ => True end) w →
  (∀ code w, wp (failed code) (λ r _, ∀ resp, r = Ok resp →
    sr_action resp = action ∧ sr_state resp = ServiceFailed ∧ sr_code resp = Some code) w) →
  wp (execute_guarded failed operation) (λ r w', ∀ result, r = Ok result →
    P (scr_response result) (scr_success result) w' ∨
    raised_answer action (scr_response result) (scr_success result)) w.
Proof.
  intros Hop Hfail. unfold execute_guarded. apply wp_try, wp_bind. revert Hop. apply wp_mono. intros [[resp ok]|e] w1.
  - intros HP. apply wp_ret. intros result [= <-]. by left.
  - intros _. destruct e; [| |by apply wp_raise]; apply wp_bind; (eapply wp_mono; [|apply Hfail]);
      intros [resp|e'] w2; try done; intros Hresp; apply wp_ret; intros result [= <-]; right;
      destruct (Hresp _ eq_refl) as (? & ? & ?); split; auto.
Qed.
End Snapshot.
