(* ===== verification/SystemdUnit.v ===== *)
(** The systemd unit of the watcher ([cli/service_unit.py]): how it is rendered and escaped, how a
    unit of this package is recognized, and what systemd reads back from it. *)
From Stdlib Require Import Ascii.
From S2P Require Import Prelude Runs PyDate PyTime Models Memory DeadlineText Runtime Status Paths Services.
#[local] Open Scope Z_scope.

(** ** Units *)

Definition nl : text := String "010" "".
Definition dquote : ascii := "034"%char.
Definition MANAGED_UNIT_MARKER : text := "X-Proactive-MCP-Managed=true".
Definition _SAFE_UNIT_CHARS : text := "abcdefghijklmnopqrstuvwxyzABCDEFGHIJKLMNOPQRSTUVWXYZ0123456789/._-".

Definition safe_unit_char (a : ascii) : bool := has_char a _SAFE_UNIT_CHARS.
Definition _escape (value : text) : text :=
  replace_char "%" "%%"
    (replace_char dquote (String backslash (String dquote ""))
      (replace_char backslash (String backslash (String backslash "")) value)).
Fixpoint all_safe (value : text) : bool :=
  match value with EmptyString => true | String a rest => safe_unit_char a && all_safe rest end.
Definition in_quotes (value : text) : text := String dquote value +:+ String dquote "".
Definition _quote (value : text) : text := if all_safe value then _escape value else in_quotes (_escape value).

(** [unicodedata.category]. *)
Class Categories := category : char → text.
Definition unsafe_category (c : text) : bool := bool_decide (c = "Cc"%string) || bool_decide (c = "Cf"%string).

(** [str.splitlines]. *)
Definition line_break (c : char) : bool :=
  match ascii_code c with
  | Some n => ((10 <=? n) && (n <=? 13) || (28 <=? n) && (n <=? 30))%N
  | None => bool_decide (c ∈ [String "194" (String "133" ""); String "226" (String "128" (String "168" ""));
                             String "226" (String "128" (String "169" ""))])
  end.
Definition is_return (c : char) : bool := bool_decide (c = String "013" "").
Definition is_newline (c : char) : bool := bool_decide (c = nl).
(** [line] holds the characters of the open line, the last first. *)
Fixpoint split_lines (line : list char) (cs : list char) : list text :=
  match cs with
  | [] => if bool_decide (line = []) then [] else [unchars (reverse line)]
  | c :: rest =>
    if line_break c then
      unchars (reverse line) ::
      match rest with
      | d :: rest' => if is_return c && is_newline d then split_lines [] rest' else split_lines [] rest
      | [] => []
      end
    else split_lines (c :: line) rest
  end.
Definition splitlines (s : text) : list text := split_lines [] (chars s).
Definition is_managed_unit (content : text) : bool := bool_decide (MANAGED_UNIT_MARKER ∈ splitlines content).

Section Units.
Context {C : Categories}.

Definition _validated (value : text) : res service_exn text :=
  if existsb (λ c, unsafe_category (category c)) (chars value) then Err ValueError else Ok value.

Definition unit_lines (exec_start environment : text) : list text :=
  ["[Unit]";
   "Description=proactive-mcp watcher";
   "After=network-online.target";
   "Wants=network-online.target";
   MANAGED_UNIT_MARKER;
   "";
   "[Service]";
   "Type=notify";
   "ExecStart=" +:+ exec_start;
   "Environment=" +:+ environment;
   "Restart=on-failure";
   "RestartSec=5s";
   "RestartPreventExitStatus=2";
   "TimeoutStartSec=30s";
   "NotifyAccess=main";
   "UMask=0077";
   "NoNewPrivileges=true";
   "";
   "[Install]";
   "WantedBy=default.target"]%string.
Definition unlines (ls : list text) : text := foldr (λ l rest, l +:+ nl +:+ rest) ""%string ls.
(** [executable] and [database] as [str] writes them. *)
Definition render_user_unit (executable database : text) : res service_exn text :=
  executable_value ← _validated executable;
  database_value ← _validated database;
  Ok (unlines (unit_lines (_quote executable_value +:+ " daemon")
    (in_quotes (_escape ("PROACTIVE_DATABASE=" +:+ database_value))))).
End Units.

(** ** What systemd reads back *)

(** systemd.syntax(7): words are separated by white space, double quotes group, a backslash escapes
    a backslash or a quote; forms the rendering does not use are refused. *)
Definition is_separator (a : ascii) : bool := bool_decide (a ∈ [" "; "009"; "010"; "013"]%char).
Fixpoint unquote (inside : bool) (word : option text) (s : text) : option (list text) :=
  match s with
  | EmptyString => if inside then None else Some (option_list word)
  | String a rest =>
    if Ascii.eqb a backslash then
      match rest with
      | String b rest' =>
        if Ascii.eqb b backslash || Ascii.eqb b dquote
        then unquote inside (Some (default "" word +:+ String b ""))%string rest' else None
      | EmptyString => None
      end
    else if Ascii.eqb a dquote then unquote (negb inside) (Some (default ""%string word)) rest
    else if negb inside && is_separator a then (app (option_list word)) <$> unquote false None rest
    else if negb inside && Ascii.eqb a "'" then None
    else unquote inside (Some (default "" word +:+ String a ""))%string rest
  end.
(** systemd.unit(5): a percent sign starts a specifier; two stand for one. *)
Fixpoint expand_specifiers (s : text) : option text :=
  match s with
  | EmptyString => Some ""%string
  | String a rest =>
    if Ascii.eqb a "%" then
      match rest with
      | String b rest' => if Ascii.eqb b "%" then String "%" <$> expand_specifiers rest' else None
      | EmptyString => None
      end
    else String a <$> expand_specifiers rest
  end.
Definition unit_words (value : text) : option (list text) := unquote false None value ≫= mapM expand_specifiers.

(** The lines of a unit file: a newline ends a line, unless a backslash before it joins the next. *)
Fixpoint unit_file_lines (line : text) (s : text) : list text :=
  match s with
  | EmptyString => if bool_decide (line = ""%string) then [] else [line]
  | String a rest =>
    if Ascii.eqb a "010" then line :: unit_file_lines "" rest else unit_file_lines (line +:+ String a "") rest
  end.
Definition joins_next (line : text) : bool :=
  bool_decide (String.get (String.length line - 1) line = Some backslash).

Lemma text_app_nil_r (s : text) : (s +:+ "")%string = s.
Proof. induction s as [|a s IH]; [done|]. by rewrite text_cons_app, IH. Qed.
Lemma text_snoc_app (s t : text) a : ((s +:+ String a "") +:+ t)%string = (s +:+ String a t)%string.
Proof. by rewrite text_app_assoc. Qed.
Lemma replaced_app c by_ (s t : text) :
  replace_char c by_ (s +:+ t) = (replace_char c by_ s +:+ replace_char c by_ t)%string.
Proof.
  induction s as [|a s IH]; [done|]. rewrite text_cons_app. cbn [replace_char]. rewrite IH. by rewrite text_app_assoc.
Qed.
Lemma escape_app (s t : text) : _escape (s +:+ t) = (_escape s +:+ _escape t)%string.
Proof. unfold _escape. by rewrite !replaced_app. Qed.
Lemma escape_char a :
  _escape (String a "") =
  (if Ascii.eqb a backslash then String backslash (String backslash "")
   else if Ascii.eqb a dquote then String backslash (String dquote "")
   else if Ascii.eqb a "%" then "%%" else String a "")%string.
Proof.
  unfold _escape. cbn [replace_char]. destruct (Ascii.eqb_spec a backslash) as [->|]; [reflexivity|].
  rewrite text_app_nil_r. cbn [replace_char]. destruct (Ascii.eqb_spec a dquote) as [->|]; [reflexivity|].
  rewrite text_app_nil_r. cbn [replace_char]. by destruct (Ascii.eqb_spec a "%").
Qed.

Definition double_percent (s : text) : text := replace_char "%" "%%" s.
Lemma expand_double s : expand_specifiers (double_percent s) = Some s.
Proof.
  unfold double_percent. induction s as [|a s IH]; [done|]. cbn [replace_char].
  destruct (Ascii.eqb a "%") eqn:Ha.
  - apply Ascii.eqb_eq in Ha as ->. rewrite !text_cons_app. cbn [expand_specifiers]. rewrite !Ascii.eqb_refl.
    change ("" +:+ replace_char "%" "%%" s)%string with (replace_char "%" "%%" s). by rewrite IH.
  - rewrite text_cons_app. cbn [expand_specifiers]. rewrite Ha.
    change ("" +:+ replace_char "%" "%%" s)%string with (replace_char "%" "%%" s). by rewrite IH.
Qed.

Lemma safe_plain a : safe_unit_char a = true → is_separator a = false ∧ Ascii.eqb a "'" = false.
Proof.
  intros Ha. split.
  - unfold is_separator. apply bool_decide_eq_false_2. intros Hin. revert Ha.
    repeat (apply elem_of_cons in Hin as [->|Hin]; [by vm_compute|]). by apply elem_of_nil in Hin.
  - destruct (Ascii.eqb_spec a "'") as [->|]; [|done]. by vm_compute in Ha.
Qed.

(** Inside quotes, or when every character is safe outside of them, an escaped value is read as one
    piece of a word. *)
Lemma unquote_escape inside (v : text) word rest :
  inside = true ∨ all_safe v = true →
  unquote inside (Some word) (_escape v +:+ rest) = unquote inside (Some (word +:+ double_percent v)) rest.
Proof.
  revert word. induction v as [|a v IH]; intros word Hv.
  { cbn [_escape replace_char double_percent]. by rewrite text_app_nil_r. }
  assert (inside = true ∨ all_safe v = true) as Hv'.
  { destruct Hv as [->|Hv]; [by left|right]. cbn [all_safe] in Hv. by apply andb_true_iff in Hv as [_ ?]. }
  change (String a v) with (String a "" +:+ v)%string. rewrite escape_app, escape_char.
  assert (Ascii.eqb a backslash = false ∧ Ascii.eqb a dquote = false → negb inside && is_separator a = false ∧
    negb inside && Ascii.eqb a "'" = false) as Hplain.
  { intros _. destruct Hv as [->|[Ha _]%andb_true_iff]; [done|]. apply safe_plain in Ha as [-> ->]. by rewrite andb_false_r. }
  assert (double_percent (String a "" +:+ v) = double_percent (String a "") +:+ double_percent v)%string as Hdp
    by apply replaced_app.
  rewrite Hdp. unfold double_percent at 1. cbn [replace_char].
  assert (∀ w, w = (word +:+ String a "")%string → unquote inside (Some w) (_escape v +:+ rest) =
    unquote inside (Some (word +:+ String a (double_percent v))%string) rest) as IHa.
  { intros w ->. rewrite IH by done. f_equal. f_equal. by rewrite text_snoc_app. }
  destruct (Ascii.eqb_spec a backslash) as [->|Hb]; [apply IHa; reflexivity|].
  destruct (Ascii.eqb_spec a dquote) as [->|Hd]; [apply IHa; reflexivity|].
  destruct Hplain as [Hsep Hq]; [done|]. apply Ascii.eqb_neq in Hb, Hd.
  destruct (Ascii.eqb_spec a "%") as [->|Hp]; rewrite !text_cons_app; cbn [unquote]; rewrite Hb, Hd, Hsep, Hq.
  - etrans; [apply (IH ((word +:+ "%") +:+ "%")%string); done|]. f_equal. f_equal. by rewrite !text_app_assoc.
  - etrans; [apply (IHa (word +:+ String a "")%string); done|]. f_equal.
Qed.

(** Both forms of [_quote] are read as one word. *)
Lemma unquote_quote v rest ws :
  v ≠ ""%string → unquote false None rest = Some ws →
  unquote false None (_quote v +:+ String " " rest) = Some (double_percent v :: ws).
Proof.
  intros Hv Hrest.
  assert (∀ w, unquote false (Some w) (String " " rest) = Some (w :: ws)) as Hend.
  { intros w. cbn [unquote]. change (Ascii.eqb " " backslash) with false. change (Ascii.eqb " " dquote) with false.
    change (is_separator " ") with true. cbn [negb andb option_list]. by rewrite Hrest. }
  unfold _quote. destruct (all_safe v) eqn:Hsafe.
  - destruct v as [|a v]; [done|].
    assert (∀ s, unquote false None (_escape (String a v) +:+ s) = unquote false (Some "") (_escape (String a v) +:+ s))%string
      as Hfirst.
    { intros s. change (String a v) with (String a "" +:+ v)%string. rewrite escape_app, escape_char.
      cbn [all_safe] in Hsafe. apply andb_true_iff in Hsafe as [[Hsep Hq]%safe_plain _].
      destruct (Ascii.eqb_spec a backslash) as [->|]; [done|]. destruct (Ascii.eqb_spec a dquote) as [->|Hd]; [done|].
      destruct (Ascii.eqb_spec a "%") as [->|]; [done|]. rewrite !text_cons_app. cbn [unquote].
      rewrite (proj2 (Ascii.eqb_neq a backslash)), (proj2 (Ascii.eqb_neq a dquote)) by done. by rewrite Hsep, Hq. }
    rewrite Hfirst, unquote_escape by (by right). apply Hend.
  - unfold in_quotes. rewrite !text_cons_app, text_app_assoc. cbn [unquote].
    change (Ascii.eqb dquote backslash) with false. rewrite Ascii.eqb_refl. cbn [negb].
    rewrite unquote_escape by (by left). rewrite text_cons_app. cbn [unquote].
    change (Ascii.eqb dquote backslash) with false. rewrite Ascii.eqb_refl. cbn [negb]. apply Hend.
Qed.
Lemma unquote_in_quotes v : unquote false None (in_quotes (_escape v)) = Some [double_percent v].
Proof.
  unfold in_quotes. rewrite !text_cons_app. cbn [unquote].
  change (Ascii.eqb dquote backslash) with false. rewrite Ascii.eqb_refl. cbn [negb].
  rewrite unquote_escape by (by left). cbn [unquote].
  change (Ascii.eqb dquote backslash) with false. by rewrite Ascii.eqb_refl.
Qed.

Lemma has_char_app c (s t : text) : has_char c (s +:+ t) = has_char c s || has_char c t.
Proof. induction s as [|a s IH]; [done|]. rewrite text_cons_app. cbn [has_char]. by rewrite IH, orb_assoc. Qed.
Lemma has_char_replace c d by_ s :
  has_char c by_ = false → has_char c s = false → has_char c (replace_char d by_ s) = false.
Proof.
  intros Hby. induction s as [|a s IH]; [done|]. cbn [has_char replace_char]. rewrite orb_false_iff. intros [Ha Hs].
  rewrite has_char_app, (IH Hs), orb_false_r. destruct (Ascii.eqb a d); [done|]. cbn [has_char]. by rewrite Ha.
Qed.
Lemma escape_one_line v : has_char "010" v = false → has_char "010" (_escape v) = false.
Proof. intros Hv. unfold _escape. by repeat apply has_char_replace. Qed.
Lemma quote_one_line v : has_char "010" v = false → has_char "010" (_quote v) = false.
Proof.
  intros Hv%escape_one_line. unfold _quote, in_quotes. destruct (all_safe v); [done|].
  rewrite has_char_app. cbn [has_char]. by rewrite Hv.
Qed.

Lemma unit_lines_read line l s :
  has_char "010" l = false →
  unit_file_lines line (l +:+ nl +:+ s) = (line +:+ l)%string :: unit_file_lines "" s.
Proof.
  revert line. induction l as [|a l IH]; intros line; cbn [has_char].
  - intros _. by rewrite text_app_nil_r.
  - rewrite orb_false_iff. intros [Ha Hl]. rewrite text_cons_app. cbn [unit_file_lines]. rewrite Ha, IH by done.
    by rewrite text_snoc_app.
Qed.
Lemma unit_lines_unlines ls :
  Forall (λ l, has_char "010" l = false) ls → unit_file_lines "" (unlines ls) = ls.
Proof.
  unfold unlines. induction 1 as [|l ls Hl _ IH]; [done|]. cbn [foldr]. rewrite unit_lines_read by done. by rewrite IH.
Qed.

(** A line that ends in a backslash would swallow the next one. *)
Fixpoint ends_in (a : ascii) (s : text) : bool :=
  match s with
  | EmptyString => false
  | String b EmptyString => Ascii.eqb b a
  | String _ rest => ends_in a rest
  end.
Lemma ends_in_app a (s t : text) : t ≠ ""%string → ends_in a (s +:+ t) = ends_in a t.
Proof.
  intros Ht. induction s as [|b s IH]; [done|]. rewrite text_cons_app. cbn [ends_in].
  destruct (s +:+ t)%string eqn:Hst; [|done]. by destruct s.
Qed.

(** The texts of Python hold characters: an ASCII byte is a character of its own. *)
Definition utf8_text (s : text) : Prop :=
  ∀ c a, c ∈ chars s → has_char a c = true → (N_of_ascii a < 128)%N → c = String a "".
Lemma has_char_chars a s : has_char a s = true → ∃ c, c ∈ chars s ∧ has_char a c = true.
Proof.
  induction s as [|b s IH]; [done|]. cbn [has_char chars]. rewrite orb_true_iff. intros Has.
  assert (∀ d ds e, d ∈ ds ∧ has_char a d = true → ∃ c, c ∈ e :: ds ∧ has_char a c = true) as Hlater.
  { intros d ds e [? ?]. exists d. split; [by right|done]. }
  destruct (chars s) as [|c cs] eqn:Hcs.
  { exists (String b ""). destruct Has as [Hb|Hs]; [split; [destruct s; by left|cbn [has_char]; by rewrite Hb]|].
    destruct (IH Hs) as (d & Hd & _). by apply elem_of_nil in Hd. }
  destruct s as [|b' s]; [done|]. destruct (continuation b').
  - destruct Has as [Hb|Hs]; [exists (String b c); split; [left|cbn [has_char]; by rewrite Hb]|].
    destruct (IH Hs) as (d & Hd & Hda). apply elem_of_cons in Hd as [->|Hd]; [|by eapply Hlater].
    exists (String b c). split; [left|]. cbn [has_char]. by rewrite Hda, orb_true_r.
  - destruct Has as [Hb|Hs]; [exists (String b ""); split; [left|cbn [has_char]; by rewrite Hb]|].
    destruct (IH Hs) as (d & Hd & Hda). by eapply Hlater.
Qed.
Lemma chars_app_ascii (s t : text) a :
  continuation a = false → chars (s +:+ String a t) = chars s ++ chars (String a t).
Proof.
  intros Ha. induction s as [|b s IH]; [done|]. rewrite text_cons_app. cbn [chars].
  destruct s as [|b' s].
  - change ("" +:+ String a t)%string with (String a t). cbn [chars app].
    destruct (match chars t with [] => _ | _ => _ end) as [|c cs] eqn:Hcs; [done|]. by rewrite Ha.
  - cbn [has_char] in *. rewrite IH. rewrite text_cons_app.
    destruct (chars (String b' s)) as [|c cs] eqn:Hcs; [|cbn [app]; by destruct (continuation b')].
    exfalso. cbn [chars] in Hcs. destruct (chars s), s; try done. by destruct (continuation a0).
Qed.

Section Rendering.
Context {C : Categories}.

Lemma validated_one_line v v' :
  category nl = "Cc"%string → utf8_text v → _validated v = Ok v' → v' = v ∧ has_char "010" v = false.
Proof.
  intros Hnl Hutf. unfold _validated. destruct (existsb _ _) eqn:Hex; [done|]. intros [= <-]. split; [done|].
  destruct (has_char "010" v) eqn:Hv; [|done]. destruct (has_char_chars _ _ Hv) as (c & Hc & Hac).
  assert (c = nl) as -> by (by apply (Hutf c "010"%char)).
  assert (existsb (λ c, unsafe_category (category c)) (chars v) = true) as Htrue; [|congruence].
  apply existsb_exists. exists nl. split; [by apply list_elem_of_In|]. by rewrite Hnl.
Qed.

Lemma rendered_is_managed e v : is_managed_unit (unlines (unit_lines e v)) = true.
Proof.
  set (head := ("[Unit]" +:+ nl +:+ "Description=proactive-mcp watcher" +:+ nl +:+ "After=network-online.target" +:+ nl +:+
    "Wants=network-online.target" +:+ nl +:+ MANAGED_UNIT_MARKER +:+ nl)%string).
  assert (∃ rest, unlines (unit_lines e v) = (head +:+ String "010" (String "[" rest))%string) as [rest ->]
    by (eexists; reflexivity).
  unfold is_managed_unit, splitlines. rewrite chars_app_ascii by done. apply bool_decide_eq_true_2.
  assert (∃ cs, chars (String "010" (String "[" rest)) = nl :: cs) as [cs ->].
  { cbn [chars]. destruct (chars rest) as [|c cs]; [by eexists|]. destruct rest as [|b rest]; [by eexists|].
    destruct (continuation b); by eexists. }
  assert (∃ ls, split_lines [] (chars head ++ nl :: cs) =
    ["[Unit]"; "Description=proactive-mcp watcher"; "After=network-online.target"; "Wants=network-online.target";
     MANAGED_UNIT_MARKER]%string ++ ls) as [ls ->] by (eexists; cbv -[split_lines app]; reflexivity).
  apply elem_of_app. left. do 4 right. left.
Qed.

(** C39. The unit that is rendered says to systemd what it was rendered from: its lines are the
    directives of the template, whose command reads back as the executable and [daemon] and whose
    environment as the database, so no path can add a directive, an argument or a specifier; and it
    carries the marker the other commands know it by. *)
Theorem rendered_units_parse_back executable database t :
  category nl = "Cc"%string → utf8_text executable → utf8_text database → executable ≠ ""%string →
  render_user_unit executable database = Ok t →
  is_managed_unit t = true ∧
  ∃ e v, unit_file_lines "" t = unit_lines e v ∧ Forall (λ l, ends_in backslash l = false) (unit_lines e v) ∧
    unit_words e = Some [executable; "daemon"]%string ∧
    unit_words v = Some ["PROACTIVE_DATABASE=" +:+ database]%string.
Proof.
  intros Hnl Hex Hdb Hne. unfold render_user_unit.
  destruct (_validated executable) as [e|] eqn:He; [|done]. apply validated_one_line in He as [-> He]; [|done..].
  destruct (_validated database) as [v|] eqn:Hv; [|done]. apply validated_one_line in Hv as [-> Hv]; [|done..].
  intros Ht. assert (t = unlines (unit_lines (_quote executable +:+ " daemon")
    (in_quotes (_escape ("PROACTIVE_DATABASE=" +:+ database))))) as -> by (by injection Ht).
  split; [apply rendered_is_managed|]. eexists _, _.
  assert (has_char "010" (_quote executable +:+ " daemon") = false) as Hline1
    by (by rewrite has_char_app, quote_one_line).
  assert (has_char "010" (in_quotes (_escape ("PROACTIVE_DATABASE=" +:+ database))) = false) as Hline2.
  { unfold in_quotes. rewrite has_char_app. cbn [has_char]. by rewrite escape_one_line by (by rewrite has_char_app). }
  split; [apply unit_lines_unlines|split].
  - by repeat (apply Forall_cons; split; [done|]).
  - assert (∀ x, ends_in backslash ("Environment=" +:+ in_quotes x) = false) as Henv.
    { intros x. rewrite ends_in_app by done. unfold in_quotes. by destruct x; cbn; [|rewrite ends_in_app]. }
    unfold unit_lines. repeat (apply Forall_cons; split; [solve [done|apply Henv|by rewrite <- text_app_assoc, ends_in_app]|]).
    done.
  - unfold unit_words. split.
    + change " daemon"%string with (String " " "daemon"). rewrite (unquote_quote _ _ ["daemon"%string]) by done.
      cbn [mbind option_bind mapM]. by rewrite expand_double.
    + rewrite unquote_in_quotes. cbn [mbind option_bind mapM]. by rewrite expand_double.
Qed.
End Rendering.

(** ** Witness *)

Definition ascii_categories : Categories := λ c,
  match ascii_code c with
  | Some n => if ((n <? 32) || (n =? 127))%N then "Cc"%string else "L"%string
  | None => "L"%string
  end.
Definition spaced_executable : text := "/opt/my apps/50%/proactive-mcp".
Definition quoted_database : text := ("/home/user/a " +:+ String dquote ("b" +:+ String dquote (String backslash "c/proactive.db")))%string.

Lemma ascii_utf8 s : forallb (λ c, bool_decide (is_Some (ascii_code c))) (chars s) = true → utf8_text s.
Proof.
  intros Hall c a Hc Hac _. apply list_elem_of_In in Hc. rewrite forallb_forall in Hall.
  specialize (Hall c Hc). apply bool_decide_eq_true in Hall as [n Hn]. destruct c as [|b [|b' c]]; [done| |done].
  cbn [has_char] in Hac. apply orb_true_iff in Hac as [Hac|]; [|done]. by apply Ascii.eqb_eq in Hac as ->.
Qed.
Lemma rendered_units_parse_back_witness :
  match render_user_unit (C := ascii_categories) spaced_executable quoted_database with
  | Ok t => is_managed_unit t = true ∧ ∃ e v, unit_file_lines "" t = unit_lines e v ∧
      unit_words e = Some [spaced_executable; "daemon"]%string
  | Err _ => False
  end.
Proof.
  destruct (render_user_unit (C := ascii_categories) spaced_executable quoted_database) as [t|e] eqn:Ht.
  - destruct (rendered_units_parse_back (C := ascii_categories) spaced_executable quoted_database t) as (Hm & e & v & Hl & _ & He & _);
      [reflexivity|apply ascii_utf8; reflexivity|apply ascii_utf8; reflexivity|discriminate|exact Ht|].
    split; [exact Hm|]. by exists e, v.
  - vm_compute in Ht. discriminate.
Defined.
