(* ===== verification/Systemd.v ===== *)
(** The watcher as a systemd user service ([cli/service_systemd.py], [cli/service.py]): the commands
    of the manager, and the install, status and remove transactions with their rollbacks. *)
From Stdlib Require Import Ascii.
From S2P Require Import Prelude Runs PyDate PyTime Models Memory DeadlineText Runtime Status Paths Services SystemdUnit.
#[local] Open Scope Z_scope.

(** ** The manager *)

Record CommandResult := mk_command_result { cr_succeeded : bool; cr_output : text }.
Definition _SYSTEMCTL : list text := ["systemctl"; "--user"].

Section Manager.
Context {W : Type} {H : ServiceHost W} {U : Unicode} {T : CharTables}.
Context (unit_name : text) (uid : Z).

Definition _run (arguments : list text) : M W service_exn CommandResult := λ w,
  let '(completed, w') := run_process arguments w in
  (Ok match completed with
      | None => mk_command_result false ""
      | Some c => mk_command_result (cp_returncode c =? 0) (cp_stdout c)
      end, w').
Definition systemctl (arguments : list text) : M W service_exn bool :=
  result ← _run (_SYSTEMCTL ++ arguments);
  mret (cr_succeeded result).

Definition reload : M W service_exn bool := systemctl ["daemon-reload"].
Definition enable : M W service_exn bool := systemctl ["enable"; unit_name].
Definition start : M W service_exn bool := systemctl ["start"; unit_name].
Definition stop : M W service_exn bool := systemctl ["stop"; unit_name].
Definition disable : M W service_exn bool := systemctl ["disable"; unit_name].
Definition is_enabled : M W service_exn bool := systemctl ["is-enabled"; unit_name].
Definition is_active : M W service_exn bool := systemctl ["is-active"; unit_name].
Definition main_pid : M W service_exn (option Z) :=
  result ← _run (_SYSTEMCTL ++ ["show"; unit_name; "--property=MainPID"; "--value"]);
  mret (if cr_succeeded result then parse_decimal (strip (cr_output result)) else None).
Definition linger_command : list text := ["loginctl"; "show-user"; pretty uid; "--property=Linger"; "--value"].
Definition linger : M W service_exn LingerState :=
  result ← _run linger_command;
  mret (if cr_succeeded result then
          let value := strip (cr_output result) in
          if bool_decide (value = "yes"%string) then LingerEnabled else
          if bool_decide (value = "no"%string) then LingerDisabled else LingerUnknown
        else LingerUnknown).
End Manager.

(** ** The lifecycle *)

(** The files of a unit: [Path.exists], [read_text], [write_text], [unlink] and [mkdir] of the
    parents. *)
Class UnitFiles (W : Type) := {
  exists_ : Path → M W service_exn bool;
  read_text : Path → M W service_exn text;
  write_text : Path → text → M W service_exn unit;
  unlink : Path → M W service_exn unit;
  unlink_missing_ok : Path → M W service_exn unit;
  make_parents : Path → M W service_exn unit;
}.

Definition _UNIT_NAME : text := "proactive-mcp.service".
Record _Layout := mk_layout { ly_unit : Path; ly_database : Path }.
Record _Snapshot := mk_snapshot {
  sn_managed : bool;
  sn_enabled : bool;
  sn_active : bool;
  sn_main_pid : option Z;
  sn_heartbeat : option HeartbeatState;
  sn_heartbeat_pid : option Z;
  sn_linger : LingerState;
}.
Record _ManagerState := mk_manager_state { ms_enabled : bool; ms_active : bool }.

(** [None]: the home directory is unknown, a [RuntimeError]. *)
Definition _layout (home : text → option Path) (cwd : Path) (xdg_config_home database : option Path)
    : res service_exn _Layout :=
  let layout := (
    config_home ← match xdg_config_home with
                  | None => (λ h, joined h ".config") <$> home "~"%string
                  | Some configured => Some configured
                  end;
    paths ← resolve_paths home cwd database;
    Some (mk_layout (joined (joined (joined config_home "systemd") "user") _UNIT_NAME) (pp_database paths))) in
  match layout with Some l => Ok l | None => Err OtherError end.

Section Lifecycle.
Context {W : Type} {H : ServiceHost W} {F : UnitFiles W} {U : Unicode} {T : CharTables} {C : Categories}.
Context (iv : Invocation).
Abbreviation op A := (M W service_exn A).
Abbreviation _MANAGER_enable := (enable (H := H) _UNIT_NAME).
Abbreviation _MANAGER_start := (start (H := H) _UNIT_NAME).
Abbreviation _MANAGER_stop := (stop (H := H) _UNIT_NAME).
Abbreviation _MANAGER_disable := (disable (H := H) _UNIT_NAME).
Abbreviation _MANAGER_is_enabled := (is_enabled (H := H) _UNIT_NAME).
Abbreviation _MANAGER_is_active := (is_active (H := H) _UNIT_NAME).
Abbreviation _MANAGER_linger := (linger (H := H) (iv_uid iv)).

Definition _response (outcome : ServiceOutcome) (snapshot : _Snapshot) : ServiceResponse :=
  mk_service_response (so_action outcome) (so_state outcome) _UNIT_NAME (sn_managed snapshot)
    (sn_enabled snapshot) (sn_active snapshot) (sn_main_pid snapshot) (sn_heartbeat snapshot) (sn_linger snapshot)
    (if bool_decide (sn_linger snapshot = LingerDisabled) then EnableLinger else GuidanceNone) (so_code outcome).
Definition _empty_snapshot (linger : option LingerState) : op _Snapshot :=
  l ← (match linger with Some l => mret l | None => _MANAGER_linger end);
  mret (mk_snapshot false false false None None None l).
Definition _result (action : ServiceAction) (state : ServiceState) (code : option ServiceCode) : op ServiceResponse :=
  snapshot ← _empty_snapshot None;
  mret (_response (mk_service_outcome action state code) snapshot).
Definition _failed (action : ServiceAction) (state : ServiceState) (code : ServiceCode) : op (ServiceResponse * bool) :=
  response ← _result action state (Some code); mret (response, false).

Definition _snapshot (layout : _Layout) : op _Snapshot :=
  managed ← and_then (exists_ (ly_unit layout)) (t ← read_text (ly_unit layout); mret (is_managed_unit t));
  enabled ← (if managed : bool then _MANAGER_is_enabled else mret false);
  active ← (if managed : bool then _MANAGER_is_active else mret false);
  pid ← (if active : bool then main_pid _UNIT_NAME else mret None);
  heartbeat ← (if active : bool then daemon_heartbeat else mret (None, None));
  l ← _MANAGER_linger;
  mret (mk_snapshot managed enabled active pid heartbeat.1 heartbeat.2 l).

Definition _restore_service_state (previous_state : _ManagerState) : op unit :=
  (if ms_enabled previous_state then _MANAGER_enable;; mret tt else mret tt);;
  (if ms_active previous_state then _MANAGER_start;; mret tt else mret tt).
Definition _rollback_install (layout : _Layout) (previous : option text) (previous_state : _ManagerState) : op unit :=
  _MANAGER_stop;;
  _MANAGER_disable;;
  (match previous with
   | None => unlink_missing_ok (ly_unit layout)
   | Some previous => write_text (ly_unit layout) previous
   end);;
  reload;;
  (match previous with None => mret tt | Some _ => _restore_service_state previous_state end).

Definition heartbeat_matches (snapshot : _Snapshot) : bool :=
  bool_decide (sn_heartbeat snapshot = Some Daemon.LiveRunning) &&
  bool_decide (sn_main_pid snapshot = sn_heartbeat_pid snapshot).

Definition _install (layout : _Layout) : op (ServiceResponse * bool) :=
  executable ← gets (current_executable iv);
  match executable with
  | None => _failed ActionInstall ServiceFailed BinaryNotFound
  | Some executable =>
    present ← exists_ (ly_unit layout);
    previous ← (if present : bool then t ← read_text (ly_unit layout); mret (Some t) else mret None);
    if match previous with None => false | Some p => negb (is_managed_unit p) end
    then _failed ActionInstall Unmanaged UnmanagedUnit else
    enabled ← _MANAGER_is_enabled;
    active ← _MANAGER_is_active;
    let previous_state := mk_manager_state enabled active in
    make_parents (ly_unit layout);;
    rendered ← lift (render_user_unit (path_text executable) (path_text (ly_database layout)));
    (if bool_decide (previous = Some rendered) then mret tt else write_text (ly_unit layout) rendered);;
    started ← and_then (and_then reload _MANAGER_enable) _MANAGER_start;
    if negb started then
      _rollback_install layout previous previous_state;;
      _failed ActionInstall ServiceFailed CommandFailed
    else
    snapshot ← _snapshot layout;
    if sn_enabled snapshot && sn_active snapshot && heartbeat_matches snapshot
    then mret (_response (mk_service_outcome ActionInstall Installed None) snapshot, true)
    else
      _rollback_install layout previous previous_state;;
      _failed ActionInstall ServiceFailed HeartbeatUnavailable
  end.

Definition _status (layout : _Layout) : op (ServiceResponse * bool) :=
  present ← exists_ (ly_unit layout);
  if negb present then response ← _result ActionStatus Absent None; mret (response, true) else
  t ← read_text (ly_unit layout);
  if negb (is_managed_unit t) then _failed ActionStatus Unmanaged UnmanagedUnit else
  snapshot ← _snapshot layout;
  let state := if sn_active snapshot then ServiceActive else ServiceInactive in
  let healthy := negb (sn_active snapshot) || heartbeat_matches snapshot in
  mret (_response (mk_service_outcome ActionStatus state (if healthy then None else Some HeartbeatUnavailable)) snapshot,
        healthy).

Definition _remove (layout : _Layout) : op (ServiceResponse * bool) :=
  present ← exists_ (ly_unit layout);
  if negb present then response ← _result ActionRemove Absent None; mret (response, true) else
  previous ← read_text (ly_unit layout);
  if negb (is_managed_unit previous) then _failed ActionRemove Unmanaged UnmanagedUnit else
  enabled ← _MANAGER_is_enabled;
  active ← _MANAGER_is_active;
  let previous_state := mk_manager_state enabled active in
  stopped ← and_then _MANAGER_stop _MANAGER_disable;
  if negb stopped then
    _restore_service_state previous_state;;
    _failed ActionRemove ServiceFailed CommandFailed
  else
  unlink (ly_unit layout);;
  reloaded ← reload;
  if negb reloaded then
    write_text (ly_unit layout) previous;;
    _restore_service_state previous_state;;
    _failed ActionRemove ServiceFailed CommandFailed
  else
  response ← _result ActionRemove Removed None; mret (response, true).

(** [execute_service] on Linux. *)
Definition execute_systemd (layout : res service_exn _Layout) (action : ServiceAction) : op ServiceCommandResult :=
  execute_guarded (λ code, _result action ServiceFailed (Some code))
    (l ← lift layout;
     match action with
     | ActionInstall => _install l
     | ActionStatus => _status l
     | ActionRemove => _remove l
     end).
End Lifecycle.

(** ** What the host promises *)

(** What the manager knows of the unit. *)
Record unit_state := mk_unit_state { us_enabled : bool; us_active : bool }.
#[export] Instance unit_state_eq_dec : EqDecision unit_state.
Proof. solve_decision. Defined.
(** What a command does to the unit it names. *)
Definition effect (verb : text) (s : unit_state) : unit_state :=
  if bool_decide (verb = "enable"%string) then mk_unit_state true (us_active s) else
  if bool_decide (verb = "disable"%string) then mk_unit_state false (us_active s) else
  if bool_decide (verb = "start"%string) then mk_unit_state (us_enabled s) true else
  if bool_decide (verb = "stop"%string) then mk_unit_state (us_enabled s) false else s.
Definition command (verb : text) : list text := _SYSTEMCTL ++ [verb; _UNIT_NAME].
Definition changes (arguments : list text) : bool :=
  bool_decide (arguments ∈ [command "enable"; command "disable"; command "start"; command "stop"]).
(** What can be observed of a host: the files, the unit in its manager, and the commands that were
    run, each with its exit status if it ended. *)
Class SystemdHost (W : Type) := {
  unit_file : W → Path → option text;
  manager_state : W → unit_state;
  commands : W → list (list text * option Z);
}.

Section Laws.
Context {W : Type} {H : ServiceHost W} {F : UnitFiles W} {O : SystemdHost W}.

(** Nothing happened but queries. *)
Definition quiet (w w' : W) : Prop :=
  (∀ p, unit_file w' p = unit_file w p) ∧ manager_state w' = manager_state w ∧
  ∃ log, commands w' = commands w ++ log ∧ Forall (λ c, changes c.1 = false) log.
Definition silent (w w' : W) : Prop :=
  (∀ p, unit_file w' p = unit_file w p) ∧ manager_state w' = manager_state w ∧ commands w' = commands w.
Definition writes_only (path : Path) (w w' : W) : Prop :=
  (∀ p, p ≠ path → unit_file w' p = unit_file w p) ∧ manager_state w' = manager_state w ∧ commands w' = commands w.

(** Commands touch no unit file and are remembered; one that changes the unit has done so when it
    exits with 0, and has or has not otherwise; a query that ends tells the truth.  File operations
    touch the file they name and no command. *)
Class SystemdLaws : Prop := {
  process_law arguments w r w' : run_process arguments w = (r, w') →
    (∀ p, unit_file w' p = unit_file w p) ∧ commands w' = commands w ++ [(arguments, cp_returncode <$> r)] ∧
    (changes arguments = false → manager_state w' = manager_state w) ∧
    (∀ verb, arguments = command verb →
       (manager_state w' = manager_state w ∨ manager_state w' = effect verb (manager_state w)) ∧
       (cp_returncode <$> r = Some 0 → manager_state w' = effect verb (manager_state w))) ∧
    (arguments = command "is-enabled" → ∀ c, cp_returncode <$> r = Some c → us_enabled (manager_state w) = (c =? 0)) ∧
    (arguments = command "is-active" → ∀ c, cp_returncode <$> r = Some c → us_active (manager_state w) = (c =? 0));
  status_law w r w' : status_daemon w = (r, w') → silent w w';
  exists_law p w r w' : exists_ p w = (r, w') →
    silent w w' ∧ ∀ b, r = Ok b → b = bool_decide (is_Some (unit_file w p));
  read_law p w r w' : read_text p w = (r, w') →
    silent w w' ∧ ∀ t, r = Ok t → universal_newlines <$> unit_file w p = Some t;
  write_law p t w r w' : write_text p t w = (r, w') → writes_only p w w' ∧ (r = Ok tt → unit_file w' p = Some t);
  unlink_law p w r w' : unlink p w = (r, w') → writes_only p w w' ∧ (r = Ok tt → unit_file w' p = None);
  unlink_missing_law p w r w' :
    unlink_missing_ok p w = (r, w') → writes_only p w w' ∧ (r = Ok tt → unit_file w' p = None);
  parents_law p w r w' : make_parents p w = (r, w') → silent w w';
}.
End Laws.

(** ** Runs of the lifecycle *)

Definition succeeded (c : list text * option Z) : Prop := c.2 = Some 0.
(** Follows the observations of a run back to its start. *)
Ltac chain :=
  repeat match goal with
         | H : ∀ p, unit_file ?w p = _ |- context [unit_file ?w _] => rewrite H
         | H : commands ?w = _ |- context [commands ?w] => rewrite H
         end.

Ltac told := split; [intros ?; chain; reflexivity|chain; rewrite <- ?app_assoc; first [reflexivity|symmetry; apply app_nil_r]].
(** When every command of a log succeeded, the manager's state is what they say. *)
Ltac obeyed :=
  let Hall := fresh in
  intros Hall; cbn [app] in Hall;
  repeat match goal with H : Forall _ (_ :: _) |- _ => apply Forall_cons in H as [? ?] end;
  repeat match goal with
         | H : ?c = Some 0 → _, Hc : succeeded (_, ?c) |- _ => specialize (H Hc)
         end;
  repeat match goal with H : manager_state ?w = _ |- context [manager_state ?w] => rewrite H end;
  repeat match goal with |- context [manager_state ?w] => destruct (manager_state w) end; reflexivity.

Section Transactions.
Context {W : Type} {H : ServiceHost W} {F : UnitFiles W} {O : SystemdHost W} {L : SystemdLaws}.
Context {U : Unicode} {T : CharTables} {C : Categories} (iv : Invocation).

#[export] Instance quiet_preorder : PreOrder quiet.
Proof.
  split; [intros w; split; [done|split; [done|exists []; by rewrite app_nil_r]]|].
  intros w1 w2 w3 (Hf1 & Hm1 & l1 & Hl1 & Hq1) (Hf2 & Hm2 & l2 & Hl2 & Hq2). split; [congruence|]. split; [congruence|].
  exists (l1 ++ l2). rewrite Hl2, Hl1, app_assoc. split; [done|]. by apply Forall_app.
Qed.
Lemma silent_quiet w w' : silent w w' → quiet w w'.
Proof. intros (? & ? & Hc). split; [done|]. split; [done|]. exists []. by rewrite app_nil_r. Qed.

#[export] Instance quiet_run arguments : changes arguments = false → Preserves quiet (_run arguments).
Proof.
  intros Hc w r w'. unfold _run. destruct (run_process arguments w) as [c w1] eqn:Hr. intros [= _ <-].
  apply process_law in Hr as (? & Hlog & Hm & _). split; [done|]. split; [by apply Hm|].
  eexists. split; [exact Hlog|]. by apply Forall_singleton.
Qed.
#[export] Instance quiet_linger uid : Preserves quiet (linger uid).
Proof. unfold linger. apply preserves_bind; [apply _|by apply quiet_run|apply _]. Qed.
#[export] Instance quiet_main_pid : Preserves quiet (main_pid _UNIT_NAME).
Proof. unfold main_pid. apply preserves_bind; [apply _|by apply quiet_run|apply _]. Qed.
#[export] Instance quiet_is_enabled : Preserves quiet (is_enabled _UNIT_NAME).
Proof. unfold is_enabled, systemctl. apply preserves_bind; [apply _|by apply quiet_run|apply _]. Qed.
#[export] Instance quiet_is_active : Preserves quiet (is_active _UNIT_NAME).
Proof. unfold is_active, systemctl. apply preserves_bind; [apply _|by apply quiet_run|apply _]. Qed.
#[export] Instance quiet_exists p : Preserves quiet (exists_ p).
Proof. intros w r w' [Hr _]%exists_law. by apply silent_quiet. Qed.
#[export] Instance quiet_read p : Preserves quiet (read_text p).
Proof. intros w r w' [Hr _]%read_law. by apply silent_quiet. Qed.
#[export] Instance quiet_parents p : Preserves quiet (make_parents p).
Proof. intros w r w' Hr%parents_law. by apply silent_quiet. Qed.
#[export] Instance quiet_heartbeat : Preserves quiet daemon_heartbeat.
Proof.
  unfold daemon_heartbeat. apply preserves_try; [apply _| |by intros []; apply _].
  apply preserves_bind; [apply _| |apply _]. intros w r w' Hr%status_law. by apply silent_quiet.
Qed.
#[export] Instance quiet_snapshot layout : Preserves quiet (_snapshot iv layout).
Proof. unfold _snapshot. apply _. Qed.
#[export] Instance quiet_result action state code : Preserves quiet (_result iv action state code).
Proof. unfold _result, _empty_snapshot. apply _. Qed.
#[export] Instance quiet_failed action state code : Preserves quiet (_failed iv action state code).
Proof. unfold _failed. apply _. Qed.
#[export] Instance quiet_status layout : Preserves quiet (_status iv layout).
Proof. unfold _status. apply _. Qed.

Lemma exit_status c :
  bool_decide (cp_returncode <$> c = Some 0) =
  cr_succeeded match c with
               | None => mk_command_result false ""
               | Some c => mk_command_result (cp_returncode c =? 0) (cp_stdout c)
               end.
Proof.
  destruct c as [c|]; cbn; [|done]. destruct (Z.eqb_spec (cp_returncode c) 0) as [->|Hne]; [done|].
  apply bool_decide_eq_false_2. congruence.
Qed.

(** The commands, one rule for all: what was run and how it ended decides the answer. *)
Lemma wp_systemctl verb (Q : res service_exn bool → W → Prop) w :
  (∀ c w', (∀ p, unit_file w' p = unit_file w p) → commands w' = commands w ++ [(command verb, c)] →
     (manager_state w' = manager_state w ∨ manager_state w' = effect verb (manager_state w)) →
     (c = Some 0 → manager_state w' = effect verb (manager_state w)) →
     Q (Ok (bool_decide (c = Some 0))) w') →
  wp (systemctl [verb; _UNIT_NAME]) Q w.
Proof.
  intros HQ. unfold systemctl. apply wp_bind, wp_intro. intros r w'. unfold _run.
  destruct (run_process _ w) as [c w1] eqn:Hr. intros [= <- <-]. apply wp_ret.
  pose proof (process_law _ _ _ _ Hr) as (Hf & Hlog & _ & He & _). destruct (He verb eq_refl) as [Hor Hok].
  specialize (HQ (cp_returncode <$> c) w1 Hf Hlog Hor Hok).
  by rewrite <- exit_status.
Qed.
Lemma wp_query verb (field : unit_state → bool) (Q : res service_exn bool → W → Prop) w :
  (verb, field) ∈ [("is-enabled"%string, us_enabled); ("is-active"%string, us_active)] →
  (∀ c w', (∀ p, unit_file w' p = unit_file w p) → commands w' = commands w ++ [(command verb, c)] →
     manager_state w' = manager_state w → (c ≠ None → field (manager_state w) = bool_decide (c = Some 0)) →
     Q (Ok (bool_decide (c = Some 0))) w') →
  wp (systemctl [verb; _UNIT_NAME]) Q w.
Proof.
  intros Hverb HQ. unfold systemctl. apply wp_bind, wp_intro. intros r w'. unfold _run.
  destruct (run_process _ w) as [c w1] eqn:Hr. intros [= <- <-]. apply wp_ret.
  pose proof (process_law _ _ _ _ Hr) as (Hf & Hlog & Hm & _ & Hen & Hact).
  assert (manager_state w1 = manager_state w) as Hsame.
  { apply Hm. repeat (apply elem_of_cons in Hverb as [[= -> _]|Hverb]; [done|]). by apply elem_of_nil in Hverb. }
  specialize (HQ (cp_returncode <$> c) w1 Hf Hlog Hsame).
  rewrite <- exit_status. apply HQ. intros Hc. rewrite exit_status. destruct c as [c|]; [|done]. cbn.
  repeat (apply elem_of_cons in Hverb as [[= -> ->]|Hverb]; [first [by apply Hen|by apply Hact]|]).
  by apply elem_of_nil in Hverb.
Qed.

Lemma wp_reload (Q : res service_exn bool → W → Prop) w :
  (∀ c w', (∀ p, unit_file w' p = unit_file w p) → commands w' = commands w ++ [(_SYSTEMCTL ++ ["daemon-reload"%string], c)] →
     manager_state w' = manager_state w → Q (Ok (bool_decide (c = Some 0))) w') →
  wp reload Q w.
Proof.
  intros HQ. apply wp_intro. intros r w'. unfold reload, systemctl, _run, mbind, M_bind.
  destruct (run_process _ w) as [c w1] eqn:Hr. intros [= <- <-].
  pose proof (process_law _ _ _ _ Hr) as (Hf & Hlog & Hm & _). specialize (HQ _ _ Hf Hlog (Hm eq_refl)).
  by rewrite <- exit_status.
Qed.

(** A part of a run that touched no file and sent [log]. *)
Definition sent (w w' : W) (log : list (list text * option Z)) : Prop :=
  (∀ p, unit_file w' p = unit_file w p) ∧ commands w' = commands w ++ log.
Definition restored (previous : _ManagerState) (s : unit_state) : unit_state :=
  mk_unit_state (ms_enabled previous || us_enabled s) (ms_active previous || us_active s).

Lemma wp_restore previous_state (Q : res service_exn unit → W → Prop) w :
  (∀ log w', sent w w' log → (Forall succeeded log → manager_state w' = restored previous_state (manager_state w)) →
     Q (Ok tt) w') →
  wp (_restore_service_state previous_state) Q w.
Proof.
  intros HQ. unfold _restore_service_state, enable, start.
  destruct previous_state as [[] []]; cbn [ms_enabled ms_active];
    repeat first [run_step|apply wp_systemctl; intros ? ? ? ? ? ?].
  all: eapply HQ; [told|obeyed].
Qed.

(** A rollback that returns has put the file back; when every command of it succeeded, the manager
    is back too: a unit that was there is as it was, one that was not is stopped and disabled. *)
Lemma wp_rollback layout previous previous_state (Q : res service_exn unit → W → Prop) w :
  (∀ log w', unit_file w' (ly_unit layout) = previous → commands w' = commands w ++ log →
     (Forall succeeded log → manager_state w' =
        match previous with
        | None => mk_unit_state false false
        | Some _ => mk_unit_state (ms_enabled previous_state) (ms_active previous_state)
        end) →
     Q (Ok tt) w') →
  (∀ e w', Q (Err e) w') →
  wp (_rollback_install layout previous previous_state) Q w.
Proof.
  intros HQ Herr. unfold _rollback_install, stop, disable, reload.
  apply wp_bind, wp_systemctl. intros c1 w1 Hf1 Hl1 _ Hs1. apply wp_bind, wp_systemctl. intros c2 w2 Hf2 Hl2 _ Hs2.
  apply wp_bind. apply (wp_mono _ (λ r w3, match r with
    | Ok _ => unit_file w3 (ly_unit layout) = previous ∧ manager_state w3 = manager_state w2 ∧ commands w3 = commands w2
    | Err _ => True end)).
  - intros [[]|e] w3; [|by intros _; apply Herr]. intros (Hfile & Hs3 & Hl3). apply wp_bind, wp_reload.
    intros c4 w4 Hf4 Hl4 Hs4. destruct previous as [t|].
    + apply wp_restore. intros log w5 [Hf5 Hl5] Hs5. eapply HQ; [by chain|chain; rewrite <- !app_assoc; reflexivity|].
      rewrite !Forall_app. intros (Hc1 & Hc2 & _ & Hlog). rewrite (Hs5 Hlog), Hs4, Hs3. rewrite Forall_singleton in Hc1, Hc2.
      rewrite (Hs2 Hc2), (Hs1 Hc1). by destruct previous_state as [[] []].
    + apply wp_ret. eapply HQ; [by chain|chain; rewrite <- !app_assoc; reflexivity|]. obeyed.
  - apply wp_intro. destruct previous as [t|]; intros [[]|e] w3.
    + intros [(_ & ? & ?) Hw]%write_law. auto.
    + done.
    + intros [(_ & ? & ?) Hw]%unlink_missing_law. auto.
    + done.
Qed.

(** What a snapshot answers is so. *)
Definition managed_file (layout : _Layout) (w : W) : Prop :=
  ∃ raw, unit_file w (ly_unit layout) = Some raw ∧ is_managed_unit (universal_newlines raw) = true.
(** The manager named [pid] and the store then told [heartbeat] of the process [heartbeat_pid], with
    the files and the unit as in [w]. *)
Definition daemon_seen (pid : option Z) (heartbeat : option HeartbeatState) (heartbeat_pid : option Z) (w : W) : Prop :=
  ∃ w1 w2 w3, main_pid _UNIT_NAME w1 = (Ok pid, w2) ∧ daemon_heartbeat w2 = (Ok (heartbeat, heartbeat_pid), w3) ∧ quiet w1 w.
Definition truthful (layout : _Layout) (sn : _Snapshot) (w w' : W) : Prop :=
  (sn_enabled sn = true → us_enabled (manager_state w) = true) ∧
  (sn_active sn = true → us_active (manager_state w) = true ∧ managed_file layout w ∧
     daemon_seen (sn_main_pid sn) (sn_heartbeat sn) (sn_heartbeat_pid sn) w').

Lemma wp_read_present layout (Q : res service_exn (option text) → W → Prop) w :
  (∀ w', silent w w' → Q (Ok (universal_newlines <$> unit_file w (ly_unit layout))) w') →
  (∀ e w', silent w w' → Q (Err e) w') →
  wp (present ← exists_ (ly_unit layout);
      if present : bool then t ← read_text (ly_unit layout); mret (Some t) else mret None) Q w.
Proof.
  intros HQ Herr. apply wp_bind, wp_intro. intros [b|e] w1 [Hs1 Hb]%exists_law; [|by apply Herr].
  specialize (Hb _ eq_refl). destruct b.
  - apply wp_bind, wp_intro. intros [t|e] w2 [Hs2 Ht]%read_law.
    + apply wp_ret. specialize (Ht _ eq_refl). destruct Hs1 as (Hf1 & ? & ?), Hs2 as (Hf2 & ? & ?).
      rewrite <- Ht, Hf1. apply HQ. split; [intros p; by rewrite Hf2, Hf1|split; congruence].
    + apply Herr. destruct Hs1 as (Hf1 & ? & ?), Hs2 as (Hf2 & ? & ?).
      split; [intros p; by rewrite Hf2, Hf1|split; congruence].
  - apply wp_ret. symmetry in Hb. apply bool_decide_eq_false in Hb.
    destruct (unit_file w (ly_unit layout)) eqn:Hf; [by destruct Hb|]. specialize (HQ w1 Hs1). by rewrite ?Hf in HQ.
Qed.

Lemma query_true verb field w w' :
  (verb, field) ∈ [("is-enabled"%string, us_enabled); ("is-active"%string, us_active)] →
  systemctl [verb; _UNIT_NAME] w = (Ok true, w') → field (manager_state w) = true.
Proof.
  intros Hverb Hrun. refine (wp_run _ (λ r _, r = Ok true → field (manager_state w) = true) _ _ _ Hrun _ eq_refl).
  apply (wp_query _ field _ _ Hverb). intros c w1 _ _ _ Hc [= Htrue]. rewrite Htrue in Hc. apply Hc.
  by apply bool_decide_eq_true in Htrue as ->.
Qed.
Lemma wp_snapshot layout (Q : res service_exn _Snapshot → W → Prop) w :
  (∀ sn w', quiet w w' → truthful layout sn w w' → Q (Ok sn) w') →
  (∀ e w', quiet w w' → Q (Err e) w') →
  wp (_snapshot iv layout) Q w.
Proof.
  intros HQ Herr.
  apply (wp_mono _ (λ r w', quiet w w' ∧ ∀ sn, r = Ok sn → truthful layout sn w w')).
  { intros [sn|e] w' [Hq Ht]; [by apply HQ, Ht|by apply Herr]. }
  apply wp_intro. intros r w' Hrun. split; [by apply (quiet_snapshot layout _ _ _ Hrun)|]. intros sn ->.
  revert Hrun. unfold _snapshot. intros (managed & w1 & Hm & Hrun)%bind_ok.
  assert (managed = true → managed_file layout w) as Hmanaged.
  { intros ->. unfold and_then in Hm. apply bind_ok in Hm as (b & w2 & [(Hf & _) _]%exists_law & Hm).
    destruct b; [|done]. apply bind_ok in Hm as (t & w3 & [_ Ht]%read_law & [= Hm _]).
    specialize (Ht _ eq_refl). apply fmap_Some in Ht as (raw & Hraw & ->). exists raw. by rewrite <- Hf. }
  assert (manager_state w1 = manager_state w) as Hs1.
  { refine (proj1 (proj2 (_ : quiet w w1))).
    assert (Preserves quiet (and_then (exists_ (ly_unit layout))
      (t ← read_text (ly_unit layout); mret (is_managed_unit t)))) as Hq by apply _. by apply (Hq _ _ _ Hm). }
  apply bind_ok in Hrun as (enabled & w2 & He & Hrun).
  assert (manager_state w2 = manager_state w1 ∧ (enabled = true → us_enabled (manager_state w1) = true)) as [Hs2 Hen].
  { destruct managed; [|by injection He as <- <-]. split; [by destruct (quiet_is_enabled _ _ _ He) as (_ & ? & _)|].
    intros ->. refine (query_true _ us_enabled _ _ _ He). left. }
  apply bind_ok in Hrun as (active & w3 & Ha & Hrun).
  assert (active = true → us_active (manager_state w2) = true ∧ managed = true) as Hac.
  { destruct managed; [|by injection Ha as <- <-]. intros ->. split; [|done]. refine (query_true _ us_active _ _ _ Ha). by right; left. }
  apply bind_ok in Hrun as (pid & w4 & Hpid & Hrun). apply bind_ok in Hrun as ([hb hbpid] & w5 & Hhb & Hrun).
  apply bind_ok in Hrun as (l & w6 & Hl & [= <- <-]). split; cbn; [by rewrite <- Hs1|].
  intros ->. destruct (Hac eq_refl) as [? ?]. split; [by rewrite <- Hs1, <- Hs2|]. split; [auto|]. exists w3, w4, w5.
  split; [done|]. split; [done|]. etrans; [exact (quiet_main_pid _ _ _ Hpid)|].
  etrans; [exact (quiet_heartbeat _ _ _ Hhb)|exact (quiet_linger _ _ _ _ Hl)].
Qed.

(** *** The promise *)

(** A failed command sent the two queries, did what it did, and then sent [undo] and asked for the
    linger state.  Its unit file is back; when the queries were answered and [undo] succeeded, so is
    the manager's state, except that a unit that had no file is stopped and disabled. *)
Definition undone (layout : _Layout) (w w' : W) : Prop :=
  ∃ c1 c2 log undo c3,
    commands w' = commands w ++ [(command "is-enabled", c1); (command "is-active", c2)] ++ log ++ undo ++
      [(linger_command (iv_uid iv), c3)] ∧
    (unit_file w' (ly_unit layout) = unit_file w (ly_unit layout) ∨
     unit_file w' (ly_unit layout) = universal_newlines <$> unit_file w (ly_unit layout)) ∧
    (c1 ≠ None → c2 ≠ None → Forall succeeded undo → manager_state w' =
       match unit_file w (ly_unit layout) with
       | Some _ => manager_state w
       | None => mk_unit_state false false
       end).
Definition installed (layout : _Layout) (w w' : W) : Prop :=
  manager_state w' = mk_unit_state true true ∧
  ∃ executable rendered, current_executable iv w = Some executable ∧
    render_user_unit (path_text executable) (path_text (ly_database layout)) = Ok rendered ∧
    (unit_file w' (ly_unit layout) = Some rendered ∨
     universal_newlines <$> unit_file w' (ly_unit layout) = Some rendered).
(** What an answer to a command says of the host before and after. *)
Definition honest (layout : _Layout) (action : ServiceAction) (w w' : W) (resp : ServiceResponse) (ok : bool) : Prop :=
  sr_action resp = action ∧ answers action (sr_state resp) = true ∧
  match sr_state resp with
  | Installed => ok = true ∧ installed layout w w' ∧ sr_heartbeat resp = Some Daemon.LiveRunning ∧
      daemon_seen (sr_main_pid resp) (Some Daemon.LiveRunning) (sr_main_pid resp) w'
  | ServiceActive => quiet w w' ∧ managed_file layout w ∧ us_active (manager_state w) = true ∧
      ∃ heartbeat_pid, daemon_seen (sr_main_pid resp) (sr_heartbeat resp) heartbeat_pid w' ∧
        (ok = true ↔ sr_heartbeat resp = Some Daemon.LiveRunning ∧ sr_main_pid resp = heartbeat_pid)
  | ServiceInactive => quiet w w' ∧ managed_file layout w ∧ ok = true
  | Removed => ok = true ∧ unit_file w' (ly_unit layout) = None ∧ manager_state w' = mk_unit_state false false
  | Absent => ok = true ∧ quiet w w' ∧ unit_file w (ly_unit layout) = None
  | Unmanaged => ok = false ∧ quiet w w' ∧
      ∃ raw, unit_file w (ly_unit layout) = Some raw ∧ is_managed_unit (universal_newlines raw) = false
  | ServiceFailed => ok = false ∧
      match sr_code resp with
      | Some BinaryNotFound => quiet w w'
      | Some CommandFailed | Some HeartbeatUnavailable => undone layout w w'
      | _ => False
      end
  | Unsupported => False
  end.

Lemma wp_answer action state code ok (Q : res service_exn (ServiceResponse * bool) → W → Prop) w :
  (∀ l c w', quiet w w' → commands w' = commands w ++ [(linger_command (iv_uid iv), c)] →
     Q (Ok (_response (mk_service_outcome action state code) (mk_snapshot false false false None None None l), ok)) w') →
  wp (response ← _result iv action state code; mret (response, ok)) Q w.
Proof.
  intros HQ. apply wp_bind, wp_intro. intros r w' Hrun. pose proof (quiet_result _ _ _ _ _ _ Hrun) as Hq. revert Hrun.
  unfold _result, _empty_snapshot, linger, _run, mbind, M_bind.
  destruct (run_process _ w) as [c w1] eqn:Hr. apply process_law in Hr as (_ & Hlog & _). intros [= <- <-].
  by eapply HQ.
Qed.

Lemma quiet_trans_silent w w1 w' : silent w w1 → quiet w1 w' → quiet w w'.
Proof. intros H1%silent_quiet H2. by etrans. Qed.

(** An honest answer of an install that failed after its file was replaced. *)
Lemma wp_undo layout w0 w previous_state c1 c2 log code :
  (c1 ≠ None → us_enabled (manager_state w0) = ms_enabled previous_state) →
  (c2 ≠ None → us_active (manager_state w0) = ms_active previous_state) →
  commands w = commands w0 ++ [(command "is-enabled", c1); (command "is-active", c2)] ++ log →
  code = CommandFailed ∨ code = HeartbeatUnavailable →
  wp (_rollback_install layout (universal_newlines <$> unit_file w0 (ly_unit layout)) previous_state;;
      _failed iv ActionInstall ServiceFailed code)
    (λ r w', match r with Ok (resp, ok) => honest layout ActionInstall w0 w' resp ok | Err _ => True end) w.
Proof.
  intros Hen Hac Hlog Hcode. apply wp_bind, wp_rollback; [|done]. intros undo w1 Hfile Hl1 Hs1.
  apply wp_answer. intros l c3 w2 (Hf2 & Hs2 & _) Hl2. cbn [honest _response so_state so_code sr_state sr_code]. do 3 (split; [done|]).
  assert (undone layout w0 w2) as Hundone; [|by destruct Hcode as [-> | ->]].
  exists c1, c2, log, undo, c3. split; [rewrite Hl2, Hl1, Hlog, <- !app_assoc; done|]. split; [right; by rewrite Hf2|].
  intros Hc1 Hc2 Hundo. rewrite Hs2, (Hs1 Hundo). destruct (unit_file w0 (ly_unit layout)); [|done].
  cbn [fmap option_fmap option_map]. rewrite <- (Hen Hc1), <- (Hac Hc2). by destruct (manager_state w0).
Qed.

Definition answers_honestly (layout : _Layout) (action : ServiceAction) (w : W) (r : res service_exn (ServiceResponse * bool)) (w' : W) : Prop :=
  match r with Ok (resp, ok) => honest layout action w w' resp ok | Err _ => True end.

Lemma wp_started (Q : res service_exn bool → W → Prop) w :
  (∀ b log w', sent w w' log → (b = true → manager_state w' = mk_unit_state true true) → Q (Ok b) w') →
  wp (and_then (and_then reload (enable _UNIT_NAME)) (start _UNIT_NAME)) Q w.
Proof.
  intros HQ. unfold and_then, enable, start. apply wp_bind, wp_bind, wp_reload. intros c1 w1 Hf1 Hl1 Hm1.
  destruct (bool_decide (c1 = Some 0)).
  2: { apply wp_ret, wp_ret. eapply HQ; [told|done]. }
  apply wp_systemctl. intros c2 w2 Hf2 Hl2 _ Hm2. destruct (bool_decide (c2 = Some 0)) eqn:Hc2.
  2: { apply wp_ret. eapply HQ; [told|done]. }
  apply wp_systemctl. intros c3 w3 Hf3 Hl3 _ Hm3. eapply HQ; [told|]. intros Hc3%bool_decide_eq_true.
  apply bool_decide_eq_true in Hc2. by rewrite (Hm3 Hc3), (Hm2 Hc2).
Qed.

Lemma install_honest layout w : wp (_install iv layout) (answers_honestly layout ActionInstall w) w.
Proof.
  unfold _install. apply wp_bind, wp_gets. destruct (current_executable iv w) as [executable|] eqn:Hex.
  2: { apply wp_answer. intros l c w' Hq _. by do 3 (split; [done|]). }
  apply wp_assoc, wp_bind, wp_read_present; [|done]. intros w1 Hs1.
  destruct (match universal_newlines <$> _ with None => false | Some p => negb (is_managed_unit p) end) eqn:Hman.
  { apply wp_answer. intros l c w' Hq _. do 3 (split; [done|]). split; [by eapply quiet_trans_silent|].
    destruct (unit_file w (ly_unit layout)) as [raw|]; [|done]. exists raw. cbn in Hman. by apply negb_true_iff in Hman. }
  destruct Hs1 as (Hf1 & Hm1 & Hl1). unfold is_enabled, is_active.
  apply wp_bind, (wp_query "is-enabled" us_enabled); [by left|]. intros c1 w2 Hf2 Hl2 Hm2 Hc1.
  apply wp_bind, (wp_query "is-active" us_active); [by right; left|]. intros c2 w3 Hf3 Hl3 Hm3 Hc2.
  apply wp_bind, wp_intro. intros [[]|e] w4 (Hf4 & Hm4 & Hl4)%parents_law; [|done].
  apply wp_bind, wp_lift. destruct (render_user_unit _ _) as [rendered|] eqn:Hr; [|done].
  apply wp_bind. set (previous := universal_newlines <$> unit_file w (ly_unit layout)).
  apply (wp_mono _ (λ r w5, match r with
    | Ok _ => (unit_file w5 (ly_unit layout) = Some rendered ∨ universal_newlines <$> unit_file w5 (ly_unit layout) = Some rendered) ∧
        manager_state w5 = manager_state w4 ∧ commands w5 = commands w4
    | Err _ => True end)).
  2: { destruct (bool_decide (previous = Some rendered)) eqn:Hp.
    - apply wp_ret. split; [right|done]. apply bool_decide_eq_true in Hp. rewrite <- Hp. unfold previous. by chain.
    - apply wp_intro. intros [[]|e] w5 [(_ & ? & ?) Hw]%write_law; [|done]. split; [left; by apply Hw|done]. }
  intros [[]|e] w5; [|done]. intros (Hfile & Hm5 & Hl5). apply wp_bind, wp_started. intros b log w6 [Hf6 Hl6] Hm6.
  assert (∀ code log' w', code = CommandFailed ∨ code = HeartbeatUnavailable → commands w' = commands w6 ++ log' →
    wp (_rollback_install layout previous (mk_manager_state (bool_decide (c1 = Some 0)) (bool_decide (c2 = Some 0)));;
        _failed iv ActionInstall ServiceFailed code) (answers_honestly layout ActionInstall w) w') as Hundo.
  { intros code log' w' Hcode Hl'. apply (wp_undo _ _ _ _ c1 c2 (log ++ log')); cbn; [|by rewrite <- Hm1, <- Hm2| |done].
    - by rewrite <- Hm1.
    - rewrite Hl', Hl6, Hl5, Hl4, Hl3, Hl2, Hl1, <- !app_assoc. done. }
  destruct b; cbn [negb]; [|apply (Hundo _ []); [by left|by rewrite app_nil_r]].
  apply wp_bind, wp_snapshot; [|done]. intros sn w7 (Hf7 & Hm7 & log7 & Hl7 & _) [Hen Hac].
  destruct (sn_enabled sn && sn_active sn && heartbeat_matches sn) eqn:Hready; [|by eapply Hundo; [right|]].
  apply wp_ret. do 3 (split; [done|]).
  apply andb_true_iff in Hready as [[_ Hact]%andb_true_iff [Hhb%bool_decide_eq_true Hpid%bool_decide_eq_true]%andb_true_iff].
  destruct (Hac Hact) as (_ & _ & Hseen). rewrite Hhb, <- Hpid in Hseen. cbn [_response sr_heartbeat sr_main_pid]. split; [|by split].
  split; [by rewrite Hm7, Hm6|]. exists executable, rendered.
  split; [done|]. split; [done|]. by rewrite Hf7, Hf6.
Qed.

(** Redoing what a stop and a disable may have undone gives the old state. *)
Lemma restored_back previous s s' :
  ms_enabled previous = us_enabled s → ms_active previous = us_active s →
  us_enabled s' = us_enabled s ∨ us_enabled s' = false → us_active s' = us_active s ∨ us_active s' = false →
  restored previous s' = s.
Proof.
  destruct s as [e a], s' as [e' a'], previous as [pe pa]. cbn. intros -> -> He Ha. unfold restored. cbn.
  by destruct He as [-> | ->], Ha as [-> | ->], e, a.
Qed.
Definition lowered (s s' : unit_state) : Prop :=
  (us_enabled s' = us_enabled s ∨ us_enabled s' = false) ∧ (us_active s' = us_active s ∨ us_active s' = false).
Lemma wp_stopped (Q : res service_exn bool → W → Prop) w :
  (∀ b log w', sent w w' log → lowered (manager_state w) (manager_state w') →
     (b = true → manager_state w' = mk_unit_state false false) → Q (Ok b) w') →
  wp (and_then (stop _UNIT_NAME) (disable _UNIT_NAME)) Q w.
Proof.
  intros HQ. unfold and_then, stop, disable. apply wp_bind, wp_systemctl. intros c1 w1 Hf1 Hl1 Hor1 Hm1.
  assert (lowered (manager_state w) (manager_state w1)) as Hlow1.
  { destruct Hor1 as [-> | ->]; split; cbn; auto. }
  destruct (bool_decide (c1 = Some 0)) eqn:Hc1.
  2: { apply wp_ret. eapply HQ; [told|done|done]. }
  apply wp_systemctl. intros c2 w2 Hf2 Hl2 Hor2 Hm2. eapply HQ; [told| |].
  - destruct Hlow1 as [He Ha], Hor2 as [-> | ->]; split; cbn; auto.
  - intros Hc2%bool_decide_eq_true. apply bool_decide_eq_true in Hc1. by rewrite (Hm2 Hc2), (Hm1 Hc1).
Qed.

Lemma remove_honest layout w : wp (_remove iv layout) (answers_honestly layout ActionRemove w) w.
Proof.
  unfold _remove. apply wp_bind, wp_intro. intros [present|e] w1 [Hs1 Hb]%exists_law; [|done]. specialize (Hb _ eq_refl).
  destruct present; cbn [negb]; symmetry in Hb.
  2: { apply wp_answer. intros l c w' Hq _. do 3 (split; [done|]). split; [by eapply quiet_trans_silent|].
    apply bool_decide_eq_false in Hb. destruct (unit_file w _); [by destruct Hb|done]. }
  apply wp_bind, wp_intro. intros [t|e] w2 [Hs2 Ht]%read_law; [|done]. specialize (Ht _ eq_refl).
  destruct Hs1 as (Hf1 & Hm1 & Hl1), Hs2 as (Hf2 & Hm2 & Hl2). rewrite Hf1 in Ht.
  destruct (is_managed_unit t) eqn:Hman; cbn [negb].
  2: { apply wp_answer. intros l c w' Hq _. do 3 (split; [done|]). apply fmap_Some in Ht as (raw & Hraw & ->).
    split; [|by exists raw]. etrans; [|exact Hq]. apply silent_quiet. split; [intros p; by chain|split; congruence]. }
  unfold is_enabled, is_active.
  apply wp_bind, (wp_query "is-enabled" us_enabled); [by left|]. intros c1 w3 Hf3 Hl3 Hm3 Hc1.
  apply wp_bind, (wp_query "is-active" us_active); [by right; left|]. intros c2 w4 Hf4 Hl4 Hm4 Hc2.
  set (previous_state := mk_manager_state (bool_decide (c1 = Some 0)) (bool_decide (c2 = Some 0))).
  assert (manager_state w4 = manager_state w) as Hm by congruence.
  assert (commands w4 = commands w ++ [(command "is-enabled", c1); (command "is-active", c2)]) as Hl
    by (chain; by rewrite <- app_assoc).
  apply wp_bind, wp_stopped. intros stopped log w5 [Hf5 Hl5] Hlow Hoff.
  assert (∀ w6 log', (unit_file w6 (ly_unit layout) = unit_file w (ly_unit layout) ∨
      unit_file w6 (ly_unit layout) = universal_newlines <$> unit_file w (ly_unit layout)) →
    manager_state w6 = manager_state w5 → commands w6 = commands w5 ++ log' →
    wp (_restore_service_state previous_state;; _failed iv ActionRemove ServiceFailed CommandFailed)
      (answers_honestly layout ActionRemove w) w6) as Hundo.
  { intros w6 log' Hfile Hm6 Hl6. apply wp_bind, wp_restore. intros undo w7 [Hf7 Hl7] Hback.
    apply wp_answer. intros l c3 w8 (Hf8 & Hm8 & _) Hl8. do 3 (split; [done|]). exists c1, c2, (log ++ log'), undo, c3.
    split; [rewrite Hl8, Hl7, Hl6, Hl5, Hl, <- !app_assoc; done|]. split; [by rewrite Hf8, Hf7|].
    intros Hq1 Hq2 Hall. rewrite Hm8, (Hback Hall), Hm6. apply fmap_Some in Ht as (raw & -> & _).
    rewrite <- Hm. rewrite Hm4 in Hm. destruct Hlow. apply restored_back; cbn; [| |done..].
    - rewrite Hm4, Hm3. symmetry. by apply Hc1.
    - rewrite Hm4. symmetry. by apply Hc2. }
  destruct stopped; cbn [negb].
  2: { apply (Hundo _ []); [left; by chain|done|by rewrite app_nil_r]. }
  apply wp_bind, wp_intro. intros [[]|e] w6 [(Hf6 & Hm6 & Hl6) Hgone]%unlink_law; [|done].
  apply wp_bind, wp_reload. intros c w7 Hf7 Hl7 Hm7. destruct (bool_decide (c = Some 0)); cbn [negb].
  - apply wp_answer. intros l c' w8 (Hf8 & Hm8 & _) _. do 3 (split; [done|]). rewrite Hf8, Hf7, Hm8, Hm7, Hm6, Hoff by done.
    by rewrite Hgone.
  - apply wp_bind, wp_intro. intros [[]|e] w8 [(Hf8 & Hm8 & Hl8) Hw]%write_law; [|done].
    eapply Hundo; [right; rewrite Hw by done; by symmetry|congruence|rewrite Hl8, Hl7, Hl6; done].
Qed.

Lemma status_honest layout w : wp (_status iv layout) (answers_honestly layout ActionStatus w) w.
Proof.
  unfold _status. apply wp_bind, wp_intro. intros [present|e] w1 [Hs1 Hb]%exists_law; [|done]. specialize (Hb _ eq_refl).
  destruct present; cbn [negb]; symmetry in Hb.
  2: { apply wp_answer. intros l c w' Hq _. do 3 (split; [done|]). split; [by eapply quiet_trans_silent|].
    apply bool_decide_eq_false in Hb. destruct (unit_file w _); [by destruct Hb|done]. }
  apply wp_bind, wp_intro. intros [t|e] w2 [Hs2 Ht]%read_law; [|done]. specialize (Ht _ eq_refl).
  destruct Hs1 as (Hf1 & Hm1 & Hl1), Hs2 as (Hf2 & Hm2 & Hl2). rewrite Hf1 in Ht.
  assert (quiet w w2) as Hq2 by (apply silent_quiet; split; [intros p; by chain|split; congruence]).
  destruct (is_managed_unit t) eqn:Hman; cbn [negb].
  2: { apply wp_answer. intros l c w' Hq _. do 3 (split; [done|]). apply fmap_Some in Ht as (raw & Hraw & ->).
    split; [by etrans|by exists raw]. }
  apply wp_bind, wp_snapshot; [|done]. intros sn w3 Hq3 [_ Hac]. apply wp_ret.
  assert (quiet w w3) as Hq by (by etrans). unfold answers_honestly, honest. cbn [_response sr_state sr_action so_action so_state].
  assert (managed_file layout w) as Hfile by (apply fmap_Some in Ht as (raw & ? & ->); by exists raw).
  destruct (sn_active sn); cbn [negb orb]; [|done]. destruct (Hac eq_refl) as (Hact & _ & Hseen). do 4 (split; [done|]).
  split; [by rewrite <- Hm1, <- Hm2|]. exists (sn_heartbeat_pid sn). split; [done|]. unfold heartbeat_matches.
  by rewrite andb_true_iff, !bool_decide_eq_true.
Qed.

(** The files of other units. *)
Definition others (path : Path) (w w' : W) : Prop := ∀ p, p ≠ path → unit_file w' p = unit_file w p.
#[export] Instance others_preorder path : PreOrder (others path).
Proof. split; [done|]. intros w1 w2 w3 H12 H23 p Hp. by rewrite H23, H12. Qed.
Lemma quiet_others {A} path (m : M W service_exn A) : Preserves quiet m → Preserves (others path) m.
Proof. intros Hm w r w' Hrun p _. by apply (Hm _ _ _ Hrun). Qed.
#[local] Hint Extern 1 (Preserves (others _) _) => apply quiet_others; apply _ : typeclass_instances.
#[export] Instance others_systemctl path arguments : Preserves (others path) (systemctl arguments).
Proof.
  unfold systemctl. apply preserves_bind; [apply _| |apply _]. intros w r w'. unfold _run.
  destruct (run_process _ w) as [c w1] eqn:Hr. intros [= _ <-] p _. by apply process_law in Hr as (? & _).
Qed.
#[export] Instance others_write path t : Preserves (others path) (write_text path t).
Proof. intros w r w' [(? & _) _]%write_law. done. Qed.
#[export] Instance others_unlink path : Preserves (others path) (unlink path).
Proof. intros w r w' [(? & _) _]%unlink_law. done. Qed.
#[export] Instance others_unlink_missing path : Preserves (others path) (unlink_missing_ok path).
Proof. intros w r w' [(? & _) _]%unlink_missing_law. done. Qed.
#[export] Instance others_restore path previous : Preserves (others path) (_restore_service_state previous).
Proof. unfold _restore_service_state, enable, start. apply _. Qed.
#[export] Instance others_rollback layout previous previous_state :
  Preserves (others (ly_unit layout)) (_rollback_install layout previous previous_state).
Proof. unfold _rollback_install, stop, disable, reload. destruct previous; apply _. Qed.
#[export] Instance others_install layout : Preserves (others (ly_unit layout)) (_install iv layout).
Proof.
  unfold _install, reload, enable, start, and_then. cbv zeta. apply preserves_bind; [apply _..|]. intros [|]; [|apply _].
  apply _.
Qed.
#[export] Instance others_remove layout : Preserves (others (ly_unit layout)) (_remove iv layout).
Proof. unfold _remove, reload, stop, disable, and_then. cbv zeta. apply _. Qed.

(** C36. An install, a status and a removal on Linux are transactions and answer the command they were
    given.  An install that succeeds leaves the rendered unit, enabled and running, with a live heartbeat
    of the process the manager names; a removal that succeeds leaves none, stopped and disabled; a status
    is healthy exactly when the heartbeat of a running unit is live and of that process.  A command
    that answers a failed command or a missing heartbeat after it changed something has put the file
    back and undone its commands, so that the unit is as it was when the manager obeys; a unit without
    the marker is left alone, a status changes nothing, and no other unit is touched.  An answer that
    names an error that was raised, of a file or of a value, promises nothing more of the unit. *)
Theorem systemd_commands_are_transactional layout action w r w' :
  execute_systemd iv (Ok layout) action w = (r, w') →
  others (ly_unit layout) w w' ∧ (action = ActionStatus → quiet w w') ∧
  ∀ result, r = Ok result →
    honest layout action w w' (scr_response result) (scr_success result) ∨
    raised_answer action (scr_response result) (scr_success result).
Proof.
  intros Hrun. split; [|split].
  - refine ((_ : Preserves (others (ly_unit layout)) (execute_systemd iv (Ok layout) action)) _ _ _ Hrun).
    apply preserves_guarded; [apply _| |apply _]. destruct action; apply _.
  - intros ->. refine ((_ : Preserves quiet (execute_systemd iv (Ok layout) ActionStatus)) _ _ _ Hrun).
    apply preserves_guarded; apply _.
  - pattern r, w'. refine (wp_run _ _ _ _ _ Hrun _). clear r w' Hrun. apply (wp_guarded action _ _ (λ resp ok w', honest layout action w w' resp ok)).
    + apply wp_bind, wp_lift. destruct action; [apply install_honest|apply status_honest|apply remove_honest].
    + intros code w1. apply wp_intro. unfold _result. intros r w2 Hrun resp ->. revert Hrun.
      by intros (sn & w3 & _ & [= <- _])%bind_ok.
Qed.
End Transactions.

(** ** A host *)

(** One user's host: the unit file, its state in the manager, whether the unit would start, whether
    the disk is full, and which of the next commands are lost. *)
Record host := mk_host {
  ho_unit : option text;
  ho_state : unit_state;
  ho_starts : bool;
  ho_disk_full : bool;
  ho_lost : list bool;
  ho_log : list (list text * option Z);
}.
Definition host_unit : Path := mk_path "/" ["home"; "user"; ".config"; "systemd"; "user"; _UNIT_NAME].
Definition host_executable : Path := mk_path "/" ["usr"; "bin"; "proactive-mcp"].
Definition host_layout : _Layout := mk_layout host_unit (mk_path "/" ["home"; "user"; ".proactive-mcp"; "proactive.db"]).

Definition exit_zero (out : text) : Completed := mk_completed 0 out "".
Definition exit_one : Completed := mk_completed 1 "" "".
Definition host_answer (arguments : list text) (h : host) : Completed :=
  if bool_decide (arguments = command "is-enabled") then if us_enabled (ho_state h) then exit_zero "" else exit_one else
  if bool_decide (arguments = command "is-active") then if us_active (ho_state h) then exit_zero "" else exit_one else
  if bool_decide (arguments = command "start") then if ho_starts h then exit_zero "" else exit_one else
  if bool_decide (arguments = _SYSTEMCTL ++ ["show"; _UNIT_NAME; "--property=MainPID"; "--value"]%string)
  then exit_zero "7" else exit_zero "no".
Definition host_effect (arguments : list text) (s : unit_state) : unit_state :=
  match arguments with
  | [_; _; verb; _] => if changes arguments then effect verb s else s
  | _ => s
  end.
Definition host_run (arguments : list text) (h : host) : option Completed * host :=
  let lost := default false (head (ho_lost h)) in
  let answer := if lost then None else Some (host_answer arguments h) in
  let state := if bool_decide (cp_returncode <$> answer = Some 0) then host_effect arguments (ho_state h) else ho_state h in
  (answer, mk_host (ho_unit h) state (ho_starts h) (ho_disk_full h) (tail (ho_lost h))
             (ho_log h ++ [(arguments, cp_returncode <$> answer)])).
Definition set_unit (t : option text) (h : host) : host :=
  mk_host t (ho_state h) (ho_starts h) (ho_disk_full h) (ho_lost h) (ho_log h).

(** The daemon that runs has process 7. *)
Definition host_daemon (h : host) : DaemonStatusResponse :=
  let running := us_active (ho_state h) in
  mk_daemon_response running (if running then Daemon.LiveRunning else Daemon.LiveStopped) (if running then Some 7 else None)
    None None 0 None NeverRun None None None.
#[local] Instance host_host : ServiceHost host := {|
  run_process := host_run;
  status_daemon h := (Ok (host_daemon h), h);
  path_exists h p := bool_decide (p = host_executable);
  open_and_fstat h p :=
    if bool_decide (p = host_executable) then Some (Some (mk_stat (S_IFREG + 493) 0 1 1 1)) else None;
  lstat h p := if bool_decide (p = host_executable) then Some (mk_stat (S_IFREG + 493) 0 1 1 1) else None;
|}.
(** A write on a full disk leaves an empty file. *)
#[local] Instance host_files : UnitFiles host := {|
  exists_ p h := (Ok (bool_decide (p = host_unit) && bool_decide (is_Some (ho_unit h))), h);
  read_text p h :=
    (match ho_unit h with
     | Some t => if bool_decide (p = host_unit) then Ok (universal_newlines t) else Err OSError
     | None => Err OSError
     end, h);
  write_text p t h :=
    if bool_decide (p = host_unit)
    then if ho_disk_full h then (Err OSError, set_unit (Some ""%string) h) else (Ok tt, set_unit (Some t) h)
    else (Err OSError, h);
  unlink p h :=
    if bool_decide (p = host_unit) then
      match ho_unit h with Some _ => (Ok tt, set_unit None h) | None => (Err OSError, h) end
    else (Err OSError, h);
  unlink_missing_ok p h := if bool_decide (p = host_unit) then (Ok tt, set_unit None h) else (Err OSError, h);
  make_parents p h := (Ok tt, h);
|}.
#[local] Instance host_observed : SystemdHost host := {|
  unit_file h p := if bool_decide (p = host_unit) then ho_unit h else None;
  manager_state := ho_state;
  commands := ho_log;
|}.

Lemma host_effect_command verb s : host_effect (command verb) s = effect verb s.
Proof.
  cbn. destruct (changes _) eqn:Hc; [done|]. unfold effect.
  repeat (case_bool_decide; [subst; by vm_compute in Hc|]). done.
Qed.
#[local] Instance host_laws : SystemdLaws (W := host).
Proof.
  split.
  - intros arguments w r w' [= <- <-]. set (lost := default false (head (ho_lost w))). cbn [manager_state host_observed ho_state].
    split; [done|]. split; [done|]. split; [|split; [|split]].
    + intros Hc. case_bool_decide; [|done]. unfold host_effect. by repeat case_match.
    + intros verb ->. rewrite host_effect_command. case_bool_decide as Hz; split; auto. intros Hz'. by destruct Hz.
    + intros -> c. destruct lost; [done|]. intros [= <-]. unfold host_answer. rewrite bool_decide_eq_true_2 by done.
      by destruct (us_enabled (ho_state w)).
    + intros -> c. destruct lost; [done|]. intros [= <-]. unfold host_answer.
      rewrite bool_decide_eq_false_2, bool_decide_eq_true_2 by done. by destruct (us_active (ho_state w)).
  - intros w r w' [= _ <-]. done.
  - intros p w r w' [= <- <-]. split; [done|]. intros b [= <-]. cbn. case_bool_decide; [done|].
    symmetry. apply bool_decide_eq_false_2. by intros [].
  - intros p w r w' [= <- <-]. split; [done|]. intros t. cbn. destruct (ho_unit w); [|done].
    case_bool_decide; [|done]. by intros [= <-].
  - intros p t w r w'. cbn. case_bool_decide as Hp; [|by intros [= <- <-]].
    assert (∀ t', writes_only p w (set_unit t' w)) as Hw.
    { intros t'. split; [|done]. intros q Hq. cbn. by rewrite !bool_decide_eq_false_2 by congruence. }
    by destruct (ho_disk_full w); intros [= <- <-]; (split; [apply Hw|]).
  - intros p w r w'. cbn. case_bool_decide as Hp; [|by intros [= <- <-]]. destruct (ho_unit w); intros [= <- <-]; [|done].
    split; [|done]. split; [|done]. intros q Hq. cbn.
    by rewrite !bool_decide_eq_false_2 by congruence.
  - intros p w r w'. cbn. case_bool_decide as Hp; [|by intros [= <- <-]]. intros [= <- <-].
    split; [|done]. split; [|done]. intros q Hq. cbn.
    by rewrite !bool_decide_eq_false_2 by congruence.
  - intros p w r w' [= _ <-]. done.
Qed.

#[local] Existing Instances ascii_unicode hangul_tables ascii_categories.
Definition host_invocation : Invocation := mk_invocation host_executable false 1000.
Definition fresh_host : host := mk_host None (mk_unit_state false false) true false [] [].
Abbreviation on_host := (execute_systemd host_invocation (Ok host_layout)).
(** An installed service whose new version does not start: the third start of its life fails. *)
Definition stale_host : host := mk_host (Some ("# old" +:+ nl +:+ MANAGED_UNIT_MARKER +:+ nl)%string) (mk_unit_state true true)
  true false [false; false; false; false; true] [].

Lemma systemd_commands_are_transactional_witness :
  match on_host ActionInstall fresh_host with
  | (Ok result, h) => scr_success result = true ∧ installed host_invocation host_layout fresh_host h ∧
      match on_host ActionRemove h with
      | (Ok result', h') => honest host_invocation host_layout ActionRemove h h' (scr_response result') (scr_success result') ∧ ho_unit h' = None
      | _ => False
      end
  | _ => False
  end.
Proof.
  destruct (on_host ActionInstall fresh_host) as [[result|e] h] eqn:Hrun; [|vm_compute in Hrun; discriminate].
  destruct (systemd_commands_are_transactional host_invocation host_layout ActionInstall fresh_host _ _ Hrun) as (_ & _ & Hh).
  destruct (on_host ActionRemove h) as [[result'|e] h'] eqn:Hrun'.
  2: { exfalso. vm_compute in Hrun. injection Hrun as <- <-. vm_compute in Hrun'. discriminate. }
  destruct (systemd_commands_are_transactional host_invocation host_layout ActionRemove h _ _ Hrun') as (_ & _ & Hh').
  assert (scr_success result = true ∧ sr_state (scr_response result) = Installed ∧
    scr_success result' = true ∧ ho_unit h' = None) as (Hok & Hst & Hok' & Hgone).
  { vm_compute in Hrun. injection Hrun as <- <-. vm_compute in Hrun'. by injection Hrun' as <- <-. }
  split; [exact Hok|]. destruct (Hh _ eq_refl) as [Hhonest|[Hno _]]; [|congruence].
  unfold honest in Hhonest. rewrite Hst in Hhonest. destruct Hhonest as (_ & _ & _ & Hinst & _). split; [exact Hinst|].
  destruct (Hh' _ eq_refl) as [Hhonest|[Hno _]]; [|congruence]. split; [exact Hhonest|exact Hgone].
Defined.

(** A failed start of a new version gives the old one back, running. *)
Example failed_upgrade_is_undone :
  match on_host ActionInstall stale_host with
  | (Ok result, h) => sr_code (scr_response result) = Some CommandFailed ∧ ho_unit h = ho_unit stale_host ∧
      ho_state h = ho_state stale_host
  | _ => False
  end.
Proof. by vm_compute. Qed.

(** A write that fails is not undone: the truncated unit has lost its marker, so that every later
    install and removal answers that the unit is not managed. *)
Example truncated_units_are_orphaned :
  let full := mk_host (ho_unit stale_host) (ho_state stale_host) true true [] [] in
  match on_host ActionInstall full with
  | (Ok result, h) => sr_code (scr_response result) = Some IoFailed ∧ ho_unit h = Some ""%string ∧
      let freed := mk_host (ho_unit h) (ho_state h) true false [] [] in
      match on_host ActionInstall freed, on_host ActionRemove freed with
      | (Ok r1, _), (Ok r2, _) =>
        sr_code (scr_response r1) = Some UnmanagedUnit ∧ sr_code (scr_response r2) = Some UnmanagedUnit
      | _, _ => False
      end
  | _ => False
  end.
Proof. by vm_compute. Qed.
