(* ===== verification/Launchd.v ===== *)
(** The user manager of macOS ([cli/service_launchd.py]): the [launchctl] commands of one service,
    and what its diagnostic output is read as. *)
From Stdlib Require Import Ascii.
From S2P Require Import Prelude Runs PyDate PyTime Models Memory DeadlineText Runtime Status Paths Services.
#[local] Open Scope Z_scope.

Definition _LAUNCHCTL : text := "/bin/launchctl".
Definition _SERVICE_NOT_FOUND_EXIT_CODES : list Z := [113].
Definition _PRINT : text := "print".
Definition _PRINT_DISABLED : text := "print-disabled".

Record LaunchctlResult := mk_launchctl { lr_succeeded : bool; lr_output : text; lr_exit_code : Z }.
Record LaunchdState := mk_launchd_state {
  ld_loaded : bool;
  ld_enabled : bool;
  ld_active : bool;
  ld_pid : option Z;
}.
#[export] Instance LaunchdState_eq_dec : EqDecision LaunchdState.
Proof. solve_decision. Defined.

(** ** The patterns *)

(** The characters of a text, case and all. *)
Definition literal (s : text) : pat unit := foldr (λ x rest, exactly x;; rest) (mret tt) (chars s).
(** [p*?]: as few as possible. *)
Fixpoint up_to_lazy {A} (n : nat) (p : pat A) : pat (list A) :=
  match n with
  | O => mret []
  | S n => alt [mret []; (x ← p; xs ← up_to_lazy n p; mret (x :: xs))]
  end.
Definition star_lazy {A} (p : pat A) : pat (list A) := λ c, up_to_lazy (length (ahead c)) p c.
(** [^] under [MULTILINE]. *)
Definition line_start : pat unit := λ c,
  match before c with
  | None => [(tt, c)]
  | Some x => if bool_decide (x = String "010" "") then [(tt, c)] else []
  end.
Definition any : pat char := one (λ _, true).
Definition quote_char : char := String "034" "".

(** [pattern.search(text)], giving the groups. *)
Definition search_groups {A} (p : pat A) (s : text) : option A := head (finditer p (chars s)).

Section Patterns.
Context {T : CharTables}.
Definition _SERVICE_NOT_FOUND_RE : pat unit :=
  skip (word "could not find ";; up_to 1 (word "specified ");; word "service").
Definition _DISABLED_SERVICES_DICT_RE : pat text :=
  word "disabled";; blanks1;; word "services";; blanks;; literal "=";; blanks;; literal "{";;
  body ← star_lazy any; literal "}";; mret (unchars body).
Definition _DISABLED_SERVICE_RE : pat (text * text) :=
  exactly quote_char;; label ← plus (one (λ c, negb (bool_decide (c = quote_char)))); exactly quote_char;;
  blanks;; literal "=>";; blanks;; disabled ← alt [word "true"; word "false"; word "enabled"; word "disabled"];
  mret (unchars label, unchars disabled).
Definition _STATE_RE : pat text :=
  line_start;; blanks;; literal "state";; blanks;; literal "=";; blanks;; state ← plus (one is_word); mret (unchars state).
Definition _PID_RE : pat Z :=
  line_start;; blanks;; literal "pid";; blanks;; literal "=";; blanks;; pid ← plus digit_pat; mret (number pid).

Definition _service_is_absent (result : LaunchctlResult) : bool :=
  negb (lr_succeeded result) &&
  (bool_decide (lr_exit_code result ∈ _SERVICE_NOT_FOUND_EXIT_CODES) ||
   bool_decide (is_Some (search _SERVICE_NOT_FOUND_RE (chars (lr_output result))))).

(** What [print-disabled] says of a label: [None] when it cannot be read. *)
Definition reads_enabled (label output : text) : option bool :=
  body ← search_groups _DISABLED_SERVICES_DICT_RE output;
  match sql_find (λ m, bool_decide (m.1 = label)) (finditer _DISABLED_SERVICE_RE (chars body)) with
  | Some m => Some (negb (bool_decide (lower_ascii m.2 ∈ ["true"; "disabled"]%string)))
  | None =>
    if bool_decide (is_Some (search (literal (quote_char +:+ label +:+ quote_char)) (chars body))) then None else Some true
  end.
(** What [print] says of a loaded service: the process of a running one. *)
Definition reads_running (output : text) : option Z :=
  let state := lower_ascii <$> search_groups _STATE_RE output in
  let pid := n ← search_groups _PID_RE output; if 0 <? n then Some n else None in
  if bool_decide (state = Some "running"%string) then pid else None.
End Patterns.

(** ** The manager *)

Section Manager.
Context {W : Type} {H : ServiceHost W} {T : CharTables} (uid : Z) (label : text).
Abbreviation op A := (M W service_exn A).

(** [SubprocessLaunchctlRunner.run]. *)
Definition run_launchctl (argv : list text) : op LaunchctlResult := λ w,
  let '(completed, w') := run_process argv w in
  (Ok match completed with
      | None => mk_launchctl false "" (-1)
      | Some c =>
        let combined_output :=
          if bool_decide (cp_stderr c = ""%string) then cp_stdout c else
          if bool_decide (cp_stdout c = ""%string) then cp_stderr c
          else cp_stdout c +:+ String "010" (cp_stderr c) in
        mk_launchctl (cp_returncode c =? 0) combined_output (cp_returncode c)
      end, w').

Definition domain : text := "gui/" +:+ pretty uid.
Definition target : text := domain +:+ "/" +:+ label.

Definition commanded (arguments : list text) : op bool :=
  result ← run_launchctl (_LAUNCHCTL :: arguments); mret (lr_succeeded result).
Definition enable : op bool := commanded ["enable"; target].
Definition disable : op bool := commanded ["disable"; target].
Definition bootstrap (plist_path : Path) : op bool :=
  if negb (is_absolute plist_path) then mret false else commanded ["bootstrap"; domain; path_text plist_path].
Definition bootout : op bool :=
  result ← run_launchctl [_LAUNCHCTL; "bootout"%string; target];
  if lr_succeeded result then mret true else
  print_result ← run_launchctl [_LAUNCHCTL; _PRINT; target];
  mret (_service_is_absent print_result).
Definition kickstart (kill : bool) : op bool :=
  commanded (["kickstart"%string] ++ (if kill then ["-k"%string] else []) ++ [target]).

(** A [LaunchdInspectionError] is an [OSError]. *)
Definition is_enabled : op bool :=
  result ← run_launchctl [_LAUNCHCTL; _PRINT_DISABLED; domain];
  if negb (lr_succeeded result) then raise OSError else
  match reads_enabled label (lr_output result) with
  | None => raise OSError
  | Some enabled => mret enabled
  end.
Definition state : op LaunchdState :=
  enabled ← is_enabled;
  print_result ← run_launchctl [_LAUNCHCTL; _PRINT; target];
  if negb (lr_succeeded print_result) then
    if _service_is_absent print_result then mret (mk_launchd_state false enabled false None) else raise OSError
  else
    let pid := reads_running (lr_output print_result) in
    mret (mk_launchd_state true enabled (bool_decide (is_Some pid)) pid).
End Manager.

(** ** What the output is read as *)

Definition sample_label : text := "io.github.madrobotnet.proactive-mcp".
Definition lines (ls : list text) : text := String.concat (String "010" "") ls.
Definition quoted (s : text) : text := quote_char +:+ s +:+ quote_char.
Definition sample_disabled (verdict : text) : text :=
  lines ["disabled services = {"; "	" +:+ quoted "com.example.other" +:+ " => enabled";
         "	" +:+ quoted sample_label +:+ " => " +:+ verdict; "}"]%string.
Example disabled_listings_are_read :
  reads_enabled (T := hangul_tables) sample_label (sample_disabled "disabled") = Some false ∧
  reads_enabled (T := hangul_tables) sample_label (sample_disabled "enabled") = Some true ∧
  reads_enabled (T := hangul_tables) sample_label (sample_disabled "perhaps") = None ∧
  reads_enabled (T := hangul_tables) "com.example.absent" (sample_disabled "disabled") = Some true ∧
  reads_enabled (T := hangul_tables) sample_label "unexpected output" = None.
Proof. by vm_compute. Qed.
Example printed_services_are_read :
  reads_running (T := hangul_tables) (lines ["gui/501/x = {"; "	state = running"; "	pid = 4242"; "}"]%string) = Some 4242 ∧
  reads_running (T := hangul_tables) (lines ["gui/501/x = {"; "	state = waiting"; "	pid = 4242"; "}"]%string) = None ∧
  reads_running (T := hangul_tables) (lines ["gui/501/x = {"; "	state = running"; "	pid = 0"; "}"]%string) = None.
Proof. by vm_compute. Qed.
