(* ===== verification/LaunchAgent.v ===== *)
(** The plist of the watcher on macOS ([cli/service_launchagent.py]): how it is rendered and
    recognized, and the reading, atomic replacement and deletion of the file. *)
From Stdlib Require Import Ascii.
From S2P Require Import Prelude Runs PyDate PyTime Models Memory DeadlineText Runtime Status Paths Services SystemdUnit.
#[local] Open Scope Z_scope.

Definition LAUNCHAGENT_LABEL : text := "io.github.madrobotnet.proactive-mcp".
Definition LAUNCHAGENT_FILENAME : text := LAUNCHAGENT_LABEL +:+ ".plist".
Definition _MARKER_KEY : text := "PROACTIVE_MCP_MANAGED".
Definition _MARKER_VALUE : text := "1".
Definition _PRIVATE_MODE : Z := 384.

(** ** Property lists *)

(** [PlistValue]; a dictionary is its items. *)
Inductive PlistValue :=
  | PStr (s : text)
  | PBool (b : bool)
  | PInt (n : Z)
  | PList (l : list PlistValue)
  | PDict (d : list (text * PlistValue)).
Definition get (key : text) (d : list (text * PlistValue)) : option PlistValue :=
  snd <$> sql_find (λ x, bool_decide (x.1 = key)) d.

(** What parsing and its typed boundary raise. *)
Inductive plist_error := InvalidFileException | PlistValueError | ExpatError.
(** [plistlib.dumps] with sorted keys, and [plistlib.loads] through the typed boundary. *)
Class Plistlib := {
  dumps : PlistValue → text;
  parse_launch_agent_plist : text → res plist_error PlistValue;
}.

Section Plists.
Context {P : Plistlib} {C : Categories}.

(** The error escapes as an [UnsafeServiceValueError]. *)
Definition _validated_path (path : Path) : res service_exn text :=
  if negb (is_absolute path) then Err ValueError else _validated (path_text path).

Definition launch_agent (executable database out err : text) : PlistValue :=
  PDict
    [("EnvironmentVariables", PDict [("PROACTIVE_DATABASE"%string, PStr database); (_MARKER_KEY, PStr _MARKER_VALUE)]);
     ("KeepAlive", PDict [("SuccessfulExit", PBool false)]);
     ("Label", PStr LAUNCHAGENT_LABEL);
     ("ProcessType", PStr "Background");
     ("ProgramArguments", PList [PStr executable; PStr "daemon"]);
     ("RunAtLoad", PBool true);
     ("StandardErrorPath", PStr err);
     ("StandardOutPath", PStr out);
     ("ThrottleInterval", PInt 5);
     ("Umask", PInt 63)]%string.
Definition render_launch_agent (executable database : Path) : res service_exn text :=
  executable_value ← _validated_path executable;
  database_value ← _validated_path database;
  out ← _validated_path (with_name database (name database +:+ ".daemon.out.log"));
  err ← _validated_path (with_name database (name database +:+ ".daemon.err.log"));
  Ok (dumps (launch_agent executable_value database_value out err)).

Definition is_managed_value (loaded : PlistValue) : bool :=
  match loaded with
  | PDict loaded =>
    match get "Label" loaded, get "EnvironmentVariables" loaded with
    | Some (PStr label), Some (PDict environment) =>
      bool_decide (label = LAUNCHAGENT_LABEL) &&
      match get _MARKER_KEY environment with Some (PStr v) => bool_decide (v = _MARKER_VALUE) | _ => false end
    | _, _ => false
    end
  | _ => false
  end.
Definition is_managed_launch_agent (content : text) : res service_exn bool :=
  match parse_launch_agent_plist content with
  | Ok loaded => Ok (is_managed_value loaded)
  | Err InvalidFileException => Ok false
  | Err PlistValueError => Err ValueError
  | Err ExpatError => Err OtherError
  end.
End Plists.

(** ** The file *)

Inductive os_exn := FileNotFoundError | OtherOSError.
(** The calls of [os] and [pathlib] the module makes. *)
Class FileCalls (W : Type) := {
  stat_nofollow : Path → M W os_exn stat_result;
  open_read : Path → M W os_exn Z;
  open_new : Path → Z → M W os_exn Z;
  fstat : Z → M W os_exn stat_result;
  read_fd : Z → M W os_exn text;
  fchmod : Z → Z → M W os_exn unit;
  write_fd : Z → text → M W os_exn nat;
  fsync_fd : Z → M W os_exn unit;
  close_fd : Z → M W os_exn unit;
  replace_path : Path → Path → M W os_exn unit;
  unlink_path : Path → M W os_exn unit;
  make_directories : Path → M W os_exn unit;
}.
Definition drop_text (n : nat) (s : text) : text := String.substring n (String.length s - n) s.

Section Artifact.
Context {W : Type} {F : FileCalls W} {P : Plistlib} (iv : Invocation).
Abbreviation op A := (M W service_exn A).

(** A call whose failure is an [OSError] here. *)
Definition os_call {A} (m : M W os_exn A) : op A := try_except m (λ _, raise OSError).

(** The [UnsafeServiceArtifactError] and the [UnmanagedArtifactError] are [ValueError]s. *)
Definition _assert_safe_identity (observed : stat_result) : op unit :=
  if negb (S_ISREG (st_mode observed)) then raise ValueError else
  if negb (iv_nt iv) && negb (st_uid observed =? iv_uid iv) then raise ValueError else
  if negb (st_nlink observed =? 1) then raise ValueError else mret tt.
Definition same_identity (a b : stat_result) : bool := (st_dev a =? st_dev b) && (st_ino a =? st_ino b).

Definition read_launch_agent_artifact (path : Path) : op (option text) :=
  expected ← try_except (s ← stat_nofollow path; mret (Some s))
    (λ e, match e with FileNotFoundError => mret None | OtherOSError => raise OSError end);
  match expected with
  | None => mret None
  | Some expected =>
    _assert_safe_identity expected;;
    descriptor ← os_call (open_read path);
    r ← finally_do
      (observed ← os_call (fstat descriptor);
       _assert_safe_identity observed;;
       content ← os_call (read_fd descriptor);
       current ← os_call (stat_nofollow path);
       mret (observed, content, current))
      (os_call (close_fd descriptor));
    let '(observed, content, current) := r in
    if same_identity observed current then mret (Some content) else raise ValueError
  end.

Definition managed (content : text) : op bool := lift (is_managed_launch_agent content).
Definition refuse_unmanaged (content : option text) : op unit :=
  match content with
  | None => mret tt
  | Some content => b ← managed content; if b : bool then mret tt else raise ValueError
  end.
Definition _revalidate_managed_target (path : Path) (previous : option text) : op unit :=
  current ← read_launch_agent_artifact path;
  refuse_unmanaged current;;
  if bool_decide (current = previous) then mret tt else raise ValueError.

(** Every write takes at least one byte, so the length of the content is enough. *)
Fixpoint _write_all (fuel : nat) (descriptor : Z) (content : text) : op unit :=
  match content, fuel with
  | EmptyString, _ => mret tt
  | _, O => raise OtherError
  | _, S fuel =>
    count ← os_call (write_fd descriptor content);
    if (count =? 0)%nat then raise OSError else _write_all fuel descriptor (drop_text count content)
  end.

(** [token] is the [token_hex(8)] of the call. *)
Definition temporary_path (path : Path) (token : text) : Path :=
  joined (parent path) ("." +:+ name path +:+ "." +:+ token +:+ ".tmp").
Definition unlink_missing_ok (path : Path) : op unit :=
  try_except (unlink_path path) (λ e, match e with FileNotFoundError => mret tt | OtherOSError => raise OSError end).

Definition write_launch_agent_artifact (token : text) (path : Path) (content : text) (mode : Z) : op unit :=
  refuse_unmanaged (Some content);;
  previous ← read_launch_agent_artifact path;
  refuse_unmanaged previous;;
  let temporary := temporary_path path token in
  finally_do
    (descriptor ← os_call (open_new temporary mode);
     finally_do
       ((if iv_nt iv then mret tt else os_call (fchmod descriptor mode));;
        _write_all (String.length content) descriptor content;;
        os_call (fsync_fd descriptor);;
        observed ← os_call (fstat descriptor);
        _assert_safe_identity observed)
       (os_call (close_fd descriptor));;
     _revalidate_managed_target path previous;;
     os_call (replace_path temporary path))
    (unlink_missing_ok temporary).

Definition delete_launch_agent_artifact (path : Path) : op unit :=
  content ← read_launch_agent_artifact path;
  match content with
  | None => mret tt
  | Some c =>
    refuse_unmanaged content;;
    _revalidate_managed_target path content;;
    os_call (unlink_path path)
  end.
End Artifact.

(** ** What the calls promise *)

(** What can be observed: the file of a path, and the path a descriptor was opened at.  No other
    process changes them during a call of this module. *)
Class FileWorld (W : Type) := {
  file_at : W → Path → option (stat_result * text);
  fd_at : W → Z → option Path;
}.
Definition S_IMODE (mode : Z) : Z := Z.land mode 4095.

Section Laws.
Context {W : Type} {F : FileCalls W} {V : FileWorld W} {X : Type} (rest : W → X).

(** Only the files of [paths] changed; open descriptors stay open. *)
Definition kept (paths : list Path) (w w' : W) : Prop :=
  (∀ q, q ∉ paths → file_at w' q = file_at w q) ∧ (∀ d q, fd_at w d = Some q → fd_at w' d = Some q) ∧ rest w' = rest w.

(** A failed call has changed nothing, except that a write may have written a part and that a
    closed descriptor is closed. *)
Class FileLaws : Prop := {
  stat_law p w r w' : stat_nofollow p w = (r, w') →
    kept [] w w' ∧ (∀ s, r = Ok s → ∃ t, file_at w p = Some (s, t)) ∧ (r = Err FileNotFoundError → file_at w p = None);
  open_read_law p w r w' : open_read p w = (r, w') → kept [] w w' ∧ ∀ d, r = Ok d → fd_at w' d = Some p;
  open_new_law p mode w r w' : open_new p mode w = (r, w') →
    kept [p] w w' ∧
    match r with
    | Ok d => file_at w p = None ∧ fd_at w' d = Some p ∧ ∃ s, file_at w' p = Some (s, ""%string)
    | Err _ => file_at w' p = file_at w p
    end;
  fstat_law d w r w' : fstat d w = (r, w') →
    kept [] w w' ∧ ∀ p s, fd_at w d = Some p → r = Ok s → ∃ t, file_at w p = Some (s, t);
  read_fd_law d w r w' : read_fd d w = (r, w') →
    kept [] w w' ∧ ∀ p t, fd_at w d = Some p → r = Ok t → ∃ s, file_at w p = Some (s, t);
  fchmod_law d p mode s t w r w' : fd_at w d = Some p → file_at w p = Some (s, t) → fchmod d mode w = (r, w') →
    kept [p] w w' ∧ ∃ s', file_at w' p = Some (s', t) ∧ (r = Ok tt → S_IMODE (st_mode s') = mode);
  write_law d p s t c w r w' : fd_at w d = Some p → file_at w p = Some (s, t) → write_fd d c w = (r, w') →
    kept [p] w w' ∧ ∃ s' t', file_at w' p = Some (s', t') ∧
      ∀ n, r = Ok n → S_IMODE (st_mode s') = S_IMODE (st_mode s) ∧ (n ≤ String.length c)%nat ∧
        t' = (t +:+ String.substring 0 n c)%string;
  fsync_law d w r w' : fsync_fd d w = (r, w') → kept [] w w';
  close_law d w r w' : close_fd d w = (r, w') →
    (∀ q, file_at w' q = file_at w q) ∧ rest w' = rest w ∧ ∀ e q, e ≠ d → fd_at w e = Some q → fd_at w' e = Some q;
  replace_law src dst w r w' : src ≠ dst → replace_path src dst w = (r, w') →
    kept [src; dst] w w' ∧
    match r with
    | Ok _ => file_at w' src = None ∧ file_at w' dst = file_at w src
    | Err _ => file_at w' src = file_at w src ∧ file_at w' dst = file_at w dst
    end;
  unlink_path_law p w r w' : unlink_path p w = (r, w') →
    kept [p] w w' ∧ match r with Ok _ => file_at w' p = None | Err _ => file_at w' p = file_at w p end;
  directories_law p w r w' : make_directories p w = (r, w') → kept [] w w';
}.

(** Files and the rest are as before. *)
Definition files_same (w w' : W) : Prop := (∀ q, file_at w' q = file_at w q) ∧ rest w' = rest w.
Definition files_except (paths : list Path) (w w' : W) : Prop :=
  (∀ q, q ∉ paths → file_at w' q = file_at w q) ∧ rest w' = rest w.
End Laws.

Lemma substring_all n s : (String.length s ≤ n)%nat → String.substring 0 n s = s.
Proof. revert n. induction s as [|a s IH]; intros [|n] Hn; cbn in *; try done; [lia|]. by rewrite IH by lia. Qed.
Lemma take_drop_text n s : (n ≤ String.length s)%nat → (String.substring 0 n s +:+ drop_text n s)%string = s.
Proof.
  unfold drop_text. revert n. induction s as [|a s IH]; intros [|n] Hn; cbn in *; try done; try lia.
  - change (String a (String.substring 0 (String.length s) s) = String a s). by rewrite substring_all.
  - rewrite text_cons_app. f_equal. apply IH. lia.
Qed.
Lemma length_drop_text n s : (n ≤ String.length s)%nat → String.length (drop_text n s) = (String.length s - n)%nat.
Proof.
  unfold drop_text. revert n. induction s as [|a s IH]; intros [|n] Hn; cbn in *; try done; try lia.
  - f_equal. by rewrite substring_all.
  - apply IH. lia.
Qed.

(** ** What the operations do *)

Section Operations.
Context {W : Type} {F : FileCalls W} {V : FileWorld W} {X : Type} (rest : W → X) {L : FileLaws rest}.
Context {P : Plistlib} (iv : Invocation).
Abbreviation kept := (kept rest).
Abbreviation files_same := (files_same rest).
Abbreviation files_except := (files_except rest).

#[export] Instance files_same_preorder : PreOrder files_same.
Proof. split; [done|]. intros w1 w2 w3 [H1 R1] [H2 R2]. split; [intros q; by rewrite H2, H1|congruence]. Qed.
#[export] Instance files_except_preorder paths : PreOrder (files_except paths).
Proof. split; [done|]. intros w1 w2 w3 [H1 R1] [H2 R2]. split; [intros q Hq; by rewrite H2, H1|congruence]. Qed.
Lemma kept_same w w' : kept [] w w' → files_same w w'.
Proof. intros (Hf & _ & Hr). split; [|done]. intros q. apply Hf. apply not_elem_of_nil. Qed.
Lemma kept_except paths w w' : kept paths w w' → files_except paths w w'.
Proof. by intros (? & _ & ?). Qed.
Lemma same_except paths w w' : files_same w w' → files_except paths w w'.
Proof. intros [Hf Hr]. by split. Qed.

Lemma os_call_run {A} (m : M W os_exn A) w r w' :
  os_call m w = (r, w') → ∃ r0, m w = (r0, w') ∧ r = match r0 with Ok a => Ok a | Err _ => Err OSError end.
Proof. unfold os_call, try_except. destruct (m w) as [[a|e] w1]; intros [= <- <-]; by eexists. Qed.
#[export] Instance same_os_call {A} (m : M W os_exn A) : Preserves files_same m → Preserves files_same (os_call m).
Proof. intros Hm w r w' (r0 & Hrun & _)%os_call_run. by apply (Hm _ _ _ Hrun). Qed.
#[export] Instance except_os_call {A} paths (m : M W os_exn A) :
  Preserves (files_except paths) m → Preserves (files_except paths) (os_call m).
Proof. intros Hm w r w' (r0 & Hrun & _)%os_call_run. by apply (Hm _ _ _ Hrun). Qed.
Lemma preserves_same_except {E A} paths (m : M W E A) : Preserves files_same m → Preserves (files_except paths) m.
Proof. intros Hm w r w' Hrun. by apply same_except, (Hm _ _ _ Hrun). Qed.

#[export] Instance same_stat p : Preserves files_same (stat_nofollow p).
Proof. intros w r w' [Hk _]%(stat_law rest). by apply kept_same. Qed.
#[export] Instance same_open p : Preserves files_same (open_read p).
Proof. intros w r w' [Hk _]%(open_read_law rest). by apply kept_same. Qed.
#[export] Instance same_fstat d : Preserves files_same (fstat d).
Proof. intros w r w' [Hk _]%(fstat_law rest). by apply kept_same. Qed.
#[export] Instance same_read d : Preserves files_same (read_fd d).
Proof. intros w r w' [Hk _]%(read_fd_law rest). by apply kept_same. Qed.
#[export] Instance same_fsync d : Preserves files_same (fsync_fd d).
Proof. intros w r w' Hk%(fsync_law rest). by apply kept_same. Qed.
#[export] Instance same_close d : Preserves files_same (close_fd d).
Proof. intros w r w' (Hf & Hr & _)%(close_law rest). by split. Qed.
#[export] Instance same_assert s : Preserves files_same (_assert_safe_identity iv s).
Proof. unfold _assert_safe_identity. apply _. Qed.
#[export] Instance same_read_artifact path : Preserves files_same (read_launch_agent_artifact iv path).
Proof.
  unfold read_launch_agent_artifact. apply preserves_bind; [apply _| |].
  - apply preserves_try; [apply _|apply _|intros []; apply _].
  - intros [expected|]; [|apply _]. apply preserves_bind; [apply _..|]. intros []. apply preserves_bind; [apply _..|].
    intros d. apply preserves_bind; [apply _..|]. intros [[observed content] current]. apply _.
Qed.

Lemma wp_os_call {A} (m : M W os_exn A) (Q : res service_exn A → W → Prop) w :
  (∀ r w', m w = (r, w') → Q (match r with Ok a => Ok a | Err _ => Err OSError end) w') → wp (os_call m) Q w.
Proof. intros HQ. apply wp_intro. intros r w' (r0 & Hrun & ->)%os_call_run. by apply HQ. Qed.
Lemma wp_assert observed (Q : res service_exn unit → W → Prop) w :
  Q (Ok tt) w → Q (Err ValueError) w → wp (_assert_safe_identity iv observed) Q w.
Proof. intros ? ?. unfold _assert_safe_identity. by repeat first [run_step|done]. Qed.

(** A read gives what the file holds. *)
Lemma read_run path w o w' : read_launch_agent_artifact iv path w = (Ok o, w') → o = snd <$> file_at w path.
Proof.
  intros Hrun. refine (wp_run _ (λ r _, ∀ o, r = Ok o → o = snd <$> file_at w path) _ _ _ Hrun _ o eq_refl). clear o w' Hrun.
  unfold read_launch_agent_artifact. apply wp_bind, wp_try, wp_bind, wp_intro.
  intros [expected|[]] w1 (Hk1 & Hs & Hn)%(stat_law rest); [|by apply wp_ret, wp_ret; intros o [= <-]; rewrite Hn|by apply wp_raise].
  destruct (Hs _ eq_refl) as [t Ht]. apply wp_ret, wp_bind, wp_assert; [|done].
  apply wp_bind, wp_os_call. intros [d|e] w2 [Hk2 Hd]%(open_read_law rest); [|done]. specialize (Hd _ eq_refl).
  assert (file_at w2 path = Some (expected, t)) as Ht2.
  { apply kept_same in Hk1 as [Hf1 _], Hk2 as [Hf2 _]. by rewrite Hf2, Hf1. }
  apply wp_bind, wp_finally. apply (wp_mono _ (λ r _, ∀ a, r = Ok a → a.1.2 = t)).
  - intros r w3 Hr. apply wp_os_call. intros [[]|e] w4 _; [|done]. destruct r as [[[observed content] current]|e]; [|done].
    specialize (Hr _ eq_refl). cbn in Hr. subst content. destruct (same_identity observed current); [|done].
    apply wp_ret. intros o [= <-]. by rewrite Ht.
  - apply wp_bind, wp_os_call. intros [observed|e] w3 [(Hf3 & Hd3 & _) _]%(fstat_law rest); [|done].
    apply wp_bind, wp_assert; [|done]. apply wp_bind, wp_os_call. intros [content|e] w4 [_ Hc]%(read_fd_law rest); [|done].
    destruct (Hc path content (Hd3 _ _ Hd) eq_refl) as [s' Hs']. rewrite Hf3 in Hs' by apply not_elem_of_nil.
    assert (content = t) as -> by congruence. apply wp_bind, wp_os_call. intros [current|e] w5 _; [|done]. by intros a [= <-].
Qed.
Lemma wp_read path (Q : res service_exn (option text) → W → Prop) w :
  (∀ r w', files_same w w' → (∀ o, r = Ok o → o = snd <$> file_at w path) → Q r w') →
  wp (read_launch_agent_artifact iv path) Q w.
Proof.
  intros HQ. apply wp_intro. intros r w' Hrun. apply HQ; [by apply (same_read_artifact _ _ _ _ Hrun)|].
  intros o ->. by apply read_run in Hrun.
Qed.

(** What is there belongs to this package, or there is nothing. *)
Definition ours (o : option text) : Prop := ∀ c, o = Some c → is_managed_launch_agent c = Ok true.
#[export] Instance same_refuse o : Preserves files_same (refuse_unmanaged o).
Proof. unfold refuse_unmanaged, managed. apply _. Qed.
Lemma wp_refuse o (Q : res service_exn unit → W → Prop) w :
  (ours o → Q (Ok tt) w) → (∀ e, Q (Err e) w) → wp (refuse_unmanaged o) Q w.
Proof.
  intros HQ Herr. unfold refuse_unmanaged. destruct o as [c|]; [|by apply wp_ret, HQ].
  apply wp_bind, wp_lift. destruct (is_managed_launch_agent c) as [[|]|e] eqn:Hc; [|by apply wp_raise|done].
  apply wp_ret, HQ. by intros ? [= <-].
Qed.
#[export] Instance same_revalidate path o : Preserves files_same (_revalidate_managed_target iv path o).
Proof. unfold _revalidate_managed_target. apply _. Qed.

Lemma kept_trans paths w1 w2 w3 : kept paths w1 w2 → kept paths w2 w3 → kept paths w1 w3.
Proof.
  clear L. intros (Hf1 & Hd1 & Hr1) (Hf2 & Hd2 & Hr2). split; [intros q Hq; by rewrite Hf2, Hf1|]. split; [auto|congruence].
Qed.
Lemma kept_mono paths paths' w w' : paths ⊆ paths' → kept paths w w' → kept paths' w w'.
Proof. clear L. intros Hsub (Hf & ? & ?). split; [intros q Hq; apply Hf; set_solver|done]. Qed.

(** The loop writes the whole content or fails; it never runs out. *)
Lemma wp_write_all fuel d p c s t w :
  (String.length c ≤ fuel)%nat → fd_at w d = Some p → file_at w p = Some (s, t) →
  wp (_write_all fuel d c) (λ r w', kept [p] w w' ∧ r ≠ Err OtherError ∧
    ∃ s' t', file_at w' p = Some (s', t') ∧
      (r = Ok tt → t' = (t +:+ c)%string ∧ S_IMODE (st_mode s') = S_IMODE (st_mode s))) w.
Proof.
  revert c s t w. induction fuel as [|fuel IH]; intros [|a c] s t w Hlen Hd Hf; cbn [_write_all]; cbn in Hlen; try lia.
  1-2: apply wp_ret; split; [done|split; [done|]]; exists s, t; split; [done|]; intros _;
    split; [clear; induction t as [|x t IH]; [done|rewrite text_cons_app; by f_equal]|done].
  apply wp_bind, wp_os_call. intros r w1 (Hk1 & s1 & t1 & Hf1 & Hok)%(write_law _ _ _ _ _ _ _ _ _ Hd Hf).
  destruct r as [n|e]; [|by split; [|split; [|exists s1, t1]]]. destruct (Hok n eq_refl) as (Hm1 & Hn & ->).
  destruct (Nat.eqb_spec n 0) as [->|Hpos]; [apply wp_raise; split; [done|split; [done|]]; by eexists _, _|].
  pose proof (proj1 (proj2 Hk1)) as Hd1.
  eapply wp_mono; [|apply (IH _ _ _ _ (ltac:(rewrite length_drop_text by done; cbn; lia)) (Hd1 _ _ Hd) Hf1)].
  intros r w2 (Hk2 & Hne & s2 & t2 & Hf2 & Hok2). split; [by eapply kept_trans|]. split; [done|]. exists s2, t2.
  split; [done|]. intros Hr. destruct (Hok2 Hr) as [-> Hm2]. rewrite text_app_assoc, take_drop_text by done.
  split; [done|congruence].
Qed.

Lemma temporary_ne path token : temporary_path path token ≠ path.
Proof.
  unfold temporary_path. intros Heq. apply (f_equal Paths.name) in Heq. rewrite Paths.name_joined in Heq.
  apply (f_equal String.length) in Heq. rewrite !text_length_app in Heq. cbn in Heq. lia.
Qed.

(** The temporary file holds the whole content, with the mode asked for. *)
Definition staged (temporary : Path) (content : text) (mode : Z) (w : W) : Prop :=
  ∃ s, file_at w temporary = Some (s, content) ∧ (iv_nt iv = false → S_IMODE (st_mode s) = mode).

Lemma wp_stage temporary content mode w :
  wp (descriptor ← os_call (open_new temporary mode);
      finally_do
        ((if iv_nt iv then mret tt else os_call (fchmod descriptor mode));;
         _write_all (String.length content) descriptor content;;
         os_call (fsync_fd descriptor);;
         observed ← os_call (fstat descriptor);
         _assert_safe_identity iv observed)
        (os_call (close_fd descriptor)))
    (λ r w', files_except [temporary] w w' ∧ (r = Ok tt → staged temporary content mode w')) w.
Proof.
  apply wp_bind, wp_os_call. intros [d|e] w1 [Hk1 Hopen]%(open_new_law rest); [|by split; [apply kept_except|]].
  destruct Hopen as (_ & Hd & s1 & Hf1). apply wp_finally.
  apply (wp_mono _ (λ r w', kept [temporary] w w' ∧ (r = Ok tt → staged temporary content mode w'))).
  { intros r w2 [Hk2 Hst]. apply wp_os_call. intros r2 w3 (Hf3 & Hr3 & _)%(close_law rest).
    assert (files_except [temporary] w w3) as Hw3.
    { destruct Hk2 as (Hf2 & _ & Hr2). split; [intros q Hq; by rewrite Hf3, Hf2|congruence]. }
    destruct r2 as [[]|]; [|done]. split; [done|]. intros Hr. destruct (Hst Hr) as (s & Hs & Hm). exists s.
    by rewrite Hf3. }
  apply wp_bind. apply (wp_mono _ (λ r w2, kept [temporary] w w2 ∧ (r = Ok tt →
    fd_at w2 d = Some temporary ∧ staged temporary "" mode w2))).
  2: { destruct (iv_nt iv) eqn:Hnt.
    - apply wp_ret. split; [done|]. intros _. split; [done|]. exists s1. by rewrite Hnt.
    - apply wp_os_call. intros r w2 (Hk2 & s2 & Hf2 & Hm2)%(fchmod_law _ _ _ _ _ _ _ _ _ Hd Hf1).
      split; [by eapply kept_trans|]. intros Hr. destruct r as [[]|]; [|done].
      split; [by apply (proj1 (proj2 Hk2))|]. exists s2. split; [done|]. intros _. by apply Hm2. }
  intros [[]|e] w2 [Hk2 Hst]; [|by split]. destruct (Hst eq_refl) as (Hd2 & s2 & Hf2 & Hm2).
  apply wp_bind. eapply wp_mono; [|by apply (wp_write_all _ d temporary content s2 "" w2)].
  intros r w3 (Hk3 & _ & s3 & t3 & Hf3 & Hok3). assert (kept [temporary] w w3) as Hw3 by (by eapply kept_trans).
  destruct r as [[]|e]; [|by split]. destruct (Hok3 eq_refl) as [-> Hm3].
  assert (staged temporary content mode w3) as Hst3.
  { exists s3. split; [done|]. intros Hnt. rewrite Hm3. by apply Hm2. }
  assert (∀ w4, files_same w3 w4 → staged temporary content mode w4) as Hsame.
  { intros w4 [Hf4 _]. destruct Hst3 as (s & Hs & Hm). exists s. by rewrite Hf4. }
  assert (∀ w4, kept [] w3 w4 → kept [temporary] w w4) as Hkept.
  { intros w4 Hk4. eapply kept_trans; [exact Hw3|]. by eapply kept_mono; [apply list_subseteq_nil|]. }
  apply wp_bind, wp_os_call. intros [[]|e] w4 Hk4%(fsync_law rest); [|by split; [apply Hkept|]].
  apply wp_bind, wp_os_call. intros [observed|e] w5 [Hk5 _]%(fstat_law rest).
  2: { split; [|done]. apply Hkept. by eapply kept_trans. }
  assert (kept [] w3 w5) as Hk by (by eapply kept_trans). apply wp_assert; (split; [by apply Hkept|]); [|done].
  intros _. by apply Hsame, kept_same.
Qed.

(** A write that returns has replaced a file of this package, or nothing, by the content with its
    mode; one that fails has changed nothing at the path or everything.  Neither touches anything
    else but its temporary file, and a file of another owner is never replaced. *)
Lemma wp_write token path content mode w :
  wp (write_launch_agent_artifact iv token path content mode)
    (λ r w', files_except [temporary_path path token; path] w w' ∧
       let done_ := staged path content mode w' ∧ is_managed_launch_agent content = Ok true ∧ ours (snd <$> file_at w path) in
       match r with
       | Ok _ => done_
       | Err _ => file_at w' path = file_at w path ∨ done_
       end) w.
Proof.
  unfold write_launch_agent_artifact. set (temporary := temporary_path path token).
  assert (∀ w1, files_same w w1 → files_except [temporary; path] w w1 ∧ file_at w1 path = file_at w path) as Hsame.
  { intros w1 Hs. split; [by apply same_except|apply Hs]. }
  apply wp_bind, wp_refuse.
  2: { intros e. destruct (Hsame w) as [? ?]; [done|]. split; [done|by left]. }
  intros Hnew. apply wp_bind, wp_read. intros [o|e] w1 Hw1 Ho.
  2: { destruct (Hsame w1 Hw1) as [? ?]. split; [done|by left]. }
  specialize (Ho o eq_refl). apply wp_bind, wp_refuse.
  2: { intros e. destruct (Hsame w1 Hw1) as [? ?]. split; [done|by left]. }
  intros Hold. subst o. apply wp_finally.
  apply (wp_mono _ (λ r w2, files_except [temporary; path] w w2 ∧ match r with
    | Ok _ => staged path content mode w2
    | Err _ => file_at w2 path = file_at w path end)).
  { intros r w2 [Hw2 Hr]. unfold unlink_missing_ok. apply wp_intro. intros r2 w3 Hrun.
    assert (∃ r0, unlink_path temporary w2 = (r0, w3)) as (r0 & [Hk3 _]%(unlink_path_law rest)).
    { revert Hrun. unfold try_except. destruct (unlink_path temporary w2) as [[[]|[]] w3']; intros [= _ <-]; by eexists. }
    assert (files_except [temporary; path] w w3) as Hw3.
    { etrans; [exact Hw2|]. apply kept_except. eapply kept_mono; [|exact Hk3]. set_solver. }
    assert (file_at w3 path = file_at w2 path) as Hpath.
    { apply Hk3. intros Hin%list_elem_of_singleton. by eapply temporary_ne. }
    assert (staged path content mode w2 → staged path content mode w3) as Hkeep.
    { intros (s & Hs & Hm). exists s. by rewrite Hpath. }
    destruct r2 as [[]|e2]; (split; [done|]); destruct r as [[]|e]; rewrite ?Hpath; auto. }
  apply wp_assoc, wp_bind. eapply wp_mono; [|apply wp_stage]. fold temporary. intros r w2 [Hw2 Hst].
  assert (file_at w2 path = file_at w path) as Hp2.
  { destruct Hw1 as [Hf1 _], Hw2 as [Hf2 _]. rewrite Hf2, Hf1; [done|]. intros Hin%list_elem_of_singleton. by eapply temporary_ne. }
  assert (files_except [temporary; path] w w2) as Hww2.
  { etrans; [by apply same_except|]. destruct Hw2 as [Hf2 Hr2]. split; [|done]. intros q Hq. apply Hf2. set_solver. }
  destruct r as [[]|e]; [|done]. apply wp_bind. eapply wp_preserves; [apply same_revalidate|]. intros r w3 Hw3.
  assert (files_except [temporary; path] w w3) as Hww3 by (etrans; [exact Hww2|by apply same_except]).
  destruct r as [[]|e]; [|by split; [|rewrite (proj1 Hw3)]]. apply wp_os_call.
  intros r w4 [Hk4 Hr4]%(replace_law rest); [|apply temporary_ne].
  split; [etrans; [exact Hww3|by apply kept_except]|]. destruct (Hst eq_refl) as (s & Hs & Hm). destruct r as [[]|e].
  - destruct Hr4 as [_ Hf4]. exists s. by rewrite Hf4, (proj1 Hw3).
  - destruct Hr4 as [_ Hf4]. by rewrite Hf4, (proj1 Hw3).
Qed.

(** A deletion that returns has removed a file of this package or found none; one that fails has
    changed nothing. *)
Lemma wp_delete path w :
  wp (delete_launch_agent_artifact iv path)
    (λ r w', files_except [path] w w' ∧ match r with
       | Ok _ => file_at w' path = None ∧ ours (snd <$> file_at w path)
       | Err _ => file_at w' path = file_at w path
       end) w.
Proof.
  unfold delete_launch_agent_artifact. apply wp_bind, wp_read. intros [o|e] w1 Hw1 Ho.
  2: { split; [by apply same_except|apply Hw1]. }
  specialize (Ho o eq_refl). destruct o as [c|].
  2: { apply wp_ret. split; [by apply same_except|]. rewrite (proj1 Hw1). destruct (file_at w path); [done|]. by split. }
  apply wp_bind, wp_refuse; [|intros e; split; [by apply same_except|apply Hw1]]. intros Hours.
  apply wp_bind. eapply wp_preserves; [apply same_revalidate|]. intros r w2 Hw2. assert (files_same w w2) as Hw by (by etrans).
  destruct r as [[]|e]; [|split; [by apply same_except|apply Hw]]. apply wp_os_call.
  intros r w3 [Hk3 Hr3]%(unlink_path_law rest).
  split; [etrans; [by apply same_except|by apply kept_except]|]. destruct r as [[]|e]; [by rewrite <- Ho|].
  by rewrite Hr3, (proj1 Hw).
Qed.
End Operations.
