(* ===== verification/Darwin.v ===== *)
(** The watcher as a LaunchAgent of macOS ([cli/service_darwin.py], [service_darwin_models.py],
    [service_darwin_transaction.py]): the install, status and remove transactions over the manager
    of [Launchd] and the file of [LaunchAgent]. *)
From S2P Require Import Prelude Runs PyDate PyTime Models Memory DeadlineText Runtime Status Paths Services SystemdUnit Launchd LaunchAgent.
#[local] Open Scope Z_scope.

(** ** Value objects *)

Record DarwinLayout := mk_darwin_layout { dl_plist : Path; dl_database : Path }.
Record ArtifactSnapshot := mk_artifact { as_content : text; as_mode : Z }.
#[export] Instance ArtifactSnapshot_eq_dec : EqDecision ArtifactSnapshot.
Proof. solve_decision. Defined.
Record DarwinServiceSnapshot := mk_darwin_snapshot {
  ds_managed : bool;
  ds_enabled : bool;
  ds_loaded : bool;
  ds_active : bool;
  ds_main_pid : option Z;
  ds_heartbeat : option HeartbeatState;
  ds_heartbeat_pid : option Z;
}.
Record InstallPlan := mk_install_plan {
  ip_previous : option ArtifactSnapshot;
  ip_previous_state : LaunchdState;
  ip_rendered : text;
}.
Record RestorationPlan := mk_restoration {
  rp_previous : option ArtifactSnapshot;
  rp_previous_state : LaunchdState;
  rp_unload_candidate : bool;
}.

Definition heartbeat_ready (s : DarwinServiceSnapshot) : bool :=
  bool_decide (ds_heartbeat s = Some Daemon.LiveRunning) && bool_decide (is_Some (ds_main_pid s)) &&
  bool_decide (ds_main_pid s = ds_heartbeat_pid s).
Definition install_ready (s : DarwinServiceSnapshot) : bool :=
  ds_managed s && ds_enabled s && ds_loaded s && ds_active s && heartbeat_ready s.
Definition readiness_failure (s : DarwinServiceSnapshot) : option ServiceCode :=
  if negb (ds_enabled s && ds_loaded s && ds_active s) then Some CommandFailed else
  if heartbeat_ready s then None else Some HeartbeatUnavailable.
Definition service_response (outcome : ServiceOutcome) (s : DarwinServiceSnapshot) : ServiceResponse :=
  mk_service_response (so_action outcome) (so_state outcome) LAUNCHAGENT_LABEL (ds_managed s) (ds_enabled s) (ds_active s)
    (ds_main_pid s) (ds_heartbeat s) LingerNotApplicable GuidanceNone (so_code outcome).
Definition empty_response (outcome : ServiceOutcome) : ServiceResponse :=
  service_response outcome (mk_darwin_snapshot false false false false None None None).

(** [time.monotonic()], one reading after the other, in microseconds. *)
Definition _READINESS_TIMEOUT : Z := 30000000.
Definition _READINESS_INTERVAL : Z := 100000.
Class Sleeps (W : Type) := sleep : Z → M W service_exn unit.

Section Darwin.
Context {W : Type} {H : ServiceHost W} {F : FileCalls W} {Z_ : Sleeps W} {P : Plistlib} {T : CharTables} {C : Categories}.
Context (iv : Invocation) (monotonic : nat → Z) (token token_restore : text).
Abbreviation op A := (M W service_exn A).
Abbreviation manager_state := (Launchd.state (H := H) (iv_uid iv) LAUNCHAGENT_LABEL).
Abbreviation manager_enable := (Launchd.enable (H := H) (iv_uid iv) LAUNCHAGENT_LABEL).
Abbreviation manager_disable := (Launchd.disable (H := H) (iv_uid iv) LAUNCHAGENT_LABEL).
Abbreviation manager_bootstrap := (Launchd.bootstrap (H := H) (iv_uid iv)).
Abbreviation manager_bootout := (Launchd.bootout (H := H) (iv_uid iv) LAUNCHAGENT_LABEL).
Abbreviation manager_kickstart := (Launchd.kickstart (H := H) (iv_uid iv) LAUNCHAGENT_LABEL).

(** ** Restoration *)

Definition artifact_snapshot (path : Path) : op (option ArtifactSnapshot) :=
  content ← read_launch_agent_artifact iv path;
  match content with
  | None => mret None
  | Some content => s ← os_call (stat_nofollow path); mret (Some (mk_artifact content (S_IMODE (st_mode s))))
  end.

Definition _restore_manager (layout : DarwinLayout) (previous : LaunchdState) : op bool :=
  enabled ← (if ld_enabled previous then manager_enable else manager_disable);
  if negb enabled || negb (ld_loaded previous) then mret enabled else
  loaded ← manager_bootstrap (dl_plist layout);
  if negb loaded then mret false else
  if negb (ld_active previous) then mret true else
  or_else (s ← manager_state; mret (ld_active s)) (manager_kickstart false).
Definition restore_previous (layout : DarwinLayout) (plan : RestorationPlan) : op bool :=
  current ← try_except (artifact_snapshot (dl_plist layout))
    (λ e, match e with OSError | ValueError => mret None | OtherError => raise OtherError end);
  if negb (bool_decide (current = rp_previous plan)) then
    (if ld_enabled (rp_previous_state plan) then manager_enable else manager_disable);;
    mret false
  else _restore_manager layout (rp_previous_state plan).
Definition rollback_install (layout : DarwinLayout) (plan : RestorationPlan) : op bool :=
  unloaded ← (if negb (rp_unload_candidate plan) then mret true else manager_bootout);
  artifact_write_failed ← try_except
    ((match rp_previous plan with
      | None => delete_launch_agent_artifact iv (dl_plist layout)
      | Some previous =>
        write_launch_agent_artifact iv token_restore (dl_plist layout) (as_content previous) (as_mode previous)
      end);;
     mret false)
    (λ e, match e with OSError | ValueError => mret true | OtherError => raise OtherError end);
  manager_restored ← restore_previous layout plan;
  mret (unloaded && manager_restored && negb artifact_write_failed).

(** ** The lifecycle *)

Definition _failure (action : ServiceAction) (state : ServiceState) (code : ServiceCode) : ServiceResponse * bool :=
  (empty_response (mk_service_outcome action state (Some code)), false).

Definition _snapshot (layout : DarwinLayout) : op DarwinServiceSnapshot :=
  content ← read_launch_agent_artifact iv (dl_plist layout);
  managed ← (match content with None => mret false | Some c => managed c end);
  st ← manager_state;
  heartbeat ← (if managed && ld_active st then daemon_heartbeat else mret (None, None));
  mret (mk_darwin_snapshot managed (ld_enabled st) (ld_loaded st) (ld_active st) (ld_pid st) heartbeat.1 heartbeat.2).

(** [i] counts the readings of the clock. *)
Fixpoint wait_loop (fuel i : nat) (layout : DarwinLayout) (deadline : Z) (snapshot : DarwinServiceSnapshot)
    : op DarwinServiceSnapshot :=
  if install_ready snapshot || negb (monotonic i <? deadline) then mret snapshot else
  match fuel with
  | O => raise OtherError
  | S fuel =>
    sleep _READINESS_INTERVAL;;
    snapshot ← _snapshot layout;
    wait_loop fuel (S i) layout deadline snapshot
  end.
Definition _wait_for_ready (fuel : nat) (layout : DarwinLayout) : op DarwinServiceSnapshot :=
  let deadline := monotonic 0%nat + _READINESS_TIMEOUT in
  snapshot ← _snapshot layout;
  wait_loop fuel 1 layout deadline snapshot.

(** [try: m except OSError: "io_failed" except ValueError: "invalid_value"]. *)
Definition coded {A} (m : op (A + ServiceCode)) : op (A + ServiceCode) :=
  try_except m (λ e, match e with
                     | OSError => mret (inr IoFailed)
                     | ValueError => mret (inr InvalidValue)
                     | OtherError => raise OtherError
                     end).
(** The candidate, or the code of its failure, and whether it was bootstrapped. *)
Definition _replace_and_wait (fuel : nat) (layout : DarwinLayout) (rendered : text)
    : op ((DarwinServiceSnapshot + ServiceCode) * bool) :=
  bootstrapped ← coded
    (os_call (make_directories (dl_plist layout));;
     write_launch_agent_artifact iv token (dl_plist layout) rendered _PRIVATE_MODE;;
     loaded ← and_then manager_enable (manager_bootstrap (dl_plist layout));
     mret (if loaded : bool then inl tt else inr CommandFailed));
  match bootstrapped with
  | inr code => mret (inr code, false)
  | inl _ =>
    candidate ← coded
      (running ← or_else (s ← manager_state; mret (ld_active s)) (manager_kickstart false);
       if running : bool then s ← _wait_for_ready fuel layout; mret (inl s) else mret (inr CommandFailed));
    mret (candidate, true)
  end.

Definition _prepare_install (layout : DarwinLayout) : op (InstallPlan + ServiceResponse) :=
  executable ← gets (current_executable iv);
  match executable with
  | None => mret (inr (empty_response (mk_service_outcome ActionInstall ServiceFailed (Some BinaryNotFound))))
  | Some executable =>
    previous ← artifact_snapshot (dl_plist layout);
    ours ← (match previous with None => mret true | Some p => managed (as_content p) end);
    if negb ours then mret (inr (empty_response (mk_service_outcome ActionInstall Unmanaged (Some UnmanagedUnit)))) else
    previous_state ← manager_state;
    if bool_decide (previous = None) && ld_loaded previous_state
    then mret (inr (empty_response (mk_service_outcome ActionInstall Unmanaged (Some UnmanagedUnit)))) else
    rendered ← lift (render_launch_agent executable (dl_database layout));
    mret (inl (mk_install_plan previous previous_state rendered))
  end.

Definition _install (fuel : nat) (layout : DarwinLayout) : op (ServiceResponse * bool) :=
  prepared ← _prepare_install layout;
  match prepared with
  | inr response => mret (response, false)
  | inl plan =>
    let previous := ip_previous plan in
    let previous_state := ip_previous_state plan in
    settled ← (if bool_decide (as_content <$> previous = Some (ip_rendered plan))
               then snapshot ← _snapshot layout; mret (if install_ready snapshot then Some snapshot else None)
               else mret None);
    match settled with
    | Some snapshot => mret (service_response (mk_service_outcome ActionInstall Installed None) snapshot, true)
    | None =>
      unloaded ← (if ld_loaded previous_state then manager_bootout else mret true);
      if negb unloaded then mret (_failure ActionInstall ServiceFailed CommandFailed) else
      candidate ← _replace_and_wait fuel layout (ip_rendered plan);
      let restoration := mk_restoration previous previous_state candidate.2 in
      match candidate.1 with
      | inr code => rollback_install layout restoration;; mret (_failure ActionInstall ServiceFailed code)
      | inl snapshot =>
        match readiness_failure snapshot with
        | Some code => rollback_install layout restoration;; mret (_failure ActionInstall ServiceFailed code)
        | None => mret (service_response (mk_service_outcome ActionInstall Installed None) snapshot, true)
        end
      end
    end
  end.

Definition _status (layout : DarwinLayout) : op (ServiceResponse * bool) :=
  artifact ← artifact_snapshot (dl_plist layout);
  st ← manager_state;
  match artifact with
  | None =>
    mret (if ld_loaded st then _failure ActionStatus Unmanaged UnmanagedUnit
          else (empty_response (mk_service_outcome ActionStatus Absent None), true))
  | Some artifact =>
    ours ← managed (as_content artifact);
    if negb ours then mret (_failure ActionStatus Unmanaged UnmanagedUnit) else
    snapshot ← _snapshot layout;
    let state := if ds_active snapshot then ServiceActive else ServiceInactive in
    let healthy := negb (ds_active snapshot) || heartbeat_ready snapshot in
    mret (service_response (mk_service_outcome ActionStatus state (if healthy then None else Some HeartbeatUnavailable)) snapshot,
          healthy)
  end.

Definition _remove_absent (previous_state : LaunchdState) : ServiceResponse * bool :=
  if ld_loaded previous_state then _failure ActionRemove Unmanaged UnmanagedUnit
  else (empty_response (mk_service_outcome ActionRemove Absent None), true).
Definition _remove_managed (layout : DarwinLayout) (previous : ArtifactSnapshot) (previous_state : LaunchdState)
    : op (ServiceResponse * bool) :=
  unloaded ← (if ld_loaded previous_state then manager_bootout else mret true);
  if negb unloaded then mret (_failure ActionRemove ServiceFailed CommandFailed) else
  let restoration := mk_restoration (Some previous) previous_state false in
  disabled ← manager_disable;
  if negb disabled then
    restore_previous layout restoration;; mret (_failure ActionRemove ServiceFailed CommandFailed)
  else
  deleted ← coded (delete_launch_agent_artifact iv (dl_plist layout);; mret (inl tt));
  match deleted with
  | inr code => restore_previous layout restoration;; mret (_failure ActionRemove ServiceFailed code)
  | inl _ => mret (empty_response (mk_service_outcome ActionRemove Removed None), true)
  end.
Definition _remove (layout : DarwinLayout) : op (ServiceResponse * bool) :=
  previous ← artifact_snapshot (dl_plist layout);
  previous_state ← manager_state;
  match previous with
  | None => mret (_remove_absent previous_state)
  | Some previous =>
    ours ← managed (as_content previous);
    if negb ours then mret (_failure ActionRemove Unmanaged UnmanagedUnit) else
    _remove_managed layout previous previous_state
  end.

(** [execute_service] of macOS. *)
Definition execute_darwin (fuel : nat) (layout : res service_exn DarwinLayout) (action : ServiceAction)
    : op ServiceCommandResult :=
  execute_guarded (λ code, mret (empty_response (mk_service_outcome action ServiceFailed (Some code))))
    (l ← lift layout;
     match action with
     | ActionInstall => _install fuel l
     | ActionStatus => _status l
     | ActionRemove => _remove l
     end).
End Darwin.

(** [None]: the home directory is unknown. *)
Definition _layout (home : text → option Path) (cwd : Path) (database : option Path) : res service_exn DarwinLayout :=
  let layout := (
    h ← home "~"%string;
    paths ← resolve_paths home cwd database;
    Some (mk_darwin_layout (joined (joined (joined h "Library") "LaunchAgents") LAUNCHAGENT_FILENAME) (pp_database paths))) in
  match layout with Some l => Ok l | None => Err OtherError end.

(** ** What the manager promises *)

(** The service as the manager knows it. *)
Class LaunchdHost (W : Type) := service_at : W → LaunchdState.
Definition with_enabled (b : bool) (s : LaunchdState) : LaunchdState :=
  mk_launchd_state (ld_loaded s) b (ld_active s) (ld_pid s).

Section Laws.
Context {W : Type} {H : ServiceHost W} {Z_ : Sleeps W} {V : FileWorld W} {O : LaunchdHost W} {T : CharTables} (uid : Z).
Abbreviation domain := (Launchd.domain uid).
Abbreviation target := (Launchd.target uid LAUNCHAGENT_LABEL).

(** Commands touch no file.  Enabling, disabling, loading, unloading and starting the service do
    only that, have done it when they succeed, and may or may not have done it when they fail; a
    loaded service may start by itself.  The two inspections change nothing and print what is. *)
Class LaunchdLaws : Prop := {
  launchctl_law arguments w r w' : run_launchctl (_LAUNCHCTL :: arguments) w = (r, w') →
    ∃ result, r = Ok result ∧ (∀ q, file_at w' q = file_at w q) ∧
    (arguments = [_PRINT_DISABLED; domain] → service_at w' = service_at w ∧
       (lr_succeeded result = true → ∀ b, reads_enabled LAUNCHAGENT_LABEL (lr_output result) = Some b →
          ld_enabled (service_at w) = b)) ∧
    (arguments = [_PRINT; target] → service_at w' = service_at w ∧
       (lr_succeeded result = true → ld_loaded (service_at w) = true ∧
          ld_pid (service_at w) = reads_running (lr_output result) ∧
          ld_active (service_at w) = bool_decide (is_Some (ld_pid (service_at w)))) ∧
       (_service_is_absent result = true → service_at w = mk_launchd_state false (ld_enabled (service_at w)) false None)) ∧
    (∀ b, arguments = [if b : bool then "enable"%string else "disable"%string; target] →
       (service_at w' = service_at w ∨ service_at w' = with_enabled b (service_at w)) ∧
       (lr_succeeded result = true → service_at w' = with_enabled b (service_at w))) ∧
    (∀ p, arguments = ["bootstrap"%string; domain; p] →
       ld_enabled (service_at w') = ld_enabled (service_at w) ∧
       (lr_succeeded result = true → ld_loaded (service_at w') = true)) ∧
    (arguments = ["bootout"%string; target] →
       ld_enabled (service_at w') = ld_enabled (service_at w) ∧
       (lr_succeeded result = true → service_at w' = mk_launchd_state false (ld_enabled (service_at w)) false None)) ∧
    (arguments = ["kickstart"%string; target] →
       ld_enabled (service_at w') = ld_enabled (service_at w) ∧ ld_loaded (service_at w') = ld_loaded (service_at w) ∧
       (lr_succeeded result = true → ld_active (service_at w') = true));
  daemon_law w r w' : status_daemon w = (r, w') → (∀ q, file_at w' q = file_at w q) ∧ service_at w' = service_at w;
  sleep_law n w r w' : sleep n w = (r, w') → (∀ q, file_at w' q = file_at w q) ∧
    ld_enabled (service_at w') = ld_enabled (service_at w) ∧ ld_loaded (service_at w') = ld_loaded (service_at w);
}.
End Laws.

(** ** Runs of the manager *)

Section Manager.
Context {W : Type} {H : ServiceHost W} {F : FileCalls W} {Z_ : Sleeps W} {P : Plistlib} {T : CharTables} {C : Categories}.
Context {V : FileWorld W} {O : LaunchdHost W} (iv : Invocation).
Context {FL : FileLaws service_at} {L : LaunchdLaws (iv_uid iv)}.
Abbreviation same := (files_same service_at).
Abbreviation files_kept w w' := (∀ q, file_at w' q = file_at w q).

Lemma wp_commanded arguments (Q : res service_exn bool → W → Prop) w :
  (∀ result w', run_launchctl (_LAUNCHCTL :: arguments) w = (Ok result, w') → Q (Ok (lr_succeeded result)) w') →
  wp (commanded arguments) Q w.
Proof.
  intros HQ. unfold commanded. apply wp_bind, wp_intro. intros r w' Hrun.
  destruct (launchctl_law _ _ _ _ _ Hrun) as (result & -> & _). apply wp_ret. by apply HQ.
Qed.

Lemma wp_state (Q : res service_exn LaunchdState → W → Prop) w :
  (∀ w', same w w' → Q (Ok (service_at w)) w') → (∀ w', same w w' → Q (Err OSError) w') →
  wp (Launchd.state (iv_uid iv) LAUNCHAGENT_LABEL) Q w.
Proof.
  intros HQ Herr. unfold Launchd.state, Launchd.is_enabled. apply wp_bind, wp_bind, wp_intro. intros r w1 Hrun.
  destruct (launchctl_law _ _ _ _ _ Hrun) as (result & -> & Hf1 & Hdis & _). destruct (Hdis eq_refl) as [Hs1 Hen].
  assert (same w w1) as Hw1 by done. destruct (lr_succeeded result); cbn [negb]; [|by apply wp_raise, Herr].
  destruct (reads_enabled LAUNCHAGENT_LABEL (lr_output result)) as [enabled|]; [|by apply wp_raise, Herr].
  specialize (Hen eq_refl _ eq_refl). apply wp_ret, wp_bind, wp_intro. clear Hrun. intros r w2 Hrun.
  destruct (launchctl_law _ _ _ _ _ Hrun) as (printed & -> & Hf2 & _ & Hprint & _).
  destruct (Hprint eq_refl) as (Hs2 & Hrunning & Habsent). rewrite Hs1 in Hs2, Hrunning, Habsent.
  assert (same w w2) as Hw2 by (split; [intros q; by rewrite Hf2, Hf1|done]).
  destruct (lr_succeeded printed); cbn [negb].
  - apply wp_ret. destruct (Hrunning eq_refl) as (Hl & Hp & Ha). specialize (HQ w2 Hw2).
    rewrite <- Hp, <- Ha, <- Hl. rewrite <- Hen. by destruct (service_at w).
  - destruct (_service_is_absent printed); [|by apply wp_raise, Herr]. apply wp_ret.
    rewrite <- Hen. specialize (HQ w2 Hw2). by rewrite (Habsent eq_refl) in HQ at 1.
Qed.

Lemma wp_toggle (b : bool) (Q : res service_exn bool → W → Prop) w :
  (∀ ok w', files_kept w w' → service_at w' = service_at w ∨ service_at w' = with_enabled b (service_at w) →
     (ok = true → service_at w' = with_enabled b (service_at w)) → Q (Ok ok) w') →
  wp (if b then Launchd.enable (iv_uid iv) LAUNCHAGENT_LABEL else Launchd.disable (iv_uid iv) LAUNCHAGENT_LABEL) Q w.
Proof.
  intros HQ. assert (wp (commanded [if b then "enable"%string else "disable"%string; target (iv_uid iv) LAUNCHAGENT_LABEL]) Q w)
    as Hwp; [|by destruct b].
  apply wp_commanded. intros result w' Hrun. destruct (launchctl_law _ _ _ _ _ Hrun) as (? & [= <-] & Hf & _ & _ & He & _).
  destruct (He b eq_refl). by apply HQ.
Qed.
Lemma wp_bootstrap path (Q : res service_exn bool → W → Prop) w :
  (∀ ok w', files_kept w w' → ld_enabled (service_at w') = ld_enabled (service_at w) →
     (ok = true → ld_loaded (service_at w') = true) → Q (Ok ok) w') →
  wp (Launchd.bootstrap (iv_uid iv) path) Q w.
Proof.
  intros HQ. unfold Launchd.bootstrap. destruct (negb (is_absolute path)); [by apply wp_ret, HQ|].
  apply wp_commanded. intros result w' Hrun. destruct (launchctl_law _ _ _ _ _ Hrun) as (? & [= <-] & Hf & _ & _ & _ & Hb & _).
  destruct (Hb _ eq_refl). by apply HQ.
Qed.
Lemma wp_bootout (Q : res service_exn bool → W → Prop) w :
  (∀ ok w', files_kept w w' → ld_enabled (service_at w') = ld_enabled (service_at w) →
     (ok = true → service_at w' = mk_launchd_state false (ld_enabled (service_at w)) false None) → Q (Ok ok) w') →
  wp (Launchd.bootout (iv_uid iv) LAUNCHAGENT_LABEL) Q w.
Proof.
  intros HQ. unfold Launchd.bootout. apply wp_bind, wp_intro. intros r w1 Hrun.
  destruct (launchctl_law _ _ _ _ _ Hrun) as (result & -> & Hf1 & _ & _ & _ & _ & Hb & _). destruct (Hb eq_refl) as [He1 Hok].
  destruct (lr_succeeded result); [by apply wp_ret, HQ|]. clear Hrun. apply wp_bind, wp_intro. intros r w2 Hrun.
  destruct (launchctl_law _ _ _ _ _ Hrun) as (printed & -> & Hf2 & _ & Hprint & _). destruct (Hprint eq_refl) as (Hs2 & _ & Habsent).
  apply wp_ret, HQ; [intros q; by rewrite Hf2, Hf1|by rewrite Hs2|]. intros Hab. rewrite Hs2, <- He1. by apply Habsent.
Qed.
Lemma wp_kickstart (Q : res service_exn bool → W → Prop) w :
  (∀ ok w', files_kept w w' → ld_enabled (service_at w') = ld_enabled (service_at w) →
     ld_loaded (service_at w') = ld_loaded (service_at w) → (ok = true → ld_active (service_at w') = true) → Q (Ok ok) w') →
  wp (Launchd.kickstart (iv_uid iv) LAUNCHAGENT_LABEL false) Q w.
Proof.
  intros HQ. unfold Launchd.kickstart. apply wp_commanded. intros result w' Hrun.
  destruct (launchctl_law _ _ _ _ _ Hrun) as (? & [= <-] & Hf & _ & _ & _ & _ & _ & Hk). destruct (Hk eq_refl) as (? & ? & ?). by apply HQ.
Qed.
(** [manager.state().active or manager.kickstart(kill=False)]. *)
Lemma wp_running (Q : res service_exn bool → W → Prop) w :
  (∀ ok w', files_kept w w' → ld_enabled (service_at w') = ld_enabled (service_at w) →
     ld_loaded (service_at w') = ld_loaded (service_at w) → (ok = true → ld_active (service_at w') = true) → Q (Ok ok) w') →
  (∀ w', same w w' → Q (Err OSError) w') →
  wp (or_else (s ← Launchd.state (iv_uid iv) LAUNCHAGENT_LABEL; mret (ld_active s))
        (Launchd.kickstart (iv_uid iv) LAUNCHAGENT_LABEL false)) Q w.
Proof.
  intros HQ Herr. unfold or_else. apply wp_bind, wp_bind, wp_state; [|done]. intros w1 [Hf1 Hs1]. apply wp_ret.
  destruct (ld_active (service_at w)) eqn:Ha; [apply wp_ret, HQ; [done|by rewrite Hs1..|by intros _; rewrite Hs1]|].
  apply wp_kickstart. intros ok w2 Hf2 He2 Hl2 Hok. apply HQ; [intros q; by rewrite Hf2, Hf1|by rewrite He2, Hs1|by rewrite Hl2, Hs1|done].
Qed.
End Manager.

(** ** Transactions *)

Section Transactions.
Context {W : Type} {H : ServiceHost W} {F : FileCalls W} {Z_ : Sleeps W} {P : Plistlib} {T : CharTables} {C : Categories}.
Context {V : FileWorld W} {O : LaunchdHost W} (iv : Invocation).
Context {FL : FileLaws service_at} {L : LaunchdLaws (iv_uid iv)}.
Context (monotonic : nat → Z) (token token_restore : text).
Abbreviation same := (files_same service_at).
Abbreviation files_kept w w' := (∀ q, file_at w' q = file_at w q).

(** The restorable bytes and mode of the plist. *)
Definition artifact_of (layout : DarwinLayout) (w : W) : option ArtifactSnapshot :=
  (λ f, mk_artifact f.2 (S_IMODE (st_mode f.1))) <$> file_at w (dl_plist layout).
(** The files the commands may touch. *)
Definition touched (layout : DarwinLayout) : list Path :=
  [temporary_path (dl_plist layout) token; temporary_path (dl_plist layout) token_restore; dl_plist layout].
Definition only_touched (layout : DarwinLayout) (w w' : W) : Prop :=
  ∀ q, q ∉ touched layout → file_at w' q = file_at w q.
(** What a restoration that reports success gives back: the enablement, a loaded service and a
    running one. *)
Definition regained (previous s : LaunchdState) : Prop :=
  ld_enabled s = ld_enabled previous ∧ (ld_loaded previous = true → ld_loaded s = true) ∧
  (ld_loaded previous = true → ld_active previous = true → ld_active s = true).

Lemma wp_artifact layout (Q : res service_exn (option ArtifactSnapshot) → W → Prop) w :
  (∀ w', same w w' → Q (Ok (artifact_of layout w)) w') → (∀ e w', same w w' → Q (Err e) w') →
  wp (artifact_snapshot iv (dl_plist layout)) Q w.
Proof.
  intros HQ Herr. unfold artifact_snapshot. apply wp_bind, (wp_read service_at). intros [o|e] w1 Hw1 Ho; [|by apply Herr].
  specialize (Ho o eq_refl). unfold artifact_of in HQ. destruct o as [t|], (file_at w (dl_plist layout)) as [[s t']|] eqn:Hf; try done.
  - injection Ho as ->. apply wp_bind, wp_os_call. intros [s'|e] w2 (Hk2 & Hs & _)%(stat_law service_at); apply kept_same in Hk2.
    + destruct (Hs _ eq_refl) as [t2 Ht2]. rewrite (proj1 Hw1), Hf in Ht2. injection Ht2 as -> ->. apply wp_ret, HQ. by etrans.
    + apply Herr. by etrans.
  - by apply wp_ret, HQ.
Qed.

Lemma wp_restore_manager layout previous (Q : res service_exn bool → W → Prop) w :
  (∀ b w', files_kept w w' → (b = true → regained previous (service_at w') ∧
     (ld_loaded previous = false → ld_loaded (service_at w') = ld_loaded (service_at w))) → Q (Ok b) w') →
  (∀ e w', files_kept w w' → Q (Err e) w') →
  wp (_restore_manager iv layout previous) Q w.
Proof.
  intros HQ Herr. unfold _restore_manager. apply wp_bind.
  apply (wp_toggle iv (ld_enabled previous)). intros b1 w1 Hf1 Hor1 He1.
  destruct b1; cbn [negb orb]; [|by apply wp_ret, HQ]. specialize (He1 eq_refl).
  destruct (ld_loaded previous) eqn:Hl; cbn [negb].
  2: { apply wp_ret, HQ; [done|]. intros _. rewrite He1. split; [split; [done|by rewrite Hl]|done]. }
  apply wp_bind, (wp_bootstrap iv). intros b2 w2 Hf2 He2 Hl2. assert (files_kept w w2) as Hw2 by (intros q; by rewrite Hf2, Hf1).
  destruct b2; cbn [negb]; [|by apply wp_ret, HQ]. specialize (Hl2 eq_refl).
  destruct (ld_active previous) eqn:Ha; cbn [negb].
  2: { apply wp_ret, HQ; [done|]. intros _. split; [|done]. split; [by rewrite He2, He1|]. split; [done|]. by rewrite Ha. }
  apply (wp_running iv).
  - intros b3 w3 Hf3 He3 Hl3 Ha3. apply HQ; [intros q; by rewrite Hf3, Hw2|]. intros ->. split; [|done].
    split; [by rewrite He3, He2, He1|]. split; [by rewrite Hl3|]. intros _ _. by apply Ha3.
  - intros w3 [Hf3 _]. apply Herr. intros q. by rewrite Hf3, Hw2.
Qed.

Lemma artifact_kept layout w w' : files_kept w w' → artifact_of layout w' = artifact_of layout w.
Proof. intros Hf. unfold artifact_of. by rewrite Hf. Qed.
(** A restoration that reports success has found the exact artifact and restored the manager. *)
Definition reinstated layout (plan : RestorationPlan) (w' : W) : Prop :=
  artifact_of layout w' = rp_previous plan ∧ regained (rp_previous_state plan) (service_at w').
Lemma wp_restore_previous layout plan (Q : res service_exn bool → W → Prop) w :
  (∀ b w', files_kept w w' → (b = true → (rp_previous plan = None → artifact_of layout w = None) →
     reinstated layout plan w') →
     (b = true → ld_loaded (rp_previous_state plan) = false → ld_loaded (service_at w') = ld_loaded (service_at w)) →
     Q (Ok b) w') →
  (∀ e w', files_kept w w' → Q (Err e) w') →
  wp (restore_previous iv layout plan) Q w.
Proof.
  intros HQ Herr. unfold restore_previous. apply wp_bind, wp_try.
  assert (∀ o w1, same w w1 → ((rp_previous plan = None → artifact_of layout w = None) → o = rp_previous plan →
      artifact_of layout w = rp_previous plan) →
    wp (if negb (bool_decide (o = rp_previous plan)) then
          (if ld_enabled (rp_previous_state plan) then Launchd.enable (iv_uid iv) LAUNCHAGENT_LABEL
           else Launchd.disable (iv_uid iv) LAUNCHAGENT_LABEL);; mret false
        else _restore_manager iv layout (rp_previous_state plan)) Q w1) as Hrest.
  { intros o w1 [Hf1 Hs1] Ho. destruct (bool_decide (o = rp_previous plan)) eqn:Heq; cbn [negb].
    - apply bool_decide_eq_true in Heq. apply wp_restore_manager; [|intros e w2 Hf2; apply Herr; intros q; by rewrite Hf2, Hf1].
      intros b w2 Hf2 Hb. assert (files_kept w w2) as Hw2 by (intros q; by rewrite Hf2, Hf1). apply HQ; [done|..].
      + intros -> Hnone. destruct (Hb eq_refl) as [Hreg _]. split; [|done]. rewrite (artifact_kept layout w) by done. auto.
      + intros -> Hl. rewrite <- Hs1. by apply Hb.
    - apply wp_bind, (wp_toggle iv). intros ok w2 Hf2 _ _. apply wp_ret, HQ; [intros q; by rewrite Hf2, Hf1|done..]. }
  apply wp_artifact.
  - intros w1 Hw1. by apply Hrest.
  - intros e w1 Hw1. assert ((rp_previous plan = None → artifact_of layout w = None) → None = rp_previous plan →
      artifact_of layout w = rp_previous plan) as Hn.
    { intros Hnone Heq. rewrite <- Heq. by apply Hnone. }
    destruct e; [apply wp_ret; by apply Hrest..|]. apply wp_raise, Herr, Hw1.
Qed.

Lemma touched_plist layout : dl_plist layout ∈ touched layout.
Proof. unfold touched. set_solver. Qed.
Lemma only_touched_same layout w w' : same w w' → only_touched layout w w'.
Proof. intros [Hf _] q _. by apply Hf. Qed.
Lemma only_touched_kept layout w w' : files_kept w w' → only_touched layout w w'.
Proof. by intros Hf q _. Qed.
Lemma only_touched_except layout paths w w' :
  paths ⊆ touched layout → files_except service_at paths w w' → only_touched layout w w'.
Proof. intros Hsub [Hf _] q Hq. apply Hf. set_solver. Qed.
#[local] Instance only_touched_preorder layout : PreOrder (only_touched layout).
Proof. split; [done|]. intros w1 w2 w3 H12 H23 q Hq. by rewrite H23, H12. Qed.

(** A rollback that reports success has restored the exact artifact and the manager, and unloaded
    the candidate. *)
Lemma wp_rolled_back layout plan (Q : res service_exn bool → W → Prop) w :
  (∀ b w', only_touched layout w w' → (b = true → reinstated layout plan w' ∧
     (ld_loaded (rp_previous_state plan) = false → rp_unload_candidate plan = true → ld_loaded (service_at w') = false)) →
     Q (Ok b) w') →
  (∀ e w', only_touched layout w w' → Q (Err e) w') →
  wp (rollback_install iv token_restore layout plan) Q w.
Proof.
  intros HQ Herr. unfold rollback_install. apply wp_bind.
  apply (wp_mono _ (λ r w1, ∃ unloaded, r = Ok unloaded ∧ only_touched layout w w1 ∧
    (unloaded = true → rp_unload_candidate plan = true → ld_loaded (service_at w1) = false))).
  2: { destruct (rp_unload_candidate plan); cbn [negb]; [|apply wp_ret; by exists true].
    apply (wp_bootout iv). intros ok w1 Hf1 _ Hok. exists ok. split; [done|]. split; [by apply only_touched_kept|].
    intros Htrue _. by rewrite Hok. }
  intros r w1 (unloaded & -> & Hf1 & Hunl). apply wp_bind, wp_try.
  apply (wp_mono _ (λ r w2, only_touched layout w1 w2 ∧ service_at w2 = service_at w1 ∧
    ∀ b, r = Ok b → b = false ∧ (rp_previous plan = None → artifact_of layout w2 = None))).
  2: { apply wp_bind. destruct (rp_previous plan) as [previous|].
    - eapply wp_mono; [|apply (wp_write service_at)]. intros [[]|e] w2 [Hw2 _].
      all: assert (only_touched layout w1 w2) by (eapply only_touched_except; [|exact Hw2]; unfold touched; set_solver).
      + apply wp_ret. split; [done|]. split; [apply Hw2|]. by intros b [= <-].
      + split; [done|]. split; [apply Hw2|]. done.
    - eapply wp_mono; [|apply (wp_delete service_at)]. intros [[]|e] w2 [Hw2 Hdel].
      all: assert (only_touched layout w1 w2) by (eapply only_touched_except; [|exact Hw2]; unfold touched; set_solver).
      + apply wp_ret. split; [done|]. split; [apply Hw2|]. intros b [= <-]. split; [done|]. intros _.
        unfold artifact_of. by rewrite (proj1 Hdel).
      + split; [done|]. split; [apply Hw2|]. done. }
  intros r w2 (Hw2 & Hs2 & Hr). assert (only_touched layout w w2) as Hw by (by etrans).
  assert (∀ failed : bool, (failed = false → rp_previous plan = None → artifact_of layout w2 = None) →
    wp (manager_restored ← restore_previous iv layout plan; mret (unloaded && manager_restored && negb failed)) Q w2) as Hrest.
  { intros failed Hfailed. apply wp_bind, wp_restore_previous.
    - intros b w3 Hf3 Hb Hl. apply wp_ret, HQ; [etrans; [exact Hw|by apply only_touched_kept]|].
      intros [[-> ->]%andb_true_iff ->%negb_true_iff]%andb_true_iff. split; [by apply Hb; [|apply Hfailed]|].
      intros Hprev Hc. rewrite Hl, Hs2 by done. by apply Hunl.
    - intros e w3 Hf3. apply Herr. etrans; [exact Hw|by apply only_touched_kept]. }
  destruct r as [b|[]]; [apply Hrest|apply wp_ret, Hrest; done..|by apply wp_raise, Herr].
  intros _. by apply (Hr b).
Qed.

(** The store told of the daemon, with the files and the service as in [w]. *)
Definition daemon_told (heartbeat : option HeartbeatState) (heartbeat_pid : option Z) (w : W) : Prop :=
  ∃ w1 w2, daemon_heartbeat w1 = (Ok (heartbeat, heartbeat_pid), w2) ∧ same w1 w.
(** What a snapshot says is so. *)
Definition describes (layout : DarwinLayout) (s : DarwinServiceSnapshot) (w : W) : Prop :=
  (ds_managed s = true ↔ ∃ a, artifact_of layout w = Some a ∧ is_managed_launch_agent (as_content a) = Ok true) ∧
  ds_enabled s = ld_enabled (service_at w) ∧ ds_loaded s = ld_loaded (service_at w) ∧
  ds_active s = ld_active (service_at w) ∧ ds_main_pid s = ld_pid (service_at w) ∧
  (if ds_managed s && ds_active s then daemon_told (ds_heartbeat s) (ds_heartbeat_pid s) w
   else ds_heartbeat s = None ∧ ds_heartbeat_pid s = None).

#[export] Instance same_heartbeat : Preserves same daemon_heartbeat.
Proof.
  intros w r w'. unfold daemon_heartbeat, try_except. cbn. unfold mbind, M_bind.
  destruct (status_daemon w) as [[d|e] w1] eqn:Hrun; apply (daemon_law (iv_uid iv)) in Hrun as [Hf Hs].
  - by intros [= <- <-].
  - by destruct e; intros [= <- <-].
Qed.
Lemma wp_looked layout (Q : res service_exn DarwinServiceSnapshot → W → Prop) w :
  (∀ s w', same w w' → describes layout s w' → Q (Ok s) w') → (∀ e w', same w w' → Q (Err e) w') →
  wp (_snapshot iv layout) Q w.
Proof.
  intros HQ Herr. unfold _snapshot. apply wp_bind, (wp_read service_at). intros [o|e] w1 Hw1 Ho; [|by apply Herr].
  specialize (Ho o eq_refl). apply wp_bind.
  apply (wp_mono _ (λ r w2, same w w2 ∧ ∀ b, r = Ok b → b = true ↔
    ∃ a, artifact_of layout w = Some a ∧ is_managed_launch_agent (as_content a) = Ok true)).
  2: { unfold artifact_of. destruct (file_at w (dl_plist layout)) as [[st t]|], o as [c|]; try done.
    - injection Ho as ->. apply wp_lift. split; [done|]. intros b Hb. cbn. unfold managed in Hb. split.
      + intros ->. by eexists.
      + intros (a & [= <-] & Ha). cbn in Ha. congruence.
    - apply wp_ret. split; [done|]. intros b [= <-]. split; [done|]. by intros (a & ? & _). }
  intros [b|e] w2 [Hw2 Hb]; [|by apply Herr]. specialize (Hb b eq_refl). apply wp_bind, (wp_state iv).
  2: { intros w3 Hw3. apply Herr. by etrans. }
  intros w3 Hw3. assert (same w w3) as Hw by (by etrans). apply wp_bind.
  apply (wp_mono _ (λ r w4, same w3 w4 ∧ ∀ hb, r = Ok hb →
    if b && ld_active (service_at w2) then daemon_told hb.1 hb.2 w4 else hb = (None, None))).
  2: { destruct (b && _); [|by apply wp_ret; split; [|intros hb [= <-]]]. apply wp_intro. intros r w4 Hrun.
    pose proof (same_heartbeat _ _ _ Hrun) as Hw4. split; [done|]. intros [hb hbpid] ->. by exists w3, w4. }
  intros [[hb hbpid]|e] w4 [Hw4 Hhb]; [|apply Herr; by etrans]. specialize (Hhb _ eq_refl).
  apply wp_ret. assert (same w w4) as Hfin by (by etrans). apply HQ; [done|]. unfold describes. cbn.
  rewrite (artifact_kept layout w w4) by apply Hfin. rewrite (proj2 Hw2 : service_at w2 = service_at w) in *.
  rewrite (proj2 Hfin : service_at w4 = service_at w). do 5 (split; [done|]). destruct (b && _); [done|by injection Hhb as -> ->].
Qed.

(** Waiting changes no file and neither loads nor disables. *)
Definition waited (w w' : W) : Prop :=
  files_kept w w' ∧ ld_enabled (service_at w') = ld_enabled (service_at w) ∧ ld_loaded (service_at w') = ld_loaded (service_at w).
#[local] Instance waited_preorder : PreOrder waited.
Proof.
  split; [done|]. intros w1 w2 w3 (Hf1 & ? & ?) (Hf2 & ? & ?). split; [intros q; by rewrite Hf2, Hf1|]. split; congruence.
Qed.
Lemma same_waited w w' : same w w' → waited w w'.
Proof. intros [Hf Hs]. split; [done|]. by rewrite Hs. Qed.
Lemma wp_waited fuel i layout deadline snapshot w :
  describes layout snapshot w →
  wp (wait_loop iv monotonic fuel i layout deadline snapshot)
    (λ r w', waited w w' ∧ ∀ s, r = Ok s → describes layout s w') w.
Proof.
  revert i snapshot w. induction fuel as [|fuel IH]; intros i snapshot w Hd; cbn [wait_loop].
  all: destruct (install_ready snapshot || negb (monotonic i <? deadline)); [by apply wp_ret; split; [|by intros s [= <-]]|].
  - by apply wp_raise.
  - apply wp_bind, wp_intro. intros r w1 (Hf1 & He1 & Hl1)%(sleep_law (iv_uid iv)). assert (waited w w1) as Hw1 by done.
    destruct r as [[]|e]; [|done]. apply wp_bind, wp_looked.
    + intros s w2 Hw2 Hs. assert (waited w w2) as Hw by (etrans; [exact Hw1|by apply same_waited]).
      eapply wp_mono; [|by apply IH]. intros r w3 [Hw3 Hr]. split; [by etrans|done].
    + intros e w2 Hw2. split; [etrans; [exact Hw1|by apply same_waited]|done].
Qed.

Lemma wp_coded {A} (m : M W service_exn (A + ServiceCode)) (G : W → Prop) (X : A → W → Prop) w :
  wp m (λ r w', G w' ∧ ∀ a, r = Ok (inl a) → X a w') w →
  wp (coded m) (λ r w', G w' ∧ (∀ e, r = Err e → e = OtherError) ∧ ∀ a, r = Ok (inl a) → X a w') w.
Proof.
  intros Hm. unfold coded. apply wp_try. revert Hm. apply wp_mono. intros [a|e] w1 [HG HX].
  - split; [done|]. split; [by intros ? [=]|]. intros a' [= ->]. by apply HX.
  - destruct e; [apply wp_ret|apply wp_ret|apply wp_raise]; (split; [done|]); (split; [by intros ? [=]|done]).
Qed.

(** The candidate stands: the rendered file, with the private mode. *)
Definition placed (layout : DarwinLayout) (rendered : text) (w : W) : Prop :=
  ∃ a, artifact_of layout w = Some a ∧ as_content a = rendered ∧ (iv_nt iv = false → as_mode a = _PRIVATE_MODE).
Lemma placed_kept layout rendered w w' : files_kept w w' → placed layout rendered w → placed layout rendered w'.
Proof. intros Hf (a & Ha & ?). exists a. by rewrite (artifact_kept layout w w'). Qed.
Lemma only_touched_waited layout w w' : waited w w' → only_touched layout w w'.
Proof. intros (Hf & _). by apply only_touched_kept. Qed.

Lemma wp_placed layout rendered w :
  wp (os_call (make_directories (dl_plist layout));;
      write_launch_agent_artifact iv token (dl_plist layout) rendered _PRIVATE_MODE;;
      loaded ← and_then (Launchd.enable (iv_uid iv) LAUNCHAGENT_LABEL) (Launchd.bootstrap (iv_uid iv) (dl_plist layout));
      mret (if loaded : bool then inl tt else inr CommandFailed))
    (λ r w', only_touched layout w w' ∧ ∀ a : unit, r = Ok (inl a) → placed layout rendered w') w.
Proof.
  apply wp_bind, wp_os_call. intros r w1 Hk1%(directories_law service_at)%kept_same.
  apply (only_touched_same layout) in Hk1 as Hw1. destruct r as [[]|e]; [|done].
  apply wp_bind. eapply wp_mono; [|apply (wp_write service_at)]. intros r w2 [Hw2' Hr].
  assert (only_touched layout w w2) as Hw2.
  { etrans; [exact Hw1|]. eapply only_touched_except; [|exact Hw2']. unfold touched. set_solver. }
  destruct r as [[]|e]; [|done]. assert (placed layout rendered w2) as Hp2.
  { destruct Hr as [(st & Hst & Hm) _]. unfold placed, artifact_of. rewrite Hst. by eexists. }
  assert (∀ w3, files_kept w2 w3 → only_touched layout w w3 ∧ placed layout rendered w3) as Hend.
  { intros w3 Hf3. split; [etrans; [exact Hw2|by apply only_touched_kept]|]. by apply (placed_kept _ _ w2). }
  apply wp_bind. unfold and_then. apply wp_bind, (wp_toggle iv true). intros ok w3 Hf3 _ _. destruct ok.
  - apply (wp_bootstrap iv). intros ok w4 Hf4 _ _. apply wp_ret. destruct (Hend w4); [intros q; by rewrite Hf4, Hf3|done].
  - apply wp_ret, wp_ret. by destruct (Hend w3 Hf3).
Qed.
Lemma wp_candidate fuel layout w :
  wp (running ← or_else (s ← Launchd.state (iv_uid iv) LAUNCHAGENT_LABEL; mret (ld_active s))
        (Launchd.kickstart (iv_uid iv) LAUNCHAGENT_LABEL false);
      if running : bool then s ← _wait_for_ready iv monotonic fuel layout; mret (inl s) else mret (inr CommandFailed))
    (λ r w', files_kept w w' ∧ ∀ s, r = Ok (inl s) → describes layout s w') w.
Proof.
  apply wp_bind, (wp_running iv); [|by intros w2 [Hf2 _]]. intros ok w2 Hf2 _ _ _. destruct ok; [|by apply wp_ret].
  apply wp_bind. unfold _wait_for_ready. apply wp_bind, wp_looked.
  - intros s w3 [Hf3 _] Hs. eapply wp_mono; [|by apply wp_waited]. intros r w4 [(Hf4 & _) Hr].
    assert (files_kept w w4) as Hw by (intros q; by rewrite Hf4, Hf3, Hf2). destruct r as [s'|e]; [|done].
    apply wp_ret. split; [done|]. intros s0 [= <-]. by apply Hr.
  - intros e w3 [Hf3 _]. split; [intros q; by rewrite Hf3, Hf2|done].
Qed.
(** A candidate that was waited for is the one that was placed. *)
Lemma wp_replaced fuel layout rendered w :
  wp (_replace_and_wait iv monotonic token fuel layout rendered)
    (λ r w', only_touched layout w w' ∧ (∀ e, r = Err e → e = OtherError) ∧ ∀ s b, r = Ok (inl s, b) →
       placed layout rendered w' ∧ describes layout s w') w.
Proof.
  unfold _replace_and_wait. apply wp_bind. eapply wp_mono; [|by apply wp_coded, wp_placed].
  intros [[[]|code]|e] w1 (Hw1 & He & Hp1); [|by apply wp_ret; split; [|split; [intros ? [=]|]]|].
  2: { split; [done|]. split; [|done]. intros e' [= <-]. by apply He. }
  specialize (Hp1 tt eq_refl). apply wp_bind. eapply wp_mono; [|by apply wp_coded, wp_candidate].
  intros r w2 (Hf2 & He2 & Hs2). assert (only_touched layout w w2) as Hw2 by (etrans; [exact Hw1|by apply only_touched_kept]).
  destruct r as [c|e].
  - apply wp_ret. split; [done|]. split; [by intros ? [=]|]. intros s b [= -> _].
    split; [by apply (placed_kept _ _ w1)|by apply Hs2].
  - split; [done|]. split; [|done]. intros e' [= <-]. by apply He2.
Qed.

(** ** What the commands answer *)

(** The restoration of the command, to what it found, was run last; if it reported success, the file
    and what [regained] names are back. *)
Definition attempted (layout : DarwinLayout) (action : ServiceAction) (w w' : W) : Prop :=
  ∃ unload w1 r, let plan := mk_restoration (artifact_of layout w) (service_at w) unload in
    match action with
    | ActionInstall => rollback_install iv token_restore layout plan w1 = (r, w')
    | ActionStatus => False
    | ActionRemove => restore_previous iv layout plan w1 = (r, w')
    end ∧
    (r = Ok true → reinstated layout plan w' ∧
       (ld_loaded (service_at w) = false → unload = true → ld_loaded (service_at w') = false)).
(** The manager refused to unload the running service: the file and the enablement are as before. *)
Definition refused (w w' : W) : Prop :=
  files_kept w w' ∧ ld_enabled (service_at w') = ld_enabled (service_at w) ∧ ld_loaded (service_at w) = true.
Definition installed (layout : DarwinLayout) (w w' : W) (resp : ServiceResponse) : Prop :=
  ∃ executable a, current_executable iv w = Some executable ∧
    render_launch_agent executable (dl_database layout) = Ok (as_content a) ∧ artifact_of layout w' = Some a ∧
    (artifact_of layout w = Some a ∨ (iv_nt iv = false → as_mode a = _PRIVATE_MODE)) ∧
    ld_enabled (service_at w') = true ∧ ld_loaded (service_at w') = true ∧ ld_active (service_at w') = true ∧
    sr_main_pid resp = ld_pid (service_at w') ∧ is_Some (sr_main_pid resp) ∧ sr_heartbeat resp = Some Daemon.LiveRunning ∧
    daemon_told (Some Daemon.LiveRunning) (sr_main_pid resp) w'.
Definition darwin_honest (layout : DarwinLayout) (action : ServiceAction) (w w' : W) (resp : ServiceResponse) (ok : bool) : Prop :=
  sr_action resp = action ∧ answers action (sr_state resp) = true ∧
  match sr_state resp with
  | Installed => ok = true ∧ installed layout w w' resp
  | Removed => ok = true ∧ artifact_of layout w' = None ∧ ld_enabled (service_at w') = false ∧ ld_loaded (service_at w') = false
  | Absent => ok = true ∧ same w w' ∧ artifact_of layout w = None ∧ ld_loaded (service_at w) = false
  | Unmanaged => ok = false ∧ same w w' ∧
      (artifact_of layout w = None ∧ ld_loaded (service_at w) = true ∨
       ∃ a, artifact_of layout w = Some a ∧ is_managed_launch_agent (as_content a) = Ok false)
  | ServiceActive | ServiceInactive => same w w' ∧
      sr_active resp = ld_active (service_at w) ∧ sr_active resp = bool_decide (sr_state resp = ServiceActive) ∧
      (∃ a, artifact_of layout w = Some a ∧ is_managed_launch_agent (as_content a) = Ok true) ∧
      ok = negb (bool_decide (sr_code resp = Some HeartbeatUnavailable)) ∧
      if sr_active resp
      then ∃ heartbeat_pid, daemon_told (sr_heartbeat resp) heartbeat_pid w' ∧
        (ok = true ↔ sr_heartbeat resp = Some Daemon.LiveRunning ∧ is_Some (sr_main_pid resp) ∧ sr_main_pid resp = heartbeat_pid)
      else ok = true
  | ServiceFailed => ok = false ∧ (same w w' ∨ refused w w' ∨ attempted layout action w w')
  | Unsupported => False
  end.
Definition darwin_answers (layout : DarwinLayout) (action : ServiceAction) (w : W) (r : res service_exn (ServiceResponse * bool)) (w' : W) : Prop :=
  only_touched layout w w' ∧
  match r with
  | Ok (resp, ok) => darwin_honest layout action w w' resp ok
  | Err e => e = OtherError ∨ same w w' ∨ attempted layout action w w'
  end.

Lemma answers_same layout action w w' resp ok :
  same w w' → darwin_honest layout action w w' resp ok → darwin_answers layout action w (Ok (resp, ok)) w'.
Proof. intros Hs. split; [by apply only_touched_same|done]. Qed.
Lemma answers_error layout action w w' e : same w w' → darwin_answers layout action w (Err e) w'.
Proof. intros Hs. split; [by apply only_touched_same|auto]. Qed.

(** A failure that is followed by a restoration. *)
Lemma wp_attempted layout action code unload (m : M W service_exn bool) w w1 :
  let plan := mk_restoration (artifact_of layout w) (service_at w) unload in
  (action = ActionInstall ∧ m = rollback_install iv token_restore layout plan) ∨
  (action = ActionRemove ∧ unload = false ∧ m = restore_previous iv layout plan ∧ artifact_of layout w ≠ None) →
  only_touched layout w w1 →
  wp (m;; mret (_failure action ServiceFailed code)) (darwin_answers layout action w) w1.
Proof.
  intros plan Hm Hw1. assert (answers action ServiceFailed = true) as Hans by (destruct Hm as [[-> _]|[-> _]]; done).
  apply wp_bind. apply (wp_mono _ (λ r w', only_touched layout w w' ∧ attempted layout action w w')).
  { intros [b|e] w2 [Hw2 Ha]; [|by split; auto]. apply wp_ret. split; [done|]. split; [done|]. split; [done|]. split; auto. }
  destruct Hm as [[-> ->]|(-> & -> & -> & Hne)]; apply wp_intro; intros r w2 Hrun.
  - assert (only_touched layout w1 w2 ∧ (r = Ok true → reinstated layout plan w2 ∧
      (ld_loaded (service_at w) = false → unload = true → ld_loaded (service_at w2) = false))) as [Hw2 Hr].
    { pattern r, w2. refine (wp_run _ _ _ _ _ Hrun _). apply wp_rolled_back; [|done]. intros b w' Hw' Hb.
      split; [done|]. by intros [= ->]; apply Hb. }
    split; [by etrans|]. exists unload, w1, r. auto.
  - assert (only_touched layout w1 w2 ∧ (r = Ok true → reinstated layout plan w2)) as [Hw2 Hr].
    { pattern r, w2. refine (wp_run _ _ _ _ _ Hrun _). apply wp_restore_previous.
      - intros b w' Hw' Hb _. split; [by apply only_touched_kept|]. intros [= ->]. by apply Hb.
      - intros e w' Hw'. split; [by apply only_touched_kept|done]. }
    split; [by etrans|]. exists false, w1, r. split; [done|]. intros Hok. split; [by apply Hr|done].
Qed.

Lemma ready_snapshot s : install_ready s = true →
  ds_managed s = true ∧ ds_enabled s = true ∧ ds_loaded s = true ∧ ds_active s = true ∧ heartbeat_ready s = true.
Proof. unfold install_ready. by intros [[[[? ?]%andb_true_iff ?]%andb_true_iff ?]%andb_true_iff ?]%andb_true_iff. Qed.
Lemma no_failure s : readiness_failure s = None →
  ds_enabled s = true ∧ ds_loaded s = true ∧ ds_active s = true ∧ heartbeat_ready s = true.
Proof.
  unfold readiness_failure. destruct (ds_enabled s), (ds_loaded s), (ds_active s); try done. by destruct (heartbeat_ready s).
Qed.
Lemma answers_installed layout w w' executable rendered s :
  only_touched layout w w' → current_executable iv w = Some executable →
  render_launch_agent executable (dl_database layout) = Ok rendered →
  artifact_of layout w' = artifact_of layout w ∧ as_content <$> artifact_of layout w = Some rendered ∨ placed layout rendered w' →
  describes layout s w' → ds_enabled s = true ∧ ds_loaded s = true ∧ ds_active s = true ∧ heartbeat_ready s = true →
  darwin_answers layout ActionInstall w (Ok (service_response (mk_service_outcome ActionInstall Installed None) s, true)) w'.
Proof.
  intros Hw Hex Hren Hart (_ & He' & Hl' & Ha' & Hp' & Htold) (He & Hl & Ha & Hhb). split; [done|]. do 3 (split; [done|]).
  unfold installed. rewrite <- He', <- Hl', <- Ha', <- Hp'. exists executable.
  unfold heartbeat_ready in Hhb. apply andb_true_iff in Hhb as [[Hrun Hpid]%andb_true_iff Hsame].
  apply bool_decide_eq_true in Hrun, Hpid, Hsame.
  assert (daemon_told (ds_heartbeat s) (ds_heartbeat_pid s) w') as Hseen.
  { destruct (ds_managed s && ds_active s); [done|]. destruct Htold as [Hno _]. congruence. }
  rewrite Hrun, <- Hsame in Hseen.
  assert (∃ a, artifact_of layout w' = Some a ∧ as_content a = rendered ∧
    (artifact_of layout w = Some a ∨ (iv_nt iv = false → as_mode a = _PRIVATE_MODE))) as (a & Hfa & <- & Hor).
  { destruct Hart as [[Hart Hc]|(a & ? & ? & ?)]; [|by eauto 6]. rewrite Hart.
    destruct (artifact_of layout w) as [a|]; [|done]. injection Hc as Hc. eauto. }
  by exists a.
Qed.

Lemma prepared layout w :
  wp (_prepare_install iv layout) (λ r w', same w w' ∧
    ∀ p, r = Ok p → match p with
      | inl plan => ip_previous plan = artifact_of layout w ∧ ip_previous_state plan = service_at w ∧
          ∃ executable, current_executable iv w = Some executable ∧
            render_launch_agent executable (dl_database layout) = Ok (ip_rendered plan)
      | inr resp => darwin_honest layout ActionInstall w w' resp false
      end) w.
Proof.
  unfold _prepare_install. apply wp_bind, wp_gets. destruct (current_executable iv w) as [executable|] eqn:Hex.
  2: { apply wp_ret. split; [done|]. intros p [= <-]. do 3 (split; [done|]). by left. }
  apply wp_bind, wp_artifact; [|by intros]. intros w1 Hw1. apply wp_bind.
  apply (wp_mono _ (λ r w2, w2 = w1 ∧ ∀ b, r = Ok b → b = false →
    ∃ a, artifact_of layout w = Some a ∧ is_managed_launch_agent (as_content a) = Ok false)).
  2: { destruct (artifact_of layout w) as [a|] eqn:Ha; [|by apply wp_ret; split; [|intros b [= <-]]].
    apply wp_lift. split; [done|]. intros b Hb ->. eauto. }
  intros [b|e] w2 [-> Hb]; [|done]. specialize (Hb b eq_refl). destruct b; cbn [negb].
  2: { apply wp_ret. split; [done|]. intros p [= <-]. do 4 (split; [done|]). right. auto. }
  apply wp_bind, (wp_state iv); intros w2 Hw2; assert (same w w2) as Hw by (by etrans); [|done].
  rewrite (proj2 Hw1 : service_at w1 = service_at w). destruct (bool_decide (_ = None) && _) eqn:Hun.
  - apply andb_true_iff in Hun as [Hnone%bool_decide_eq_true Hl]. apply wp_ret. split; [done|]. intros p [= <-]. do 2 (split; [done|]). split; auto.
  - apply wp_bind, wp_lift. destruct (render_launch_agent executable (dl_database layout)) as [rendered|e] eqn:Hren; [|done].
    apply wp_ret. split; [done|]. intros p [= <-]. eauto.
Qed.

Lemma install_answers fuel layout w : wp (_install iv monotonic token token_restore fuel layout) (darwin_answers layout ActionInstall w) w.
Proof.
  unfold _install. apply wp_bind. eapply wp_mono; [|apply prepared]. intros [[plan|resp]|e] w1 [Hw1 Hp].
  2: { apply wp_ret, answers_same; [done|]. by apply (Hp _ eq_refl). }
  2: { by apply answers_error. }
  destruct (Hp _ eq_refl) as (Hprev & Hst & executable & Hex & Hren). clear Hp. rewrite Hprev, Hst. apply wp_bind.
  apply (wp_mono _ (λ r w2, same w w2 ∧ ∀ s, r = Ok (Some s) →
    describes layout s w2 ∧ install_ready s = true ∧ as_content <$> artifact_of layout w = Some (ip_rendered plan))).
  2: { case_bool_decide as Hcur; [|by apply wp_ret]. apply wp_bind, wp_looked.
    - intros s w2 Hw2 Hs. apply wp_ret. split; [by etrans|]. destruct (install_ready s) eqn:Hr; [|done]. by intros s' [= <-].
    - intros e w2 Hw2. by split; [etrans|]. }
  intros [[s|]|e] w2 [Hw2 Hs]; [| |by apply answers_error].
  { destruct (Hs s eq_refl) as (Hd & Hr%ready_snapshot & Hc). apply wp_ret.
    eapply answers_installed; [by apply only_touched_same|done..| |done|apply Hr]. left. split; [|done].
    apply artifact_kept, Hw2. }
  apply wp_bind. apply (wp_mono _ (λ r w3, ∃ b, r = Ok b ∧ only_touched layout w w3 ∧ (b = false → refused w w3))).
  2: { destruct (ld_loaded (service_at w)) eqn:Hl.
    - apply (wp_bootout iv). intros ok w3 Hf3 He3 _. exists ok. split; [done|]. assert (files_kept w w3) as Hf.
      { intros q. rewrite Hf3. apply Hw2. }
      split; [by apply only_touched_kept|]. intros _. split; [done|]. split; [|done]. rewrite He3.
      by rewrite (proj2 Hw2 : service_at w2 = service_at w).
    - apply wp_ret. exists true. split; [done|]. split; [by apply only_touched_same|done]. }
  intros r w3 (unloaded & -> & Hw3 & Href). destruct unloaded; cbn [negb].
  2: { apply wp_ret. split; [done|]. do 2 (split; [done|]). split; auto. }
  apply wp_bind. eapply wp_mono; [|apply wp_replaced]. intros [[candidate booted]|e] w4 (Hw4' & He & Hc).
  2: { split; [by etrans|]. left. by apply He. }
  assert (only_touched layout w w4) as Hw4 by (by etrans). cbn [fst snd]. destruct candidate as [s|code].
  2: { eapply wp_attempted; [by left|done]. }
  destruct (Hc _ _ eq_refl) as [Hpl Hd]. destruct (readiness_failure s) as [code|] eqn:Hr.
  - eapply wp_attempted; [by left|done].
  - apply wp_ret. eapply answers_installed; [done..|by right|done|by apply no_failure].
Qed.

Lemma status_answers layout w : wp (_status iv layout) (λ r w', same w w' ∧ darwin_answers layout ActionStatus w r w') w.
Proof.
  unfold _status. apply wp_bind, wp_artifact; [|intros; by split; [|apply answers_error]]. intros w1 Hw1.
  apply wp_bind, (wp_state iv); intros w2 Hw2; assert (same w w2) as Hw by (by etrans); [|by split; [|apply answers_error]].
  rewrite (proj2 Hw1 : service_at w1 = service_at w). destruct (artifact_of layout w) as [a|] eqn:Ha.
  2: { apply wp_ret. destruct (ld_loaded (service_at w)) eqn:Hl; (split; [done|]); apply answers_same; try done; do 2 (split; [done|]); split; auto. }
  apply wp_bind, wp_lift. destruct (is_managed_launch_agent (as_content a)) as [[|]|e] eqn:Hm; cbn [negb].
  2: { apply wp_ret. split; [done|]. apply answers_same; [done|]. do 3 (split; [done|]). split; eauto. }
  2: { by split; [|apply answers_error]. }
  apply wp_bind, wp_looked; [|intros e w3 Hw3; assert (same w w3) by (by etrans); by split; [|apply answers_error]]. intros s w3 Hw3 Hd.
  assert (same w w3) as Hs by (by etrans). apply wp_ret. split; [done|]. apply answers_same; [done|].
  destruct Hd as (Hman & _ & _ & Hact & _ & Htold). rewrite (proj2 Hs : service_at w3 = service_at w) in Hact.
  assert (ds_managed s = true) as Hmanaged.
  { apply Hman. exists a. split; [|done]. rewrite <- Ha. apply artifact_kept, Hs. }
  rewrite Hmanaged in Htold. cbn [andb] in Htold. unfold darwin_honest. cbn.
  destruct (ds_active s) eqn:Has; cbn; do 5 (split; [done|]); (split; [eauto|]); [|done].
  split; [by destruct (heartbeat_ready s)|]. exists (ds_heartbeat_pid s). split; [done|]. unfold heartbeat_ready.
  rewrite !andb_true_iff, !bool_decide_eq_true. tauto.
Qed.

Lemma remove_answers layout w : wp (_remove iv layout) (darwin_answers layout ActionRemove w) w.
Proof.
  unfold _remove. apply wp_bind, wp_artifact; [|intros; by apply answers_error]. intros w1 Hw1.
  apply wp_bind, (wp_state iv); intros w2 Hw2; assert (same w w2) as Hw by (by etrans); [|by apply answers_error].
  rewrite (proj2 Hw1 : service_at w1 = service_at w). destruct (artifact_of layout w) as [a|] eqn:Ha.
  2: { apply wp_ret. unfold _remove_absent. destruct (ld_loaded (service_at w)) eqn:Hl; apply answers_same; try done; do 2 (split; [done|]); split; auto. }
  apply wp_bind, wp_lift. destruct (is_managed_launch_agent (as_content a)) as [[|]|e] eqn:Hm; cbn [negb].
  2: { apply wp_ret, answers_same; [done|]. do 3 (split; [done|]). split; eauto. }
  2: { by apply answers_error. }
  unfold _remove_managed. apply wp_bind.
  apply (wp_mono _ (λ r w3, ∃ b, r = Ok b ∧ files_kept w w3 ∧ (b = false → refused w w3) ∧
    (b = true → ld_loaded (service_at w3) = false))).
  2: { destruct (ld_loaded (service_at w)) eqn:Hl.
    - apply (wp_bootout iv). intros ok w3 Hf3 He3 Hok. exists ok. split; [done|]. assert (files_kept w w3) as Hf.
      { intros q. rewrite Hf3. apply Hw. }
      split; [done|]. split; [|by intros Htrue; rewrite Hok]. intros _. split; [done|]. split; [|done]. rewrite He3.
      by rewrite (proj2 Hw : service_at w2 = service_at w).
    - apply wp_ret. exists true. split; [done|]. split; [apply Hw|]. split; [done|]. intros _.
      by rewrite (proj2 Hw : service_at w2 = service_at w). }
  intros r w3 (unloaded & -> & Hf3 & Href & Hun). assert (only_touched layout w w3) as Hw3 by (by apply only_touched_kept).
  destruct unloaded; cbn [negb].
  2: { apply wp_ret. split; [done|]. do 2 (split; [done|]). split; auto. }
  specialize (Hun eq_refl). rewrite <- Ha. apply wp_bind, (wp_toggle iv false). intros ok w4 Hf4 _ Hok.
  assert (only_touched layout w w4) as Hw4 by (etrans; [exact Hw3|by apply only_touched_kept]). destruct ok; cbn [negb].
  2: { eapply (wp_attempted _ _ _ false); [right|done]. by rewrite Ha. }
  specialize (Hok eq_refl). apply wp_bind.
  eapply wp_mono; [|apply (wp_coded _ (only_touched layout w) (λ (_ : unit) w', artifact_of layout w' = None ∧ service_at w' = service_at w4))].
  - intros [[[]|code]|e] w5 (Hw5 & He5 & Hgone).
    + destruct (Hgone tt eq_refl) as [Hnone Hs5]. apply wp_ret. split; [done|]. do 4 (split; [done|]).
      by rewrite Hs5, Hok.
    + eapply (wp_attempted _ _ _ false); [right|done]. by rewrite Ha.
    + split; [done|]. left. by apply He5.
  - apply wp_bind. eapply wp_mono; [|apply (wp_delete service_at)]. intros r w5 [Hw5' Hr].
    assert (only_touched layout w w5) as Hw5.
    { etrans; [exact Hw4|]. eapply only_touched_except; [|exact Hw5']. unfold touched. set_solver. }
    destruct r as [[]|e]; [|done]. apply wp_ret. split; [done|]. intros _ _. unfold artifact_of. rewrite (proj1 Hr).
    split; [done|apply Hw5'].
Qed.

(** C38. An install, a status and a removal on macOS are transactions and answer the command they were
    given.  An install that succeeds leaves the rendered plist, enabled, loaded and running, with a live
    heartbeat of the process the manager names; a removal that succeeds leaves no plist, unloaded and
    disabled; a status is healthy exactly when the heartbeat of a running service is live and of that
    process.  One that fails has changed nothing, or was refused the unloading and has kept the file
    and the enablement, or ran its restoration last, which reports success only when the exact bytes
    and mode and the enablement are back and a service that was loaded, or running, is so again; it
    may run where it did not.  A plist without the marker, or a loaded service without one, is left
    alone, a status changes nothing, and no other file is touched. *)
Theorem darwin_commands_are_transactional fuel layout action w r w' :
  execute_darwin iv monotonic token token_restore fuel (Ok layout) action w = (r, w') →
  only_touched layout w w' ∧ (action = ActionStatus → same w w') ∧
  ∀ result, r = Ok result → darwin_honest layout action w w' (scr_response result) (scr_success result).
Proof.
  intros Hrun. pattern r, w'. refine (wp_run _ _ _ _ _ Hrun _). clear r w' Hrun.
  unfold execute_darwin, execute_guarded. apply wp_try, wp_bind, wp_bind, wp_lift.
  apply (wp_mono _ (λ r w', (action = ActionStatus → same w w') ∧ darwin_answers layout action w r w')).
  - intros [[resp ok]|e] w1 [Hst [Hw1 Ha]]; [apply wp_ret; split; [done|split; [done|by intros result [= <-]]]|].
    destruct e; [| |by apply wp_raise; split; [|split]].
    all: apply wp_bind, wp_ret, wp_ret; (split; [done|]); (split; [done|]); intros result [= <-]; (split; [done|]);
      (split; [by destruct action|]); (split; [done|]).
    all: destruct Ha as [?|[?|?]]; [done|auto..].
  - destruct action.
    + eapply wp_mono; [|apply install_answers]. by split.
    + eapply wp_mono; [|apply status_answers]. intros r w1 [? ?]. by split.
    + eapply wp_mono; [|apply remove_answers]. by split.
Qed.
End Transactions.

(** ** The fuel of the wait *)

Section Waiting.
Context {W : Type} {H : ServiceHost W} {F : FileCalls W} {Z_ : Sleeps W} {P : Plistlib} {T : CharTables} {C : Categories}.
Context (iv : Invocation) (monotonic : nat → Z).

Lemma wait_enough k : ∀ i fuel layout deadline snapshot w,
  deadline ≤ monotonic (i + k)%nat → (k ≤ fuel)%nat →
  wait_loop iv monotonic fuel i layout deadline snapshot w = wait_loop iv monotonic k i layout deadline snapshot w.
Proof.
  induction k as [|k IH]; intros i fuel layout deadline snapshot w Hd Hk.
  - rewrite Nat.add_0_r in Hd.
    destruct fuel; cbn [wait_loop]; rewrite (proj2 (Z.ltb_ge _ _) Hd), orb_true_r; done.
  - destruct fuel as [|fuel]; [lia|]. cbn [wait_loop]. destruct (_ || _); [done|].
    unfold mbind, M_bind. destruct (sleep _ w) as [[[]|e] w1]; [|done]. destruct (_snapshot iv layout w1) as [[s|e] w2]; [|done].
    apply IH; [by rewrite Nat.add_succ_l, <- Nat.add_succ_r|lia].
Qed.
(** The wait for a ready service ends: since every round sleeps the interval, 300 rounds reach
    the deadline of 30 seconds, and a larger bound gives the same run. *)
Theorem readiness_wait_ends fuel layout w :
  monotonic 0%nat ≤ monotonic 1%nat → (∀ i, monotonic i + _READINESS_INTERVAL ≤ monotonic (S i)) → (300 ≤ fuel)%nat →
  _wait_for_ready iv monotonic fuel layout w = _wait_for_ready iv monotonic 300 layout w.
Proof.
  intros H0 Hclock Hfuel. unfold _wait_for_ready, mbind, M_bind. destruct (_snapshot iv layout w) as [[s|e] w1]; [|done].
  apply wait_enough; [|done]. assert (∀ k, monotonic 1%nat + Z.of_nat k * _READINESS_INTERVAL ≤ monotonic (1 + k)%nat) as Hk.
  { induction k as [|k IH]; [cbn; lia|]. rewrite Nat.add_succ_r. specialize (Hclock (1 + k)%nat). lia. }
  specialize (Hk 300%nat). unfold _READINESS_TIMEOUT. unfold _READINESS_INTERVAL in Hk. lia.
Qed.
End Waiting.
