(* ===== verification/MacHost.v ===== *)
(** A host that shows the laws of [LaunchAgent] and [Darwin] can hold: the files of one user and the
    state of one service in the manager, with the commands that are lost and the starts that fail. *)
From Stdlib Require Import Ascii.
From S2P Require Import Prelude Runs PyDate PyTime Models Memory DeadlineText Runtime Status Paths Services SystemdUnit Launchd LaunchAgent Darwin.
#[local] Open Scope Z_scope.

Abbreviation file := (stat_result * text)%type.
Record mac := mk_mac {
  mc_files : list (Path * option file);
  mc_open : list Path;
  mc_loaded : bool;
  mc_enabled : bool;
  mc_running : bool;
  mc_starts : list bool;
  mc_lost : list bool;
}.

(** ** Files *)

(** The newest entry of a path counts. *)
Fixpoint found (p : Path) (l : list (Path * option file)) : option file :=
  match l with
  | [] => None
  | (q, f) :: l => if bool_decide (q = p) then f else found p l
  end.
Definition put (p : Path) (f : option file) (h : mac) : mac :=
  mk_mac ((p, f) :: mc_files h) (mc_open h) (mc_loaded h) (mc_enabled h) (mc_running h) (mc_starts h) (mc_lost h).
Definition opened (p : Path) (h : mac) : mac :=
  mk_mac (mc_files h) (mc_open h ++ [p]) (mc_loaded h) (mc_enabled h) (mc_running h) (mc_starts h) (mc_lost h).
#[export] Instance mac_world : FileWorld mac := {|
  file_at h p := found p (mc_files h);
  fd_at h d := if 0 <=? d then mc_open h !! Z.to_nat d else None;
|}.
#[export] Instance mac_service : LaunchdHost mac := λ h,
  let active := mc_loaded h && mc_running h in
  mk_launchd_state (mc_loaded h) (mc_enabled h) active (if active then Some 4242 else None).

Definition on_file {A} (p : Path) (h : mac) (f : file → res os_exn A * mac) : res os_exn A * mac :=
  match file_at h p with Some x => f x | None => (Err FileNotFoundError, h) end.
Definition on_descriptor {A} (d : Z) (h : mac) (f : Path → file → res os_exn A * mac) : res os_exn A * mac :=
  match fd_at h d with
  | Some p => on_file p h (f p)
  | None => (Err OtherOSError, h)
  end.
Definition chmod (mode : Z) (s : stat_result) : stat_result :=
  mk_stat (S_IFREG + Z.land mode 4095) (st_uid s) (st_nlink s) (st_dev s) (st_ino s).
(** A created file is the user's own; its inode is the number of the change. *)
Definition created (mode : Z) (h : mac) : stat_result :=
  mk_stat (S_IFREG + Z.land mode 4095) 501 1 1 (Z.of_nat (length (mc_files h))).
#[export] Instance mac_calls : FileCalls mac := {|
  stat_nofollow p h := on_file p h (λ f, (Ok f.1, h));
  open_read p h := on_file p h (λ _, (Ok (Z.of_nat (length (mc_open h))), opened p h));
  open_new p mode h :=
    match file_at h p with
    | Some _ => (Err OtherOSError, h)
    | None => (Ok (Z.of_nat (length (mc_open h))), put p (Some (created mode h, ""%string)) (opened p h))
    end;
  fstat d h := on_descriptor d h (λ _ f, (Ok f.1, h));
  read_fd d h := on_descriptor d h (λ _ f, (Ok f.2, h));
  fchmod d mode h := on_descriptor d h (λ p f,
    if bool_decide (Z.land mode 4095 = mode) then (Ok tt, put p (Some (chmod mode f.1, f.2)) h) else (Err OtherOSError, h));
  write_fd d c h := on_descriptor d h (λ p f, (Ok (String.length c), put p (Some (f.1, (f.2 +:+ c)%string)) h));
  fsync_fd _ h := (Ok tt, h);
  close_fd _ h := (Ok tt, h);
  replace_path src dst h := on_file src h (λ f, (Ok tt, put src None (put dst (Some f) h)));
  unlink_path p h := on_file p h (λ _, (Ok tt, put p None h));
  make_directories _ h := (Ok tt, h);
|}.

Lemma found_put p f h q : file_at (put p f h) q = if bool_decide (p = q) then f else file_at h q.
Proof. done. Qed.
Lemma fd_put p f h d : fd_at (put p f h) d = fd_at h d.
Proof. done. Qed.
Lemma fd_opened p h d q : fd_at h d = Some q → fd_at (opened p h) d = Some q.
Proof. cbn. destruct (0 <=? d); [|done]. apply lookup_app_l_Some. Qed.
Lemma fd_new p h : fd_at (opened p h) (Z.of_nat (length (mc_open h))) = Some p.
Proof. cbn. rewrite (proj2 (Z.leb_le _ _)) by lia. by rewrite Nat2Z.id, lookup_app_r, Nat.sub_diag by done. Qed.
Lemma kept_put p f h : kept service_at [p] h (put p f h).
Proof.
  split; [|done]. intros q Hq. rewrite found_put, bool_decide_eq_false_2; [done|]. intros <-. apply Hq. set_solver.
Qed.
Lemma kept_opened p h : kept service_at [] h (opened p h).
Proof. split; [done|]. split; [|done]. intros d q. apply fd_opened. Qed.
Lemma imode_land m : S_IMODE (S_IFREG + Z.land m 4095) = Z.land m 4095.
Proof.
  unfold S_IMODE. change (S_IFREG + Z.land m 4095) with (32768 + Z.land m (Z.ones 12)).
  change 4095 with (Z.ones 12). rewrite !Z.land_ones by lia.
  rewrite Z.add_mod by lia. change (32768 mod 2 ^ 12) with 0. by rewrite Z.add_0_l, !Z.mod_mod by lia.
Qed.

Lemma on_file_same {A} p h (f : file → A) r h' :
  on_file p h (λ x, (Ok (f x), h)) = (r, h') →
  h' = h ∧ match file_at h p with Some x => r = Ok (f x) | None => r = Err FileNotFoundError end.
Proof. unfold on_file. destruct (file_at h p); by intros [= <- <-]. Qed.
Lemma on_descriptor_at {A} d p h (f : Path → file → res os_exn A * mac) x :
  fd_at h d = Some p → file_at h p = Some x → on_descriptor d h f = f p x.
Proof. intros Hd Hf. unfold on_descriptor, on_file. by rewrite Hd, Hf. Qed.
Lemma on_descriptor_same {A} d h (f : file → A) r h' :
  on_descriptor d h (λ _ x, (Ok (f x), h)) = (r, h') →
  h' = h ∧ ∀ p a, fd_at h d = Some p → r = Ok a → ∃ x, file_at h p = Some x ∧ a = f x.
Proof.
  unfold on_descriptor, on_file. destruct (fd_at h d) as [p|]; [|by intros [= <- <-]].
  destruct (file_at h p) as [x|] eqn:Hx; intros [= <- <-]; (split; [done|]); [|done].
  intros p' a [= <-] [= <-]. by exists x.
Qed.

#[export] Instance mac_file_laws : FileLaws (W := mac) service_at.
Proof.
  split.
  - intros p h r h' [-> Hr]%on_file_same. split; [done|]. destruct (file_at h p) as [[s t]|]; subst r.
    + split; [intros s' [= <-]; by exists t|done].
    + by split.
  - intros p h r h'. cbn. unfold on_file. destruct (file_at h p); intros [= <- <-]; [|done].
    split; [apply kept_opened|]. intros d [= <-]. apply fd_new.
  - intros p mode h r h'. cbn [open_new mac_calls]. destruct (file_at h p) as [x|] eqn:Hx; intros [= <- <-]; [done|]. split.
    + eapply kept_trans; [|apply kept_put]. eapply kept_mono; [apply list_subseteq_nil|apply kept_opened].
    + split; [done|]. split; [rewrite fd_put; apply fd_new|]. eexists. by rewrite found_put, bool_decide_eq_true_2.
  - intros d h r h' [-> Hr]%on_descriptor_same. split; [done|]. intros p s Hd Hs.
    destruct (Hr p s Hd Hs) as ([s' t] & Hf & ->). by exists t.
  - intros d h r h' [-> Hr]%on_descriptor_same. split; [done|]. intros p t Hd Ht.
    destruct (Hr p t Hd Ht) as ([s t'] & Hf & ->). by exists s.
  - intros d p mode s t h r h' Hd Hf. cbn [fchmod mac_calls]. rewrite (on_descriptor_at _ _ _ _ _ Hd Hf).
    case_bool_decide as Hm; intros [= <- <-]; [|split; [done|]; by exists s]. split; [apply kept_put|]. exists (chmod mode s).
    rewrite found_put, bool_decide_eq_true_2 by done. split; [done|]. intros _. unfold chmod. cbn [st_mode].
    by rewrite imode_land.
  - intros d p s t c h r h' Hd Hf. cbn [write_fd mac_calls]. rewrite (on_descriptor_at _ _ _ _ _ Hd Hf). intros [= <- <-].
    split; [apply kept_put|]. eexists _, _. rewrite found_put, bool_decide_eq_true_2 by done. split; [done|].
    intros n [= <-]. split; [done|]. split; [done|]. cbn [snd]. by rewrite substring_all.
  - by intros d h r h' [= <- <-].
  - by intros d h r h' [= <- <-].
  - intros src dst h r h' Hne. cbn [replace_path mac_calls]. unfold on_file. destruct (file_at h src) as [x|] eqn:Hx; intros [= <- <-]; [|done].
    split.
    + eapply kept_trans; (eapply kept_mono; [|apply kept_put]; set_solver).
    + rewrite !found_put, Hx. by rewrite bool_decide_eq_true_2, bool_decide_eq_false_2, bool_decide_eq_true_2.
  - intros p h r h'. cbn [unlink_path mac_calls]. unfold on_file. destruct (file_at h p) as [x|] eqn:Hx; intros [= <- <-]; [|done].
    split; [apply kept_put|]. by rewrite found_put, bool_decide_eq_true_2.
  - by intros p h r h' [= <- <-].
Qed.

(** ** The manager *)

Definition mac_layout : DarwinLayout :=
  mk_darwin_layout (mk_path "/" ["Users"; "user"; "Library"; "LaunchAgents"; LAUNCHAGENT_FILENAME])
    (mk_path "/" ["Users"; "user"; ".proactive-mcp"; "proactive.db"]).
Definition mac_executable : Path := mk_path "/" ["usr"; "local"; "bin"; "proactive-mcp"].
Definition mac_invocation : Invocation := mk_invocation mac_executable false 501.
Definition mac_domain : text := Launchd.domain 501.
Definition mac_target : text := Launchd.target 501 LAUNCHAGENT_LABEL.

Definition answers (out : text) : Completed := mk_completed 0 out "".
Definition listing (enabled : bool) : text :=
  lines ["disabled services = {"; "	" +:+ quoted LAUNCHAGENT_LABEL +:+ " => " +:+ (if enabled then "enabled" else "disabled"); "}"]%string.
Definition printed (active : bool) : text :=
  lines ["service = {"; "	state = " +:+ (if active then "running" else "waiting"); "	pid = 4242"; "}"]%string.
Definition absent_answer : Completed := mk_completed 113 "Could not find service" "".
Definition set_service (loaded enabled running : bool) (starts : list bool) (h : mac) : mac :=
  mk_mac (mc_files h) (mc_open h) loaded enabled running starts (mc_lost h).
Definition next_start (h : mac) : bool := default true (head (mc_starts h)).

(** What a command that is not lost does. *)
Definition mac_command (arguments : list text) (h : mac) : Completed * mac :=
  match arguments with
  | [verb; subject] =>
    if bool_decide (verb = _PRINT_DISABLED) then (answers (listing (mc_enabled h)), h) else
    if bool_decide (verb = _PRINT) then
      (if mc_loaded h then answers (printed (mc_running h)) else absent_answer, h) else
    if bool_decide (verb = "enable"%string)
    then (answers "", set_service (mc_loaded h) true (mc_running h) (mc_starts h) h) else
    if bool_decide (verb = "disable"%string)
    then (answers "", set_service (mc_loaded h) false (mc_running h) (mc_starts h) h) else
    if bool_decide (verb = "bootout"%string)
    then (answers "", set_service false (mc_enabled h) false (mc_starts h) h) else
    if bool_decide (verb = "kickstart"%string) && mc_loaded h && next_start h
    then (answers "", set_service true (mc_enabled h) true (tail (mc_starts h)) h)
    else (mk_completed 1 "" "", set_service (mc_loaded h) (mc_enabled h) (mc_running h) (tail (mc_starts h)) h)
  | [verb; _; _] =>
    if bool_decide (verb = "bootstrap"%string)
    then (answers "", set_service true (mc_enabled h) (next_start h) (tail (mc_starts h)) h)
    else (mk_completed 1 "" "", h)
  | _ => (mk_completed 1 "" "", h)
  end.
Definition lost_next (h : mac) : mac :=
  mk_mac (mc_files h) (mc_open h) (mc_loaded h) (mc_enabled h) (mc_running h) (mc_starts h) (tail (mc_lost h)).
Definition mac_run (argv : list text) (h : mac) : option Completed * mac :=
  if default false (head (mc_lost h)) then (None, lost_next h) else
  let '(c, h') := mac_command (tail argv) (lost_next h) in (Some c, h').
Definition mac_daemon (h : mac) : DaemonStatusResponse :=
  let active := ld_active (service_at h) in
  mk_daemon_response active (if active then Daemon.LiveRunning else Daemon.LiveStopped) (ld_pid (service_at h))
    None None 0 None NeverRun None None None.
#[export] Instance mac_host : ServiceHost mac := {|
  run_process := mac_run;
  status_daemon h := (Ok (mac_daemon h), h);
  path_exists h p := bool_decide (p = mac_executable);
  open_and_fstat h p := if bool_decide (p = mac_executable) then Some (Some (mk_stat (S_IFREG + 493) 0 1 1 1)) else None;
  lstat h p := if bool_decide (p = mac_executable) then Some (mk_stat (S_IFREG + 493) 0 1 1 1) else None;
|}.
#[export] Instance mac_sleeps : Sleeps mac := λ _ h, (Ok tt, h).
(** A property list is written as its strings, and read back as one of this package. *)
Fixpoint strings (v : PlistValue) : text :=
  match v with
  | PStr s => s +:+ ";"
  | PList l => foldr (λ v t, strings v +:+ t) "" l
  | PDict d => foldr (λ x t, x.1 +:+ "=" +:+ strings x.2 +:+ t) "" d
  | _ => ";"
  end%string.
#[export] Instance mac_plists : Plistlib := {|
  dumps v := ("plist " +:+ strings v)%string;
  parse_launch_agent_plist c :=
    if String.prefix "plist " c then Ok (launch_agent "" "" "" "") else Err InvalidFileException;
|}.

#[local] Existing Instances ascii_unicode hangul_tables ascii_categories.
Lemma listing_read enabled b : reads_enabled LAUNCHAGENT_LABEL (listing enabled) = Some b → enabled = b.
Proof. destruct enabled; vm_compute; by intros [= <-]. Qed.
Lemma printed_read active : reads_running (printed active) = if active then Some 4242 else None.
Proof. by destruct active; vm_compute. Qed.
Lemma mac_command_files arguments h : mc_files (mac_command arguments h).2 = mc_files h.
Proof. unfold mac_command. by repeat case_match. Qed.
(** What [run_launchctl] gives for a command that was lost, and for one that was not. *)
Definition mac_result (c : Completed) : LaunchctlResult :=
  mk_launchctl (cp_returncode c =? 0) (cp_stdout c) (cp_returncode c).
Lemma mac_runs arguments h r h' : run_launchctl (_LAUNCHCTL :: arguments) h = (r, h') →
  r = Ok (mk_launchctl false "" (-1)) ∧ h' = lost_next h ∨
  r = Ok (mac_result (mac_command arguments (lost_next h)).1) ∧ h' = (mac_command arguments (lost_next h)).2.
Proof.
  unfold run_launchctl. cbn [run_process mac_host]. unfold mac_run. destruct (default false _); [intros [= <- <-]; by left|].
  cbn [tail]. destruct (mac_command arguments (lost_next h)) as [c h1] eqn:Hc. intros [= <- <-]. right. split; [|done].
  assert (cp_stderr c = ""%string) as He; [|by rewrite bool_decide_eq_true_2].
  revert Hc. unfold mac_command. repeat case_match; by intros [= <- _].
Qed.
Lemma lost_service h : service_at (lost_next h) = service_at h.
Proof. done. Qed.

#[export] Instance mac_laws : LaunchdLaws (W := mac) 501.
Proof.
  split; [|by intros h r h' [= _ <-]|by intros n h r h' [= _ <-]].
  intros arguments h r h' [[-> ->]|[-> ->]]%mac_runs; eexists; (split; [done|]).
  - split; [done|]. split; [done|]. split; [done|]. split; [intros b' ->; by split; [left|]|]. by split; [intros p ->|split; intros ->].
  - split; [intros q; cbn; by rewrite mac_command_files|]. rewrite <- (lost_service h). set (g := lost_next h). clearbody g.
    split; [intros ->; split; [done|]; intros _ b Hb%listing_read; done|].
    split; [intros ->|split; [intros b ->|split; [intros p ->|split; [intros ->|intros ->]]]].
    + change (mac_command [_PRINT; Launchd.target 501 LAUNCHAGENT_LABEL] g)
        with ((if mc_loaded g then answers (printed (mc_running g)) else absent_answer, g)).
      split; [done|]. pose proof (printed_read (mc_running g)) as Hread. set (out := printed (mc_running g)) in *.
      cbn [fst snd]. unfold service_at, mac_service. destruct (mc_loaded g) eqn:Hl; cbn [mac_result answers lr_succeeded lr_output cp_returncode cp_stdout andb ld_loaded ld_pid ld_active].
      * split; [|done]. intros _. split; [done|]. rewrite Hread.
        by destruct (mc_running g).
      * by split.
    + destruct b; cbn; (split; [right|intros _]); unfold with_enabled; cbn; done.
    + done.
    + done.
    + unfold mac_command. change (bool_decide ("kickstart"%string = "kickstart"%string)) with true.
      repeat rewrite (bool_decide_eq_false_2 (_ = _)) by (intros Heq; vm_compute in Heq; discriminate).
      cbn [andb]. destruct (mc_loaded g) eqn:Hl; cbn [andb]; [destruct (next_start g)|]; cbn; by rewrite ?Hl.
Qed.

(** ** The commands run *)

Abbreviation on_mac fuel := (execute_darwin mac_invocation (λ i, Z.of_nat i * _READINESS_INTERVAL) "a"%string "b"%string fuel (Ok mac_layout)).
Definition fresh_mac : mac := mk_mac [] [] false false false [] [].
(** An older version of the plist is installed and runs; the new one does not start. *)
Definition old_plist : file := (mk_stat (S_IFREG + 384) 501 1 1 9, "plist old"%string).
Definition stale_mac : mac := mk_mac [(dl_plist mac_layout, Some old_plist)] [] true true true [false; false; true] [].

Lemma darwin_commands_are_transactional_witness :
  match on_mac 300 ActionInstall fresh_mac with
  | (Ok result, h) => scr_success result = true ∧ installed mac_invocation mac_layout fresh_mac h (scr_response result) ∧
      match on_mac 300 ActionRemove h with
      | (Ok result', h') => darwin_honest mac_invocation "b" mac_layout ActionRemove h h' (scr_response result') (scr_success result') ∧
          artifact_of mac_layout h' = None
      | _ => False
      end
  | _ => False
  end.
Proof.
  destruct (on_mac 300 ActionInstall fresh_mac) as [[result|e] h] eqn:Hrun; [|vm_compute in Hrun; discriminate].
  destruct (darwin_commands_are_transactional mac_invocation _ _ _ _ mac_layout ActionInstall fresh_mac _ _ Hrun) as (_ & _ & Hh).
  destruct (on_mac 300 ActionRemove h) as [[result'|e] h'] eqn:Hrun'.
  2: { exfalso. vm_compute in Hrun. injection Hrun as <- <-. vm_compute in Hrun'. discriminate. }
  destruct (darwin_commands_are_transactional mac_invocation _ _ _ _ mac_layout ActionRemove h _ _ Hrun') as (_ & _ & Hh').
  assert (scr_success result = true ∧ sr_state (scr_response result) = Installed ∧ artifact_of mac_layout h' = None)
    as (Hok & Hst & Hgone).
  { vm_compute in Hrun. injection Hrun as <- <-. vm_compute in Hrun'. injection Hrun' as <- <-. by vm_compute. }
  split; [exact Hok|]. specialize (Hh _ eq_refl). unfold darwin_honest in Hh. rewrite Hst in Hh.
  destruct Hh as (_ & _ & _ & Hinst). split; [exact Hinst|]. split; [exact (Hh' _ eq_refl)|exact Hgone].
Defined.

(** A version that does not start gives the old one back, loaded and running. *)
Example failed_upgrade_is_rolled_back :
  match on_mac 300 ActionInstall stale_mac with
  | (Ok result, h) => sr_code (scr_response result) = Some CommandFailed ∧
      artifact_of mac_layout h = artifact_of mac_layout stale_mac ∧ service_at h = service_at stale_mac
  | _ => False
  end.
Proof. by vm_compute. Qed.
Lemma readiness_wait_ends_witness :
  (∀ i : nat, Z.of_nat i * _READINESS_INTERVAL + _READINESS_INTERVAL ≤ Z.of_nat (S i) * _READINESS_INTERVAL) ∧
  _wait_for_ready mac_invocation (λ i, Z.of_nat i * _READINESS_INTERVAL) 1000 mac_layout stale_mac =
  _wait_for_ready mac_invocation (λ i, Z.of_nat i * _READINESS_INTERVAL) 300 mac_layout stale_mac.
Proof.
  assert (∀ i : nat, Z.of_nat i * _READINESS_INTERVAL + _READINESS_INTERVAL ≤ Z.of_nat (S i) * _READINESS_INTERVAL) as Hclock.
  { intros i. lia. }
  split; [exact Hclock|]. apply (readiness_wait_ends mac_invocation (λ i, Z.of_nat i * _READINESS_INTERVAL)); [vm_compute; discriminate|exact Hclock|lia].
Defined.
