(* ===== verification/PrivatePaths.v ===== *)
(** Private directories and files on POSIX ([store/_posix_identity.py], [_posix_private_path.py],
    [private_path.py], [private_file.py]): the calls relative to a pinned directory descriptor, the
    identity checks, the parent walk, and the private text files. *)
From Stdlib Require Import Ascii.
From S2P Require Import Prelude Runs Paths Services.
#[local] Open Scope Z_scope.

(** ** Errors and calls *)

(** The first three are [OSError]s. *)
Inductive private_exn :=
  | FileNotFoundError | FileExistsError | OtherOSError
  | PrivateFileUnsupportedError | UnsafeDatabasePathError | UnicodeDecodeError.
Definition is_os_error (e : private_exn) : bool :=
  match e with FileNotFoundError | FileExistsError | OtherOSError => true | _ => false end.

Inductive access := ReadOnly | ReadWrite | WriteOnly | PathOnly.
(** [O_CREAT] and [O_EXCL]. *)
Inductive creation := MustExist | CreateIfMissing | CreateNew.
(** Calls relative to a directory descriptor; every [open] has [O_NOFOLLOW].  [write_synced] is the
    write of a whole text through a duplicate of the descriptor, flushed and synced, [read_all] the
    decoded read through a duplicate, [chmod_descriptor] [chmod] of [/proc/self/fd]. *)
Class PosixCalls (W : Type) := {
  open_root : M W private_exn Z;
  open_directory : Z → text → M W private_exn Z;
  mkdir : Z → text → Z → M W private_exn unit;
  open_file : Z → text → access → creation → Z → M W private_exn Z;
  fstat : Z → M W private_exn stat_result;
  stat_at : Z → text → M W private_exn stat_result;
  fchmod : Z → Z → M W private_exn unit;
  chmod_descriptor : Z → Z → M W private_exn unit;
  write_synced : Z → text → M W private_exn unit;
  read_all : Z → M W private_exn text;
  fsync : Z → M W private_exn unit;
  close : Z → M W private_exn unit;
  replace : Z → text → text → M W private_exn unit;
  unlink : Z → text → M W private_exn unit;
  flock : Z → bool → M W private_exn unit;
}.

Definition _PRIVATE_DIRECTORY_MODE : Z := 448.
Definition _PRIVATE_FILE_MODE : Z := 384.
Definition S_IFDIR : Z := 16384.
Definition S_ISDIR (mode : Z) : bool := Z.land mode S_IFMT =? S_IFDIR.
Definition S_IMODE (mode : Z) : Z := Z.land mode 4095.
Definition S_IWGRP_S_IWOTH : Z := 18.
Definition S_ISVTX : Z := 512.

Section Calls.
Context {W : Type} {F : PosixCalls W}.
(** [os.getuid()] and [sys.platform]. *)
Context (uid : Z) (platform : text).
Abbreviation op A := (M W private_exn A).

(** [except OSError as error: raise UnsafeDatabasePathError]. *)
Definition unsafe_os_error {A} (e : private_exn) : op A :=
  if is_os_error e then raise UnsafeDatabasePathError else raise e.
(** [contextlib.suppress]. *)
Definition suppress (p : private_exn → bool) (m : op unit) : op unit :=
  try_except m (λ e, if p e then mret tt else raise e).
Definition is_not_found (e : private_exn) : bool := match e with FileNotFoundError => true | _ => false end.
Definition is_exists (e : private_exn) : bool := match e with FileExistsError => true | _ => false end.
(** [except ...: os.close(descriptor); raise]. *)
Definition close_on_error {A} (catches : private_exn → bool) (descriptor : Z) (m : op A) : op A :=
  try_except m (λ e, if catches e then close descriptor;; raise e else raise e).
Definition os_or_unsafe (e : private_exn) : bool :=
  is_os_error e || match e with UnsafeDatabasePathError => true | _ => false end.

(** ** Identity *)

Definition identity (observed : stat_result) : Z * Z := (st_dev observed, st_ino observed).
Definition verify_private_file (observed : stat_result) : op unit :=
  if negb (S_ISREG (st_mode observed)) then raise UnsafeDatabasePathError else
  if negb (st_uid observed =? uid) then raise UnsafeDatabasePathError else
  if negb (st_nlink observed =? 1) then raise UnsafeDatabasePathError else mret tt.
Definition verify_open_name (directory_fd : Z) (name : text) (descriptor : Z) : op stat_result :=
  observed ← fstat descriptor;
  verify_private_file observed;;
  current ← stat_at directory_fd name;
  verify_private_file current;;
  if negb (bool_decide (identity current = identity observed)) then raise UnsafeDatabasePathError else mret observed.

(** ** The parent directory *)

Definition _verify_private_directory (directory_fd : Z) (is_database_parent : bool) : op unit :=
  observed ← fstat directory_fd;
  if negb (S_ISDIR (st_mode observed)) then raise UnsafeDatabasePathError else
  if negb ((st_uid observed =? 0) || (st_uid observed =? uid)) then raise UnsafeDatabasePathError else
  if is_database_parent then
    if negb (st_uid observed =? uid) then raise UnsafeDatabasePathError else
    fchmod directory_fd _PRIVATE_DIRECTORY_MODE
  else
  let writable_by_others := negb (Z.land (st_mode observed) S_IWGRP_S_IWOTH =? 0) in
  if writable_by_others && (Z.land (st_mode observed) S_ISVTX =? 0) then raise UnsafeDatabasePathError else mret tt.

(** One component below the open directory. *)
Definition open_component (current_fd : Z) (part : text) : op Z :=
  try_except (open_directory current_fd part) (λ e,
    if is_not_found e then
      suppress is_exists (mkdir current_fd part _PRIVATE_DIRECTORY_MODE);;
      open_directory current_fd part
    else unsafe_os_error e).
(** The loop of [open_private_parent]; [finally] closes the descriptor it stands at. *)
Fixpoint walk (current_fd : Z) (parts : list text) : op Z :=
  match parts with
  | [] => mret current_fd
  | part :: parts =>
    next_fd ← try_except (open_component current_fd part) (λ e, close current_fd;; raise e);
    try_except (close current_fd) (λ e, close current_fd;; raise e);;
    try_except (_verify_private_directory next_fd (bool_decide (parts = []))) (λ e, close next_fd;; raise e);;
    walk next_fd parts
  end.
Definition posix_open_private_parent (path : Path) : op Z :=
  if negb (is_absolute path) then raise UnsafeDatabasePathError else
  current_fd ← open_root;
  walk current_fd (names (parent path)).

(** ** Private files below it *)

Definition _open_private_file (directory_fd : Z) (name : text) (a : access) (c : creation) : op Z :=
  descriptor ← try_except (open_file directory_fd name a c _PRIVATE_FILE_MODE) (λ e,
    if is_not_found e then
      match c with
      | MustExist => raise UnsafeDatabasePathError
      | _ => try_except (open_file directory_fd name a c _PRIVATE_FILE_MODE) unsafe_os_error
      end
    else unsafe_os_error e);
  close_on_error os_or_unsafe descriptor
    (observed ← fstat descriptor;
     verify_private_file observed;;
     (if negb (S_IMODE (st_mode observed) =? _PRIVATE_FILE_MODE) then fchmod descriptor _PRIVATE_FILE_MODE else mret tt);;
     verify_open_name directory_fd name descriptor;;
     mret descriptor).

(** macOS inspects a sidecar before it opens it; [None]: go on. *)
Definition inspect_sidecar (directory_fd : Z) (name : text) : op (option unit) :=
  if negb (bool_decide (platform = "darwin"%string)) then mret None else
  existing ← try_except (s ← stat_at directory_fd name; mret (Some s)) (λ e,
    if is_not_found e then mret None else unsafe_os_error e);
  match existing with
  | None => mret (Some tt)
  | Some existing =>
    verify_private_file existing;;
    mret (if S_IMODE (st_mode existing) =? _PRIVATE_FILE_MODE then Some tt else None)
  end.
Definition _secure_existing_sidecar (directory_fd : Z) (name : text) : op unit :=
  let linux := bool_decide (platform = "linux"%string) in
  inspected ← inspect_sidecar directory_fd name;
  match inspected with
  | Some _ => mret tt
  | None =>
    opened ← try_except
      (d ← open_file directory_fd name (if linux then PathOnly else ReadOnly) MustExist 511; mret (Some d))
      (λ e, if is_not_found e then mret None else unsafe_os_error e);
    match opened with
    | None => mret tt
    | Some descriptor =>
      finally_do
        (try_except
          (observed ← fstat descriptor;
           verify_private_file observed;;
           (if negb (S_IMODE (st_mode observed) =? _PRIVATE_FILE_MODE)
            then (if linux then chmod_descriptor descriptor _PRIVATE_FILE_MODE else fchmod descriptor _PRIVATE_FILE_MODE)
            else mret tt);;
           verify_open_name directory_fd name descriptor;;
           mret tt)
          unsafe_os_error)
        (close descriptor)
    end
  end.
Definition posix_enforce_private_sidecars (directory_fd : Z) (path : Path) : op unit :=
  database_fd ← _open_private_file directory_fd (name path) ReadOnly MustExist;
  close database_fd;;
  _secure_existing_sidecar directory_fd (name path +:+ "-wal");;
  _secure_existing_sidecar directory_fd (name path +:+ "-shm");;
  _secure_existing_sidecar directory_fd (name path +:+ "-journal").
Definition posix_prepare_private_database_file (directory_fd : Z) (path : Path) : op Z :=
  descriptor ← _open_private_file directory_fd (name path) ReadWrite CreateIfMissing;
  close_on_error (λ _, true) descriptor (posix_enforce_private_sidecars directory_fd path);;
  mret descriptor.
(** [private_initialization_lock]: what it does before its [yield], after it, and in its [finally]. *)
Definition lock_name (path : Path) : text := ("." +:+ name path +:+ ".init.lock")%string.
Definition lock_release (lock_fd : Z) : op unit := flock lock_fd false;; close lock_fd.
Definition lock_acquire (directory_fd : Z) (path : Path) : op Z :=
  lock_fd ← _open_private_file directory_fd (lock_name path) ReadWrite CreateIfMissing;
  try_except (flock lock_fd true;; verify_open_name directory_fd (lock_name path) lock_fd;; mret tt)
    (λ e, lock_release lock_fd;; raise e);;
  mret lock_fd.
Definition lock_check (directory_fd : Z) (path : Path) (lock_fd : Z) : op unit :=
  verify_open_name directory_fd (lock_name path) lock_fd;; mret tt.
End Calls.
