(* ===== verification/PrivateFiles.v ===== *)
(** Private text files ([store/private_file.py]) and the choice of the platform's backend
    ([store/private_path.py]), with what their calls promise on POSIX: a read gives what a verified
    file holds, a write replaces it whole or not at all, a deletion removes it. *)
From Stdlib Require Import Ascii.
From S2P Require Import Prelude Runs Paths Services PrivatePaths.
#[local] Open Scope Z_scope.

(** ** The backends *)

(** [store/windows_path.py], which protects files by their access lists: what its functions do, and
    what the two ends of its context managers do.  A lock is a handle, a guard the handles of the
    parent and of the database. *)
Class WindowsBackend (W : Type) := {
  prepare_private_parent : Path → M W private_exn unit;
  windows_prepare_private_database_file : Path → M W private_exn unit;
  windows_lock : Path → M W private_exn Z;
  windows_unlock : Path → Z → M W private_exn unit;
  windows_enforce_private_sidecars : Path → M W private_exn unit;
  windows_guard_enter : Path → M W private_exn (Z * Z);
  windows_guard_exit : Path → Z * Z → M W private_exn unit;
}.
(** The calls of [pathlib] that [private_file.py] makes on Windows. *)
Class PathlibCalls (W : Type) := {
  exists_path : Path → M W private_exn bool;
  read_path : Path → M W private_exn text;
  write_path_synced : Path → text → M W private_exn unit;
  replace_path : Path → Path → M W private_exn unit;
  unlink_path : Path → M W private_exn unit;
}.

Section Dispatch.
Context {W : Type} {F : PosixCalls W} {B : WindowsBackend W} {P : PathlibCalls W}.
(** [os.name == "nt"], [os.getuid()] and [sys.platform]. *)
Context (nt : bool) (uid : Z) (platform : text).
Abbreviation op A := (M W private_exn A).

Definition open_private_parent (path : Path) : op (option Z) :=
  if negb (is_absolute path) then raise UnsafeDatabasePathError else
  if bool_decide (".."%string ∈ names path) then raise UnsafeDatabasePathError else
  if negb (bool_decide (platform ∈ ["linux"; "darwin"; "win32"]%string)) then raise UnsafeDatabasePathError else
  if nt then prepare_private_parent path;; mret None else
  d ← posix_open_private_parent uid path; mret (Some d).
Definition prepare_private_database_file (directory_fd : option Z) (path : Path) : op (option Z) :=
  if nt then windows_prepare_private_database_file path;; mret None else
  match directory_fd with
  | None => raise UnsafeDatabasePathError
  | Some directory_fd => d ← posix_prepare_private_database_file uid platform directory_fd path; mret (Some d)
  end.
Definition verify_database_identity (directory_fd : option Z) (path : Path) (database_fd : option Z) : op unit :=
  if nt then mret tt else
  match directory_fd, database_fd with
  | Some directory_fd, Some database_fd => verify_open_name uid directory_fd (name path) database_fd;; mret tt
  | _, _ => raise UnsafeDatabasePathError
  end.
(** [private_initialization_lock]: before its [yield] (with the lock's descriptor or handle), after
    it, and in its [finally]. *)
Definition initialization_lock (directory_fd : option Z) (path : Path) : op (option Z) :=
  if nt then l ← windows_lock path; mret (Some l) else
  match directory_fd with
  | None => raise UnsafeDatabasePathError
  | Some directory_fd => d ← lock_acquire uid directory_fd path; mret (Some d)
  end.
Definition initialization_check (directory_fd : option Z) (path : Path) (lock_fd : option Z) : op unit :=
  match directory_fd, lock_fd with Some d, Some l => lock_check uid d path l | _, _ => mret tt end.
Definition initialization_unlock (path : Path) (lock_fd : option Z) : op unit :=
  match lock_fd with Some l => if nt then windows_unlock path l else lock_release l | None => mret tt end.
Definition enforce_private_sidecars (directory_fd : option Z) (path : Path) : op unit :=
  if nt then windows_enforce_private_sidecars path else
  match directory_fd with
  | None => raise UnsafeDatabasePathError
  | Some directory_fd => posix_enforce_private_sidecars uid platform directory_fd path
  end.
(** [private_database_guard]: what its two ends do, with the handles it holds. *)
Definition guard_enter (path : Path) : op (option (Z * Z)) :=
  if nt then g ← windows_guard_enter path; mret (Some g) else mret None.
Definition guard_exit (path : Path) (guard : option (Z * Z)) : op unit :=
  match guard with Some g => windows_guard_exit path g | None => mret tt end.
Definition sqlite_connection_target (directory_fd : option Z) (path : Path) : text :=
  match directory_fd with
  | Some d => if bool_decide (platform = "linux"%string) then ("/proc/self/fd/" +:+ pretty d +:+ "/" +:+ name path)%string
              else path_text path
  | None => if nt then windows_text path else path_text path
  end.

(** ** Private text files *)

Definition _verify_identity (observed : stat_result) : op unit :=
  if S_ISREG (st_mode observed) && (st_uid observed =? uid) && (st_nlink observed =? 1)
  then mret tt else raise UnsafeDatabasePathError.
Definition _verify_open_name (directory_fd : Z) (name : text) (descriptor : Z) : op unit :=
  observed ← fstat descriptor;
  _verify_identity observed;;
  current ← stat_at directory_fd name;
  if negb (bool_decide (identity current = identity observed)) then raise UnsafeDatabasePathError else
  _verify_identity current.
Definition _open_regular (directory_fd : Z) (name : text) (a : access) (c : creation) : op Z :=
  descriptor ← open_file directory_fd name a c _PRIVATE_FILE_MODE;
  close_on_error os_or_unsafe descriptor
    (observed ← fstat descriptor;
     _verify_identity observed;;
     observed ← fstat descriptor;
     (if negb (S_IMODE (st_mode observed) =? _PRIVATE_FILE_MODE) then fchmod descriptor _PRIVATE_FILE_MODE else mret tt);;
     _verify_open_name directory_fd name descriptor);;
  mret descriptor.
Definition _open_optional (directory_fd : Z) (name : text) : op (option Z) :=
  try_except (d ← _open_regular directory_fd name ReadOnly MustExist; mret (Some d))
    (λ e, if is_not_found e then mret None else raise e).
Definition _open_posix_parent (path : Path) : op Z :=
  directory_fd ← open_private_parent path;
  match directory_fd with Some d => mret d | None => raise PrivateFileUnsupportedError end.
Definition close_optional (descriptor : option Z) : op unit :=
  match descriptor with Some d => close d | None => mret tt end.

(** The body of [write_private_text] below its open parent; [temporary_name] is the drawn name. *)
Definition write_below (directory_fd : Z) (file_name temporary_name content : text) : op unit :=
  let cleanup (temporary_fd destination_fd : option Z) : op unit :=
    close_optional temporary_fd;;
    close_optional destination_fd;;
    suppress is_not_found (unlink directory_fd temporary_name);;
    close directory_fd in
  destination_fd ← try_except (_open_optional directory_fd file_name)
    (λ e, cleanup None None;; raise e);
  temporary_fd ← try_except (_open_regular directory_fd temporary_name WriteOnly CreateNew)
    (λ e, cleanup None destination_fd;; raise e);
  finally_do
    (write_synced temporary_fd content;;
     _verify_open_name directory_fd temporary_name temporary_fd;;
     (match destination_fd with Some d => _verify_open_name directory_fd file_name d | None => mret tt end);;
     replace directory_fd temporary_name file_name;;
     _verify_open_name directory_fd file_name temporary_fd;;
     fsync directory_fd)
    (cleanup (Some temporary_fd) destination_fd).
Definition temporary_name (path : Path) (token : text) : text := ("." +:+ name path +:+ "." +:+ token +:+ ".tmp")%string.
Definition _write_windows_private_text (token : text) (path : Path) (content : text) : op unit :=
  open_private_parent path;;
  let temporary := with_name path (temporary_name path token) in
  finally_do
    (prepare_private_database_file None temporary;;
     write_path_synced temporary content;;
     replace_path temporary path;;
     prepare_private_database_file None path;;
     mret tt)
    (suppress is_not_found (unlink_path temporary)).
(** [token] is the [token_hex(8)] of the call. *)
Definition write_private_text (token : text) (path : Path) (content : text) : op unit :=
  if nt then _write_windows_private_text token path content else
  directory_fd ← _open_posix_parent path;
  write_below directory_fd (name path) (temporary_name path token) content.

Definition read_below (directory_fd : Z) (file_name : text) : op (option text) :=
  descriptor ← try_except (_open_optional directory_fd file_name) (λ e, close directory_fd;; raise e);
  match descriptor with
  | None => close directory_fd;; mret None
  | Some descriptor =>
    finally_do
      (content ← read_all descriptor;
       _verify_open_name directory_fd file_name descriptor;;
       mret (Some content))
      (close descriptor;; close directory_fd)
  end.
Definition _read_windows_private_text (path : Path) : op (option text) :=
  open_private_parent path;;
  present ← exists_path path;
  if negb present then mret None else
  prepare_private_database_file None path;;
  t ← read_path path; mret (Some t).
Definition read_private_text (path : Path) : op (option text) :=
  if nt then _read_windows_private_text path else
  directory_fd ← _open_posix_parent path;
  read_below directory_fd (name path).

Definition delete_below (directory_fd : Z) (file_name : text) : op unit :=
  descriptor ← try_except (_open_optional directory_fd file_name) (λ e, close directory_fd;; raise e);
  match descriptor with
  | None => close directory_fd
  | Some descriptor =>
    finally_do
      (_verify_open_name directory_fd file_name descriptor;;
       unlink directory_fd file_name;;
       observed ← fstat descriptor;
       (if negb (st_nlink observed =? 0) then raise UnsafeDatabasePathError else mret tt);;
       fsync directory_fd)
      (close descriptor;; close directory_fd)
  end.
Definition _delete_windows_private_file (path : Path) : op unit :=
  open_private_parent path;;
  present ← exists_path path;
  if negb present then mret tt else
  prepare_private_database_file None path;;
  unlink_path path.
Definition delete_private_file (path : Path) : op unit :=
  if nt then _delete_windows_private_file path else
  directory_fd ← _open_posix_parent path;
  delete_below directory_fd (name path).
End Dispatch.

(** ** What the calls promise *)

(** What can be observed: the entries of a directory, each naming an inode, the status and the bytes
    of an inode, and the inode a descriptor is open at. *)
Abbreviation inode := (Z * Z)%type.
Class PosixWorld (W : Type) := {
  root_inode : inode;
  entry_at : W → inode → text → option inode;
  inode_at : W → inode → option (stat_result * text);
  opened : W → Z → option inode;
}.

Section Laws.
Context {W : Type} {F : PosixCalls W} {V : PosixWorld W}.

Definition entries_same (w w' : W) : Prop := ∀ d n, entry_at w' d n = entry_at w d n.
Definition entries_except (d : inode) (ns : list text) (w w' : W) : Prop :=
  ∀ d' n, d' ≠ d ∨ n ∉ ns → entry_at w' d' n = entry_at w d' n.
Definition fds_kept (w w' : W) : Prop := ∀ fd i, opened w fd = Some i → opened w' fd = Some i.
Definition unchanged (w w' : W) : Prop := entries_same w w' ∧ (∀ i, inode_at w' i = inode_at w i) ∧ fds_kept w w'.
(** The bytes a name leads to. *)
Definition text_at (w : W) (d : inode) (n : text) : option text := i ← entry_at w d n; snd <$> inode_at w i.

(** Entries and inodes are this user's to change: no other process changes the directories involved
    during a call of these modules, and what the calls themselves do is what POSIX says.  A status
    carries the identity of its inode; a created inode has no other name, and one with a link count of one has no two; removing a name changes
    at most the status of an inode that still has one. *)
Class PosixLaws : Prop := {
  inode_law w i s t : inode_at w i = Some (s, t) → identity s = i;
  entry_law w d n i : entry_at w d n = Some i → is_Some (inode_at w i);
  link_law w d n d' n' i s t : entry_at w d n = Some i → entry_at w d' n' = Some i → inode_at w i = Some (s, t) →
    st_nlink s = 1 → d' = d ∧ n' = n;
  open_root_law w r w' : open_root w = (r, w') → unchanged w w' ∧ ∀ fd, r = Ok fd → opened w' fd = Some root_inode;
  open_directory_law dfd d n w r w' : opened w dfd = Some d → open_directory dfd n w = (r, w') →
    unchanged w w' ∧ ∀ fd, r = Ok fd → opened w fd = None ∧ ∃ i, entry_at w d n = Some i ∧ opened w' fd = Some i;
  mkdir_law dfd n mode w r w' : mkdir dfd n mode w = (r, w') →
    fds_kept w w' ∧ (∀ d' n' i, entry_at w d' n' = Some i → entry_at w' d' n' = Some i) ∧
    (∀ i s t, inode_at w i = Some (s, t) → ∃ s', inode_at w' i = Some (s', t) ∧ st_mode s' = st_mode s ∧ st_uid s' = st_uid s);
  open_file_law dfd d n a c mode w r w' : opened w dfd = Some d → open_file dfd n a c mode w = (r, w') →
    match r with
    | Err e => unchanged w w' ∧ (e = FileNotFoundError → entry_at w d n = None)
    | Ok fd => fds_kept w w' ∧ opened w fd = None ∧ ∃ i, opened w' fd = Some i ∧
        (c ≠ CreateNew ∧ entry_at w d n = Some i ∧ unchanged w w' ∨
         c ≠ MustExist ∧ entry_at w d n = None ∧ entry_at w' d n = Some i ∧ entries_except d [n] w w' ∧
         (∀ d' n', entry_at w d' n' ≠ Some i) ∧ (∀ j, j ≠ i → inode_at w' j = inode_at w j) ∧
         ∃ s, inode_at w' i = Some (s, ""%string))
    end;
  fstat_law fd i w r w' : opened w fd = Some i → fstat fd w = (r, w') →
    unchanged w w' ∧ r ≠ Err FileNotFoundError ∧ ∀ s, r = Ok s → ∃ t, inode_at w i = Some (s, t);
  stat_at_law dfd d n w r w' : opened w dfd = Some d → stat_at dfd n w = (r, w') →
    unchanged w w' ∧ (r = Err FileNotFoundError → entry_at w d n = None) ∧
    ∀ s, r = Ok s → ∃ i t, entry_at w d n = Some i ∧ inode_at w i = Some (s, t);
  fchmod_law fd i s t mode w r w' : opened w fd = Some i → inode_at w i = Some (s, t) → fchmod fd mode w = (r, w') →
    entries_same w w' ∧ fds_kept w w' ∧ r ≠ Err FileNotFoundError ∧ (∀ j, j ≠ i → inode_at w' j = inode_at w j) ∧
    ∃ s', inode_at w' i = Some (s', t) ∧ st_uid s' = st_uid s ∧ st_nlink s' = st_nlink s ∧
      Z.land (st_mode s') S_IFMT = Z.land (st_mode s) S_IFMT ∧ (r = Ok tt → S_IMODE (st_mode s') = mode) ∧
      (r ≠ Ok tt → st_mode s' = st_mode s);
  write_law fd i s c w r w' : opened w fd = Some i → inode_at w i = Some (s, ""%string) → write_synced fd c w = (r, w') →
    entries_same w w' ∧ fds_kept w w' ∧ (∀ j, j ≠ i → inode_at w' j = inode_at w j) ∧
    ∃ t, inode_at w' i = Some (s, t) ∧ (r = Ok tt → t = c);
  read_law fd i w r w' : opened w fd = Some i → read_all fd w = (r, w') →
    unchanged w w' ∧ ∀ t, r = Ok t → ∃ s bytes, inode_at w i = Some (s, bytes) ∧ t = universal_newlines bytes;
  fsync_law fd w r w' : fsync fd w = (r, w') → unchanged w w';
  close_law fd w r w' : close fd w = (r, w') →
    entries_same w w' ∧ (∀ i, inode_at w' i = inode_at w i) ∧ r ≠ Err FileNotFoundError ∧ ∀ fd' i, fd' ≠ fd → opened w fd' = Some i → opened w' fd' = Some i;
  replace_law dfd d a b w r w' : a ≠ b → opened w dfd = Some d → replace dfd a b w = (r, w') →
    match r with
    | Err _ => unchanged w w'
    | Ok _ => fds_kept w w' ∧ entries_except d [a; b] w w' ∧ entry_at w' d a = None ∧ entry_at w' d b = entry_at w d a ∧
        ∀ i, (∃ d' n, entry_at w' d' n = Some i) → entry_at w d b ≠ Some i → inode_at w' i = inode_at w i
    end;
  replaced_law dfd d a b w w' : opened w dfd = Some d → replace dfd a b w = (Ok tt, w') →
    ∀ i s t d' n, entry_at w' d' n = Some i → inode_at w i = Some (s, t) → ∃ s', inode_at w' i = Some (s', t);
  unlink_law dfd d n w r w' : opened w dfd = Some d → unlink dfd n w = (r, w') →
    match r with
    | Err e => unchanged w w'
    | Ok _ => fds_kept w w' ∧ entries_except d [n] w w' ∧ entry_at w' d n = None ∧
        (∀ i, entry_at w d n ≠ Some i → inode_at w' i = inode_at w i) ∧
        ∀ i s t d' n', entry_at w' d' n' = Some i → inode_at w i = Some (s, t) → ∃ s', inode_at w' i = Some (s', t)
    end;
}.
End Laws.

(** ** Runs of the checks *)

Section Checks.
Context {W : Type} {F : PosixCalls W} {V : PosixWorld W} {L : PosixLaws} (uid : Z).

#[export] Instance unchanged_preorder : PreOrder (unchanged (W := W)).
Proof.
  split; [split; [done|by split; [|intros ? ?]]|]. intros w1 w2 w3 (E1 & I1 & F1) (E2 & I2 & F2).
  split; [intros d n; by rewrite E2, E1|]. split; [intros i; by rewrite I2, I1|]. intros fd i Hfd. auto.
Qed.
(** The same names lead to the same bytes. *)
Definition calm (w w' : W) : Prop := entries_same w w' ∧ ∀ i, snd <$> inode_at w' i = snd <$> inode_at w i.
#[export] Instance calm_preorder : PreOrder calm.
Proof.
  split; [done|]. intros w1 w2 w3 (E1 & I1) (E2 & I2). split; [intros d n; by rewrite E2, E1|intros i; by rewrite I2, I1].
Qed.
Lemma unchanged_calm w w' : unchanged w w' → calm w w'.
Proof. intros (He & Hi & _). split; [done|]. intros i. by rewrite Hi. Qed.
Lemma calm_text w w' d n : calm w w' → text_at w' d n = text_at w d n.
Proof. intros [He Hi]. unfold text_at. rewrite He. destruct (entry_at w d n) as [i|]; [apply Hi|done]. Qed.
(** Descriptors but [fd] stay open. *)
Definition fds_except (fd : Z) (w w' : W) : Prop := ∀ fd' i, fd' ≠ fd → opened w fd' = Some i → opened w' fd' = Some i.

Definition safe (s : stat_result) : Prop := S_ISREG (st_mode s) = true ∧ st_uid s = uid ∧ st_nlink s = 1.
Lemma wp_identity s (Q : res private_exn unit → W → Prop) w :
  (safe s → Q (Ok tt) w) → Q (Err UnsafeDatabasePathError) w → wp (_verify_identity uid s) Q w.
Proof.
  intros HQ Herr. unfold _verify_identity. destruct (_ && _) eqn:Hs; [|by apply wp_raise].
  apply andb_true_iff in Hs as [[Hr Hu%Z.eqb_eq]%andb_true_iff Hn%Z.eqb_eq]. apply wp_ret, HQ. by split.
Qed.

(** A verified name leads to the inode of the descriptor, a regular file of the user with no other
    name. *)
Definition verified (d : inode) (n : text) (i : inode) (w : W) : Prop :=
  entry_at w d n = Some i ∧ ∃ s t, inode_at w i = Some (s, t) ∧ safe s.
Lemma wp_verify dfd d n fd i (Q : res private_exn unit → W → Prop) w :
  opened w dfd = Some d → opened w fd = Some i →
  (∀ r w', unchanged w w' → (r = Err FileNotFoundError → entry_at w d n = None) → (r = Ok tt → verified d n i w) → Q r w') →
  wp (_verify_open_name uid dfd n fd) Q w.
Proof.
  intros Hd Hfd HQ. unfold _verify_open_name. apply wp_bind, wp_intro. intros r w1 [Hw1 Hr]%(fstat_law _ _ _ _ _ Hfd).
  destruct Hr as [Hne Hr]. destruct r as [observed|e]; [|apply HQ; [done|congruence|done]].
  destruct (Hr _ eq_refl) as [t Ht]. clear Hr Hne. apply wp_bind, wp_identity; [intros Hsafe|by apply HQ]. apply wp_bind, wp_intro.
  intros r w2 (Hw2 & Hne & Hr)%(stat_at_law dfd d); [|by apply Hw1]. assert (unchanged w w2) as Hw by (by etrans).
  destruct r as [current|e]; [|apply HQ; [done| |done]; intros [= ->]; rewrite <- (proj1 Hw1); auto]. destruct (Hr _ eq_refl) as (j & u & Hj & Hu). clear Hr.
  case_bool_decide as Hid; cbn [negb]; [|by apply wp_raise, HQ]. apply wp_identity; [intros Hsafe'|by apply HQ].
  apply HQ; [done..|]. intros _. destruct Hw1 as (He1 & Hi1 & _). rewrite He1 in Hj. rewrite Hi1 in Hu.
  apply inode_law in Hu as Hident. apply inode_law in Ht as Hident'. assert (j = i) as -> by congruence.
  split; [done|]. by exists observed, t.
Qed.

(** The checks of an opened file: nothing is renamed or rewritten, a failure closes it. *)
Lemma wp_checked dfd d n fd i w :
  opened w dfd = Some d → opened w fd = Some i →
  wp (close_on_error os_or_unsafe fd
        (observed ← fstat fd;
         _verify_identity uid observed;;
         observed ← fstat fd;
         (if negb (S_IMODE (st_mode observed) =? _PRIVATE_FILE_MODE) then fchmod fd _PRIVATE_FILE_MODE else mret tt);;
         _verify_open_name uid dfd n fd))
    (λ r w', calm w w' ∧ fds_except fd w w' ∧ (∀ j, j ≠ i → inode_at w' j = inode_at w j) ∧
       (r = Err FileNotFoundError → entry_at w d n = None) ∧ (r = Ok tt → fds_kept w w' ∧ verified d n i w' ∧
          ∃ s t, inode_at w' i = Some (s, t) ∧ S_IMODE (st_mode s) = _PRIVATE_FILE_MODE)) w.
Proof.
  intros Hd Hfd. unfold close_on_error. apply wp_try.
  apply (wp_mono _ (λ r w', calm w w' ∧ fds_kept w w' ∧ (∀ j, j ≠ i → inode_at w' j = inode_at w j) ∧
    (r = Err FileNotFoundError → entry_at w d n = None) ∧ (r = Ok tt → verified d n i w' ∧ ∃ s t, inode_at w' i = Some (s, t) ∧ S_IMODE (st_mode s) = _PRIVATE_FILE_MODE))).
  { intros [[]|e] w1 (Hc & Hk & Ho & Hn & Hv); [split; [done|]; split; [by intros fd' j _; apply Hk|]; auto|].
    destruct (os_or_unsafe e); [|by apply wp_raise; split; [|split; [intros fd' j _; apply Hk|]]].
    apply wp_bind, wp_intro. intros r w2 (He2 & Hi2 & Hne & Hk2)%close_law.
    assert (calm w w2 ∧ fds_except fd w w2 ∧ ∀ j, j ≠ i → inode_at w2 j = inode_at w j) as (H1 & H2 & H3).
    { split; [etrans; [exact Hc|]; split; [done|intros j; by rewrite Hi2]|].
      split; [intros fd' j Hfd' Hj; by apply Hk2, Hk|]. intros j Hj. rewrite Hi2. by apply Ho. }
    destruct r; [apply wp_raise|]; (split; [done|]); (split; [done|]); (split; [done|]); (split; [|done]).
    - intros [= ->]. by apply Hn.
    - congruence. }
  assert (∀ r w', unchanged w w' → r ≠ Err FileNotFoundError → r ≠ Ok tt → calm w w' ∧ fds_kept w w' ∧
    (∀ j, j ≠ i → inode_at w' j = inode_at w j) ∧ (r = Err FileNotFoundError → entry_at w d n = None) ∧ (r = Ok tt → verified d n i w' ∧
     ∃ s t, inode_at w' i = Some (s, t) ∧ S_IMODE (st_mode s) = _PRIVATE_FILE_MODE)) as Hstop.
  { intros r w' Hw Hr Hok. split; [by apply unchanged_calm|]. split; [apply Hw|]. split; [intros j _; apply Hw|done]. }
  apply wp_bind, wp_intro. intros r w1 (Hw1 & Hne1 & _)%(fstat_law _ _ _ _ _ Hfd).
  destruct r as [s1|e]; [|apply Hstop; [done|congruence|done]]. apply wp_bind, wp_identity; [intros _|by apply Hstop].
  apply wp_bind, wp_intro. intros r w2 (Hw2 & Hne2 & Hr2)%(fstat_law _ i); [|by apply Hw1].
  assert (unchanged w w2) as Hw by (by etrans).
  destruct r as [s2|e]; [|apply Hstop; [done|congruence|done]]. destruct (Hr2 _ eq_refl) as [t Ht]. apply unchanged_calm in Hw as Hc.
  assert (inode_at w2 i = Some (s2, t)) as Ht2 by (destruct Hw2 as (_ & Hi & _); by rewrite Hi).
  apply wp_bind. apply (wp_mono _ (λ r w3, calm w2 w3 ∧ fds_kept w2 w3 ∧ (∀ j, j ≠ i → inode_at w3 j = inode_at w2 j) ∧
    r ≠ Err FileNotFoundError ∧ (r = Ok tt → ∃ s, inode_at w3 i = Some (s, t) ∧ S_IMODE (st_mode s) = _PRIVATE_FILE_MODE))).
  2: { destruct (Z.eqb_spec (S_IMODE (st_mode s2)) _PRIVATE_FILE_MODE) as [Hm|]; cbn [negb].
    - apply wp_ret. split; [done|]. split; [by intros ? ?|]. split; [done|]. split; [done|]. by exists s2.
    - apply wp_intro. intros r w3 (He3 & Hk3 & Hne3 & Ho3 & s' & Hs' & _ & _ & _ & Hm & _)%(fchmod_law _ i s2 t); [|by apply Hw|done].
      split; [|split; [done|split; [done|split; [done|intros Hok; exists s'; auto]]]]. split; [done|]. intros j.
      destruct (decide (j = i)) as [->|]; [by rewrite Hs', Ht2|by rewrite Ho3]. }
  intros r w3 (Hc3 & Hk3 & Ho3 & Hne3 & Hm3).
  assert (calm w w3 ∧ fds_kept w w3 ∧ ∀ j, j ≠ i → inode_at w3 j = inode_at w j) as (H1 & H2 & H3).
  { split; [by etrans|]. split; [intros fd' j Hj; by apply Hk3, Hw|]. intros j Hj. rewrite Ho3 by done. apply Hw. }
  destruct r as [[]|e]; [|do 3 (split; [done|]); split; [congruence|done]]. destruct (Hm3 eq_refl) as (s3 & Hs3 & Hmode).
  apply (wp_verify _ d _ _ i); [by apply H2..|]. intros r w4 Hw4 Hn4 Hv. split; [etrans; [exact H1|by apply unchanged_calm]|].
  split; [intros fd' j Hj; by apply Hw4, H2|]. destruct H1 as [He1 _]. rewrite <- He1.
  destruct Hw4 as (He4 & Hi4 & _). split; [intros j Hj; by rewrite Hi4, H3|]. split; [done|]. intros Hok.
  destruct (Hv Hok) as (Hentry & s & u & Hs & Hsafe).
  split; [split; [by rewrite He4|]; exists s, u; by rewrite Hi4|]. exists s3, t. by rewrite Hi4.
Qed.

(** An open private file: its descriptor is new, its name verified and its mode private. *)
Definition opened_at (d : inode) (n : text) (fd : Z) (w w' : W) (i : inode) : Prop :=
  opened w fd = None ∧ opened w' fd = Some i ∧ verified d n i w' ∧
  ∃ s t, inode_at w' i = Some (s, t) ∧ S_IMODE (st_mode s) = _PRIVATE_FILE_MODE.

Lemma wp_open_existing dfd d n a w :
  opened w dfd = Some d →
  wp (_open_regular uid dfd n a MustExist)
    (λ r w', calm w w' ∧ fds_kept w w' ∧ match r with
       | Ok fd => ∃ i, opened_at d n fd w w' i
       | Err e => e = FileNotFoundError → entry_at w d n = None
       end) w.
Proof.
  intros Hd. unfold _open_regular. apply wp_bind, wp_intro. intros r w1 Hr%(open_file_law _ _ _ _ _ _ _ _ _ Hd).
  destruct r as [fd|e]; [|by split; [apply unchanged_calm, Hr|split; apply Hr]].
  destruct Hr as (Hk1 & Hnew & i & Hfd & [(_ & Hent & Hw1)|(Hne & _)]); [|done]. apply wp_bind.
  eapply wp_mono; [|apply (wp_checked dfd d n fd i); [by apply Hk1|done]]. intros r w2 (Hc2 & Hk2 & _ & Hnone & Hok).
  assert (calm w w2) as Hc by (etrans; [by apply unchanged_calm|done]).
  assert (fds_kept w w2) as Hk. { intros fd' j Hj. apply Hk2; [|by apply Hk1]. intros ->. by rewrite Hj in Hnew. }
  destruct r as [[]|e].
  2: { split; [done|]. split; [done|]. intros ->. rewrite <- (proj1 Hw1). auto. }
  destruct (Hok eq_refl) as (Hk2' & Hv & Hm). apply wp_ret. split; [done|]. split; [done|].
  exists i. split; [done|]. split; [by apply Hk2'|]. done.
Qed.
Lemma wp_open_optional dfd d n w :
  opened w dfd = Some d →
  wp (_open_optional uid dfd n)
    (λ r w', calm w w' ∧ fds_kept w w' ∧ match r with
       | Ok (Some fd) => ∃ i, opened_at d n fd w w' i
       | Ok None => entry_at w d n = None
       | _ => True
       end) w.
Proof.
  intros Hd. unfold _open_optional. apply wp_try, wp_bind. eapply wp_mono; [|by apply wp_open_existing].
  intros [fd|e] w1 (Hc & Hk & Hr); [by apply wp_ret|].
  destruct (is_not_found e) eqn:He; [|by apply wp_raise]. apply wp_ret. split; [done|]. split; [done|]. apply Hr. by destruct e.
Qed.

(** A file just created: empty, without another name. *)
Definition created_at (d : inode) (n : text) (fd : Z) (w w' : W) (i : inode) : Prop :=
  opened_at d n fd w w' i ∧ entry_at w d n = None ∧ (∀ d' n', entry_at w d' n' ≠ Some i) ∧
  ∃ s, inode_at w' i = Some (s, ""%string).
(** Only names of [d] among [ns] lead elsewhere. *)
Definition texts_except (d : inode) (ns : list text) (w w' : W) : Prop :=
  ∀ d' n, d' ≠ d ∨ n ∉ ns → text_at w' d' n = text_at w d' n.
#[export] Instance texts_except_preorder d ns : PreOrder (texts_except d ns).
Proof. split; [done|]. intros w1 w2 w3 H12 H23 d' n Hn. by rewrite H23, H12. Qed.
Lemma calm_texts d ns w w' : calm w w' → texts_except d ns w w'.
Proof. intros Hc d' n _. by apply calm_text. Qed.
Lemma texts_mono d ns ns' w w' : ns ⊆ ns' → texts_except d ns w w' → texts_except d ns' w w'.
Proof. intros Hsub Ht d' n [Hn|Hn]; apply Ht; [by left|right; set_solver]. Qed.
(** A change of a nameless inode's bytes, and of names among [ns]. *)
Lemma texts_fresh d ns i w w' :
  entries_except d ns w w' → (∀ d' n, entry_at w d' n = Some i → d' = d ∧ n ∈ ns) →
  (∀ j, j ≠ i → inode_at w' j = inode_at w j) → texts_except d ns w w'.
Proof.
  intros He Hfresh Hi d' n Hn. unfold text_at. rewrite (He _ _ Hn). destruct (entry_at w d' n) as [j|] eqn:Hj; [|done].
  cbn. rewrite Hi; [done|]. intros ->. destruct (Hfresh _ _ Hj) as [-> Hin]. destruct Hn; contradiction.
Qed.

(** A change of names among [ns] that leaves named bytes alone. *)
Lemma texts_kept d ns w w' :
  entries_except d ns w w' →
  (∀ i s t d' n, entry_at w' d' n = Some i → inode_at w i = Some (s, t) → ∃ s', inode_at w' i = Some (s', t)) →
  texts_except d ns w w'.
Proof.
  intros He Ht d' m Hm. unfold text_at. rewrite (He _ _ Hm). destruct (entry_at w d' m) as [i|] eqn:Hent; [|done]. cbn.
  destruct (entry_law _ _ _ _ Hent) as [[s t] Hst]. rewrite Hst.
  destruct (Ht i s t d' m) as [s' ->]; [by rewrite (He _ _ Hm)|done..].
Qed.

Lemma wp_create dfd d n a w :
  opened w dfd = Some d →
  wp (_open_regular uid dfd n a CreateNew)
    (λ r w', texts_except d [n] w w' ∧ fds_kept w w' ∧ (∀ m, m ≠ n → text_at w' d m = text_at w d m) ∧ match r with
       | Ok fd => ∃ i, created_at d n fd w w' i ∧ entries_except d [n] w w' ∧ (∀ j, j ≠ i → inode_at w' j = inode_at w j)
       | Err _ => True
       end) w.
Proof.
  intros Hd.
  apply (wp_mono _ (λ r w', texts_except d [n] w w' ∧ fds_kept w w' ∧ match r with
       | Ok fd => ∃ i, created_at d n fd w w' i ∧ entries_except d [n] w w' ∧ (∀ j, j ≠ i → inode_at w' j = inode_at w j)
       | Err _ => True
       end)).
  { intros r w' (Ht & Hk & Hr). split; [done|]. split; [done|]. split; [|done]. intros m Hm. apply Ht. right. set_solver. }
  unfold _open_regular. apply wp_bind, wp_intro. intros r w1 Hr%(open_file_law _ _ _ _ _ _ _ _ _ Hd).
  destruct r as [fd|e]; [|split; [apply calm_texts, unchanged_calm, Hr|split; [apply Hr|done]]].
  destruct Hr as (Hk1 & Hnew & i & Hfd & [(Hne & _)|(_ & Hnone & Hentry & He1 & Hfresh & Ho1 & s & Hs)]); [done|].
  assert (texts_except d [n] w w1) as Ht1. { eapply texts_fresh; [done| |done]. intros d' n' Hin. by apply Hfresh in Hin. }
  apply wp_bind. eapply wp_mono; [|apply (wp_checked dfd d n fd i); [by apply Hk1|done]]. intros r w2 (Hc2 & Hk2 & Ho2 & _ & Hok).
  assert (texts_except d [n] w w2) as Ht by (etrans; [exact Ht1|by apply calm_texts]).
  assert (fds_kept w w2) as Hk. { intros fd' j Hj. apply Hk2; [|by apply Hk1]. intros ->. by rewrite Hj in Hnew. }
  destruct r as [[]|e]; [|done]. destruct (Hok eq_refl) as (Hk2' & Hv & Hm). apply wp_ret. split; [done|]. split; [done|].
  exists i. split; [|split].
  - split; [split; [done|]; split; [by apply Hk2'|]; done|]. split; [done|]. split; [done|].
    destruct Hc2 as [_ Hc2]. specialize (Hc2 i). rewrite Hs in Hc2. destruct (inode_at w2 i) as [[s2 t2]|]; [|done].
    exists s2. by injection Hc2 as ->.
  - intros d' n' Hn'. destruct Hc2 as [Hc2 _]. by rewrite Hc2, He1.
  - intros j Hj. by rewrite Ho2, Ho1.
Qed.

(** ** Writing *)

(** What a write that returned leaves under a name. *)
Definition secured (d : inode) (n : text) (content : text) (w : W) : Prop :=
  ∃ i s, entry_at w d n = Some i ∧ inode_at w i = Some (s, content) ∧ safe s ∧ S_IMODE (st_mode s) = _PRIVATE_FILE_MODE.
Lemma secured_text d n content w : secured d n content w → text_at w d n = Some content.
Proof. intros (i & s & He & Hi & _). unfold text_at. rewrite He. cbn. by rewrite Hi. Qed.
Lemma secured_unchanged d n content w w' : entry_at w' d n = entry_at w d n → (∀ i, entry_at w d n = Some i → inode_at w' i = inode_at w i) →
  secured d n content w → secured d n content w'.
Proof. intros He Hi (i & s & Hent & Hs & ?). exists i, s. rewrite He, Hi by done. auto. Qed.

Lemma wp_close_optional fd (Q : res private_exn unit → W → Prop) w :
  (∀ r w', entries_same w w' → (∀ i, inode_at w' i = inode_at w i) →
     (∀ fd' i, Some fd' ≠ fd → opened w fd' = Some i → opened w' fd' = Some i) → Q r w') →
  wp (close_optional fd) Q w.
Proof.
  intros HQ. destruct fd as [fd|]; cbn [close_optional]; [|by apply wp_ret, HQ].
  apply wp_intro. intros r w' (He & Hi & _ & Hk)%close_law. apply HQ; [done..|]. intros fd' i Hne. apply Hk. congruence.
Qed.
(** What is left of a temporary file: a name leads to the same bytes, or is the temporary one. *)
Lemma wp_unlink_temporary dfd d n tmp w :
  opened w dfd = Some d → n ≠ tmp →
  wp (suppress is_not_found (unlink dfd tmp))
    (λ r w', texts_except d [tmp] w w' ∧ ∀ content, secured d n content w → secured d n content w') w.
Proof.
  intros Hd Hn. unfold suppress. apply wp_try, wp_intro. intros r w1 Hr%(unlink_law _ _ _ _ _ _ Hd).
  destruct r as [[]|e].
  - destruct Hr as (_ & He & _ & Hi & Ht). split; [by apply texts_kept|].
    intros content (i & s & Hent & Hst & (? & ? & Hlink) & Hm). exists i, s.
    rewrite (He d n) by (right; set_solver). rewrite Hi; [by repeat split|]. intros Hrem.
    by destruct (link_law _ _ _ _ _ _ _ _ Hrem Hent Hst Hlink).
  - assert (unchanged w w1) as Hw1 by done. destruct (is_not_found e); [apply wp_ret|apply wp_raise].
    all: split; [by apply calm_texts, unchanged_calm|intros content Hsec; eapply secured_unchanged; [apply Hw1| |exact Hsec]].
    all: intros i _; apply Hw1.
Qed.

(** The writing of a created file and its replacement of the name. *)
Lemma wp_replaced_name dfd d n tmp tfd i destination_fd content w :
  opened w dfd = Some d → opened w tfd = Some i → n ≠ tmp → entry_at w d tmp = Some i → entry_at w d n ≠ Some i →
  (∃ s, inode_at w i = Some (s, ""%string) ∧ S_IMODE (st_mode s) = _PRIVATE_FILE_MODE) →
  (∀ d' m, entry_at w d' m = Some i → d' = d ∧ m = tmp) →
  (∀ fd, destination_fd = Some fd → ∃ j, opened w fd = Some j) →
  wp (write_synced tfd content;;
      _verify_open_name uid dfd tmp tfd;;
      (match destination_fd with Some fd => _verify_open_name uid dfd n fd | None => mret tt end);;
      replace dfd tmp n;;
      _verify_open_name uid dfd n tfd;;
      fsync dfd)
    (λ r w', texts_except d [tmp; n] w w' ∧ fds_kept w w' ∧
       match r with
       | Ok _ => secured d n content w'
       | Err _ => text_at w' d n = text_at w d n ∨ text_at w' d n = Some content
       end) w.
Proof.
  intros Hd Htfd Hn Htmp Hne (s & Hs & Hmode) Halone Hdest.
  apply wp_bind, wp_intro. intros r w1 (He1 & Hk1 & Ho1 & t & Ht & Hwritten)%(write_law _ i s); [|done..].
  assert (texts_except d [tmp] w w1) as Ht1.
  { apply (texts_fresh _ _ i); [intros d' m _; apply He1| |done].
    intros d' m [-> ->]%Halone. split; [done|]. set_solver. }
  assert (∀ w2, unchanged w1 w2 → texts_except d [tmp; n] w w2 ∧ fds_kept w w2 ∧
    (text_at w2 d n = text_at w d n ∨ text_at w2 d n = Some content)) as Hearly.
  { intros w2 Hw2. assert (texts_except d [tmp] w w2) as Ht2.
    { etrans; [exact Ht1|]. by apply calm_texts, unchanged_calm. }
    split; [by eapply texts_mono; [|exact Ht2]; set_solver|]. split; [intros fd j Hj; by apply Hw2, Hk1|].
    left. apply Ht2. right. set_solver. }
  destruct r as [[]|e]; [|by apply Hearly]. rewrite (Hwritten eq_refl) in Ht. clear Hwritten.
  apply wp_bind, (wp_verify _ d _ _ i); [by apply Hk1..|]. intros r w2 Hw2 _ _. destruct r as [[]|e]; [|by apply Hearly].
  apply wp_bind, (wp_mono _ (λ _ w3, unchanged w1 w3)).
  2: { destruct destination_fd as [fd|]; [|by apply wp_ret]. destruct (Hdest fd eq_refl) as [j Hj].
    apply (wp_verify _ d _ _ j); [by apply Hw2, Hk1..|]. intros r w3 Hw3 _ _. by etrans. }
  intros r w3 Hw3. destruct r as [[]|e]; [|by apply Hearly]. destruct (Hearly _ Hw3) as (Ht3 & Hk3 & _).
  apply wp_bind, wp_intro. intros r w4 Hr. destruct r as [[]|e].
  2: { apply (replace_law _ d) in Hr; [|done|by apply Hk3]. apply Hearly. by etrans. }
  pose proof (replaced_law _ _ _ _ _ _ (Hk3 _ _ Hd) Hr) as Hkept.
  apply (replace_law _ d) in Hr as (Hk4 & He4 & _ & Hn4 & Hi4); [|done|by apply Hk3].
  destruct Hw3 as (He3 & Hi3 & _). rewrite He3, He1, Htmp in Hn4.
  assert (inode_at w4 i = Some (s, content)) as Hi.
  { rewrite Hi4, Hi3; [done|by exists d, n|]. by rewrite He3, He1. }
  assert (texts_except d [tmp; n] w w4 ∧ fds_kept w w4) as [Ht4 Hkw4].
  { split; [etrans; [exact Ht3|by apply texts_kept]|]. intros fd j Hj. by apply Hk4, Hk3. }
  assert (∀ w5, unchanged w4 w5 → texts_except d [tmp; n] w w5 ∧ fds_kept w w5 ∧ entry_at w5 d n = Some i ∧
    inode_at w5 i = Some (s, content) ∧ text_at w5 d n = Some content) as Hlate.
  { intros w5 Hw5. split; [etrans; [exact Ht4|by apply calm_texts, unchanged_calm]|].
    split; [intros fd j Hj; by apply Hw5, Hkw4|]. destruct Hw5 as (He5 & Hi5 & _).
    assert (entry_at w5 d n = Some i ∧ inode_at w5 i = Some (s, content)) as [-> ?] by (by rewrite He5, Hi5).
    split; [done|]. split; [done|]. unfold text_at. rewrite He5, Hn4. cbn. by rewrite Hi5, Hi. }
  apply wp_bind, (wp_verify _ d _ _ i); [by apply Hkw4..|]. intros r w5 Hw5 _ Hv.
  destruct r as [[]|e]; [|destruct (Hlate _ Hw5) as (? & ? & _ & _ & ?); split; [done|]; split; [done|]; by right].
  destruct (Hv eq_refl) as (_ & s' & t' & Hst & Hsafe). rewrite Hi in Hst. injection Hst as <- <-.
  apply wp_intro. intros r w6 Hw6%fsync_law. destruct (Hlate w6) as (Ht6 & Hk6 & He6 & Hi6 & Htext); [by etrans|].
  split; [done|]. split; [done|]. destruct r as [[]|e]; [by exists i, s|by right].
Qed.

(** The [finally] of a write. *)
Lemma wp_cleanup dfd d n tmp temporary_fd destination_fd w :
  opened w dfd = Some d → n ≠ tmp → temporary_fd ≠ Some dfd → destination_fd ≠ Some dfd →
  wp (close_optional temporary_fd;; close_optional destination_fd;; suppress is_not_found (unlink dfd tmp);; close dfd)
    (λ _ w', texts_except d [tmp] w w' ∧ ∀ content, secured d n content w → secured d n content w') w.
Proof.
  intros Hd Hn Htfd Hdest.
  assert (∀ w', entries_same w w' → (∀ i, inode_at w' i = inode_at w i) →
    texts_except d [tmp] w w' ∧ ∀ content, secured d n content w → secured d n content w') as Hsame.
  { intros w' He Hi. split; [apply calm_texts; split; [done|]; intros i; by rewrite Hi|].
    intros content. by apply secured_unchanged. }
  apply wp_bind, wp_close_optional. intros r w1 He1 Hi1 Hk1. destruct r as [[]|e]; [|by apply Hsame].
  apply wp_bind, wp_close_optional. intros r w2 He2 Hi2 Hk2.
  assert (entries_same w w2 ∧ ∀ i, inode_at w2 i = inode_at w i) as [He Hi].
  { split; [intros d' m; by rewrite He2, He1|intros i; by rewrite Hi2, Hi1]. }
  destruct r as [[]|e]; [|by apply Hsame]. destruct (Hsame _ He Hi) as [Ht2 Hs2].
  apply wp_bind. eapply wp_mono; [|apply (wp_unlink_temporary _ d n); [|done]].
  2: { apply Hk2, Hk1; [congruence..|done]. }
  intros r w3 [Ht3 Hs3]. assert (texts_except d [tmp] w w3) as Ht by (by etrans). destruct r as [[]|e]; [|by auto].
  apply wp_intro. intros r w4 (He4 & Hi4 & _ & _)%close_law. split.
  - etrans; [exact Ht|]. apply calm_texts. split; [done|]. intros i. by rewrite Hi4.
  - intros content Hsec. apply (secured_unchanged _ _ _ w3); [apply He4|by intros|]. by auto.
Qed.

Lemma wp_write_below dfd d n tmp content w :
  opened w dfd = Some d → n ≠ tmp →
  wp (write_below uid dfd n tmp content)
    (λ r w', texts_except d [tmp; n] w w' ∧
       match r with
       | Ok _ => secured d n content w'
       | Err _ => text_at w' d n = text_at w d n ∨ text_at w' d n = Some content
       end) w.
Proof.
  intros Hd Hn. unfold write_below. cbv zeta.
  assert (∀ w1 w2 e, texts_except d [tmp] w w1 → texts_except d [tmp] w1 w2 →
    texts_except d [tmp; n] w w2 ∧ match Err (A := unit) (E := private_exn) e with Ok _ => secured d n content w2
      | Err _ => text_at w2 d n = text_at w d n ∨ text_at w2 d n = Some content end) as Hfailed.
  { intros w1 w2 e H1 H2. assert (texts_except d [tmp] w w2) as Ht by (by etrans).
    split; [by eapply texts_mono; [|exact Ht]; set_solver|]. left. apply Ht. right. set_solver. }
  apply wp_bind, wp_try. eapply wp_mono; [|by apply (wp_open_optional dfd d)].
  intros r w1 (Hc1 & Hk1 & Hdest). assert (texts_except d [tmp] w w1) as Ht1 by (by apply calm_texts).
  destruct r as [destination_fd|e].
  2: { apply wp_bind. eapply wp_mono; [|by apply (wp_cleanup _ d n); auto]. intros r w2 [Ht2 _].
    destruct r; [apply wp_raise|]; by eapply Hfailed. }
  apply wp_bind, wp_try. eapply wp_mono; [|by apply (wp_create dfd d), Hk1].
  intros r w2 (Ht2 & Hk2 & _ & Hcreated).
  assert (destination_fd ≠ Some dfd) as Hdd.
  { intros ->. destruct Hdest as (i & Hnew & _). by rewrite Hd in Hnew. }
  assert (texts_except d [tmp] w w2) as Htw2 by (by etrans).
  destruct r as [temporary_fd|e].
  2: { apply wp_bind. eapply wp_mono; [|by apply (wp_cleanup _ d n); auto]. intros r w3 [Ht3 _].
    destruct r; [apply wp_raise|]; by eapply Hfailed. }
  destruct Hcreated as (i & ((Hnew & Hopen & (Hentry & _) & Hm) & Hnone & Hfresh & Hempty) & He2 & Ho2).
  assert (temporary_fd ≠ dfd) as Htd. { intros ->. by rewrite (Hk1 _ _ Hd) in Hnew. }
  apply wp_finally. eapply wp_mono; [|apply (wp_replaced_name dfd d n tmp temporary_fd i destination_fd)]; try done.
  - intros r w3 (Ht3 & Hk3 & Hr). eapply wp_mono; [|apply (wp_cleanup _ d n); [by auto|done|congruence|done]].
    intros r2 w4 [Ht4 Hs4].
    assert (texts_except d [tmp; n] w w4) as Ht.
    { etrans; [|etrans; [exact Ht3|]]; (eapply texts_mono; [|done]); set_solver. }
    assert (text_at w4 d n = text_at w3 d n) as H43 by (apply Ht4; right; set_solver).
    assert (text_at w2 d n = text_at w d n) as H20 by (apply Htw2; right; set_solver).
    destruct r as [[]|e], r2 as [[]|e2]; (split; [done|]); [by auto|..]; rewrite H43.
    1: right; by apply secured_text. all: by rewrite H20 in Hr.
  - by auto.
  - rewrite (He2 d n) by (right; set_solver). apply Hfresh.
  - destruct Hempty as [s Hs], Hm as (s' & t & Hs' & Hmode). exists s. rewrite Hs in Hs'. by injection Hs' as -> _.
  - intros d' m Hin. destruct (decide (d' = d ∧ m = tmp)) as [|Hne]; [done|]. exfalso. apply (Hfresh d' m).
    rewrite <- He2; [done|]. destruct (decide (d' = d)) as [->|]; [right; set_solver|by left].
  - intros fd ->. destruct Hdest as (j & _ & Hj & _). exists j. by apply Hk2.
Qed.

(** ** Reading and deleting *)

(** The name leads to nothing, or to the bytes of a safe file. *)
Definition held (d : inode) (n : text) (w : W) (o : option text) : Prop :=
  match o with
  | None => entry_at w d n = None
  | Some bytes => ∃ i s, entry_at w d n = Some i ∧ inode_at w i = Some (s, bytes) ∧ safe s
  end.
Lemma wp_read_below dfd d n w :
  opened w dfd = Some d →
  wp (read_below uid dfd n)
    (λ r w', calm w w' ∧ ∀ o, r = Ok o → ∃ w1 bytes, calm w w1 ∧ held d n w1 bytes ∧ o = universal_newlines <$> bytes) w.
Proof.
  intros Hd. unfold read_below. apply wp_bind, wp_try. eapply wp_mono; [|by apply (wp_open_optional dfd d)].
  intros r w1 (Hc1 & Hk1 & Hr).
  assert (∀ w2 w3, calm w w2 → entries_same w2 w3 → (∀ i, inode_at w3 i = inode_at w2 i) → calm w w3) as Hclosed.
  { intros w2 w3 Hc He Hi. etrans; [exact Hc|]. split; [done|]. intros i. by rewrite Hi. }
  destruct r as [[fd|]|e].
  - destruct Hr as (i & _ & Hfd & _ & _). apply wp_finally, wp_bind, wp_intro.
    intros r w2 [Hw2 Hr]%(read_law _ i); [|done]. assert (calm w w2) as Hc2.
    { etrans; [exact Hc1|by apply unchanged_calm]. }
    assert (∀ (r : res private_exn (option text)) w3, calm w w3 →
      (∀ o, r = Ok o → ∃ w1 bytes, calm w w1 ∧ held d n w1 bytes ∧ o = universal_newlines <$> bytes) →
      wp (close fd;; close dfd) (λ r2 w4,
        match r2 with
        | Ok _ => calm w w4 ∧ ∀ o, r = Ok o → ∃ w1 bytes, calm w w1 ∧ held d n w1 bytes ∧ o = universal_newlines <$> bytes
        | Err e => calm w w4 ∧ ∀ o, Err e = Ok o → ∃ w1 bytes, calm w w1 ∧ held d n w1 bytes ∧ o = universal_newlines <$> bytes
        end) w3) as Hlast.
    { intros r' w3 Hc3 Hr'. apply wp_bind, wp_intro. intros r2 w4 (He4 & Hi4 & _)%close_law.
      assert (calm w w4) as Hc4 by (by eapply Hclosed). destruct r2 as [[]|]; [|done].
      apply wp_intro. intros r3 w5 (He5 & Hi5 & _)%close_law. assert (calm w w5) by (by eapply Hclosed). by destruct r3. }
    destruct r as [content|e]; [|by apply Hlast]. destruct (Hr _ eq_refl) as (s & bytes & Hbytes & ->).
    apply wp_bind, (wp_verify _ d _ _ i); [by apply Hw2, Hk1|by apply Hw2|]. intros r w3 Hw3 _ Hv.
    assert (calm w w3) as Hc3 by (etrans; [exact Hc2|by apply unchanged_calm]).
    destruct r as [[]|e]; [|by apply Hlast]. destruct (Hv eq_refl) as (Hentry & s' & t' & Hst & Hsafe).
    apply wp_ret, Hlast; [done|]. intros o [= <-]. exists w2, (Some bytes). split; [done|]. split; [|done].
    exists i, s'. split; [done|]. destruct Hw2 as (_ & Hi2 & _). rewrite Hi2, Hbytes in Hst. injection Hst as <- <-.
    by rewrite Hi2.
  - apply wp_bind, wp_intro. intros r w2 (He2 & Hi2 & _)%close_law. assert (calm w w2) as Hc2 by (by eapply Hclosed).
    destruct r as [[]|e]; [|done]. apply wp_ret. split; [done|]. intros o [= <-]. exists w, None. done.
  - apply wp_bind, wp_intro. intros r w2 (He2 & Hi2 & _)%close_law. assert (calm w w2) as Hc2 by (by eapply Hclosed).
    by destruct r as [[]|e2]; [apply wp_raise|].
Qed.

Lemma wp_delete_below dfd d n w :
  opened w dfd = Some d →
  wp (delete_below uid dfd n)
    (λ r w', texts_except d [n] w w' ∧
       match r with
       | Ok _ => entry_at w' d n = None
       | Err _ => text_at w' d n = text_at w d n ∨ entry_at w' d n = None
       end) w.
Proof.
  intros Hd. unfold delete_below. apply wp_bind, wp_try. eapply wp_mono; [|by apply (wp_open_optional dfd d)].
  intros r w1 (Hc1 & Hk1 & Hr).
  assert (∀ w2, calm w w2 → texts_except d [n] w w2 ∧ (text_at w2 d n = text_at w d n ∨ entry_at w2 d n = None)) as Hkept.
  { intros w2 Hc. split; [by apply calm_texts|]. left. by apply calm_text. }
  assert (∀ w2 w3, calm w w2 → entries_same w2 w3 → (∀ i, inode_at w3 i = inode_at w2 i) → calm w w3) as Hclosed.
  { intros w2 w3 Hc He Hi. etrans; [exact Hc|]. split; [done|]. intros i. by rewrite Hi. }
  destruct r as [[fd|]|e].
  2: { apply wp_intro. intros r w2 (He2 & Hi2 & _)%close_law. destruct (Hkept w2); [by eapply Hclosed|].
    split; [done|]. assert (entry_at w2 d n = None). { by rewrite He2, (proj1 Hc1). } destruct r; [done|by right]. }
  2: { apply wp_bind, wp_intro. intros r w2 (He2 & Hi2 & _)%close_law.
    by destruct r; [apply wp_raise|]; apply Hkept; eapply Hclosed. }
  destruct Hr as (i & _ & Hfd & _ & _). apply wp_finally.
  apply (wp_mono _ (λ r w2, texts_except d [n] w w2 ∧ match r with
       | Ok _ => entry_at w2 d n = None
       | Err _ => text_at w2 d n = text_at w d n ∨ entry_at w2 d n = None end)).
  { intros r w2 [Ht2 Hr]. apply wp_bind, wp_intro. intros r2 w3 (He3 & Hi3 & _)%close_law.
    assert (∀ w4, entries_same w2 w4 → (∀ j, inode_at w4 j = inode_at w2 j) → texts_except d [n] w w4 ∧
      (entry_at w2 d n = None → entry_at w4 d n = None) ∧ text_at w4 d n = text_at w2 d n) as Hsame.
    { intros w4 He4 Hi4. assert (calm w2 w4) as Hc by (split; [done|]; intros j; by rewrite Hi4).
      split; [etrans; [exact Ht2|by apply calm_texts]|]. split; [by rewrite He4|by apply calm_text]. }
    assert (∀ w4, entries_same w2 w4 → (∀ j, inode_at w4 j = inode_at w2 j) → text_at w4 d n = text_at w d n ∨ entry_at w4 d n = None) as Herr.
    { intros w4 He4 Hi4. destruct (Hsame w4 He4 Hi4) as (_ & Hn4 & ->). destruct r; [|destruct Hr]; by auto. }
    destruct r2 as [[]|e2]; [|by split; [apply Hsame|apply Herr]]. apply wp_intro. intros r3 w4 (He4 & Hi4 & _)%close_law.
    assert (entries_same w2 w4 ∧ ∀ j, inode_at w4 j = inode_at w2 j) as [He Hi].
    { split; [intros d' m; by rewrite He4, He3|intros j; by rewrite Hi4, Hi3]. }
    destruct (Hsame _ He Hi) as (Ht4 & Hn4 & Htext), r3 as [[]|e3]; (split; [done|]); [|by apply Herr].
    destruct r as [[]|e]; [by apply Hn4|by apply Herr]. }
  apply wp_bind, (wp_verify _ d _ _ i); [by apply Hk1|done|]. intros r w2 Hw2 _ _.
  assert (calm w w2) as Hc2 by (etrans; [exact Hc1|by apply unchanged_calm]). destruct r as [[]|e]; [|by apply Hkept].
  apply wp_bind, wp_intro. intros r w3 Hr%(unlink_law _ d); [|by apply Hw2, Hk1].
  destruct r as [[]|e]; [|apply Hkept; etrans; [exact Hc2|by apply unchanged_calm]].
  destruct Hr as (Hk3 & He3 & Hn3 & Hi3 & Ht3).
  assert (texts_except d [n] w w3) as Htw3. { etrans; [by apply calm_texts|by apply texts_kept]. }
  assert (∀ (r : res private_exn unit) w4, unchanged w3 w4 → texts_except d [n] w w4 ∧ match r with
       | Ok _ => entry_at w4 d n = None
       | Err _ => text_at w4 d n = text_at w d n ∨ entry_at w4 d n = None end) as Hgone.
  { intros r w4 Hw4. split; [etrans; [exact Htw3|by apply calm_texts, unchanged_calm]|].
    assert (entry_at w4 d n = None) by (by rewrite (proj1 Hw4)). destruct r; [done|by right]. }
  apply wp_bind, wp_intro. intros r w4 (Hw4 & _ & _)%(fstat_law _ i); [|by apply Hk3, Hw2].
  destruct r as [s|e]; [|by apply (Hgone (Err e))]. apply wp_bind. destruct (negb _); [by apply wp_raise, (Hgone (Err UnsafeDatabasePathError))|].
  apply wp_ret, wp_intro. intros r w5 Hw5%fsync_law. apply Hgone. by etrans.
Qed.

(** ** The parent directory *)

(** A directory of root or of the user that others cannot rename in; the last one is the user's
    alone. *)
Definition trusted (last : bool) (s : stat_result) : Prop :=
  S_ISDIR (st_mode s) = true ∧
  (if last then st_uid s = uid ∧ S_IMODE (st_mode s) = _PRIVATE_DIRECTORY_MODE
   else (st_uid s = 0 ∨ st_uid s = uid) ∧
        (Z.land (st_mode s) S_IWGRP_S_IWOTH = 0 ∨ Z.land (st_mode s) S_ISVTX ≠ 0)).
(** The names of [parts] lead from [i] to [d] through trusted directories. *)
Fixpoint descends (w : W) (i : inode) (parts : list text) (d : inode) : Prop :=
  match parts with
  | [] => d = i
  | part :: parts => ∃ j s t, entry_at w i part = Some j ∧ inode_at w j = Some (s, t) ∧
      trusted (bool_decide (parts = [])) s ∧ descends w j parts d
  end.
(** Directories may have been created: every name and every byte is still there, and a trusted
    directory still is. *)
Definition grown (w w' : W) : Prop :=
  (∀ d n i, entry_at w d n = Some i → entry_at w' d n = Some i) ∧
  ∀ i s t, inode_at w i = Some (s, t) → ∃ s', inode_at w' i = Some (s', t) ∧ ∀ last, trusted last s → trusted last s'.
#[export] Instance grown_preorder : PreOrder grown.
Proof.
  split; [split; [done|]; intros i s t Hi; by exists s|]. intros w1 w2 w3 (E1 & I1) (E2 & I2). split; [auto|].
  intros i s t (s1 & H1 & T1)%I1. destruct (I2 _ _ _ H1) as (s2 & H2 & T2). exists s2. auto.
Qed.
Lemma unchanged_grown w w' : unchanged w w' → grown w w'.
Proof.
  intros (He & Hi & _). split; [intros d n i; by rewrite He|]. intros i s t Hs. exists s. by rewrite Hi.
Qed.
Lemma closed_grown w w' : entries_same w w' → (∀ i, inode_at w' i = inode_at w i) → grown w w'.
Proof. intros He Hi. split; [intros d n i; by rewrite He|]. intros i s t Hs. exists s. by rewrite Hi. Qed.
Lemma grown_text w w' d n t : grown w w' → text_at w d n = Some t → text_at w' d n = Some t.
Proof.
  intros [He Hi]. unfold text_at. destruct (entry_at w d n) as [i|] eqn:Hent; [|done]. cbn. rewrite (He _ _ _ Hent). cbn.
  destruct (inode_at w i) as [[s u]|] eqn:Hs; [|done]. intros [= ->]. by destruct (Hi _ _ _ Hs) as (s' & -> & _).
Qed.
Lemma grown_descends w w' i parts d : grown w w' → descends w i parts d → descends w' i parts d.
Proof.
  intros Hg. induction parts as [|part parts IH] in i |- *; [done|]. intros (j & s & t & He & Hs & Ht & Hd).
  destruct Hg as [Hge Hgi]. destruct (Hgi _ _ _ Hs) as (s' & Hs' & Ht'). exists j, s', t. auto.
Qed.
(** Making a directory private leaves it trusted. *)
Lemma trusted_private last s s' :
  st_uid s' = st_uid s → Z.land (st_mode s') S_IFMT = Z.land (st_mode s) S_IFMT → S_IMODE (st_mode s') = _PRIVATE_DIRECTORY_MODE →
  trusted last s → trusted last s'.
Proof.
  intros Hu Hf Hm [Hd Hl]. assert (S_ISDIR (st_mode s') = true) as Hd' by (unfold S_ISDIR; by rewrite Hf).
  split; [done|]. rewrite Hu. destruct last; [by destruct Hl|]. split; [apply Hl|]. left.
  replace S_IWGRP_S_IWOTH with (Z.land 4095 S_IWGRP_S_IWOTH) by done. rewrite Z.land_assoc.
  change (Z.land (st_mode s') 4095) with (S_IMODE (st_mode s')). by rewrite Hm.
Qed.

Lemma wp_open_component fd i part w :
  opened w fd = Some i →
  wp (open_component fd part)
    (λ r w', grown w w' ∧ fds_kept w w' ∧
       ∀ fd', r = Ok fd' → opened w fd' = None ∧ ∃ j, entry_at w' i part = Some j ∧ opened w' fd' = Some j) w.
Proof.
  intros Hfd. unfold open_component. apply wp_try, wp_intro. intros r w1 [Hw1 Hr]%(open_directory_law _ i); [|done].
  assert (∀ w2 (r : res private_exn Z), grown w w2 → fds_kept w w2 → (∀ fd', r ≠ Ok fd') → grown w w2 ∧ fds_kept w w2 ∧
    ∀ fd', r = Ok fd' → opened w fd' = None ∧ ∃ j, entry_at w2 i part = Some j ∧ opened w2 fd' = Some j) as Hno.
  { intros w2 r2 Hg Hk Hne. split; [done|]. split; [done|]. intros fd' ->. by destruct (Hne fd'). }
  destruct r as [fd'|e].
  - split; [by apply unchanged_grown|]. split; [apply Hw1|]. intros ? [= <-].
    destruct (Hr _ eq_refl) as (Hnew & j & Hj & Ho). split; [done|]. exists j. by rewrite (proj1 Hw1).
  - clear Hr. apply unchanged_grown in Hw1 as Hg1. assert (fds_kept w w1) as Hk1 by apply Hw1.
    destruct (is_not_found e).
    2: { unfold unsafe_os_error. destruct (is_os_error e); by apply wp_raise, Hno. }
    apply wp_bind. unfold suppress. apply wp_try, wp_intro. intros r w2 (Hk2 & He2 & Hi2)%mkdir_law.
    assert (grown w w2) as Hg2.
    { etrans; [exact Hg1|]. split; [done|]. intros j s t (s' & Hs' & Hm & Hu)%Hi2. exists s'. split; [done|].
      intros last. unfold trusted. by rewrite Hm, Hu. }
    assert (fds_kept w w2) as Hkw2. { intros fd' j Hj. by apply Hk2, Hk1. }
    assert (wp (open_directory fd part) (λ r w', grown w w' ∧ fds_kept w w' ∧
       ∀ fd', r = Ok fd' → opened w fd' = None ∧ ∃ j, entry_at w' i part = Some j ∧ opened w' fd' = Some j) w2) as Hagain.
    { apply wp_intro. intros r3 w3 [Hw3 Hr3]%(open_directory_law _ i); [|by apply Hkw2].
      split; [etrans; [exact Hg2|by apply unchanged_grown]|]. split; [intros fd' j Hj; by apply Hw3, Hkw2|].
      intros fd' ->. destruct (Hr3 _ eq_refl) as (Hnew & j & Hj & Ho).
      split; [|exists j; by rewrite (proj1 Hw3)]. destruct (opened w fd') as [k|] eqn:Hk; [|done].
      apply Hkw2 in Hk. by rewrite Hk in Hnew. }
    destruct r as [[]|e2]; [exact Hagain|]. destruct (is_exists e2); [exact Hagain|]. by apply wp_raise, Hno.
Qed.
Lemma wp_verify_private_directory fd i last w :
  opened w fd = Some i →
  wp (_verify_private_directory uid fd last)
    (λ r w', grown w w' ∧ fds_kept w w' ∧ entries_same w w' ∧
       (r = Ok tt → ∃ s t, inode_at w' i = Some (s, t) ∧ trusted last s)) w.
Proof.
  intros Hfd. unfold _verify_private_directory. apply wp_bind, wp_intro. intros r w1 (Hw1 & _ & Hr)%(fstat_law _ i); [|done].
  assert (∀ r : res private_exn unit, (r = Ok tt → ∃ s t, inode_at w1 i = Some (s, t) ∧ trusted last s) →
    grown w w1 ∧ fds_kept w w1 ∧ entries_same w w1 ∧ (r = Ok tt → ∃ s t, inode_at w1 i = Some (s, t) ∧ trusted last s)) as Hsame.
  { intros r2 Hr2. split; [by apply unchanged_grown|]. split; [apply Hw1|]. split; [apply Hw1|done]. }
  destruct r as [s|e]; [|by apply Hsame]. destruct (Hr _ eq_refl) as [t Ht]. clear Hr.
  assert (inode_at w1 i = Some (s, t)) as Ht1 by (destruct Hw1 as (_ & Hi & _); by rewrite Hi).
  destruct (S_ISDIR (st_mode s)) eqn:Hdir; [|by apply wp_raise, Hsame]. cbn [negb].
  destruct (_ || _) eqn:Hown; [|by apply wp_raise, Hsame]. cbn [negb].
  apply orb_prop in Hown. rewrite !Z.eqb_eq in Hown. destruct last.
  - destruct (Z.eqb_spec (st_uid s) uid) as [Huid|]; [|by apply wp_raise, Hsame]. cbn [negb].
    apply wp_intro. intros r w2 (He2 & Hk2 & _ & Ho2 & s' & Hs' & Hu & _ & Hf & Hm & Hold)%(fchmod_law _ i s t); [|by apply Hw1|done].
    split; [|split; [intros fd' j Hj; by apply Hk2, Hw1|split; [intros d n; by rewrite He2, (proj1 Hw1)|]]].
    + etrans; [by apply unchanged_grown|]. split; [intros d n j; by rewrite He2|]. intros j sj tj Hj.
      destruct (decide (j = i)) as [->|Hne]; [|exists sj; by rewrite Ho2].
      rewrite Ht1 in Hj. injection Hj as <- <-. exists s'. split; [done|]. intros last.
      destruct r as [[]|e]; [by apply trusted_private; auto|]. unfold trusted. by rewrite Hold, Hu.
    + intros ->. exists s', t. split; [done|]. split; [unfold S_ISDIR; by rewrite Hf|]. rewrite Hu. auto.
  - destruct (_ && _) eqn:Hw; [by apply wp_raise, Hsame|]. apply wp_ret, Hsame. intros _. exists s, t. split; [done|].
    split; [done|]. split; [done|]. apply andb_false_iff in Hw as [Hw|Hw].
    + left. apply negb_false_iff in Hw. lia.
    + right. lia.
Qed.

Lemma wp_walk parts fd i w :
  opened w fd = Some i →
  wp (walk uid fd parts)
    (λ r w', grown w w' ∧ ∀ fd', r = Ok fd' → ∃ d, descends w' i parts d ∧ opened w' fd' = Some d) w.
Proof.
  induction parts as [|part parts IH] in fd, i, w |- *; intros Hfd; cbn [walk].
  { apply wp_ret. split; [done|]. intros ? [= <-]. by exists i. }
  assert (∀ A (w1 : W) fd2 e, grown w w1 →
    wp (close fd2;; raise (A := A) e) (λ r w', grown w w' ∧ ∃ e', r = Err e') w1) as Hclose.
  { intros A w1 fd2 e Hg1. apply wp_bind, wp_intro. intros r w2 (He & Hi & _)%close_law.
    assert (grown w w2) by (etrans; [exact Hg1|by apply closed_grown]). destruct r; [apply wp_raise|]; eauto. }
  apply wp_bind, wp_try. eapply wp_mono; [|by apply wp_open_component]. intros r w1 (Hg1 & Hk1 & Hr1).
  destruct r as [next_fd|e].
  2: { eapply wp_mono; [|by apply Hclose]. intros r w2 [Hg2 [e' ->]]. done. }
  destruct (Hr1 _ eq_refl) as (Hnew & j & Hj & Ho). apply wp_bind, wp_try, wp_intro.
  intros r w2 (He2 & Hi2 & _ & Hk2)%close_law.
  assert (grown w w2) as Hg2 by (etrans; [exact Hg1|by apply closed_grown]).
  destruct r as [[]|e].
  2: { eapply wp_mono; [|by apply Hclose]. intros r w3 [Hg3 [e' ->]]. done. }
  assert (opened w2 next_fd = Some j) as Ho2. { apply Hk2; [|done]. intros ->. by rewrite Hfd in Hnew. }
  apply wp_bind, wp_try. eapply wp_mono; [|by apply wp_verify_private_directory]. intros r w3 (Hg3 & Hk3 & He3 & Hr3).
  assert (grown w w3) as Hgw3 by (by etrans).
  destruct r as [[]|e].
  2: { eapply wp_mono; [|by apply Hclose]. intros r w4 [Hg4 [e' ->]]. done. }
  destruct (Hr3 eq_refl) as (s & t & Hs & Htrust). eapply wp_mono; [|by apply (IH next_fd j), Hk3].
  intros r w4 [Hg4 Hr4]. split; [by etrans|]. intros fd' ->. destruct (Hr4 _ eq_refl) as (d & Hd & Hod).
  exists d. split; [|done]. destruct Hg4 as [Hge Hgi]. destruct (Hgi _ _ _ Hs) as (s' & Hs' & Ht').
  exists j, s', t. split; [apply Hge; by rewrite He3, He2|]. auto.
Qed.

(** ** Private files *)

Context {B : WindowsBackend W} {P : PathlibCalls W} (platform : text).

(** The pinned parent of a path is reached through trusted directories. *)
Definition pinned (w : W) (path : Path) (d : inode) : Prop := descends w root_inode (names (parent path)) d.
Lemma wp_open_posix_parent path w :
  wp (_open_posix_parent false uid platform path)
    (λ r w', grown w w' ∧ ∀ fd, r = Ok fd → ∃ d, pinned w' path d ∧ opened w' fd = Some d) w.
Proof.
  unfold _open_posix_parent, open_private_parent. apply wp_bind. do 3 (case_match; [by apply wp_raise|]).
  unfold posix_open_private_parent. apply wp_bind. case_match; [by apply wp_raise|]. apply wp_bind, wp_intro.
  intros r w1 [Hw1 Hr]%open_root_law. apply unchanged_grown in Hw1. destruct r as [fd|e]; [|done].
  eapply wp_mono; [|by apply wp_walk, Hr]. intros r w2 [Hg2 Hr2].
  assert (grown w w2) by (by etrans). destruct r as [fd'|e]; [|done]. apply wp_ret. cbn. apply wp_ret. auto.
Qed.
Lemma temporary_name_ne path token : name path ≠ temporary_name path token.
Proof.
  unfold temporary_name. intros H. apply (f_equal String.length) in H. revert H.
  rewrite !text_length_app. cbn. lia.
Qed.

(** A write that returned left its text, as a private regular file of the user, under the name in
    the pinned parent; one that failed left the text that was there or the new one, whole.  Nothing
    else changed but the draft's name, and the directories the walk created. *)
Definition written (token : text) (path : Path) (content : text) (w w' : W) (r : res private_exn unit) : Prop :=
  ∃ d w1, grown w w1 ∧ texts_except d [temporary_name path token; name path] w1 w' ∧
    match r with
    | Ok _ => pinned w1 path d ∧ secured d (name path) content w'
    | Err _ => w' = w1 ∨ pinned w1 path d ∧
        (text_at w' d (name path) = text_at w1 d (name path) ∨ text_at w' d (name path) = Some content)
    end.
(** A read that returned gave what the name held, nothing or the text of a safe file, and changed
    no text. *)
Definition read_from (path : Path) (w w' : W) (r : res private_exn (option text)) : Prop :=
  ∃ d w1, grown w w1 ∧ calm w1 w' ∧
    ∀ o, r = Ok o → pinned w1 path d ∧ ∃ w2 bytes, calm w1 w2 ∧ held d (name path) w2 bytes ∧ o = universal_newlines <$> bytes.
(** A deletion that returned left nothing under the name; one that failed left the text or nothing. *)
Definition deleted (path : Path) (w w' : W) (r : res private_exn unit) : Prop :=
  ∃ d w1, grown w w1 ∧ texts_except d [name path] w1 w' ∧
    match r with
    | Ok _ => pinned w1 path d ∧ entry_at w' d (name path) = None
    | Err _ => w' = w1 ∨ pinned w1 path d ∧
        (text_at w' d (name path) = text_at w1 d (name path) ∨ entry_at w' d (name path) = None)
    end.

(** C22. Private text files on POSIX are replaced whole, read as they are and removed, below a parent
    that was reached through trusted directories only. *)
Theorem private_files_are_whole token path content w :
  (∀ r w', write_private_text false uid platform token path content w = (r, w') → written token path content w w' r) ∧
  (∀ r w', read_private_text false uid platform path w = (r, w') → read_from path w w' r) ∧
  (∀ r w', delete_private_file false uid platform path w = (r, w') → deleted path w w' r).
Proof.
  split; [|split]; intros r w' Hrun; pattern r, w'; refine (wp_run _ _ _ _ _ Hrun _); apply wp_bind;
    (eapply wp_mono; [|apply wp_open_posix_parent]); intros r1 w1 [Hg Hr1];
    (destruct r1 as [fd|e]; [destruct (Hr1 _ eq_refl) as (d & Hpin & Ho)|exists root_inode, w1]).
  - eapply wp_mono; [|apply (wp_write_below fd d); [done|apply temporary_name_ne]]. intros r2 w2 [Ht Hr].
    exists d, w1. split; [done|]. split; [done|]. destruct r2; auto.
  - split; [done|]. split; [done|]. by left.
  - eapply wp_mono; [|by apply (wp_read_below fd d)]. intros r2 w2 [Hc Hr]. exists d, w1. auto.
  - split; [done|]. by split.
  - eapply wp_mono; [|by apply (wp_delete_below fd d)]. intros r2 w2 [Ht Hr].
    exists d, w1. split; [done|]. split; [done|]. destruct r2; auto.
  - split; [done|]. split; [done|]. by left.
Qed.
End Checks.
