(* ===== verification/PosixHost.v ===== *)
(** A file system that shows the laws of [PrivateFiles] can hold: numbered nodes that each have at
    most one name, descriptors, and a disk that may be full. *)
From Stdlib Require Import Ascii.
From S2P Require Import Prelude Runs Paths Services PrivatePaths PrivateFiles.
#[local] Open Scope Z_scope.

(** The number and the name of the directory a node is found in. *)
Abbreviation home := (Z * text)%type.
Record node := mk_node { n_home : option home; n_mode : Z; n_uid : Z; n_text : text }.
Record host := mk_host { h_nodes : list node; h_fds : list (Z * Z); h_full : bool }.
Definition host_uid : Z := 1000.

(** ** What is observed *)

Definition node_home (ns : list node) (k : nat) : option home := ns !! k ≫= n_home.
Definition find (x : home) (ns : list node) : option nat := fst <$> list_find (λ nd, n_home nd = Some x) ns.
#[local] Arguments find : simpl never.
Definition links (ns : list node) (k : nat) (nd : node) : Z :=
  match n_home nd with Some x => if bool_decide (find x ns = Some k) then 1 else 0 | None => 0 end.
Definition stat_of (ns : list node) (k : nat) (nd : node) : stat_result :=
  mk_stat (n_mode nd) (n_uid nd) (links ns k nd) 0 (Z.of_nat k).
Definition number (k : nat) : inode := (0, Z.of_nat k).
Definition entry (ns : list node) (d : inode) (n : text) : option nat :=
  if fst d =? 0 then find (snd d, n) ns else None.
Definition node_at (ns : list node) (i : inode) : option (nat * node) :=
  if (fst i =? 0) && (0 <=? snd i) then pair (Z.to_nat (snd i)) <$> ns !! Z.to_nat (snd i) else None.
Fixpoint descriptor (fd : Z) (fds : list (Z * Z)) : option Z :=
  match fds with [] => None | (fd', d) :: fds => if fd' =? fd then Some d else descriptor fd fds end.
#[export] Instance host_world : PosixWorld host := {|
  root_inode := number 0;
  entry_at w d n := number <$> entry (h_nodes w) d n;
  inode_at w i := (λ '(k, nd), (stat_of (h_nodes w) k nd, n_text nd)) <$> node_at (h_nodes w) i;
  opened w fd := pair 0 <$> descriptor fd (h_fds w);
|}.

(** ** The calls *)

Definition fresh_fd (w : host) : Z := foldr (λ p m, Z.max (fst p + 1) m) 3 (h_fds w).
Definition set_nodes (ns : list node) (w : host) : host := mk_host ns (h_fds w) (h_full w).
Definition open_number (d : Z) (w : host) : res private_exn Z * host :=
  (Ok (fresh_fd w), mk_host (h_nodes w) ((fresh_fd w, d) :: h_fds w) (h_full w)).
Definition at_directory {A} (dfd : Z) (f : Z → M host private_exn A) : M host private_exn A := λ w,
  match descriptor dfd (h_fds w) with Some d => f d w | None => (Err OtherOSError, w) end.
Definition at_node {A} (fd : Z) (f : nat → node → M host private_exn A) : M host private_exn A := λ w,
  match descriptor fd (h_fds w) ≫= λ d, node_at (h_nodes w) (0, d) with
  | Some (k, nd) => f k nd w
  | None => (Err OtherOSError, w)
  end.
Definition changed_mode (mode : Z) (nd : node) : node :=
  mk_node (n_home nd) (Z.lor (Z.land (n_mode nd) S_IFMT) mode) (n_uid nd) (n_text nd).
Definition with_text (t : text) (nd : node) : node := mk_node (n_home nd) (n_mode nd) (n_uid nd) t.
Definition forget (xs : list home) (nd : node) : node :=
  match n_home nd with
  | Some x => if bool_decide (x ∈ xs) then mk_node None (n_mode nd) (n_uid nd) (n_text nd) else nd
  | None => nd
  end.
Definition named (x : home) (nd : node) : node := mk_node (Some x) (n_mode nd) (n_uid nd) (n_text nd).
Definition change_mode (fd mode : Z) : M host private_exn unit := at_node fd (λ k nd w,
  if (0 <=? mode) && (mode <? 4096)
  then (Ok tt, set_nodes (<[k := changed_mode mode nd]> (h_nodes w)) w)
  else (Err OtherOSError, w)).

#[export] Instance host_calls : PosixCalls host := {|
  open_root := open_number 0;
  open_directory dfd n := at_directory dfd (λ d w,
    match find (d, n) (h_nodes w) with
    | Some k => if from_option (λ nd, S_ISDIR (n_mode nd)) false (h_nodes w !! k)
                then open_number (Z.of_nat k) w else (Err OtherOSError, w)
    | None => (Err FileNotFoundError, w)
    end);
  mkdir dfd n mode := at_directory dfd (λ d w,
    match find (d, n) (h_nodes w) with
    | Some _ => (Err FileExistsError, w)
    | None => (Ok tt, set_nodes (h_nodes w ++ [mk_node (Some (d, n)) (Z.lor S_IFDIR mode) host_uid ""]) w)
    end);
  open_file dfd n a c mode := at_directory dfd (λ d w,
    match find (d, n) (h_nodes w), c with
    | Some _, CreateNew => (Err FileExistsError, w)
    | Some k, _ => open_number (Z.of_nat k) w
    | None, MustExist => (Err FileNotFoundError, w)
    | None, _ => open_number (Z.of_nat (length (h_nodes w)))
        (set_nodes (h_nodes w ++ [mk_node (Some (d, n)) (Z.lor S_IFREG mode) host_uid ""]) w)
    end);
  fstat fd := at_node fd (λ k nd w, (Ok (stat_of (h_nodes w) k nd), w));
  stat_at dfd n := at_directory dfd (λ d w,
    match find (d, n) (h_nodes w) with
    | Some k => (from_option (λ nd, Ok (stat_of (h_nodes w) k nd)) (Err OtherOSError) (h_nodes w !! k), w)
    | None => (Err FileNotFoundError, w)
    end);
  fchmod := change_mode;
  chmod_descriptor := change_mode;
  write_synced fd c := at_node fd (λ k nd w,
    if h_full w then (Err OtherOSError, w) else (Ok tt, set_nodes (<[k := with_text c nd]> (h_nodes w)) w));
  read_all fd := at_node fd (λ _ nd w, (Ok (universal_newlines (n_text nd)), w));
  fsync _ w := (Ok tt, w);
  close fd w := (Ok tt, mk_host (h_nodes w) (filter (λ p, p.1 ≠ fd) (h_fds w)) (h_full w));
  replace dfd a b := at_directory dfd (λ d w,
    match find (d, a) (h_nodes w) with
    | Some k => (Ok tt, set_nodes (alter (named (d, b)) k (forget [(d, a); (d, b)] <$> h_nodes w)) w)
    | None => (Err FileNotFoundError, w)
    end);
  unlink dfd n := at_directory dfd (λ d w,
    match find (d, n) (h_nodes w) with
    | Some _ => (Ok tt, set_nodes (forget [(d, n)] <$> h_nodes w) w)
    | None => (Err FileNotFoundError, w)
    end);
  flock _ _ w := (Ok tt, w);
|}.

(** ** Names and nodes *)

Lemma find_some x ns k : find x ns = Some k ↔ node_home ns k = Some x ∧ ∀ j, (j < k)%nat → node_home ns j ≠ Some x.
Proof.
  unfold find, node_home. split.
  - intros [[j nd] [(Hj & Hx & Hb)%list_find_Some ->]]%fmap_Some. cbn. rewrite Hj. split; [done|].
    intros l Hl. destruct (ns !! l) as [nd'|] eqn:Hnd; [|done]. cbn. intros Hx'. by eapply Hb.
  - intros [(nd & Hnd & Hx)%bind_Some Hb]. apply fmap_Some. exists (k, nd). split; [|done].
    apply list_find_Some. split; [done|]. split; [done|]. intros j nd' Hj Hlt Hx'. apply (Hb j Hlt). by rewrite Hj.
Qed.
Lemma find_none x ns : find x ns = None ↔ ∀ j, node_home ns j ≠ Some x.
Proof.
  split.
  - intros Hn j (nd & Hnd & Hx)%bind_Some. apply fmap_None, list_find_None in Hn.
    by apply (Forall_lookup_1 _ _ _ _ Hn Hnd).
  - intros Hn. destruct (find x ns) as [k|] eqn:Hk; [|done]. apply find_some in Hk as [Hk _]. by apply Hn in Hk.
Qed.
Lemma find_same x ns ns' : (∀ j, node_home ns' j = Some x ↔ node_home ns j = Some x) → find x ns' = find x ns.
Proof.
  intros H. apply option_eq. intros k. rewrite !find_some, H. split; intros [? Hb]; (split; [done|]); intros j Hj.
  - rewrite <- H. by apply Hb.
  - rewrite H. by apply Hb.
Qed.
Lemma find_unique x y ns k : find x ns = Some k → find y ns = Some k → x = y.
Proof. rewrite !find_some. intros [Hx _] [Hy _]. congruence. Qed.
Lemma find_node x ns k : find x ns = Some k → ∃ nd, ns !! k = Some nd ∧ n_home nd = Some x.
Proof. intros [(nd & Hnd & Hx)%bind_Some _]%find_some. eauto. Qed.
Lemma node_at_number ns k : node_at ns (number k) = pair k <$> ns !! k.
Proof. unfold node_at, number. cbn. rewrite Nat2Z.id. destruct (Z.leb_spec 0 (Z.of_nat k)); [done|lia]. Qed.
Lemma number_inj k k' : number k = number k' → k = k'.
Proof. unfold number. intros [= H]. lia. Qed.
#[export] Instance number_injective : Inj (=) (=) number.
Proof. exact number_inj. Qed.
Lemma node_at_some ns i k nd : node_at ns i = Some (k, nd) → i = number k ∧ ns !! k = Some nd.
Proof.
  unfold node_at. destruct i as [dev i]. cbn. destruct (_ && _) eqn:H; [|done].
  intros (nd' & Hnd & [= -> ->])%fmap_Some. split; [|done]. unfold number. f_equal; lia.
Qed.

(** Entries and nodes of numbered inodes. *)
Lemma entry_number ns k n : entry ns (number k) n = find (Z.of_nat k, n) ns.
Proof. done. Qed.
Lemma entry_opened w fd d n : opened w fd = Some d → entry (h_nodes w) d n = find (snd d, n) (h_nodes w).
Proof. cbn. by intros (? & _ & ->)%fmap_Some. Qed.
Lemma at_directory_run {A} dfd d (f : Z → M host private_exn A) w :
  opened w dfd = Some d → at_directory dfd f w = f (snd d) w ∧ d = (0, snd d).
Proof. cbn. unfold at_directory. by intros (? & -> & ->)%fmap_Some. Qed.
Lemma at_node_run {A} fd i (f : nat → node → M host private_exn A) w :
  opened w fd = Some i → at_node fd f w = match node_at (h_nodes w) i with Some (k, nd) => f k nd w | None => (Err OtherOSError, w) end.
Proof. cbn. unfold at_node. by intros (? & -> & ->)%fmap_Some. Qed.
Lemma inode_at_number w k : inode_at w (number k) = (λ nd, (stat_of (h_nodes w) k nd, n_text nd)) <$> h_nodes w !! k.
Proof. cbn. rewrite node_at_number. by destruct (h_nodes w !! k). Qed.
Lemma inode_at_inv w i s t : inode_at w i = Some (s, t) →
  ∃ k nd, i = number k ∧ h_nodes w !! k = Some nd ∧ s = stat_of (h_nodes w) k nd ∧ t = n_text nd.
Proof.
  cbn. intros ([k nd] & Hn & [= -> ->])%fmap_Some. apply node_at_some in Hn as [-> Hn]. by exists k, nd.
Qed.
(** The name of a node is the one it has in a list where the same node has it. *)
Lemma inode_same w w' i :
  (∀ k, i = number k → h_nodes w' !! k = h_nodes w !! k ∧
     ∀ nd x, h_nodes w !! k = Some nd → n_home nd = Some x → find x (h_nodes w') = Some k ↔ find x (h_nodes w) = Some k) →
  inode_at w' i = inode_at w i.
Proof.
  intros H. cbn. destruct (node_at (h_nodes w) i) as [[k nd]|] eqn:Hn.
  - apply node_at_some in Hn as [-> Hn]. destruct (H k eq_refl) as [Hk Hf]. rewrite node_at_number, Hk, Hn. cbn.
    unfold stat_of, links. do 2 f_equal. destruct (n_home nd) as [x|] eqn:Hx; [|done].
    by rewrite (bool_decide_ext _ _ (Hf _ _ Hn Hx)).
  - destruct (node_at (h_nodes w') i) as [[k nd]|] eqn:Hn'; [|done]. apply node_at_some in Hn' as [-> Hn'].
    destruct (H k eq_refl) as [Hk _]. rewrite node_at_number in Hn. rewrite <- Hk, Hn' in Hn. done.
Qed.
Lemma homes_same w w' d n : (∀ j x, snd x = n → node_home (h_nodes w') j = Some x ↔ node_home (h_nodes w) j = Some x) →
  entry_at w' d n = entry_at w d n.
Proof. intros H. cbn. unfold entry. destruct (_ =? 0); [|done]. f_equal. apply find_same. intros j. by apply H. Qed.

(** A change of one node that keeps its name. *)
Lemma node_home_insert ns k nd nd' j : ns !! k = Some nd → n_home nd' = n_home nd → node_home (<[k := nd']> ns) j = node_home ns j.
Proof.
  intros Hk Hh. unfold node_home. destruct (decide (j = k)) as [->|Hne]; [|by rewrite list_lookup_insert_ne].
  rewrite list_lookup_insert_eq by (by eapply lookup_lt_Some). cbn. by rewrite Hh, Hk.
Qed.
Lemma insert_changes w k nd nd' :
  h_nodes w !! k = Some nd → n_home nd' = n_home nd →
  let w' := set_nodes (<[k := nd']> (h_nodes w)) w in
  entries_same w w' ∧ fds_kept w w' ∧ (∀ j, j ≠ number k → inode_at w' j = inode_at w j) ∧
  inode_at w' (number k) = Some (mk_stat (n_mode nd') (n_uid nd') (links (h_nodes w) k nd) 0 (Z.of_nat k), n_text nd').
Proof.
  intros Hk Hh w'. assert (∀ x, find x (h_nodes w') = find x (h_nodes w)) as Hf.
  { intros x. apply find_same. intros j. unfold w'. cbn. by rewrite (node_home_insert _ _ nd). }
  split; [|split; [by intros ? ?|split]].
  - intros d n. cbn. unfold entry. destruct (_ =? 0); [|done]. by rewrite <- Hf.
  - intros j Hj. apply inode_same. intros k' ->. split; [|intros nd0 x _ _; by rewrite Hf].
    cbn. rewrite list_lookup_insert_ne; [done|]. congruence.
  - rewrite inode_at_number. cbn. rewrite list_lookup_insert_eq by (by eapply lookup_lt_Some). cbn.
    unfold stat_of, links. rewrite Hh. destruct (n_home nd) as [x|]; [|done]. by rewrite <- Hf.
Qed.
(** A node added under a name that led nowhere. *)
Lemma node_home_app ns nd j : node_home (ns ++ [nd]) j = if decide (j = length ns) then n_home nd else node_home ns j.
Proof.
  unfold node_home. destruct (decide _) as [->|Hne].
  - by rewrite lookup_app_r, Nat.sub_diag by lia.
  - destruct (decide (j < length ns)%nat); [by rewrite lookup_app_l|].
    rewrite (lookup_ge_None_2 (ns ++ [nd])) by (rewrite length_app; cbn; lia). by rewrite lookup_ge_None_2 by lia.
Qed.
Lemma node_home_bound ns j x : node_home ns j = Some x → (j < length ns)%nat.
Proof. intros (nd & Hnd & _)%bind_Some. by eapply lookup_lt_Some. Qed.
Lemma find_app x ns nd : find x ns = None → n_home nd = Some x → find x (ns ++ [nd]) = Some (length ns).
Proof.
  intros Hn Hx. apply find_some. split; [by rewrite node_home_app, decide_True|]. intros j Hj.
  rewrite node_home_app, decide_False by lia. by apply find_none.
Qed.
Lemma find_app_ne x ns nd : n_home nd ≠ Some x → find x (ns ++ [nd]) = find x ns.
Proof.
  intros Hx. apply find_same. intros j. rewrite node_home_app. destruct (decide _) as [->|]; [|done].
  split; [done|]. intros Hb%node_home_bound. lia.
Qed.
Lemma append_changes w d n nd :
  find (d, n) (h_nodes w) = None → n_home nd = Some (d, n) →
  let w' := set_nodes (h_nodes w ++ [nd]) w in let i := number (length (h_nodes w)) in
  entry_at w' (0, d) n = Some i ∧ entries_except (0, d) [n] w w' ∧ (∀ d' n', entry_at w d' n' ≠ Some i) ∧
  (∀ j, j ≠ i → inode_at w' j = inode_at w j) ∧ ∃ s, inode_at w' i = Some (s, n_text nd).
Proof.
  intros Hn Hx w' i. subst w' i. split; [cbn; unfold entry; cbn; by rewrite find_app|]. split; [|split; [|split]].
  - intros [dev d'] n' Hne. cbn. unfold entry. cbn. destruct (Z.eqb_spec dev 0) as [->|]; [|done]. f_equal.
    apply find_app_ne. rewrite Hx. intros [= -> ->]. destruct Hne as [Hne|Hne]; [done|]. set_solver.
  - intros d' n'. cbn. unfold entry. destruct (_ =? 0); [|done].
    intros (k & Hk & Heq%number_inj)%fmap_Some. apply find_some in Hk as [Hk%node_home_bound _]. lia.
  - intros j Hj. apply inode_same. intros k ->. assert (k ≠ length (h_nodes w)) as Hk by (by intros ->). cbn. split.
    + destruct (decide (k < length (h_nodes w))%nat); [by rewrite lookup_app_l|].
      rewrite (lookup_ge_None_2 (_ ++ _)) by (rewrite length_app; cbn; lia). by rewrite lookup_ge_None_2 by lia.
    + intros nd0 x Hnd0 Hx0. rewrite find_app_ne; [done|]. rewrite Hx. intros [= <-].
      eapply find_none; [exact Hn|]. unfold node_home. by rewrite Hnd0.
  - rewrite inode_at_number. cbn. rewrite lookup_app_r, Nat.sub_diag by lia. cbn. eauto.
Qed.
(** Names taken from nodes, and one given to a node. *)
Lemma node_home_forget xs ns j y : node_home (forget xs <$> ns) j = Some y ↔ node_home ns j = Some y ∧ y ∉ xs.
Proof.
  unfold node_home, forget. rewrite list_lookup_fmap. destruct (ns !! j) as [nd|]; cbn; [|by split; [|intros [? _]]].
  destruct (n_home nd) as [x|] eqn:Hx; cbn; [|by rewrite Hx; split; [|intros [? _]]].
  case_bool_decide as Hin; cbn; [|rewrite Hx].
  - split; [done|]. by intros [[= <-] ?].
  - split; [intros [= <-]; done|]. by intros [? _].
Qed.
Lemma find_forget xs ns y : find y (forget xs <$> ns) = if decide (y ∈ xs) then None else find y ns.
Proof.
  destruct (decide (y ∈ xs)) as [Hin|Hin].
  - apply find_none. intros j [_ Hy]%node_home_forget. done.
  - apply find_same. intros j. rewrite node_home_forget. by split; [intros [? _]|].
Qed.
Lemma forget_fields xs nd : n_mode (forget xs nd) = n_mode nd ∧ n_uid (forget xs nd) = n_uid nd ∧ n_text (forget xs nd) = n_text nd.
Proof. unfold forget. destruct (n_home nd); [|done]. by case_bool_decide. Qed.
Lemma forget_home xs nd : n_home (forget xs nd) = x ← n_home nd; if bool_decide (x ∈ xs) then None else Some x.
Proof. unfold forget. destruct (n_home nd) as [x|] eqn:Hx; [|done]. cbn. by case_bool_decide. Qed.
Lemma forget_other xs nd : (∀ x, n_home nd = Some x → x ∉ xs) → forget xs nd = nd.
Proof. unfold forget. intros H. destruct (n_home nd) as [x|]; [|done]. rewrite bool_decide_eq_false_2; auto. Qed.
Lemma node_home_named x ns k j : (k < length ns)%nat →
  node_home (alter (named x) k ns) j = if decide (j = k) then Some x else node_home ns j.
Proof.
  intros Hk. unfold node_home. destruct (decide _) as [->|Hne]; [|by rewrite list_lookup_alter_ne].
  destruct (lookup_lt_is_Some_2 _ _ Hk) as [nd Hnd]. by rewrite list_lookup_alter_eq, Hnd.
Qed.
Lemma forget_changes w d n :
  let w' := set_nodes (forget [(d, n)] <$> h_nodes w) w in
  entries_except (0, d) [n] w w' ∧ entry_at w' (0, d) n = None ∧
  (∀ i, entry_at w (0, d) n ≠ Some i → inode_at w' i = inode_at w i) ∧
  ∀ i s t, inode_at w i = Some (s, t) → ∃ s', inode_at w' i = Some (s', t).
Proof.
  intros w'. subst w'. split; [|split; [|split]].
  - intros [dev d'] n' Hne. cbn. unfold entry. cbn. destruct (Z.eqb_spec dev 0) as [->|]; [|done]. f_equal.
    rewrite find_forget, decide_False; [done|]. intros [= -> ->]%list_elem_of_singleton.
    destruct Hne as [|Hne]; [done|]. set_solver.
  - cbn. unfold entry. cbn. by rewrite find_forget, decide_True by set_solver.
  - intros i Hi. destruct (inode_at w i) as [[s t]|] eqn:Hs.
    + apply inode_at_inv in Hs as (k & nd & -> & Hk & -> & ->). rewrite inode_at_number. cbn.
      rewrite list_lookup_fmap, Hk. cbn. unfold stat_of.
      destruct (forget_fields [(d, n)] nd) as (-> & -> & ->). do 3 f_equal.
      assert (find (d, n) (h_nodes w) ≠ Some k) as Hf. { intros Hf. apply Hi. cbn. unfold entry. cbn. by rewrite Hf. }
      unfold links. rewrite forget_home. destruct (n_home nd) as [x|]; [|done]. cbn [mbind option_bind].
      case_bool_decide as Hin.
      * apply list_elem_of_singleton in Hin as ->. by rewrite bool_decide_eq_false_2.
      * by rewrite find_forget, decide_False by done.
    + destruct (inode_at (set_nodes _ w) i) as [[s t]|] eqn:Hs'; [|done].
      apply inode_at_inv in Hs' as (k & nd & -> & Hk & _ & _). cbn in Hk. rewrite list_lookup_fmap in Hk.
      rewrite inode_at_number in Hs. by destruct (h_nodes w !! k).
  - intros i s t (k & nd & -> & Hk & -> & ->)%inode_at_inv. rewrite inode_at_number. cbn.
    rewrite list_lookup_fmap, Hk. cbn. destruct (forget_fields [(d, n)] nd) as (_ & _ & ->). eauto.
Qed.

(** A rename within a directory. *)
Definition renamed (d : Z) (a b : text) (k : nat) (w : host) : host :=
  set_nodes (alter (named (d, b)) k (forget [(d, a); (d, b)] <$> h_nodes w)) w.
Lemma renamed_home d a b k w j y : find (d, a) (h_nodes w) = Some k →
  node_home (h_nodes (renamed d a b k w)) j = Some y ↔
  if decide (j = k) then y = (d, b) else node_home (h_nodes w) j = Some y ∧ y ∉ [(d, a); (d, b)].
Proof.
  intros Hk. destruct (find_node _ _ _ Hk) as (nd & Hnd & _). cbn.
  rewrite node_home_named by (rewrite length_fmap; by eapply lookup_lt_Some).
  destruct (decide _); [by split; intros; congruence|]. by apply node_home_forget.
Qed.
Lemma renamed_find d a b k w y : find (d, a) (h_nodes w) = Some k →
  find y (h_nodes (renamed d a b k w)) =
  if decide (y = (d, b)) then Some k else if decide (y = (d, a)) then None else find y (h_nodes w).
Proof.
  intros Hk. destruct (decide (y = (d, b))) as [->|Hb].
  { apply find_some. split; [by rewrite renamed_home, decide_True|]. intros j Hj.
    rewrite renamed_home, decide_False by first [done|lia]. intros [_ Hin]. set_solver. }
  destruct (decide (y = (d, a))) as [->|Ha].
  { apply find_none. intros j. rewrite renamed_home by done. destruct (decide _); [congruence|]. intros [_ Hin]. set_solver. }
  apply find_same. intros j. rewrite renamed_home by done. destruct (decide (j = k)) as [->|].
  - split; [congruence|]. intros Hy. apply find_some in Hk as [Hk _]. congruence.
  - split; [by intros [? _]|]. intros Hy. split; [done|]. set_solver.
Qed.
Lemma renamed_node d a b k w j nd : h_nodes w !! j = Some nd →
  h_nodes (renamed d a b k w) !! j = Some (if decide (j = k) then named (d, b) (forget [(d, a); (d, b)] nd) else forget [(d, a); (d, b)] nd).
Proof.
  intros Hj. cbn. destruct (decide (j = k)) as [->|].
  - by rewrite list_lookup_alter_eq, list_lookup_fmap, Hj.
  - by rewrite list_lookup_alter_ne, list_lookup_fmap, Hj by done.
Qed.
Lemma renamed_texts d a b k w i s t : inode_at w i = Some (s, t) → ∃ s', inode_at (renamed d a b k w) i = Some (s', t).
Proof.
  intros (j & nd & -> & Hj & -> & ->)%inode_at_inv. rewrite inode_at_number, (renamed_node _ _ _ _ _ _ _ Hj).
  destruct (forget_fields [(d, a); (d, b)] nd) as (_ & _ & <-). cbn. destruct (decide _); cbn; eauto.
Qed.
Lemma renamed_changes d a b k w : a ≠ b → find (d, a) (h_nodes w) = Some k →
  let w' := renamed d a b k w in
  entries_except (0, d) [a; b] w w' ∧ entry_at w' (0, d) a = None ∧ entry_at w' (0, d) b = entry_at w (0, d) a ∧
  ∀ i, (∃ d' n, entry_at w' d' n = Some i) → entry_at w (0, d) b ≠ Some i → inode_at w' i = inode_at w i.
Proof.
  intros Hab Hk w'. pose proof (λ y, renamed_find d a b k w y Hk) as Hf. subst w'.
  assert (∀ d' n, entry_at (renamed d a b k w) d' n = number <$> (if fst d' =? 0 then
    if decide ((snd d', n) = (d, b)) then Some k else if decide ((snd d', n) = (d, a)) then None else find (snd d', n) (h_nodes w) else None)) as He.
  { intros d' n. rewrite <- Hf. done. }
  split; [|split; [|split]].
  - intros [dev d'] n Hne. rewrite He. cbn. unfold entry. cbn. destruct (Z.eqb_spec dev 0) as [->|]; [|done].
    assert ((d', n) ≠ (d, b) ∧ (d', n) ≠ (d, a)) as [Hb Ha].
    { split; intros [= -> ->]; destruct Hne as [|Hne]; first [done|set_solver]. }
    by rewrite !decide_False.
  - rewrite He. cbn. rewrite decide_False by congruence. by rewrite decide_True.
  - rewrite He. cbn. rewrite decide_True by done. by rewrite entry_number || (unfold entry; cbn; rewrite Hk).
  - intros i ([dev d'] & n & Hent) Hold. rewrite He in Hent. cbn in Hent. destruct (dev =? 0); [|done].
    assert (∃ nd, h_nodes w !! k = Some nd ∧ n_home nd = Some (d, a)) as (nd & Hnd & Hhome) by by apply find_node.
    destruct (decide _) as [_|Hb]; [|destruct (decide _) as [|Ha]; [done|]]; apply fmap_Some in Hent as (j & Hj & ->).
    + injection Hj as <-. rewrite !inode_at_number, (renamed_node _ _ _ _ _ _ _ Hnd), decide_True, Hnd by done.
      destruct (forget_fields [(d, a); (d, b)] nd) as (Hm & Hu & Ht). cbn. unfold stat_of, links. cbn.
      rewrite Hm, Hu, Ht, Hhome. rewrite !bool_decide_eq_true_2; [done|done|]. by rewrite Hf, decide_True.
    + destruct (find_node _ _ _ Hj) as (ndj & Hndj & Hhj). assert (j ≠ k) as Hjk.
      { intros ->. rewrite Hnd in Hndj. congruence. }
      apply inode_same. intros j' <-%number_inj. rewrite (renamed_node _ _ _ _ _ _ _ Hndj), decide_False by done.
      rewrite forget_other by (intros x; rewrite Hhj; intros [= <-]; set_solver). split; [done|].
      intros nd0 x Hx0 Hx. rewrite Hndj in Hx0. injection Hx0 as <-. rewrite Hhj in Hx. injection Hx as <-.
      by rewrite Hf, !decide_False.
Qed.

(** ** The laws *)

Lemma open_number_run d w r w' : open_number d w = (r, w') →
  r = Ok (fresh_fd w) ∧ unchanged w w' ∧ opened w (fresh_fd w) = None ∧ opened w' (fresh_fd w) = Some (0, d).
Proof.
  intros [= <- <-]. assert (opened w (fresh_fd w) = None) as Hnew.
  { cbn. unfold fresh_fd. assert (∀ fd l, foldr (λ p m, Z.max (fst p + 1) m) 3 l <= fd → descriptor fd l = None) as ->; [|done..].
    intros fd l. induction l as [|[fd' d'] l IH]; cbn; [done|]. intros H. destruct (Z.eqb_spec fd' fd); [lia|apply IH; lia]. }
  split; [done|]. split; [|split; [done|cbn; by rewrite Z.eqb_refl]]. split; [done|]. split; [done|].
  intros fd i. cbn. destruct (Z.eqb_spec (fresh_fd w) fd) as [<-|]; [|done]. intros Hi. cbn in Hnew. by rewrite Hi in Hnew.
Qed.
Lemma open_directory_run dfd d n w r w' : opened w dfd = Some d → open_directory dfd n w = (r, w') →
  unchanged w w' ∧ ∀ fd, r = Ok fd → opened w fd = None ∧ ∃ i, entry_at w d n = Some i ∧ opened w' fd = Some i.
Proof.
  intros Hd. cbn [open_directory host_calls]. destruct (at_directory_run dfd d (λ d w, match find (d, n) (h_nodes w) with
    | Some k => if from_option (λ nd, S_ISDIR (n_mode nd)) false (h_nodes w !! k)
                then open_number (Z.of_nat k) w else (Err OtherOSError, w)
    | None => (Err FileNotFoundError, w) end) w Hd) as [-> Hd0].
  destruct (find _ _) as [k|] eqn:Hk; [|by intros [= <- <-]]. destruct (from_option _ _ _); [|by intros [= <- <-]].
  intros (-> & Hw & Hnew & Ho)%open_number_run. split; [done|]. intros ? [= <-]. split; [done|]. exists (number k).
  split; [|done]. rewrite Hd0. cbn. unfold entry. cbn. by rewrite Hk.
Qed.
Lemma mkdir_run dfd n mode w r w' : mkdir dfd n mode w = (r, w') →
  fds_kept w w' ∧ (∀ d' n' i, entry_at w d' n' = Some i → entry_at w' d' n' = Some i) ∧
  (∀ i s t, inode_at w i = Some (s, t) → ∃ s', inode_at w' i = Some (s', t) ∧ st_mode s' = st_mode s ∧ st_uid s' = st_uid s).
Proof.
  assert (fds_kept w w ∧ (∀ d' n' i, entry_at w d' n' = Some i → entry_at w d' n' = Some i) ∧
    (∀ i s t, inode_at w i = Some (s, t) → ∃ s', inode_at w i = Some (s', t) ∧ st_mode s' = st_mode s ∧ st_uid s' = st_uid s)) as Hsame.
  { split; [by intros ? ?|]. split; [done|]. intros i s t Hs. by exists s. }
  cbn [mkdir host_calls]. unfold at_directory. destruct (descriptor _ _) as [d|]; [|by intros [= <- <-]].
  destruct (find (d, n) (h_nodes w)) as [k|] eqn:Hk; [by intros [= <- <-]|]. intros [= <- <-]. clear Hsame.
  split; [by intros ? ?|].
  destruct (append_changes w d n (mk_node (Some (d, n)) (Z.lor S_IFDIR mode) host_uid "") Hk eq_refl) as (Hent & He & Hfresh & Hi & Hnew).
  split.
  - intros d' n' i Hi'. rewrite He; [done|]. destruct (decide (d' = (0, d) ∧ n' = n)) as [[-> ->]|Hne].
    + cbn in Hi'. unfold entry in Hi'. cbn in Hi'. by rewrite Hk in Hi'.
    + destruct (decide (d' = (0, d))) as [->|]; [right; set_solver|by left].
  - intros i s t Hs. exists s. split; [|done]. rewrite Hi; [done|]. intros ->. rewrite inode_at_number, lookup_ge_None_2 in Hs by lia. done.
Qed.
Lemma open_file_run dfd d n a c mode w r w' : opened w dfd = Some d → open_file dfd n a c mode w = (r, w') →
  match r with
  | Err e => unchanged w w' ∧ (e = FileNotFoundError → entry_at w d n = None)
  | Ok fd => fds_kept w w' ∧ opened w fd = None ∧ ∃ i, opened w' fd = Some i ∧
      (c ≠ CreateNew ∧ entry_at w d n = Some i ∧ unchanged w w' ∨
       c ≠ MustExist ∧ entry_at w d n = None ∧ entry_at w' d n = Some i ∧ entries_except d [n] w w' ∧
       (∀ d' n', entry_at w d' n' ≠ Some i) ∧ (∀ j, j ≠ i → inode_at w' j = inode_at w j) ∧
       ∃ s, inode_at w' i = Some (s, ""%string))
  end.
Proof.
  intros Hd. assert (d = (0, snd d)) as Hd0. { cbn in Hd. by apply fmap_Some in Hd as (? & _ & ->). }
  cbn in Hd. apply fmap_Some in Hd as (x & Hx & Hdx). rewrite Hdx in *.
  cbn [open_file host_calls]. unfold at_directory. rewrite Hx. cbn [snd] in *. clear Hdx Hd0.
  assert (∀ fd w1 k w2, open_number (Z.of_nat k) w1 = (Ok fd, w2) → fds_kept w w1 → (∀ fd, opened w1 fd = opened w fd) → fds_kept w w2 ∧ opened w fd = None ∧
    opened w2 fd = Some (number k) ∧ unchanged w1 w2) as Hopen.
  { intros fd w1 k w2 ([= ->] & Hw & Hnew & Ho)%open_number_run Hkept Hsame. rewrite <- Hsame.
    split; [intros fd' i Hi; by apply Hw, Hkept|]. done. }
  destruct (find _ _) as [k|] eqn:Hk; destruct c;
    try (intros [= <- <-]; split; [done|intros ?; first [done|by cbn; unfold entry; cbn; rewrite Hk]]).
  1,2: intros Hrun; destruct (open_number_run _ _ _ _ Hrun) as (-> & _); apply Hopen in Hrun as (? & ? & ? & ?); [|by intros ? ?|done];
       split; [done|]; split; [done|]; exists (number k); split; [done|]; left; split; [done|]; split; [by cbn; unfold entry; cbn; rewrite Hk|done].
  all: intros Hrun; destruct (open_number_run _ _ _ _ Hrun) as (-> & _); apply Hopen in Hrun as (? & ? & ? & Hw); [|by intros ? ?|done];
    split; [done|]; split; [done|]; exists (number (length (h_nodes w))); split; [done|]; right;
    destruct (append_changes w x n (mk_node (Some (x, n)) (Z.lor S_IFREG mode) host_uid "") Hk eq_refl) as (Hnew & He & Hfresh & Hi & s & Hs);
    destruct Hw as (Hwe & Hwi & _);
    (split; [done|]); (split; [by cbn; unfold entry; cbn; rewrite Hk|]); (split; [by rewrite Hwe|]); (split; [intros ? ? ?; rewrite Hwe; by apply He|]);
    (split; [done|]); (split; [intros j Hj; rewrite Hwi; by apply Hi|]); exists s; by rewrite Hwi.
Qed.

Lemma opened_run_cases fd i w : opened w fd = Some i →
  (∃ k nd, i = number k ∧ h_nodes w !! k = Some nd ∧ ∀ A (f : nat → node → M host private_exn A), at_node fd f w = f k nd w) ∨
  (inode_at w i = None ∧ ∀ A (f : nat → node → M host private_exn A), at_node fd f w = (Err OtherOSError, w)).
Proof.
  intros Hfd. destruct (node_at (h_nodes w) i) as [[k nd]|] eqn:Hn; [left|right].
  - exists k, nd. destruct (node_at_some _ _ _ _ Hn) as [-> Hk]. split; [done|]. split; [done|]. intros A f.
    by rewrite (at_node_run _ _ _ _ Hfd), Hn.
  - split; [cbn; by rewrite Hn|]. intros A f. by rewrite (at_node_run _ _ _ _ Hfd), Hn.
Qed.
Lemma changed_mode_run fd i s t mode w r w' : opened w fd = Some i → inode_at w i = Some (s, t) → change_mode fd mode w = (r, w') →
  entries_same w w' ∧ fds_kept w w' ∧ r ≠ Err FileNotFoundError ∧ (∀ j, j ≠ i → inode_at w' j = inode_at w j) ∧
  ∃ s', inode_at w' i = Some (s', t) ∧ st_uid s' = st_uid s ∧ st_nlink s' = st_nlink s ∧
    Z.land (st_mode s') S_IFMT = Z.land (st_mode s) S_IFMT ∧ (r = Ok tt → S_IMODE (st_mode s') = mode) ∧
    (r ≠ Ok tt → st_mode s' = st_mode s).
Proof.
  intros Hfd Hs. unfold change_mode. destruct (opened_run_cases _ _ _ Hfd) as [(k & nd & -> & Hk & ->)|[Hn _]]; [|congruence].
  destruct (_ && _) eqn:Hm.
  2: { intros [= <- <-]. split; [done|]. split; [by intros ? ?|]. split; [done|]. split; [done|]. by exists s. }
  intros [= <- <-]. destruct (insert_changes w k nd (changed_mode mode nd) Hk eq_refl) as (He & Hf & Ho & Hi).
  split; [done|]. split; [done|]. split; [done|]. split; [done|].
  rewrite inode_at_number, Hk in Hs. injection Hs as <- <-. eexists. split; [exact Hi|]. cbn.
  apply andb_true_iff in Hm as [H0 H1]. apply Z.leb_le in H0. apply Z.ltb_lt in H1.
  assert (Z.land mode S_IFMT = 0) as Hlow.
  { assert (Z.land mode (Z.ones 12) = mode) as <- by (rewrite Z.land_ones by lia; by apply Z.mod_small).
    rewrite <- Z.land_assoc. apply Z.land_0_r. }
  split; [done|]. split; [done|]. split; [|split; [|done]].
  - rewrite Z.land_lor_distr_l, <- Z.land_assoc, Hlow, Z.lor_0_r. by rewrite (Z.land_diag S_IFMT).
  - intros _. unfold S_IMODE. rewrite Z.land_lor_distr_l, <- Z.land_assoc. change (Z.land S_IFMT 4095) with 0.
    rewrite Z.land_0_r, Z.lor_0_l. change 4095 with (Z.ones 12). rewrite Z.land_ones by lia. by apply Z.mod_small.
Qed.
Lemma write_run fd i s c w r w' : opened w fd = Some i → inode_at w i = Some (s, ""%string) → write_synced fd c w = (r, w') →
  entries_same w w' ∧ fds_kept w w' ∧ (∀ j, j ≠ i → inode_at w' j = inode_at w j) ∧
  ∃ t, inode_at w' i = Some (s, t) ∧ (r = Ok tt → t = c).
Proof.
  intros Hfd Hs. cbn [write_synced host_calls]. destruct (opened_run_cases _ _ _ Hfd) as [(k & nd & -> & Hk & ->)|[Hn _]]; [|congruence].
  destruct (h_full w).
  { intros [= <- <-]. split; [done|]. split; [by intros ? ?|]. split; [done|]. by exists ""%string. }
  intros [= <- <-]. destruct (insert_changes w k nd (with_text c nd) Hk eq_refl) as (He & Hf & Ho & Hi).
  split; [done|]. split; [done|]. split; [done|]. exists c. split; [|done]. rewrite Hi.
  rewrite inode_at_number, Hk in Hs. by injection Hs as <- _.
Qed.
Lemma close_run fd w r w' : close fd w = (r, w') →
  entries_same w w' ∧ (∀ i, inode_at w' i = inode_at w i) ∧ r ≠ Err FileNotFoundError ∧
  ∀ fd' i, fd' ≠ fd → opened w fd' = Some i → opened w' fd' = Some i.
Proof.
  intros [= <- <-]. split; [done|]. split; [done|]. split; [done|]. intros fd' i Hne. cbn.
  assert (descriptor fd' (filter (λ p, p.1 ≠ fd) (h_fds w)) = descriptor fd' (h_fds w)) as ->; [|done].
  induction (h_fds w) as [|[g d] l IH]; [done|]. rewrite filter_cons. cbn. destruct (decide (g ≠ fd)) as [Hg|Hg]; cbn; rewrite IH; [done|].
  destruct (Z.eqb_spec g fd'); [|done]. by destruct Hg as []; congruence.
Qed.
Lemma replace_run dfd d a b w r w' : opened w dfd = Some d → replace dfd a b w = (r, w') →
  (∃ e, r = Err e) ∧ w' = w ∨ ∃ k, r = Ok tt ∧ find (snd d, a) (h_nodes w) = Some k ∧ w' = renamed (snd d) a b k w ∧ d = (0, snd d).
Proof.
  intros Hd. cbn [replace host_calls]. destruct (at_directory_run dfd d (λ d w, match find (d, a) (h_nodes w) with
    | Some k => (Ok tt, set_nodes (alter (named (d, b)) k (forget [(d, a); (d, b)] <$> h_nodes w)) w)
    | None => (Err FileNotFoundError, w) end) w Hd) as [-> Hd0].
  destruct (find _ _) as [k|]; intros [= <- <-]; [right; by exists k|left; eauto].
Qed.
Lemma unlink_run dfd d n w r w' : opened w dfd = Some d → unlink dfd n w = (r, w') →
  match r with
  | Err e => unchanged w w'
  | Ok _ => fds_kept w w' ∧ entries_except d [n] w w' ∧ entry_at w' d n = None ∧
      (∀ i, entry_at w d n ≠ Some i → inode_at w' i = inode_at w i) ∧
      ∀ i s t d' n', entry_at w' d' n' = Some i → inode_at w i = Some (s, t) → ∃ s', inode_at w' i = Some (s', t)
  end.
Proof.
  intros Hd. cbn [unlink host_calls]. destruct (at_directory_run dfd d (λ d w, match find (d, n) (h_nodes w) with
    | Some _ => (Ok tt, set_nodes (forget [(d, n)] <$> h_nodes w) w)
    | None => (Err FileNotFoundError, w) end) w Hd) as [-> Hd0].
  destruct (find _ _) as [k|]; intros [= <- <-]; [|done]. destruct (forget_changes w (snd d) n) as (He & Hn & Hi & Ht).
  rewrite Hd0. cbn [snd]. split; [by intros ? ?|]. split; [done|]. split; [done|]. split; [done|]. intros i s t _ _ _. apply Ht.
Qed.
#[export] Instance host_laws : PosixLaws.
Proof.
  split.
  - intros w i s t (k & nd & -> & _ & -> & _)%inode_at_inv. done.
  - intros w d n i. cbn. unfold entry. destruct (_ =? 0); [|done]. intros (k & Hk & ->)%fmap_Some.
    destruct (find_node _ _ _ Hk) as (nd & Hnd & _). rewrite node_at_number, Hnd. by eexists.
  - intros w [dv d] n [dv' d'] n' i s t. cbn. unfold entry. cbn. destruct (Z.eqb_spec dv 0) as [->|]; [|done].
    destruct (Z.eqb_spec dv' 0) as [->|]; [|done]. intros (k & Hk & ->)%fmap_Some (k' & Hk' & <-%number_inj)%fmap_Some _ _.
    by pose proof (find_unique _ _ _ _ Hk Hk') as [= -> ->].
  - intros w r w' (-> & Hw & _ & Ho)%open_number_run. split; [done|]. by intros ? [= <-].
  - apply open_directory_run.
  - apply mkdir_run.
  - apply open_file_run.
  - intros fd i w r w' Hfd. cbn [fstat host_calls]. destruct (opened_run_cases _ _ _ Hfd) as [(k & nd & -> & Hk & ->)|[_ ->]]; intros [= <- <-];
      (split; [done|]); (split; [done|]); [|done]. intros s [= <-]. exists (n_text nd). by rewrite inode_at_number, Hk.
  - intros dfd d n w r w' Hd. cbn [stat_at host_calls]. destruct (at_directory_run dfd d (λ d w, match find (d, n) (h_nodes w) with
      | Some k => (from_option (λ nd, Ok (stat_of (h_nodes w) k nd)) (Err OtherOSError) (h_nodes w !! k), w)
      | None => (Err FileNotFoundError, w) end) w Hd) as [-> Hd0]. cbn. unfold entry. rewrite Hd0. cbn.
    destruct (find _ _) as [k|] eqn:Hk; intros [= <- <-]; (split; [done|]); [|done]. 
    destruct (find_node _ _ _ Hk) as (nd & Hnd & _). rewrite Hnd. cbn. split; [done|]. intros s [= <-].
    exists (number k), (n_text nd). by rewrite node_at_number, Hnd.
  - apply changed_mode_run.
  - apply write_run.
  - intros fd i w r w' Hfd. cbn [read_all host_calls]. destruct (opened_run_cases _ _ _ Hfd) as [(k & nd & -> & Hk & ->)|[_ ->]]; intros [= <- <-];
      (split; [done|]); [|done]. intros s [= <-]. eexists _, (n_text nd). by rewrite inode_at_number, Hk.
  - by intros fd w r w' [= <- <-].
  - apply close_run.
  - intros dfd d a b w r w' Hab Hd [[[e ->] ->]|(k & -> & Hk & -> & Hd0)]%(replace_run _ d); [done| |done].
    destruct (renamed_changes (snd d) a b k w Hab Hk) as (He & Hn & Hm & Hi). rewrite <- Hd0 in *. split; [by intros ? ?|]. auto.
  - intros dfd d a b w w' Hd [[[e [=]] _]|(k & _ & Hk & -> & _)]%(replace_run _ d) i s t d' n _; [|done]. apply renamed_texts.
  - apply unlink_run.
Qed.

(** ** A run *)

(** The home of the user, whose state directory is not there yet. *)
Definition empty_host : host :=
  mk_host [mk_node None 16877 0 ""; mk_node (Some (0, "home"%string)) 16877 0 ""; mk_node (Some (1, "me"%string)) 16832 1000 ""] [] false.
Definition token_path : Path := mk_path "/" ["home"; "me"; "state"; "token.json"].
#[local] Instance no_windows : WindowsBackend host := {|
  prepare_private_parent _ := raise UnsafeDatabasePathError;
  windows_prepare_private_database_file _ := raise UnsafeDatabasePathError;
  windows_lock _ := raise UnsafeDatabasePathError;
  windows_unlock _ _ := raise UnsafeDatabasePathError;
  windows_enforce_private_sidecars _ := raise UnsafeDatabasePathError;
  windows_guard_enter _ := raise UnsafeDatabasePathError;
  windows_guard_exit _ _ := raise UnsafeDatabasePathError;
|}.
#[local] Instance no_pathlib : PathlibCalls host := {|
  exists_path _ := raise UnsafeDatabasePathError;
  read_path _ := raise UnsafeDatabasePathError;
  write_path_synced _ _ := raise UnsafeDatabasePathError;
  replace_path _ _ := raise UnsafeDatabasePathError;
  unlink_path _ := raise UnsafeDatabasePathError;
|}.
Definition host_write (token content : text) : M host private_exn unit :=
  write_private_text false host_uid "linux" token token_path content.
(** A first write, and a second one on a full disk. *)
Definition written_host : host := (host_write "a1" "old" empty_host).2.
Definition full_host : host := mk_host (h_nodes written_host) (h_fds written_host) true.
(** The state directory is the node after the three. *)
Definition token_text (w : host) : option text := text_at w (number 3) "token.json".

Lemma private_files_are_whole_witness :
  (host_write "a1" "old" empty_host).1 = Ok tt ∧ token_text written_host = Some "old"%string ∧
  (host_write "b2" "new" full_host).1 = Err OtherOSError ∧
  token_text (host_write "b2" "new" full_host).2 = Some "old"%string ∧
  (read_private_text false host_uid "linux" token_path written_host).1 = Ok (Some "old"%string) ∧
  token_text (delete_private_file false host_uid "linux" token_path written_host).2 = None ∧
  written host_uid "a1" token_path "old" empty_host written_host (Ok tt) ∧
  written host_uid "b2" token_path "new" full_host (host_write "b2" "new" full_host).2 (Err OtherOSError) ∧
  read_from host_uid token_path written_host (read_private_text false host_uid "linux" token_path written_host).2 (Ok (Some "old"%string)).
Proof.
  do 6 (split; [vm_compute; reflexivity|]).
  split; [|split].
  - apply (private_files_are_whole host_uid "linux" "a1" token_path "old" empty_host). vm_compute. reflexivity.
  - apply (private_files_are_whole host_uid "linux" "b2" token_path "new" full_host). vm_compute. reflexivity.
  - apply (private_files_are_whole host_uid "linux" "" token_path "" written_host). vm_compute. reflexivity.
Defined.
