(* ===== verification/WindowsPaths.v ===== *)
(** Private storage on Windows ([store/_windows_bindings.py], [store/_windows_dacl.py],
    [store/windows_path.py]): every object is opened without following a reparse point, its kind, its
    links and its owner are checked on the handle, and its access list is replaced by one that names
    the current user alone. *)

From S2P Require Import Prelude Runs Paths PrivatePaths PrivateFiles.
#[local] Open Scope Z_scope.

(** ** Bindings *)

Definition DACL_SECURITY_INFORMATION : Z := 4.
Definition ERROR_FILE_NOT_FOUND : Z := 2.
Definition ERROR_INSUFFICIENT_BUFFER : Z := 122.
Definition FILE_ATTRIBUTE_DIRECTORY : Z := 16.
Definition FILE_ATTRIBUTE_NORMAL : Z := 128.
Definition FILE_ATTRIBUTE_REPARSE_POINT : Z := 1024.
Definition FILE_FLAG_BACKUP_SEMANTICS : Z := 0x02000000.
Definition FILE_FLAG_OPEN_REPARSE_POINT : Z := 0x00200000.
Definition FILE_SHARE_DELETE : Z := 4.
Definition FILE_SHARE_READ : Z := 1.
Definition FILE_SHARE_WRITE : Z := 2.
Definition GENERIC_ALL : Z := 0x10000000.
Definition GENERIC_READ : Z := 0x80000000.
Definition GENERIC_WRITE : Z := 0x40000000.
(** Pointers have eight bytes. *)
Definition INVALID_HANDLE_VALUE : Z := Z.shiftl 1 (8 * 8) - 1.
Definition LOCKFILE_EXCLUSIVE_LOCK : Z := 2.
Definition NO_INHERITANCE : Z := 0.
Definition OWNER_SECURITY_INFORMATION : Z := 1.
Definition PROTECTED_DACL_SECURITY_INFORMATION : Z := 0x80000000.
Definition READ_CONTROL : Z := 0x00020000.
Definition SE_FILE_OBJECT : Z := 1.
Definition SET_ACCESS : Z := 2.
Definition SUB_CONTAINERS_AND_OBJECTS_INHERIT : Z := 3.
Definition TOKEN_QUERY : Z := 8.
Definition TOKEN_OWNER : Z := 4.
Definition TOKEN_USER : Z := 1.
Definition TRUSTEE_IS_SID : Z := 0.
Definition TRUSTEE_IS_UNKNOWN : Z := 0.
Definition WRITE_DAC : Z := 0x00040000.

(** The structures; a pointer is [None] when it is null. *)
Record _SidAndAttributes := mk_sid_and_attributes { sa_sid : option Z; sa_attributes : Z }.
Record TokenUser := mk_token_user { tu_user : _SidAndAttributes }.
Record TokenOwner := mk_token_owner { to_owner : option Z }.
Record _TrusteeW := mk_trustee {
  tr_multiple_trustee : option Z; tr_multiple_trustee_operation : Z;
  tr_trustee_form : Z; tr_trustee_type : Z; tr_name : option Z }.
Record ExplicitAccessW := mk_explicit_access {
  ea_access_permissions : Z; ea_access_mode : Z; ea_inheritance : Z; ea_trustee : _TrusteeW }.
Record ByHandleFileInformation := mk_file_information {
  fi_file_attributes : Z; fi_creation_time : Z; fi_last_access_time : Z; fi_last_write_time : Z;
  fi_volume_serial_number : Z; fi_file_size_high : Z; fi_file_size_low : Z; fi_number_of_links : Z;
  fi_file_index_high : Z; fi_file_index_low : Z }.
(** What [GetTokenInformation] writes to a buffer: both classes the source asks for start with a
    pointer, and the user's attributes follow. *)
Record TokenBuffer := mk_token_buffer { tb_pointer : option Z; tb_attributes : Z }.
Definition token_user_of (b : TokenBuffer) : TokenUser := mk_token_user (mk_sid_and_attributes (tb_pointer b) (tb_attributes b)).
Definition token_owner_of (b : TokenBuffer) : TokenOwner := mk_token_owner (tb_pointer b).

(** The functions of kernel32 and advapi32, with the values written through their pointers: a [BOOL]
    or an error code first.  A buffer is the size given, [None] for no buffer.  [make_directories] is
    [mkdir(parents=True, exist_ok=True)]: the [errno] of its [OSError], or success. *)
Class Win32 (W : Type) := {
  create_file : text → Z → Z → Z → Z → W → Z * W;
  close_handle : Z → W → Z * W;
  current_process : W → Z;
  file_information : Z → W → option ByHandleFileInformation * W;
  local_free : Z → W → option Z * W;
  lock_file : Z → Z → Z → W → Z * W;
  unlock_file : Z → Z → W → Z * W;
  equal_sid : Z → Z → W → Z * W;
  get_security_info : Z → Z → Z → W → (Z * option Z * option Z) * W;
  get_token_information : Z → Z → option Z → W → (Z * Z * TokenBuffer) * W;
  open_process_token : Z → Z → W → (Z * option Z) * W;
  set_entries_in_acl : ExplicitAccessW → W → (Z * option Z) * W;
  set_security_info : Z → Z → Z → Z → W → Z * W;
  get_last_error : W → Z;
  make_directories : Path → W → option Z * W;
}.

(** An [UnsafeDatabasePathError], with the [errno] of the [OSError] that is its cause. *)
Record unsafe_error := mk_unsafe { us_cause : option Z }.

Section Calls.
Context {W : Type} {F : Win32 W}.
Abbreviation op A := (M W unsafe_error A).
Definition call {A} (f : W → A * W) : op A := λ w, let '(a, w') := f w in (Ok a, w').
Definition unsafe {A} : op A := raise (mk_unsafe None).
Definition _raise_error_code {A} (error_code : Z) : op A := raise (mk_unsafe (Some error_code)).
Definition _raise_last_error {A} : op A := code ← gets get_last_error; _raise_error_code code.
Definition _win32_error_code (e : unsafe_error) : option Z := us_cause e.

(** ** Access lists *)

(** [_close_handle] of [_windows_dacl.py]. *)
Definition close_token (handle : Z) : op unit :=
  ok ← call (close_handle handle);
  if ok =? 0 then _raise_last_error else mret tt.
Definition _token_information (token information_class : Z) : op TokenBuffer :=
  first ← call (get_token_information token information_class None);
  code ← gets get_last_error;
  if negb (code =? ERROR_INSUFFICIENT_BUFFER) then _raise_last_error else
  second ← call (get_token_information token information_class (Some first.1.2));
  if second.1.1 =? 0 then _raise_last_error else mret second.2.
Definition open_current_token : op Z :=
  process ← gets current_process;
  opened ← call (open_process_token process TOKEN_QUERY);
  if opened.1 =? 0 then _raise_last_error else
  match opened.2 with None => unsafe | Some token => mret token end.
(** The [finally] of [require_current_user_owner]. *)
Definition release_owner (token : Z) (descriptor : option Z) : op unit :=
  (match descriptor with Some d => call (local_free d);; mret tt | None => mret tt end);;
  close_token token.
Definition verify_owner (token_user : TokenUser) (token_owner : TokenOwner) (error_code : Z) (owner : option Z) : op unit :=
  if negb (error_code =? 0) then _raise_error_code error_code else
  match owner, sa_sid (tu_user token_user), to_owner token_owner with
  | Some owner, Some user, Some default =>
    owner_matches_user ← call (equal_sid owner user);
    owner_matches_default ← call (equal_sid owner default);
    if (owner_matches_user =? 0) && (owner_matches_default =? 0) then unsafe else mret tt
  | _, _, _ => unsafe
  end.
Definition require_current_user_owner (handle : Z) : op unit :=
  token ← open_current_token;
  buffers ← try_except
    (user_buffer ← _token_information token TOKEN_USER;
     owner_buffer ← _token_information token TOKEN_OWNER;
     mret (user_buffer, owner_buffer))
    (λ e, release_owner token None;; raise e);
  security ← call (get_security_info handle SE_FILE_OBJECT OWNER_SECURITY_INFORMATION);
  finally_do
    (verify_owner (token_user_of buffers.1) (token_owner_of buffers.2) security.1.1 security.1.2)
    (release_owner token security.2).

(** The SID of the process's user, read through its token. *)
Definition current_user_sid (token : Z) : op Z :=
  first ← call (get_token_information token TOKEN_USER None);
  if negb (first.1.1 =? 0) then unsafe else
  code ← gets get_last_error;
  if negb (code =? ERROR_INSUFFICIENT_BUFFER) then _raise_last_error else
  second ← call (get_token_information token TOKEN_USER (Some first.1.2));
  if second.1.1 =? 0 then _raise_last_error else
  match sa_sid (tu_user (token_user_of second.2)) with None => unsafe | Some sid => mret sid end.
Definition private_entry (inheritance sid : Z) : ExplicitAccessW :=
  mk_explicit_access GENERIC_ALL SET_ACCESS inheritance
    (mk_trustee None NO_INHERITANCE TRUSTEE_IS_SID TRUSTEE_IS_UNKNOWN (Some sid)).
Definition _current_user_dacl (inheritance : Z) : op Z :=
  token ← open_current_token;
  sid ← finally_do (current_user_sid token) (close_token token);
  entries ← call (set_entries_in_acl (private_entry inheritance sid));
  if negb (entries.1 =? 0) then _raise_error_code entries.1 else
  match entries.2 with None => unsafe | Some acl => mret acl end.
Definition set_private_dacl (handle inheritance : Z) : op unit :=
  acl ← _current_user_dacl inheritance;
  try_except
    (error_code ← call (set_security_info handle SE_FILE_OBJECT
       (Z.lor DACL_SECURITY_INFORMATION PROTECTED_DACL_SECURITY_INFORMATION) acl);
     if negb (error_code =? 0) then _raise_error_code error_code else mret tt)
    (λ e, call (local_free acl);; raise e);;
  freed ← call (local_free acl);
  match freed with Some _ => _raise_last_error | None => mret tt end.

(** ** Handles *)

Definition _OPEN_ALWAYS : Z := 4.
Definition _OPEN_EXISTING : Z := 3.
Definition shared : Z := Z.lor (Z.lor FILE_SHARE_READ FILE_SHARE_WRITE) FILE_SHARE_DELETE.
Definition pinning : Z := Z.lor FILE_SHARE_READ FILE_SHARE_WRITE.
Definition private_access : Z := Z.lor (Z.lor (Z.lor GENERIC_READ GENERIC_WRITE) READ_CONTROL) WRITE_DAC.
Definition directory_flags : Z := Z.lor FILE_FLAG_BACKUP_SEMANTICS FILE_FLAG_OPEN_REPARSE_POINT.
Definition regular_flags : Z := Z.lor FILE_FLAG_OPEN_REPARSE_POINT FILE_ATTRIBUTE_NORMAL.

Definition _close_handle (handle : Z) : op unit :=
  if handle =? INVALID_HANDLE_VALUE then mret tt else close_token handle.
Definition _open_path (file_path : Path) (creation_disposition flags_and_attributes share_mode : Z) : op Z :=
  handle ← call (create_file (windows_text file_path) private_access share_mode creation_disposition flags_and_attributes);
  if handle =? INVALID_HANDLE_VALUE then _raise_last_error else mret handle.
Definition _file_information (handle : Z) : op ByHandleFileInformation :=
  information ← call (file_information handle);
  match information with None => _raise_last_error | Some i => mret i end.
Definition _verify_directory (handle : Z) : op unit :=
  information ← _file_information handle;
  if Z.land (fi_file_attributes information) FILE_ATTRIBUTE_DIRECTORY =? 0 then unsafe else
  if negb (Z.land (fi_file_attributes information) FILE_ATTRIBUTE_REPARSE_POINT =? 0) then unsafe else mret tt.
Definition _verify_regular_file (handle : Z) : op unit :=
  information ← _file_information handle;
  if negb (Z.land (fi_file_attributes information) FILE_ATTRIBUTE_DIRECTORY =? 0) then unsafe else
  if negb (Z.land (fi_file_attributes information) FILE_ATTRIBUTE_REPARSE_POINT =? 0) then unsafe else
  if negb (fi_number_of_links information =? 1) then unsafe else mret tt.
Definition _open_regular_file (file_path : Path) (creation_disposition share_mode : Z) : op Z :=
  handle ← _open_path file_path creation_disposition regular_flags share_mode;
  try_except (_verify_regular_file handle;; require_current_user_owner handle)
    (λ e, _close_handle handle;; raise e);;
  mret handle.
Definition _open_existing_regular_file (file_path : Path) : op (option Z) :=
  try_except (h ← _open_regular_file file_path _OPEN_EXISTING shared; mret (Some h))
    (λ e, if bool_decide (_win32_error_code e = Some ERROR_FILE_NOT_FOUND) then mret None else raise e).
(** One byte at the start of the file. *)
Definition _lock_file (handle : Z) : op unit :=
  ok ← call (lock_file handle LOCKFILE_EXCLUSIVE_LOCK 1);
  if ok =? 0 then _raise_last_error else mret tt.
Definition _unlock_file (handle : Z) : op unit :=
  ok ← call (unlock_file handle 1);
  if ok =? 0 then _raise_last_error else mret tt.

(** ** The backend *)

Definition _secure_directory (directory : Path) : op unit :=
  handle ← _open_path directory _OPEN_EXISTING directory_flags shared;
  finally_do
    (_verify_directory handle;;
     require_current_user_owner handle;;
     set_private_dacl handle SUB_CONTAINERS_AND_OBJECTS_INHERIT)
    (_close_handle handle).
Definition _secure_regular_file (file_path : Path) (creation_disposition : Z) : op unit :=
  handle ← _open_regular_file file_path creation_disposition shared;
  finally_do (set_private_dacl handle NO_INHERITANCE) (_close_handle handle).
Definition win32_prepare_private_parent (path : Path) : op unit :=
  failed ← call (make_directories (parent path));
  match failed with
  | Some errno => raise (mk_unsafe (Some errno))
  | None => _secure_directory (parent path)
  end.
Definition sidecar (path : Path) (suffix : text) : Path := with_name path (name path +:+ suffix)%string.
Definition secure_sidecar (path : Path) (suffix : text) : op unit :=
  handle ← _open_existing_regular_file (sidecar path suffix);
  match handle with
  | None => mret tt
  | Some handle => finally_do (set_private_dacl handle NO_INHERITANCE) (_close_handle handle)
  end.
Definition win32_enforce_private_sidecars (path : Path) : op unit :=
  _secure_regular_file path _OPEN_EXISTING;;
  secure_sidecar path "-wal";;
  secure_sidecar path "-shm".
Definition win32_prepare_private_database_file (path : Path) : op unit :=
  _secure_regular_file path _OPEN_ALWAYS;;
  win32_enforce_private_sidecars path.
(** [private_initialization_lock]: what it does before its [yield], and in its two [finally]s. *)
Definition lock_path (path : Path) : Path := with_name path ("." +:+ name path +:+ ".init.lock")%string.
Definition win32_lock (path : Path) : op Z :=
  handle ← _open_regular_file (lock_path path) _OPEN_ALWAYS shared;
  try_except (set_private_dacl handle NO_INHERITANCE;; _lock_file handle)
    (λ e, _close_handle handle;; raise e);;
  mret handle.
Definition win32_unlock (handle : Z) : op unit := finally_do (_unlock_file handle) (_close_handle handle).
(** [private_database_guard]: before its [yield], and its [finally]. *)
Definition win32_guard_exit (guard : Z * Z) : op unit := _close_handle guard.2;; _close_handle guard.1.
Definition win32_guard_enter (path : Path) : op (Z * Z) :=
  parent_handle ← _open_path (parent path) _OPEN_EXISTING directory_flags pinning;
  database_handle ← try_except
    (_verify_directory parent_handle;;
     require_current_user_owner parent_handle;;
     _open_regular_file path _OPEN_EXISTING pinning)
    (λ e, win32_guard_exit (parent_handle, INVALID_HANDLE_VALUE);; raise e);
  mret (parent_handle, database_handle).

(** What the rest of the store sees. *)
Definition unsafe_path {A} (m : op A) : M W private_exn A := try_except m (λ _, raise UnsafeDatabasePathError).
#[export] Instance win32_backend : WindowsBackend W := {|
  prepare_private_parent path := unsafe_path (win32_prepare_private_parent path);
  windows_prepare_private_database_file path := unsafe_path (win32_prepare_private_database_file path);
  windows_lock path := unsafe_path (win32_lock path);
  windows_unlock _ handle := unsafe_path (win32_unlock handle);
  windows_enforce_private_sidecars path := unsafe_path (win32_enforce_private_sidecars path);
  windows_guard_enter path := unsafe_path (win32_guard_enter path);
  windows_guard_exit _ guard := unsafe_path (win32_guard_exit guard);
|}.
End Calls.
