(* ===== verification/WindowsSafety.v ===== *)
(** What private storage on Windows promises: the calls of [WindowsPaths] give private objects, change
    nothing but access lists, and keep no handle but those of a lock or a guard. *)
From Stdlib Require Import Ascii.
From stdpp Require Import gmap.
From S2P Require Import Prelude Runs Paths PrivatePaths PrivateFiles WindowsPaths.
#[local] Open Scope Z_scope.

(** ** What the calls promise *)

(** What can be observed.  An access list is protected from inheritance or not, and holds entries
    that allow; an object is a file or a directory.  A pointer is the address of a SID or of an
    allocated list: addresses are not given out again, as blocks of memory in a C semantics are not. *)
Abbreviation sid := text.
Record ace := mk_ace { ace_sid : sid; ace_permissions : Z; ace_inheritance : Z }.
Record dacl := mk_dacl { dacl_protected : bool; dacl_entries : list ace }.
Record object := mk_object { ob_attributes : Z; ob_links : Z; ob_owner : sid; ob_dacl : dacl }.
#[export] Instance ace_eq_dec : EqDecision ace.
Proof. solve_decision. Defined.
#[export] Instance dacl_eq_dec : EqDecision dacl.
Proof. solve_decision. Defined.
Class Win32World (W : Type) := {
  handles : W → gset Z;
  blocks : W → gset Z;
  object_of : W → Z → option Z;
  share_of : W → Z → Z;
  is_own_token : W → Z → bool;
  object_at : W → Z → option object;
  resolved : W → text → option Z;
  sid_at : W → Z → option sid;
  acl_at : W → Z → option (list ace);
  current_user : sid;
  default_owner : sid;
}.

Section Laws.
Context {W : Type} {F : Win32 W} {V : Win32World W}.

(** What a handle is open at; what the files are; which SIDs can be read. *)
Definition handle_view (w : W) (h : Z) : option Z * Z * bool := (object_of w h, share_of w h, is_own_token w h).
Definition same_files (w w' : W) : Prop :=
  (∀ o, object_at w' o = object_at w o) ∧ ∀ p, resolved w' p = resolved w p.
Definition sids_kept (w w' : W) : Prop := ∀ p s, sid_at w p = Some s → sid_at w' p = Some s.
(** Nothing happened but the last error, and more SIDs may be readable. *)
Definition quiet (w w' : W) : Prop :=
  handles w' = handles w ∧ blocks w' = blocks w ∧ (∀ h, handle_view w' h = handle_view w h) ∧ same_files w w' ∧ sids_kept w w'.
Definition with_dacl (f : object) (d : dacl) : object := mk_object (ob_attributes f) (ob_links f) (ob_owner f) d.
Definition is_directory (f : object) : Prop := Z.land (ob_attributes f) FILE_ATTRIBUTE_DIRECTORY ≠ 0.
(** [q] is the name of something within the directory named [p]. *)
Definition under (p q : text) : bool :=
  String.prefix (if bool_decide (String.get (pred (String.length p)) p = Some "\"%char) then p else p +:+ "\"%string) q.
Definition contains (w : W) (o k : Z) : Prop :=
  ∃ p q, resolved w p = Some o ∧ resolved w q = Some k ∧ under p q = true.
(** The unprotected list of [g] became another unprotected one. *)
Definition inherited (g : object) (w' : W) (k : Z) : Prop :=
  ∃ d, dacl_protected (ob_dacl g) = false ∧ dacl_protected d = false ∧ object_at w' k = Some (with_dacl g d).
(** Objects are made, and no old one changes. *)
Definition grown (w w' : W) : Prop :=
  (∀ o, is_Some (object_at w o) → object_at w' o = object_at w o) ∧ ∀ p, is_Some (resolved w p) → resolved w' p = resolved w p.

Class Win32Laws : Prop := {
  (** A failed open changes nothing, and tells a missing name; an open handle is new and at an object. *)
  create_file_law path acc share disposition flags w h w' :
    create_file path acc share disposition flags w = (h, w') →
    blocks w' = blocks w ∧ (∀ k, k ∈ handles w → handle_view w' k = handle_view w k) ∧
    if bool_decide (h = INVALID_HANDLE_VALUE)
    then handles w' = handles w ∧ same_files w w' ∧ (get_last_error w' = ERROR_FILE_NOT_FOUND → resolved w path = None)
    else h ∉ handles w ∧ handles w' = {[h]} ∪ handles w ∧ share_of w' h = share ∧ grown w w' ∧
         (disposition = _OPEN_EXISTING → same_files w w') ∧
         ∃ o f, object_of w' h = Some o ∧ resolved w' path = Some o ∧ object_at w' o = Some f;
  close_handle_law h w r w' :
    close_handle h w = (r, w') → h ∈ handles w →
    r ≠ 0 ∧ handles w' = handles w ∖ {[h]} ∧ blocks w' = blocks w ∧ same_files w w' ∧ sids_kept w w' ∧
    ∀ k, k ≠ h → handle_view w' k = handle_view w k;
  (** An answer about an open handle is never that a name is missing. *)
  file_information_law h w r w' :
    file_information h w = (r, w') →
    quiet w w' ∧ match r with
      | None => get_last_error w' ≠ ERROR_FILE_NOT_FOUND
      | Some i => ∀ o f, object_of w h = Some o → object_at w o = Some f →
          fi_file_attributes i = ob_attributes f ∧ fi_number_of_links i = ob_links f
      end;
  lock_file_law h flags n w r w' : lock_file h flags n w = (r, w') → quiet w w';
  unlock_file_law h n w r w' : unlock_file h n w = (r, w') → quiet w w';
  equal_sid_law p q w r w' :
    equal_sid p q w = (r, w') → quiet w w' ∧ (r ≠ 0 → ∃ s, sid_at w p = Some s ∧ sid_at w q = Some s);
  open_process_token_law rights w r token w' :
    open_process_token (current_process w) rights w = (r, token, w') →
    blocks w' = blocks w ∧ same_files w w' ∧ (∀ k, k ∈ handles w → handle_view w' k = handle_view w k) ∧
    (r = 0 → get_last_error w' ≠ ERROR_FILE_NOT_FOUND) ∧
    match token with
    | Some t => if r =? 0 then handles w' = handles w
                else t ∉ handles w ∧ handles w' = {[t]} ∪ handles w ∧ is_own_token w' t = true
    | None => handles w' = handles w
    end;
  (** Without a buffer the call fails. *)
  get_token_information_law token class size w r n b w' :
    get_token_information token class size w = (r, n, b, w') → is_own_token w token = true →
    quiet w w' ∧ (r = 0 → get_last_error w' ≠ ERROR_FILE_NOT_FOUND) ∧ (size = None → r = 0) ∧
    ∀ p, r ≠ 0 → tb_pointer b = Some p →
      (class = TOKEN_USER → sid_at w' p = Some current_user) ∧ (class = TOKEN_OWNER → sid_at w' p = Some default_owner);
  get_security_info_law h w code owner descriptor w' :
    get_security_info h SE_FILE_OBJECT OWNER_SECURITY_INFORMATION w = (code, owner, descriptor, w') →
    handles w' = handles w ∧ (∀ k, handle_view w' k = handle_view w k) ∧ same_files w w' ∧ sids_kept w w' ∧
    code ≠ ERROR_FILE_NOT_FOUND ∧
    match descriptor with Some d => d ∉ blocks w ∧ blocks w' = {[d]} ∪ blocks w | None => blocks w' = blocks w end ∧
    ∀ p o f, code = 0 → owner = Some p → object_of w h = Some o → object_at w o = Some f → sid_at w' p = Some (ob_owner f);
  (** A list built from one entry that sets the access of a SID. *)
  set_entries_in_acl_law entry w code acl w' :
    set_entries_in_acl entry w = (code, acl, w') →
    handles w' = handles w ∧ (∀ k, handle_view w' k = handle_view w k) ∧ same_files w w' ∧
    if code =? 0
    then match acl with
         | None => blocks w' = blocks w
         | Some a => a ∉ blocks w ∧ blocks w' = {[a]} ∪ blocks w ∧
             ∀ p s, ea_access_mode entry = SET_ACCESS → tr_trustee_form (ea_trustee entry) = TRUSTEE_IS_SID →
               tr_name (ea_trustee entry) = Some p → sid_at w p = Some s →
               acl_at w' a = Some [mk_ace s (ea_access_permissions entry) (ea_inheritance entry)]
         end
    else blocks w' = blocks w;
  (** The list is set when the information asks for it, protected when it asks for that; what is
      within a directory inherits its entries anew, unless its own list is protected.  A call that
      failed may have done any part of this. *)
  set_security_info_law h information acl entries w code w' :
    set_security_info h SE_FILE_OBJECT information acl w = (code, w') →
    acl_at w acl = Some entries → Z.testbit information 2 = true →
    handles w' = handles w ∧ blocks w' = blocks w ∧ (∀ k, handle_view w' k = handle_view w k) ∧
    (∀ p, resolved w' p = resolved w p) ∧
    (∀ o f, object_of w h = Some o → object_at w o = Some f →
       (code ≠ 0 ∧ object_at w' o = Some f) ∨ object_at w' o = Some (with_dacl f (mk_dacl (Z.testbit information 31) entries))) ∧
    (∀ k, object_of w h ≠ Some k → object_at w' k = object_at w k ∨
       ∃ o f g, object_of w h = Some o ∧ object_at w o = Some f ∧ is_directory f ∧ contains w o k ∧
         object_at w k = Some g ∧ inherited g w' k);
  local_free_law b w r w' :
    local_free b w = (r, w') → b ∈ blocks w →
    r = None ∧ blocks w' = blocks w ∖ {[b]} ∧ handles w' = handles w ∧ (∀ k, handle_view w' k = handle_view w k) ∧ same_files w w';
  make_directories_law path w r w' :
    make_directories path w = (r, w') →
    handles w' = handles w ∧ blocks w' = blocks w ∧ (∀ k, handle_view w' k = handle_view w k) ∧ grown w w';
}.
End Laws.
Arguments Win32Laws W {F V}.

(** ** The calls compose *)

Section Kept.
Context {W : Type} {F : Win32 W} {V : Win32World W} {L : Win32Laws W}.
Implicit Types w : W.

#[export] Instance same_files_preorder : PreOrder (same_files (W := W)).
Proof. split; [done|]. intros w1 w2 w3 [H1 H2] [H3 H4]. split; intros ?; congruence. Qed.
Lemma view_object w w' k : handle_view w' k = handle_view w k → object_of w' k = object_of w k.
Proof. unfold handle_view. congruence. Qed.
Lemma view_token w w' k : handle_view w' k = handle_view w k → is_own_token w' k = is_own_token w k.
Proof. unfold handle_view. congruence. Qed.
(** What was open and allocated is again, and no file changed. *)
Definition calm w w' : Prop :=
  handles w' = handles w ∧ blocks w' = blocks w ∧ (∀ k, k ∈ handles w → handle_view w' k = handle_view w k) ∧ same_files w w'.
#[export] Instance calm_preorder : PreOrder calm.
Proof.
  split; [done|]. intros w1 w2 w3 (H1 & H2 & H3 & H4) (H5 & H6 & H7 & H8).
  split; [congruence|]. split; [congruence|]. split; [|by etrans].
  intros k Hk. rewrite H7, H3; [done|done|by rewrite H1].
Qed.
#[export] Instance quiet_preorder : PreOrder (quiet (W := W)).
Proof.
  split; [by intros w; do 4 (split; [done|]); intros p s|]. intros w1 w2 w3 (H1 & H2 & H3 & H4 & H5) (H6 & H7 & H8 & H9 & H10).
  split; [congruence|]. split; [congruence|]. split; [intros k; congruence|]. split; [by etrans|]. intros p s Hs. auto.
Qed.
Lemma quiet_calm w w' : quiet w w' → calm w w'.
Proof. intros (H1 & H2 & H3 & H4 & _). split; [done|]. split; [done|]. by split. Qed.
#[local] Hint Resolve quiet_calm : core.

(** [t] was opened, and [d] allocated when it is given. *)
Definition taken w (t : Z) (d : option Z) w' : Prop :=
  t ∉ handles w ∧ handles w' = {[t]} ∪ handles w ∧
  match d with Some d => d ∉ blocks w ∧ blocks w' = {[d]} ∪ blocks w | None => blocks w' = blocks w end ∧
  (∀ k, k ∈ handles w → handle_view w' k = handle_view w k) ∧ same_files w w'.
Lemma taken_calm w t d w1 w2 : taken w t d w1 → calm w1 w2 → taken w t d w2.
Proof.
  intros (H1 & H2 & H3 & H4 & H5) (H6 & H7 & H8 & H9). split; [done|]. split; [congruence|].
  split; [destruct d; [destruct H3; split; [done|congruence]|congruence]|]. split; [|by etrans].
  intros k Hk. rewrite H8, H4; [done|done|]. rewrite H2. set_solver.
Qed.
Lemma calm_taken w w1 t d w2 : calm w w1 → taken w1 t d w2 → taken w t d w2.
Proof.
  intros (H6 & H7 & H8 & H9) (H1 & H2 & H3 & H4 & H5). rewrite H6, H7 in *. split; [done|]. split; [done|].
  split; [done|]. split; [|by etrans]. intros k Hk. rewrite H4, H8; [done|done|done].
Qed.
(** Freeing and closing give back what was taken. *)
Lemma taken_freed w t d w1 r w2 : taken w t (Some d) w1 → local_free d w1 = (r, w2) → r = None ∧ taken w t None w2.
Proof.
  intros (H1 & H2 & [H3 H3'] & H4 & H5) Hf. apply local_free_law in Hf; [|set_solver].
  destruct Hf as (Hr & Hb & Hh & Hv & Hs). split; [done|]. split; [done|]. split; [congruence|].
  split; [rewrite Hb, H3'; set_solver|]. split; [|by etrans]. intros k Hk. rewrite Hv. by apply H4.
Qed.
Lemma taken_closed w t w1 r w2 : taken w t None w1 → close_handle t w1 = (r, w2) → r ≠ 0 ∧ calm w w2 ∧ sids_kept w1 w2.
Proof.
  intros (H1 & H2 & H3 & H4 & H5) Hc. apply close_handle_law in Hc; [|set_solver].
  destruct Hc as (Hr & Hh & Hb & Hs & Hk & Hv). split; [done|]. split; [|done].
  split; [rewrite Hh, H2; set_solver|]. split; [congruence|]. split; [|by etrans].
  intros k Hin. rewrite Hv by (intros ->; by apply H1). by apply H4.
Qed.

(** Rules of the plain calls. *)
Lemma wp_call {A} (f : W → A * W) (Q : res unsafe_error A → W → Prop) w :
  (∀ a w', f w = (a, w') → Q (Ok a) w') → wp (call f) Q w.
Proof. unfold wp, call. destruct (f w) as [a w'] eqn:H. intros HQ. cbn. by apply HQ. Qed.
Lemma wp_last_error {A} (Q : res unsafe_error A → W → Prop) w :
  Q (Err (mk_unsafe (Some (get_last_error w)))) w → wp _raise_last_error Q w.
Proof. done. Qed.
Lemma wp_close_taken w t (Q : res unsafe_error () → W → Prop) w1 :
  taken w t None w1 → (∀ w2, calm w w2 → sids_kept w1 w2 → Q (Ok tt) w2) → wp (close_token t) Q w1.
Proof.
  intros Ht HQ. apply wp_bind, wp_call. intros r w2 Hc. eapply taken_closed in Hc as (Hr & Hc & Hs); [|done].
  rewrite (proj2 (Z.eqb_neq _ _) Hr). by apply wp_ret, HQ.
Qed.
Lemma wp_release_owner w t d (Q : res unsafe_error () → W → Prop) w1 :
  taken w t d w1 → (∀ w2, calm w w2 → Q (Ok tt) w2) → wp (release_owner t d) Q w1.
Proof.
  intros Ht HQ. apply wp_bind. destruct d as [d|].
  - apply wp_bind, wp_call. intros r w2 Hf. eapply taken_freed in Hf as [_ Ht2]; [|done].
    apply wp_ret. eapply wp_close_taken; [done|]. intros w3 Hc _. by apply HQ.
  - apply wp_ret. eapply wp_close_taken; [done|]. intros w3 Hc _. by apply HQ.
Qed.

(** ** Owners *)

(** An error that a missing name would give. *)
Definition missing (e : unsafe_error) : Prop := us_cause e = Some ERROR_FILE_NOT_FOUND.

Lemma wp_open_current_token w :
  wp open_current_token (λ r w', match r with
    | Ok t => taken w t None w' ∧ is_own_token w' t = true
    | Err e => calm w w' ∧ ¬ missing e
    end) w.
Proof.
  apply wp_bind, wp_gets, wp_bind, wp_call. intros [r token] w1 H. apply open_process_token_law in H as (Hb & Hs & Hv & He & Ht).
  cbn [fst snd]. destruct (r =? 0) eqn:Hr.
  - apply wp_last_error. split; [|unfold missing; intros [= H]; apply He in H; [done|lia]].
    split; [by destruct token|]. by split.
  - destruct token as [t|]; [|by apply wp_raise; split; [split; [|split]|]].
    destruct Ht as (Hn & Hh & Ho). apply wp_ret. by repeat (split; [done|]).
Qed.
Lemma wp_token_information token class w :
  is_own_token w token = true →
  wp (_token_information token class) (λ r w', quiet w w' ∧ match r with
    | Ok b => ∀ p, tb_pointer b = Some p →
        (class = TOKEN_USER → sid_at w' p = Some current_user) ∧ (class = TOKEN_OWNER → sid_at w' p = Some default_owner)
    | Err e => ¬ missing e
    end) w.
Proof.
  intros Ho. apply wp_bind, wp_call. intros [[r1 n1] b1] w1 H. apply get_token_information_law in H as (Hq1 & He1 & Hn1 & _); [|done].
  apply wp_bind, wp_gets. destruct (negb _) eqn:Hcode.
  - apply wp_last_error. split; [done|]. intros [= H]. by apply He1 in H; [|apply Hn1].
  - apply wp_bind, wp_call. intros [[r2 n2] b2] w2 H.
    assert (is_own_token w1 token = true) as Ho1 by (destruct Hq1 as (_ & _ & Hv & _); by rewrite (view_token _ _ _ (Hv token))).
    apply get_token_information_law in H as (Hq2 & He2 & _ & Hp); [|done]. cbn [fst snd].
    assert (quiet w w2) as Hq by (by etrans). destruct (r2 =? 0) eqn:Hr.
    + apply wp_last_error. split; [done|]. intros [= H]. apply He2 in H; [done|lia].
    + apply wp_ret. split; [done|]. intros p Hptr. apply Hp; [lia|done].
Qed.

Definition owned (f : object) : Prop := ob_owner f = current_user ∨ ob_owner f = default_owner.
Lemma wp_verify_owner user owner code p f w :
  code ≠ ERROR_FILE_NOT_FOUND →
  (∀ q, p = Some q → code = 0 → sid_at w q = Some (ob_owner f)) →
  (∀ q, tb_pointer user = Some q → sid_at w q = Some current_user) →
  (∀ q, tb_pointer owner = Some q → sid_at w q = Some default_owner) →
  wp (verify_owner (token_user_of user) (token_owner_of owner) code p)
    (λ r w', quiet w w' ∧ match r with Ok _ => owned f | Err e => ¬ missing e end) w.
Proof.
  intros Hcode Hp Hu Ho. unfold verify_owner. destruct (code =? 0) eqn:Hc; cbn [negb].
  2: { apply wp_raise. split; [done|]. by intros [= H]. }
  destruct p as [p|]; [|by apply wp_raise]. unfold token_user_of, token_owner_of. cbn [sa_sid tu_user to_owner].
  destruct (tb_pointer user) as [u|]; [|by apply wp_raise]. destruct (tb_pointer owner) as [d|]; [|by apply wp_raise].
  apply wp_bind, wp_call. intros r1 w1 [Hq1 H1]%equal_sid_law. apply wp_bind, wp_call. intros r2 w2 [Hq2 H2]%equal_sid_law.
  assert (quiet w w2) as Hq by (by etrans). destruct (_ && _) eqn:Hm; [by apply wp_raise|]. apply wp_ret. split; [done|].
  specialize (Hp p eq_refl ltac:(lia)). specialize (Hu u eq_refl). specialize (Ho d eq_refl).
  destruct (r1 =? 0) eqn:Hr1.
  - destruct H2 as (s & H2 & H3); [lia|]. destruct Hq1 as (_ & _ & _ & _ & Hk). apply Hk in Hp, Ho. right. congruence.
  - destruct H1 as (s & H1 & H3); [lia|]. left. congruence.
Qed.
Lemma wp_require_owner h o f w :
  object_of w h = Some o → object_at w o = Some f → h ∈ handles w →
  wp (require_current_user_owner h)
    (λ r w', calm w w' ∧ match r with Ok _ => owned f | Err e => ¬ missing e end) w.
Proof.
  intros Hh Hf Hin. apply wp_bind. eapply wp_mono; [|apply wp_open_current_token].
  intros r w1 H1. destruct r as [t|e]; [|done]. destruct H1 as [Ht Ho]. apply wp_bind, wp_try.
  apply (wp_mono _ (λ r w2, quiet w1 w2 ∧ match r with
    | Ok b => (∀ q, tb_pointer b.1 = Some q → sid_at w2 q = Some current_user) ∧ (∀ q, tb_pointer b.2 = Some q → sid_at w2 q = Some default_owner)
    | Err e => ¬ missing e
    end)).
  2: { apply wp_bind. eapply wp_mono; [|by apply wp_token_information]. intros r w2 [Hq2 H2]. destruct r as [u|e]; [|done].
    apply wp_bind. eapply wp_mono; [|apply wp_token_information].
    - intros r w3 [Hq3 H3]. destruct r as [d|e]; [|by split; [etrans|]]. apply wp_ret. split; [by etrans|].
      destruct Hq3 as (_ & _ & _ & _ & Hk). split; intros q Hptr; [by apply Hk, H2|by apply H3].
    - destruct Hq2 as (_ & _ & Hv & _). by rewrite (view_token _ _ _ (Hv t)). }
  intros r w2 [Hq2 H2]. pose proof (taken_calm _ _ _ _ _ Ht (quiet_calm _ _ Hq2)) as Ht2. destruct r as [b|e].
  2: { apply wp_bind. eapply wp_release_owner; [done|]. intros w3 Hc. by apply wp_raise. }
  destruct H2 as [Hu Hd]. apply wp_bind, wp_call. intros [[code p] d] w3 H.
  apply get_security_info_law in H as (Hh3 & Hv3 & Hs3 & Hk3 & Hc3 & Hb3 & Hp3). cbn [fst snd].
  assert (taken w t d w3) as Ht3.
  { destruct Ht2 as (H1 & H2 & H3 & H4 & H5). split; [done|]. split; [congruence|]. split.
    - destruct d; [by rewrite <- H3|congruence].
    - split; [|by etrans]. intros k Hk. rewrite Hv3. by apply H4. }
  apply wp_finally. eapply wp_mono; [|apply (wp_verify_owner _ _ _ _ f)].
  - intros r w4 [Hq4 Hr4]. eapply wp_release_owner; [by eapply taken_calm; [|apply quiet_calm]|]. intros w5 Hc5.
    destruct r; by split.
  - done.
  - intros q -> Hz. destruct Ht2 as (_ & _ & _ & Hv & [Hs _]).
    apply (Hp3 q o f); [done..| |by rewrite Hs]. by rewrite (view_object _ _ _ (Hv _ Hin)).
  - intros q Hq. by apply Hk3, Hu.
  - intros q Hq. by apply Hk3, Hd.
Qed.

(** ** Access lists *)

Definition private_dacl (inheritance : Z) : dacl := mk_dacl true [mk_ace current_user GENERIC_ALL inheritance].

Lemma wp_current_user_sid token w :
  is_own_token w token = true →
  wp (current_user_sid token) (λ r w', quiet w w' ∧ ∀ p, r = Ok p → sid_at w' p = Some current_user) w.
Proof.
  intros Ho. apply wp_bind, wp_call. intros [[r1 n1] b1] w1 H. apply get_token_information_law in H as (Hq1 & _); [|done].
  cbn [fst snd]. destruct (negb _); [by apply wp_raise|]. apply wp_bind, wp_gets. destruct (negb _); [by apply wp_last_error|].
  apply wp_bind, wp_call. intros [[r2 n2] b2] w2 H.
  apply get_token_information_law in H as (Hq2 & _ & _ & Hp).
  2: { destruct Hq1 as (_ & _ & Hv & _). by rewrite (view_token _ _ _ (Hv token)). }
  assert (quiet w w2) as Hq by (by etrans). cbn [fst snd]. destruct (r2 =? 0) eqn:Hr; [by apply wp_last_error|].
  unfold token_user_of. cbn. destruct (tb_pointer b2) as [p|]; [|by apply wp_raise]. apply wp_ret. split; [done|].
  intros q [= <-]. by apply Hp; [lia|..].
Qed.
Lemma wp_current_user_dacl inheritance w :
  wp (_current_user_dacl inheritance) (λ r w', handles w' = handles w ∧ (∀ k, k ∈ handles w → handle_view w' k = handle_view w k) ∧
    same_files w w' ∧ match r with
    | Ok acl => acl ∉ blocks w ∧ blocks w' = {[acl]} ∪ blocks w ∧ acl_at w' acl = Some (dacl_entries (private_dacl inheritance))
    | Err _ => blocks w' = blocks w
    end) w.
Proof.
  apply wp_bind. eapply wp_mono; [|apply wp_open_current_token].
  intros r w1 H1. destruct r as [t|e]; [|by destruct H1 as [(H1 & H2 & H3 & H4) _]]. destruct H1 as [Ht Ho]. apply wp_bind, wp_finally.
  eapply wp_mono; [|by apply wp_current_user_sid]. intros r w2 [Hq Hr].
  eapply wp_close_taken; [by eapply taken_calm; [|apply quiet_calm]|]. intros w3 (Hh3 & Hb3 & Hv3 & Hs3) Hk3.
  destruct r as [p|e]; [|done]. specialize (Hr p eq_refl). apply wp_bind, wp_call. intros [code acl] w4 H.
  apply set_entries_in_acl_law in H as (Hh4 & Hv4 & Hs4 & Ha4). cbn [fst snd].
  assert (handles w4 = handles w ∧ (∀ k, k ∈ handles w → handle_view w4 k = handle_view w k) ∧ same_files w w4) as Hbase.
  { split; [congruence|]. split; [|by etrans]. intros k Hk. rewrite Hv4. by apply Hv3. }
  destruct (code =? 0); cbn [negb].
  2: { apply wp_raise. destruct Hbase as (? & ? & ?). repeat (split; [done|]). congruence. }
  destruct acl as [a|]; destruct Hbase as (H1 & H2 & H3).
  - destruct Ha4 as (Hn & Hb & He). apply wp_ret. repeat (split; [done|]). split; [congruence|]. split; [congruence|].
    apply (He p current_user); [done..|]. by apply Hk3.
  - apply wp_raise. repeat (split; [done|]). congruence.
Qed.
(** The list of the object a handle is open at changes, and, for an inheritable one, the unprotected
    lists of what it contains. *)
Definition relisted (o : Z) (inheritance : Z) (w w' : W) : Prop :=
  handles w' = handles w ∧ blocks w' = blocks w ∧ (∀ k, k ∈ handles w → handle_view w' k = handle_view w k) ∧
  (∀ p, resolved w' p = resolved w p) ∧
  (∀ k, k ≠ o → object_at w' k = object_at w k ∨
     ∃ g, inheritance ≠ NO_INHERITANCE ∧ contains w o k ∧ object_at w k = Some g ∧ inherited g w' k) ∧
  ∀ f, object_at w o = Some f →
    object_at w' o = Some f ∨ object_at w' o = Some (with_dacl f (private_dacl inheritance)).
Lemma contains_kept w w' o k :
  (∀ p x, resolved w p = Some x → resolved w' p = Some x) → contains w o k → contains w' o k.
Proof. intros Hn (p & q & Hp & Hq & Hu). exists p, q. auto. Qed.
Lemma same_object w w' k g : object_at w' k = object_at w k → inherited g w k → inherited g w' k.
Proof. intros Hk (d & H1 & H2 & H3). exists d. by rewrite Hk. Qed.
Lemma relisted_around o inheritance w w1 w2 w3 :
  same_files w w1 → relisted o inheritance w1 w2 → same_files w2 w3 →
  handles w3 = handles w → blocks w3 = blocks w → (∀ k, k ∈ handles w → handle_view w3 k = handle_view w k) →
  relisted o inheritance w w3.
Proof.
  intros [F1 N1] (_ & _ & _ & R4 & R5 & R6) [F2 N2] H1 H2 H3. do 3 (split; [done|]).
  split; [intros p; by rewrite N2, R4|]. split.
  - intros k Hk. rewrite F2, <- (F1 k). destruct (R5 k Hk) as [->|(g & Hi & Hc & Hg & Hin)]; [by left|right].
    exists g. split; [done|]. split; [eapply contains_kept; [|exact Hc]; intros p x; by rewrite N1|]. split; [done|].
    by apply (same_object w2); [apply F2|].
  - intros f Hf. rewrite F2. apply R6. by rewrite F1.
Qed.
Lemma wp_set_private_dacl h o f inheritance w :
  h ∈ handles w → object_of w h = Some o → object_at w o = Some f → (inheritance = NO_INHERITANCE → ¬ is_directory f) →
  wp (set_private_dacl h inheritance) (λ r w', relisted o inheritance w w' ∧
    (r = Ok tt → object_at w' o = Some (with_dacl f (private_dacl inheritance)))) w.
Proof.
  intros Hin Ho Hf Hdir. apply wp_bind. eapply wp_mono; [|apply wp_current_user_dacl]. intros r w1 (Hh1 & Hv1 & Hs1 & Hr1).
  destruct r as [acl|e].
  2: { split; [|done]. destruct Hs1 as [Hs1 Hp1]. do 4 (split; [done|]). split; [intros k _; by left|]. intros f' Hf'. left. by rewrite Hs1. }
  destruct Hr1 as (Hn1 & Hb1 & Ha1). apply wp_bind, wp_try, wp_bind, wp_call. intros code w2 H.
  eapply set_security_info_law in H as (Hh2 & Hb2 & Hv2 & Hp2 & Ho2 & Hk2); [|done|done].
  assert (object_of w1 h = Some o) as Ho1 by (by rewrite (view_object _ _ _ (Hv1 h Hin))).
  assert (object_at w1 o = Some f) as Hf1 by (by rewrite (proj1 Hs1)). specialize (Ho2 o f Ho1 Hf1).
  assert (relisted o inheritance w1 w2) as Hr2.
  { do 2 (split; [done|]). split; [done|]. split; [done|]. rewrite Ho1 in Hk2. split.
    - intros k Hne. destruct (Hk2 k) as [Hsame|(x & f' & g & [= <-] & Hf' & Hd & Hc & Hg & Hi)]; [congruence|by left|right].
      exists g. split; [|done]. intros ->. apply Hdir; [done|]. congruence.
    - intros f' Hf'. assert (f' = f) as -> by congruence. destruct Ho2 as [[_ ?]|?]; auto. }
  assert (∀ w3, blocks w3 = blocks w2 ∖ {[acl]} → handles w3 = handles w2 → (∀ k, handle_view w3 k = handle_view w2 k) →
    same_files w2 w3 → relisted o inheritance w w3 ∧ (code = 0 → object_at w3 o = Some (with_dacl f (private_dacl inheritance)))) as Hend.
  { intros w3 Hb3 Hh3 Hv3 Hs3. split.
    - eapply relisted_around; [done..|congruence|rewrite Hb3, Hb2, Hb1; set_solver|].
      intros k Hk. rewrite Hv3, Hv2. by apply Hv1.
    - intros Hz. rewrite (proj1 Hs3). by destruct Ho2 as [[? _]|?]. }
  destruct (code =? 0) eqn:Hz; cbn [negb].
  - apply wp_ret, wp_bind, wp_call. intros x w3 H. apply local_free_law in H; [|set_solver].
    destruct H as (-> & Hb3 & Hh3 & Hv3 & Hs3). apply wp_ret. destruct (Hend w3) as [H1 H2]; [done..|]. split; [done|].
    intros _. apply H2. lia.
  - apply wp_raise, wp_bind, wp_call. intros x w3 H. apply local_free_law in H; [|set_solver].
    destruct H as (_ & Hb3 & Hh3 & Hv3 & Hs3). apply wp_raise. split; [|done]. by apply Hend.
Qed.

(** ** Handles *)

Definition same_names (w w' : W) : Prop := ∀ p, resolved w' p = resolved w p.
Definition regular (f : object) : Prop :=
  Z.land (ob_attributes f) FILE_ATTRIBUTE_DIRECTORY = 0 ∧ Z.land (ob_attributes f) FILE_ATTRIBUTE_REPARSE_POINT = 0 ∧ ob_links f = 1.
Lemma regular_not_directory (inheritance : Z) : inheritance = NO_INHERITANCE → ∀ f, regular f → ¬ is_directory f.
Proof. by intros _ f [H _] Hd. Qed.
Definition directory (f : object) : Prop :=
  Z.land (ob_attributes f) FILE_ATTRIBUTE_DIRECTORY ≠ 0 ∧ Z.land (ob_attributes f) FILE_ATTRIBUTE_REPARSE_POINT = 0.

(** [h] is a new handle at the object [o] of the path. *)
Definition opened_at share p w h o f w' : Prop :=
  h ≠ INVALID_HANDLE_VALUE ∧ h ∉ handles w ∧ handles w' = {[h]} ∪ handles w ∧ blocks w' = blocks w ∧
  (∀ k, k ∈ handles w → handle_view w' k = handle_view w k) ∧ share_of w' h = share ∧ grown w w' ∧
  object_of w' h = Some o ∧ resolved w' p = Some o ∧ object_at w' o = Some f.
Lemma opened_calm share p w h o f w1 w2 : opened_at share p w h o f w1 → calm w1 w2 → opened_at share p w h o f w2.
Proof.
  intros (H1 & H2 & H3 & H4 & H5 & H6 & [H7 H7'] & H8 & H9 & H10) (C1 & C2 & C3 & C4 & C5).
  assert (handle_view w2 h = handle_view w1 h) as Hv by (apply C3; rewrite H3; set_solver).
  split; [done|]. split; [done|]. split; [congruence|]. split; [congruence|].
  split; [intros k Hk; rewrite C3; [by apply H5|rewrite H3; set_solver]|].
  split; [unfold handle_view in Hv; congruence|].
  split; [split; [intros k Hk; rewrite C4; by apply H7|intros q Hq; rewrite C5; by apply H7']|].
  split; [by rewrite (view_object _ _ _ Hv)|]. by rewrite C4, C5.
Qed.

Lemma wp_open_path p disposition flags share w :
  wp (_open_path p disposition flags share) (λ r w', match r with
    | Ok h => (∃ o f, opened_at share (windows_text p) w h o f w') ∧ (disposition = _OPEN_EXISTING → same_files w w')
    | Err e => calm w w' ∧ (missing e → resolved w' (windows_text p) = None)
    end) w.
Proof.
  apply wp_bind, wp_call. intros h w1 H. apply create_file_law in H as (Hb & Hv & Hr). case_bool_decide as Hh.
  - destruct Hr as (H1 & [H2 H3] & H4). rewrite (proj2 (Z.eqb_eq _ _) Hh). apply wp_last_error. split; [by repeat (split; [done|])|].
    unfold missing. cbn. rewrite H3. intros [= He]. auto.
  - rewrite (proj2 (Z.eqb_neq _ _) Hh). apply wp_ret. destruct Hr as (H1 & H2 & H3 & H4 & H5 & o & f & H6 & H7 & H8).
    split; [|done]. exists o, f. by repeat (split; [done|]).
Qed.
Lemma wp_file_information h o f w :
  object_of w h = Some o → object_at w o = Some f →
  wp (_file_information h) (λ r w', quiet w w' ∧ match r with
    | Ok i => fi_file_attributes i = ob_attributes f ∧ fi_number_of_links i = ob_links f
    | Err e => ¬ missing e
    end) w.
Proof.
  intros Ho Hf. apply wp_bind, wp_call. intros [i|] w1 [Hq H]%file_information_law.
  - apply wp_ret. split; [done|]. by apply (H o).
  - apply wp_last_error. split; [done|]. by intros [= He].
Qed.
Lemma wp_verify_directory h o f w :
  object_of w h = Some o → object_at w o = Some f →
  wp (_verify_directory h) (λ r w', quiet w w' ∧ match r with Ok _ => directory f | Err e => ¬ missing e end) w.
Proof.
  intros Ho Hf. apply wp_bind. eapply wp_mono; [|by apply (wp_file_information h o f)]. intros r w1 [Hq H]. destruct r as [i|e]; [|done].
  destruct H as [Ha _]. rewrite Ha. destruct (Z.land _ FILE_ATTRIBUTE_DIRECTORY =? 0) eqn:H1; [by apply wp_raise|].
  destruct (Z.land _ FILE_ATTRIBUTE_REPARSE_POINT =? 0) eqn:H2; cbn [negb]; [|by apply wp_raise]. apply wp_ret. split; [done|]. split; lia.
Qed.
Lemma wp_verify_regular h o f w :
  object_of w h = Some o → object_at w o = Some f →
  wp (_verify_regular_file h) (λ r w', quiet w w' ∧ match r with Ok _ => regular f | Err e => ¬ missing e end) w.
Proof.
  intros Ho Hf. apply wp_bind. eapply wp_mono; [|by apply (wp_file_information h o f)]. intros r w1 [Hq H]. destruct r as [i|e]; [|done].
  destruct H as [Ha Hl]. rewrite Ha, Hl. destruct (Z.land _ FILE_ATTRIBUTE_DIRECTORY =? 0) eqn:H1; cbn [negb]; [|by apply wp_raise].
  destruct (Z.land _ FILE_ATTRIBUTE_REPARSE_POINT =? 0) eqn:H2; cbn [negb]; [|by apply wp_raise].
  destruct (ob_links f =? 1) eqn:H3; cbn [negb]; [|by apply wp_raise].
  apply wp_ret. split; [done|]. split; [|split]; lia.
Qed.
(** Both checks of an opened handle. *)
Lemma wp_verified (verify : M W unsafe_error ()) (kind : object → Prop) share p w h o f w1 :
  (∀ w, object_of w h = Some o → object_at w o = Some f →
    wp verify (λ r w', quiet w w' ∧ match r with Ok _ => kind f | Err e => ¬ missing e end) w) →
  opened_at share p w h o f w1 →
  wp (verify;; require_current_user_owner h) (λ r w2, calm w1 w2 ∧ match r with Ok _ => kind f ∧ owned f | Err e => ¬ missing e end) w1.
Proof.
  intros Hverify Hopen. pose proof Hopen as (_ & _ & _ & _ & _ & _ & _ & Ho & _ & Hf).
  apply wp_bind. eapply wp_mono; [|by apply Hverify]. intros r w2 [Hq2 Hk]. destruct r as [[]|e]; [|by split; [apply quiet_calm|]].
  pose proof (opened_calm _ _ _ _ _ _ _ _ Hopen (quiet_calm _ _ Hq2)) as (_ & _ & Hh2 & _ & _ & _ & _ & Ho2 & _ & Hf2).
  eapply wp_mono; [|apply (wp_require_owner h o f); [done|done|rewrite Hh2; set_solver]].
  intros r w3 [Hc3 H3]. split; [by etrans; [apply quiet_calm|]|]. by destruct r.
Qed.

(** ** What an operation secures *)

(** At most access lists changed: those of the objects of these paths, to the private one, and for an
    inheritable one the unprotected lists of what these objects contain; names only come, and the
    handles in [taken] with them. *)
Definition relists (inheritance : Z) (ps : list text) (w' : W) (o : Z) (old d : dacl) : Prop :=
  ∃ p x, p ∈ ps ∧ resolved w' p = Some x ∧
    ((x = o ∧ d = private_dacl inheritance) ∨
     (inheritance ≠ NO_INHERITANCE ∧ contains w' x o ∧ dacl_protected old = false ∧ dacl_protected d = false)).
Definition secured (inheritance : Z) (ps : list text) (taken : gset Z) (w w' : W) : Prop :=
  taken ## handles w ∧ handles w' = taken ∪ handles w ∧ blocks w' = blocks w ∧
  (∀ k, k ∈ handles w → handle_view w' k = handle_view w k) ∧
  (∀ p o, resolved w p = Some o → resolved w' p = Some o) ∧
  ∀ o f, object_at w o = Some f → ∃ d, object_at w' o = Some (with_dacl f d) ∧
    (d = ob_dacl f ∨ relists inheritance ps w' o (ob_dacl f) d).
Definition private_object (inheritance : Z) (kind : object → Prop) (w : W) (p : text) : Prop :=
  ∃ o f, resolved w p = Some o ∧ object_at w o = Some f ∧ kind f ∧ owned f ∧ ob_dacl f = private_dacl inheritance.

Lemma relists_kept inheritance ps w w' o old d :
  (∀ p x, resolved w p = Some x → resolved w' p = Some x) → relists inheritance ps w o old d → relists inheritance ps w' o old d.
Proof.
  intros Hn (p & x & Hp & Hx & Hor). exists p, x. split; [done|]. split; [by apply Hn|].
  destruct Hor as [?|(? & Hc & ?)]; [by left|right]. split; [done|]. split; [by eapply contains_kept|done].
Qed.
(** A protected list is not inherited again. *)
Lemma relists_again inheritance ps w o old d d' :
  relists inheritance ps w o old d → relists inheritance ps w o d d' → relists inheritance ps w o old d'.
Proof.
  intros (p & x & Hp & Hx & Hor) (q & y & Hq & Hy & [[-> ->]|(Hi & Hc & Hold & Hd)]); [exists q, o; auto|].
  destruct Hor as [[-> ->]|(_ & _ & Hold' & _)]; [done|]. exists q, y. split; [done|]. split; [done|]. by right.
Qed.
Lemma secured_weaken inheritance ps qs taken w w' : ps ⊆ qs → secured inheritance ps taken w w' → secured inheritance qs taken w w'.
Proof.
  intros Hsub (H1 & H2 & H3 & H4 & H5 & H6). do 5 (split; [done|]). intros o f Hf. destruct (H6 o f Hf) as (d & Hd & Hor).
  exists d. split; [done|]. destruct Hor as [->|(p & x & Hp & Hr)]; [by left|right]. exists p, x. auto.
Qed.
Lemma secured_trans inheritance ps taken w1 w2 w3 :
  secured inheritance ps ∅ w1 w2 → secured inheritance ps taken w2 w3 → secured inheritance ps taken w1 w3.
Proof.
  intros (H1 & H2 & H3 & H4 & H5 & H6) (K1 & K2 & K3 & K4 & K5 & K6). rewrite (left_id_L ∅ _) in H2. rewrite H2 in *.
  split; [done|]. split; [done|]. split; [congruence|]. split; [intros k Hk; rewrite K4, H4; done|]. split; [eauto|].
  intros o f Hf. destruct (H6 o f Hf) as (d1 & Hd1 & Hor1). destruct (K6 o _ Hd1) as (d & Hd & Hor). exists d. split; [done|].
  cbn [ob_dacl with_dacl] in Hor. destruct Hor1 as [->|Hre1]; [done|]. apply (relists_kept _ _ _ w3) in Hre1; [|done]. right.
  destruct Hor as [->|Hre]; [done|]. by eapply relists_again.
Qed.
Lemma private_kept inheritance ps taken kind w w' p :
  (∀ f d, kind f → kind (with_dacl f d)) → private_object inheritance kind w p → secured inheritance ps taken w w' →
  private_object inheritance kind w' p.
Proof.
  intros Hkind (o & f & Hr & Hf & Hk & Ho & Hd) (_ & _ & _ & _ & H5 & H6). destruct (H6 o f Hf) as (d & Hd' & Hor).
  exists o, (with_dacl f d). split; [by apply H5|]. split; [done|]. split; [by apply Hkind|]. split; [done|].
  rewrite Hd in Hor. by destruct Hor as [->|(q & x & _ & _ & [[_ ->]|(_ & _ & [=] & _)])].
Qed.
Lemma calm_secured inheritance ps w w' : calm w w' → secured inheritance ps ∅ w w'.
Proof.
  intros (H1 & H2 & H3 & H4 & H5). split; [set_solver|]. split; [by rewrite (left_id_L ∅ _)|]. do 2 (split; [done|]).
  split; [intros p o; by rewrite H5|]. intros o f Hf. exists (ob_dacl f). split; [|by left]. rewrite H4, Hf. by destruct f.
Qed.
(** An opened handle whose object was relisted, kept or closed. *)
Lemma opened_secured inheritance share p w h o f w1 w2 :
  opened_at share p w h o f w1 → relisted o inheritance w1 w2 → secured inheritance [p] {[h]} w w2.
Proof.
  intros (H1 & H2 & H3 & H4 & H5 & H6 & [H7 H7'] & H8 & H9 & H10) (R1 & R2 & R3 & R4 & R5 & R6).
  split; [set_solver|]. split; [congruence|]. split; [congruence|].
  split; [intros k Hk; rewrite R3; [by apply H5|rewrite H3; set_solver]|].
  split; [intros q x Hx; rewrite R4, H7'; by rewrite Hx|].
  intros k g Hg. assert (object_at w1 k = Some g) as Hg1 by (by rewrite H7; rewrite Hg).
  destruct (decide (k = o)) as [->|Hne].
  - destruct (R6 g Hg1) as [Hsame| ->]; [exists (ob_dacl g); split; [by destruct g|by left]|]. eexists. split; [done|]. right.
    exists p, o. split; [by left|]. split; [by rewrite R4|by left].
  - destruct (R5 k Hne) as [->|(g' & Hi & Hc & Hg' & d & Hold & Hd & Hk)]; [exists (ob_dacl g); split; [by destruct g|by left]|].
    assert (g' = g) as -> by congruence. exists d. split; [done|]. right. exists p, o. split; [by left|]. split; [by rewrite R4|].
    right. split; [done|]. split; [|done]. eapply contains_kept; [|exact Hc]. intros q x. by rewrite R4.
Qed.
Lemma wp_close_secured inheritance ps share p w h o f w1 w2 (Q : res unsafe_error () → W → Prop) :
  opened_at share p w h o f w1 → secured inheritance ps {[h]} w w2 →
  (∀ w3, secured inheritance ps ∅ w w3 → same_files w2 w3 → handles w3 = handles w2 ∖ {[h]} → Q (Ok tt) w3) →
  wp (_close_handle h) Q w2.
Proof.
  intros (Hne & Hn & _) (H1 & H2 & H3 & H4 & H5 & H6) HQ. unfold _close_handle.
  rewrite (proj2 (Z.eqb_neq _ _) Hne). apply wp_bind, wp_call. intros r w3 Hc. apply close_handle_law in Hc; [|rewrite H2; set_solver].
  destruct Hc as (Hr & Hh & Hb & Hs & _ & Hv). rewrite (proj2 (Z.eqb_neq _ _) Hr). apply wp_ret. apply HQ; [|done..].
  split; [set_solver|]. split; [rewrite Hh, H2; set_solver|]. split; [congruence|]. destruct Hs as [Hs Hp].
  split; [intros k Hk; rewrite Hv by (intros ->; by apply Hn); by apply H4|].
  split; [intros q x Hx; rewrite Hp; by apply H5|]. intros k g Hg. destruct (H6 k g Hg) as (d & Hd & Hor).
  exists d. rewrite Hs. split; [done|]. destruct Hor as [->|Hre]; [by left|right]. eapply relists_kept; [|exact Hre].
  intros q x. by rewrite Hp.
Qed.
Lemma opened_untouched inheritance ps share p w h o f w1 : opened_at share p w h o f w1 → secured inheritance ps {[h]} w w1.
Proof.
  intros (H1 & H2 & H3 & H4 & H5 & H6 & [H7 H7'] & _). split; [set_solver|]. do 3 (split; [done|]).
  split; [intros q x Hx; rewrite H7'; by rewrite Hx|].
  intros k g Hg. exists (ob_dacl g). split; [|by left]. rewrite H7 by (by rewrite Hg). rewrite Hg. by destruct g.
Qed.
Lemma calm_relisted o inheritance w w' : calm w w' → relisted o inheritance w w'.
Proof.
  intros (H1 & H2 & H3 & H4 & H5). do 4 (split; [done|]). split; [intros k _; left; by rewrite H4|]. intros f Hf. left. by rewrite H4.
Qed.
Lemma same_names_trans w1 w2 w3 : same_names w1 w2 → same_names w2 w3 → same_names w1 w3.
Proof. intros H1 H2 p. by rewrite H2, H1. Qed.

(** ** The operations *)

Lemma wp_open_regular inheritance p disposition share w :
  wp (_open_regular_file p disposition share) (λ r w', match r with
    | Ok h => ∃ o f, opened_at share (windows_text p) w h o f w' ∧ regular f ∧ owned f
    | Err e => secured inheritance [] ∅ w w' ∧ (missing e → resolved w' (windows_text p) = None)
    end ∧ (disposition = _OPEN_EXISTING → same_files w w')) w.
Proof.
  apply wp_bind. eapply wp_mono; [|apply wp_open_path]. intros r w1 H1. destruct r as [h|e].
  2: { destruct H1 as [Hc He]. split; [split; [by apply calm_secured|done]|]. intros _. apply Hc. }
  destruct H1 as [(o & f & Hopen) Hsame]. apply wp_bind, wp_try. eapply wp_mono.
  2: { apply (wp_verified _ regular _ _ _ _ _ _ _ (wp_verify_regular h o f) Hopen). }
  intros r w2 [Hc2 H2]. pose proof (opened_calm _ _ _ _ _ _ _ _ Hopen Hc2) as Hopen2.
  assert (disposition = _OPEN_EXISTING → same_files w w2) as Hsame2 by (intros Hd; etrans; [by apply Hsame|apply Hc2]).
  destruct r as [[]|e]; [by apply wp_ret; split; [exists o, f|]|].
  apply wp_bind. eapply wp_close_secured; [done|by eapply opened_untouched|]. intros w3 Hs3 Hf3 _. apply wp_raise.
  split; [by split|]. intros Hd. etrans; [by apply Hsame2|done].
Qed.
Lemma wp_secure_handle inheritance (kind : object → Prop) share p w h o f w1 :
  (∀ f d, kind f → kind (with_dacl f d)) → (inheritance = NO_INHERITANCE → ∀ f, kind f → ¬ is_directory f) → opened_at share p w h o f w1 → kind f → owned f →
  wp (set_private_dacl h inheritance) (λ r w2, relisted o inheritance w1 w2 ∧ opened_at share p w h o f w1 ∧
    (r = Ok tt → private_object inheritance kind w2 p)) w1.
Proof.
  intros Hkind Hdir Hopen Hk Ho. pose proof Hopen as (_ & _ & Hh & _ & _ & _ & _ & Hat & Hp & Hf).
  eapply wp_mono; [|apply (wp_set_private_dacl h o f); [rewrite Hh; set_solver|done..|by eauto]].
  intros r w2 [Hr Hd]. split; [done|]. split; [done|]. intros Hok. specialize (Hd Hok).
  exists o, (with_dacl f (private_dacl inheritance)). destruct Hr as (_ & _ & _ & Hn & _).
  split; [by rewrite Hn|]. split; [done|]. split; [by apply Hkind|]. by split.
Qed.
(** Closing after it. *)
Lemma wp_close_private inheritance kind share p w h o f w1 w2 (r : res unsafe_error ()) :
  opened_at share p w h o f w1 → relisted o inheritance w1 w2 → (r = Ok tt → private_object inheritance kind w2 p) →
  wp (_close_handle h) (λ r2 w3, r2 = Ok tt ∧ secured inheritance [p] ∅ w w3 ∧ same_names w1 w3 ∧
    (r = Ok tt → private_object inheritance kind w3 p)) w2.
Proof.
  intros Hopen Hr Hok. eapply wp_close_secured; [done|by eapply opened_secured|]. intros w3 Hs3 [Hf3 Hn3] _. split; [done|]. split; [done|].
  split; [destruct Hr as (_ & _ & _ & Hn & _); intros q; by rewrite Hn3, Hn|].
  intros He. destruct (Hok He) as (x & g & H1 & H2 & H3). exists x, g. by rewrite Hn3, Hf3.
Qed.
Definition secures inheritance (kind : object → Prop) (p : text) (existing : Prop) w (r : res unsafe_error ()) w' : Prop :=
  secured inheritance [p] ∅ w w' ∧ (existing → same_names w w') ∧ (r = Ok tt → private_object inheritance kind w' p).
Lemma wp_secured_handle inheritance kind share p w h o f w1 (existing : Prop) :
  (∀ f d, kind f → kind (with_dacl f d)) → (inheritance = NO_INHERITANCE → ∀ f, kind f → ¬ is_directory f) → opened_at share p w h o f w1 → kind f → owned f → (existing → same_files w w1) →
  wp (finally_do (set_private_dacl h inheritance) (_close_handle h)) (secures inheritance kind p existing w) w1.
Proof.
  intros Hkind Hdir Hopen Hk Ho He. apply wp_finally. eapply wp_mono; [|by eapply wp_secure_handle]. intros r w2 (Hr & _ & Hok).
  eapply wp_mono; [|by eapply (wp_close_private _ kind)]. intros r2 w3 (-> & Hs & Hn & Hp).
  split; [done|]. split; [|done]. intros Hx. destruct (He Hx) as [_ Hn1]. by eapply same_names_trans.
Qed.
Lemma wp_secure_regular_file p disposition w :
  wp (_secure_regular_file p disposition) (secures NO_INHERITANCE regular (windows_text p) (disposition = _OPEN_EXISTING) w) w.
Proof.
  apply wp_bind. eapply wp_mono; [|apply (wp_open_regular NO_INHERITANCE)]. intros r w1 [H1 Hsame]. destruct r as [h|e].
  - destruct H1 as (o & f & Hopen & Hk & Ho). eapply wp_secured_handle; [done|apply regular_not_directory|done..].
  - destruct H1 as [Hs _]. split; [by eapply secured_weaken; [|done]; set_solver|]. split; [|done]. intros Hd. by destruct (Hsame Hd).
Qed.
Lemma wp_secure_directory p w :
  wp (_secure_directory p) (secures SUB_CONTAINERS_AND_OBJECTS_INHERIT directory (windows_text p) False w) w.
Proof.
  apply wp_bind. eapply wp_mono; [|apply wp_open_path]. intros r w1 H1. destruct r as [h|e].
  2: { destruct H1 as [Hc _]. split; [by apply calm_secured|]. done. }
  destruct H1 as [(o & f & Hopen) _]. apply wp_finally.
  apply (wp_mono _ (λ r w2, relisted o SUB_CONTAINERS_AND_OBJECTS_INHERIT w1 w2 ∧
    (r = Ok tt → private_object SUB_CONTAINERS_AND_OBJECTS_INHERIT directory w2 (windows_text p)))).
  - intros r w2 [Hr Hok]. eapply wp_mono; [|by eapply wp_close_private]. intros r2 w3 (-> & Hs & Hn & Hp). by split.
  - pose proof (wp_verified _ directory _ _ _ _ _ _ _ (wp_verify_directory h o f) Hopen) as Hverified.
    apply wp_assoc, wp_bind. eapply wp_mono; [|exact Hverified].
    intros r w2 [Hc2 H2]. destruct r as [[]|e]; [|by split; [apply calm_relisted|]]. destruct H2 as [Hk Ho].
    pose proof (opened_calm _ _ _ _ _ _ _ _ Hopen Hc2) as Hopen2.
    eapply wp_mono; [|by eapply (wp_secure_handle _ directory)]. intros r w3 (Hr & _ & Hp). split; [|done].
    pose proof Hr as (R1 & R2 & R3 & _). destruct Hc2 as (C1 & C2 & C3 & C4).
    eapply relisted_around; [exact C4|exact Hr|done|congruence|congruence|]. intros k Hin. rewrite R3, C3; [done|done|by rewrite C1].
Qed.
(** A sidecar is missing or private. *)
Definition absent_or_private (w : W) (p : text) : Prop := resolved w p = None ∨ private_object NO_INHERITANCE regular w p.
Lemma wp_secure_sidecar path suffix w :
  let p := windows_text (sidecar path suffix) in
  wp (secure_sidecar path suffix) (λ r w', secured NO_INHERITANCE [p] ∅ w w' ∧ same_names w w' ∧
    (r = Ok tt → absent_or_private w' p)) w.
Proof.
  apply wp_bind, wp_try, wp_bind. eapply wp_mono; [|apply (wp_open_regular NO_INHERITANCE)]. intros r w1 [H1 Hsame].
  specialize (Hsame eq_refl). destruct r as [h|e].
  - apply wp_ret. destruct H1 as (o & f & Hopen & Hk & Ho).
    eapply wp_mono; [|eapply (wp_secured_handle _ regular _ _ _ _ _ _ _ True); [done|apply regular_not_directory|done..]].
    intros r w2 (Hs & Hn & Hp). split; [done|]. split; [by apply Hn|]. intros Hok. right. by apply Hp.
  - destruct H1 as [Hs Hm]. assert (secured NO_INHERITANCE [windows_text (sidecar path suffix)] ∅ w w1) as Hs1.
    { eapply secured_weaken; [|done]. set_solver. }
    destruct Hsame as [_ Hn]. unfold _win32_error_code. case_bool_decide as Hc; [apply wp_ret, wp_ret|apply wp_raise]; split; [done|..|done|].
    + split; [done|]. intros _. left. by apply Hm.
    + by split.
Qed.

Definition sidecar_suffixes : list text := ["-wal"; "-shm"]%string.
Definition database_files (path : Path) : list text := windows_text <$> path :: (sidecar path <$> sidecar_suffixes).
Definition files_private (path : Path) (w : W) : Prop :=
  private_object NO_INHERITANCE regular w (windows_text path) ∧
  ∀ suffix, suffix ∈ sidecar_suffixes → absent_or_private w (windows_text (sidecar path suffix)).
Lemma absent_kept ps taken w w' p : absent_or_private w p → secured NO_INHERITANCE ps taken w w' → same_names w w' → absent_or_private w' p.
Proof. intros [Hn|Hp] Hs Hsame; [left; by rewrite Hsame|right]. by eapply private_kept; [|done|done]. Qed.
Lemma wp_enforce path w :
  wp (win32_enforce_private_sidecars path) (λ r w', secured NO_INHERITANCE (database_files path) ∅ w w' ∧
    (r = Ok tt → files_private path w')) w.
Proof.
  apply wp_bind. eapply wp_mono; [|apply wp_secure_regular_file]. intros r w1 (Hs1 & _ & Hp1).
  apply (secured_weaken _ _ (database_files path)) in Hs1; [|unfold database_files; set_solver].
  destruct r as [[]|e]; [|by split]. specialize (Hp1 eq_refl).
  apply wp_bind. eapply wp_mono; [|apply wp_secure_sidecar]. intros r w2 (Hs2 & _ & Hp2).
  apply (secured_weaken _ _ (database_files path)) in Hs2; [|unfold database_files; set_solver].
  pose proof (secured_trans _ _ _ _ _ _ Hs1 Hs2) as Hs02. destruct r as [[]|e]; [|by split]. specialize (Hp2 eq_refl).
  eapply wp_mono; [|apply wp_secure_sidecar]. intros r w3 (Hs3 & Hn3 & Hp3).
  apply (secured_weaken _ _ (database_files path)) in Hs3; [|unfold database_files; set_solver].
  split; [by eapply secured_trans|]. intros Hok. split.
  - eapply private_kept; [done| |exact Hs3]. by eapply private_kept; [done|exact Hp1|exact Hs2].
  - intros suffix [->|[->|[]%elem_of_nil]%elem_of_cons]%elem_of_cons; [by eapply absent_kept|by apply Hp3].
Qed.
Lemma wp_prepare_database path w :
  wp (win32_prepare_private_database_file path) (λ r w', secured NO_INHERITANCE (database_files path) ∅ w w' ∧
    (r = Ok tt → files_private path w')) w.
Proof.
  apply wp_bind. eapply wp_mono; [|apply wp_secure_regular_file]. intros r w1 (Hs1 & _ & _).
  apply (secured_weaken _ _ (database_files path)) in Hs1; [|unfold database_files; set_solver].
  destruct r as [[]|e]; [|by split]. eapply wp_mono; [|apply wp_enforce]. intros r w2 [Hs2 Hp]. split; [by eapply secured_trans|done].
Qed.
Lemma wp_prepare_parent path w :
  wp (win32_prepare_private_parent path) (λ r w',
    secured SUB_CONTAINERS_AND_OBJECTS_INHERIT [windows_text (parent path)] ∅ w w' ∧
    (r = Ok tt → private_object SUB_CONTAINERS_AND_OBJECTS_INHERIT directory w' (windows_text (parent path)))) w.
Proof.
  apply wp_bind, wp_call. intros failed w1 (Hh & Hb & Hv & Hg & Hp)%make_directories_law.
  assert (secured SUB_CONTAINERS_AND_OBJECTS_INHERIT [windows_text (parent path)] ∅ w w1) as Hs1.
  { split; [set_solver|]. split; [by rewrite (left_id_L ∅ _)|]. split; [done|]. split; [done|].
    split; [intros q o Hq; rewrite Hp; by rewrite Hq|]. intros o f Hf. exists (ob_dacl f). split; [|by left].
    rewrite Hg by (by rewrite Hf). rewrite Hf. by destruct f. }
  destruct failed; [by apply wp_raise|]. eapply wp_mono; [|apply wp_secure_directory]. intros r w2 (Hs2 & _ & Hok).
  split; [by eapply secured_trans|done].
Qed.

(** ** Locks and guards *)

Lemma relisted_calm o inheritance w w1 w2 : relisted o inheritance w w1 → calm w1 w2 → relisted o inheritance w w2.
Proof.
  intros Hr (C1 & C2 & C3 & C4). pose proof Hr as (R1 & R2 & R3 & _).
  eapply relisted_around; [done|exact Hr|exact C4|congruence|congruence|]. intros k Hin. rewrite C3, R3; [done|done|by rewrite R1].
Qed.
Lemma secured_calm inheritance ps w w' : secured inheritance ps ∅ w w' → same_files w w' → calm w w'.
Proof. intros (_ & H2 & H3 & H4 & _) Hs. rewrite (left_id_L ∅ _) in H2. by repeat (split; [done|]). Qed.

(** The handle of a lock is the one thing kept, at a private lock file. *)
Definition locked (path : Path) (w : W) (r : res unsafe_error Z) (w' : W) : Prop :=
  let p := windows_text (lock_path path) in
  match r with
  | Ok h => secured NO_INHERITANCE [p] {[h]} w w' ∧ h ≠ INVALID_HANDLE_VALUE ∧ private_object NO_INHERITANCE regular w' p
  | Err _ => secured NO_INHERITANCE [p] ∅ w w'
  end.
Lemma wp_lock path w : wp (win32_lock path) (locked path w) w.
Proof.
  apply wp_bind. eapply wp_mono; [|apply (wp_open_regular NO_INHERITANCE)]. intros r w1 [H1 _]. destruct r as [h|e].
  2: { destruct H1 as [Hs _]. unfold locked. eapply secured_weaken; [|exact Hs]. set_solver. }
  destruct H1 as (o & f & Hopen & Hk & Ho). apply wp_bind, wp_try.
  apply (wp_mono _ (λ r w2, relisted o NO_INHERITANCE w1 w2 ∧
    (r = Ok tt → private_object NO_INHERITANCE regular w2 (windows_text (lock_path path))))).
  - intros r w2 [Hr Hp]. pose proof (opened_secured _ _ _ _ _ _ _ _ _ Hopen Hr) as Hs2. destruct r as [[]|e].
    + apply wp_ret. split; [done|]. split; [apply Hopen|by apply Hp].
    + apply wp_bind. eapply wp_close_secured; [done..|]. intros w4 Hs4 _ _. by apply wp_raise.
  - apply wp_bind. eapply wp_mono; [|eapply (wp_secure_handle NO_INHERITANCE regular); [done|apply regular_not_directory|done..]]. intros r w2 (Hr & _ & Hp).
    destruct r as [[]|e]; [|by split]. specialize (Hp eq_refl). apply wp_bind, wp_call. intros x w3 Hq%lock_file_law.
    assert (relisted o NO_INHERITANCE w1 w3 ∧ private_object NO_INHERITANCE regular w3 (windows_text (lock_path path))) as [Hr3 Hp3].
    { split; [by eapply relisted_calm; [|apply quiet_calm]|]. eapply private_kept; [done|exact Hp|].
      by apply (calm_secured NO_INHERITANCE []), quiet_calm. }
    destruct (x =? 0); [by apply wp_last_error|by apply wp_ret].
Qed.

(** Closing a handle that is still open. *)
Definition let_go (hs : gset Z) (w w' : W) : Prop := handles w' = handles w ∖ hs ∧ blocks w' = blocks w ∧ same_files w w'.
Lemma wp_close_live h w (Q : res unsafe_error () → W → Prop) :
  h ∈ handles w → h ≠ INVALID_HANDLE_VALUE → (∀ w', let_go {[h]} w w' → Q (Ok tt) w') → wp (_close_handle h) Q w.
Proof.
  intros Hin Hne HQ. unfold _close_handle. rewrite (proj2 (Z.eqb_neq _ _) Hne). apply wp_bind, wp_call.
  intros r w1 (Hr & Hh & Hb & Hs & _)%close_handle_law; [|done]. rewrite (proj2 (Z.eqb_neq _ _) Hr). by apply wp_ret, HQ.
Qed.
Lemma wp_unlock h w : h ∈ handles w → h ≠ INVALID_HANDLE_VALUE → wp (win32_unlock h) (λ _ w', let_go {[h]} w w') w.
Proof.
  intros Hin Hne. apply wp_finally, wp_bind, wp_call. intros x w1 (Hh & Hb & _ & Hs & _)%unlock_file_law.
  assert (∀ r : res unsafe_error (), wp (_close_handle h) (λ r2 w2, match r2 with Ok _ => let_go {[h]} w w2 | Err _ => let_go {[h]} w w2 end) w1) as Hlast.
  { intros _. apply wp_close_live; [by rewrite Hh|done|]. intros w2 (H1 & H2 & H3).
    split; [by rewrite H1, Hh|]. split; [congruence|by etrans]. }
  destruct (x =? 0); [apply wp_last_error, (Hlast (Ok tt))|apply wp_ret, (Hlast (Ok tt))].
Qed.
(** Both handles were opened without sharing the right to delete or rename, at checked objects. *)
Definition pinned (kind : object → Prop) (w : W) (h : Z) (p : text) : Prop :=
  share_of w h = pinning ∧ ∃ o f, object_of w h = Some o ∧ resolved w p = Some o ∧ object_at w o = Some f ∧ kind f ∧ owned f.
Definition guarded (path : Path) (w : W) (r : res unsafe_error (Z * Z)) (w' : W) : Prop :=
  match r with
  | Ok (p, d) =>
    p ≠ d ∧ {[p; d]} ## ({[INVALID_HANDLE_VALUE]} ∪ handles w) ∧ handles w' = {[p; d]} ∪ handles w ∧ blocks w' = blocks w ∧
    same_files w w' ∧ pinned directory w' p (windows_text (parent path)) ∧ pinned regular w' d (windows_text path)
  | Err _ => calm w w'
  end.
Lemma opened_pinned kind p w h o f w1 w2 :
  opened_at pinning p w h o f w1 → kind f → owned f → handle_view w2 h = handle_view w1 h → same_files w1 w2 → pinned kind w2 h p.
Proof.
  intros (_ & _ & _ & _ & _ & H6 & _ & H8 & H9 & H10) Hk Ho Hv [Hf Hn]. split; [unfold handle_view in Hv; congruence|].
  exists o, f. rewrite (view_object _ _ _ Hv), Hn, Hf. done.
Qed.
Lemma wp_guard_enter path w : wp (win32_guard_enter path) (guarded path w) w.
Proof.
  apply wp_bind. eapply wp_mono; [|apply wp_open_path]. intros r w1 H1. destruct r as [h|e]; [|by destruct H1].
  destruct H1 as [(o & f & Hopen) Hs1]. specialize (Hs1 eq_refl). apply wp_bind, wp_try, wp_assoc, wp_bind.
  assert (∀ e w2, calm w1 w2 → wp (win32_guard_exit (h, INVALID_HANDLE_VALUE);; raise e : M W unsafe_error Z)
    (λ r w3, match r with Ok d => wp (mret (h, d)) (guarded path w) w3 | Err _ => calm w w3 end) w2) as Hfail.
  { intros e w2 Hc. apply wp_bind, wp_bind, wp_ret. pose proof (opened_calm _ _ _ _ _ _ _ _ Hopen Hc) as Hopen2.
    eapply wp_close_secured; [done|by apply (opened_untouched 0 []) in Hopen2|]. intros w3 Hs3 Hf3 _. apply wp_raise.
    eapply secured_calm; [done|]. etrans; [exact Hs1|]. etrans; [apply Hc|done]. }
  eapply wp_mono; [|apply (wp_verified _ directory _ _ _ _ _ _ _ (wp_verify_directory h o f) Hopen)].
  intros r w2 [Hc2 H2]. destruct r as [[]|e].
  2: { eapply wp_mono; [|by apply Hfail]. by intros [d|e'] w3. }
  destruct H2 as [Hk Ho]. eapply wp_mono; [|apply (wp_open_regular 0)]. intros r w3 [H3 Hs3]. specialize (Hs3 eq_refl).
  destruct r as [d|e].
  - destruct H3 as (o' & f' & Hopen' & Hk' & Ho'). apply wp_ret.
    pose proof (opened_calm _ _ _ _ _ _ _ _ Hopen Hc2) as Hopen2.
    pose proof Hopen2 as (N1 & N2 & N3 & N4 & _). pose proof Hopen' as (D1 & D2 & D3 & D4 & D5 & _).
    assert (h ≠ d) as Hne by (intros ->; apply D2; rewrite N3; set_solver).
    split; [done|]. split; [set_solver|]. split; [rewrite D3, N3; set_solver|]. split; [congruence|].
    split; [etrans; [exact Hs1|]; etrans; [apply Hc2|done]|]. split.
    + eapply opened_pinned; [exact Hopen2|done..| |done]. apply D5. rewrite N3. set_solver.
    + by eapply opened_pinned.
  - destruct H3 as [Hs _]. eapply wp_mono; [|apply Hfail; etrans; [exact Hc2|by eapply secured_calm]]. by intros [x|e'] w4.
Qed.
Lemma wp_guard_exit p d w :
  p ∈ handles w → d ∈ handles w → p ≠ d → p ≠ INVALID_HANDLE_VALUE → d ≠ INVALID_HANDLE_VALUE →
  wp (win32_guard_exit (p, d)) (λ r w', r = Ok tt ∧ let_go {[p; d]} w w') w.
Proof.
  intros Hp Hd Hne Hnp Hnd. apply wp_bind. apply wp_close_live; [done..|]. intros w1 (H1 & H2 & H3).
  apply wp_close_live; [rewrite H1; set_solver|done|]. intros w2 (K1 & K2 & K3). split; [done|].
  split; [rewrite K1, H1; set_solver|]. split; [congruence|by etrans].
Qed.

(** ** The property *)

(** C28. On Windows what the store prepares is private: a directory or a regular file with one name, of the
    user, whose protected access list names the user alone. Whatever call fails, nothing changes but
    these access lists and, below the prepared directory, the unprotected lists that inherit from
    its own; every handle and block of memory is given back, and a lock or a guard keeps its handles
    only, which its end closes. *)
Theorem windows_storage_is_private path w :
  (∀ r w', win32_prepare_private_parent path w = (r, w') →
     secured SUB_CONTAINERS_AND_OBJECTS_INHERIT [windows_text (parent path)] ∅ w w' ∧
     (r = Ok tt → private_object SUB_CONTAINERS_AND_OBJECTS_INHERIT directory w' (windows_text (parent path)))) ∧
  (∀ r w', win32_prepare_private_database_file path w = (r, w') ∨ win32_enforce_private_sidecars path w = (r, w') →
     secured NO_INHERITANCE (database_files path) ∅ w w' ∧ (r = Ok tt → files_private path w')) ∧
  (∀ r w', win32_lock path w = (r, w') → locked path w r w') ∧
  (∀ h r w', win32_unlock h w = (r, w') → h ∈ handles w → h ≠ INVALID_HANDLE_VALUE → let_go {[h]} w w') ∧
  (∀ r w', win32_guard_enter path w = (r, w') → guarded path w r w') ∧
  ∀ p d r w', win32_guard_exit (p, d) w = (r, w') → {[p; d]} ⊆ handles w → p ≠ d → INVALID_HANDLE_VALUE ∉ handles w →
    r = Ok tt ∧ let_go {[p; d]} w w'.
Proof.
  split; [intros r w' Hr; exact (wp_run _ _ _ _ _ Hr (wp_prepare_parent path w))|].
  split; [intros r w' [Hr|Hr]; [exact (wp_run _ _ _ _ _ Hr (wp_prepare_database path w))|exact (wp_run _ _ _ _ _ Hr (wp_enforce path w))]|].
  split; [intros r w' Hr; exact (wp_run _ _ _ _ _ Hr (wp_lock path w))|].
  split; [intros h r w' Hr Hh Hne; exact (wp_run _ _ _ _ _ Hr (wp_unlock h w Hh Hne))|].
  split; [intros r w' Hr; exact (wp_run _ _ _ _ _ Hr (wp_guard_enter path w))|].
  intros p d r w' Hr Hsub Hne Hinv. refine (wp_run _ _ _ _ _ Hr (wp_guard_exit p d w _ _ Hne _ _)); set_solver.
Qed.
End Kept.
