(* ===== verification/NtHost.v ===== *)
(** A Windows system that shows the laws of [WindowsSafety] can hold: numbered objects with one name
    each, and a switch that makes it refuse to set access lists. *)
From stdpp Require Import gmap.
From S2P Require Import Prelude Runs Paths PrivatePaths PrivateFiles WindowsPaths WindowsSafety.
#[local] Open Scope Z_scope.

Record nt_host := mk_nt {
  nt_objects : list (text * object);
  nt_handles : list Z;
  nt_view : Z → option Z * Z * bool;
  nt_blocks : list Z;
  nt_acls : Z → option (list ace);
  nt_sids : list sid;
  nt_error : Z;
  nt_refused : bool;
}.
Definition nt_user : sid := "S-1-5-21-7-1001".
Definition nt_administrators : sid := "S-1-5-32-544".
Definition cell {A} (l : list A) (k : Z) : option A := if k <? 0 then None else l !! Z.to_nat k.
Definition find_object (p : text) (w : nt_host) : option Z :=
  Z.of_nat ∘ fst <$> list_find (λ x : text * object, x.1 = p) (nt_objects w).

#[export] Instance nt_world : Win32World nt_host := {|
  handles w := list_to_set (nt_handles w);
  blocks w := list_to_set (nt_blocks w);
  object_of w h := (nt_view w h).1.1;
  share_of w h := (nt_view w h).1.2;
  is_own_token w h := (nt_view w h).2;
  object_at w o := snd <$> cell (nt_objects w) o;
  resolved w p := find_object p w;
  sid_at w p := cell (nt_sids w) p;
  acl_at w a := nt_acls w a;
  current_user := nt_user;
  default_owner := nt_administrators;
|}.

(** ** The calls *)

Definition above (l : list Z) : Z := foldr (λ k m, Z.max (k + 1) m) 4 l.
Definition update {A} (k : Z) (a : A) (f : Z → A) : Z → A := λ j, if j =? k then a else f j.
Definition failing (code : Z) (w : nt_host) : nt_host :=
  mk_nt (nt_objects w) (nt_handles w) (nt_view w) (nt_blocks w) (nt_acls w) (nt_sids w) code (nt_refused w).
Definition open_handle (view : option Z * Z * bool) (w : nt_host) : Z * nt_host :=
  let h := above (nt_handles w) in
  (h, mk_nt (nt_objects w) (h :: nt_handles w) (update h view (nt_view w)) (nt_blocks w) (nt_acls w) (nt_sids w) (nt_error w) (nt_refused w)).
Definition with_objects (l : list (text * object)) (w : nt_host) : nt_host :=
  mk_nt l (nt_handles w) (nt_view w) (nt_blocks w) (nt_acls w) (nt_sids w) (nt_error w) (nt_refused w).
Definition with_handles (l : list Z) (w : nt_host) : nt_host :=
  mk_nt (nt_objects w) l (nt_view w) (nt_blocks w) (nt_acls w) (nt_sids w) (nt_error w) (nt_refused w).
Definition with_blocks (l : list Z) (w : nt_host) : nt_host :=
  mk_nt (nt_objects w) (nt_handles w) (nt_view w) l (nt_acls w) (nt_sids w) (nt_error w) (nt_refused w).
(** A new SID, and the address it can be read at. *)
Definition push_sid (s : sid) (w : nt_host) : Z * nt_host :=
  (Z.of_nat (length (nt_sids w)),
   mk_nt (nt_objects w) (nt_handles w) (nt_view w) (nt_blocks w) (nt_acls w) (nt_sids w ++ [s]) (nt_error w) (nt_refused w)).
Definition allocate (entries : list ace) (w : nt_host) : Z * nt_host :=
  let a := above (nt_blocks w) in
  (a, mk_nt (nt_objects w) (nt_handles w) (nt_view w) (a :: nt_blocks w) (update a (Some entries) (nt_acls w)) (nt_sids w) (nt_error w) (nt_refused w)).
Definition new_file : object := mk_object FILE_ATTRIBUTE_NORMAL 1 nt_user (mk_dacl false []).
Definition new_directory : object := mk_object FILE_ATTRIBUTE_DIRECTORY 1 nt_administrators (mk_dacl false []).
Definition held_object (w : nt_host) (h : Z) : option object := (nt_view w h).1.1 ≫= λ o, snd <$> cell (nt_objects w) o.
Definition set_dacl (d : dacl) (x : text * object) : text * object :=
  (x.1, mk_object (ob_attributes x.2) (ob_links x.2) (ob_owner x.2) d).
(** The object [o] gets a list, and what is named within a directory the entries of it that are inherited. *)
Definition inherits (w : nt_host) (o : Z) (t : text * object) (i : nat) (x : text * object) : bool :=
  negb (Z.land (ob_attributes t.2) FILE_ATTRIBUTE_DIRECTORY =? 0) && negb (dacl_protected (ob_dacl x.2)) &&
  bool_decide (find_object t.1 w = Some o) && bool_decide (find_object x.1 w = Some (Z.of_nat i)) && under t.1 x.1.
Definition relist (w : nt_host) (o : Z) (d : dacl) (i : nat) (x : text * object) : text * object :=
  if Z.of_nat i =? o then set_dacl d x else
  match cell (nt_objects w) o with
  | Some t => if inherits w o t i x
              then set_dacl (mk_dacl false (filter (λ e, ace_inheritance e ≠ NO_INHERITANCE) (dacl_entries d))) x else x
  | None => x
  end.

Definition nt_create_file (path : text) (acc share disposition flags : Z) (w : nt_host) : Z * nt_host :=
  if above (nt_handles w) =? INVALID_HANDLE_VALUE then (INVALID_HANDLE_VALUE, failing 4 w) else
  match find_object path w with
  | Some o => open_handle (Some o, share, false) w
  | None =>
    if disposition =? _OPEN_ALWAYS
    then open_handle (Some (Z.of_nat (length (nt_objects w))), share, false) (with_objects (nt_objects w ++ [(path, new_file)]) w)
    else (INVALID_HANDLE_VALUE, failing ERROR_FILE_NOT_FOUND w)
  end.
#[export] Instance nt_calls : Win32 nt_host := {|
  create_file := nt_create_file;
  close_handle h w := (1, with_handles (filter (λ k, k ≠ h) (nt_handles w)) w);
  current_process _ := INVALID_HANDLE_VALUE;
  file_information h w :=
    match held_object w h with
    | Some f => (Some (mk_file_information (ob_attributes f) 0 0 0 0 0 0 (ob_links f) 0 0), w)
    | None => (None, failing 6 w)
    end;
  local_free b w := (None, with_blocks (filter (λ k, k ≠ b) (nt_blocks w)) w);
  lock_file _ _ _ w := (1, w);
  unlock_file _ _ w := (1, w);
  equal_sid p q w := (match cell (nt_sids w) p, cell (nt_sids w) q with
    | Some s, Some t => if bool_decide (s = t) then 1 else 0 | _, _ => 0 end, w);
  get_security_info h _ _ w :=
    match held_object w h with
    | Some f => let '(p, w1) := push_sid (ob_owner f) w in let '(d, w2) := allocate [] w1 in (0, Some p, Some d, w2)
    | None => (6, None, None, w)
    end;
  get_token_information t class size w :=
    match size with
    | None => (0, 44, mk_token_buffer None 0, failing ERROR_INSUFFICIENT_BUFFER w)
    | Some n => let '(p, w1) := push_sid (if class =? TOKEN_USER then nt_user else nt_administrators) w in
                (1, n, mk_token_buffer (Some p) 0, w1)
    end;
  open_process_token _ _ w := let '(t, w1) := open_handle (None, 0, true) w in (1, Some t, w1);
  set_entries_in_acl e w :=
    match tr_name (ea_trustee e) ≫= cell (nt_sids w) with
    | Some s => let '(a, w1) := allocate [mk_ace s (ea_access_permissions e) (ea_inheritance e)] w in (0, Some a, w1)
    | None => (87, None, w)
    end;
  set_security_info h _ information acl w :=
    match nt_acls w acl, (nt_view w h).1.1 with
    | Some entries, Some o =>
      if nt_refused w || (o <? 0) then (5, w) else
      (0, with_objects (imap (relist w o (mk_dacl (Z.testbit information 31) entries)) (nt_objects w)) w)
    | _, _ => (87, w)
    end;
  get_last_error w := nt_error w;
  make_directories path w :=
    (None, match find_object (windows_text path) w with
           | Some _ => w
           | None => with_objects (nt_objects w ++ [(windows_text path, new_directory)]) w
           end);
|}.

(** ** The laws *)

Lemma above_le l k : k ∈ l → k < above l.
Proof. unfold above. induction 1 as [k l|k j l _ IH]; cbn; lia. Qed.
Lemma above_fresh l : above l ∉ (list_to_set l : gset Z).
Proof. rewrite elem_of_list_to_set. intros H%above_le. lia. Qed.
Lemma filtered_set l k : list_to_set (filter (λ j, j ≠ k) l) =@{gset Z} list_to_set l ∖ {[k]}.
Proof. apply set_eq. intros j. rewrite elem_of_difference, !elem_of_list_to_set, list_elem_of_filter, elem_of_singleton. tauto. Qed.
Lemma cell_app {A} (l : list A) x k a : cell l k = Some a → cell (l ++ [x]) k = Some a.
Proof. unfold cell. destruct (k <? 0); [done|]. apply lookup_app_l_Some. Qed.
Lemma cell_end {A} (l : list A) x : cell (l ++ [x]) (Z.of_nat (length l)) = Some x.
Proof. unfold cell. rewrite (proj2 (Z.ltb_ge _ _)), Nat2Z.id by lia. by apply list_lookup_middle. Qed.
Lemma find_added w p x q : is_Some (find_object q w) → find_object q (with_objects (nt_objects w ++ [(p, x)]) w) = find_object q w.
Proof.
  unfold find_object. cbn. intros [k Hk]. destruct (list_find _ (nt_objects w)) as [[i y]|] eqn:H; [|done].
  by erewrite list_find_app_l by exact H.
Qed.
Lemma find_end w p x : find_object p w = None → find_object p (with_objects (nt_objects w ++ [(p, x)]) w) = Some (Z.of_nat (length (nt_objects w))).
Proof.
  unfold find_object. cbn. intros Hn. destruct (list_find _ (nt_objects w)) as [?|] eqn:H; [done|].
  rewrite list_find_app_r by exact H. cbn. by rewrite decide_True.
Qed.
Lemma find_cell w p o : find_object p w = Some o → is_Some (cell (nt_objects w) o).
Proof.
  unfold find_object, cell. intros ([i x] & H & ->)%fmap_Some. apply list_find_Some in H as (H & _). cbn.
  rewrite (proj2 (Z.ltb_ge _ _)), Nat2Z.id by lia. eauto.
Qed.

(** Views of the old handles, when one is opened. *)
Lemma opened_views w view k : k ∈ handles w → handle_view (open_handle view w).2 k = handle_view w k.
Proof.
  unfold handle_view, open_handle. cbn. rewrite elem_of_list_to_set. intros Hk%above_le. unfold update.
  by rewrite (proj2 (Z.eqb_neq _ _)) by lia.
Qed.
Lemma sids_pushed s w : sids_kept w (push_sid s w).2.
Proof. intros p t. apply cell_app. Qed.
Lemma sid_pushed s w : sid_at (push_sid s w).2 (push_sid s w).1 = Some s.
Proof. apply cell_end. Qed.
Lemma grown_end w p x : grown w (with_objects (nt_objects w ++ [(p, x)]) w).
Proof.
  split; [|intros q; apply find_added]. cbn. intros o [f Hf].
  destruct (cell (nt_objects w) o) as [y|] eqn:Hy; [|done]. by rewrite (cell_app _ _ _ _ Hy).
Qed.
Lemma cell_imap (g : nat → text * object → text * object) l o :
  cell (imap g l) o = g (Z.to_nat o) <$> cell l o.
Proof. unfold cell. destruct (Z.ltb_spec o 0); [done|]. by rewrite list_lookup_imap. Qed.
Lemma find_imap w g p :
  (∀ i x, (g i x).1 = x.1) → find_object p (with_objects (imap g (nt_objects w)) w) = find_object p w.
Proof.
  intros Hg. unfold find_object. cbn. revert g Hg. induction (nt_objects w) as [|x l IH]; intros g Hg; [done|].
  rewrite imap_cons. cbn. rewrite Hg. destruct (decide _); [done|]. specialize (IH (g ∘ S) (λ i, Hg (S i))).
  destruct (list_find _ (imap _ l)) as [[]|], (list_find _ l) as [[]|]; try done. cbn in *. injection IH as IH. f_equal. lia.
Qed.
Lemma relist_name w o d i x : (relist w o d i x).1 = x.1.
Proof. unfold relist. destruct (_ =? _); [done|]. destruct (cell _ o); [|done]. by destruct (inherits _ _ _ _ _). Qed.

(** The last error may differ, and nothing else. *)
Ltac stays := do 4 (split; [done|]); by intros ? ?.
#[export] Instance nt_laws : Win32Laws nt_host.
Proof.
  split.
  - intros path acc share disposition flags w h w'. cbn [create_file nt_calls]. unfold nt_create_file.
    destruct (Z.eqb_spec (above (nt_handles w)) INVALID_HANDLE_VALUE) as [Hinv|Hinv].
    { intros [= <- <-]. split; [done|]. split; [done|]. rewrite bool_decide_eq_true_2 by done. by split; [|split]. }
    destruct (find_object path w) as [o|] eqn:Hfind.
    + intros [= <- <-]. split; [done|]. split; [intros k; apply opened_views|]. rewrite bool_decide_eq_false_2 by done.
      split; [apply above_fresh|]. split; [done|]. cbn. unfold update. rewrite Z.eqb_refl. do 3 (split; [done|]).
      destruct (find_cell _ _ _ Hfind) as [x Hx]. exists o, x.2. split; [done|]. split; [done|]. by rewrite Hx.
    + destruct (Z.eqb_spec disposition _OPEN_ALWAYS) as [->|Hd].
      * intros [= <- <-]. split; [done|]. split; [intros k; apply opened_views|]. rewrite bool_decide_eq_false_2 by done.
        split; [apply above_fresh|]. split; [done|]. cbn [share_of nt_world]. unfold open_handle, update. cbn. rewrite Z.eqb_refl.
        split; [done|]. split; [apply grown_end|]. split; [done|]. eexists _, new_file. split; [done|].
        split; [by apply find_end|]. by rewrite cell_end.
      * intros [= <- <-]. split; [done|]. split; [done|]. rewrite bool_decide_eq_true_2 by done. split; [done|]. split; [done|].
        by intros _.
  - intros h w r w' [= <- <-] Hin. split; [done|]. split; [apply filtered_set|]. split; [done|]. split; [done|]. split; [by intros p s|done].
  - intros h w r w'. cbn. unfold held_object. destruct ((nt_view w h).1.1) as [o|] eqn:Ho; cbn.
    + destruct (cell (nt_objects w) o) as [x|] eqn:Hx; cbn; intros [= <- <-]; (split; [stays|]); [|done].
      intros o' f [= <-]. rewrite Hx. by intros [= <-].
    + intros [= <- <-]. by split; [stays|].
  - intros h flags n w r w' [= <- <-]. stays.
  - intros h n w r w' [= <- <-]. stays.
  - intros p q w r w' [= <- <-]. split; [stays|]. cbn. destruct (cell _ p) as [s|], (cell _ q) as [t|]; try done.
    case_bool_decide as Ht; [|done]. intros _. exists s. by subst.
  - intros rights w r token w' [= <- <- <-]. split; [done|]. split; [done|]. split; [intros k; apply opened_views|]. split; [done|].
    cbn. split; [apply above_fresh|]. split; [done|]. unfold update. by rewrite Z.eqb_refl.
  - intros token class size w r n b w' Hrun _. revert Hrun. cbn. destruct size as [k|].
    + intros [= <- <- <- <-]. split; [do 4 (split; [done|]); apply (sids_pushed _ w)|]. do 2 (split; [done|]).
      intros p _ [= <-]. split; intros ->; apply (sid_pushed _ w).
    + intros [= <- <- <- <-]. by split; [stays|].
  - intros h w code owner descriptor w'. cbn. destruct (held_object w h) as [f|] eqn:Hf.
    + intros [= <- <- <- <-]. do 3 (split; [done|]). split; [apply (sids_pushed _ w)|]. split; [done|].
      split; [split; [apply above_fresh|done]|]. intros p o g _ [= <-] Ho Hg. unfold held_object in Hf. rewrite Ho in Hf. cbn in Hf, Hg.
      replace g with f by congruence. apply (sid_pushed _ w).
    + intros [= <- <- <- <-]. do 3 (split; [done|]). split; [by intros p s|]. done.
  - intros entry w code acl w'. cbn. destruct (tr_name _ ≫= _) as [s|] eqn:Hs; intros [= <- <- <-]; cbn.
    + do 3 (split; [done|]). split; [apply above_fresh|]. split; [done|]. intros p t _ _ Hp Ht. unfold update. rewrite Z.eqb_refl.
      rewrite Hp in Hs. cbn in Hs. congruence.
    + by do 3 (split; [done|]).
  - intros h information acl entries w code w'. cbn. intros Hrun Hacl Hbit. revert Hrun. rewrite Hacl.
    destruct (nt_view w h).1.1 as [o|] eqn:Ho; [|by intros [= <- <-]; do 4 (split; [done|]); split; [|left]].
    destruct (nt_refused w || (o <? 0)) eqn:Href; intros [= <- <-].
    { do 4 (split; [done|]). split; [intros o' f _ Hf; by left|by left]. }
    apply orb_false_iff in Href as [_ Hpos]. do 3 (split; [done|]). split; [intros p; apply find_imap, relist_name|].
    split; cbn; setoid_rewrite cell_imap.
    + intros o' f [= <-]. destruct (cell (nt_objects w) o) as [x|] eqn:Hx; [|done]. intros [= <-]. right. cbn. unfold relist.
      by rewrite Z2Nat.id, Z.eqb_refl by lia.
    + intros k Hk. destruct (cell (nt_objects w) k) as [x|] eqn:Hx; [|by left]. cbn. unfold relist.
      assert (Z.of_nat (Z.to_nat k) = k) as Hid by (unfold cell in Hx; destruct (Z.ltb_spec k 0); [done|lia]).
      assert (k ≠ o) as Hne by congruence. rewrite Hid, (proj2 (Z.eqb_neq k o)) by done. destruct (cell (nt_objects w) o) as [t|] eqn:Ht; [|by left].
      destruct (inherits w o t (Z.to_nat k) x) eqn:Hi; [right|by left].
      pose proof Hi as [[[[Hdir Hprot]%andb_true_iff Hname%bool_decide_eq_true]%andb_true_iff
        Hk'%bool_decide_eq_true]%andb_true_iff Hu]%andb_true_iff. rewrite Hid in Hk'.
      exists o, t.2, x.2. split; [done|]. split; [by rewrite Ht|]. split; [unfold is_directory; lia|].
      split; [by exists t.1, x.1|]. split; [done|]. eexists. split; [by apply negb_true_iff|].
      split; [|cbn [object_at nt_world nt_objects with_objects]; rewrite cell_imap, Hx; cbn [fmap option_fmap option_map];
        by rewrite Hid, (proj2 (Z.eqb_neq k o) Hne), Hi]; done.
  - intros b w r w' [= <- <-] _. split; [done|]. split; [apply filtered_set|done].
  - intros path w r w' [= <- <-]. destruct (find_object _ w) eqn:Hf; [by do 3 (split; [done|])|]. do 3 (split; [done|]). apply grown_end.
Qed.

(** ** A run *)

Definition nt_path : Path := mk_path "C:\" ["Users"; "me"; "state"; "proactive.db"].
Definition empty_nt : nt_host := mk_nt [] [] (λ _, (None, 0, false)) [] (λ _, None) [] 0 false.
(** A write-ahead log of somebody else. *)
Definition foreign_log : nt_host :=
  with_objects [(windows_text (sidecar nt_path "-wal"), mk_object FILE_ATTRIBUTE_NORMAL 1 "S-1-1-0" (mk_dacl false []))] empty_nt.
Definition refusing (w : nt_host) : nt_host :=
  mk_nt (nt_objects w) (nt_handles w) (nt_view w) (nt_blocks w) (nt_acls w) (nt_sids w) (nt_error w) true.
Abbreviation nt_parent := (win32_prepare_private_parent nt_path empty_nt).
Abbreviation nt_prepared := (win32_prepare_private_database_file nt_path nt_parent.2).
Abbreviation nt_refused_log := (win32_prepare_private_database_file nt_path foreign_log).
Abbreviation nt_guarded := (win32_guard_enter nt_path nt_prepared.2).
Abbreviation nt_unguarded := (win32_guard_exit (4, 5) nt_guarded.2).
Abbreviation nt_locked := (win32_lock nt_path nt_prepared.2).

(** A directory that was there, with a log that inherited its list. *)
Definition shared_directory : nt_host :=
  with_objects [(windows_text (parent nt_path), new_directory);
                (windows_text (sidecar nt_path "-wal"), mk_object FILE_ATTRIBUTE_NORMAL 1 nt_user (mk_dacl false [mk_ace "S-1-1-0" GENERIC_ALL 0]))] empty_nt.
Example files_inherit_the_private_list :
  (λ x : text * object, ob_dacl x.2) <$> nt_objects (win32_prepare_private_parent nt_path shared_directory).2 =
  [private_dacl SUB_CONTAINERS_AND_OBJECTS_INHERIT;
   mk_dacl false [mk_ace nt_user GENERIC_ALL SUB_CONTAINERS_AND_OBJECTS_INHERIT]].
Proof. by vm_compute. Qed.

Lemma windows_storage_is_private_witness :
  nt_parent.1 = Ok tt ∧ nt_prepared.1 = Ok tt ∧ nt_handles nt_prepared.2 = [] ∧ nt_guarded.1 = Ok (4, 5) ∧
  (win32_prepare_private_database_file nt_path (refusing empty_nt)).1 = Err (mk_unsafe (Some 5)) ∧
  nt_refused_log.1 = Err (mk_unsafe None) ∧
  private_object SUB_CONTAINERS_AND_OBJECTS_INHERIT directory nt_parent.2 (windows_text (parent nt_path)) ∧
  files_private nt_path nt_prepared.2 ∧ secured NO_INHERITANCE (database_files nt_path) ∅ nt_parent.2 nt_prepared.2 ∧
  secured NO_INHERITANCE (database_files nt_path) ∅ foreign_log nt_refused_log.2 ∧
  guarded nt_path nt_prepared.2 nt_guarded.1 nt_guarded.2 ∧ locked nt_path nt_prepared.2 nt_locked.1 nt_locked.2 ∧
  nt_unguarded.1 = Ok tt ∧ let_go {[4; 5]} nt_guarded.2 nt_unguarded.2.
Proof.
  do 6 (split; [vm_compute; reflexivity|]).
  destruct (windows_storage_is_private nt_path empty_nt) as (Hparent & _).
  destruct (windows_storage_is_private nt_path nt_parent.2) as (_ & Hfiles & _).
  destruct (windows_storage_is_private nt_path foreign_log) as (_ & Hforeign & _).
  destruct (windows_storage_is_private nt_path nt_prepared.2) as (_ & _ & Hlock & _ & Henter & _).
  destruct (windows_storage_is_private nt_path nt_guarded.2) as (_ & _ & _ & _ & _ & Hexit).
  specialize (Hparent _ _ (surjective_pairing _)). specialize (Hfiles _ _ (or_introl (surjective_pairing _))).
  specialize (Hforeign _ _ (or_introl (surjective_pairing _))). specialize (Hlock _ _ (surjective_pairing _)).
  specialize (Henter _ _ (surjective_pairing _)). specialize (Hexit 4 5 _ _ (surjective_pairing _)).
  split; [apply Hparent; vm_compute; reflexivity|]. split; [apply Hfiles; vm_compute; reflexivity|].
  split; [apply Hfiles|].
  split; [apply Hforeign|].
  split; [exact Henter|].
  split; [exact Hlock|].
  assert (nt_handles nt_guarded.2 = [5; 4]) as H by (vm_compute; reflexivity).
  apply Hexit.
  - cbn [handles nt_world]. rewrite H. clear. set_solver.
  - discriminate.
  - cbn [handles nt_world]. rewrite H. clear. apply (bool_decide_eq_true_1 _). vm_compute. reflexivity.
Defined.
