(* ===== verification/Migrations.v ===== *)
(** Schema migrations ([store/migrations/__init__.py], [store/migrate.py], [ScalarReader] of
    [store/_database_support.py]): the packaged files in version order, their statements, and the one
    immediate transaction that applies the pending ones. *)
From S2P Require Import Prelude Runs Memory DeadlineText SystemdUnit Paths Services PrivatePaths.
#[local] Open Scope Z_scope.

(** ** Errors and the connection *)

Inductive store_exn :=
  | PathError (e : private_exn) | SqliteError | StoreQueryError | ReceiptErasurePendingError
  | MissingMigrationResourcesError | InvalidBusyTimeoutError | StoreClosedError.
#[export] Instance private_exn_eq_dec : EqDecision private_exn.
Proof. solve_decision. Defined.
#[export] Instance store_exn_eq_dec : EqDecision store_exn.
Proof. solve_decision. Defined.

Inductive param := PInt (z : Z) | PText (t : text).
(** A [sqlite3.Connection] in autocommit mode.  [capture_int] and [capture_str] execute a [SELECT]
    whose one column is passed to the capturing function of the reader, and give the values it was
    called with. *)
Class Connection (W : Type) := {
  execute : text → list param → M W store_exn unit;
  capture_int : text → list param → M W store_exn (list Z);
  capture_str : text → list param → M W store_exn (list text);
  in_transaction : W → bool;
}.

(** ** The packaged files *)

Section Files.
Context {U : Unicode} {T : CharTables}.

Fixpoint run_of (p : char → bool) (cs : list char) : list char * list char :=
  match cs with
  | c :: rest => if p c then let '(taken, others) := run_of p rest in (c :: taken, others) else ([], cs)
  | [] => ([], [])
  end.
(** [A-Za-z0-9_]. *)
Definition name_char (c : char) : bool := match ascii_code c with Some _ => is_word c | None => false end.
Definition number_of (cs : list char) : Z := foldl (λ n c, n * 10 + default 0 (decimal c)) 0 cs.
(** [_MIGRATION_NAME] and the [int] of its group; the classes of the pattern are disjoint from what
    follows them, so each run is as long as it can be. *)
Definition _MIGRATION_NAME (name : text) : option Z :=
  let '(digits, rest) := run_of (λ c, bool_decide (is_Some (decimal c))) (chars name) in
  match digits, rest with
  | _ :: _, "_"%string :: rest =>
    let '(word, rest) := run_of name_char rest in
    match word, rest with
    | _ :: _, ["."; "s"; "q"; "l"]%string => Some (number_of digits)
    | _ :: _, ["."; "s"; "q"; "l"; c]%string => if bool_decide (c = nl) then Some (number_of digits) else None
    | _, _ => None
    end
  | _, _ => None
  end.
(** [resources]: the entries of the package ([None]: there is no package), each with its decoded
    content. *)
Fixpoint load_entries (resources : list (text * res store_exn text)) : res store_exn (list (Z * text)) :=
  match resources with
  | [] => Ok []
  | (name, content) :: resources =>
    match _MIGRATION_NAME name with
    | None => load_entries resources
    | Some version => sql ← content; loaded ← load_entries resources; Ok ((version, sql) :: loaded)
    end
  end.
Definition migration_key (m : Z * text) : list sql_key := [KInt m.1; KText m.2].
Definition load_migrations (resources : option (list (text * res store_exn text))) : res store_exn (list (Z * text)) :=
  match resources with
  | None => Err MissingMigrationResourcesError
  | Some resources =>
    loaded ← load_entries resources;
    match loaded with [] => Err MissingMigrationResourcesError | _ => Ok (order_by migration_key loaded) end
  end.

(** ** Their statements *)

(** [sqlite3.complete_statement]. *)
Context (complete_statement : text → bool).

Definition candidate (pending : list text) : text := strip (join nl pending).
Fixpoint split_statements (pending lines : list text) : list text :=
  match lines with
  | [] => let trailing := candidate pending in if bool_decide (trailing = ""%string) then [] else [trailing]
  | line :: lines =>
    let pending := pending ++ [line] in
    if complete_statement (candidate pending) then candidate pending :: split_statements [] lines
    else split_statements pending lines
  end.
Definition _sql_statements (sql : text) : list text := split_statements [] (splitlines sql).
End Files.

(** ** Scalars *)

Section Store.
Context {W : Type} {C : Connection W} {U : Unicode} {T : CharTables}.
Context (complete_statement : text → bool) (resources : option (list (text * res store_exn text))).
Abbreviation op A := (M W store_exn A).

Definition query_int (select_sql : text) (params : list param) : op Z :=
  ints ← capture_int ("SELECT _proactive_capture_int((" +:+ select_sql +:+ "))") params;
  match ints with n :: _ => mret n | [] => raise StoreQueryError end.
Definition query_str (select_sql : text) : op text :=
  strs ← capture_str ("SELECT _proactive_capture_str((" +:+ select_sql +:+ "))") [];
  match strs with s :: _ => mret s | [] => raise StoreQueryError end.

(** ** The transaction *)

Definition count_query : text := "SELECT COUNT(*) FROM sqlite_master WHERE type = ? AND name = ?".
Definition count_params : list param := [PText "table"; PText "schema_migrations"].
Definition max_query : text := "SELECT COALESCE(MAX(version), 0) FROM schema_migrations".
Definition insert_version : text := "INSERT INTO schema_migrations (version) VALUES (?)".
Definition current_version : op Z :=
  table_count ← query_int count_query count_params;
  if table_count =? 0 then mret 0 else query_int max_query [].

Fixpoint execute_all (statements : list text) : op unit :=
  match statements with [] => mret tt | s :: statements => execute s [];; execute_all statements end.
(** The loop of [apply_migrations]. *)
Fixpoint apply_pending (current : Z) (migrations : list (Z * text)) : op unit :=
  match migrations with
  | [] => mret tt
  | (version, sql) :: migrations =>
    if version <=? current then apply_pending current migrations else
    execute_all (_sql_statements complete_statement sql);;
    execute insert_version [PInt version];;
    apply_pending version migrations
  end.
Definition rollback_if_active : op unit :=
  active ← gets in_transaction;
  if active : bool then execute "ROLLBACK" [] else mret tt.
Definition apply_migrations : op unit :=
  execute "BEGIN IMMEDIATE" [];;
  try_except
    (current ← current_version;
     migrations ← lift (load_migrations resources);
     apply_pending current migrations;;
     execute "COMMIT" [])
    (λ e, if bool_decide (e = SqliteError) then rollback_if_active;; raise e else raise e).
End Store.

(** ** What is split *)

Section Statements.
Context {U : Unicode} {T : CharTables} (complete_statement : text → bool).

(** The lines fall into consecutive groups, each group but an incomplete last one a complete
    statement, and only a blank last group is left out. *)
Theorem statements_cover_the_file sql :
  ∃ (groups : list (list text)) (tail : list text),
    splitlines sql = concat groups ++ tail ∧
    Forall (λ g, complete_statement (candidate g) = true) groups ∧
    _sql_statements complete_statement sql = (candidate <$> groups) ++ (if bool_decide (candidate tail = ""%string) then [] else [candidate tail]).
Proof.
  unfold _sql_statements.
  assert (∀ lines pending, ∃ (groups : list (list text)) (tail : list text),
    pending ++ lines = concat groups ++ tail ∧ Forall (λ g, complete_statement (candidate g) = true) groups ∧
    split_statements complete_statement pending lines =
      (candidate <$> groups) ++ (if bool_decide (candidate tail = ""%string) then [] else [candidate tail])) as H; [|apply (H _ [])].
  induction lines as [|line lines IH]; intros pending; cbn [split_statements].
  - exists [], pending. rewrite app_nil_r. done.
  - destruct (complete_statement _) eqn:Hc.
    + destruct (IH []) as (groups & tail & Hl & Hg & Hs). exists ((pending ++ [line]) :: groups), tail. cbn in Hl |- *.
      rewrite <- app_assoc, <- Hl, <- app_assoc, Hs. by repeat constructor.
    + destruct (IH (pending ++ [line])) as (groups & tail & Hl & Hg & Hs). exists groups, tail. by rewrite <- Hl, <- app_assoc.
Qed.
End Statements.

(** ** What a connection promises *)

(** The database of the connection: what is committed, and what its open transaction has made of it.
    [effect] is what a statement does, [ledger] the versions recorded, when their table is there. *)
Class ConnectionWorld (W D : Type) := {
  committed : W → D;
  view : W → D;
  effect : text → list param → D → D;
  ledger : D → option (list Z);
  controls : text → bool;
}.
Section World.
Context {W D : Type} {C : Connection W} {V : ConnectionWorld W D}.

Definition same_database (w w' : W) : Prop :=
  committed w' = committed w ∧ view w' = view w ∧ in_transaction w' = in_transaction w.
(** [controls] holds of the statements that begin or end transactions.  [BEGIN IMMEDIATE] may find
    what another process committed before the lock was free, and holds the lock from then on; a
    failing statement may have ended the transaction, as SQLite does on some errors. *)
Class ConnectionLaws : Prop := {
  begin_law w r w' : execute "BEGIN IMMEDIATE" [] w = (r, w') → in_transaction w = false →
    match r with
    | Ok _ => in_transaction w' = true ∧ view w' = committed w'
    | Err _ => in_transaction w' = false
    end;
  commit_law w r w' : execute "COMMIT" [] w = (r, w') → in_transaction w = true →
    match r with
    | Ok _ => in_transaction w' = false ∧ committed w' = view w ∧ view w' = view w
    | Err e => committed w' = committed w
    end;
  rollback_law w r w' : execute "ROLLBACK" [] w = (r, w') → in_transaction w = true →
    r = Ok tt ∧ in_transaction w' = false ∧ committed w' = committed w ∧ view w' = committed w;
  statement_law s ps w r w' : execute s ps w = (r, w') → controls s = false → in_transaction w = true →
    committed w' = committed w ∧ (r = Ok tt → in_transaction w' = true ∧ view w' = effect s ps (view w));
  execute_error s ps w e w' : execute s ps w = (Err e, w') → e = SqliteError;
  capture_law s ps w r w' : capture_int s ps w = (r, w') → same_database w w';
  count_law w ns w' : capture_int ("SELECT _proactive_capture_int((" +:+ count_query +:+ "))") count_params w = (Ok ns, w') →
    ns = [match ledger (view w) with None => 0 | Some _ => 1 end];
  max_law w vs ns w' : capture_int ("SELECT _proactive_capture_int((" +:+ max_query +:+ "))") [] w = (Ok ns, w') →
    ledger (view w) = Some vs → ns = [foldr Z.max 0 vs];
  insert_plain : controls insert_version = false;
  insert_effect v d : ledger (effect insert_version [PInt v] d) = (λ vs, vs ++ [v]) <$> ledger d;
}.
End World.

Section Proofs.
Context {W D : Type} {C : Connection W} {V : ConnectionWorld W D} {L : ConnectionLaws}.
Context {U : Unicode} {T : CharTables} (complete_statement : text → bool) (resources : option (list (text * res store_exn text))).
Implicit Types (w : W) (d : D).

(** What the transaction makes of a database. *)
Definition recorded d : Z := foldr Z.max 0 (default [] (ledger d)).
Definition applied (ss : list text) d : D := foldl (λ d s, effect s [] d) d ss.
Fixpoint migrated (current : Z) (ms : list (Z * text)) d : D :=
  match ms with
  | [] => d
  | (v, sql) :: ms =>
    if v <=? current then migrated current ms d
    else migrated v ms (effect insert_version [PInt v] (applied (_sql_statements complete_statement sql) d))
  end.
(** The packaged statements leave transactions alone. *)
Definition plain_files (ms : list (Z * text)) : Prop :=
  ∀ v sql s, (v, sql) ∈ ms → s ∈ _sql_statements complete_statement sql → controls s = false.

Lemma wp_query_int s ps (Q : res store_exn Z → W → Prop) w :
  (∀ r w', same_database w w' → (∀ n, r = Ok n → ∃ ns w1, capture_int ("SELECT _proactive_capture_int((" +:+ s +:+ "))") ps w = (Ok (n :: ns), w1)) → Q r w') →
  wp (query_int s ps) Q w.
Proof.
  intros HQ. unfold query_int. apply wp_bind, wp_intro. intros r w1 Hr. pose proof (capture_law _ _ _ _ _ Hr) as Hs.
  destruct r as [[|n ns]|e]; [by apply wp_raise, HQ| |by apply HQ]. apply wp_ret, HQ; [done|]. intros ? [= <-]. eauto.
Qed.
Lemma wp_current_version w :
  wp current_version (λ r w', same_database w w' ∧ ∀ n, r = Ok n → n = recorded (view w)) w.
Proof.
  unfold current_version. apply wp_bind, wp_query_int. intros r w1 Hw1 Hr. destruct r as [n|e]; [|done].
  destruct (Hr _ eq_refl) as (ns & w2 & Hc). apply count_law in Hc as [= -> _]. unfold recorded.
  destruct (ledger (view w)) as [vs|] eqn:Hl; cbn [Z.eqb]; [|by apply wp_ret; split; [|intros ? [= <-]]].
  apply wp_query_int. intros r w3 Hw3 Hr3. split.
  { destruct Hw1 as (? & ? & ?), Hw3 as (? & ? & ?). split; [congruence|]. split; congruence. }
  intros n ->. destruct (Hr3 _ eq_refl) as (ns' & w4 & Hm). eapply max_law in Hm as [= -> _]; [done|].
  destruct Hw1 as (_ & -> & _). done.
Qed.
(** Inside the transaction: nothing is committed, and a run that returns has done its part. *)
Definition in_progress w (f : D → D) (r : res store_exn unit) w' : Prop :=
  committed w' = committed w ∧ (r = Ok tt → in_transaction w' = true ∧ view w' = f (view w)).
Lemma wp_execute_all ss w :
  in_transaction w = true → (∀ s, s ∈ ss → controls s = false) →
  wp (execute_all ss) (in_progress w (applied ss)) w.
Proof.
  induction ss as [|s ss IH] in w |- *; intros Ht Hp; cbn [execute_all]; [by apply wp_ret|].
  apply wp_bind, wp_intro. intros r w1 [Hc1 Hr]%statement_law; [|apply Hp; set_solver|done].
  destruct r as [[]|e]; [|done]. destruct (Hr eq_refl) as [Ht1 Hv1].
  eapply wp_mono; [|apply IH; [done|intros; apply Hp; set_solver]]. intros r w2 [Hc2 Hr2].
  split; [congruence|]. intros Hok. destruct (Hr2 Hok) as [? ->]. by rewrite Hv1.
Qed.
Lemma wp_apply_pending current ms w :
  in_transaction w = true → plain_files ms →
  wp (apply_pending complete_statement current ms) (in_progress w (migrated current ms)) w.
Proof.
  induction ms as [|[v sql] ms IH] in current, w |- *; intros Ht Hp; cbn [apply_pending migrated]; [by apply wp_ret|].
  assert (plain_files ms) as Hp' by (intros v' sql' s Hin; apply (Hp v'); set_solver).
  destruct (v <=? current); [by apply IH|].
  apply wp_bind. eapply wp_mono; [|apply wp_execute_all; [done|intros s; apply (Hp v sql); set_solver]].
  intros r w1 [Hc1 Hr1]. destruct r as [[]|e]; [|done]. destruct (Hr1 eq_refl) as [Ht1 Hv1].
  apply wp_bind, wp_intro. intros r w2 [Hc2 Hr2]%statement_law; [|apply insert_plain|done].
  destruct r as [[]|e]; [|by split; [congruence|]]. destruct (Hr2 eq_refl) as [Ht2 Hv2].
  eapply wp_mono; [|by apply IH]. intros r w3 [Hc3 Hr3]. split; [congruence|]. intros Hok.
  destruct (Hr3 Hok) as [? ->]. by rewrite Hv2, Hv1.
Qed.

(** [BEGIN], the ledger, the files, the statements and [COMMIT]. *)
Lemma wp_pending_transaction w :
  in_transaction w = true → view w = committed w → (∀ ms, load_migrations resources = Ok ms → plain_files ms) →
  wp (current ← current_version;
      migrations ← lift (load_migrations resources);
      apply_pending complete_statement current migrations;;
      execute "COMMIT" [])
    (λ r w', match r with
       | Ok _ => ∃ ms, load_migrations resources = Ok ms ∧ in_transaction w' = false ∧
           committed w' = migrated (recorded (committed w)) ms (committed w)
       | Err _ => committed w' = committed w
       end) w.
Proof.
  intros Ht Hv Hp. apply wp_bind. eapply wp_mono; [|apply wp_current_version].
  intros r w1 ((Hc1 & Hv1 & Ht1) & Hr). destruct r as [n|e]; [|done]. rewrite (Hr _ eq_refl), Hv.
  apply wp_bind, wp_lift. destruct (load_migrations resources) as [ms|e] eqn:Hms; [|done].
  apply wp_bind. eapply wp_mono; [|apply wp_apply_pending; [by rewrite Ht1|by apply Hp]].
  intros r w2 [Hc2 Hr2]. destruct r as [[]|e]; [|congruence]. destruct (Hr2 eq_refl) as [Ht2 Hv2].
  apply wp_intro. intros r w3 Hr3%commit_law; [|done]. destruct r as [[]|e]; [|congruence].
  exists ms. split; [done|]. destruct Hr3 as (? & -> & _). rewrite Hv2, Hv1, Hv. done.
Qed.

(** C23. A run of the migrations commits all the pending ones, over what the database was when the lock
    was taken, or none; an SQLite error leaves no transaction open. *)
Theorem migrations_are_atomic w r w' :
  in_transaction w = false → (∀ ms, load_migrations resources = Ok ms → plain_files ms) →
  apply_migrations complete_statement resources w = (r, w') →
  ∃ r1 w1, execute "BEGIN IMMEDIATE" [] w = (r1, w1) ∧
    match r with
    | Ok _ => ∃ ms, load_migrations resources = Ok ms ∧ in_transaction w' = false ∧
        committed w' = migrated (recorded (committed w1)) ms (committed w1)
    | Err e => committed w' = committed w1 ∧ (e = SqliteError → in_transaction w' = false)
    end.
Proof.
  intros Ht Hp Hrun. destruct (execute "BEGIN IMMEDIATE" [] w) as [r1 w1] eqn:Hb. exists r1, w1. split; [done|].
  revert Hrun. unfold apply_migrations, mbind, M_bind. rewrite Hb.
  pose proof (begin_law _ _ _ Hb Ht) as Hb1. destruct r1 as [[]|e]; [|by intros [= <- <-]]. destruct Hb1 as [Ht1 Hv1].
  intros Hrun. pattern r, w'. refine (wp_run _ _ _ _ _ Hrun _). apply wp_try.
  eapply wp_mono; [|by apply (wp_pending_transaction w1)]. intros r2 w2 Hr2. destruct r2 as [[]|e]; [done|].
  case_bool_decide as He; [subst e|by apply wp_raise]. apply wp_bind. unfold rollback_if_active. apply wp_bind, wp_gets.
  destruct (in_transaction w2) eqn:Ht2; [|by apply wp_ret, wp_raise].
  apply wp_intro. intros r3 w3 (-> & Ht3 & Hc3 & _)%rollback_law; [|done]. apply wp_raise. split; [congruence|done].
Qed.

(** ** Applied once *)

(** The packaged statements touch the ledger only to create it. *)
Definition ledger_kept (ms : list (Z * text)) : Prop :=
  ∀ v sql s d, (v, sql) ∈ ms → s ∈ _sql_statements complete_statement sql →
    ledger (effect s [] d) = ledger d ∨ ledger d = None ∧ ledger (effect s [] d) = Some [].
Lemma applied_ledger ss d :
  (∀ s d, s ∈ ss → ledger (effect s [] d) = ledger d ∨ ledger d = None ∧ ledger (effect s [] d) = Some []) →
  ledger (applied ss d) = ledger d ∨ ledger d = None ∧ ledger (applied ss d) = Some [].
Proof.
  induction ss as [|s ss IH] in d |- *; intros H; [by left|]. change (applied (s :: ss) d) with (applied ss (effect s [] d)).
  destruct (IH (effect s [] d)) as [->|[Hn ->]]; [intros; apply H; set_solver|apply H; set_solver|].
  right. split; [|done]. destruct (H s d ltac:(set_solver)) as [<-|[_ Hs]]; [done|congruence].
Qed.
(** The files whose table is there before they are recorded: the first file creates it. *)
Definition ledger_created (ms : list (Z * text)) d : Prop :=
  is_Some (ledger d) ∨ ∃ v sql rest, ms = (v, sql) :: rest ∧ 0 < v ∧ is_Some (ledger (applied (_sql_statements complete_statement sql) d)).
Lemma migrated_ledger current ms d vs :
  ledger_kept ms → ledger d = Some vs → current = foldr Z.max 0 vs →
  ∃ vs', ledger (migrated current ms d) = Some (vs ++ vs') ∧ (∀ m, m ∈ ms → m.1 <= foldr Z.max 0 (vs ++ vs')).
Proof.
  induction ms as [|[v sql] ms IH] in current, d, vs |- *; intros Hk Hd ->; cbn [migrated].
  { exists []. rewrite app_nil_r. split; [done|]. by intros m ?%elem_of_nil. }
  assert (ledger_kept ms) as Hk' by (intros v' sql' s d' Hin; apply (Hk v'); set_solver).
  assert (∀ l l', foldr Z.max 0 l <= foldr Z.max 0 (l ++ l')) as Hmono.
  { intros l l'. induction l as [|x l IHl]; cbn; [induction l'; cbn; lia|lia]. }
  destruct (Z.leb_spec v (foldr Z.max 0 vs)) as [Hv|Hv].
  - destruct (IH _ d vs Hk' Hd eq_refl) as (vs' & Hl & Hm). exists vs'. split; [done|].
    intros m [->|Hin]%elem_of_cons; [|auto]. cbn. pose proof (Hmono vs vs'). lia.
  - assert (ledger (applied (_sql_statements complete_statement sql) d) = Some vs) as Ha.
    { destruct (applied_ledger (_sql_statements complete_statement sql) d) as [->|[Hn _]]; [|done|congruence].
      intros s d'. apply (Hk v sql). set_solver. }
    assert (foldr Z.max 0 (vs ++ [v]) = v) as Hmax.
    { clear -Hv. induction vs as [|x vs IHv]; cbn in *; [lia|]. rewrite IHv by lia. lia. }
    destruct (IH v (effect insert_version [PInt v] (applied (_sql_statements complete_statement sql) d)) (vs ++ [v])) as (vs' & Hl & Hm);
      [done|by rewrite insert_effect, Ha|by rewrite Hmax|].
    rewrite <- app_assoc in Hl, Hm. exists (v :: vs'). split; [done|]. intros m [->|Hin]%elem_of_cons; [|auto].
    cbn [fst]. change (vs ++ v :: vs') with (vs ++ [v] ++ vs'). rewrite app_assoc.
    pose proof (Hmono (vs ++ [v]) vs'). lia.
Qed.
Lemma migrated_done current ms d : (∀ m, m ∈ ms → m.1 <= current) → migrated current ms d = d.
Proof.
  induction ms as [|[v sql] ms IH]; intros H; [done|]. cbn [migrated].
  assert (v <= current) as Hv by (apply (H (v, sql)); set_solver). rewrite (proj2 (Z.leb_le v current) Hv). apply IH. set_solver.
Qed.
(** Every packaged file is recorded once it was applied, so the next run changes nothing. *)
Theorem migrations_apply_once ms d :
  ledger_kept ms → ledger_created ms d →
  let d' := migrated (recorded d) ms d in
  (∀ m, m ∈ ms → m.1 <= recorded d') ∧ migrated (recorded d') ms d' = d'.
Proof.
  intros Hk Hcreated d'. assert (∀ m, m ∈ ms → m.1 <= recorded d') as Hall; [|split; [done|by apply migrated_done]].
  unfold d', recorded. destruct (ledger d) as [vs|] eqn:Hd.
  - destruct (migrated_ledger (foldr Z.max 0 vs) ms d vs) as (vs' & Hl & Hm); [done..|]. cbn. by rewrite Hl.
  - destruct Hcreated as [[vs Hs]|(v & sql & rest & -> & Hpos & vs & Hvs)]; [congruence|].
    assert (vs = []) as ->.
    { destruct (applied_ledger (_sql_statements complete_statement sql) d) as [Ha|[_ Ha]]; [|congruence..].
      intros s d0. apply (Hk v sql). set_solver. }
    cbn [migrated default foldr]. rewrite (proj2 (Z.leb_gt v 0) Hpos).
    destruct (migrated_ledger v rest (effect insert_version [PInt v] (applied (_sql_statements complete_statement sql) d)) [v]) as (vs' & Hl & Hm).
    { intros v' sql' s d0 Hin. apply (Hk v'). set_solver. }
    { by rewrite insert_effect, Hvs. } { cbn. lia. }
    rewrite Hl. cbn [default]. intros m [->|Hin]%elem_of_cons; [cbn; lia|auto].
Qed.
End Proofs.

(** ** A connection that keeps the laws *)

(** Its database is the list of the statements executed, and some statements fail. *)
Definition sql_log : Type := list (text * list param).
Record sql_host := mk_sql_host { sh_committed : sql_log; sh_view : sql_log; sh_open : bool; sh_failing : list bool }.
Definition ledger_step (l : option (list Z)) (s : text * list param) : option (list Z) :=
  match s with
  | (s, [PInt v]) => if bool_decide (s = insert_version) then (λ vs, vs ++ [v]) <$> l else l
  | (s, _) => if String.prefix "CREATE TABLE schema_migrations" s then Some (default [] l) else l
  end.
Definition log_ledger (d : sql_log) : option (list Z) := foldl ledger_step None d.
Definition control_statements : list text := ["BEGIN IMMEDIATE"; "COMMIT"; "ROLLBACK"]%string.
Definition host_execute (s : text) (ps : list param) (w : sql_host) : res store_exn unit * sql_host :=
  let failing := default false (head (sh_failing w)) in
  let later := tail (sh_failing w) in
  if bool_decide (s = "ROLLBACK"%string) then (Ok tt, mk_sql_host (sh_committed w) (sh_committed w) false (sh_failing w)) else
  if failing then (Err SqliteError, mk_sql_host (sh_committed w) (sh_view w) (sh_open w) later) else
  if bool_decide (s = "BEGIN IMMEDIATE"%string) then (Ok tt, mk_sql_host (sh_committed w) (sh_committed w) true later) else
  if bool_decide (s = "COMMIT"%string) then (Ok tt, mk_sql_host (sh_view w) (sh_view w) false later)
  else (Ok tt, mk_sql_host (sh_committed w) (sh_view w ++ [(s, ps)]) (sh_open w) later).
#[export] Instance sql_connection : Connection sql_host := {|
  execute := host_execute;
  capture_int s _ w :=
    (Ok (if bool_decide (s = "SELECT _proactive_capture_int((" +:+ count_query +:+ "))")%string
         then [match log_ledger (sh_view w) with None => 0 | Some _ => 1 end]
         else [foldr Z.max 0 (default [] (log_ledger (sh_view w)))]), w);
  capture_str _ _ w := (Ok [], w);
  in_transaction := sh_open;
|}.
#[export] Instance sql_world : ConnectionWorld sql_host sql_log := {|
  committed := sh_committed; view := sh_view; effect s ps d := d ++ [(s, ps)]; ledger := log_ledger;
  controls s := bool_decide (s ∈ control_statements);
|}.
#[export] Instance sql_laws : ConnectionLaws (W := sql_host) (D := sql_log).
Proof.
  split.
  - intros w r w'. cbn. unfold host_execute. rewrite bool_decide_eq_false_2 by done. destruct (default _ _); by intros [= <- <-].
  - intros w r w'. cbn. unfold host_execute. rewrite bool_decide_eq_false_2 by done. destruct (default _ _); by intros [= <- <-].
  - intros w r w'. cbn. by intros [= <- <-].
  - intros s ps w r w' Hrun Hs%bool_decide_eq_false Ht. revert Hrun. cbn. unfold host_execute.
    rewrite !bool_decide_eq_false_2 by (unfold control_statements in Hs; set_solver). destruct (default _ _); by intros [= <- <-].
  - intros s ps w e w'. cbn. unfold host_execute. repeat case_match; congruence.
  - by intros s ps w r w' [= <- <-].
  - by intros w ns w' [= <- <-].
  - intros w vs ns w' [= <- <-] Hl. change (log_ledger (sh_view w) = Some vs) in Hl. by rewrite Hl.
  - done.
  - intros v d. cbn. unfold log_ledger. rewrite foldl_app. done.
Qed.

Definition ends_statement (s : text) : bool := bool_decide (last (chars s) = Some ";"%string).
Definition sample_files : option (list (text * res store_exn text)) :=
  Some [("002_items.sql", Ok ("CREATE TABLE items (id);" +:+ nl +:+ "CREATE INDEX i ON" +:+ nl +:+ " items (id);" +:+ nl));
        ("__init__.py", Ok "code");
        ("001_foundation.sql", Ok ("CREATE TABLE schema_migrations (version);" +:+ nl))]%string.
Definition fresh_database (failing : list bool) : sql_host := mk_sql_host [] [] false failing.
#[local] Existing Instances ascii_unicode hangul_tables.

Lemma migrations_are_atomic_witness :
  let run failing := apply_migrations ends_statement sample_files (fresh_database failing) in
  log_ledger (sh_committed (run []).2) = Some [1; 2] ∧
  (run [false; false; false; true]).1 = Err SqliteError ∧ committed (run [false; false; false; true]).2 = [] ∧
  (∃ r1 w1, execute "BEGIN IMMEDIATE" [] (fresh_database []) = (r1, w1) ∧ ∃ ms, load_migrations sample_files = Ok ms ∧
     in_transaction (run []).2 = false ∧
     committed (run []).2 = migrated ends_statement (recorded (committed w1)) ms (committed w1)) ∧
  (∃ r1 w1, execute "BEGIN IMMEDIATE" [] (fresh_database [false; false; false; true]) = (r1, w1) ∧
     committed (run [false; false; false; true]).2 = committed w1 ∧ (SqliteError = SqliteError → in_transaction (run [false; false; false; true]).2 = false)).
Proof.
  assert (∀ ms, load_migrations sample_files = Ok ms → plain_files ends_statement ms) as Hp.
  { intros ms Hms. vm_compute in Hms. injection Hms as <-. intros v sql s Hin Hs.
    repeat (apply elem_of_cons in Hin as [[= -> ->]|Hin]); [..|by apply elem_of_nil in Hin]; vm_compute in Hs;
      repeat (apply elem_of_cons in Hs as [->|Hs]); first [reflexivity|by apply elem_of_nil in Hs]. }
  split; [vm_compute; reflexivity|]. split; [vm_compute; reflexivity|]. split; [vm_compute; reflexivity|]. split.
  - apply (migrations_are_atomic (D := sql_log) ends_statement sample_files (fresh_database []) (Ok tt)); [done|exact Hp|vm_compute; reflexivity].
  - apply (migrations_are_atomic (D := sql_log) ends_statement sample_files (fresh_database [false; false; false; true]) (Err SqliteError));
      [done|exact Hp|vm_compute; reflexivity].
Defined.
Lemma migrations_apply_once_witness :
  ∃ ms, load_migrations sample_files = Ok ms ∧
    let d := migrated ends_statement 0 ms ([] : sql_log) in recorded d = 2 ∧ migrated ends_statement (recorded d) ms d = d.
Proof.
  eexists. split; [vm_compute; reflexivity|]. split; [vm_compute; reflexivity|].
  refine (proj2 (migrations_apply_once ends_statement _ ([] : sql_log) _ _)).
  - intros v sql s d Hin Hs.
    repeat (apply elem_of_cons in Hin as [[= -> ->]|Hin]); [..|by apply elem_of_nil in Hin]; vm_compute in Hs;
      repeat (apply elem_of_cons in Hs as [->|Hs]); try by apply elem_of_nil in Hs.
    all: unfold ledger, sql_world, effect, log_ledger; rewrite foldl_app; cbn; auto.
    destruct (foldl _ _ _) as [l|]; auto.
  - right. eexists _, _, _. split; [reflexivity|]. split; [lia|]. vm_compute. eauto.
Defined.
