(* ===== verification/Database.v ===== *)
(** Opening and closing the store ([store/_database_initialize.py], [store/_database_collaborators.py],
    [Store] of [store/database.py]): the private file, the lock around the migrations, the erasure of
    old receipts, and what a failed open and a close release. *)
From S2P Require Import Prelude Runs Memory DeadlineText SystemdUnit Paths Services PrivatePaths PrivateFiles Migrations.
#[local] Open Scope Z_scope.

(** The module [sqlite3] and the calls of a connection beside [execute]: [connect] to a target with a
    timeout in milliseconds, [create_function], and the row [PRAGMA wal_checkpoint(TRUNCATE)] gives. *)
Class Sqlite (W : Type) := {
  connect : text → Z → M W store_exn unit;
  connection_close : M W store_exn unit;
  set_autocommit : M W store_exn unit;
  create_function : text → M W store_exn unit;
  wal_checkpoint : M W store_exn (option (Z * Z * Z));
}.

Section Open.
Context {W : Type} {F : PosixCalls W} {B : WindowsBackend W} {C : Connection W} {Q : Sqlite W} {U : Unicode} {T : CharTables}.
Context (complete_statement : text → bool) (resources : option (list (text * res store_exn text))).
(** [os.name == "nt"], [os.getuid()] and [sys.platform]. *)
Context (nt : bool) (uid : Z) (platform : text).
Abbreviation op A := (M W store_exn A).

(** ** Initialization *)

Definition pending_erasure_query : text :=
  "SELECT COUNT(*) FROM migration_maintenance WHERE task = 'v9_receipt_erasure' AND pending = 1".
Definition erased_statement : text := "DELETE FROM migration_maintenance WHERE task = 'v9_receipt_erasure'".
Definition _complete_pending_receipt_erasure : op unit :=
  pending ← query_int pending_erasure_query [];
  if pending =? 0 then mret tt else
  result ← wal_checkpoint;
  match result with
  | None => raise ReceiptErasurePendingError
  | Some (busy, log_frames, checkpointed_frames) =>
    if negb (busy =? 0) || negb (log_frames =? 0) || negb (checkpointed_frames =? 0)
    then raise ReceiptErasurePendingError
    else execute erased_statement []
  end.
Definition initialize_connection : op unit :=
  set_autocommit;;
  execute "PRAGMA foreign_keys = ON" [];;
  execute "PRAGMA journal_mode = WAL" [];;
  create_function "_proactive_alias_norm";;
  create_function "_proactive_normalize_label";;
  create_function "_proactive_memory_content_norm";;
  apply_migrations complete_statement resources;;
  _complete_pending_receipt_erasure.
(** [ScalarReader.__init__]. *)
Definition ScalarReader_init : op unit :=
  create_function "_proactive_capture_int";;
  create_function "_proactive_capture_str".

(** ** Opening and closing *)

(** A call of the path modules. *)
Definition of_path {A} (m : M W private_exn A) : op A := try_except m (λ e, raise (PathError e)).
(** [except (OSError, sqlite3.Error, ReceiptErasurePendingError, UnsafeDatabasePathError)]. *)
Definition open_error (e : store_exn) : bool :=
  match e with PathError e => os_or_unsafe e | SqliteError | ReceiptErasurePendingError => true | _ => false end.

(** [guard]: what the guard holds, when it is given and entered. *)
Definition close_connection (connection : bool) (directory_fd database_fd : option Z) (path : Path)
    (guard : option (Z * Z)) (validate : bool) : op unit :=
  let validate_identity := validate && bool_decide (is_Some database_fd) in
  let verify := if validate_identity then of_path (verify_database_identity nt uid directory_fd path database_fd) else mret tt in
  finally_do
    (if connection then finally_do verify connection_close;; verify else mret tt)
    (of_path (guard_exit path guard);;
     of_path (close_optional database_fd);;
     of_path (close_optional directory_fd)).

Record StoreCollaborators := mk_collaborators {
  co_directory_fd : option Z; co_database_fd : option Z; co_database_guard : option (Z * Z) }.
(** The [except] clause around a part of [open_collaborators], at which the variables are these. *)
Definition released {A} (connection : bool) (directory_fd database_fd : option Z) (path : Path) (guard : option (Z * Z)) (m : op A) : op A :=
  try_except m (λ e,
    if open_error e then close_connection connection directory_fd database_fd path guard false;; raise e else raise e).
(** What happens inside the lock once the connection is there. *)
Definition open_locked (directory_fd database_fd : option Z) (path : Path) (busy_timeout_ms : Z) : op unit :=
  let verify := match database_fd with
    | Some _ => of_path (verify_database_identity nt uid directory_fd path database_fd)
    | None => mret tt
    end in
  verify;;
  execute ("PRAGMA busy_timeout = " +:+ pretty busy_timeout_ms) [];;
  ScalarReader_init;;
  initialize_connection;;
  verify;;
  of_path (enforce_private_sidecars nt uid platform directory_fd path);;
  verify.
(** The part of [open_collaborators] that its [except] clause covers. *)
Definition open_connection (path : Path) (busy_timeout_ms : Z) : op StoreCollaborators :=
  directory_fd ← of_path (open_private_parent nt uid platform path);
  let failed {A} connection database_fd guard (m : op A) := released connection directory_fd database_fd path guard m in
  database_fd ← failed false None None (of_path (prepare_private_database_file nt uid platform directory_fd path));
  database_fd ← (match database_fd with
    | Some d => if bool_decide (platform = "darwin"%string)
                then failed false (Some d) None (of_path (close d));; mret None
                else mret (Some d)
    | None => mret None
    end);
  guard ← failed false database_fd None (of_path (guard_enter nt path));
  lock_fd ← failed false database_fd guard (of_path (initialization_lock nt uid directory_fd path));
  let unlock := of_path (initialization_unlock nt path lock_fd) in
  failed false database_fd guard
    (try_except (connect (sqlite_connection_target nt platform directory_fd path) busy_timeout_ms)
       (λ e, unlock;; raise e));;
  failed true database_fd guard
    (finally_do
       (open_locked directory_fd database_fd path busy_timeout_ms;;
        of_path (initialization_check uid directory_fd path lock_fd))
       unlock);;
  mret (mk_collaborators directory_fd database_fd guard).
(** The functions the constructors of the stores create, in the order they run: the snapshots and the
    generations of [SyncStore], the reader of [SituationStore], then [MemoryStore],
    [DaemonStatusStore] and [FallbackStore]. *)
Definition capture_functions : list text := [
  "_proactive_capture_source_sync_state"; "_proactive_capture_gmail_diagnostics";
  "_proactive_capture_health_generation"; "_proactive_capture_credential_state";
  "_proactive_capture_source_generation_state";
  "_proactive_capture_situation"; "_proactive_capture_situation_str"; "_proactive_capture_situation_int";
  "_proactive_capture_memory_item"; "_proactive_capture_entity"; "_proactive_capture_memory_int";
  "_proactive_capture_daemon_heartbeat";
  "_proactive_capture_fallback_record"; "_proactive_capture_fallback_summary"]%string.
Fixpoint create_functions (names : list text) : op unit :=
  match names with
  | [] => mret tt
  | n :: names => create_function n;; create_functions names
  end.
Definition bind_stores : op unit := create_functions capture_functions.
Definition open_collaborators (path : Path) (busy_timeout_ms : Z) : op StoreCollaborators :=
  c ← open_connection path busy_timeout_ms;
  bind_stores;;
  mret c.

(** ** The store *)

(** [_path] is absolute; [_collaborators] is [None] once closed. *)
Record Store := mk_store { st_path : Path; st_collaborators : option StoreCollaborators }.
Definition DEFAULT_BUSY_TIMEOUT_MS : Z := 5000.
(** [path.expanduser().absolute()]; [None]: the home directory is unknown. *)
Definition absolute (home : text → option Path) (cwd p : Path) : option Path :=
  expanded ← expanduser home p; Some (if is_absolute expanded then expanded else join_path cwd expanded).
Definition Store_init (path : Path) (busy_timeout_ms : Z) : op Store :=
  if busy_timeout_ms <? 0 then raise InvalidBusyTimeoutError else
  collaborators ← open_collaborators path busy_timeout_ms;
  mret (mk_store path (Some collaborators)).
(** The store forgets its collaborators first, so that a close that raised is not repeated. *)
Definition Store_close (s : Store) : Store * op unit :=
  (mk_store (st_path s) None,
   match st_collaborators s with
   | None => mret tt
   | Some c => close_connection true (co_directory_fd c) (co_database_fd c) (st_path s) (co_database_guard c) true
   end).
Definition _require (s : Store) : op StoreCollaborators :=
  match st_collaborators s with None => raise StoreClosedError | Some c => mret c end.
Record DatabaseStatus := mk_status { ds_path : Path; ds_journal_mode : text; ds_busy_timeout : Z; ds_migration_version : Z }.
Definition Store_status (s : Store) : op DatabaseStatus :=
  _require s;;
  journal_mode ← query_str "SELECT journal_mode FROM pragma_journal_mode";
  busy_timeout ← query_int "SELECT timeout FROM pragma_busy_timeout" [];
  migration_version ← current_version;
  mret (mk_status (st_path s) journal_mode busy_timeout migration_version).
(** [with Store(path) as store: body]. *)
Definition with_store {A} (path : Path) (busy_timeout_ms : Z) (body : Store → op A) : op A :=
  s ← Store_init path busy_timeout_ms;
  finally_do (body s) (Store_close s).2.
End Open.
