(* ===== verification/StoreFacade.v ===== *)
(** The methods of [Store] ([store/database.py]) and of [SyncStore] behind it ([store/sync.py]): each
    runs one operation of a collaborator over the open store, and a closed store runs none. *)
From S2P Require Import Prelude Runs PyDate PyTime Models SourceSync Runtime Memory MemoryStore Health Paths PrivatePaths Migrations Database.
#[local] Open Scope Z_scope.

(** [self._require().collaborator.method(...)]: [None] is [StoreClosedError]. *)
Definition delegated {S E A} (s : Store) (m : M S E A) : M S (option E) A :=
  match st_collaborators s with
  | None => raise None
  | Some _ => try_except m (λ e, raise (Some e))
  end.
Definition read {S E A} (s : Store) (f : S → A) : M S (option E) A := delegated s (gets f).

Section Facade.
Context {U : Unicode} (parse_datetime : text → option Z) (s : Store).

(** ** Memories *)
Definition Store_remember memory now := delegated s (remember memory now).
Definition Store_recall query kind entity_kind path_prefix limit := delegated s (recall query kind entity_kind path_prefix limit).
Definition Store_update memory_id memory now := delegated s (update memory_id memory now).
Definition Store_list_entities kind path_prefix after_id limit := delegated s (list_entities kind path_prefix after_id limit).
Definition Store_forget memory_id now := delegated s (forget memory_id now).
Definition Store_list_dated_memories : M memory_db (option memory_exn) (list MemoryItem) := read s list_dated_memories.

(** ** Sources *)
Definition Store_try_start_evaluation now minimum_interval := delegated s (Gate.try_start now minimum_interval).
Definition Store_acquire_lazy_sync_lease now token lease_duration := delegated s (Lease.acquire now token lease_duration).
Definition Store_release_lazy_sync_lease lease := delegated s (Lease.release lease).
Definition Store_reserve_source_generation now source := delegated s (Generation.reserve now source).
Definition Store_source_generation_state source : M db (option exn) _ := read s (Generation.generation_state source).
Definition Store_source_health_snapshot : M db (option exn) _ := read s (health parse_datetime).
Definition Store_gmail_diagnostics : M db (option exn) _ := read s (λ d, read_diagnostics <$> gmail_diagnostics d).
Definition Store_get_source_sync source : M db (option exn) _ := read s (source_state parse_datetime source).
Definition Store_list_source_sync : M db (option exn) _ := read s (list_source_sync parse_datetime).
Definition Store_set_source_auth now source auth := delegated s (SyncState.set_auth now source auth).
Definition Store_set_google_auth_state now auth := delegated s (SyncState.set_google_auth_state now auth).
Definition Store_disconnect_google_auth now now' := delegated s (SyncState.disconnect_google_auth now now').
Definition Store_record_credential_state now state := delegated s (SyncState.record_credential_state now state).
Definition Store_record_gmail_sync now diagnostics cursor code := delegated s (SyncState.record_gmail_sync now diagnostics cursor code).
Definition Store_record_sync_success now source cursor := delegated s (SyncState.record_success now source cursor).
Definition Store_record_sync_failure now source code := delegated s (SyncState.record_failure now source code).
Definition Store_record_google_invalid_grant now diagnostics := delegated s (SyncState.record_google_invalid_grant now diagnostics).
End Facade.

(** A closed store refuses every call and leaves the database as it is; an open one is its
    collaborator. *)
Lemma closed_store_refuses {S E A} s (m : M S E A) d :
  st_collaborators s = None → delegated s m d = (Err None, d).
Proof. unfold delegated. by intros ->. Qed.
Lemma open_store_delegates {S E A} s c (m : M S E A) d :
  st_collaborators s = Some c →
  delegated s m d = (match (m d).1 with Ok a => Ok a | Err e => Err (Some e) end, (m d).2).
Proof. unfold delegated, try_except. intros ->. by destruct (m d) as [[a|e] d']. Qed.
