(* ===== verification/DatabaseSafety.v ===== *)
(** What opening and closing the store takes and releases: the handles and the connection of the
    process, for every outcome of the calls.  What the private paths of a platform promise is the class
    [StorageLaws]; [PosixResources] and [WindowsResources] show that they keep it. *)
From stdpp Require Import gmap.
From S2P Require Import Prelude Runs Memory DeadlineText SystemdUnit Paths Services PrivatePaths PrivateFiles Migrations Database.
#[local] Open Scope Z_scope.

(** The open descriptors or handles of the process, which numbers can be one, whether the connection
    of the store is open, and whether some close of a descriptor or of the connection, or some
    unlock, has failed so far. *)
Class Resources (W : Type) := { live : W → gset Z; usable : Z → Prop; connected : W → bool; unreleased : W → bool }.

(** ** Runs in which no release failed *)

(** [wpr m Q w]: the run of [m] from [w] ends as [Q] says, or some release has failed. *)
Module Released.
Section Wp.
Context {W : Type} {R : Resources W}.

Definition same_flag (w w' : W) : Prop := unreleased w' = unreleased w.
#[export] Instance same_flag_preorder : PreOrder same_flag.
Proof. split; [done|]. intros w1 w2 w3 H1 H2. unfold same_flag in *. congruence. Qed.
(** A failure is not forgotten. *)
Definition flag_kept (w w' : W) : Prop := unreleased w = true → unreleased w' = true.
#[export] Instance flag_kept_preorder : PreOrder flag_kept.
Proof. split; [by intros w Hw|]. intros w1 w2 w3 H1 H2. unfold flag_kept in *. auto. Qed.
Lemma same_flag_kept {E A} (m : M W E A) : Preserves same_flag m → Preserves flag_kept m.
Proof. intros Hm w r w' H%Hm. unfold flag_kept. by rewrite H. Qed.

Definition wpr {E A} (m : M W E A) (Q : res E A → W → Prop) (w : W) : Prop :=
  unreleased (m w).2 = true ∨ Q (m w).1 (m w).2.
Context {E : Type}.
Implicit Types w : W.
Lemma wpr_run {A} (m : M W E A) Q w r w' : m w = (r, w') → wpr m Q w → unreleased w' = true ∨ Q r w'.
Proof. unfold wpr. by intros ->. Qed.
Lemma wpr_intro {A} (m : M W E A) (Q : res E A → W → Prop) w : (∀ r w', m w = (r, w') → Q r w') → wpr m Q w.
Proof. intros H. right. apply H. by destruct (m w). Qed.
Lemma wpr_failed {A} (m : M W E A) (Q : res E A → W → Prop) w :
  (∀ r w', m w = (r, w') → unreleased w' = true ∨ Q r w') → wpr m Q w.
Proof. intros H. unfold wpr. destruct (m w) as [r w']. by apply H. Qed.
Lemma wpr_mono {A} (m : M W E A) (Q Q' : res E A → W → Prop) w : (∀ r w', Q r w' → Q' r w') → wpr m Q w → wpr m Q' w.
Proof. intros H [?|?]; [by left|right; by apply H]. Qed.
Lemma wpr_bind {A B} (m : M W E A) (f : A → M W E B) Q w {Hf : ∀ a, Preserves flag_kept (f a)} :
  wpr m (λ r w', match r with Ok a => wpr (f a) Q w' | Err e => Q (Err e) w' end) w → wpr (m ≫= f) Q w.
Proof.
  unfold wpr, mbind, M_bind. destruct (m w) as [[a|e] w1]; cbn; [|done]. intros [Hw|H]; [left|done].
  destruct (f a w1) as [r w2] eqn:H. by apply (Hf a _ _ _ H).
Qed.
Lemma wpr_ret {A} (a : A) (Q : res E A → W → Prop) w : Q (Ok a) w → wpr (mret a) Q w.
Proof. by right. Qed.
Lemma wpr_raise {A} (e : E) (Q : res E A → W → Prop) w : Q (Err e) w → wpr (raise e) Q w.
Proof. by right. Qed.
Lemma wpr_kept {A} (K : relation W) (P : E → Prop) (m : M W E A) (Q : res E A → W → Prop) w :
  Preserves K m → Raises P m → (∀ r w', K w w' → (∀ e, r = Err e → P e) → Q r w') → wpr m Q w.
Proof. intros Hm Hr HQ. right. refine (Runs.wp_run _ _ _ _ _ (surjective_pairing _) (Runs.wp_kept K P m Q w _ _ HQ)). Qed.
Lemma wpr_finally {A} (m : M W E A) (last : M W E unit) Q w {Hl : Preserves flag_kept last} :
  wpr m (λ r w1, wpr last (λ r2 w2, match r2 with Ok _ => Q r w2 | Err e => Q (Err e) w2 end) w1) w →
  wpr (finally_do m last) Q w.
Proof.
  unfold wpr, finally_do. destruct (m w) as [r w1]. cbn. destruct (last w1) as [r2 w2] eqn:H. cbn.
  intros [Hw|[Hw|HQ]]; destruct r2 as [[]|e]; cbn; auto; left; by apply (Hl _ _ _ H).
Qed.
End Wp.
Lemma wpr_try {W} {R : Resources W} {E E' A} (m : M W E A) (handler : E → M W E' A) Q w
    {Hh : ∀ e, Preserves flag_kept (handler e)} :
  wpr m (λ r w', match r with Ok a => Q (Ok a) w' | Err e => wpr (handler e) Q w' end) w → wpr (try_except m handler) Q w.
Proof.
  unfold wpr, try_except. destruct (m w) as [[a|e] w1]; cbn; [done|]. intros [Hw|H]; [left|done].
  destruct (handler e w1) as [r w2] eqn:H. by apply (Hh e _ _ _ H).
Qed.
#[export] Hint Extern 3 (Preserves flag_kept _) => apply same_flag_kept : typeclass_instances.
(** The rule of the next statement; what it goes on with forgets no failure. *)
Ltac step := first [apply wpr_bind; [apply _|] | apply wpr_try; [apply _|] | apply wpr_finally; [apply _|]].
End Released.
Import Released.

Section Laws.
Context {W : Type} {C : Connection W} {Q : Sqlite W} {R : Resources W}.

Definition steady (w w' : W) : Prop := live w' = live w ∧ connected w' = connected w.
#[export] Instance steady_preorder : PreOrder steady.
Proof. split; [done|]. intros w1 w2 w3 [H1 H2] [H3 H4]. split; congruence. Qed.
(** The same, where what an operation opens it closes itself. *)
Definition settling (w w' : W) : Prop := flag_kept w w' ∧ (unreleased w' = true ∨ steady w w').
#[export] Instance settling_preorder : PreOrder settling.
Proof.
  split; [by intros w; split; [|right]|]. intros w1 w2 w3 [F1 H1] [F2 H2]. split; [by etrans|].
  destruct H2 as [?|H2]; [by left|]. destruct H1 as [Hu|H1]; [left; by apply F2|right; by etrans].
Qed.
Lemma steady_settling {E A} (m : M W E A) : Preserves steady m → Preserves flag_kept m → Preserves settling m.
Proof. intros Hs Hf w r w' H. split; [by apply (Hf _ _ _ H)|right; by apply (Hs _ _ _ H)]. Qed.
(** The statements of a connection respect a relation. *)
Class Statements (K : relation W) : Prop := {
  #[global] execute_kept s ps :: Preserves K (execute s ps);
  #[global] capture_int_kept s ps :: Preserves K (capture_int s ps);
  #[global] set_autocommit_kept :: Preserves K set_autocommit;
  #[global] create_function_kept n :: Preserves K (create_function n);
  #[global] wal_checkpoint_kept :: Preserves K wal_checkpoint;
}.
(** SQLite's own descriptors are not counted. *)
Class SqliteLaws : Prop := {
  connect_res t ms w r w' : connect t ms w = (r, w') →
    live w' = live w ∧ match r with Ok _ => connected w' = true | Err e => e = SqliteError ∧ connected w' = connected w end;
  connection_close_res w r w' : connection_close w = (r, w') →
    match r with
    | Ok _ => live w' = live w ∧ connected w' = false ∧ unreleased w' = unreleased w
    | Err _ => unreleased w' = true
    end;
  #[global] connect_flag t ms :: Preserves same_flag (connect t ms);
  #[global] statements_steady :: Statements steady;
  #[global] statements_flag :: Statements same_flag;
}.
End Laws.

#[export] Hint Extern 3 (Preserves settling _) => apply steady_settling : typeclass_instances.

(** ** What the private paths promise *)

Section Interface.
Context {W : Type} {F : PosixCalls W} {B : WindowsBackend W} {R : Resources W}.

(** These handles are open beside those of [base]. *)
Definition held (base : gset Z) (l : list Z) (w : W) : Prop :=
  NoDup l ∧ list_to_set l ## base ∧ Forall usable l ∧ live w = list_to_set l ∪ base.
Lemma held_nil base w : live w = base → held base [] w.
Proof. intros H. split; [apply NoDup_nil_2|]. split; [set_solver|]. split; [done|]. rewrite H. set_solver. Qed.
Lemma held_none base w : held base [] w → live w = base.
Proof. intros (_ & _ & _ & ->). set_solver. Qed.
Lemma held_steady base l w w' : live w' = live w → held base l w → held base l w'.
Proof. intros Hl (H1 & H2 & H3 & H4). split; [done|]. split; [done|]. split; [done|congruence]. Qed.
(** What is taken beside what is held. *)
Lemma held_app base k l w w' : held base l w → held (live w) k w' → held base (k ++ l) w'.
Proof.
  intros (H1 & H2 & H3 & H4) (K1 & K2 & K3 & K4). rewrite H4 in K2, K4. split.
  - apply NoDup_app. split; [done|]. split; [|done]. intros x Hx Hl. apply (K2 x); set_solver.
  - split; [set_solver|]. split; [by apply Forall_app|]. rewrite K4. set_solver.
Qed.
(** The call leaves the connection, and adds the handles it returns. *)
Definition gains {A} (f : A → list Z) (w : W) (r : res private_exn A) (w' : W) : Prop :=
  connected w' = connected w ∧ match r with Ok a => held (live w) (f a) w' | Err _ => live w' = live w end.
(** The call leaves the connection and gives back the handles [k] of [k ++ l]; [sure]: it succeeds;
    or it was a release that failed. *)
Definition yields (sure : Prop) (k : list Z) (m : M W private_exn unit) : Prop :=
  ∀ base l w, held base (k ++ l) w →
    wpr m (λ r w', (sure → r = Ok tt) ∧ held base l w' ∧ connected w' = connected w) w.
Definition guard_handles (g : option (Z * Z)) : list Z := match g with Some (p, d) => [d; p] | None => [] end.

Class StorageLaws (nt : bool) (uid : Z) (platform : text) : Prop := {
  parent_gains path w : wpr (open_private_parent nt uid platform path) (λ r w',
    gains option_list w r w' ∧ ∀ d, r = Ok d → nt = true → d = None) w;
  database_gains d path w : wpr (prepare_private_database_file nt uid platform d path) (λ r w',
    gains option_list w r w' ∧ ∀ f, r = Ok f → nt = true → f = None) w;
  guard_gains path w : wpr (guard_enter nt path) (gains guard_handles w) w;
  lock_gains d path w : wpr (initialization_lock nt uid d path) (gains option_list w) w;
  descriptor_yields f : (nt = true → f = None) → yields True (option_list f) (close_optional f);
  guard_yields path g : (nt = false → g = None) → yields True (guard_handles g) (guard_exit path g);
  guard_only path w g w' : guard_enter nt path w = (Ok g, w') → nt = false → g = None;
  lock_yields path l : yields False (option_list l) (initialization_unlock nt path l);
  #[global] identity_kept d path f :: Preserves steady (verify_database_identity nt uid d path f);
  #[global] sidecars_kept d path :: Preserves settling (enforce_private_sidecars nt uid platform d path);
  check_kept d path l : (nt = true → d = None) → Preserves steady (initialization_check uid d path l);
  #[global] parent_flag path :: Preserves flag_kept (open_private_parent nt uid platform path);
  #[global] database_flag d path :: Preserves flag_kept (prepare_private_database_file nt uid platform d path);
  #[global] guard_enter_flag path :: Preserves flag_kept (guard_enter nt path);
  #[global] lock_flag d path :: Preserves flag_kept (initialization_lock nt uid d path);
  #[global] descriptor_flag fd :: Preserves flag_kept (close fd);
  #[global] guard_exit_flag path g :: Preserves flag_kept (guard_exit path g);
  #[global] unlock_flag path l :: Preserves flag_kept (initialization_unlock nt path l);
  #[global] identity_flag d path f :: Preserves flag_kept (verify_database_identity nt uid d path f);
  #[global] sidecars_flag d path :: Preserves flag_kept (enforce_private_sidecars nt uid platform d path);
  #[global] check_flag d path l :: Preserves flag_kept (initialization_check uid d path l);
}.
End Interface.

Section Kept.
Context {W : Type} {F : PosixCalls W} {B : WindowsBackend W} {C : Connection W} {Q : Sqlite W} {R : Resources W}.
Context {U : Unicode} {T : CharTables} (nt : bool) (uid : Z) (platform : text).
Context {LS : SqliteLaws} {LP : StorageLaws nt uid platform}.
Context (complete_statement : text → bool) (resources : option (list (text * res store_exn text))).

(** ** Operations that open nothing *)

#[export] Instance of_path_kept {A} (K : relation W) `{!PreOrder K} (m : M W private_exn A) : Preserves K m → Preserves K (of_path m).
Proof. unfold of_path. apply _. Qed.
Section Statements.
Context (K : relation W) `{!PreOrder K} {HK : Statements K}.
#[export] Instance query_int_kept q ps : Preserves K (query_int (W := W) q ps).
Proof. unfold query_int. apply preserves_bind; [apply _..|]. intros [|n ns]; apply _. Qed.
#[export] Instance execute_all_kept ss : Preserves K (execute_all (W := W) ss).
Proof. induction ss as [|s ss IH]; cbn [execute_all]; apply _. Qed.
#[export] Instance apply_pending_kept c ms : Preserves K (apply_pending (W := W) complete_statement c ms).
Proof. induction ms as [|[v sql] ms IH] in c |- *; cbn [apply_pending]; apply _. Qed.
#[export] Instance apply_migrations_kept : Preserves K (apply_migrations (W := W) complete_statement resources).
Proof. unfold apply_migrations, current_version, rollback_if_active. apply _. Qed.
#[export] Instance erasure_kept : Preserves K (_complete_pending_receipt_erasure (W := W)).
Proof.
  unfold _complete_pending_receipt_erasure. apply preserves_bind; [apply _..|]. intros n. destruct (n =? 0); [apply _|].
  apply preserves_bind; [apply _..|]. intros [[[busy log] done]|]; apply _.
Qed.
#[export] Instance reader_kept : Preserves K (ScalarReader_init (W := W)).
Proof. unfold ScalarReader_init. apply _. Qed.
#[export] Instance initialize_kept : Preserves K (initialize_connection (W := W) complete_statement resources).
Proof. unfold initialize_connection. apply _. Qed.
#[export] Instance create_functions_kept names : Preserves K (create_functions (W := W) names).
Proof. induction names as [|n names IH]; cbn [create_functions]; apply _. Qed.
End Statements.
#[export] Instance open_locked_kept d f path ms :
  Preserves settling (open_locked complete_statement resources nt uid platform d f path ms).
Proof. unfold open_locked. destruct f; apply _. Qed.

(** ** Failures are not forgotten *)

#[export] Instance open_locked_flag d f path ms :
  Preserves flag_kept (open_locked complete_statement resources nt uid platform d f path ms).
Proof. unfold open_locked. destruct f; apply _. Qed.
#[export] Instance connection_close_flag : Preserves flag_kept (connection_close (W := W)).
Proof.
  intros w r w' H%connection_close_res. unfold flag_kept. destruct r; [|by intros _].
  destruct H as (_ & _ & ->). done.
Qed.
#[export] Instance close_optional_flag f : Preserves flag_kept (close_optional f).
Proof. destruct f; cbn [close_optional]; apply _. Qed.
#[export] Instance close_connection_flag b d f path g v :
  Preserves flag_kept (close_connection nt uid b d f path g v).
Proof. unfold close_connection. destruct b, f, v; apply _. Qed.
#[export] Instance released_flag {A} b d f path g (m : M W store_exn A) :
  Preserves flag_kept m → Preserves flag_kept (released nt uid b d f path g m).
Proof. unfold released. apply _. Qed.

Lemma wp_of_path {A} (m : M W private_exn A) (P : res store_exn A → W → Prop) w :
  wpr m (λ r w', match r with Ok a => P (Ok a) w' | Err e => P (Err (PathError e)) w' end) w → wpr (of_path m) P w.
Proof. intros H. step. eapply wpr_mono; [|exact H]. intros [a|e] w1 HP; [done|by apply wpr_raise]. Qed.
Lemma wp_yields sure k l base (m : M W private_exn unit) (P : res store_exn unit → W → Prop) w :
  yields sure k m → held base (k ++ l) w →
  (∀ r w', (sure → r = Ok tt) → held base l w' → connected w' = connected w → P r w') → wpr (of_path m) P w.
Proof.
  intros Hm Hh HP. apply wp_of_path. eapply wpr_mono; [|by apply Hm]. intros r w' (Hr & Hh' & Hc).
  destruct r as [[]|e]; (apply HP; [|done..]); [done|]. intros Hs. specialize (Hr Hs). done.
Qed.
Lemma wp_yields_sure k l base (m : M W private_exn unit) (P : res store_exn unit → W → Prop) w :
  yields True k m → held base (k ++ l) w →
  (∀ w', held base l w' → connected w' = connected w → P (Ok tt) w') → wpr (of_path m) P w.
Proof. intros Hm Hh HP. eapply wp_yields; [done..|]. intros r w' Hr Hh' Hc. rewrite (Hr I). by apply HP. Qed.

(** ** Closing *)

(** What the store holds, in the order a close gives it back. *)
Definition owned (d f : option Z) (g : option (Z * Z)) : list Z := guard_handles g ++ option_list f ++ option_list d.
Definition platform_kind (d f : option Z) (g : option (Z * Z)) : Prop :=
  (nt = true → d = None) ∧ (nt = true → f = None) ∧ (nt = false → g = None).
Definition given_back (base : gset Z) (w : W) : Prop := live w = base ∧ connected w = false.

(** Whatever the checks say, a close gives everything back. *)
Lemma wp_close_connection connection base d f g path validate w :
  platform_kind d f g → held base (owned d f g) w → (connection = false → connected w = false) →
  wpr (close_connection nt uid connection d f path g validate)
    (λ r w', given_back base w' ∧ (validate = false → r = Ok tt)) w.
Proof.
  intros (Hd & Hf & Hg) Ho Hc. unfold close_connection. cbv zeta. set (verify := if _ && _ then _ else _).
  assert (Preserves steady verify) as Hv by (unfold verify; apply _).
  assert (validate = false → verify = mret tt) as Hret by (by intros ->).
  step. apply (wpr_mono _ (λ r w', held base (owned d f g) w' ∧ connected w' = false ∧ (validate = false → r = Ok tt))).
  - intros r w1 (Ho1 & Hc1 & Hr1). step. eapply wp_yields_sure; [by apply guard_yields|exact Ho1|].
    intros w2 Ho2 Hc2. step. eapply wp_yields_sure; [by apply descriptor_yields|exact Ho2|].
    intros w3 Ho3 Hc3. rewrite <- (app_nil_r (option_list d)) in Ho3.
    eapply wp_yields_sure; [by apply descriptor_yields|exact Ho3|].
    intros w4 Ho4 Hc4.
    split; [|done]. split; [by apply held_none|congruence].
  - destruct connection; [|by apply wpr_ret; auto]. step; step.
    apply (wpr_mono _ (λ r w1, live w1 = live w ∧ (validate = false → r = Ok tt))).
    2: { destruct validate; [|rewrite Hret by done; by apply wpr_ret].
      apply wpr_intro. intros r w1 [Hl1 _]%(preserves (R := steady)). done. }
    intros r w1 [Hl1 Hr1]. apply wpr_failed. intros [[]|e2] w2 Hclose%connection_close_res; [right|by left].
    destruct Hclose as (Hl2 & Hc2 & _).
    assert (held base (owned d f g) w2) as Ho2 by (eapply held_steady; [|exact Ho]; congruence).
    destruct r as [[]|e]; [|done]. destruct validate; [|rewrite Hret by done; by apply wpr_ret].
    apply wpr_intro. intros r3 w3 [Hl3 Hc3]%(preserves (R := steady)). split; [by eapply held_steady|]. split; [congruence|done].
Qed.

(** The [except] clause gives back what the failing part left open. *)
Lemma wp_released {A} connection base d f g path (m : M W store_exn A) (P : A → W → Prop) w :
  platform_kind d f g →
  wpr m (λ r w', match r with
    | Ok a => P a w'
    | Err e => held base (owned d f g) w' ∧ (connection = false → connected w' = false)
    end) w →
  wpr (released nt uid connection d f path g m)
    (λ r w', match r with Ok a => P a w' | Err e => open_error e → given_back base w' end) w.
Proof.
  intros Hk Hm. unfold released. step. eapply wpr_mono; [|exact Hm]. intros [a|e] w1 H; [done|]. destruct H as [Ho Hc].
  destruct (open_error e) eqn:He; [|by apply wpr_raise; rewrite He]. step. eapply wpr_mono; [|by apply (wp_close_connection _ base)].
  intros r w2 [Hg Hr]. rewrite Hr by done. by apply wpr_raise.
Qed.
(** A part that only takes handles. *)
Lemma wp_released_gains {A} (h : A → list Z) base d f g path (m : M W private_exn A) (P : A → Prop) w :
  platform_kind d f g → held base (owned d f g) w → connected w = false →
  wpr m (λ r w', gains h w r w' ∧ ∀ a, r = Ok a → P a) w →
  wpr (released nt uid false d f path g (of_path m))
    (λ r w', match r with
       | Ok a => P a ∧ held base (h a ++ owned d f g) w' ∧ connected w' = false
       | Err e => open_error e → given_back base w'
       end) w.
Proof.
  intros Hk Ho Hc Hm. apply (wp_released _ base _ _ _ _ _ (λ a w', P a ∧ held base (h a ++ owned d f g) w' ∧ connected w' = false)); [done|].
  apply wp_of_path. eapply wpr_mono; [|exact Hm]. intros r w1 [[Hc1 Hr1] Hp1]. destruct r as [a|e].
  - split; [by apply Hp1|]. split; [by eapply held_app|congruence].
  - split; [by eapply held_steady|congruence].
Qed.

(** ** Opening *)

(** What an opened store holds, and what a failed open gave back. *)
Definition opened_store (base : gset Z) (c : StoreCollaborators) (w : W) : Prop :=
  platform_kind (co_directory_fd c) (co_database_fd c) (co_database_guard c) ∧
  held base (owned (co_directory_fd c) (co_database_fd c) (co_database_guard c)) w ∧ connected w = true.
Lemma wp_open_connected base d f g path ms l w :
  platform_kind d f g → held base (option_list l ++ owned d f g) w → connected w = true →
  wpr (finally_do
        (open_locked complete_statement resources nt uid platform d f path ms;;
         of_path (initialization_check uid d path l))
        (of_path (initialization_unlock nt path l)))
    (λ r w', held base (owned d f g) w' ∧ (r = Ok tt → connected w' = true)) w.
Proof.
  intros (Hd & _ & _) Ho Hc. step. pose proof (check_kept d path l Hd) as Hcheck.
  apply wpr_failed. intros r w1 [_ [Hu|[Hl1 Hc1]]]%(preserves (R := settling)); [by left|right].
  apply (held_steady _ _ _ _ Hl1) in Ho.
  eapply (wp_yields False); [by apply lock_yields|exact Ho|]. intros r2 w2 _ Ho2 Hc2.
  destruct r2; (split; [done|]); [intros _; congruence|done].
Qed.
Lemma wp_open_connection path ms w :
  connected w = false →
  wpr (open_connection complete_statement resources nt uid platform path ms)
    (λ r w', match r with
       | Ok c => opened_store (live w) c w'
       | Err e => open_error e → given_back (live w) w'
       end) w.
Proof.
  intros Hc. unfold open_connection. set (base := live w). step; apply wp_of_path.
  eapply wpr_mono; [|apply parent_gains]. intros r w1 [[Hc1 Hr1] Hd]. destruct r as [d|e]; [|by intros _; split; [|congruence]].
  specialize (Hd d eq_refl). apply (held_app base _ _ _ _ (held_nil base w eq_refl)) in Hr1. rewrite app_nil_r in Hr1.
  assert (connected w1 = false) as Hc1' by congruence.
  step. eapply wpr_mono; [|apply (wp_released_gains option_list base d None None path _ (λ f, nt = true → f = None) w1); [done..|apply database_gains]].
  intros r w2 Hr2. destruct r as [f0|e]; [|done]. destruct Hr2 as (Hf0 & Ho2 & Hc2).
  step. apply (wpr_mono _ (λ r w3, match r with
    | Ok f => (nt = true → f = None) ∧ held base (owned d f None) w3 ∧ connected w3 = false
    | Err e => open_error e → given_back base w3 end)).
  2: { destruct f0 as [f0|]; [|by apply wpr_ret]. case_bool_decide; [|by apply wpr_ret]. step.
    eapply wpr_mono; [|apply (wp_released false base d (Some f0) None path _ (λ _ w3, held base (owned d None None) w3 ∧ connected w3 = false)); [done|]].
    - intros [[]|e] w3 H3; [by apply wpr_ret|done].
    - eapply (wp_yields_sure _ (option_list d)); [exact (descriptor_yields (Some f0) Hf0)|exact Ho2|].
    intros w3 Ho3 Hc3.
      split; [done|congruence]. }
  intros r w3 Hr3. destruct r as [f|e]; [|done]. destruct Hr3 as (Hf & Ho3 & Hc3). clear w2 f0 Hf0 Ho2 Hc2.
  step. eapply wpr_mono; [|apply (wp_released_gains guard_handles base d f None path _ (λ g, nt = false → g = None) w3); [done..|]].
  2: { apply wpr_failed. intros r w4 Hrun. destruct (wpr_run _ _ _ _ _ Hrun (guard_gains path w3)) as [Hu|Hgain]; [by left|right].
    split; [done|]. intros g ->. by apply (guard_only path w3 g w4). }
  intros r w4 Hr4. destruct r as [g|e]; [|done]. destruct Hr4 as (Hg & Ho4 & Hc4).
  assert (platform_kind d f g) as Hk by done.
  step. eapply wpr_mono; [|apply (wp_released_gains option_list base d f g path _ (λ _, True) w4); [done..|]].
  2: { eapply wpr_mono; [|apply lock_gains]. done. }
  intros r w5 Hr5. destruct r as [l|e]; [|done]. destruct Hr5 as (_ & Ho5 & Hc5).
  step. eapply wpr_mono; [|apply (wp_released false base d f g path _
    (λ _ w6, held base (option_list l ++ owned d f g) w6 ∧ connected w6 = true)); [done|]].
  2: { step; apply wpr_intro. intros r w6 [Hl6 Hr6]%connect_res. apply (held_steady _ _ _ _ Hl6) in Ho5. destruct r as [[]|e]; [done|].
    destruct Hr6 as [-> Hc6]. step. eapply (wp_yields False); [by apply lock_yields|exact Ho5|].
    intros r w7 _ Ho7 Hc7. destruct r as [[]|e]; [apply wpr_raise|]; (split; [done|congruence]). }
  intros r w6 H6. destruct r as [[]|e]; [|done]. destruct H6 as [Ho6 Hc6].
  step. eapply wpr_mono; [|apply (wp_released true base d f g path _
    (λ _ w7, held base (owned d f g) w7 ∧ connected w7 = true)); [done|]].
  - intros r w7 H7. destruct r as [[]|e]; [|done]. by apply wpr_ret.
  - eapply wpr_mono; [|by apply wp_open_connected]. intros [[]|e] w7 [H7 H8]; [by split; [|apply H8]|done].
Qed.

(** The errors of an open after which it may keep what it took: one its [except] clause does not name,
    or one of the constructors after it. *)
Definition keeps (path : Path) (ms : Z) (w : W) (e : store_exn) (w' : W) : Prop :=
  open_error e = false ∨
  ∃ c w1, open_connection complete_statement resources nt uid platform path ms w = (Ok c, w1) ∧ bind_stores w1 = (Err e, w').

(** C32. A [with Store(...)] block gives back every descriptor or handle and the connection it took, whatever
    its body and the checks of its close did, unless a close or an unlock failed itself: the close goes
    through its releases in order and leaves the rest when one raises. Only an open may keep some without
    that, when it failed with an error its handler does not name or in the constructors after it. *)
Theorem stores_release_what_they_take {A} path ms (body : Store → M W store_exn A) w r w' :
  connected w = false → unreleased w = false →
  (∀ s, Preserves steady (body s)) → (∀ s, Preserves same_flag (body s)) →
  with_store complete_statement resources nt uid platform path ms body w = (r, w') →
  given_back (live w) w' ∨
  unreleased w' = true ∨
  ∃ e, Store_init complete_statement resources nt uid platform path ms w = (Err e, w') ∧ r = Err e ∧ keeps path ms w e w'.
Proof.
  intros Hc _ Hbody Hflag Hrun. pose proof (wp_open_connection path ms w Hc) as Hopen.
  unfold with_store, Store_init, open_collaborators, keeps in *. destruct (ms <? 0).
  { injection Hrun as <- <-. by left. }
  unfold wpr in Hopen. unfold mbind, M_bind in *. destruct (open_connection _ _ _ _ _ _ _ w) as [[c|e] w0]; cbn in Hopen.
  2: { injection Hrun as <- <-. destruct Hopen as [Hu|Hopen]; [by right; left|].
    destruct (open_error e) eqn:He; [left; by apply Hopen|right; right]. eauto. }
  destruct (bind_stores w0) as [[[]|e] w1] eqn:Hbind; [|injection Hrun as <- <-; right; right; eauto 10].
  assert (flag_kept w0 w1) as Hf0 by (refine (preserves _ _ _ Hbind); unfold bind_stores; apply _).
  apply (preserves (R := steady)) in Hbind as [Hl1 Hc1]. cbn in Hrun. revert Hrun. unfold finally_do.
  destruct (body _ w1) as [r1 w2] eqn:Hb. assert (flag_kept w1 w2) as Hf1 by exact (preserves _ _ _ Hb).
  apply (preserves (R := steady)) in Hb as [Hl2 Hc2].
  destruct (close_connection _ _ _ _ _ _ _ _ w2) as [r2 w3] eqn:Hclose. intros Hend.
  assert (w3 = w') as -> by (destruct r2 as [[]|e]; by injection Hend).
  destruct Hopen as [Hu|(Hk & Ho & Hc0)].
  { right. left. assert (flag_kept w2 w') as Hf2 by exact (preserves _ _ _ Hclose). by apply Hf2, Hf1, Hf0. }
  apply (held_steady _ _ w0 w2 (eq_trans Hl2 Hl1)) in Ho.
  destruct (wpr_run _ _ _ _ _ Hclose (wp_close_connection true (live w) _ _ _ path true w2 Hk Ho ltac:(done))) as [Hu|[Hg _]]; auto.
Qed.
End Kept.
