(* ===== verification/PosixResources.v ===== *)
(** The private paths of POSIX keep the interface of [DatabaseSafety]: the descriptors each call takes
    and gives back. *)
From stdpp Require Import gmap.
From S2P Require Import Prelude Runs Paths Services PrivatePaths PrivateFiles Migrations Database DatabaseSafety.
Import Released.
#[local] Open Scope Z_scope.

Section Laws.
Context {W : Type} {F : PosixCalls W} {R : Resources W}.

(** A call that opens a descriptor. *)
Definition opens (w : W) (r : res private_exn Z) (w' : W) : Prop :=
  connected w' = connected w ∧
  match r with
  | Ok fd => fd ∉ live w ∧ live w' = {[fd]} ∪ live w
  | Err e => is_os_error e ∧ live w' = live w
  end.
(** Only [open] and [close] change what is open; the calls raise [OSError]s.  Closing a descriptor
    and unlocking it may fail, which is remembered; then nothing is told of what is open. *)
Class ResourceLaws : Prop := {
  open_root_res w r w' : open_root w = (r, w') → opens w r w';
  open_directory_res d n w r w' : open_directory d n w = (r, w') → opens w r w';
  open_file_res d n a c m w r w' : open_file d n a c m w = (r, w') → opens w r w';
  close_res fd w r w' : close fd w = (r, w') →
    match r with
    | Ok _ => unreleased w' = unreleased w ∧ (fd ∈ live w → connected w' = connected w ∧ live w' = live w ∖ {[fd]})
    | Err _ => unreleased w' = true
    end;
  unlock_res fd w r w' : flock fd false w = (r, w') →
    match r with Ok _ => unreleased w' = unreleased w | Err _ => unreleased w' = true end;
  #[global] mkdir_res d n m :: Preserves steady (mkdir d n m);
  #[global] fstat_res fd :: Preserves steady (fstat fd);
  #[global] stat_at_res d n :: Preserves steady (stat_at d n);
  #[global] fchmod_res fd m :: Preserves steady (fchmod fd m);
  #[global] chmod_descriptor_res fd m :: Preserves steady (chmod_descriptor fd m);
  #[global] flock_res fd b :: Preserves steady (flock fd b);
  #[global] mkdir_raises d n m :: Raises is_os_error (mkdir d n m);
  #[global] fstat_raises fd :: Raises is_os_error (fstat fd);
  #[global] stat_at_raises d n :: Raises is_os_error (stat_at d n);
  #[global] fchmod_raises fd m :: Raises is_os_error (fchmod fd m);
  #[global] chmod_descriptor_raises fd m :: Raises is_os_error (chmod_descriptor fd m);
  #[global] flock_raises fd b :: Raises is_os_error (flock fd b);
  #[global] open_root_flag :: Preserves same_flag open_root;
  #[global] open_directory_flag d n :: Preserves same_flag (open_directory d n);
  #[global] open_file_flag d n a c m :: Preserves same_flag (open_file d n a c m);
  #[global] mkdir_flag d n m :: Preserves same_flag (mkdir d n m);
  #[global] fstat_flag fd :: Preserves same_flag (fstat fd);
  #[global] stat_at_flag d n :: Preserves same_flag (stat_at d n);
  #[global] fchmod_flag fd m :: Preserves same_flag (fchmod fd m);
  #[global] chmod_descriptor_flag fd m :: Preserves same_flag (chmod_descriptor fd m);
  #[global] flock_flag fd :: Preserves same_flag (flock fd true);
  every_descriptor_usable fd : usable fd;
}.
End Laws.

Section Kept.
Context {W : Type} {F : PosixCalls W} {R : Resources W} {L : ResourceLaws}.
Context (uid : Z) (platform : text).

(** ** Failures are not forgotten *)

#[export] Instance close_flag fd : Preserves flag_kept (close (W := W) fd).
Proof. intros w r w' H%close_res. unfold flag_kept. destruct r; [|by intros _]. destruct H as [-> _]. done. Qed.
#[export] Instance flock_either_flag fd b : Preserves flag_kept (flock (W := W) fd b).
Proof. destruct b; [apply _|]. intros w r w' H%unlock_res. unfold flag_kept. destruct r; [by rewrite H|done]. Qed.
#[export] Instance unsafe_os_error_flag {A} e : Preserves flag_kept (unsafe_os_error (W := W) (A := A) e).
Proof. unfold unsafe_os_error. apply _. Qed.
#[export] Instance verify_private_file_flag s : Preserves flag_kept (verify_private_file (W := W) uid s).
Proof. unfold verify_private_file. apply _. Qed.
#[export] Instance verify_open_name_flag d n fd : Preserves flag_kept (verify_open_name (W := W) uid d n fd).
Proof. unfold verify_open_name. apply _. Qed.
#[export] Instance verify_private_directory_flag fd b : Preserves flag_kept (_verify_private_directory (W := W) uid fd b).
Proof. unfold _verify_private_directory. destruct b; apply _. Qed.
#[export] Instance suppress_flag p m : Preserves flag_kept m → Preserves flag_kept (suppress (W := W) p m).
Proof. unfold suppress. apply _. Qed.
#[export] Instance open_component_flag fd part : Preserves flag_kept (open_component (W := W) fd part).
Proof. unfold open_component. apply _. Qed.
#[export] Instance walk_flag fd parts : Preserves flag_kept (walk (W := W) uid fd parts).
Proof. induction parts as [|part parts IH] in fd |- *; cbn [walk]; apply _. Qed.
#[export] Instance open_parent_flag path : Preserves flag_kept (posix_open_private_parent (W := W) uid path).
Proof. unfold posix_open_private_parent. apply _. Qed.
#[export] Instance close_on_error_flag {A} p fd (m : M W private_exn A) :
  Preserves flag_kept m → Preserves flag_kept (close_on_error p fd m).
Proof. unfold close_on_error. apply _. Qed.
#[local] Hint Extern 4 (Preserves flag_kept (match ?c with MustExist => _ | _ => _ end)) => destruct c : typeclass_instances.
#[export] Instance open_private_file_flag d n a c : Preserves flag_kept (_open_private_file (W := W) uid d n a c).
Proof. unfold _open_private_file. apply _. Qed.
#[export] Instance inspect_sidecar_flag d n : Preserves flag_kept (inspect_sidecar (W := W) uid platform d n).
Proof. unfold inspect_sidecar. apply _. Qed.
#[export] Instance secure_sidecar_flag d n : Preserves flag_kept (_secure_existing_sidecar (W := W) uid platform d n).
Proof. unfold _secure_existing_sidecar. apply _. Qed.
#[export] Instance enforce_flag d path : Preserves flag_kept (posix_enforce_private_sidecars (W := W) uid platform d path).
Proof. unfold posix_enforce_private_sidecars. apply _. Qed.
#[export] Instance prepare_flag d path : Preserves flag_kept (posix_prepare_private_database_file (W := W) uid platform d path).
Proof. unfold posix_prepare_private_database_file. apply _. Qed.
#[export] Instance lock_release_flag fd : Preserves flag_kept (lock_release (W := W) fd).
Proof. unfold lock_release. apply _. Qed.
#[export] Instance lock_acquire_flag d path : Preserves flag_kept (lock_acquire (W := W) uid d path).
Proof. unfold lock_acquire. apply _. Qed.

(** ** Operations that open nothing *)

#[local] Instance os_raises {A} (m : M W private_exn A) : Raises is_os_error m → Raises os_or_unsafe m.
Proof. intros Hm w e w' H%Hm. unfold os_or_unsafe. by destruct (is_os_error e). Qed.
#[export] Instance verify_private_file_kept s : Preserves steady (verify_private_file (W := W) uid s).
Proof. unfold verify_private_file. apply _. Qed.
#[export] Instance verify_private_file_raises s : Raises os_or_unsafe (verify_private_file (W := W) uid s).
Proof. unfold verify_private_file. apply _. Qed.
#[export] Instance verify_open_name_kept d n fd : Preserves steady (verify_open_name uid d n fd).
Proof. unfold verify_open_name. apply _. Qed.
#[export] Instance verify_open_name_raises d n fd : Raises os_or_unsafe (verify_open_name uid d n fd).
Proof. unfold verify_open_name. apply _. Qed.
#[export] Instance verify_private_directory_kept fd b : Preserves steady (_verify_private_directory uid fd b).
Proof. unfold _verify_private_directory. destruct b; apply _. Qed.
#[export] Instance verify_private_directory_raises fd b : Raises os_or_unsafe (_verify_private_directory uid fd b).
Proof. unfold _verify_private_directory. destruct b; apply _. Qed.
#[export] Instance unsafe_os_error_kept {A} e : Preserves steady (unsafe_os_error (W := W) (A := A) e).
Proof. unfold unsafe_os_error. apply _. Qed.
Lemma unsafe_os_error_raises {A} e : is_os_error e → Raises os_or_unsafe (unsafe_os_error (W := W) (A := A) e).
Proof. unfold unsafe_os_error. destruct (is_os_error e); [intros _; apply _|done]. Qed.

(** ** Operations that open a descriptor *)

(** The descriptor [fd] is open beside those of [base]. *)
Definition holding (base : gset Z) (fd : Z) (w : W) : Prop := fd ∉ base ∧ live w = {[fd]} ∪ base.
(** A descriptor is open beside those that were, or an error left them as they were. *)
Definition acquired (w : W) (base : gset Z) (r : res private_exn Z) (w' : W) : Prop :=
  connected w' = connected w ∧ match r with Ok fd => holding base fd w' | Err e => os_or_unsafe e ∧ live w' = base end.

Lemma opens_acquired w r w' : opens w r w' → acquired w (live w) r w'.
Proof. intros [Hc Hr]. split; [done|]. destruct r as [fd|e]; [done|]. destruct Hr as [He Hl]. split; [|done]. unfold os_or_unsafe. by destruct (is_os_error e). Qed.
Lemma acquired_steady w0 w base r w' : steady w0 w → acquired w base r w' → acquired w0 base r w'.
Proof. intros [_ Hc] [Hc' Hr]. split; [congruence|done]. Qed.
Lemma holding_steady base fd w w' : steady w w' → holding base fd w → holding base fd w'.
Proof. intros [Hl _] [? ?]. split; [done|congruence]. Qed.
Lemma holding_live base fd w : holding base fd w → fd ∈ live w.
Proof. intros [_ ->]. set_solver. Qed.
Lemma wp_close fd base (P : res private_exn unit → W → Prop) w :
  holding base fd w → (∀ w', connected w' = connected w → live w' = base → P (Ok tt) w') → wpr (close fd) P w.
Proof.
  intros [Hn Hl] HP. apply wpr_failed. intros [[]|e] w' Hclose%close_res; [right|by left].
  destruct Hclose as [_ [Hc Hl']]; [set_solver|]. apply HP; [done|]. rewrite Hl', Hl. set_solver.
Qed.
(** [close] in an [except] clause. *)
Lemma wp_close_raise {A} fd base e w :
  holding base fd w → os_or_unsafe e →
  wpr (close fd;; raise (A := A) e) (λ r w', connected w' = connected w ∧ live w' = base ∧ ∃ e', r = Err e' ∧ os_or_unsafe e') w.
Proof. intros Hh He. step. eapply wp_close; [done|]. intros w' Hc Hl. apply wpr_raise. eauto 6. Qed.

Lemma wp_opened_part fd part w :
  wpr (open_component fd part) (acquired w (live w)) w.
Proof.
  unfold open_component. step; apply wpr_intro. intros r w1 H1%open_directory_res. pose proof H1 as [Hc1 Hr1].
  destruct r as [fd'|e]; [by apply opens_acquired|]. destruct Hr1 as [He Hl1].
  destruct (is_not_found e).
  2: { unfold unsafe_os_error. destruct (is_os_error e); [|done]. apply wpr_raise. by split; [|split]. }
  step. unfold suppress. step; apply (wpr_kept steady is_os_error); [apply _..|]. intros r w2 [Hl2 Hc2] Hr2.
  assert (steady w w2) as Hs by (split; congruence).
  assert (wpr (open_directory fd part) (acquired w (live w)) w2) as Hagain.
  { apply wpr_intro. intros r3 w3 H3%open_directory_res%opens_acquired. destruct Hs as [Hl Hc]. rewrite Hl in H3.
    eapply (acquired_steady _ w2); [by split|done]. }
  destruct r as [[]|e2]; [exact Hagain|]. destruct (is_exists e2); [by apply wpr_ret|]. apply wpr_raise.
  split; [apply Hs|]. split; [|apply Hs]. specialize (Hr2 _ eq_refl). unfold os_or_unsafe. by destruct (is_os_error e2).
Qed.
Lemma wp_walked_parts parts fd base w :
  holding base fd w → wpr (walk uid fd parts) (acquired w base) w.
Proof.
  induction parts as [|part parts IH] in fd, w |- *; intros Hh; cbn [walk]; [by apply wpr_ret|].
  step; step. eapply wpr_mono; [|apply wp_opened_part]. intros r w1 [Hc1 Hr1].
  destruct r as [next|e].
  2: { destruct Hr1 as [He Hl1]. eapply wpr_mono; [|apply (wp_close_raise _ base); [|done]].
    - intros r w2 (Hc2 & Hl2 & e' & -> & He'). split; [congruence|done].
    - split; [apply Hh|]. rewrite Hl1. apply Hh. }
  destruct Hr1 as [Hn1 Hl1], Hh as [Hn Hl]. step; step; apply (wp_close _ ({[next]} ∪ base)).
  { split; [|rewrite Hl1, Hl]; set_solver. }
  intros w2 Hc2 Hl2. assert (holding base next w2) as Hh2 by (split; [set_solver|done]).
  step; step; apply (wpr_kept steady os_or_unsafe); [apply _..|]. intros r w3 Hs3 Hr3.
  apply (holding_steady _ _ _ _ Hs3) in Hh2. destruct Hs3 as [_ Hc3]. destruct r as [[]|e].
  2: { eapply wpr_mono; [|apply (wp_close_raise _ base); [done|by apply Hr3]].
    intros r w4 (Hc4 & Hl4 & e' & -> & He'). split; [congruence|done]. }
  eapply wpr_mono; [|by apply IH]. intros r w4 [Hc4 Hr4]. split; [congruence|done].
Qed.
Lemma wp_posix_open_private_parent path w :
  wpr (posix_open_private_parent uid path) (acquired w (live w)) w.
Proof.
  unfold posix_open_private_parent. destruct (negb _); [by apply wpr_raise|]. step; apply wpr_intro.
  intros r w1 [Hc1 Hr1]%open_root_res%opens_acquired. destruct r as [fd|e]; [|done].
  eapply wpr_mono; [|by apply wp_walked_parts]. intros r w2 [Hc2 Hr2]. split; [congruence|done].
Qed.
Lemma wp_open_private_file d n a c w :
  wpr (_open_private_file uid d n a c) (acquired w (live w)) w.
Proof.
  unfold _open_private_file.
  assert (∀ e w1, os_or_unsafe e → steady w w1 → acquired w (live w) (Err e) w1) as Herr.
  { intros e w1 He [Hl Hc]. split; [done|]. by split. }
  assert (∀ e w1, is_os_error e → steady w w1 → wpr (unsafe_os_error e) (acquired w (live w)) w1) as Hunsafe.
  { intros e w1 He Hs. unfold unsafe_os_error. destruct (is_os_error e); [|done]. by apply wpr_raise, Herr. }
  assert (∀ w1 r w2, steady w w1 → open_file d n a c _PRIVATE_FILE_MODE w1 = (r, w2) →
    match r with Ok fd => acquired w (live w) (Ok fd) w2 | Err e => is_os_error e ∧ steady w w2 end) as Hopen.
  { intros w1 r w2 [Hl Hc] [Hc2 Hr2]%open_file_res. destruct r as [fd|e].
    - split; [congruence|]. rewrite Hl in Hr2. done.
    - destruct Hr2 as [He Hl2]. split; [done|]. split; congruence. }
  step; apply (wpr_mono _ (acquired w (live w))).
  2: { step; apply wpr_intro. intros r w1 Hr%Hopen; [|done]. destruct r as [fd|e]; [done|]. destruct Hr as [He Hs].
    destruct (is_not_found e); [|by apply Hunsafe]. destruct c; [by apply wpr_raise, Herr|..].
    all: step; apply wpr_intro; intros r w2 Hr2%Hopen; [|done]; destruct r as [fd|e2]; [done|]; destruct Hr2; by apply Hunsafe. }
  intros r w1 [Hc1 Hr1]. destruct r as [fd|e]; [|done]. unfold close_on_error.
  step; apply wpr_intro. intros r w2 Hrun.
  assert (steady w1 w2) as Hs2. { refine (preserves _ _ _ Hrun). }
  assert (∀ e, r = Err e → os_or_unsafe e) as Hr2. { intros e ->. exact (raises (P := λ e, Is_true (os_or_unsafe e)) _ _ _ Hrun). }
  apply (holding_steady _ _ _ _ Hs2) in Hr1. destruct Hs2 as [Hl2 Hc2]. destruct r as [fd'|e].
  - do 4 (apply bind_ok in Hrun as (? & ? & _ & Hrun)). injection Hrun as <- <-. split; [congruence|done].
  - specialize (Hr2 _ eq_refl). destruct (os_or_unsafe e) eqn:He; [|done]. eapply wpr_mono; [|apply (wp_close_raise _ (live w)); [done|by rewrite He]].
    intros r w3 (Hc3 & Hl3 & e' & -> & He'). split; [congruence|done].
Qed.

(** An operation that opened nothing that it did not close. *)
Definition settled {A} (w : W) (r : res private_exn A) (w' : W) : Prop := steady w w' ∧ ∀ e, r = Err e → os_or_unsafe e.
Lemma wp_settled {A} (m : M W private_exn A) w : Preserves steady m → Raises os_or_unsafe m → wpr m (settled w) w.
Proof. intros Hm Hr. by apply (wpr_kept steady os_or_unsafe). Qed.
(** A body under [finally: close]. *)
Lemma wp_finally_close fd (m : M W private_exn unit) w0 w :
  connected w = connected w0 → holding (live w0) fd w → wpr m (settled w) w → wpr (finally_do m (close fd)) (settled w0) w.
Proof.
  intros Hc0 Hh Hm. step. eapply wpr_mono; [|exact Hm]. intros r w1 [Hs1 Hr1].
  eapply wp_close; [by eapply holding_steady|]. intros w2 Hc2 Hl2. destruct Hs1 as [_ Hc1].
  split; [|done]. split; [done|congruence].
Qed.
Lemma wp_inspect_sidecar d n w : wpr (inspect_sidecar uid platform d n) (settled w) w.
Proof.
  unfold inspect_sidecar. destruct (negb _); [by apply wpr_ret|]. step; step; step; apply (wpr_kept steady is_os_error); [apply _..|].
  intros r w1 Hs1 Hr1. destruct r as [s|e].
  - apply wpr_ret. step; apply (wpr_kept steady os_or_unsafe); [apply _..|]. intros r2 w2 Hs2 Hr2. destruct r2 as [[]|e].
    + apply wpr_ret. split; [by etrans|done].
    + split; [by etrans|]. intros ? [= <-]. by apply Hr2.
  - specialize (Hr1 _ eq_refl). destruct (is_not_found e); [apply wpr_ret, wpr_ret; by split|].
    unfold unsafe_os_error. destruct (is_os_error e); [|done]. apply wpr_raise. split; [done|]. by intros ? [= <-].
Qed.
Lemma wp_secure_existing_sidecar d n w : wpr (_secure_existing_sidecar uid platform d n) (settled w) w.
Proof.
  unfold _secure_existing_sidecar. step. eapply wpr_mono; [|apply wp_inspect_sidecar]. intros r w1 [Hs1 Hr1].
  destruct r as [[[]|]|e]; [by apply wpr_ret| |by split; [|intros ? [= <-]; apply Hr1]].
  step; step; step; apply wpr_intro. intros r w2 [Hc2 Hr2]%open_file_res. destruct r as [fd|e].
  - apply wpr_ret. apply wp_finally_close; [by rewrite Hc2; apply Hs1|by rewrite <- (proj1 Hs1)|].
    step. eapply wpr_mono; [|apply wp_settled; apply _]. intros r w3 [Hs3 Hr3]. destruct r as [[]|e]; [done|].
    specialize (Hr3 _ eq_refl). unfold unsafe_os_error. destruct (is_os_error e); apply wpr_raise; (split; [done|]); by intros ? [= <-].
  - destruct Hr2 as [He Hl2]. assert (steady w w2) as Hs2 by (destruct Hs1; split; congruence).
    destruct (is_not_found e); [apply wpr_ret, wpr_ret; by split|].
    unfold unsafe_os_error. destruct (is_os_error e); [|done]. apply wpr_raise. split; [done|]. by intros ? [= <-].
Qed.
Lemma wp_enforce_private_sidecars d path w : wpr (posix_enforce_private_sidecars uid platform d path) (settled w) w.
Proof.
  unfold posix_enforce_private_sidecars. step. eapply wpr_mono; [|apply wp_open_private_file]. intros r w1 [Hc1 Hr1].
  destruct r as [fd|e].
  2: { destruct Hr1 as [He Hl1]. split; [by split|]. by intros ? [= <-]. }
  step. eapply wp_close; [done|]. intros w2 Hc2 Hl2. assert (steady w w2) as Hs by (split; congruence).
  step. eapply wpr_mono; [|apply wp_secure_existing_sidecar]. intros r w3 [Hs3 Hr3].
  assert (steady w w3) as Hs' by (by etrans). destruct r as [[]|e]; [|by split; [|intros ? [= <-]; apply Hr3]].
  step. eapply wpr_mono; [|apply wp_secure_existing_sidecar]. intros r w4 [Hs4 Hr4].
  assert (steady w w4) as Hs'' by (by etrans). destruct r as [[]|e]; [|by split; [|intros ? [= <-]; apply Hr4]].
  eapply wpr_mono; [|apply wp_secure_existing_sidecar]. intros r w5 [Hs5 Hr5]. split; [by etrans|done].
Qed.
Lemma wp_posix_prepare d path w : wpr (posix_prepare_private_database_file uid platform d path) (acquired w (live w)) w.
Proof.
  unfold posix_prepare_private_database_file. step. eapply wpr_mono; [|apply wp_open_private_file]. intros r w1 [Hc1 Hr1].
  destruct r as [fd|e]; [|done]. step. unfold close_on_error. step. eapply wpr_mono; [|apply wp_enforce_private_sidecars].
  intros r w2 [Hs2 Hr2]. apply (holding_steady _ _ _ _ Hs2) in Hr1. destruct Hs2 as [_ Hc2]. destruct r as [[]|e].
  - apply wpr_ret. split; [congruence|done].
  - eapply wpr_mono; [|apply (wp_close_raise _ (live w)); [done|by apply Hr2]].
    intros r w3 (Hc3 & Hl3 & e' & -> & He'). split; [congruence|done].
Qed.
Lemma wp_lock_release fd base (P : res private_exn unit → W → Prop) w :
  holding base fd w → (∀ w', connected w' = connected w → live w' = base → P (Ok tt) w') → wpr (lock_release fd) P w.
Proof.
  intros Hh HP. unfold lock_release. step; apply wpr_failed. intros r w1 Hr.
  pose proof (preserves (R := steady) _ _ _ Hr) as Hs. pose proof (unlock_res _ _ _ _ Hr) as Hu. destruct r as [[]|e]; [right|by left].
  eapply wp_close; [by eapply holding_steady|]. intros w2 Hc2 Hl2. apply HP; [|done]. destruct Hs. congruence.
Qed.
Lemma wp_lock_acquire d path w : wpr (lock_acquire uid d path) (acquired w (live w)) w.
Proof.
  unfold lock_acquire. step. eapply wpr_mono; [|apply wp_open_private_file]. intros r w1 [Hc1 Hr1].
  destruct r as [fd|e]; [|done]. step; step; apply (wpr_kept steady os_or_unsafe); [apply _..|]. intros r w2 Hs2 Hr2.
  apply (holding_steady _ _ _ _ Hs2) in Hr1. destruct Hs2 as [_ Hc2]. destruct r as [[]|e].
  - apply wpr_ret. split; [congruence|done].
  - step. eapply wp_lock_release; [done|]. intros w3 Hc3 Hl3. apply wpr_raise. specialize (Hr2 _ eq_refl).
    split; [congruence|done].
Qed.

(** ** The interface *)

(** There is no backend of Windows to forget a failure. *)
Context {B : WindowsBackend W} {HB : ∀ path g, Preserves flag_kept (windows_guard_exit path g)}.
Lemma holding_held base fd w : holding base fd w → held base [fd] w.
Proof.
  intros [Hn Hl]. split; [apply NoDup_singleton|]. split; [set_solver|].
  split; [apply Forall_singleton, every_descriptor_usable|]. rewrite Hl. set_solver.
Qed.
Lemma held_holding base fd l w : held base (fd :: l) w → holding (list_to_set l ∪ base) fd w.
Proof. intros ([Hn _]%NoDup_cons & Hd & _ & Hl). split; [set_solver|]. rewrite Hl. set_solver. Qed.
Lemma held_tail base fd l w w' : held base (fd :: l) w → live w' = list_to_set l ∪ base → held base l w'.
Proof. intros ([_ Hn]%NoDup_cons & Hd & [_ Hu]%Forall_cons & _) Hl. split; [done|]. split; [set_solver|done]. Qed.
(** A descriptor taken, as an optional one. *)
Lemma wp_gains (m : M W private_exn Z) w :
  wpr m (acquired w (live w)) w → wpr (d ← m; mret (Some d)) (gains option_list w) w.
Proof.
  intros Hm. step. eapply wpr_mono; [|exact Hm]. intros r w1 [Hc Hr]. destruct r as [d|e].
  - apply wpr_ret. split; [done|]. by apply holding_held.
  - split; [done|]. apply Hr.
Qed.
Lemma close_yields fd (m : M W private_exn unit) :
  (∀ base w, holding base fd w → wpr m (λ r w', r = Ok tt ∧ live w' = base ∧ connected w' = connected w) w) → yields True [fd] m.
Proof.
  intros Hm base l w Hh. eapply wpr_mono; [|by apply Hm, held_holding]. intros r w' (-> & Hl & Hc). split; [done|]. split; [|done].
  by eapply held_tail.
Qed.
#[export] Instance check_steady d path l : Preserves steady (initialization_check uid d path l).
Proof. unfold initialization_check, lock_check. destruct d, l; apply _. Qed.
#[export] Instance enforce_private_sidecars_kept d path : Preserves settling (posix_enforce_private_sidecars uid platform d path).
Proof.
  intros w r w' H. split; [by apply (preserves (R := flag_kept) _ _ _ H)|].
  destruct (wpr_run _ _ _ _ _ H (wp_enforce_private_sidecars d path w)) as [Hu|[Hs _]]; auto.
Qed.
#[export] Instance posix_storage : StorageLaws false uid platform.
Proof.
  split.
  - intros path w. apply (wpr_mono _ (gains option_list w)); [done|]. unfold open_private_parent.
    destruct (negb (is_absolute path)); [by apply wpr_raise|]. destruct (bool_decide _); [by apply wpr_raise|].
    destruct (negb _); [by apply wpr_raise|]. apply wp_gains, wp_posix_open_private_parent.
  - intros d path w. apply (wpr_mono _ (gains option_list w)); [done|]. unfold prepare_private_database_file.
    destruct d as [d|]; [|by apply wpr_raise]. apply wp_gains, wp_posix_prepare.
  - intros path w. apply wpr_ret. split; [done|]. by apply held_nil.
  - intros d path w. unfold initialization_lock. destruct d as [d|]; [|by apply wpr_raise]. apply wp_gains, wp_lock_acquire.
  - intros f _. destruct f as [f|].
    + apply close_yields. intros base w Hh. by eapply wp_close.
    + intros base l w Hh. by apply wpr_ret.
  - intros path g Hg. rewrite Hg by done. intros base l w Hh. by apply wpr_ret.
  - by intros path w g w' [= <- _].
  - intros path l base k w Hh. destruct l as [l|]; [|by apply wpr_ret].
    eapply wpr_mono; [|apply (close_yields l (lock_release l)); [|exact Hh]]; [by intros r w' (? & ?)|].
    intros base' w1 Hh1. by eapply wp_lock_release.
  - intros d path f. unfold verify_database_identity. destruct d, f; apply _.
  - intros d path. unfold enforce_private_sidecars. apply _.
  - intros d path l _. apply _.
  - intros path. unfold open_private_parent. apply _.
  - intros d path. unfold prepare_private_database_file. apply _.
  - intros path. apply _.
  - intros d path. unfold initialization_lock. apply _.
  - apply _.
  - intros path g. destruct g; cbn [guard_exit]; apply _.
  - intros path l. destruct l; cbn [initialization_unlock]; apply _.
  - intros d path f. unfold verify_database_identity. destruct d, f; apply _.
  - intros d path. unfold enforce_private_sidecars. apply _.
  - intros d path l. unfold initialization_check, lock_check. destruct d, l; apply _.
Qed.
End Kept.
