(* ===== verification/WindowsResources.v ===== *)
(** Private storage on Windows keeps the interface of [DatabaseSafety]: the handles each call takes
    and gives back, for a process whose calls to the system leave the connection alone. *)
From stdpp Require Import gmap.
From S2P Require Import Prelude Runs Paths PrivatePaths PrivateFiles WindowsPaths WindowsSafety Migrations Database DatabaseSafety.
#[local] Open Scope Z_scope.

(** ** What the calls leave alone *)

Section Apart.
Context {W : Type} {P : PosixCalls W} {F : Win32 W} {V : Win32World W} {R : Resources W}.
Definition same_connection (w w' : W) : Prop := connected w' = connected w ∧ unreleased w' = unreleased w.
#[export] Instance same_connection_preorder : PreOrder same_connection.
Proof. split; [done|]. intros w1 w2 w3 [H1 H2] [H3 H4]. split; congruence. Qed.
(** The live handles are those of [Win32World], and any but the invalid one can be one. *)
Class Win32Resources : Prop := {
  live_handles w : live w = handles w;
  valid_usable h : usable h ↔ h ≠ INVALID_HANDLE_VALUE;
  #[global] create_file_apart p a s d f :: Preserves same_connection (call (create_file p a s d f));
  #[global] close_handle_apart h :: Preserves same_connection (call (close_handle h));
  #[global] file_information_apart h :: Preserves same_connection (call (file_information h));
  #[global] local_free_apart b :: Preserves same_connection (call (local_free b));
  #[global] lock_file_apart h f n :: Preserves same_connection (call (lock_file h f n));
  #[global] unlock_file_apart h n :: Preserves same_connection (call (unlock_file h n));
  #[global] equal_sid_apart p q :: Preserves same_connection (call (equal_sid p q));
  #[global] get_security_info_apart h t i :: Preserves same_connection (call (get_security_info h t i));
  #[global] get_token_information_apart t c n :: Preserves same_connection (call (get_token_information t c n));
  #[global] open_process_token_apart p r :: Preserves same_connection (call (open_process_token p r));
  #[global] set_entries_in_acl_apart e :: Preserves same_connection (call (set_entries_in_acl e));
  #[global] set_security_info_apart h t i a :: Preserves same_connection (call (set_security_info h t i a));
  #[global] make_directories_apart p :: Preserves same_connection (call (make_directories p));
  (** The calls on descriptors forget no failure. *)
  #[global] posix_close_flag fd :: Preserves Released.flag_kept (close fd);
  #[global] posix_fstat_flag fd :: Preserves Released.flag_kept (fstat fd);
  #[global] posix_stat_at_flag d n :: Preserves Released.flag_kept (stat_at d n);
}.
End Apart.
Arguments Win32Resources W {P F V R}.

Section Kept.
Context {W : Type} {P : PosixCalls W} {F : Win32 W} {V : Win32World W} {R : Resources W} {L : Win32Laws W} {LR : Win32Resources W}.
Abbreviation apart := (Preserves (A := unit) (same_connection (W := W))).
#[local] Existing Instance Released.flag_kept_preorder.

#[local] Instance raise_error_code_apart {A} c : Preserves same_connection (_raise_error_code (W := W) (A := A) c).
Proof. unfold _raise_error_code. apply _. Qed.
#[local] Instance raise_last_error_apart {A} : Preserves same_connection (_raise_last_error (W := W) (A := A)).
Proof. unfold _raise_last_error. apply _. Qed.
#[local] Instance unsafe_apart {A} : Preserves same_connection (unsafe (W := W) (A := A)).
Proof. unfold unsafe. apply _. Qed.
#[local] Instance close_token_apart h : Preserves same_connection (close_token (W := W) h).
Proof. unfold close_token. apply _. Qed.
#[local] Instance close_apart h : Preserves same_connection (_close_handle (W := W) h).
Proof. unfold _close_handle. apply _. Qed.
#[local] Instance token_information_apart t c : Preserves same_connection (_token_information (W := W) t c).
Proof. unfold _token_information. apply _. Qed.
#[local] Instance current_token_apart : Preserves same_connection (open_current_token (W := W)).
Proof. unfold open_current_token. apply _. Qed.
#[local] Instance release_owner_apart t d : Preserves same_connection (release_owner (W := W) t d).
Proof. unfold release_owner. apply _. Qed.
#[local] Instance verify_owner_apart u o c p : Preserves same_connection (verify_owner (W := W) u o c p).
Proof. unfold verify_owner. destruct p, (sa_sid (tu_user u)), (to_owner o); apply _. Qed.
#[local] Instance require_owner_apart h : Preserves same_connection (require_current_user_owner (W := W) h).
Proof. unfold require_current_user_owner. apply _. Qed.
#[local] Instance current_user_sid_apart t : Preserves same_connection (current_user_sid (W := W) t).
Proof. unfold current_user_sid. apply _. Qed.
#[local] Instance current_user_dacl_apart i : Preserves same_connection (_current_user_dacl (W := W) i).
Proof. unfold _current_user_dacl. apply _. Qed.
#[local] Instance set_private_dacl_apart h i : Preserves same_connection (set_private_dacl (W := W) h i).
Proof. unfold set_private_dacl. apply _. Qed.
#[local] Instance open_path_apart p d f s : Preserves same_connection (_open_path (W := W) p d f s).
Proof. unfold _open_path. apply _. Qed.
#[local] Instance verify_directory_apart h : Preserves same_connection (_verify_directory (W := W) h).
Proof. unfold _verify_directory, _file_information. apply _. Qed.
#[local] Instance verify_regular_apart h : Preserves same_connection (_verify_regular_file (W := W) h).
Proof. unfold _verify_regular_file, _file_information. apply _. Qed.
#[local] Instance open_regular_apart p d s : Preserves same_connection (_open_regular_file (W := W) p d s).
Proof. unfold _open_regular_file. apply _. Qed.
#[local] Instance open_existing_apart p : Preserves same_connection (_open_existing_regular_file (W := W) p).
Proof. unfold _open_existing_regular_file. apply _. Qed.
#[local] Instance secure_regular_apart p d : Preserves same_connection (_secure_regular_file (W := W) p d).
Proof. unfold _secure_regular_file. apply _. Qed.
#[local] Instance secure_sidecar_apart p x : Preserves same_connection (secure_sidecar (W := W) p x).
Proof. unfold secure_sidecar. apply _. Qed.
#[local] Instance secure_directory_apart p : Preserves same_connection (_secure_directory (W := W) p).
Proof. unfold _secure_directory. apply _. Qed.
#[local] Instance prepare_parent_apart p : Preserves same_connection (win32_prepare_private_parent (W := W) p).
Proof. unfold win32_prepare_private_parent. apply _. Qed.
#[local] Instance enforce_apart p : Preserves same_connection (win32_enforce_private_sidecars (W := W) p).
Proof. unfold win32_enforce_private_sidecars. apply _. Qed.
#[local] Instance prepare_file_apart p : Preserves same_connection (win32_prepare_private_database_file (W := W) p).
Proof. unfold win32_prepare_private_database_file. apply _. Qed.
#[local] Instance lock_apart p : Preserves same_connection (win32_lock (W := W) p).
Proof. unfold win32_lock, _lock_file. apply _. Qed.
#[local] Instance unlock_apart h : Preserves same_connection (win32_unlock (W := W) h).
Proof. unfold win32_unlock, _unlock_file. apply _. Qed.
#[local] Instance guard_exit_apart g : Preserves same_connection (win32_guard_exit (W := W) g).
Proof. unfold win32_guard_exit. apply _. Qed.
#[local] Instance guard_enter_apart p : Preserves same_connection (win32_guard_enter (W := W) p).
Proof. unfold win32_guard_enter. apply _. Qed.

(** ** The interface *)

(** A backend call with what it keeps of the connection. *)
Lemma wp_backend {A} (m : M W unsafe_error A) (Q : res unsafe_error A → W → Prop) (Q' : res private_exn A → W → Prop) w :
  Preserves same_connection m → wp m Q w →
  (∀ r w', Q r w' → connected w' = connected w → Q' (match r with Ok a => Ok a | Err _ => Err UnsafeDatabasePathError end) w') →
  wp (unsafe_path m) Q' w.
Proof.
  intros Hm HQ Hend. apply wp_try, wp_intro. intros r w1 Hrun. pose proof (preserves (R := same_connection) _ _ _ Hrun) as Hc.
  specialize (Hend r w1 (wp_run _ _ _ _ _ Hrun HQ) (proj1 Hc)). by destruct r as [a|e]; [|apply wp_raise].
Qed.
Lemma wp_surely {E A} (m : M W E A) (Q : res E A → W → Prop) w : wp m Q w → Released.wpr m Q w.
Proof. by right. Qed.
#[local] Instance unsafe_path_flag {A} (m : M W unsafe_error A) : Preserves same_connection m → Preserves Released.flag_kept (unsafe_path m).
Proof.
  intros Hm w r w' H. unfold unsafe_path, try_except in H. destruct (m w) as [[a|e] w1] eqn:Hw; apply Hm in Hw as [_ Hu];
    injection H as _ <-; unfold Released.flag_kept; by rewrite Hu.
Qed.
Lemma secured_live inheritance ps taken w w' : secured inheritance ps taken w w' → taken ## live w ∧ live w' = taken ∪ live w.
Proof. intros (H1 & H2 & _). by rewrite !live_handles. Qed.
Lemma let_go_held base k l w w' : held base (k ++ l) w → let_go (list_to_set k) w w' → held base l w'.
Proof.
  intros ((_ & Hkl & Hl)%NoDup_app & Hd & [_ Hu]%Forall_app & Hlive) (Hh & _). split; [done|]. split; [set_solver|]. split; [done|].
  rewrite !live_handles in *. rewrite Hh, Hlive. apply set_eq. intros x. set_solver.
Qed.
#[export] Instance windows_storage uid platform : StorageLaws true uid platform.
Proof.
  split.
  - intros path w. apply wp_surely, (wp_mono _ (λ r w', gains option_list w r w' ∧ ∀ d, r = Ok d → d = None)); [naive_solver|].
    unfold open_private_parent. destruct (negb (is_absolute path)); [by apply wp_raise|]. destruct (bool_decide _); [by apply wp_raise|].
    destruct (negb _); [by apply wp_raise|]. apply wp_bind. cbn [prepare_private_parent win32_backend].
    eapply wp_backend; [apply _|apply wp_prepare_parent|]. intros r w' [[_ Hl]%secured_live _] Hc. rewrite (left_id_L ∅ _) in Hl.
    destruct r as [[]|e]; [apply wp_ret|]; (split; [split; [done|]|]); [by apply held_nil|by intros d [= <-]|done|done].
  - intros d path w. apply wp_surely, (wp_mono _ (λ r w', gains option_list w r w' ∧ ∀ d, r = Ok d → d = None)); [naive_solver|].
    apply wp_bind. cbn [windows_prepare_private_database_file win32_backend].
    eapply wp_backend; [apply _|apply wp_prepare_database|]. intros r w' [[_ Hl]%secured_live _] Hc. rewrite (left_id_L ∅ _) in Hl.
    destruct r as [[]|e]; [apply wp_ret|]; (split; [split; [done|]|]); [by apply held_nil|by intros f [= <-]|done|done].
  - intros path w. apply wp_surely, wp_bind. cbn [windows_guard_enter win32_backend]. eapply wp_backend; [apply _|apply wp_guard_enter|].
    intros r w' Hg Hc. destruct r as [[p d]|e]; [apply wp_ret|]; (split; [done|]).
    + destruct Hg as (Hne & Hd & Hh & _). cbn [guard_handles]. split; [by apply NoDup_cons; split; [set_solver|apply NoDup_singleton]|].
      rewrite !live_handles. split; [set_solver|]. split; [|rewrite Hh; set_solver].
      do 2 (apply Forall_cons; split; [apply valid_usable; set_solver|]). done.
    + rewrite !live_handles. apply Hg.
  - intros d path w. apply wp_surely, wp_bind. cbn [windows_lock win32_backend]. eapply wp_backend; [apply _|apply wp_lock|].
    intros r w' Hl Hc. destruct r as [h|e]; [apply wp_ret|]; (split; [done|]).
    + destruct Hl as ([Hd Hl]%secured_live & Hne & _). split; [apply NoDup_singleton|]. split; [set_solver|].
      split; [by apply Forall_singleton, valid_usable|]. rewrite Hl. set_solver.
    + apply secured_live in Hl as [_ Hl]. by rewrite (left_id_L ∅ _) in Hl.
  - intros f Hf base l w Hh. rewrite Hf in * by done. by apply wp_surely, wp_ret.
  - intros path g _ base l w Hh. apply wp_surely. destruct g as [[p d]|]; [|by apply wp_ret]. cbn [guard_handles] in Hh.
    pose proof Hh as ([Hne _]%NoDup_cons & _ & [Hd [Hp _]%Forall_cons]%Forall_cons & Hl). rewrite live_handles in Hl.
    cbn [guard_exit windows_guard_exit win32_backend]. eapply wp_backend; [apply _|apply wp_guard_exit|].
    + rewrite Hl. set_solver.
    + rewrite Hl. set_solver.
    + set_solver.
    + by apply valid_usable.
    + by apply valid_usable.
    + intros r w' [-> Hgo] Hc. split; [done|]. split; [|done]. eapply let_go_held; [exact Hh|].
      replace (list_to_set [d; p]) with ({[p; d]} : gset Z) by set_solver. done.
  - done.
  - intros path l base k w Hh. apply wp_surely. destruct l as [h|]; [|by apply wp_ret]. cbn [option_list app] in Hh.
    pose proof Hh as (_ & _ & [Hu _]%Forall_cons & Hl). rewrite live_handles in Hl.
    cbn [initialization_unlock windows_unlock win32_backend]. eapply wp_backend; [apply _|apply wp_unlock|].
    + rewrite Hl. set_solver.
    + by apply valid_usable.
    + intros r w' Hgo Hc. split; [done|]. split; [|done]. eapply let_go_held; [exact Hh|].
      by replace (list_to_set [h]) with ({[h]} : gset Z) by set_solver.
  - intros d path f. apply _.
  - intros d path. cbn [enforce_private_sidecars windows_enforce_private_sidecars win32_backend].
    apply steady_settling; [|apply _]. intros w r w' Hrun. refine (wp_run _ (λ _ w', steady w w') _ _ _ Hrun _). eapply wp_backend; [apply _|apply wp_enforce|].
    intros r1 w1 [[_ Hl]%secured_live _] Hc. rewrite (left_id_L ∅ _) in Hl. by split.
  - intros d path l Hd. rewrite Hd by done. apply _.
  - intros path. unfold open_private_parent. cbn [prepare_private_parent win32_backend]. apply _.
  - intros d path. unfold prepare_private_database_file. cbn [windows_prepare_private_database_file win32_backend]. apply _.
  - intros path. unfold guard_enter. cbn [windows_guard_enter win32_backend]. apply _.
  - intros d path. unfold initialization_lock. cbn [windows_lock win32_backend]. apply _.
  - apply _.
  - intros path g. destruct g; cbn [guard_exit windows_guard_exit win32_backend]; apply _.
  - intros path l. destruct l; cbn [initialization_unlock windows_unlock win32_backend]; apply _.
  - intros d path f. apply _.
  - intros d path. cbn [enforce_private_sidecars windows_enforce_private_sidecars win32_backend]. apply _.
  - intros d path l. unfold initialization_check, lock_check, verify_open_name, verify_private_file. destruct d, l; apply _.
Qed.
End Kept.
