(* ===== verification/StoreHost.v ===== *)
(** Processes that show the laws of [DatabaseSafety] can hold: the file system of [PosixHost], and the
    Windows system of [NtHost], beside the connection of [Migrations]. *)
From stdpp Require Import gmap.
From S2P Require Import Prelude Runs Memory DeadlineText SystemdUnit Paths Services PrivatePaths PrivateFiles PosixHost WindowsPaths WindowsSafety NtHost Migrations Database DatabaseSafety PosixResources WindowsResources.
Import Released.
#[local] Open Scope Z_scope.

(** ** A system beside a connection *)

(** [pr_refused]: SQLite cannot open its file; [pr_broken]: the descriptors whose close reports an
    error, as the one of a full or remote disk does; [pr_unreleased]: one was reported. *)
Record process (H : Type) := mk_process {
  pr_files : H; pr_sql : sql_host; pr_connected : bool; pr_refused : bool; pr_broken : list Z; pr_unreleased : bool }.
Arguments mk_process {H} _ _ _ _ _ _.
Arguments pr_files {H} _.
Arguments pr_sql {H} _.
Arguments pr_connected {H} _.
Arguments pr_refused {H} _.
Arguments pr_broken {H} _.
Arguments pr_unreleased {H} _.
(** The descriptors or handles of the system. *)
Class OpenHandles (H : Type) := { open_in : H → gset Z; valid : Z → Prop }.

Section Connected.
Context {H : Type} {O : OpenHandles H}.
Definition on_sql {A} (m : M sql_host store_exn A) : M (process H) store_exn A := λ w,
  let '(r, s) := m (pr_sql w) in (r, mk_process (pr_files w) s (pr_connected w) (pr_refused w) (pr_broken w) (pr_unreleased w)).
#[export] Instance process_connection : Connection (process H) := {|
  execute s ps := on_sql (execute s ps);
  capture_int s ps := on_sql (capture_int s ps);
  capture_str s ps := on_sql (capture_str s ps);
  in_transaction w := in_transaction (pr_sql w);
|}.
(** A closed connection drops its transaction. *)
#[export] Instance process_sqlite : Sqlite (process H) := {|
  connect _ _ w := if pr_refused w then (Err SqliteError, w)
    else (Ok tt, mk_process (pr_files w) (pr_sql w) true (pr_refused w) (pr_broken w) (pr_unreleased w));
  connection_close w :=
    let s := pr_sql w in
    (Ok tt, mk_process (pr_files w) (mk_sql_host (sh_committed s) (sh_committed s) false (sh_failing s)) false (pr_refused w) (pr_broken w) (pr_unreleased w));
  set_autocommit := mret tt;
  create_function _ := mret tt;
  wal_checkpoint := mret (Some (0, 0, 0));
|}.
#[export] Instance process_resources : Resources (process H) := {|
  live w := open_in (pr_files w);
  usable := valid;
  connected := pr_connected;
  unreleased := pr_unreleased;
|}.
Lemma on_sql_steady {A} (m : M sql_host store_exn A) : Preserves steady (on_sql m).
Proof. intros w r w'. unfold on_sql. destruct (m _) as [r1 s1]. by intros [= <- <-]. Qed.
Lemma on_sql_flag {A} (m : M sql_host store_exn A) : Preserves same_flag (on_sql m).
Proof. intros w r w'. unfold on_sql. destruct (m _) as [r1 s1]. by intros [= <- <-]. Qed.
#[export] Instance process_sqlite_laws : SqliteLaws (W := process H).
Proof.
  split.
  - intros t ms w r w'. cbn. destruct (pr_refused w); by intros [= <- <-].
  - intros w r w'. by intros [= <- <-].
  - intros t ms w r w'. cbn. destruct (pr_refused w); by intros [= <- <-].
  - split; intros; first [apply on_sql_steady|apply _].
  - split; intros; first [apply on_sql_flag|apply _].
Qed.

End Connected.

(** ** POSIX *)

#[export] Instance host_handles : OpenHandles host := {| open_in f := list_to_set (fst <$> h_fds f); valid _ := True |}.
Definition on_files {A} (m : M host private_exn A) : M (process host) private_exn A := λ w,
  let '(r, f) := m (pr_files w) in (r, mk_process f (pr_sql w) (pr_connected w) (pr_refused w) (pr_broken w) (pr_unreleased w)).
(** The number is free again, whatever the call reports. *)
Definition close_process (fd : Z) : M (process host) private_exn unit := λ w,
  let '(r, w1) := on_files (close fd) w in
  if bool_decide (fd ∈ pr_broken w)
  then (Err OtherOSError, mk_process (pr_files w1) (pr_sql w1) (pr_connected w1) (pr_refused w1) (pr_broken w1) true)
  else (r, w1).
#[export] Instance process_calls : PosixCalls (process host) := {|
  open_root := on_files open_root;
  open_directory d n := on_files (open_directory d n);
  mkdir d n m := on_files (mkdir d n m);
  open_file d n a c m := on_files (open_file d n a c m);
  fstat fd := on_files (fstat fd);
  stat_at d n := on_files (stat_at d n);
  fchmod fd m := on_files (fchmod fd m);
  chmod_descriptor fd m := on_files (chmod_descriptor fd m);
  write_synced fd c := on_files (write_synced fd c);
  read_all fd := on_files (read_all fd);
  fsync fd := on_files (fsync fd);
  close fd := close_process fd;
  replace d a b := on_files (replace d a b);
  unlink d n := on_files (unlink d n);
  flock fd b := on_files (flock fd b);
|}.
Lemma on_files_steady {A} (m : M host private_exn A) :
  (∀ w r w', m w = (r, w') → h_fds w' = h_fds w) → Preserves steady (on_files m).
Proof.
  intros H w r w'. unfold on_files. destruct (m (pr_files w)) as [r1 f1] eqn:Hm. intros [= <- <-].
  split; [|done]. cbn. by rewrite (H _ _ _ Hm).
Qed.
Lemma on_files_flag {A} (m : M host private_exn A) : Preserves same_flag (on_files m).
Proof. intros w r w'. unfold on_files. destruct (m _) as [r1 f1]. by intros [= <- <-]. Qed.
Lemma on_files_raises {A} (P : private_exn → Prop) (m : M host private_exn A) : Raises P m → Raises P (on_files m).
Proof. intros H w e w'. unfold on_files. destruct (m _) as [r1 f1] eqn:Hm. intros [= -> <-]. by apply (H _ _ _ Hm). Qed.
(** The descriptors a file call leaves: [m] opens a number or changes nothing. *)
Lemma on_files_opens (m : M host private_exn Z) :
  (∀ w r w', m w = (r, w') → (∃ e, r = Err e ∧ Is_true (is_os_error e) ∧ h_fds w' = h_fds w) ∨
     ∃ d w1, open_number d w1 = (r, w') ∧ h_fds w1 = h_fds w) →
  ∀ w r w', on_files m w = (r, w') → opens w r w'.
Proof.
  intros H w r w'. unfold on_files. destruct (m (pr_files w)) as [r1 f1] eqn:Hm. intros [= <- <-]. split; [done|].
  destruct (H _ _ _ Hm) as [(e & -> & He & Hf)|(d & w1 & Hrun & Hf)]; [by cbn; rewrite Hf|].
  pose proof (open_number_run _ _ _ _ Hrun) as (-> & _ & Hnew & _). injection Hrun as <-. cbn. rewrite Hf. split; [|done].
  cbn in Hnew. rewrite Hf in Hnew. intros Hin%elem_of_list_to_set. apply list_elem_of_fmap in Hin as ([fd d'] & Hfd & Hin).
  cbn in Hfd. subst fd. clear Hf Hm. induction (h_fds (pr_files w)) as [|[g x] l IH]; [by apply elem_of_nil in Hin|]. cbn in Hnew.
  destruct (Z.eqb_spec g (fresh_fd w1)) as [|Hne]; [done|].
  apply elem_of_cons in Hin as [[= ? ?]|Hin]; [congruence|by apply IH].
Qed.
#[export] Instance process_laws : ResourceLaws (W := process host).
Proof.
  split.
  - apply on_files_opens. intros w r w' H. right. by exists 0, w.
  - intros d n. apply on_files_opens. cbn. unfold at_directory. intros w r w' H. repeat case_match; simplify_eq; eauto 7.
  - intros d n a c m. apply on_files_opens. cbn. unfold at_directory. intros w r w' H. repeat case_match; simplify_eq; eauto 7.
  - intros fd w r w'. cbn. unfold close_process, on_files. cbn. case_bool_decide; [by intros [= <- <-]|]. intros [= <- <-].
    split; [done|]. intros Hin. split; [done|]. cbn.
    apply set_eq. intros x. rewrite elem_of_difference, not_elem_of_singleton, !elem_of_list_to_set, !list_elem_of_fmap. split.
    + intros ([g y] & -> & [Hg Hy]%list_elem_of_filter). cbn in *. split; [by exists (g, y)|done].
    + intros [([g y] & -> & Hy) Hne]. exists (g, y). split; [done|]. by apply list_elem_of_filter.
  - intros fd w r w'. by intros [= <- <-].
  - intros d n m. apply on_files_steady. cbn. unfold at_directory. intros w r w' H. repeat case_match; by simplify_eq.
  - intros fd. apply on_files_steady. cbn. unfold at_node. intros w r w' H. repeat case_match; by simplify_eq.
  - intros d n. apply on_files_steady. cbn. unfold at_directory. intros w r w' H. repeat case_match; by simplify_eq.
  - intros fd m. apply on_files_steady. cbn. unfold change_mode, at_node. intros w r w' H. repeat case_match; by simplify_eq.
  - intros fd m. apply on_files_steady. cbn. unfold change_mode, at_node. intros w r w' H. repeat case_match; by simplify_eq.
  - intros fd b. apply on_files_steady. by intros w r w' [= <- <-].
  - intros d n m. apply on_files_raises. cbn. unfold at_directory. intros w e w' H. repeat case_match; by simplify_eq.
  - intros fd. apply on_files_raises. cbn. unfold at_node. intros w e w' H. repeat case_match; by simplify_eq.
  - intros d n. apply on_files_raises. cbn. unfold at_directory. intros w e w'.
    destruct (descriptor d _) as [k|]; [|by intros [= <- <-]]. destruct (find (k, n) _) as [j|]; [|by intros [= <- <-]].
    destruct (h_nodes w !! j); cbn; [by intros [=]|by intros [= <- <-]].
  - intros fd m. apply on_files_raises. cbn. unfold change_mode, at_node. intros w e w' H. repeat case_match; by simplify_eq.
  - intros fd m. apply on_files_raises. cbn. unfold change_mode, at_node. intros w e w' H. repeat case_match; by simplify_eq.
  - intros fd b. apply on_files_raises. by intros w e w' [= <- <-].
  - apply on_files_flag.
  - intros. apply on_files_flag.
  - intros. apply on_files_flag.
  - intros. apply on_files_flag.
  - intros. apply on_files_flag.
  - intros. apply on_files_flag.
  - intros. apply on_files_flag.
  - intros. apply on_files_flag.
  - intros. apply on_files_flag.
  - done.
Qed.
(** ** Runs *)

#[local] Existing Instances ascii_unicode hangul_tables.
#[local] Instance no_windows : WindowsBackend (process host) := {|
  prepare_private_parent _ := raise UnsafeDatabasePathError;
  windows_prepare_private_database_file _ := raise UnsafeDatabasePathError;
  windows_lock _ := raise UnsafeDatabasePathError;
  windows_unlock _ _ := raise UnsafeDatabasePathError;
  windows_enforce_private_sidecars _ := raise UnsafeDatabasePathError;
  windows_guard_enter _ := raise UnsafeDatabasePathError;
  windows_guard_exit _ _ := raise UnsafeDatabasePathError;
|}.
Definition fresh_process (refused : bool) : process host := mk_process empty_host (fresh_database []) false refused [] false.
Definition database_path : Path := mk_path "/" ["home"; "me"; "state"; "proactive.db"].
Definition store_run (files : option (list (text * res store_exn text))) (w : process host) : res store_exn unit * process host :=
  with_store ends_statement files false host_uid "linux" database_path 5000 (λ _, mret tt) w.

(** An open whose package is missing keeps the connection and two descriptors: its handler does not
    name the error. *)
Lemma missing_package_keeps_the_store :
  (store_run None (fresh_process false)).1 = Err MissingMigrationResourcesError ∧
  pr_connected (store_run None (fresh_process false)).2 = true ∧
  length (h_fds (pr_files (store_run None (fresh_process false)).2)) = 2%nat.
Proof. by vm_compute. Qed.

(** A close that reports an error ends the releases: with the descriptor of the database broken, the
    one of the directory stays open in a process that has forgotten it. *)
Definition broken_process : process host := mk_process empty_host (fresh_database []) false false [7] false.
Example failing_close_keeps_the_directory :
  (store_run sample_files broken_process).1 = Err (PathError OtherOSError) ∧
  pr_connected (store_run sample_files broken_process).2 = false ∧
  pr_unreleased (store_run sample_files broken_process).2 = true ∧
  length (h_fds (pr_files (store_run sample_files broken_process).2)) = 1%nat.
Proof. by vm_compute. Qed.

(** ** Windows *)

#[export] Instance nt_open : OpenHandles nt_host := {| open_in := handles; valid h := h ≠ INVALID_HANDLE_VALUE |}.
Definition on_system {A} (f : nt_host → A * nt_host) : process nt_host → A * process nt_host := λ w,
  let '(a, n) := f (pr_files w) in (a, mk_process n (pr_sql w) (pr_connected w) (pr_refused w) (pr_broken w) (pr_unreleased w)).
#[export] Instance nt_process_calls : Win32 (process nt_host) := {|
  create_file p a s d f := on_system (create_file p a s d f);
  close_handle h := on_system (close_handle h);
  current_process w := current_process (pr_files w);
  file_information h := on_system (file_information h);
  local_free b := on_system (local_free b);
  lock_file h f n := on_system (lock_file h f n);
  unlock_file h n := on_system (unlock_file h n);
  equal_sid p q := on_system (equal_sid p q);
  get_security_info h t i := on_system (get_security_info h t i);
  get_token_information t c n := on_system (get_token_information t c n);
  open_process_token p r := on_system (open_process_token p r);
  set_entries_in_acl e := on_system (set_entries_in_acl e);
  set_security_info h t i a := on_system (set_security_info h t i a);
  get_last_error w := get_last_error (pr_files w);
  make_directories p := on_system (make_directories p);
|}.
#[export] Instance nt_process_world : Win32World (process nt_host) := {|
  handles w := handles (pr_files w);
  blocks w := blocks (pr_files w);
  object_of w := object_of (pr_files w);
  share_of w := share_of (pr_files w);
  is_own_token w := is_own_token (pr_files w);
  object_at w := object_at (pr_files w);
  resolved w := resolved (pr_files w);
  sid_at w := sid_at (pr_files w);
  acl_at w := acl_at (pr_files w);
  current_user := current_user (W := nt_host);
  default_owner := default_owner (W := nt_host);
|}.
Lemma on_system_run {A} (f : nt_host → A * nt_host) w a w' : on_system f w = (a, w') → f (pr_files w) = (a, pr_files w').
Proof. unfold on_system. destruct (f (pr_files w)) as [b n]. by intros [= <- <-]. Qed.
#[export] Instance nt_process_laws : Win32Laws (process nt_host).
Proof.
  split.
  - intros p a s d f w h w' H%on_system_run. exact (create_file_law _ _ _ _ _ _ _ _ H).
  - intros h w r w' H%on_system_run. exact (close_handle_law _ _ _ _ H).
  - intros h w r w' H%on_system_run. exact (file_information_law _ _ _ _ H).
  - intros h f n w r w' H%on_system_run. exact (lock_file_law _ _ _ _ _ _ H).
  - intros h n w r w' H%on_system_run. exact (unlock_file_law _ _ _ _ _ H).
  - intros p q w r w' H%on_system_run. exact (equal_sid_law _ _ _ _ _ H).
  - intros rights w r t w' H%on_system_run. exact (open_process_token_law _ _ _ _ _ H).
  - intros t c n w r k b w' H%on_system_run. exact (get_token_information_law _ _ _ _ _ _ _ _ H).
  - intros h w c o d w' H%on_system_run. exact (get_security_info_law _ _ _ _ _ _ H).
  - intros e w c a w' H%on_system_run. exact (set_entries_in_acl_law _ _ _ _ _ H).
  - intros h i a l w c w' H%on_system_run. exact (set_security_info_law _ _ _ _ _ _ _ H).
  - intros b w r w' H%on_system_run. exact (local_free_law _ _ _ _ H).
  - intros p w r w' H%on_system_run. exact (make_directories_law _ _ _ _ H).
Qed.
Lemma on_system_apart {A} (f : nt_host → A * nt_host) : Preserves same_connection (call (on_system f)).
Proof. intros w r w'. unfold call, on_system. destruct (f (pr_files w)) as [a n]. by intros [= _ <-]. Qed.
(** There are no descriptors on Windows. *)
#[local] Instance no_posix : PosixCalls (process nt_host) := {|
  open_root := raise OtherOSError;
  open_directory _ _ := raise OtherOSError;
  mkdir _ _ _ := raise OtherOSError;
  open_file _ _ _ _ _ := raise OtherOSError;
  fstat _ := raise OtherOSError;
  stat_at _ _ := raise OtherOSError;
  fchmod _ _ := raise OtherOSError;
  chmod_descriptor _ _ := raise OtherOSError;
  write_synced _ _ := raise OtherOSError;
  read_all _ := raise OtherOSError;
  fsync _ := raise OtherOSError;
  close _ := raise OtherOSError;
  replace _ _ _ := raise OtherOSError;
  unlink _ _ := raise OtherOSError;
  flock _ _ := raise OtherOSError;
|}.
#[export] Instance nt_process_resources : Win32Resources (process nt_host).
Proof. split; try (intros; apply on_system_apart); try done; intros; apply _. Qed.
Definition fresh_nt_process (refused : bool) : process nt_host := mk_process empty_nt (fresh_database []) false refused [] false.
Definition nt_store_run (w : process nt_host) : res store_exn unit * process nt_host :=
  with_store ends_statement sample_files true 0 "win32" nt_path 5000 (λ _, mret tt) w.

Lemma stores_release_what_they_take_witness :
  (store_run sample_files (fresh_process false)).1 = Ok tt ∧
  (store_run sample_files (fresh_process true)).1 = Err SqliteError ∧
  given_back (live (fresh_process false)) (store_run sample_files (fresh_process false)).2 ∧
  given_back (live (fresh_process true)) (store_run sample_files (fresh_process true)).2 ∧
  (nt_store_run (fresh_nt_process false)).1 = Ok tt ∧
  given_back (live (fresh_nt_process false)) (nt_store_run (fresh_nt_process false)).2.
Proof.
  split; [vm_compute; reflexivity|]. split; [vm_compute; reflexivity|].
  split; [|split; [|split; [vm_compute; reflexivity|]]].
  - destruct (stores_release_what_they_take false host_uid "linux" ends_statement sample_files database_path 5000 (λ _, mret tt)
      (fresh_process false) (store_run sample_files (fresh_process false)).1 (store_run sample_files (fresh_process false)).2)
      as [H|[H|(e & _ & Hr & He)]]; [done|done|apply _|apply _|by vm_compute|exact H|by vm_compute in H|]. vm_compute in Hr. by simplify_eq.
  - destruct (stores_release_what_they_take false host_uid "linux" ends_statement sample_files database_path 5000 (λ _, mret tt)
      (fresh_process true) (store_run sample_files (fresh_process true)).1 (store_run sample_files (fresh_process true)).2)
      as [H|[H|(e & _ & Hr & He)]]; [done|done|apply _|apply _|by vm_compute|exact H|by vm_compute in H|]. vm_compute in Hr. by simplify_eq.
  - destruct (stores_release_what_they_take true 0 "win32" ends_statement sample_files nt_path 5000 (λ _, mret tt)
      (fresh_nt_process false) (nt_store_run (fresh_nt_process false)).1 (nt_store_run (fresh_nt_process false)).2)
      as [H|[H|(e & _ & Hr & He)]]; [done|done|apply _|apply _|exact (surjective_pairing _)|exact H|by vm_compute in H|].
    vm_compute in Hr. by simplify_eq.
Defined.
