(* ===== verification/TaskManager.v ===== *)
(** The Task Scheduler of Windows as [cli/service_task_scheduler_manager.py] uses it: the scripts, how
    texts are carried into them in Base64, and the operations of the manager. *)
From Stdlib Require Import Ascii.
From S2P Require Import Prelude Runs PyDate PyTime Codec Models Memory DeadlineText Runtime Status Paths Fallback Notify Services SystemdUnit.
#[local] Open Scope Z_scope.

(** ** Base64 *)

Definition base64_char (n : Z) : ascii :=
  byte_of (if n <? 26 then n + 65 else if n <? 52 then n + 71 else if n <? 62 then n - 4 else if n =? 62 then 43 else 47).
(** [base64.b64encode(...).decode("ascii")]. *)
Fixpoint b64encode (s : text) : text :=
  match s with
  | EmptyString => ""
  | String a EmptyString =>
    let x := byte_value a in
    String (base64_char (x / 4)) (String (base64_char (x mod 4 * 16)) (String PAD (String PAD "")))
  | String a (String b EmptyString) =>
    let x := byte_value a in
    let y := byte_value b in
    String (base64_char (x / 4)) (String (base64_char (x mod 4 * 16 + y / 16))
      (String (base64_char (y mod 16 * 4)) (String PAD "")))
  | String a (String b (String c rest)) =>
    let x := byte_value a in
    let y := byte_value b in
    let z := byte_value c in
    String (base64_char (x / 4)) (String (base64_char (x mod 4 * 16 + y / 16))
      (String (base64_char (y mod 16 * 4 + z / 64)) (String (base64_char (z mod 64)) (b64encode rest))))
  end%string.
(** [encode("utf-16-le")] of an ASCII text, whose code units are its bytes. *)
Fixpoint utf_16_le (s : text) : text :=
  match s with EmptyString => "" | String a rest => String a (String "000" (utf_16_le rest)) end%string.

(** ** Scripts *)

Definition TASK_NAME : text := "Proactive MCP Watcher".
Definition MANAGED_TASK_MARKER : text := "X-Proactive-MCP-Managed=true".
Definition sq : text := "'".
(** Lines, each ended by a newline. *)
Definition script_lines (ls : list text) : text := foldr (λ l rest, l +:+ nl +:+ rest)%string ""%string ls.

Definition _PREFIX : text := script_lines
  ["$ErrorActionPreference='Stop'";
   "$service=New-Object -ComObject 'Schedule.Service'";
   "$service.Connect()";
   "$folder=$service.GetFolder('\')"]%string.
Definition _GET_TASK : text := script_lines ["$task=$folder.GetTask('" +:+ TASK_NAME +:+ "')"]%string.
Definition _DEFINITION_SCRIPT : text := _PREFIX +:+ script_lines
  ["$task=$null";
   "foreach($candidate in $folder.GetTasks(0)){";
   "  if($candidate.Name -ceq '" +:+ TASK_NAME +:+ "'){$task=$candidate;break}";
   "}";
   "if($null -eq $task){exit 0}";
   "[Console]::Out.Write($task.Xml)"]%string.
Definition _ENABLED_SCRIPT : text := _PREFIX +:+ _GET_TASK +:+ script_lines
  ["$enabled=$task.Enabled -and $task.Definition.Settings.Enabled -and $task.State -ne 1";
   "if($enabled){[Console]::Out.Write('1')}else{[Console]::Out.Write('0')}"]%string.
Definition _ACTIVE_SCRIPT : text := _PREFIX +:+ _GET_TASK +:+ script_lines
  ["if($task.State -eq 4){[Console]::Out.Write('1')}else{[Console]::Out.Write('0')}"]%string.
Definition _REGISTER_SCRIPT_PREFIX : text :=
  (_PREFIX +:+ "$xml=[Text.Encoding]::UTF8.GetString([Convert]::FromBase64String('")%string.
Definition _REGISTER_SCRIPT_SUFFIX : text := script_lines
  ["'))";
   "$user=[Security.Principal.WindowsIdentity]::GetCurrent().Name";
   "$null=$folder.RegisterTask('" +:+ TASK_NAME +:+ "',$xml,6,$user,$null,3,$null)"]%string.
Definition _START_SCRIPT : text := _PREFIX +:+ _GET_TASK +:+ script_lines ["$null=$task.Run($null)"]%string.
Definition _READY_START_SCRIPT_SUFFIX : text :=
  (script_lines
    ["'))";
     "$directory=[IO.Path]::GetDirectoryName($ready)";
     "$filename=[IO.Path]::GetFileName($ready)";
     "$watcher=[IO.FileSystemWatcher]::new($directory,$filename)";
     "$watcher.EnableRaisingEvents=$true";
     "try{"] +:+
   _GET_TASK +:+
   script_lines
    ["  $null=$task.Run($null)";
     "  if([IO.File]::Exists($ready)){exit 0}";
     "  $change=$watcher.WaitForChanged([IO.WatcherChangeTypes]::Created,30000)";
     "  if($change.TimedOut){exit 1}";
     "}finally{$watcher.Dispose()}"])%string.
Definition _STOP_SCRIPT : text := _PREFIX +:+ _GET_TASK +:+ script_lines ["$task.Stop(0)"]%string.
Definition _DELETE_SCRIPT : text := _PREFIX +:+ script_lines ["$folder.DeleteTask('" +:+ TASK_NAME +:+ "',0)"]%string.
Definition _PROCESSES : list text :=
  ["$roots=@($task.GetInstances(0)|ForEach-Object {[int]$_.EnginePID})";
   "if($roots.Count -eq 0){exit 0}";
   "$processes=@(Get-CimInstance Win32_Process)";
   "$parents=@{}";
   "foreach($process in $processes){$parents[[int]$process.ProcessId]=[int]$process.ParentProcessId}"]%string.
Definition _MAIN_PID_SCRIPT : text := _PREFIX +:+ _GET_TASK +:+ script_lines
  (["$expected=[Text.Encoding]::UTF8.GetString([Convert]::FromBase64String($task.Definition.Data))"]%string ++ _PROCESSES ++
   ["$matches=@()";
    "foreach($process in $processes){";
    "  if(-not [String]::Equals($process.ExecutablePath,$expected,[StringComparison]::OrdinalIgnoreCase)){continue}";
    "  $candidate=[int]$process.ProcessId";
    "  $cursor=$candidate";
    "  while($parents.ContainsKey($cursor)){";
    "    if($roots -contains $cursor){$matches+=$candidate;break}";
    "    $next=[int]$parents[$cursor]";
    "    if($next -eq $cursor){break}";
    "    $cursor=$next";
    "  }";
    "}";
    "if($matches.Count -eq 1){[Console]::Out.Write($matches[0])}"]%string).
Definition _main_pid_script (expected_pid : option Z) : text :=
  match expected_pid with
  | None => _MAIN_PID_SCRIPT
  | Some expected_pid => _PREFIX +:+ _GET_TASK +:+ script_lines
    (_PROCESSES ++
     ["$candidate=" +:+ pretty expected_pid;
      "$cursor=$candidate";
      "while($parents.ContainsKey($cursor)){";
      "  if($roots -contains $cursor){[Console]::Out.Write($candidate);exit 0}";
      "  $next=[int]$parents[$cursor]";
      "  if($next -eq $cursor){break}";
      "  $cursor=$next";
      "}"]%string)
  end.
Definition register_script (definition : text) : text :=
  (_REGISTER_SCRIPT_PREFIX +:+ b64encode definition +:+ _REGISTER_SCRIPT_SUFFIX)%string.
Definition ready_start_prefix : text :=
  (_PREFIX +:+ "$ready=[Text.Encoding]::UTF8.GetString([Convert]::FromBase64String('")%string.
Definition start_script (ready_file : option text) : text :=
  match ready_file with
  | None => _START_SCRIPT
  | Some ready_file => (ready_start_prefix +:+ b64encode ready_file +:+ _READY_START_SCRIPT_SUFFIX)%string
  end.

(** ** The manager *)

(** PowerShell with an argument vector in an environment; [None]: it did not start or timed out. *)
Class PowerShell (W : Type) := run_powershell : list text → list (text * text) → W → option Completed * W.

Record _CommandResult := mk_task_result { tr_succeeded : bool; tr_output : text }.

Section Manager.
Context {W : Type} {N : NotifierHost W} {H : PowerShell W} {U : Unicode} {T : CharTables}.
Abbreviation op A := (M W service_exn A).

(** A [NotificationError] is neither an [OSError] nor a [ValueError]. *)
Definition powershell_path : res service_exn text :=
  match trusted_notifier_path PlatformWin32 with Ok path => Ok path | Err _ => Err OtherError end.
Definition blocked : list text :=
  ["COMSPEC"; "DYLD_INSERT_LIBRARIES"; "LD_LIBRARY_PATH"; "LD_PRELOAD"; "PSModulePath"; "PYTHONHOME"; "PYTHONPATH";
   "__COMPAT_LAYER"]%string.
Definition _sanitized_environment : res service_exn (list (text * text)) :=
  let environment := sql_select (λ x, negb (bool_decide (x.1 ∈ blocked))) environ in
  powershell ← powershell_path;
  Ok (set_item "PATH" (parent_of backslash (parent_of backslash (parent_of backslash powershell))) environment).

(** [_PowerShellCommandRunner.run]. *)
Definition subprocess_run (argv : list text) (environment : list (text * text)) : op _CommandResult := λ w,
  let '(completed, w') := run_powershell argv environment w in
       (Ok match completed with
           | None => mk_task_result false ""
           | Some c => mk_task_result (cp_returncode c =? 0) (cp_stdout c)
           end, w').
Definition run_command (argv : list text) : op _CommandResult :=
  environment ← lift _sanitized_environment; subprocess_run argv environment.
Definition _run (script : text) : op _CommandResult :=
  powershell ← lift powershell_path;
  run_command [powershell; "-NoLogo"; "-NoProfile"; "-NonInteractive"; "-EncodedCommand"; b64encode (utf_16_le script)]%string.

Definition definition : op (option text) :=
  result ← _run _DEFINITION_SCRIPT;
  if negb (tr_succeeded result) then raise OSError else
  mret (if bool_decide (tr_output result = ""%string) then None else Some (tr_output result)).
Definition is_enabled : op bool :=
  result ← _run _ENABLED_SCRIPT; mret (bool_decide (strip (tr_output result) = "1"%string)).
Definition is_active : op bool :=
  result ← _run _ACTIVE_SCRIPT; mret (bool_decide (strip (tr_output result) = "1"%string)).
Definition main_pid (expected_pid : option Z) : op (option Z) :=
  result ← _run (_main_pid_script expected_pid);
  mret (if tr_succeeded result then parse_decimal (strip (tr_output result)) else None).
Definition succeeds (script : text) : op bool := result ← _run script; mret (tr_succeeded result).
Definition register (definition : text) : op bool := succeeds (register_script definition).
Definition start (ready_file : option text) : op bool := succeeds (start_script ready_file).
Definition stop : op bool := succeeds _STOP_SCRIPT.
Definition delete : op bool := succeeds _DELETE_SCRIPT.
End Manager.

(** ** What a script carries *)

Lemma base64_char_value n : 0 ≤ n < 64 → base64_value (base64_char n) = Some n ∧ base64_char n ≠ PAD.
Proof.
  intros Hn. assert (∀ k, (k < 64)%nat → base64_value (base64_char (Z.of_nat k)) = Some (Z.of_nat k) ∧ base64_char (Z.of_nat k) ≠ PAD) as Hall.
  { intros k Hk. do 64 (destruct k as [|k]; [by vm_compute|]). lia. }
  specialize (Hall (Z.to_nat n)). rewrite Z2Nat.id in Hall by lia. apply Hall. lia.
Qed.
Lemma byte_range a : 0 ≤ byte_value a < 256.
Proof. unfold byte_value. pose proof (N_ascii_bounded a). lia. Qed.
Lemma byte_of_value a : byte_of (byte_value a) = a.
Proof. unfold byte_of. pose proof (byte_range a). rewrite Z.mod_small by done. unfold byte_value. by rewrite N2Z.id, ascii_N_embedding. Qed.
Lemma lor_shiftl x k y : 0 ≤ k → 0 ≤ y < 2 ^ k → Z.lor (Z.shiftl x k) y = x * 2 ^ k + y.
Proof.
  intros Hk Hy. rewrite <- Z.shiftl_mul_pow2 by done. rewrite <- Z.add_lor_land. assert (Z.land (Z.shiftl x k) y = 0) as ->; [|lia].
  apply Z.bits_inj'. intros n Hn. rewrite Z.land_spec, Z.bits_0. destruct (Z.ltb_spec n k).
  - by rewrite Z.shiftl_spec_low.
  - destruct (Z.eq_dec y 0) as [->|]; [by rewrite Z.bits_0, andb_false_r|].
    rewrite (Z.bits_above_log2 y), andb_false_r; [done|lia|]. apply Z.log2_lt_pow2; [lia|].
    apply Z.lt_le_trans with (2 ^ k); [lia|]. apply Z.pow_le_mono_r; lia.
Qed.
(** The three places a byte is put together in, and what is left over. *)
Lemma quad_first x y : 0 ≤ y < 256 → Z.lor (Z.shiftl (x / 4) 2) (Z.shiftr (x mod 4 * 16 + y / 16) 4) = x.
Proof.
  intros Hy. rewrite Z.shiftr_div_pow2 by lia. change (2 ^ 4) with 16.
  rewrite lor_shiftl; [change (2 ^ 2) with 4|lia|change (2 ^ 2) with 4]; Z.to_euclidean_division_equations; lia.
Qed.
Lemma quad_second y z : 0 ≤ y < 256 → 0 ≤ z < 256 →
  Z.lor (Z.shiftl (y / 16) 4) (Z.shiftr (y mod 16 * 4 + z / 64) 2) = y.
Proof.
  intros Hy Hz. rewrite Z.shiftr_div_pow2 by lia. change (2 ^ 2) with 4.
  rewrite lor_shiftl; [change (2 ^ 4) with 16|lia|change (2 ^ 4) with 16]; Z.to_euclidean_division_equations; lia.
Qed.
Lemma quad_third z : Z.lor (Z.shiftl (z / 64) 6) (z mod 64) = z.
Proof. rewrite lor_shiftl; [change (2 ^ 6) with 64|lia|change (2 ^ 6) with 64]; Z.to_euclidean_division_equations; lia. Qed.
Lemma left_first x y : 0 ≤ y < 256 → Z.land (x mod 4 * 16 + y / 16) 15 = y / 16.
Proof. intros Hy. change 15 with (Z.ones 4). rewrite Z.land_ones by lia. change (2 ^ 4) with 16. Z.to_euclidean_division_equations; lia. Qed.
Lemma left_second y z : 0 ≤ z < 256 → Z.land (y mod 16 * 4 + z / 64) 3 = z / 64.
Proof. intros Hz. change 3 with (Z.ones 2). rewrite Z.land_ones by lia. change (2 ^ 2) with 4. Z.to_euclidean_division_equations; lia. Qed.

(** One character of the alphabet is read as its value. *)
Lemma a2b_char n rest quad left pads : 0 ≤ n < 64 →
  a2b_base64 (String (base64_char n) rest) quad left pads false =
  if quad =? 0 then a2b_base64 rest 1 n 0 false
  else if quad =? 1 then String (byte_of (Z.lor (Z.shiftl left 2) (Z.shiftr n 4))) <$> a2b_base64 rest 2 (Z.land n 15) 0 false
  else if quad =? 2 then String (byte_of (Z.lor (Z.shiftl left 4) (Z.shiftr n 2))) <$> a2b_base64 rest 3 (Z.land n 3) 0 false
  else String (byte_of (Z.lor (Z.shiftl left 6) n)) <$> a2b_base64 rest 0 0 0 false.
Proof.
  intros [Hv Hpad]%base64_char_value. cbn [a2b_base64]. apply Ascii.eqb_neq in Hpad. by rewrite Hpad, Hv.
Qed.
Lemma text_ind3 (P : text → Prop) :
  P ""%string → (∀ a, P (String a "")) → (∀ a b, P (String a (String b ""))) →
  (∀ a b c s, P s → P (String a (String b (String c s)))) → ∀ s, P s.
Proof.
  intros H0 H1 H2 H3 s. assert (P s ∧ (∀ a, P (String a s)) ∧ ∀ a b, P (String a (String b s))) as [? _]; [|done].
  induction s as [|c s (IH & IH1 & IH2)]; [auto|]. auto.
Qed.
Lemma quad_range a b : 0 ≤ byte_value a / 4 < 64 ∧ 0 ≤ byte_value a mod 4 * 16 < 64 ∧
  0 ≤ byte_value a mod 4 * 16 + byte_value b / 16 < 64 ∧ 0 ≤ byte_value a mod 16 * 4 < 64 ∧
  0 ≤ byte_value a mod 16 * 4 + byte_value b / 64 < 64 ∧ 0 ≤ byte_value a mod 64 < 64.
Proof. pose proof (byte_range a). pose proof (byte_range b). Z.to_euclidean_division_equations; lia. Qed.
(** What Base64 carries is read back. *)
Lemma b64_round_trip s : a2b_base64 (b64encode s) 0 0 0 false = Some s.
Proof.
  induction s as [|a|a b|a b c s IH] using text_ind3; cbn [b64encode]; [done|..].
  - destruct (quad_range a a) as (H1 & H2 & _). rewrite !a2b_char by done. cbn [Z.eqb Pos.eqb].
    replace (byte_value a mod 4 * 16) with (byte_value a mod 4 * 16 + 0 / 16) by (change (0 / 16) with 0; lia).
    rewrite quad_first by lia. cbn. by rewrite byte_of_value.
  - destruct (quad_range a b) as (H1 & _ & H3 & _), (quad_range b b) as (_ & _ & _ & H4 & _).
    rewrite !a2b_char by done. cbn [Z.eqb Pos.eqb].
    replace (byte_value b mod 16 * 4) with (byte_value b mod 16 * 4 + 0 / 64) by (change (0 / 64) with 0; lia).
    pose proof (byte_range b). rewrite quad_first, left_first, quad_second by lia. cbn. by rewrite !byte_of_value.
  - destruct (quad_range a b) as (H1 & _ & H3 & _), (quad_range b c) as (_ & _ & _ & _ & H4 & _), (quad_range c c) as (_ & _ & _ & _ & _ & H5).
    rewrite !a2b_char by done. cbn [Z.eqb Pos.eqb]. pose proof (byte_range b). pose proof (byte_range c).
    rewrite quad_first, left_first, quad_second, left_second, quad_third, IH by lia. cbn. by rewrite !byte_of_value.
Qed.

(** A character of a token. *)
Definition token_char (a : ascii) : bool := bool_decide (is_Some (base64_value a)) || Ascii.eqb a PAD.
Fixpoint is_token (s : text) : bool :=
  match s with EmptyString => true | String a rest => token_char a && is_token rest end.
Lemma token_char_base64 n : 0 ≤ n < 64 → token_char (base64_char n) = true.
Proof. intros [Hv _]%base64_char_value. unfold token_char. by rewrite Hv, bool_decide_eq_true_2 by done. Qed.
Lemma b64encode_token s : is_token (b64encode s) = true.
Proof.
  induction s as [|a|a b|a b c s IH] using text_ind3; cbn [b64encode is_token]; [done|..].
  - destruct (quad_range a a) as (H1 & H2 & _). by rewrite !token_char_base64 by done.
  - destruct (quad_range a b) as (H1 & _ & H3 & _), (quad_range b b) as (_ & _ & _ & H4 & _).
    by rewrite !token_char_base64 by done.
  - destruct (quad_range a b) as (H1 & _ & H3 & _), (quad_range b c) as (_ & _ & _ & _ & H4 & _), (quad_range c c) as (_ & _ & _ & _ & _ & H5).
    by rewrite !token_char_base64, IH by done.
Qed.
Lemma token_char_plain a : token_char a = true → Ascii.eqb a "'" = false ∧ (byte_value a <? 128) = true.
Proof. destruct a as [[|] [|] [|] [|] [|] [|] [|] [|]]; vm_compute; by intros. Qed.

(** How PowerShell reads the single-quoted literal after a prefix: up to the next quote. *)
Fixpoint before_quote (s : text) : option (text * text) :=
  match s with
  | EmptyString => None
  | String a rest =>
    if Ascii.eqb a "'" then Some (""%string, rest) else (λ x, (String a x.1, x.2)) <$> before_quote rest
  end.
Fixpoint drop_prefix (prefix s : text) : option text :=
  match prefix, s with
  | EmptyString, _ => Some s
  | String a prefix, String b s => if Ascii.eqb a b then drop_prefix prefix s else None
  | _, _ => None
  end.
(** [UTF8.GetString(FromBase64String('...'))]: the text, and the script after it. *)
Definition carried (prefix script : text) : option (text * text) :=
  rest ← drop_prefix prefix script;
  literal ← before_quote rest;
  decoded ← a2b_base64 literal.1 0 0 0 false;
  Some (decoded, literal.2).
Fixpoint of_utf_16_le (s : text) : option text :=
  match s with
  | EmptyString => Some ""%string
  | String a (String z rest) => if Ascii.eqb z "000" then String a <$> of_utf_16_le rest else None
  | _ => None
  end.
(** [-EncodedCommand]. *)
Definition encoded_command (argument : text) : option text :=
  bytes ← a2b_base64 argument 0 0 0 false; of_utf_16_le bytes.

Lemma drop_prefix_app p s : drop_prefix p (p +:+ s) = Some s.
Proof. induction p as [|a p IH]; [by destruct s|]. rewrite text_cons_app. cbn. by rewrite Ascii.eqb_refl. Qed.
Lemma before_quote_token t rest : is_token t = true → before_quote (t +:+ String "'" rest) = Some (t, rest).
Proof.
  induction t as [|a t IH]; [done|]. rewrite text_cons_app. cbn [is_token before_quote].
  intros [[Hq _]%token_char_plain Ht]%andb_true_iff. by rewrite Hq, IH.
Qed.
Lemma of_utf_16_round_trip s : of_utf_16_le (utf_16_le s) = Some s.
Proof. induction s as [|a s IH]; [done|]. cbn. by rewrite IH. Qed.
Lemma ascii_app s t : all_ascii (s +:+ t) = all_ascii s && all_ascii t.
Proof. induction s as [|a s IH]; [done|]. rewrite text_cons_app. cbn [all_ascii]. by rewrite IH, andb_assoc. Qed.
Lemma token_ascii s : is_token s = true → all_ascii s = true.
Proof.
  induction s as [|a s IH]; [done|]. cbn [is_token all_ascii]. intros [[_ Ha]%token_char_plain Hs]%andb_true_iff.
  by rewrite Ha, IH.
Qed.
Lemma carried_text prefix suffix s :
  carried prefix (prefix +:+ b64encode s +:+ String "'" suffix) = Some (s, suffix).
Proof.
  unfold carried. rewrite drop_prefix_app. cbn [mbind option_bind]. rewrite before_quote_token by apply b64encode_token.
  cbn. by rewrite b64_round_trip.
Qed.

Lemma register_carries d : carried _REGISTER_SCRIPT_PREFIX (register_script d) =
  (λ suffix, (d, suffix)) <$> drop_prefix "'" _REGISTER_SCRIPT_SUFFIX.
Proof.
  unfold register_script.
  change _REGISTER_SCRIPT_SUFFIX with (String "'" (default ""%string (drop_prefix "'" _REGISTER_SCRIPT_SUFFIX))).
  by rewrite carried_text.
Qed.
Lemma start_carries ready_file : carried ready_start_prefix (start_script (Some ready_file)) =
  (λ suffix, (ready_file, suffix)) <$> drop_prefix "'" _READY_START_SCRIPT_SUFFIX.
Proof.
  unfold start_script.
  change _READY_START_SCRIPT_SUFFIX with (String "'" (default ""%string (drop_prefix "'" _READY_START_SCRIPT_SUFFIX))).
  by rewrite carried_text.
Qed.

(** The scripts carry their texts whole: whatever characters a definition or a path holds, the
    literal in the script ends where it should and decodes to exactly that text, nothing of it is
    read as a command, the script is ASCII, and PowerShell decodes the argument to the script. *)
Theorem scripts_carry_texts definition ready_file :
  carried _REGISTER_SCRIPT_PREFIX (register_script definition) =
    (λ suffix, (definition, suffix)) <$> drop_prefix "'" _REGISTER_SCRIPT_SUFFIX ∧
  carried ready_start_prefix (start_script (Some ready_file)) =
    (λ suffix, (ready_file, suffix)) <$> drop_prefix "'" _READY_START_SCRIPT_SUFFIX ∧
  (∀ script, script ∈ [register_script definition; start_script (Some ready_file)] →
     all_ascii script = true ∧ encoded_command (b64encode (utf_16_le script)) = Some script).
Proof.
  split; [apply register_carries|]. split; [apply start_carries|].
  intros script Hin. split.
  - assert (∀ p t s, all_ascii p = true → all_ascii s = true → all_ascii (p +:+ b64encode t +:+ s) = true) as Hall.
    { intros p t s Hp Hs. by rewrite !ascii_app, Hp, Hs, (token_ascii _ (b64encode_token t)). }
    apply elem_of_cons in Hin as [->|Hin%list_elem_of_singleton]; [by apply Hall|]. subst script. by apply Hall.
  - unfold encoded_command. rewrite b64_round_trip. cbn. apply of_utf_16_round_trip.
Qed.
