(* ===== verification/TaskDefinition.v ===== *)
(** The task of the watcher on Windows as it is rendered ([cli/service_task_scheduler.py],
    [service_task_scheduler_ready.py]): Windows paths, the launcher script, the XML tree and its
    text, and how a definition is recognized. *)
From Stdlib Require Import Ascii.
From S2P Require Import Prelude Runs PyDate PyTime Codec Models Memory DeadlineText Runtime Status Paths Fallback Notify Services SystemdUnit TaskManager.
#[local] Open Scope Z_scope.

(** ** Windows paths *)

(** A drive and a root. *)
Definition windows_absolute (p : Path) : bool :=
  (2 <? Z.of_nat (String.length (anchor p))) &&
  bool_decide (String.get (pred (String.length (anchor p))) (anchor p) = Some backslash).
(** [PureWindowsPath(s)] of an absolute path on a drive. *)
Definition windows_path (s : text) : Path :=
  match split_on backslash s with
  | drive :: names => mk_path (drive +:+ String backslash "") names
  | [] => mk_path "" []
  end.

Definition READY_FILE_ENV : text := "PROACTIVE_SERVICE_READY_FILE".
Definition task_scheduler_ready_file (database : Path) : Path :=
  with_name database (name database +:+ ".service-ready").

(** ** XML trees *)

(** An [Element] of [ElementTree] without a tail. *)
Inductive Element := mk_element (tag : text) (attrib : list (text * text)) (content : text) (children : list Element).
Definition el_tag (e : Element) : text := let 'mk_element tag _ _ _ := e in tag.
Definition el_text (e : Element) : text := let 'mk_element _ _ content _ := e in content.
Definition el_children (e : Element) : list Element := let 'mk_element _ _ _ children := e in children.
(** [root.iter()]. *)
Fixpoint iter (e : Element) : list Element := e :: flat_map iter (el_children e).
(** [tag.rpartition("}")[2]]. *)
Definition local_name (tag : text) : text := default ""%string (last (split_on "}" tag)).

Definition _escape_cdata (s : text) : text :=
  replace_char ">" "&gt;" (replace_char "<" "&lt;" (replace_char "&" "&amp;" s)).
Definition _escape_attrib (s : text) : text :=
  replace_char "009" "&#09;" (replace_char "010" "&#10;" (replace_char "013" "&#13;"
    (replace_char dquote "&quot;" (_escape_cdata s)))).
Definition attribute (x : text * text) : text :=
  (" " +:+ x.1 +:+ "=" +:+ in_quotes (_escape_attrib x.2))%string.
(** [ET.tostring(e, encoding="unicode")] of a tree in one namespace, which is the default one. *)
Fixpoint serialize (declarations : text) (e : Element) : text :=
  let 'mk_element tag attrib content children := e in
  let opening := ("<" +:+ local_name tag +:+ declarations +:+ foldr (λ x rest, attribute x +:+ rest) "" attrib)%string in
  if bool_decide (content = ""%string) && bool_decide (children = [] :> list Element) then (opening +:+ " />")%string
  else (opening +:+ ">" +:+ _escape_cdata content +:+ foldr (λ c rest, serialize "" c +:+ rest) "" children +:+
        "</" +:+ local_name tag +:+ ">")%string.

(** ** The definition *)

Definition _TASK_NAMESPACE : text := "http://schemas.microsoft.com/windows/2004/02/mit/task".
Definition _tag (local : text) : text := ("{" +:+ _TASK_NAMESPACE +:+ "}" +:+ local)%string.
Definition tostring (e : Element) : text := serialize (attribute ("xmlns"%string, _TASK_NAMESPACE)) e.
Definition leaf (local content : text) : Element := mk_element (_tag local) [] content [].
Definition node (local : text) (children : list Element) : Element := mk_element (_tag local) [] "" children.

(** The pieces of the launcher around its three tokens. *)
Definition launcher_executable : text := "$executable = [Text.Encoding]::UTF8.GetString([Convert]::FromBase64String('".
Definition launcher_database : text :=
  ("))" +:+ nl +:+ "$database = [Text.Encoding]::UTF8.GetString([Convert]::FromBase64String('")%string.
Definition launcher_ready : text :=
  ("))" +:+ nl +:+ "$readyFile = [Text.Encoding]::UTF8.GetString([Convert]::FromBase64String('")%string.
Definition launcher_end : text :=
  ("))" +:+ nl +:+ script_lines
    ["$env:PROACTIVE_DATABASE = $database";
     "$env:" +:+ READY_FILE_ENV +:+ " = $readyFile";
     "[IO.File]::Delete($readyFile)";
     "& $executable 'daemon'";
     "exit $LASTEXITCODE"])%string.
Definition launcher (executable database ready_file : text) : text :=
  (launcher_executable +:+ b64encode executable +:+ String "'" (launcher_database +:+ b64encode database +:+
    String "'" (launcher_ready +:+ b64encode ready_file +:+ String "'" launcher_end)))%string.
Definition _ARGUMENTS : text := "-NoLogo -NoProfile -NonInteractive -EncodedCommand ".

Definition task_element (executable_token powershell arguments : text) : Element :=
  mk_element (_tag "Task") [("version", "1.2")]%string ""
    [node "RegistrationInfo"
       [leaf "URI" (String backslash TASK_NAME); leaf "Description" "proactive-mcp watcher";
        leaf "Documentation" MANAGED_TASK_MARKER];
     node "Triggers" [node "LogonTrigger" [leaf "Enabled" "true"]];
     node "Principals"
       [mk_element (_tag "Principal") [("id", "Author")]%string ""
          [leaf "LogonType" "InteractiveToken"; leaf "RunLevel" "LeastPrivilege"]];
     node "Settings"
       [leaf "MultipleInstancesPolicy" "IgnoreNew"; leaf "AllowStartOnDemand" "true"; leaf "Enabled" "true";
        leaf "ExecutionTimeLimit" "PT0S";
        node "RestartOnFailure" [leaf "Interval" "PT1M"; leaf "Count" "3"]];
     leaf "Data" executable_token;
     mk_element (_tag "Actions") [("Context", "Author")]%string ""
       [node "Exec" [leaf "Command" powershell; leaf "Arguments" arguments]]].

Section Definitions.
Context {U : Unicode} {C : Categories}.
(** [str.lower], under which Windows paths are compared. *)
Context (lower : text → text).

Definition _validate_absolute_path (path : Path) : res service_exn unit :=
  if negb (windows_absolute path) then Err ValueError else
  if existsb (λ c, unsafe_category (category c)) (chars (windows_text path)) then Err ValueError else Ok tt.

(** [trusted] is what [trusted_notifier_path] gives for Windows. *)
Definition render_task_definition (trusted : res service_exn text) (executable database powershell : Path)
    : res service_exn text :=
  _validate_absolute_path executable;;
  _validate_absolute_path database;;
  _validate_absolute_path powershell;;
  trusted ← trusted;
  let trusted_powershell := windows_path trusted in
  if negb (bool_decide (lower (windows_text powershell) = lower (windows_text trusted_powershell))) then Err ValueError else
  let script := launcher (windows_text executable) (windows_text database) (windows_text (task_scheduler_ready_file database)) in
  Ok (tostring (task_element (b64encode (windows_text executable)) (windows_text trusted_powershell)
    (_ARGUMENTS +:+ b64encode (utf_16_le script)))).
Definition _render_default (trusted : res service_exn text) (executable database : Path) : res service_exn text :=
  powershell ← trusted; render_task_definition trusted executable database (windows_path powershell).

(** The tree carries the marker: what [is_managed_task] looks for. *)
Definition is_managed_tree (root : Element) : bool :=
  existsb (λ registration,
    bool_decide (local_name (el_tag registration) = "RegistrationInfo"%string) &&
    existsb (λ child, bool_decide (local_name (el_tag child) = "Documentation"%string) &&
                      bool_decide (strip (el_text child) = MANAGED_TASK_MARKER)) (el_children registration)) (iter root).
End Definitions.

(** [ET.fromstring]; [None] is a [ParseError]. *)
Class ElementTree := fromstring : text → option Element.
Definition is_managed_task `{Unicode} `{ElementTree} (definition : text) : bool :=
  match fromstring definition with
  | None => false
  | Some root => is_managed_tree root
  end.

(** ** What the task starts *)

Lemma validated_absolute `{Categories} p : _validate_absolute_path p = Ok tt → windows_absolute p = true.
Proof. unfold _validate_absolute_path. by destruct (windows_absolute p). Qed.

(** A rendered task carries the marker and has one action, the trusted PowerShell with an encoded
    launcher; PowerShell decodes it to a script of ASCII whose three literals are exactly the
    executable, the database and its ready file, whatever characters the paths hold, between
    constant text; and relative paths, paths with control characters and another PowerShell are
    refused. *)
Theorem rendered_tasks_start_the_executable `{Unicode} `{Categories} lower trusted executable database powershell definition :
  strip MANAGED_TASK_MARKER = MANAGED_TASK_MARKER →
  render_task_definition lower trusted executable database powershell = Ok definition →
  ∃ path argument script r1 r2,
    trusted = Ok path ∧ definition = tostring (task_element (b64encode (windows_text executable)) (windows_text (windows_path path))
                                        (_ARGUMENTS +:+ argument)) ∧
    is_managed_tree (task_element (b64encode (windows_text executable)) (windows_text (windows_path path)) (_ARGUMENTS +:+ argument)) = true ∧
    encoded_command argument = Some script ∧ all_ascii script = true ∧
    carried launcher_executable script = Some (windows_text executable, r1) ∧
    carried launcher_database r1 = Some (windows_text database, r2) ∧
    carried launcher_ready r2 = Some (windows_text (task_scheduler_ready_file database), launcher_end) ∧
    windows_absolute executable = true ∧ windows_absolute database = true.
Proof.
  intros Hstrip. unfold render_task_definition. intros ([] & He%validated_absolute & Hrest)%res_bind_ok.
  apply res_bind_ok in Hrest as ([] & Hd%validated_absolute & Hrest). apply res_bind_ok in Hrest as ([] & _ & Hrest).
  apply res_bind_ok in Hrest as (path & -> & Hrest). revert Hrest. case_bool_decide; [|done]. cbn [negb]. set (script := launcher _ _ _).
  intros Hok. match type of Hok with Ok ?t = _ => assert (definition = t) as -> by congruence end. clear Hok.
  eexists path, (b64encode (utf_16_le script)), script, _, _. split; [done|]. split; [done|].
  split; [|split; [|split; [|split; [by apply carried_text|split; [by apply carried_text|split; [by apply carried_text|done]]]]]].
  - unfold is_managed_tree, task_element, node. cbn [iter flat_map el_children existsb el_tag].
    apply orb_true_iff. right. apply orb_true_iff. left. cbn [app existsb el_tag el_children el_text leaf].
    rewrite Hstrip, !bool_decide_eq_true_2 by done. cbn. by rewrite !orb_true_r.
  - unfold encoded_command. rewrite b64_round_trip. cbn [mbind option_bind]. apply of_utf_16_round_trip.
  - unfold script, launcher. rewrite !ascii_app, (token_ascii _ (b64encode_token _)). cbn [all_ascii andb].
    rewrite !ascii_app, (token_ascii _ (b64encode_token _)). cbn [all_ascii andb].
    by rewrite !ascii_app, (token_ascii _ (b64encode_token _)).
Qed.

#[local] Existing Instances ascii_unicode ascii_categories.
Definition sample_powershell : text := "C:\Windows\System32\WindowsPowerShell\v1.0\powershell.exe".
Definition sample_executable : Path := mk_path "C:\" ["Program Files"; "it's & <co>"; "proactive-mcp.exe"].
Definition sample_database : Path := mk_path "C:\" ["Users"; "user"; ".proactive-mcp"; "proactive.db"].
Definition sample_task : res service_exn text := _render_default lower_ascii (Ok sample_powershell) sample_executable sample_database.
Lemma rendered_tasks_start_the_executable_witness :
  match sample_task with
  | Ok definition => ∃ argument script r1 r2,
      definition = tostring (task_element (b64encode (windows_text sample_executable)) sample_powershell (_ARGUMENTS +:+ argument)) ∧
      encoded_command argument = Some script ∧
      carried launcher_executable script = Some ("C:\Program Files\it's & <co>\proactive-mcp.exe"%string, r1) ∧
      carried launcher_database r1 = Some ("C:\Users\user\.proactive-mcp\proactive.db"%string, r2) ∧
      carried launcher_ready r2 = Some ("C:\Users\user\.proactive-mcp\proactive.db.service-ready"%string, launcher_end)
  | Err _ => False
  end.
Proof.
  destruct sample_task as [definition|e] eqn:Hd; [|vm_compute in Hd; discriminate].
  assert (strip (Unicode := ascii_unicode) MANAGED_TASK_MARKER = MANAGED_TASK_MARKER) as Hs by reflexivity.
  destruct (rendered_tasks_start_the_executable lower_ascii (Ok sample_powershell) sample_executable sample_database
    (windows_path sample_powershell) definition Hs Hd)
    as (path & argument & script & r1 & r2 & Hp & Ht & _ & Hc & _ & H1 & H2 & H3 & _).
  injection Hp as <-. exists argument, script, r1, r2. exact (conj Ht (conj Hc (conj H1 (conj H2 H3)))).
Defined.
(** A definition of someone else is not managed, and a relative path is refused. *)
Example other_tasks_are_not_managed :
  is_managed_tree (node "Task" [node "RegistrationInfo" [leaf "Description" MANAGED_TASK_MARKER]]) = false ∧
  _render_default lower_ascii (Ok sample_powershell) (mk_path "" ["proactive-mcp.exe"]) sample_database = Err ValueError.
Proof. by vm_compute. Qed.
