(* ===== verification/TaskScheduler.v ===== *)
(** The watcher as a task of Windows ([cli/service_task_scheduler_lifecycle.py],
    [service_task_scheduler.py], [service_win32.py]): the install, status and remove transactions
    over the manager of [TaskManager] and the definition of [TaskDefinition]. *)
From Stdlib Require Import Ascii.
From S2P Require Import Prelude Runs PyDate PyTime Codec Models Memory DeadlineText Runtime Status Paths Fallback Notify Services SystemdUnit TaskManager TaskDefinition.
#[local] Open Scope Z_scope.

Record _Snapshot := mk_task_snapshot {
  ts_managed : bool;
  ts_enabled : bool;
  ts_active : bool;
  ts_main_pid : option Z;
  ts_heartbeat : option HeartbeatState;
  ts_heartbeat_pid : option Z;
}.
Record _Previous := mk_previous { pv_definition : option text; pv_enabled : bool; pv_active : bool }.

Definition _response (outcome : ServiceOutcome) (s : _Snapshot) : ServiceResponse :=
  mk_service_response (so_action outcome) (so_state outcome) TASK_NAME (ts_managed s) (ts_enabled s) (ts_active s)
    (ts_main_pid s) (ts_heartbeat s) LingerNotApplicable GuidanceNone (so_code outcome).
Definition _empty_snapshot : _Snapshot := mk_task_snapshot false false false None None None.
Definition _result (action : ServiceAction) (state : ServiceState) (code : option ServiceCode) : ServiceResponse :=
  _response (mk_service_outcome action state code) _empty_snapshot.
Definition heartbeat_ready (s : _Snapshot) : bool :=
  bool_decide (ts_heartbeat s = Some Daemon.LiveRunning) && bool_decide (ts_main_pid s = ts_heartbeat_pid s).
Definition _ready (s : _Snapshot) : bool := ts_enabled s && ts_active s && heartbeat_ready s.

(** [mkdir(parents=True, exist_ok=True)] of the parent and [unlink(missing_ok=True)]. *)
Class ReadyFiles (W : Type) := {
  make_parents : Path → M W service_exn unit;
  unlink_missing_ok : Path → M W service_exn unit;
}.

Section Lifecycle.
Context {W : Type} {H : ServiceHost W} {N : NotifierHost W} {S_ : PowerShell W} {F : ReadyFiles W}.
Context {U : Unicode} {T : CharTables} {C : Categories} {X : ElementTree}.
(** [database]: [resolve_paths(os.environ).database.absolute()]. *)
Context (iv : Invocation) (database : res service_exn Path) (render_definition : Path → Path → res service_exn text).
Abbreviation op A := (M W service_exn A).

(** [main_pid] raises only what passes through the handler of the heartbeat. *)
Definition _snapshot (definition : text) : op _Snapshot :=
  let managed := is_managed_task definition in
  enabled ← (if managed then is_enabled else mret false);
  active ← (if managed then is_active else mret false);
  if active : bool then
    heartbeat ← daemon_heartbeat;
    pid ← (match heartbeat.2 with None => mret None | Some pid => main_pid (Some pid) end);
    mret (mk_task_snapshot managed enabled active pid heartbeat.1 heartbeat.2)
  else mret (mk_task_snapshot managed enabled active None None None).

Definition _rollback (previous : _Previous) : op unit :=
  stop;;
  match pv_definition previous with
  | None => delete;; mret tt
  | Some definition =>
    register definition;;
    if pv_active previous then start None;; mret tt else mret tt
  end.

Definition _install : op (ServiceResponse * bool) :=
  executable ← gets (current_executable iv);
  match executable with
  | None => mret (_result ActionInstall ServiceFailed (Some BinaryNotFound), false)
  | Some executable =>
    database ← lift database;
    let ready_file := task_scheduler_ready_file database in
    rendered ← lift (render_definition executable database);
    previous_definition ← definition;
    if (match previous_definition with Some d => negb (is_managed_task d) | None => false end)
    then mret (_result ActionInstall Unmanaged (Some UnmanagedUnit), false) else
    let registered := bool_decide (is_Some previous_definition) in
    enabled ← (if registered then is_enabled else mret false);
    active ← (if registered then is_active else mret false);
    let previous := mk_previous previous_definition enabled active in
    settled ← (if bool_decide (previous_definition = Some rendered) && enabled && active
               then snapshot ← _snapshot rendered; mret (if _ready snapshot then Some snapshot else None)
               else mret None);
    match settled with
    | Some snapshot => mret (_response (mk_service_outcome ActionInstall Installed None) snapshot, true)
    | None =>
      let changed := negb (bool_decide (previous_definition = Some rendered)) || negb enabled in
      make_parents ready_file;;
      unlink_missing_ok ready_file;;
      command_succeeded ← finally_do
        (and_then (if negb changed then mret true else register rendered)
                  (if negb (changed || negb active) then mret true else start (Some (windows_text ready_file))))
        (unlink_missing_ok ready_file);
      if negb command_succeeded then
        _rollback previous;; mret (_result ActionInstall ServiceFailed (Some CommandFailed), false)
      else
      snapshot ← _snapshot rendered;
      if negb (_ready snapshot) then
        _rollback previous;; mret (_result ActionInstall ServiceFailed (Some HeartbeatUnavailable), false)
      else mret (_response (mk_service_outcome ActionInstall Installed None) snapshot, true)
    end
  end.

Definition _status : op (ServiceResponse * bool) :=
  current ← definition;
  match current with
  | None => mret (_result ActionStatus Absent None, true)
  | Some current =>
    if negb (is_managed_task current) then mret (_result ActionStatus Unmanaged (Some UnmanagedUnit), false) else
    snapshot ← _snapshot current;
    let state := if ts_active snapshot then ServiceActive else ServiceInactive in
    let healthy := negb (ts_active snapshot) || heartbeat_ready snapshot in
    mret (_response (mk_service_outcome ActionStatus state (if healthy then None else Some HeartbeatUnavailable)) snapshot, healthy)
  end.

Definition _remove : op (ServiceResponse * bool) :=
  current ← definition;
  match current with
  | None => mret (_result ActionRemove Absent None, true)
  | Some current =>
    if negb (is_managed_task current) then mret (_result ActionRemove Unmanaged (Some UnmanagedUnit), false) else
    enabled ← is_enabled;
    active ← is_active;
    let previous := mk_previous (Some current) enabled active in
    stopped ← (if active then stop else mret true);
    if negb stopped then
      _rollback previous;; mret (_result ActionRemove ServiceFailed (Some CommandFailed), false)
    else
    deleted ← delete;
    if negb deleted then
      _rollback previous;; mret (_result ActionRemove ServiceFailed (Some CommandFailed), false)
    else mret (_result ActionRemove Removed None, true)
  end.

Definition execute_task_scheduler_lifecycle (action : ServiceAction) : op ServiceCommandResult :=
  execute_guarded (λ code, mret (_result action ServiceFailed (Some code)))
    (match action with
     | ActionInstall => _install
     | ActionStatus => _status
     | ActionRemove => _remove
     end).
End Lifecycle.

(** [execute_task_scheduler] with the manager of this host. *)
Definition execute_task_scheduler {W} {H : ServiceHost W} {N : NotifierHost W} {S_ : PowerShell W} {F : ReadyFiles W}
    {U : Unicode} {T : CharTables} {C : Categories} {X : ElementTree} (lower : text → text)
    (iv : Invocation) (database : res service_exn Path) (action : ServiceAction) : M W service_exn ServiceCommandResult :=
  execute_task_scheduler_lifecycle iv database (_render_default lower powershell_path) action.

(** ** What the scheduler promises *)

(** The task of this package in the scheduler. *)
Record task_state := mk_task_state { tk_definition : option text; tk_active : bool }.
(** What can be observed: the task, and the scripts run so far with whether they succeeded. *)
Class TaskHost (W : Type) := {
  task_at : W → task_state;
  script_log : W → list (text * bool);
}.

Section Laws.
Context {W : Type} {H : ServiceHost W} {N : NotifierHost W} {S_ : PowerShell W} {F : ReadyFiles W} {O : TaskHost W}.
Context {U : Unicode} {T : CharTables}.

(** Whether an exported definition enables the task; and what the scheduler may export after it was
    given a definition to register for this user, whose credentials and logon type replace those
    of the text. *)
Context (enabled_by : text → bool) (registered : text → text → Prop).
Definition says_one (r : _CommandResult) : bool := bool_decide (strip (tr_output r) = "1"%string).

(** Each script does what it says when it succeeds, and may or may not have done it when it fails;
    the inspections change nothing, and what they print is so. *)
Class TaskLaws : Prop := {
  script_law script w r w' : _run script w = (r, w') →
    r = Err OtherError ∧ w' = w ∨ ∃ result, r = Ok result ∧
    script_log w' = script_log w ++ [(script, tr_succeeded result)] ∧
    (script = _DEFINITION_SCRIPT → task_at w' = task_at w ∧
       (tr_succeeded result = true → tr_output result = default ""%string (tk_definition (task_at w)))) ∧
    (script = _ENABLED_SCRIPT → task_at w' = task_at w ∧
       (says_one result = true → enabled_by <$> tk_definition (task_at w) = Some true)) ∧
    (script = _ACTIVE_SCRIPT → task_at w' = task_at w ∧ (says_one result = true → tk_active (task_at w) = true)) ∧
    (∀ pid, script = _main_pid_script pid → task_at w' = task_at w) ∧
    (∀ d, script = register_script d → tk_active (task_at w') = tk_active (task_at w) ∧
       (tr_succeeded result = true → ∃ e, tk_definition (task_at w') = Some e ∧ registered d e)) ∧
    (∀ ready, script = start_script ready → tk_definition (task_at w') = tk_definition (task_at w) ∧
       (tr_succeeded result = true → tk_active (task_at w') = true)) ∧
    (script = _STOP_SCRIPT → tk_definition (task_at w') = tk_definition (task_at w) ∧
       (tr_succeeded result = true → tk_active (task_at w') = false)) ∧
    (script = _DELETE_SCRIPT → tk_active (task_at w') = tk_active (task_at w) ∧
       (tr_succeeded result = true → tk_definition (task_at w') = None));
  definition_law w : tk_definition (task_at w) ≠ Some ""%string;
  files_law p w r w' : make_parents p w = (r, w') ∨ unlink_missing_ok p w = (r, w') →
    task_at w' = task_at w ∧ script_log w' = script_log w;
  daemon_law w r w' : status_daemon w = (r, w') → task_at w' = task_at w ∧ script_log w' = script_log w;
}.
End Laws.

(** ** What the commands do *)

Section Transactions.
Context {W : Type} {H : ServiceHost W} {N : NotifierHost W} {S_ : PowerShell W} {F : ReadyFiles W} {O : TaskHost W}.
Context {U : Unicode} {T : CharTables} {C : Categories} {X : ElementTree}.
Context (iv : Invocation) (database : res service_exn Path) (render_definition : Path → Path → res service_exn text).
Context (enabled_by : text → bool) (registered : text → text → Prop) {L : TaskLaws enabled_by registered}.

(** The task is as it was. *)
Definition same (w w' : W) : Prop := task_at w' = task_at w.
#[export] Instance same_task_preorder : PreOrder same.
Proof. split; [done|]. intros w1 w2 w3. unfold same. congruence. Qed.

(** Only scripts that succeed matter to what a run did when all of them did. *)
Definition appended (log : list (text * bool)) (w w' : W) : Prop := script_log w' = script_log w ++ log.

Lemma wp_task_definition (Q : res service_exn (option text) → W → Prop) w :
  (∀ w', same w w' → Q (Ok (tk_definition (task_at w))) w') → (∀ e w', same w w' → Q (Err e) w') → wp definition Q w.
Proof.
  intros HQ Herr. unfold definition. apply wp_bind, wp_intro.
  intros r w1 [[-> ->]|(result & -> & _ & Hd & _)]%(script_law enabled_by registered); [by apply Herr|].
  destruct (Hd eq_refl) as [Hs Hout]. destruct (tr_succeeded result); cbn [negb]; [|by apply wp_raise, Herr].
  rewrite (Hout eq_refl). apply wp_ret. specialize (HQ w1 Hs). pose proof (definition_law enabled_by registered w) as Hne.
  destruct (tk_definition (task_at w)) as [d|]; cbn; [|done]. rewrite bool_decide_eq_false_2; [done|]. congruence.
Qed.
Lemma wp_task_enabled (Q : res service_exn bool → W → Prop) w :
  (∀ b w', same w w' → (b = true → enabled_by <$> tk_definition (task_at w) = Some true) → Q (Ok b) w') →
  Q (Err OtherError) w → wp is_enabled Q w.
Proof.
  intros HQ Herr. unfold is_enabled. apply wp_bind, wp_intro.
  intros r w1 [[-> ->]|(result & -> & _ & _ & He & _)]%(script_law enabled_by registered); [done|].
  destruct (He eq_refl). by apply wp_ret, HQ.
Qed.
Lemma wp_task_active (Q : res service_exn bool → W → Prop) w :
  (∀ b w', same w w' → (b = true → tk_active (task_at w) = true) → Q (Ok b) w') →
  Q (Err OtherError) w → wp is_active Q w.
Proof.
  intros HQ Herr. unfold is_active. apply wp_bind, wp_intro.
  intros r w1 [[-> ->]|(result & -> & _ & _ & _ & Ha & _)]%(script_law enabled_by registered); [done|].
  destruct (Ha eq_refl). by apply wp_ret, HQ.
Qed.
Lemma wp_task_pid pid (Q : res service_exn (option Z) → W → Prop) w :
  (∀ n w', same w w' → Q (Ok n) w') → Q (Err OtherError) w → wp (main_pid pid) Q w.
Proof.
  intros HQ Herr. unfold main_pid. apply wp_bind, wp_intro.
  intros r w1 [[-> ->]|(result & -> & _ & _ & _ & _ & Hp & _)]%(script_law enabled_by registered); [done|].
  apply wp_ret, HQ. by apply (Hp pid).
Qed.
Lemma wp_task_register d (Q : res service_exn bool → W → Prop) w :
  (∀ b w', appended [(register_script d, b)] w w' → tk_active (task_at w') = tk_active (task_at w) →
     (b = true → ∃ e, tk_definition (task_at w') = Some e ∧ registered d e) → Q (Ok b) w') →
  Q (Err OtherError) w → wp (register d) Q w.
Proof.
  intros HQ Herr. unfold register, succeeds. apply wp_bind, wp_intro.
  intros r w1 [[-> ->]|(result & -> & Hlog & _ & _ & _ & _ & Hr & _)]%(script_law enabled_by registered); [done|].
  destruct (Hr d eq_refl). by apply wp_ret, HQ.
Qed.
Lemma wp_task_start ready (Q : res service_exn bool → W → Prop) w :
  (∀ b w', appended [(start_script ready, b)] w w' → tk_definition (task_at w') = tk_definition (task_at w) →
     (b = true → tk_active (task_at w') = true) → Q (Ok b) w') →
  Q (Err OtherError) w → wp (start ready) Q w.
Proof.
  intros HQ Herr. unfold start, succeeds. apply wp_bind, wp_intro.
  intros r w1 [[-> ->]|(result & -> & Hlog & _ & _ & _ & _ & _ & Hr & _)]%(script_law enabled_by registered); [done|].
  destruct (Hr ready eq_refl). by apply wp_ret, HQ.
Qed.
Lemma wp_task_stop (Q : res service_exn bool → W → Prop) w :
  (∀ b w', appended [(_STOP_SCRIPT, b)] w w' → tk_definition (task_at w') = tk_definition (task_at w) →
     (b = true → tk_active (task_at w') = false) → Q (Ok b) w') →
  Q (Err OtherError) w → wp stop Q w.
Proof.
  intros HQ Herr. unfold stop, succeeds. apply wp_bind, wp_intro.
  intros r w1 [[-> ->]|(result & -> & Hlog & _ & _ & _ & _ & _ & _ & Hr & _)]%(script_law enabled_by registered); [done|].
  destruct (Hr eq_refl). by apply wp_ret, HQ.
Qed.
Lemma wp_task_delete (Q : res service_exn bool → W → Prop) w :
  (∀ b w', appended [(_DELETE_SCRIPT, b)] w w' → tk_active (task_at w') = tk_active (task_at w) →
     (b = true → tk_definition (task_at w') = None) → Q (Ok b) w') →
  Q (Err OtherError) w → wp delete Q w.
Proof.
  intros HQ Herr. unfold delete, succeeds. apply wp_bind, wp_intro.
  intros r w1 [[-> ->]|(result & -> & Hlog & _ & _ & _ & _ & _ & _ & _ & Hr)]%(script_law enabled_by registered); [done|].
  destruct (Hr eq_refl). by apply wp_ret, HQ.
Qed.

(** The task is what it was: absent, or registered from the definition it was exported with. *)
Definition as_found (previous current : option text) : Prop :=
  match previous with
  | None => current = None
  | Some d => ∃ e, current = Some e ∧ registered d e
  end.
(** The last scripts stop the task, register the definition it was found with or delete it, and start
    what was running; when all of them succeeded it is so. *)
Definition undone (w w' : W) : Prop :=
  ∃ before after active, script_log w' = before ++ after ∧ fst <$> head after = Some _STOP_SCRIPT ∧
    (active = true → tk_active (task_at w) = true) ∧
    (Forall (λ c, c.2 = true) after →
       as_found (tk_definition (task_at w)) (tk_definition (task_at w')) ∧ tk_active (task_at w') = active).

Lemma wp_task_rolled_back previous w0 (Q : res service_exn unit → W → Prop) w :
  pv_definition previous = tk_definition (task_at w0) → (pv_active previous = true → tk_active (task_at w0) = true) →
  (pv_definition previous = None → pv_active previous = false) →
  (∀ w', undone w0 w' → Q (Ok tt) w') → (∀ w', Q (Err OtherError) w') →
  wp (_rollback previous) Q w.
Proof.
  intros Hdef Hact Hnone HQ Herr. unfold _rollback, undone in *. rewrite <- Hdef in HQ. apply wp_bind, wp_task_stop; [|done]. intros b1 w1 Hlog1 Hd1 Ha1.
  destruct (pv_definition previous) as [d|] eqn:Hp.
  - apply wp_bind, wp_task_register; [|done]. intros b2 w2 Hlog2 Ha2 Hd2. destruct (pv_active previous) eqn:Hpa.
    + apply wp_bind, wp_task_start; [|done]. intros b3 w3 Hlog3 Hd3 Ha3. apply wp_ret, HQ.
      exists (script_log w), [(_STOP_SCRIPT, b1); (register_script d, b2); (start_script None, b3)], true.
      split; [by rewrite Hlog3, Hlog2, Hlog1, <- !app_assoc|]. split; [done|]. split; [done|].
      rewrite !Forall_cons. intros (H1 & H2 & H3 & _). cbn in *. split; [rewrite Hd3; by apply Hd2|by apply Ha3].
    + apply wp_ret, HQ. exists (script_log w), [(_STOP_SCRIPT, b1); (register_script d, b2)], false.
      split; [by rewrite Hlog2, Hlog1, <- !app_assoc|]. split; [done|]. split; [done|].
      rewrite !Forall_cons. intros (H1 & H2 & _). cbn in *. split; [by apply Hd2|by rewrite Ha2, Ha1].
  - apply wp_bind, wp_task_delete; [|done]. intros b2 w2 Hlog2 Ha2 Hd2. apply wp_ret, HQ.
    exists (script_log w), [(_STOP_SCRIPT, b1); (_DELETE_SCRIPT, b2)], false.
    split; [by rewrite Hlog2, Hlog1, <- !app_assoc|]. split; [done|]. split; [done|].
    rewrite !Forall_cons. intros (H1 & H2 & _). cbn in *. split; [by apply Hd2|by rewrite Ha2, Ha1].
Qed.

(** The store told of the daemon, and the manager of the process that runs the task, with the task
    as in [w]. *)
Definition daemon_told (heartbeat : option HeartbeatState) (heartbeat_pid pid : option Z) (w : W) : Prop :=
  ∃ w1 w2, daemon_heartbeat w1 = (Ok (heartbeat, heartbeat_pid), w2) ∧ same w1 w ∧
    match heartbeat_pid with
    | None => pid = None
    | Some expected => ∃ w3, main_pid (Some expected) w2 = (Ok pid, w3)
    end.
(** What a snapshot says is so. *)
Definition describes (d : text) (s : _Snapshot) (w : W) : Prop :=
  ts_managed s = is_managed_task d ∧ (ts_enabled s = true → enabled_by <$> tk_definition (task_at w) = Some true) ∧
  (ts_active s = true → tk_active (task_at w) = true ∧ daemon_told (ts_heartbeat s) (ts_heartbeat_pid s) (ts_main_pid s) w).
#[export] Instance same_task_heartbeat : Preserves same daemon_heartbeat.
Proof.
  intros w r w'. unfold daemon_heartbeat, try_except. cbn. unfold mbind, M_bind.
  destruct (status_daemon w) as [[d|e] w1] eqn:Hrun; apply (daemon_law enabled_by registered) in Hrun as [Hs _].
  - by intros [= <- <-].
  - by destruct e; intros [= <- <-].
Qed.
Lemma wp_task_looked d (Q : res service_exn _Snapshot → W → Prop) w :
  (∀ s w', same w w' → describes d s w' → Q (Ok s) w') → (∀ e w', same w w' → Q (Err e) w') → wp (_snapshot d) Q w.
Proof.
  intros HQ Herr. unfold _snapshot. apply wp_bind.
  apply (wp_mono _ (λ r w1, same w w1 ∧ ∀ b, r = Ok b → b = true → enabled_by <$> tk_definition (task_at w) = Some true)).
  2: { destruct (is_managed_task d); [|by apply wp_ret; split; [|intros b [= <-]]].
    apply wp_task_enabled; [|done]. intros b w1 Hw1 Hb. split; [done|]. by intros b' [= <-]. }
  intros [enabled|e] w1 [Hw1 Hen]; [|by apply Herr]. specialize (Hen enabled eq_refl). apply wp_bind.
  apply (wp_mono _ (λ r w2, same w w2 ∧ ∀ b, r = Ok b → b = true → tk_active (task_at w) = true)).
  2: { destruct (is_managed_task d); [|by apply wp_ret; split; [|intros b [= <-]]].
    apply wp_task_active; [|by split]. rewrite Hw1. intros b w2 Hw2 Hb. split; [by etrans|]. by intros b' [= <-]. }
  intros [active|e] w2 [Hw2 Hac]; [|by apply Herr]. specialize (Hac active eq_refl).
  assert (∀ pid hb hp w3, same w w3 → (active = true → daemon_told hb hp pid w3) →
    describes d (mk_task_snapshot (is_managed_task d) enabled active pid hb hp) w3) as Hd.
  { intros pid hb hp w3 Hw3 Htold. split; [done|]. rewrite Hw3. split; [done|]. cbn. auto. }
  destruct active; [|apply wp_ret, HQ; [done|by apply Hd]].
  apply wp_bind, wp_intro. intros r w3 Hrun. pose proof (same_task_heartbeat _ _ _ Hrun) as Hw3.
  destruct r as [[hb hbpid]|e]; [|apply Herr; by etrans].
  assert (same w w3) as Hsame by (by etrans). apply wp_bind. cbn [snd fst]. destruct hbpid as [expected|].
  - apply wp_intro. intros r w4 Hpid. assert (same w3 w4) as Hw4.
    { refine (wp_run _ (λ _ w4, same w3 w4) _ _ _ Hpid _). by apply wp_task_pid. }
    assert (same w w4) by (by etrans). destruct r as [n|e]; [|by apply Herr].
    apply wp_ret, HQ; [done|]. apply Hd; [done|]. intros _. exists w2, w3. split; [done|]. split; [by etrans|]. by exists w4.
  - apply wp_ret, wp_ret, HQ; [done|]. apply Hd; [done|]. intros _. by exists w2, w3.
Qed.

(** ** What the commands answer *)

Definition installed (w w' : W) (resp : ServiceResponse) : Prop :=
  ∃ executable d rendered e, current_executable iv w = Some executable ∧ database = Ok d ∧
    render_definition executable d = Ok rendered ∧ tk_definition (task_at w') = Some e ∧
    (registered rendered e ∨ tk_definition (task_at w) = Some rendered ∧ e = rendered) ∧
    enabled_by e = true ∧ tk_active (task_at w') = true ∧ sr_heartbeat resp = Some Daemon.LiveRunning ∧
    daemon_told (Some Daemon.LiveRunning) (sr_main_pid resp) (sr_main_pid resp) w'.
Definition task_honest (action : ServiceAction) (w w' : W) (resp : ServiceResponse) (ok : bool) : Prop :=
  sr_action resp = action ∧ answers action (sr_state resp) = true ∧
  match sr_state resp with
  | Installed => ok = true ∧ installed w w' resp
  | Removed => ok = true ∧ tk_definition (task_at w') = None
  | Absent => ok = true ∧ same w w' ∧ tk_definition (task_at w) = None
  | Unmanaged => ok = false ∧ same w w' ∧ ∃ d, tk_definition (task_at w) = Some d ∧ is_managed_task d = false
  | ServiceActive | ServiceInactive => same w w' ∧
      (∃ d, tk_definition (task_at w) = Some d ∧ is_managed_task d = true) ∧
      sr_active resp = bool_decide (sr_state resp = ServiceActive) ∧ (sr_active resp = true → tk_active (task_at w) = true) ∧
      ok = negb (bool_decide (sr_code resp = Some HeartbeatUnavailable)) ∧
      if sr_active resp
      then ∃ heartbeat_pid, daemon_told (sr_heartbeat resp) heartbeat_pid (sr_main_pid resp) w' ∧
        (ok = true ↔ sr_heartbeat resp = Some Daemon.LiveRunning ∧ sr_main_pid resp = heartbeat_pid)
      else ok = true
  | ServiceFailed => ok = false ∧ (same w w' ∨ undone w w')
  | Unsupported => False
  end.
Definition task_answers (action : ServiceAction) (w : W) (r : res service_exn (ServiceResponse * bool)) (w' : W) : Prop :=
  match r with Ok (resp, ok) => task_honest action w w' resp ok | Err _ => True end.

Lemma ready_heartbeat s : heartbeat_ready s = true ↔ ts_heartbeat s = Some Daemon.LiveRunning ∧ ts_main_pid s = ts_heartbeat_pid s.
Proof. unfold heartbeat_ready. by rewrite andb_true_iff, !bool_decide_eq_true. Qed.
(** The task stands: registered from the rendered definition, or found with it. *)
Definition standing (w : W) (rendered : text) (w' : W) : Prop :=
  ∃ e, tk_definition (task_at w') = Some e ∧ (registered rendered e ∨ tk_definition (task_at w) = Some rendered ∧ e = rendered).
Lemma standing_same w rendered w1 w2 : same w1 w2 → standing w rendered w1 → standing w rendered w2.
Proof. intros Hs (e & He & Hor). exists e. by rewrite Hs. Qed.
Lemma installed_answer w w' executable d rendered s :
  current_executable iv w = Some executable → database = Ok d → render_definition executable d = Ok rendered →
  standing w rendered w' → describes rendered s w' → _ready s = true →
  task_answers ActionInstall w (Ok (_response (mk_service_outcome ActionInstall Installed None) s, true)) w'.
Proof.
  intros Hex Hdb Hren (e & Hdef & Hor) (_ & He & Ha). unfold _ready.
  intros [[Hen Hac]%andb_true_iff [Hhb Hpid]%ready_heartbeat]%andb_true_iff.
  do 3 (split; [done|]). specialize (He Hen). destruct (Ha Hac) as [Hact Htold]. rewrite Hhb, <- Hpid in Htold.
  rewrite Hdef in He. injection He as He. exists executable, d, rendered, e. auto 10.
Qed.
Lemma wp_undone action code previous w0 w :
  pv_definition previous = tk_definition (task_at w0) → (pv_active previous = true → tk_active (task_at w0) = true) →
  (pv_definition previous = None → pv_active previous = false) → answers action ServiceFailed = true →
  wp (_rollback previous;; mret (_result action ServiceFailed code, false)) (task_answers action w0) w.
Proof.
  intros ? ? ? ?. apply wp_bind. eapply wp_task_rolled_back; [done..| |done]. intros w' Hw'. apply wp_ret.
  do 2 (split; [done|]). split; auto.
Qed.

(** The registration and the start of an install. *)
Lemma wp_candidate_task ready rendered changed active w0 w :
  (changed = false → standing w0 rendered w) →
  wp (finally_do
        (and_then (if negb changed then mret true else register rendered)
                  (if negb (changed || negb active) then mret true else start (Some (windows_text ready))))
        (unlink_missing_ok ready))
    (λ r w', r = Ok true → standing w0 rendered w') w.
Proof.
  intros Hkept. apply wp_finally. eapply (wp_mono _ (λ r w', r = Ok true → standing w0 rendered w')).
  - intros r w1 Hr. apply wp_intro. intros r2 w2 Hrun. assert (same w1 w2) as Hs.
    { apply (files_law enabled_by registered ready w1 r2 w2). by right. }
    destruct r2 as [[]|e]; [|done]. intros Hok. by apply (standing_same _ _ w1), Hr.
  - unfold and_then. apply wp_bind.
    apply (wp_mono _ (λ r w1, r = Ok true → standing w0 rendered w1)).
    2: { destruct changed; cbn [negb]; [|apply wp_ret; auto]. apply wp_task_register; [|done].
      intros b w1 _ _ Hd. intros [= ->]. destruct (Hd eq_refl) as (e & He & Hreg). exists e. auto. }
    intros [[|]|e] w1 Hr; [|done..]. specialize (Hr eq_refl). destruct (negb (changed || negb active)); [by apply wp_ret|].
    apply wp_task_start; [|done]. intros b w2 _ Hd _ _. destruct Hr as (e & He & Hor). exists e. by rewrite Hd.
Qed.

Lemma install_task_answers w : wp (_install iv database render_definition) (task_answers ActionInstall w) w.
Proof.
  unfold _install. apply wp_bind, wp_gets. destruct (current_executable iv w) as [executable|] eqn:Hex.
  2: { apply wp_ret. do 3 (split; [done|]). by left. }
  apply wp_bind, wp_lift. destruct database as [d|e] eqn:Hdb; [|done].
  apply wp_bind, wp_lift. destruct (render_definition executable d) as [rendered|e] eqn:Hren; [|done].
  apply wp_bind, wp_task_definition; [|done]. intros w1 Hw1. set (before := tk_definition (task_at w)).
  destruct (match before with Some d => negb (is_managed_task d) | None => false end) eqn:Hun.
  { apply wp_ret. do 4 (split; [done|]). unfold before in Hun.
    destruct (tk_definition (task_at w)) as [d'|]; [|done]. apply negb_true_iff in Hun. eauto. }
  apply wp_bind. apply (wp_mono _ (λ r w2, ∀ b, r = Ok b → same w w2 ∧ (b = true → enabled_by <$> before = Some true))).
  2: { case_bool_decide; [|by apply wp_ret; intros b [= <-]]. apply wp_task_enabled; [|done].
    intros b w2 Hw2 Hb. intros b' [= <-]. split; [by etrans|]. unfold before. by rewrite <- Hw1. }
  intros [enabled|e] w2 Hen; [|done]. destruct (Hen enabled eq_refl) as [Hw2 Henabled]. clear Hen. apply wp_bind.
  apply (wp_mono _ (λ r w3, ∀ b, r = Ok b → same w w3 ∧ (b = true → tk_active (task_at w) = true) ∧ (before = None → b = false))).
  2: { case_bool_decide as Hsome; [|by apply wp_ret; intros b [= <-]]. apply wp_task_active; [|done].
    intros b w3 Hw3 Hb. intros b' [= <-]. split; [by etrans|]. split; [by rewrite <- Hw2|]. intros Hb'. rewrite Hb' in Hsome. by destruct Hsome. }
  intros [active|e] w3 Hac; [|done]. destruct (Hac active eq_refl) as (Hw3 & Hactive & Hnone). clear Hac. apply wp_bind.
  apply (wp_mono _ (λ r w4, same w w4 ∧ ∀ s, r = Ok (Some s) → before = Some rendered ∧ describes rendered s w4 ∧ _ready s = true)).
  2: { destruct (bool_decide (before = Some rendered) && enabled && active) eqn:Hset; [|by apply wp_ret].
    apply andb_true_iff in Hset as [[Hcur%bool_decide_eq_true _]%andb_true_iff _]. apply wp_bind, wp_task_looked.
    - intros s w4 Hw4 Hs. apply wp_ret. split; [by etrans|]. destruct (_ready s) eqn:Hr; [|done]. by intros s' [= <-].
    - intros e w4 Hw4. by split; [etrans|]. }
  intros [[s|]|e] w4 [Hw4 Hs]; [| |done].
  { destruct (Hs s eq_refl) as (Hcur & Hd & Hr). apply wp_ret. eapply installed_answer; [done..| |done|done].
    exists rendered. rewrite Hw4. auto. }
  assert (∀ p (m : Path → M W service_exn unit), m = make_parents ∨ m = unlink_missing_ok →
    Preserves same (m p)) as Hfiles.
  { intros p m Hm v r v' Hrun. apply (files_law enabled_by registered p v r v'). destruct Hm as [->| ->]; auto. }
  apply wp_bind. eapply wp_preserves; [by apply Hfiles; left|]. intros [[]|e] w5 Hw5; [|done].
  apply wp_bind. eapply wp_preserves; [by apply Hfiles; right|]. intros [[]|e] w6 Hw6; [|done].
  assert (same w w6) as Hsame by (etrans; [exact Hw4|by etrans]). set (changed := negb _ || negb enabled).
  apply wp_bind. eapply wp_mono; [|apply (wp_candidate_task _ rendered _ _ w)].
  2: { unfold changed. intros [Hc%negb_false_iff%bool_decide_eq_true _]%orb_false_iff. exists rendered. rewrite Hsame. auto. }
  intros [succeeded|e] w7 Hdef; [|done]. destruct succeeded; cbn [negb]; [|by apply wp_undone].
  specialize (Hdef eq_refl). apply wp_bind, wp_task_looked; [|done]. intros s w8 Hw8 Hd.
  destruct (_ready s) eqn:Hr; cbn [negb]; [|by apply wp_undone]. apply wp_ret.
  eapply installed_answer; [done..| |done|done]. by apply (standing_same _ _ w7).
Qed.

Lemma status_task_answers w : wp (_status (X := X)) (λ r w', same w w' ∧ task_answers ActionStatus w r w') w.
Proof.
  unfold _status. apply wp_bind, wp_task_definition; [|done]. intros w1 Hw1.
  destruct (tk_definition (task_at w)) as [d|] eqn:Hd; [|by apply wp_ret].
  destruct (is_managed_task d) eqn:Hm; cbn [negb].
  2: { apply wp_ret. split; [done|]. do 4 (split; [done|]). eauto. }
  apply wp_bind, wp_task_looked; [|intros e w2 Hw2; by split; [etrans|]]. intros s w2 Hw2 (_ & _ & Hact).
  assert (same w w2) as Hw by (by etrans). apply wp_ret. split; [done|]. unfold task_answers, task_honest. rewrite Hw in Hact.
  cbn. destruct (ts_active s) eqn:Has; cbn; do 3 (split; [done|]); (split; [by exists d|]); (split; [done|]); [|done].
  destruct (Hact eq_refl) as [Hrunning Htold]. split; [done|]. split; [by destruct (heartbeat_ready s)|].
  exists (ts_heartbeat_pid s). split; [done|]. apply ready_heartbeat.
Qed.

Lemma remove_task_answers w : wp (_remove (X := X)) (task_answers ActionRemove w) w.
Proof.
  unfold _remove. apply wp_bind, wp_task_definition; [|done]. intros w1 Hw1.
  destruct (tk_definition (task_at w)) as [d|] eqn:Hd; [|by apply wp_ret].
  destruct (is_managed_task d) eqn:Hm; cbn [negb].
  2: { apply wp_ret. do 4 (split; [done|]). eauto. }
  apply wp_bind, wp_task_enabled; [|done]. intros enabled w2 Hw2 _.
  apply wp_bind, wp_task_active; [|done]. intros active w3 Hw3 Hact. assert (same w w2) as Hw by (by etrans). rewrite Hw in Hact.
  apply wp_bind. apply (wp_mono _ (λ r w4, True)); [|by destruct active; [apply wp_task_stop|]].
  intros [[|]|e] w4 _; cbn [negb]; [|by apply wp_undone; rewrite ?Hd|done].
  apply wp_bind, wp_task_delete; [|done]. intros b w5 _ _ Hgone. destruct b; cbn [negb]; [|by apply wp_undone; rewrite ?Hd].
  apply wp_ret. do 3 (split; [done|]). by apply Hgone.
Qed.

(** C40. An install, a status and a removal on Windows are transactions and answer the command they were
    given.  An install that succeeds leaves a task registered from the rendered definition, or found
    with it, enabled and running, with a live heartbeat of a process the manager finds in the task;
    a removal that succeeds leaves no task; a status is healthy exactly when the heartbeat of a
    running task is live and of such a process.  One that answers a failed command or a missing
    heartbeat has changed nothing or ran the rollback last, and when all its scripts succeeded a
    task that was there is registered from the definition it was found with and runs only if it did,
    and one that was not is gone; a definition without the marker is left alone and a status changes
    nothing.  An answer that names an error that was raised, of a file, of a script or of a value,
    promises nothing more of the task. *)
Theorem task_commands_are_transactional action w r w' :
  execute_task_scheduler_lifecycle iv database render_definition action w = (r, w') →
  (action = ActionStatus → same w w') ∧
  ∀ result, r = Ok result →
    task_honest action w w' (scr_response result) (scr_success result) ∨
    raised_answer action (scr_response result) (scr_success result).
Proof.
  intros Hrun. split.
  - intros ->. pattern r, w'. refine (wp_run _ _ _ _ _ Hrun _). clear r w' Hrun.
    unfold execute_task_scheduler_lifecycle, execute_guarded. apply wp_try, wp_bind.
    eapply wp_mono; [|apply status_task_answers]. intros [[resp ok]|e] w1 [Hw1 _]; [done|].
    by destruct e.
  - pattern r, w'. refine (wp_run _ _ _ _ _ Hrun _). clear r w' Hrun.
    apply (wp_guarded action _ _ (λ resp ok w', task_honest action w w' resp ok)).
    + destruct action; [apply install_task_answers| |apply remove_task_answers].
      eapply wp_mono; [|apply status_task_answers]. by intros r w' [_ ?].
    + intros code w1. apply wp_ret. by intros resp [= <-].
Qed.
End Transactions.
