(* ===== verification/WinHost.v ===== *)
(** A host that shows the laws of [TaskScheduler] can hold: one task of the scheduler, which decodes
    the scripts it is given, with the scripts that fail and the deletions of the ready file that do. *)
From Stdlib Require Import Ascii.
From S2P Require Import Prelude Runs PyDate PyTime Codec Models Memory DeadlineText Runtime Status Paths Fallback Notify Services SystemdUnit TaskManager TaskDefinition TaskScheduler.
#[local] Open Scope Z_scope.
#[local] Existing Instances ascii_unicode hangul_tables ascii_categories.

Record win := mk_win {
  wn_task : task_state;
  wn_failing : list bool;
  wn_busy : list bool;
  wn_log : list (text * bool);
}.
(** The scheduler holds no empty definition. *)
Definition held (s : task_state) : task_state :=
  mk_task_state (if bool_decide (tk_definition s = Some ""%string) then None else tk_definition s) (tk_active s).
#[export] Instance win_task : TaskHost win := {| task_at w := held (wn_task w); script_log := wn_log |}.
#[export] Instance win_notifier : NotifierHost win := {|
  sys_platform := "win32";
  upper s := s;
  process_environment := [("PATH", "C:\tools"); ("COMSPEC", "C:\cmd.exe")]%string;
  get_system_directory _ := (19, "C:\Windows\System32"%string);
  package_directory := "C:\proactive_mcp";
  is_file _ _ := true;
  spawn _ _ _ _ w := (Exited 0, w);
|}.

(** The scheduler exports a definition with the user it registered it for. *)
Definition by_user : text := "<Task by me>".
Definition win_export (d : text) : text := if String.prefix by_user d then d else by_user +:+ d.
Definition win_registered (d e : text) : Prop := e = win_export d.

(** What a script does and prints. *)
Definition win_script (script : text) (s : task_state) : task_state * text :=
  match carried _REGISTER_SCRIPT_PREFIX script, carried ready_start_prefix script with
  | Some (d, _), _ => (mk_task_state (Some (win_export d)) (tk_active s), ""%string)
  | None, Some _ => (mk_task_state (tk_definition s) true, ""%string)
  | None, None =>
    if bool_decide (script = _START_SCRIPT) then (mk_task_state (tk_definition s) true, ""%string) else
    if bool_decide (script = _STOP_SCRIPT) then (mk_task_state (tk_definition s) false, ""%string) else
    if bool_decide (script = _DELETE_SCRIPT) then (mk_task_state None (tk_active s), ""%string) else
    if bool_decide (script = _DEFINITION_SCRIPT) then (s, default ""%string (tk_definition s)) else
    if bool_decide (script = _ENABLED_SCRIPT) then (s, match tk_definition s with Some _ => "1" | None => "0" end)%string else
    if bool_decide (script = _ACTIVE_SCRIPT) then (s, if tk_active s then "1" else "0")%string else
    (s, "77"%string)
  end.
Definition win_exec (script : text) (w : win) : option Completed * win :=
  if default false (head (wn_failing w)) || bool_decide (fst <$> carried _REGISTER_SCRIPT_PREFIX script = Some ""%string)
  then (Some (mk_completed 1 "" ""), mk_win (wn_task w) (tail (wn_failing w)) (wn_busy w) (wn_log w ++ [(script, false)]))
  else
    let x := win_script script (held (wn_task w)) in
    (Some (mk_completed 0 x.2 ""), mk_win x.1 (tail (wn_failing w)) (wn_busy w) (wn_log w ++ [(script, true)])).
#[export] Instance win_powershell : PowerShell win := λ argv _ w,
  match encoded_command (default ""%string (last argv)) with
  | Some script => win_exec script w
  | None => (None, w)
  end.
#[export] Instance win_files : ReadyFiles win := {|
  make_parents _ w := (Ok tt, w);
  unlink_missing_ok _ w :=
    (if default false (head (wn_busy w)) then Err OSError else Ok tt,
     mk_win (wn_task w) (wn_failing w) (tail (wn_busy w)) (wn_log w));
|}.
Definition win_executable : Path := sample_executable.
Definition win_daemon (w : win) : DaemonStatusResponse :=
  let active := tk_active (wn_task w) in
  mk_daemon_response active (if active then Daemon.LiveRunning else Daemon.LiveStopped) (if active then Some 77 else None)
    None None 0 None NeverRun None None None.
#[export] Instance win_host : ServiceHost win := {|
  run_process _ w := (None, w);
  status_daemon w := (Ok (win_daemon w), w);
  path_exists w p := bool_decide (p = win_executable);
  open_and_fstat w p := if bool_decide (p = win_executable) then Some (Some (mk_stat (S_IFREG + 493) 0 1 1 1)) else None;
  lstat w p := if bool_decide (p = win_executable) then Some (mk_stat (S_IFREG + 493) 0 1 1 1) else None;
|}.
#[export] Instance win_xml : ElementTree := λ t, if String.prefix "<Task " t then Some (task_element "" "" "") else None.

Definition win_enabled (d : text) : bool := true.
Lemma win_runs script w r w' : _run script w = (r, w') →
  r = Ok (mk_task_result false "") ∧ w' = mk_win (wn_task w) (tail (wn_failing w)) (wn_busy w) (wn_log w ++ [(script, false)]) ∨
  let x := win_script script (held (wn_task w)) in
  fst <$> carried _REGISTER_SCRIPT_PREFIX script ≠ Some ""%string ∧ r = Ok (mk_task_result true x.2) ∧ w' = mk_win x.1 (tail (wn_failing w)) (wn_busy w) (wn_log w ++ [(script, true)]).
Proof.
  unfold _run, run_command, subprocess_run, run_powershell, win_powershell.
  change (powershell_path (W := win)) with (Ok "C:\Windows\System32\WindowsPowerShell\v1.0\powershell.exe"%string : res service_exn text).
  destruct (_sanitized_environment (W := win)) as [env|e] eqn:He; [|by vm_compute in He].
  unfold lift, mbind, M_bind.
  match goal with |- context [encoded_command ?a] => change (encoded_command a) with (encoded_command (b64encode (utf_16_le script))) end.
  assert (encoded_command (b64encode (utf_16_le script)) = Some script) as ->.
  { unfold encoded_command. rewrite b64_round_trip. apply of_utf_16_round_trip. }
  unfold win_exec. destruct (default false _); cbn [orb]; [intros [= <- <-]; by left|].
  case_bool_decide; intros [= <- <-]; [by left|by right].
Qed.

Lemma script_definition s : win_script _DEFINITION_SCRIPT s = (s, default ""%string (tk_definition s)).
Proof. reflexivity. Qed.
Lemma script_enabled s : win_script _ENABLED_SCRIPT s = (s, match tk_definition s with Some _ => "1" | None => "0" end)%string.
Proof. reflexivity. Qed.
Lemma script_active s : win_script _ACTIVE_SCRIPT s = (s, if tk_active s then "1" else "0")%string.
Proof. reflexivity. Qed.
Lemma script_stop s : win_script _STOP_SCRIPT s = (mk_task_state (tk_definition s) false, ""%string).
Proof. reflexivity. Qed.
Lemma script_delete s : win_script _DELETE_SCRIPT s = (mk_task_state None (tk_active s), ""%string).
Proof. reflexivity. Qed.
Lemma script_register d s : win_script (register_script d) s = (mk_task_state (Some (win_export d)) (tk_active s), ""%string).
Proof. unfold win_script. by rewrite register_carries. Qed.
Lemma script_start ready s : win_script (start_script ready) s = (mk_task_state (tk_definition s) true, ""%string).
Proof.
  unfold win_script. destruct ready as [ready|]; [|reflexivity]. rewrite start_carries.
  assert (carried _REGISTER_SCRIPT_PREFIX (start_script (Some ready)) = None) as -> by reflexivity. reflexivity.
Qed.
Lemma script_pid pid s : win_script (_main_pid_script pid) s = (s, "77"%string).
Proof.
  destruct pid as [pid|]; [|reflexivity]. unfold win_script.
  assert (carried _REGISTER_SCRIPT_PREFIX (_main_pid_script (Some pid)) = None) as -> by reflexivity.
  assert (carried ready_start_prefix (_main_pid_script (Some pid)) = None) as -> by reflexivity.
  by rewrite !bool_decide_eq_false_2 by (intros Heq; apply (f_equal (drop_prefix (_PREFIX +:+ _GET_TASK +:+ "$roots"))) in Heq; vm_compute in Heq; discriminate).
Qed.
Lemma held_active d a : tk_active (held (mk_task_state d a)) = a.
Proof. done. Qed.
Lemma held_definition d a : d ≠ Some ""%string → tk_definition (held (mk_task_state d a)) = d.
Proof. intros Hd. unfold held. cbn. by rewrite bool_decide_eq_false_2. Qed.
Lemma held_nonempty s : tk_definition (held s) ≠ Some ""%string.
Proof. unfold held. cbn. by case_bool_decide. Qed.
Lemma export_nonempty d : win_export d ≠ ""%string.
Proof. unfold win_export. destruct (String.prefix by_user d) eqn:Hp; [|done]. by intros ->. Qed.
Lemma held_held s : held (held s) = held s.
Proof. unfold held at 1. by rewrite bool_decide_eq_false_2 by apply held_nonempty. Qed.
#[export] Instance win_laws : TaskLaws (W := win) win_enabled win_registered.
Proof.
  split; [|intros w; apply held_nonempty|intros p w r w' [[= _ <-]|[= _ <-]]; done|by intros w r w' [= _ <-]].
  intros script w r w' [[-> ->]|(Hne & -> & ->)]%win_runs; right; eexists; (split; [done|]); (split; [done|]).
  - repeat (split; [by intros; subst|]); by intros; subst.
  - cbn [task_at win_task wn_task tr_succeeded tr_output]. pose proof (held_nonempty (wn_task w)) as Hs.
    pose proof (held_held (wn_task w)) as Hh. set (s := held (wn_task w)) in *. clearbody s.
    split; [intros ->; by rewrite script_definition|].
    split; [intros ->; rewrite script_enabled; split; [done|]; destruct (tk_definition s); [done|by vm_compute]|].
    split; [intros ->; rewrite script_active; split; [done|]; destruct (tk_active s); [done|by vm_compute]|].
    split; [intros pid ->; by rewrite script_pid|].
    split; [intros d ->; rewrite script_register; split; [done|]; intros _; exists (win_export d); split; [|done];
      apply held_definition; intros [= He]; by apply (export_nonempty d)|].
    split; [intros ready ->; rewrite script_start; split; [by apply held_definition|done]|].
    split; [intros ->; rewrite script_stop; split; [by apply held_definition|done]|].
    intros ->. by rewrite script_delete.
Qed.

(** ** The commands run *)

Definition win_invocation : Invocation := mk_invocation win_executable true 0.
Abbreviation on_win := (execute_task_scheduler_lifecycle win_invocation (Ok sample_database) (_render_default lower_ascii powershell_path)).
Definition fresh_win : win := mk_win (mk_task_state None false) [] [] [].
Definition old_task : text := "<Task by me>old".
(** An older definition runs, and the start of the new one is refused: the sixth script. *)
Definition stale_win : win := mk_win (mk_task_state (Some old_task) true) [false; false; false; false; true] [] [].

Lemma installs_then_removes :
  match on_win ActionInstall fresh_win with
  | (Ok result, w) => scr_success result = true ∧ sr_state (scr_response result) = Installed ∧
      match on_win ActionRemove w with
      | (Ok result', w') => sr_state (scr_response result') = Removed ∧ tk_definition (task_at w') = None
      | _ => False
      end
  | _ => False
  end.
Proof. vm_compute. by repeat split. Qed.
Lemma task_commands_are_transactional_witness :
  match on_win ActionInstall fresh_win with
  | (Ok result, w) => scr_success result = true ∧
      installed win_invocation (Ok sample_database) (_render_default lower_ascii powershell_path) win_enabled win_registered fresh_win w (scr_response result) ∧
      match on_win ActionRemove w with
      | (Ok result', w') => sr_state (scr_response result') = Removed ∧ tk_definition (task_at w') = None
      | _ => False
      end
  | _ => False
  end.
Proof.
  pose proof installs_then_removes as H. destruct (on_win ActionInstall fresh_win) as [[result|e] w] eqn:Hrun; [|done].
  destruct (task_commands_are_transactional win_invocation (Ok sample_database) (_render_default lower_ascii powershell_path) win_enabled win_registered
    ActionInstall fresh_win _ _ Hrun) as [_ Hh].
  destruct H as (Hok & Hst & Hremoved). split; [exact Hok|]. destruct (Hh _ eq_refl) as [Hhonest|[Hno _]]; [|congruence].
  destruct Hhonest as (_ & _ & Hhonest). rewrite Hst in Hhonest. split; [exact (proj2 Hhonest)|exact Hremoved].
Defined.

(** A refused start gives the old definition back, running. *)
Example refused_starts_are_undone :
  match on_win ActionInstall stale_win with
  | (Ok result, w) => sr_code (scr_response result) = Some CommandFailed ∧ task_at w = task_at stale_win
  | _ => False
  end.
Proof. by vm_compute. Qed.
(** A ready file that cannot be deleted after the start skips the rollback: the answer is a failure,
    and the new task stays registered and running. *)
Example busy_ready_files_skip_the_rollback :
  match on_win ActionInstall (mk_win (mk_task_state None false) [] [false; true] []) with
  | (Ok result, w) => sr_code (scr_response result) = Some IoFailed ∧ scr_success result = false ∧
      is_Some (tk_definition (task_at w)) ∧ tk_active (task_at w) = true
  | _ => False
  end.
Proof. vm_compute. eauto 10. Qed.
