(* ===== verification/Service.v ===== *)
(** The service commands of every platform ([cli/service.py], [cli/service_backend.py],
    [cli/service_win32.py]): the choice of the backend, and the answer on the standard streams. *)
From Stdlib Require Import Ascii.
From S2P Require Import Prelude Runs PyDate PyTime Models Memory DeadlineText Runtime Status Paths Fallback Notify Services SystemdUnit Systemd Launchd LaunchAgent Darwin TaskManager TaskDefinition TaskScheduler.
#[local] Open Scope Z_scope.

(** ** The backend *)

(** The modules [service_<platform>] of the package, and the backend of the two that have an
    [execute_service]. *)
Inductive Backend := DarwinBackend | Win32Backend.
Definition modules : list (text * option Backend) :=
  [("backend", None); ("darwin", Some DarwinBackend); ("darwin_models", None); ("darwin_transaction", None);
   ("invocation", None); ("launchagent", None); ("launchd", None); ("models", None); ("systemd", None);
   ("task_scheduler", None); ("task_scheduler_contract", None); ("task_scheduler_lifecycle", None);
   ("task_scheduler_manager", None); ("task_scheduler_ready", None); ("unit", None); ("win32", Some Win32Backend)]%string.
(** A module without the function is an [InvalidServiceBackendError]. *)
Definition platform_executor (platform : text) : res service_exn (option Backend) :=
  match sql_find (λ m, bool_decide (m.1 = platform)) modules with
  | None => Ok None
  | Some (_, Some backend) => Ok (Some backend)
  | Some (_, None) => Err OtherError
  end.
Definition service_prompt_supported (platform : text) : res service_exn bool :=
  if String.prefix "linux" platform then Ok true else
  executor ← platform_executor platform; Ok (bool_decide (is_Some executor)).

(** [None]: no advice. *)
Definition human_linger_guidance (user : text) (l : LingerState) : option text :=
  match l with
  | LingerDisabled =>
    Some ("loginctl enable-linger " +:+ user +:+ " keeps the watcher running after " +:+
          "logout and should only be used if that behavior is wanted.")%string
  | LingerEnabled | LingerUnknown | LingerNotApplicable => None
  end.

(** What a command writes and its exit code. *)
Record Emitted := mk_emitted { em_stdout : text; em_stderr : option text; em_code : Z }.
Definition _emit (model_dump_json : ServiceResponse → text) (user : text) (response : ServiceResponse) (success : bool) : Emitted :=
  mk_emitted (model_dump_json response +:+ nl) ((λ t, t +:+ nl)%string <$> human_linger_guidance user (sr_linger response))
    (if success then 0 else 2).

Section Service.
Context {W : Type} {H : ServiceHost W} {UF : UnitFiles W} {FC : FileCalls W} {SL : Sleeps W} {PL : Plistlib}.
Context {N : NotifierHost W} {PS : PowerShell W} {RF : ReadyFiles W} {X : ElementTree}.
Context {U : Unicode} {T : CharTables} {C : Categories}.
(** The layouts of the three platforms, the clock and the tokens of macOS, and [str.lower]. *)
Context (iv : Invocation) (unit_layout : res service_exn _Layout) (plist_layout : res service_exn DarwinLayout)
  (database : res service_exn Path) (monotonic : nat → Z) (token token_restore : text) (fuel : nat) (lower : text → text).
Abbreviation op A := (M W service_exn A).

Definition execute_service (platform : text) (action : ServiceAction) : op ServiceCommandResult :=
  backend ← lift (platform_executor platform);
  match backend with
  | Some DarwinBackend => execute_darwin iv monotonic token token_restore fuel plist_layout action
  | Some Win32Backend => execute_task_scheduler lower iv database action
  | None =>
    if negb (String.prefix "linux" platform) then
      snapshot ← Systemd._empty_snapshot iv (Some LingerNotApplicable);
      mret (mk_service_result
        (Systemd._response (mk_service_outcome action Unsupported (Some UnsupportedPlatform)) snapshot) false)
    else execute_systemd iv unit_layout action
  end.
Definition run_service (model_dump_json : ServiceResponse → text) (user : text) (platform : text) (action : ServiceAction)
    : op Emitted :=
  result ← execute_service platform action;
  mret (_emit model_dump_json user (scr_response result) (scr_success result)).

(** ** The exit code *)

(** Success is an answer without a code, and advice on lingering comes with its guidance. *)
Definition agreeing (resp : ServiceResponse) (ok : bool) : Prop :=
  (ok = true ↔ sr_code resp = None) ∧ (sr_guidance resp = EnableLinger ↔ sr_linger resp = LingerDisabled).
(** Every result of [m] is one of [P]. *)
Definition Gives {A} (P : A → Prop) (m : op A) : Prop := ∀ w a w', m w = (Ok a, w') → P a.
Abbreviation agrees := (Gives (λ x : ServiceResponse * bool, agreeing x.1 x.2)).

Lemma gives_bind {A B} (P : A → Prop) (Q : B → Prop) (m : op A) f :
  Gives P m → (∀ a, P a → Gives Q (f a)) → Gives Q (m ≫= f).
Proof. intros Hm Hf w b w' (a & w1 & Ha%Hm & Hb)%bind_ok. by apply (Hf a Ha w1 b w'). Qed.
Lemma gives_after {A B} (Q : B → Prop) (m : op A) f : (∀ a, Gives Q (f a)) → Gives Q (m ≫= f).
Proof. intros Hf w b w' (a & w1 & _ & Hb)%bind_ok. by apply (Hf a w1 b w'). Qed.
Lemma gives_ret {A} (P : A → Prop) a : P a → Gives P (mret a).
Proof. by intros Ha w a' w' [= <- _]. Qed.
Lemma gives_lift {A} (P : A → Prop) r : (∀ a, r = Ok a → P a) → Gives P (lift r : op A).
Proof. intros Hr w a w' [= -> _]. by apply Hr. Qed.

Lemma agreeing_systemd action state code snapshot ok :
  (ok = true ↔ code = None) → agreeing (Systemd._response (mk_service_outcome action state code) snapshot) ok.
Proof. intros Hok. split; [done|]. cbn. by case_bool_decide. Qed.
Lemma agreeing_darwin action state code snapshot ok :
  (ok = true ↔ code = None) → agreeing (service_response (mk_service_outcome action state code) snapshot) ok.
Proof. done. Qed.
Lemma agreeing_task action state code snapshot ok :
  (ok = true ↔ code = None) → agreeing (TaskScheduler._response (mk_service_outcome action state code) snapshot) ok.
Proof. done. Qed.
Lemma agreeing_health (healthy : bool) : healthy = true ↔ (if healthy then None else Some HeartbeatUnavailable) = None.
Proof. by destruct healthy. Qed.
Lemma agrees_result action state code ok :
  (ok = true ↔ code = None) → agrees (response ← Systemd._result iv action state code; mret (response, ok)).
Proof.
  intros Hok. apply (gives_bind (λ resp, agreeing resp ok)); [|intros resp Hr; by apply gives_ret].
  apply gives_after. intros snapshot. by apply gives_ret, agreeing_systemd.
Qed.
Lemma agrees_failed action state code : agrees (Systemd._failed iv action state code).
Proof. by apply agrees_result. Qed.
Ltac agree :=
  repeat first
    [ apply agrees_failed
    | apply agrees_result; done
    | apply gives_ret; first [apply agreeing_systemd | apply agreeing_darwin | apply agreeing_task];
      first [done | apply agreeing_health]
    | lazymatch goal with
      | |- Gives _ (mbind _ _) => apply gives_after; intros ?
      | |- Gives _ (if ?b then _ else _) => destruct b
      | |- Gives _ (match ?x with _ => _ end) => destruct x
      | |- Gives _ (mret (if ?b then _ else _)) => destruct b
      end ].

Lemma systemd_agrees layout action :
  agrees (match action with
          | ActionInstall => Systemd._install iv layout
          | ActionStatus => Systemd._status iv layout
          | ActionRemove => Systemd._remove iv layout
          end).
Proof.
  destruct action; [unfold Systemd._install|unfold Systemd._status|unfold Systemd._remove]; cbv zeta; agree.
Qed.
Lemma prepared_agrees layout :
  Gives (λ p, match p with inr resp => agreeing resp false | inl _ => True end) (_prepare_install iv layout).
Proof. unfold _prepare_install, empty_response. agree; by apply gives_ret. Qed.
Lemma darwin_agrees layout action :
  agrees (match action with
          | ActionInstall => Darwin._install iv monotonic token token_restore fuel layout
          | ActionStatus => Darwin._status iv layout
          | ActionRemove => Darwin._remove iv layout
          end).
Proof.
  destruct action; [unfold Darwin._install|unfold Darwin._status|unfold Darwin._remove, _remove_absent, _remove_managed];
    cbv zeta; unfold _failure, empty_response; [|agree..].
  eapply gives_bind; [apply prepared_agrees|]. intros [plan|resp] Hp; [agree|by apply gives_ret].
Qed.
Lemma task_agrees render action :
  agrees (match action with
          | ActionInstall => TaskScheduler._install iv database render
          | ActionStatus => TaskScheduler._status
          | ActionRemove => TaskScheduler._remove
          end).
Proof.
  destruct action; [unfold TaskScheduler._install|unfold TaskScheduler._status|unfold TaskScheduler._remove];
    cbv zeta; unfold TaskScheduler._result; agree.
Qed.
(** The answers of a guarded operation, and of its handlers. *)
Lemma guarded_agrees failed operation :
  agrees operation → (∀ code, Gives (λ resp, agreeing resp false) (failed code)) →
  Gives (λ r, agreeing (scr_response r) (scr_success r)) (execute_guarded failed operation).
Proof.
  intros Hop Hfail w result w'. unfold execute_guarded, try_except.
  destruct ((r ← operation; mret (mk_service_result r.1 r.2)) w) as [[a|e] w1] eqn:Hrun.
  - intros [= -> ->]. apply bind_ok in Hrun as ([resp ok] & w2 & Hr & [= <- <-]). apply (Hop w (resp, ok) w2 Hr).
  - destruct e; [| |done]; intros (resp & w2 & Hr & [= <- <-])%bind_ok; by apply (Hfail _ _ _ _ Hr).
Qed.
Lemma execute_agrees platform action : Gives (λ r, agreeing (scr_response r) (scr_success r)) (execute_service platform action).
Proof.
  unfold execute_service. apply gives_after. intros [[|]|].
  - apply guarded_agrees; [apply gives_after; intros l; apply darwin_agrees|]. intros code. by apply gives_ret, agreeing_darwin.
  - apply guarded_agrees; [apply task_agrees|]. intros code. by apply gives_ret, agreeing_task.
  - destruct (String.prefix _ _); cbn [negb].
    + apply guarded_agrees; [apply gives_after; intros l; apply systemd_agrees|]. intros code.
      apply gives_after. intros snapshot. by apply gives_ret, agreeing_systemd.
    + apply gives_after. intros snapshot. by apply gives_ret, agreeing_systemd.
Qed.
(** Whatever the platform and whatever its manager and files answer, a service command that
    returns writes one line of JSON, exits with zero exactly when the answer has no code and with
    two otherwise, and writes the advice on lingering exactly when the answer's guidance says so;
    a platform without a backend is answered as unsupported without a call. *)
Theorem service_commands_answer_once model_dump_json user platform action w emitted w' :
  run_service model_dump_json user platform action w = (Ok emitted, w') →
  ∃ resp ok, execute_service platform action w = (Ok (mk_service_result resp ok), w') ∧
    em_stdout emitted = (model_dump_json resp +:+ nl)%string ∧
    em_code emitted = (if ok then 0 else 2) ∧ (em_code emitted = 0 ↔ sr_code resp = None) ∧
    (is_Some (em_stderr emitted) ↔ sr_guidance resp = EnableLinger) ∧
    (platform_executor platform = Ok None → String.prefix "linux" platform = false →
       sr_state resp = Unsupported ∧ ok = false ∧ w' = w).
Proof.
  intros ([resp ok] & w1 & Hrun & [= <- <-])%bind_ok. exists resp, ok. destruct (execute_agrees _ _ _ _ _ Hrun) as [Hok Hguide].
  split; [done|]. split; [done|]. split; [done|]. cbn in Hok, Hguide. split; [|split].
  - rewrite <- Hok. cbn. by destruct ok.
  - rewrite Hguide. cbn. rewrite fmap_is_Some. destruct (sr_linger resp); cbn; split; try done; first [by intros [? [=]]|by intros; eexists].
  - intros Hexec Hlinux. unfold execute_service in Hrun. rewrite Hexec in Hrun. cbn in Hrun. rewrite Hlinux in Hrun.
    cbn in Hrun. by injection Hrun as <- <- <-.
Qed.
End Service.

(** ** A host without anything installed *)

#[local] Existing Instances ascii_unicode hangul_tables ascii_categories.
Definition bare : Type := unit.
#[local] Instance bare_host : ServiceHost bare := {|
  run_process _ w := (Some (mk_completed 0 "no" ""), w); status_daemon w := (Err StatusUnavailable, w);
  path_exists _ _ := false; open_and_fstat _ _ := None; lstat _ _ := None |}.
#[local] Instance bare_units : UnitFiles bare := {|
  exists_ _ w := (Ok false, w); read_text _ w := (Err OSError, w); write_text _ _ w := (Err OSError, w);
  unlink _ w := (Err OSError, w); Systemd.unlink_missing_ok _ w := (Ok tt, w); Systemd.make_parents _ w := (Ok tt, w) |}.
#[local] Instance bare_calls : FileCalls bare := {|
  stat_nofollow _ w := (Err FileNotFoundError, w); open_read _ w := (Err FileNotFoundError, w); open_new _ _ w := (Err OtherOSError, w);
  fstat _ w := (Err OtherOSError, w); read_fd _ w := (Err OtherOSError, w); fchmod _ _ w := (Err OtherOSError, w);
  write_fd _ _ w := (Err OtherOSError, w); fsync_fd _ w := (Ok tt, w); close_fd _ w := (Ok tt, w);
  replace_path _ _ w := (Err OtherOSError, w); unlink_path _ w := (Err FileNotFoundError, w); make_directories _ w := (Ok tt, w) |}.
#[local] Instance bare_sleeps : Sleeps bare := λ _ w, (Ok tt, w).
#[local] Instance bare_plists : Plistlib := {| dumps _ := ""%string; parse_launch_agent_plist _ := Err InvalidFileException |}.
#[local] Instance bare_notifier : NotifierHost bare := {|
  sys_platform := "linux"; process_environment := []; upper s := s; get_system_directory _ := (0, ""%string); package_directory := "/opt";
  is_file _ _ := false; spawn _ _ _ _ w := (ProcessNotFound, w) |}.
#[local] Instance bare_powershell : PowerShell bare := λ _ _ w, (None, w).
#[local] Instance bare_ready : ReadyFiles bare := {| make_parents _ w := (Ok tt, w); unlink_missing_ok _ w := (Ok tt, w) |}.
#[local] Instance bare_xml : ElementTree := λ _, None.
Definition bare_json (resp : ServiceResponse) : text :=
  if bool_decide (sr_state resp = Absent) then "{absent}" else "{other}".
Abbreviation on_bare := (run_service (W := bare) (mk_invocation (mk_path "/" ["proactive-mcp"%string]) false 1000)
  (Ok (mk_layout (mk_path "/" ["unit"%string]) (mk_path "/" ["db"%string]))) (Err OtherError) (Err OtherError)
  (λ _, 0) "a"%string "b"%string 300%nat lower_ascii bare_json "jane"%string).

Lemma service_commands_answer_once_witness :
  match on_bare "linux"%string ActionRemove tt, on_bare "freebsd14"%string ActionInstall tt with
  | (Ok removed, _), (Ok refused, _) =>
    em_code removed = 0 ∧ is_Some (em_stderr removed) ∧ em_stdout removed = ("{absent}" +:+ nl)%string ∧
    em_code refused = 2 ∧ em_stderr refused = None
  | _, _ => False
  end.
Proof.
  destruct (on_bare "linux"%string ActionRemove tt) as [[removed|e] w1] eqn:H1; [|vm_compute in H1; discriminate].
  destruct (on_bare "freebsd14"%string ActionInstall tt) as [[refused|e] w2] eqn:H2; [|vm_compute in H2; discriminate].
  destruct (service_commands_answer_once _ _ _ _ _ _ _ _ _ _ _ _ _ _ _ _ H1) as (resp1 & ok1 & Hrun1 & Hout1 & _ & Hcode1 & Hadvice1 & _).
  destruct (service_commands_answer_once _ _ _ _ _ _ _ _ _ _ _ _ _ _ _ _ H2) as (resp2 & ok2 & Hrun2 & _ & Hexit2 & _ & Hadvice2 & Hun2).
  destruct (Hun2 eq_refl eq_refl) as (_ & -> & _).
  assert (sr_code resp1 = None ∧ sr_guidance resp1 = EnableLinger ∧ bare_json resp1 = "{absent}"%string) as (Hc & Hg & Hj).
  { vm_compute in Hrun1. injection Hrun1 as <- _ _. by vm_compute. }
  assert (em_stderr refused = None) as Hnone by (vm_compute in H2; by injection H2 as <- _).
  split; [by apply Hcode1|]. split; [by apply Hadvice1|]. split; [by rewrite Hout1, Hj|]. split; [exact Hexit2|exact Hnone].
Defined.
