(* ===== verification/Wizard.v ===== *)
(** The questions of [setup] ([cli/setup_wizard.py]) over a terminal whose lines, end and failures are
    given: which answer counts, that asking ends, and that nothing of the answers is shown. *)
From Stdlib Require Import Ascii.
From S2P Require Import Prelude Runs Memory DeadlineText SystemdUnit Paths.
#[local] Open Scope Z_scope.

(** ** The terminal *)

(** The lines still to be read, each with its line end ([None]: the read fails); after them the stream
    is at its end.  A write or a flush fails when the head of [tm_failing] says so. *)
Record terminal := mk_terminal {
  tm_isatty : bool;
  tm_lines : list (option text);
  tm_failing : list bool;
  tm_stdout : list text;
}.
Inductive wizard_exn := TerminalOSError | SetupWizardInputError.
Abbreviation op A := (M terminal wizard_exn A).

Definition write (t : text) : op unit := λ w,
  if default false (head (tm_failing w))
  then (Err TerminalOSError, mk_terminal (tm_isatty w) (tm_lines w) (tail (tm_failing w)) (tm_stdout w))
  else (Ok tt, mk_terminal (tm_isatty w) (tm_lines w) (tail (tm_failing w)) (tm_stdout w ++ [t])).
Definition flush : op unit := λ w,
  (if default false (head (tm_failing w)) then Err TerminalOSError else Ok tt,
   mk_terminal (tm_isatty w) (tm_lines w) (tail (tm_failing w)) (tm_stdout w)).
(** [readline]: an empty text at the end of the stream. *)
Definition readline : op text := λ w,
  match tm_lines w with
  | [] => (Ok ""%string, w)
  | Some line :: rest => (Ok line, mk_terminal (tm_isatty w) rest (tm_failing w) (tm_stdout w))
  | None :: rest => (Err TerminalOSError, mk_terminal (tm_isatty w) rest (tm_failing w) (tm_stdout w))
  end.

Definition _OAUTH_CLIENT_PATH_PROMPT : text := "OAuth client JSON path: ".
Definition _OPEN_BROWSER_PROMPT : text := "Open a browser on this device for authorization? [y/n]: ".
Definition _SERVICE_INSTALL_PROMPT : text := "Register and install the background watcher service now? [Y/n]: ".
Definition _BROWSER_ANSWER_RETRY : text := ("Please answer yes or no." +:+ nl)%string.
Definition _INPUT_ERROR_MESSAGE : text := "Interactive setup input is unavailable; use --non-interactive.".

Record SetupWizardAnswers := mk_answers { client_secrets_path : Path; headless : bool }.

(** [explicit_path], then the environment, then the file beside the database. *)
Definition resolve_setup_client_secrets_path (explicit_path environment_path : option Path) (state_directory : Path) : Path :=
  match explicit_path, environment_path with
  | Some p, _ => p
  | None, Some p => p
  | None, None => joined state_directory "client_secret.json"
  end.

Section Wizard.
Context {U : Unicode}.
(** [Path] of a text. *)
Context (path_of : text → Path).

(** [strip().lower()] of an answer, compared with words of ASCII letters; no other character is
    lowered to one of theirs. *)
Definition normalized (answer : text) : text := lower_ascii (strip answer).
(** What a browser answer says: headless or not, the default, or nothing. *)
Definition browser_choice (default_headless : bool) (answer : text) : option bool :=
  if bool_decide (normalized answer ∈ ["y"; "yes"]%string) then Some false else
  if bool_decide (normalized answer ∈ ["n"; "no"]%string) then Some true else
  if bool_decide (normalized answer = ""%string) then Some default_headless else None.
(** The loop over the browser answers; each turn reads a line, and [fuel] bounds the turns. *)
Fixpoint ask_browser (fuel : nat) (default_headless : bool) : op bool :=
  match fuel with
  | O => raise SetupWizardInputError
  | S fuel =>
    write _OPEN_BROWSER_PROMPT;; flush;;
    answer ← readline;
    if bool_decide (answer = ""%string) then raise SetupWizardInputError else
    match browser_choice default_headless answer with
    | Some headless => mret headless
    | None => write _BROWSER_ANSWER_RETRY;; ask_browser fuel default_headless
    end
  end.
(** [except OSError: raise SetupWizardInputError]. *)
Definition terminal_errors {A} (m : op A) : op A := try_except m (λ _, raise SetupWizardInputError).
Definition client_path_answer (defaults : SetupWizardAnswers) (answer : text) : Path :=
  if bool_decide (strip answer = ""%string) then client_secrets_path defaults else path_of (strip answer).
(** The turns of a loop that reads a line each are at most the lines left and the end of the stream. *)
Definition turns (w : terminal) : nat := S (length (tm_lines w)).
Definition collect_setup_wizard_answers (defaults : SetupWizardAnswers) : op SetupWizardAnswers :=
  terminal_errors
    (tty ← gets tm_isatty;
     if negb tty then raise SetupWizardInputError else
     write _OAUTH_CLIENT_PATH_PROMPT;; flush;;
     path_answer ← readline;
     if bool_decide (path_answer = ""%string) then raise SetupWizardInputError else
     fuel ← gets turns;
     headless ← ask_browser fuel (headless defaults);
     mret (mk_answers (client_path_answer defaults path_answer) headless)).

Definition consent_choice (answer : text) : option bool :=
  if bool_decide (normalized answer ∈ [""; "y"; "yes"]%string) then Some true else
  if bool_decide (normalized answer ∈ ["n"; "no"]%string) then Some false else None.
Fixpoint ask_consent (fuel : nat) : op bool :=
  match fuel with
  | O => raise SetupWizardInputError
  | S fuel =>
    write _SERVICE_INSTALL_PROMPT;; flush;;
    answer ← readline;
    if bool_decide (answer = ""%string) then raise SetupWizardInputError else
    match consent_choice answer with
    | Some consent => mret consent
    | None => write _BROWSER_ANSWER_RETRY;; flush;; ask_consent fuel
    end
  end.
Definition collect_service_install_consent : op bool :=
  terminal_errors
    (tty ← gets tm_isatty;
     if negb tty then raise SetupWizardInputError else
     fuel ← gets turns; ask_consent fuel).

(** ** What the questions ask *)

(** The first line the choice recognizes; the end of the stream or a failed read gives none. *)
Fixpoint answer_in {A} (choice : text → option A) (lines : list (option text)) : option A :=
  match lines with
  | Some line :: lines =>
    if bool_decide (line = ""%string) then None else
    match choice line with Some a => Some a | None => answer_in choice lines end
  | _ => None
  end.
Definition or_input_error {A} (o : option A) : res wizard_exn A :=
  match o with Some a => Ok a | None => Err SetupWizardInputError end.
Definition expected_answers (defaults : SetupWizardAnswers) (w : terminal) : res wizard_exn SetupWizardAnswers :=
  or_input_error (if tm_isatty w then
    match tm_lines w with
    | Some p :: lines => if bool_decide (p = ""%string) then None
        else mk_answers (client_path_answer defaults p) <$> answer_in (browser_choice (headless defaults)) lines
    | _ => None
    end else None).
Definition expected_consent (w : terminal) : res wizard_exn bool :=
  or_input_error (if tm_isatty w then answer_in consent_choice (tm_lines w) else None).
Definition fixed_texts : list text :=
  [_OAUTH_CLIENT_PATH_PROMPT; _OPEN_BROWSER_PROMPT; _SERVICE_INSTALL_PROMPT; _BROWSER_ANSWER_RETRY].
(** Only fixed texts were shown. *)
Definition shows_fixed (w w' : terminal) : Prop :=
  ∃ shown, tm_stdout w' = tm_stdout w ++ shown ∧ Forall (λ t, t ∈ fixed_texts) shown.
#[export] Instance shows_fixed_preorder : PreOrder shows_fixed.
Proof.
  split; [by exists []; rewrite app_nil_r|]. intros w1 w2 w3 (s1 & H1 & F1) (s2 & H2 & F2). exists (s1 ++ s2).
  rewrite H2, H1, <- app_assoc. split; [done|]. by apply Forall_app.
Qed.
Lemma write_shows t : t ∈ fixed_texts → Preserves shows_fixed (write t).
Proof.
  intros Ht w r w'. unfold write. destruct (default _ _); intros [= _ <-]; [by exists []; rewrite app_nil_r|].
  exists [t]. split; [done|]. by apply Forall_singleton.
Qed.
#[local] Hint Extern 2 (Preserves shows_fixed (write _)) =>
  apply write_shows; rewrite list_elem_of_In; cbn; tauto : typeclass_instances.
#[local] Instance flush_shows : Preserves shows_fixed flush.
Proof. intros w r w' [= _ <-]. by exists []; rewrite app_nil_r. Qed.
#[local] Instance readline_shows : Preserves shows_fixed readline.
Proof. intros w r w'. unfold readline. repeat case_match; intros [= _ <-]; by exists []; rewrite app_nil_r. Qed.
#[local] Instance ask_browser_shows fuel h : Preserves shows_fixed (ask_browser fuel h).
Proof. induction fuel as [|fuel IH]; cbn [ask_browser]; apply _. Qed.
#[local] Instance ask_consent_shows fuel : Preserves shows_fixed (ask_consent fuel).
Proof. induction fuel as [|fuel IH]; cbn [ask_consent]; apply _. Qed.

(** A result that a failing terminal can only turn into an error. *)
Definition as_expected {A} (w : terminal) (expected r : res wizard_exn A) : Prop :=
  (tm_failing w = [] → r = expected ∨ ∃ e, r = Err e ∧ expected = Err SetupWizardInputError) ∧ ∀ a, r = Ok a → expected = Ok a.
(** A text was written and flushed, and a line read. *)
Lemma wp_shown t (Q : res wizard_exn unit → terminal → Prop) w :
  (∀ r w', tm_isatty w' = tm_isatty w → tm_lines w' = tm_lines w → (tm_failing w = [] → r = Ok tt ∧ tm_failing w' = []) → Q r w') →
  wp (write t) Q w.
Proof.
  intros HQ. apply wp_intro. intros r w'. unfold write. destruct (default _ _) eqn:Hf; intros [= <- <-]; apply HQ; try done.
  - intros H. by rewrite H in Hf.
  - cbn. by intros ->.
Qed.
Lemma wp_flush (Q : res wizard_exn unit → terminal → Prop) w :
  (∀ r w', tm_isatty w' = tm_isatty w → tm_lines w' = tm_lines w → (tm_failing w = [] → r = Ok tt ∧ tm_failing w' = []) → Q r w') →
  wp flush Q w.
Proof. intros HQ. apply wp_intro. intros r w' [= <- <-]. apply HQ; [done..|]. cbn. by intros ->. Qed.
(** A loop of prompt, answer and retry. *)
Lemma ask_loop {A} (choice : text → option A) (ask : nat → op A) (prompt : text) (retry : op unit) :
  ask O = raise SetupWizardInputError →
  (∀ fuel w, ask (S fuel) w = (write prompt;; flush;; answer ← readline;
     if bool_decide (answer = ""%string) then raise SetupWizardInputError else
     match choice answer with Some a => mret a | None => retry;; ask fuel end) w) →
  (∀ (Q : res wizard_exn unit → terminal → Prop) w,
     (∀ r w', tm_isatty w' = tm_isatty w → tm_lines w' = tm_lines w → (tm_failing w = [] → r = Ok tt ∧ tm_failing w' = []) → Q r w') →
     wp retry Q w) →
  ∀ fuel w, (length (tm_lines w) < fuel)%nat →
  wp (ask fuel) (λ r _, as_expected w (or_input_error (answer_in choice (tm_lines w))) r) w.
Proof.
  intros H0 HS Hretry fuel. induction fuel as [|fuel IH]; intros w Hfuel; [lia|]. unfold wp. rewrite HS. change (wp (write prompt;; flush;; answer ← readline;
     if bool_decide (answer = ""%string) then raise SetupWizardInputError else
     match choice answer with Some a => mret a | None => retry;; ask fuel end) (λ r _, as_expected w (or_input_error (answer_in choice (tm_lines w))) r) w).
  assert (∀ w1 e expected, (tm_failing w = [] → Err (A := unit) e = Ok tt ∧ tm_failing w1 = []) → as_expected w expected (Err (A := A) e)) as Herr.
  { intros w1 e expected Hf. split; [|done]. intros H. by destruct (Hf H). }
  apply wp_bind, wp_shown. intros r w1 _ Hl1 Hf1. destruct r as [[]|e]; [|by apply (Herr w1)].
  apply wp_bind, wp_flush. intros r w2 _ Hl2 Hf2.
  assert (tm_failing w = [] → r = Ok tt ∧ tm_failing w2 = []) as Hf by (intros H; by apply Hf2, Hf1).
  destruct r as [[]|e]; [|by apply (Herr w2)]. apply wp_bind, wp_intro. intros r w3. unfold readline. rewrite Hl2, Hl1.
  destruct (tm_lines w) as [|[line|] lines] eqn:Hlines; intros [= <- <-]; cbn [answer_in].
  - rewrite bool_decide_eq_true_2 by done. apply wp_raise. split; [by left|done].
  - case_bool_decide as Hempty; [apply wp_raise; split; [by left|done]|].
    destruct (choice line) as [a|]; [apply wp_ret; split; [by left|by intros ? [= <-]]|].
    apply wp_bind, Hretry. cbn. intros r w4 _ Hl4 Hf4. destruct r as [[]|e]; [|split; [|done]; intros H; by destruct (Hf4 (proj2 (Hf H)))].
    assert (length (tm_lines w4) < fuel)%nat as Hlen by (rewrite Hl4; cbn in *; lia).
    eapply wp_mono; [|apply IH; exact Hlen]. intros r w5 [Hr1 Hr2]. rewrite Hl4 in Hr1, Hr2. split; [|done].
    intros H. apply Hr1. by apply Hf4, Hf.
  - split; [|done]. intros _. right. eauto.
Qed.
Lemma wp_ask_browser fuel h w : (length (tm_lines w) < fuel)%nat →
  wp (ask_browser fuel h) (λ r _, as_expected w (or_input_error (answer_in (browser_choice h) (tm_lines w))) r) w.
Proof. apply (ask_loop (browser_choice h) (λ fuel, ask_browser fuel h) _OPEN_BROWSER_PROMPT (write _BROWSER_ANSWER_RETRY)); [done..|]. apply wp_shown. Qed.
Lemma wp_ask_consent fuel w : (length (tm_lines w) < fuel)%nat →
  wp (ask_consent fuel) (λ r _, as_expected w (or_input_error (answer_in consent_choice (tm_lines w))) r) w.
Proof.
  apply (ask_loop consent_choice ask_consent _SERVICE_INSTALL_PROMPT (write _BROWSER_ANSWER_RETRY;; flush)); [done|..].
  - intros n w0. cbn [ask_consent]. unfold mbind, M_bind, M_ret, raise. repeat case_match; simplify_eq/=; done.
  - intros Q w0 HQ. apply wp_bind, wp_shown. intros r w1 H1 H2 H3. destruct r as [[]|e]; [|by apply HQ].
    apply wp_flush. intros r w2 H4 H5 H6. apply HQ; [congruence..|]. intros H. by apply H6, H3.
Qed.
(** Under [terminal_errors] every failure is the one input error. *)
Lemma expected_under {A} (m : op A) (o : option A) w :
  wp m (λ r _, as_expected w (or_input_error o) r) w →
  wp (terminal_errors m) (λ r _, (∀ e, r = Err e → e = SetupWizardInputError) ∧
    (tm_failing w = [] → r = or_input_error o) ∧ ∀ a, r = Ok a → o = Some a) w.
Proof.
  intros Hm. apply wp_try. eapply wp_mono; [|exact Hm]. intros [a|e] w' [Hf Ha].
  - split; [done|]. assert (o = Some a) as ->. { specialize (Ha _ eq_refl). destruct o; cbn in Ha; congruence. }
    split; [done|]. by intros ? [= <-].
  - apply wp_raise. split; [by intros ? [= <-]|]. split; [|done]. intros H. destruct o as [a|]; [|done].
    destruct (Hf H) as [|(e' & _ & ?)]; done.
Qed.

(** C27. The questions end at the first answer they recognize, with the path typed or the default; the end
    of the input, a failing read and no terminal are the one input error, whatever else fails; and
    only the fixed texts are ever shown, never an answer. *)
Theorem setup_questions_end_and_hide defaults w :
  (∀ r w', collect_setup_wizard_answers defaults w = (r, w') →
     shows_fixed w w' ∧ (∀ e, r = Err e → e = SetupWizardInputError) ∧
     (tm_failing w = [] → r = expected_answers defaults w) ∧ ∀ a, r = Ok a → expected_answers defaults w = Ok a) ∧
  (∀ r w', collect_service_install_consent w = (r, w') →
     shows_fixed w w' ∧ (∀ e, r = Err e → e = SetupWizardInputError) ∧
     (tm_failing w = [] → r = expected_consent w) ∧ ∀ a, r = Ok a → expected_consent w = Ok a).
Proof.
  assert (∀ A (m : op A) (o : option A) r w', m w = (r, w') → Preserves shows_fixed m →
    wp m (λ r _, (∀ e, r = Err e → e = SetupWizardInputError) ∧ (tm_failing w = [] → r = or_input_error o) ∧ ∀ a, r = Ok a → o = Some a) w →
    shows_fixed w w' ∧ (∀ e, r = Err e → e = SetupWizardInputError) ∧ (tm_failing w = [] → r = or_input_error o) ∧ ∀ a, r = Ok a → or_input_error o = Ok a) as Hall.
  { intros A m o r w' Hrun Hs Hm. split; [by apply (Hs _ _ _ Hrun)|]. destruct (wp_run _ _ _ _ _ Hrun Hm) as (He & Hf & Ha).
    split; [done|]. split; [done|]. intros a ->. by rewrite (Ha _ eq_refl). }
  assert (∀ A (o : option A) w1 e, (tm_failing w = [] → Err (A := unit) e = Ok tt ∧ tm_failing w1 = []) → as_expected w (or_input_error o) (Err (A := A) e)) as Herr.
  { intros A o w1 e Hf. split; [|done]. intros H. by destruct (Hf H). }
  split; intros r w' Hrun; apply (Hall _ _ _ _ _ Hrun).
  - unfold collect_setup_wizard_answers, terminal_errors. apply _.
  - apply expected_under. apply wp_bind, wp_gets. destruct (tm_isatty w); cbn [negb]; [|apply wp_raise; split; [by left|done]].
    apply wp_bind, wp_shown. intros r1 w1 _ Hl1 Hf1. destruct r1 as [[]|e]; [|by apply (Herr _ _ w1)].
    apply wp_bind, wp_flush. intros r2 w2 _ Hl2 Hf2.
    assert (tm_failing w = [] → r2 = Ok tt ∧ tm_failing w2 = []) as Hf by (intros H; by apply Hf2, Hf1).
    destruct r2 as [[]|e]; [|by apply (Herr _ _ w2)]. apply wp_bind, wp_intro. intros r3 w3. unfold readline. rewrite Hl2, Hl1.
    destruct (tm_lines w) as [|[p|] lines] eqn:Hlines; intros [= <- <-].
    + rewrite bool_decide_eq_true_2 by done. apply wp_raise. split; [by left|done].
    + case_bool_decide as Hempty; [apply wp_raise; split; [by left|done]|]. apply wp_bind, wp_gets. apply wp_bind.
      eapply wp_mono; [|apply wp_ask_browser; unfold turns; lia]. cbn [tm_lines tm_failing]. intros r4 w4 [H1 H2].
      destruct (answer_in _ lines) as [h|]; destruct r4 as [h'|e]; cbn in *.
      * apply wp_ret. specialize (H2 _ eq_refl). injection H2 as ->. split; [by left|by intros ? [= <-]].
      * split; [|done]. intros Hok. destruct (H1 (proj2 (Hf Hok))) as [|(? & _ & ?)]; done.
      * specialize (H2 _ eq_refl). done.
      * split; [|done]. intros _. right. eauto.
    + split; [|done]. intros _. right. eauto.
  - unfold collect_service_install_consent, terminal_errors. apply _.
  - apply expected_under. apply wp_bind, wp_gets. destruct (tm_isatty w); cbn [negb]; [|apply wp_raise; split; [by left|done]].
    apply wp_bind, wp_gets, wp_ask_consent. unfold turns. lia.
Qed.
End Wizard.

(** A blank path and a browser answer after a wrong one. *)
Definition sample_terminal : terminal :=
  mk_terminal true [Some nl; Some ("perhaps" +:+ nl); Some (" No" +:+ nl)]%string [] [].
Definition sample_defaults : SetupWizardAnswers := mk_answers (mk_path "/" ["home"; "secret.json"]) false.
Lemma setup_questions_end_and_hide_witness :
  let run := collect_setup_wizard_answers (U := ascii_unicode) (λ t, mk_path "" [t]) sample_defaults sample_terminal in
  run.1 = Ok (mk_answers (client_secrets_path sample_defaults) true) ∧ shows_fixed sample_terminal run.2.
Proof.
  split; [vm_compute; reflexivity|].
  apply (setup_questions_end_and_hide (U := ascii_unicode) (λ t, mk_path "" [t]) sample_defaults sample_terminal) with
    (r := (collect_setup_wizard_answers (U := ascii_unicode) (λ t, mk_path "" [t]) sample_defaults sample_terminal).1).
  by destruct (collect_setup_wizard_answers _ _ _).
Defined.
