(* ===== verification/Watcher.v ===== *)
(** The watcher daemon ([delivery/daemon.py], [scheduler.py]) and the composition its command
    runs over an open store ([cli/daemon.py]): claim the liveness row, evaluate, notify, beat,
    and stop.  The platform's notifier, the scheduler's waits and the service manager's
    readiness socket are parameters. *)
From S2P Require Import Prelude PyDate PyTime Models SourceSync Situations StateMachine Resolution Fallback Runtime Memory CalendarConflict DeadlineText Health Config Engine Transport GoogleSync Evaluation Frames.
Import SyncState Freshness Diagnostics Sql Upsert Store Reader.
#[local] Open Scope Z_scope.

(** ** Failures *)

Inductive DaemonFailureKind :=
  | CONFIG_INVALID | DATABASE_UNSAFE_PATH | DATABASE_OPEN_FAILED | CREDENTIAL_UNAVAILABLE
  | SOURCE_SYNC_FAILED | EVALUATION_FAILED | NOTIFICATION_FAILED | HEARTBEAT_FAILED
  | OWNERSHIP_CONFLICT | SERVICE_NOTIFY_FAILED.
#[export] Instance DaemonFailureKind_eq_dec : EqDecision DaemonFailureKind.
Proof. solve_decision. Defined.
Definition failure_phase (kind : DaemonFailureKind) : DaemonFailurePhase :=
  match kind with
  | CONFIG_INVALID => PhaseConfig
  | DATABASE_UNSAFE_PATH | DATABASE_OPEN_FAILED => PhaseDatabase
  | CREDENTIAL_UNAVAILABLE => PhaseCredential
  | SOURCE_SYNC_FAILED => PhaseSourceSync
  | EVALUATION_FAILED => PhaseEvaluation
  | NOTIFICATION_FAILED => PhaseNotification
  | HEARTBEAT_FAILED => PhaseHeartbeat
  | OWNERSHIP_CONFLICT => PhaseRuntimeOwnership
  | SERVICE_NOTIFY_FAILED => PhaseService
  end.
Definition failure_code (kind : DaemonFailureKind) : DaemonFailureCode :=
  match kind with
  | CONFIG_INVALID => CodeInvalid
  | DATABASE_UNSAFE_PATH => CodeUnsafePath
  | DATABASE_OPEN_FAILED => CodeOpenFailed
  | CREDENTIAL_UNAVAILABLE => CodeUnavailable
  | SOURCE_SYNC_FAILED | EVALUATION_FAILED | NOTIFICATION_FAILED | HEARTBEAT_FAILED => CodeFailed
  | OWNERSHIP_CONFLICT => CodeOwnershipConflict
  | SERVICE_NOTIFY_FAILED => CodeNotifyFailed
  end.

Inductive daemon_exn := DaemonFailureError (kind : DaemonFailureKind) | OtherError (e : pass_exn).

(** An operation of the daemon, over the world and the store. *)
Abbreviation daemon W := (M (W * db) daemon_exn).
Definition on_pass {W A} (m : pass W A) : daemon W A := λ s,
  match m s with
  | (Ok a, s') => (Ok a, s')
  | (Err e, s') => (Err (OtherError e), s')
  end.

(** [run_daemon_phase]. *)
Definition run_daemon_phase {W A} (kind : DaemonFailureKind) (operation : daemon W A) : daemon W A := λ s,
  match operation s with
  | (Err (OtherError _), s') => (Err (DaemonFailureError kind), s')
  | r => r
  end.

(** [remaining_delay]. *)
Definition remaining_delay (interval elapsed : timedelta) : timedelta := Z.max (interval - elapsed) 0.

(** ** The watcher *)

Record DaemonPass := mk_daemon_pass {
  dp_evaluation : EvaluationPass;
  dp_notifications : list FallbackDispatch;
}.
Record DaemonRun := mk_daemon_run { run_pass_count : Z; run_notification_count : Z }.

(** What one pass reads from outside: the clock, and the memories, which other connections
    change between passes. *)
Record pass_env := mk_pass_env {
  pe_started : instant;
  pe_read : read_clock;
  pe_engine : pass_clock;
  pe_memory : memory_db;
  pe_notify : instant;
  pe_notified : list FallbackDispatch → instant;
  pe_heartbeat : instant;
  pe_failed : instant;
  pe_outcome : instant;
  pe_finished : instant;
}.

Definition is_failed (x : FallbackDispatch) : bool := match x with Fallback.Failed _ _ => true | Sent _ => false end.
Definition storage_unavailable (outcome : SourceOutcome) : bool :=
  match outcome with SkippedSources SkipCredentialStorageUnavailable => true | _ => false end.

Section Watcher.
Context {U : Unicode} {T : CharTables}.
Context (dump_json : SituationEvidence → text) (parse_datetime : text → option Z).
Context (tz : tzinfo) (detectors : DetectorSettings).
Context {W : Type} {A : SourceAccess W}.
Context (notifier : list FallbackDispatch → NotificationPayload → option NotificationErrorCode).
Context (settings : FallbackSettings).
Context (pid : Z) (owner_token : text).

(** [FallbackDispatcher.dispatch] with fuel for every stored situation ([dispatch_all_total]). *)
Definition dispatch_all (clock : list FallbackDispatch → instant) (now : instant) : op (list FallbackDispatch) := λ d,
  match dispatch notifier clock settings (S (length (situations d))) now d with
  | (Ok (Some xs), d') => (Ok xs, d')
  | (Ok None, d') => (Ok [], d')
  | (Err e, d') => (Err e, d')
  end.

(** [_DaemonSourceProvider] over the scheduled provider. *)
Definition daemon_sources (k : read_clock) : daemon W SourceOutcome :=
  run_daemon_phase SOURCE_SYNC_FAILED (on_pass (scheduled_sources parse_datetime k)).

Definition stored {B} (m : op B) : daemon W B := on_pass (on_store m).

(** [_run_pass], by the owner of the row. *)
Definition _run_pass (env : pass_env) : daemon W DaemonPass :=
  evaluation ← run_daemon_phase EVALUATION_FAILED
    (run_once (daemon_sources (pe_read env))
      (λ inputs, stored (evaluate dump_json parse_datetime tz detectors (pe_engine env) (pe_memory env) inputs)));
  if storage_unavailable (ep_sources evaluation) then raise (DaemonFailureError CREDENTIAL_UNAVAILABLE) else
  notifications ← run_daemon_phase NOTIFICATION_FAILED (stored (dispatch_all (pe_notified env) (pe_notify env)));
  if existsb is_failed notifications then raise (DaemonFailureError NOTIFICATION_FAILED) else
  run_daemon_phase HEARTBEAT_FAILED (stored (Daemon.record_heartbeat owner_token (pe_heartbeat env)));;
  mret (mk_daemon_pass evaluation notifications).

(** [_claim]; the process asks no one whether the incumbent is alive. *)
Definition _claim (now : instant) (poll_interval : option timedelta) : daemon W unit :=
  claimed ← run_daemon_phase HEARTBEAT_FAILED (stored (Daemon.try_record_start owner_token now pid poll_interval None));
  if negb claimed then raise (DaemonFailureError OWNERSHIP_CONFLICT) else mret tt.
Definition _release (now : instant) : daemon W unit :=
  run_daemon_phase HEARTBEAT_FAILED (stored (Daemon.record_stop owner_token now)).

Definition _record_run_success (now : instant) (completed : DaemonPass) : daemon W unit :=
  let state := match ep_warnings (dp_evaluation completed) with [] => RunSucceeded | _ => RunDegraded end in
  stored (Daemon.record_run_outcome owner_token now now state None None).
Definition _record_run_failure (failed_at now : instant) (kind : DaemonFailureKind) : daemon W unit :=
  stored (Daemon.record_run_outcome owner_token failed_at now RunFailed (Some (failure_phase kind)) (Some (failure_code kind))).

(** [try: body except DaemonFailureError: record and raise]. *)
Definition record_failures {B} (env : pass_env) (body : daemon W B) : daemon W B := λ s,
  match body s with
  | (Err (DaemonFailureError kind), s') => (_record_run_failure (pe_failed env) (pe_outcome env) kind;; raise (DaemonFailureError kind)) s'
  | r => r
  end.

(** [WatcherDaemon.run_once]. *)
Definition run_once (now_claim now_stop : instant) (env : pass_env) : daemon W DaemonPass :=
  _claim now_claim None;;
  try_finally
    (completed ← record_failures env
       (stored (Daemon.record_run_started owner_token RunOnce);; _run_pass env);
     _record_run_success (pe_outcome env) completed;;
     mret completed)
    (_release now_stop).

(** The loop of [run_forever]: pass [n] reads [env n], and the scheduler answers whether
    another follows; [None] when the fuel runs out. *)
Context (envs : nat → pass_env) (wait : nat → timedelta → bool).
Fixpoint watch (fuel n : nat) (poll_interval : timedelta) (passes notifications : Z) : daemon W (option DaemonRun) :=
  match fuel with
  | O => mret None
  | S fuel =>
    let env := envs n in
    completed ← record_failures env (_run_pass env);
    _record_run_success (pe_outcome env) completed;;
    let passes := passes + 1 in
    let notifications := notifications + Z.of_nat (length (dp_notifications completed)) in
    if wait n (remaining_delay poll_interval (pe_finished env - pe_started env))
    then watch fuel (S n) poll_interval passes notifications
    else mret (Some (mk_daemon_run passes notifications))
  end.

(** [WatcherDaemon.run_forever]. *)
Definition run_forever (fuel : nat) (now_claim now_stop : instant) (poll_interval : timedelta) : daemon W (option DaemonRun) :=
  _claim now_claim (Some poll_interval);;
  try_finally
    (stored (Daemon.record_run_started owner_token RunContinuous);;
     watch fuel 0 poll_interval 0 0)
    (_release now_stop).

(** ** The command *)

Definition _failure_exit_status (kind : DaemonFailureKind) : Z :=
  match kind with
  | CONFIG_INVALID | DATABASE_UNSAFE_PATH | CREDENTIAL_UNAVAILABLE | OWNERSHIP_CONFLICT => 2
  | DATABASE_OPEN_FAILED | SOURCE_SYNC_FAILED | EVALUATION_FAILED | NOTIFICATION_FAILED
  | HEARTBEAT_FAILED | SERVICE_NOTIFY_FAILED => 1
  end.
Definition _source_token (outcome : SourceOutcome) : text :=
  match outcome with
  | PreparedSources _ => "prepared"
  | SkippedSources SkipNotConfigured => "not_configured"
  | SkippedSources SkipNeedsReauth => "needs_reauth"
  | SkippedSources SkipMissingCredentials => "missing_credentials"
  | SkippedSources SkipCredentialStorageUnavailable => "credential_storage_unavailable"
  | SkippedSources SkipDaemonRunning => "daemon_running"
  | SkippedSources SkipAlreadyFresh => "already_fresh"
  | SkippedSources SkipSyncInFlight => "sync_in_flight"
  end.

(** What the command learns from the platform: whether a process lives, and whether the service
    manager could be told. *)
Context (process_is_alive : Z → bool) (notify_service_ready : bool).

(** [run_daemon] over the open store, its configuration already read: the exit status. *)
Definition run_daemon (once : bool) (fuel : nat) (now_first now_claim now_stop : instant) (interval : timedelta)
    : daemon W (option Z) :=
  claimed ← run_daemon_phase HEARTBEAT_FAILED
    (stored (Daemon.try_record_start owner_token now_first pid (Some interval) (Some process_is_alive)));
  if negb claimed then mret (Some (_failure_exit_status OWNERSHIP_CONFLICT)) else
  if once then run_once now_claim now_stop (envs 0);; mret (Some 0) else
  if notify_service_ready then
    ended ← run_forever fuel now_claim now_stop interval;
    mret ((λ _, 0) <$> ended)
  else
    try_finally
      (run_daemon_phase HEARTBEAT_FAILED (stored (Daemon.record_run_started owner_token RunContinuous));;
       run_daemon_phase HEARTBEAT_FAILED (stored (Daemon.record_run_outcome owner_token (pe_failed (envs 0)) (pe_outcome (envs 0)) RunFailed
         (Some (failure_phase SERVICE_NOTIFY_FAILED)) (Some (failure_code SERVICE_NOTIFY_FAILED)))))
      (run_daemon_phase HEARTBEAT_FAILED (stored (Daemon.record_stop owner_token now_stop)));;
    raise (DaemonFailureError SERVICE_NOTIFY_FAILED).

(** The [except] clauses around it: [IntegrityError] is an [sqlite3.Error]; any other exception
    goes on. *)
Definition exit_status (r : res daemon_exn (option Z)) : option (option Z) :=
  match r with
  | Ok status => Some status
  | Err (DaemonFailureError kind) => Some (Some (_failure_exit_status kind))
  | Err (OtherError (StoreError IntegrityError)) => Some (Some (_failure_exit_status DATABASE_OPEN_FAILED))
  | Err (OtherError _) => None
  end.
End Watcher.

(** ** What leaves the liveness row alone *)

Abbreviation liveness_kept := (unchanged daemon_status).
Ltac liveness_frames :=
  intros; repeat first [apply frame_modify; done | progress frames].

#[export] Instance frame_notify notifier clock earlier r : Preserves liveness_kept (_notify notifier clock earlier r).
Proof. unfold _notify, record_failed, record_sent, _complete. liveness_frames. Qed.
#[export] Instance frame_claim_first claim rows : Preserves liveness_kept (claim_first claim rows).
Proof. induction rows as [|r rows IH]; cbn [claim_first]; liveness_frames. Qed.
#[export] Instance frame_claim_next claim : Preserves liveness_kept (claim_next claim).
Proof. unfold claim_next. liveness_frames. Qed.
#[export] Instance frame_dispatch_loop notifier clock fuel claim acc :
  Preserves liveness_kept (dispatch_loop notifier clock fuel claim acc).
Proof. revert acc. induction fuel as [|fuel IH]; intros acc; cbn [dispatch_loop]; liveness_frames. Qed.

Section Frames.
Context {U : Unicode} {T : CharTables}.
Context (dump_json : SituationEvidence → text) (parse_datetime : text → option Z).
Context (tz : tzinfo) (detectors : DetectorSettings).
Context (notifier : list FallbackDispatch → NotificationPayload → option NotificationErrorCode).
Context (settings : FallbackSettings).

#[export] Instance frame_dispatch_all clock now : Preserves liveness_kept (dispatch_all notifier settings clock now).
Proof.
  intros d r d'. unfold dispatch_all.
  assert (Preserves liveness_kept (dispatch notifier clock settings (S (length (situations d))) now)) as Hdispatch
    by (unfold dispatch; liveness_frames).
  destruct (dispatch _ _ _ _ now d) as [[[xs|]|e] d1] eqn:Hrun; intros [= _ <-]; by apply (Hdispatch _ _ _ Hrun).
Qed.

(** The fuel of a dispatch is enough. *)
Lemma dispatch_all_total clock now d xs d' :
  db_ok d → dispatch notifier clock settings (S (length (situations d))) now d = (Ok xs, d') → xs ≠ None.
Proof.
  intros Hok Hrun ->. destruct (fset_enabled settings) eqn:Hen; [|by unfold dispatch in Hrun; rewrite Hen in Hrun].
  destruct (decide (fset_priorities settings = [])) as [Hpr|Hpr].
  { unfold dispatch in Hrun. by rewrite Hen, bool_decide_eq_true_2 in Hrun. }
  destruct (Fallback._claim settings ModeConfigured now) as [configured|e] eqn:Hc.
  - destruct (Fallback._claim settings ModeBootstrap now) as [bootstrap|e] eqn:Hb.
    + destruct (dispatch_returns notifier clock settings now configured bootstrap d Hok Hen Hpr Hc Hb) as (xs & rows & Hd & _).
      by rewrite Hrun in Hd.
    + unfold dispatch in Hrun. rewrite Hen, bool_decide_eq_false_2, Hb in Hrun by done. by rewrite Hc in Hrun.
  - unfold dispatch in Hrun. by rewrite Hen, bool_decide_eq_false_2, Hc in Hrun.
Qed.
End Frames.

(** ** The row of an owner *)

Section Runs.
Context {U : Unicode} {T : CharTables}.
Context (dump_json : SituationEvidence → text) (parse_datetime : text → option Z).
Context (tz : tzinfo) (detectors : DetectorSettings).
Context {W : Type} {A : SourceAccess W}.
Context (notifier : list FallbackDispatch → NotificationPayload → option NotificationErrorCode).
Context (settings : FallbackSettings).
Context (pid : Z) (owner_token : text).

Abbreviation run_pass := (_run_pass dump_json parse_datetime tz detectors notifier settings owner_token).
Abbreviation run_once := (run_once dump_json parse_datetime tz detectors notifier settings pid owner_token).
Abbreviation claim := (_claim (W := W) pid owner_token).
Abbreviation release := (_release (W := W) owner_token).

(** This run owns the running row [r]. *)
Definition owned (d : db) (r : daemon_row) : Prop :=
  daemon_status d = Some r ∧ Daemon.running r && Daemon.owns owner_token r = true.

Lemma update_owned_run f d r :
  owned d r → Daemon.update_owned owner_token f d = (Ok tt, set_daemon_status (Some (f r)) d).
Proof. intros [Hr Ho]. unfold Daemon.update_owned, immediate_transaction. step. by rewrite Hr, Ho. Qed.

Lemma phase_failure {B} kind (m : daemon W B) s e s' :
  run_daemon_phase kind m s = (Err e, s') → ∃ k, e = DaemonFailureError k.
Proof. unfold run_daemon_phase. destruct (m s) as [[b|[k|x]] s1]; intros [= <- _]; eauto. Qed.
Lemma phase_ok {B} kind (m : daemon W B) s b s' :
  run_daemon_phase kind m s = (Ok b, s') → m s = (Ok b, s').
Proof. unfold run_daemon_phase. by destruct (m s) as [[c|[k|x]] s1]. Qed.
#[export] Instance phase_preserves {B} (Q : relation (W * db)) kind (m : daemon W B) :
  Preserves Q m → Preserves Q (run_daemon_phase kind m).
Proof.
  intros Hm s r s'. unfold run_daemon_phase. destruct (m s) as [[b|[k|x]] s1] eqn:Hs; intros [= _ <-]; by apply (Hm _ _ _ Hs).
Qed.
#[export] Instance on_pass_preserves {B} (Q : relation (W * db)) (m : pass W B) :
  Preserves Q m → Preserves Q (on_pass m).
Proof. intros Hm s r s'. unfold on_pass. destruct (m s) as [[b|x] s1] eqn:Hs; intros [= _ <-]; by apply (Hm _ _ _ Hs). Qed.
#[export] Instance stored_preserves {B} (m : op B) : Preserves liveness_kept m → Preserves (on_db liveness_kept) (stored m : daemon W B).
Proof. intros Hm. unfold stored. apply _. Qed.

Lemma daemon_sources_keep k : Preserves (on_db liveness_kept) (daemon_sources parse_datetime k : daemon W SourceOutcome).
Proof.
  unfold daemon_sources, scheduled_sources. apply phase_preserves, on_pass_preserves.
  apply preserves_bind; [apply _..|]. intros states. destruct (_authorization_skip states); [apply _|].
  apply db_read; apply _.
Qed.

(** A pass beats once when it completes and leaves the row alone when it fails; it raises
    nothing but a daemon failure. *)
Lemma run_pass_cases env w d r res w' d' :
  owned d r → run_pass env (w, d) = (res, (w', d')) →
  match res with
  | Ok p => existsb is_failed (dp_notifications p) = false ∧
      storage_unavailable (ep_sources (dp_evaluation p)) = false ∧
      ∃ r', owned d' r' ∧ dm_cycle_count r' = dm_cycle_count r + 1 ∧ dm_mode r' = dm_mode r ∧
        dm_heartbeat_at r' = utc_iso (pe_heartbeat env)
  | Err (DaemonFailureError _) => daemon_status d' = Some r
  | Err (OtherError _) => False
  end.
Proof.
  intros [Hrow Hown]. unfold _run_pass.
  assert (Preserves (on_db liveness_kept) (run_daemon_phase EVALUATION_FAILED
    (Evaluation.run_once (daemon_sources parse_datetime (pe_read env) : daemon W SourceOutcome)
      (λ inputs, stored (evaluate dump_json parse_datetime tz detectors (pe_engine env) (pe_memory env) inputs))))) as Hev.
  { apply phase_preserves. unfold Evaluation.run_once. apply preserves_bind; [apply _|apply daemon_sources_keep|].
    intros [inputs|reason]; apply _. }
  assert (Preserves (on_db liveness_kept) (run_daemon_phase NOTIFICATION_FAILED
    (stored (dispatch_all notifier settings (pe_notified env) (pe_notify env)) : daemon W _))) as Hno by apply _.
  unfold mbind at 1, M_bind at 1. destruct (run_daemon_phase EVALUATION_FAILED _ (w, d)) as [[evaluation|e] [w1 d1]] eqn:H1.
  2: { intros [= <- <- <-]. pose proof (phase_failure _ _ _ _ _ H1) as [kind ->]. apply Hev in H1. by rewrite <- Hrow. }
  apply Hev in H1. unfold on_db, unchanged in H1. cbn [snd] in H1.
  destruct (storage_unavailable _) eqn:Hstore; [intros [= <- <- <-]; by rewrite H1|].
  unfold mbind at 1, M_bind at 1. destruct (run_daemon_phase NOTIFICATION_FAILED _ (w1, d1)) as [[xs|e] [w2 d2]] eqn:H2.
  2: { intros [= <- <- <-]. pose proof (phase_failure _ _ _ _ _ H2) as [kind ->]. apply Hno in H2.
       unfold on_db, unchanged in H2. cbn [snd] in H2. by rewrite H2, H1. }
  apply Hno in H2. unfold on_db, unchanged in H2. cbn [snd] in H2.
  destruct (existsb is_failed xs) eqn:Hfailed; [intros [= <- <- <-]; by rewrite H2, H1|].
  assert (owned d2 r) as Hown2 by (split; [by rewrite H2, H1|done]).
  unfold mbind, M_bind, run_daemon_phase, stored, on_pass, on_store, Daemon.record_heartbeat. cbn [fst snd].
  rewrite (update_owned_run _ _ _ Hown2). intros [= <- <- <-]. split; [done|]. split; [done|].
  eexists. split; [split; [done|]|done]. apply andb_true_iff in Hown as [_ Ho]. unfold Daemon.running.
  cbn. by rewrite bool_decide_eq_true_2.
Qed.

Lemma start_writes ts iv r0 m d :
  m = Daemon._INSERT_START owner_token pid ts iv ∨ m = Daemon._REPLACE_START owner_token pid ts iv r0 →
  (∃ e, m d = (Err e, d)) ∨
  ∃ r, m d = (Ok tt, set_daemon_status (Some r) d) ∧ Daemon.running r && Daemon.owns owner_token r = true ∧ dm_cycle_count r = 0.
Proof.
  intros [-> | ->]; unfold Daemon._INSERT_START, Daemon._REPLACE_START; destruct (pid <=? 0);
    [left; by eexists|right|left; by eexists|right];
    (eexists; split; [done|split; [|done]]); unfold Daemon.running, Daemon.owns; cbn; by rewrite !bool_decide_eq_true_2.
Qed.
(** Claiming: refused without a trace, or the row is this run's; a new row counts from zero. *)
Lemma try_start_cases now interval alive d res d' :
  Daemon.try_record_start owner_token now pid interval alive d = (res, d') →
  (d' = d ∧ ((∃ e, res = Err e) ∨ res = Ok false)) ∨
  (res = Ok true ∧ ∃ r, owned d' r ∧ (d' = d ∨ dm_cycle_count r = 0)).
Proof.
  assert (∀ ts iv r0 m, m = Daemon._INSERT_START owner_token pid ts iv ∨ m = Daemon._REPLACE_START owner_token pid ts iv r0 →
    (let (r, s') := (m;; mret true) d in match r with Ok a => (Ok a, s') | Err e => (Err e, d) end) = (res, d') →
    (d' = d ∧ ((∃ e, res = Err e) ∨ res = Ok false)) ∨
    (res = Ok true ∧ ∃ r, owned d' r ∧ (d' = d ∨ dm_cycle_count r = 0))) as Hstart.
  { intros ts iv r0 m Hm. destruct (start_writes ts iv r0 m d Hm) as [(e & Hrun)|(r & Hrun & Ho & Hc)];
      unfold mbind, M_bind; rewrite Hrun; intros [= <- <-]; [left; eauto|right].
    split; [done|]. exists r. split; [by split|by right]. }
  unfold Daemon.try_record_start, Daemon._interval_seconds.
  destruct (match interval with Some p => p <=? 0 | None => false end) eqn:Hp.
  { destruct interval as [p|]; [|done]. rewrite Hp, raise_bind. intros [= <- <-]. left. eauto. }
  assert ((match interval with Some p => if p <=? 0 then raise InvalidDaemonPollIntervalError else mret (Some p)
    | None => mret None end : op (option timedelta)) = mret interval) as ->.
  { destruct interval as [p|]; [by rewrite Hp|done]. }
  rewrite mret_bind. unfold immediate_transaction. rewrite gets_bind.
  destruct (daemon_status d) as [r0|] eqn:Hrow; [|by apply (Hstart (utc_iso now) interval (mk_daemon DaemonRunning pid "" "" 0 None None None RunUnknown None None None None) _ (or_introl eq_refl))].
  destruct (Daemon.running r0 && Daemon.owns owner_token r0) eqn:Hmine.
  { intros [= <- <-]. right. split; [done|]. exists r0. split; [by split|by left]. }
  unfold mbind at 1, M_bind at 1.
  destruct ((if Daemon.running r0 then lift_time (Daemon._expired r0 now interval) else mret false) d) as [[expired|e] d1] eqn:Hexp.
  - assert (d1 = d) as ->.
    { destruct (Daemon.running r0); [|by injection Hexp]. unfold lift_time, lift in Hexp. by destruct (Daemon._expired _ _ _); injection Hexp. }
    destruct (_ && _ && _); [intros [= <- <-]; left; eauto|]. by apply (Hstart (utc_iso now) interval r0 _ (or_intror eq_refl)).
  - intros [= <- <-]. left. eauto.
Qed.
Lemma claim_cases now interval w d res w' d' :
  claim now interval (w, d) = (res, (w', d')) →
  w' = w ∧
  ((d' = d ∧ (res = Err (DaemonFailureError OWNERSHIP_CONFLICT) ∨ res = Err (DaemonFailureError HEARTBEAT_FAILED))) ∨
   (res = Ok tt ∧ ∃ r, owned d' r ∧ (d' = d ∨ dm_cycle_count r = 0))).
Proof.
  unfold _claim, mbind at 1, M_bind at 1, run_daemon_phase, stored, on_pass, on_store. cbn [fst snd].
  destruct (Daemon.try_record_start owner_token now pid interval None d) as [r d1] eqn:Hstart.
  destruct (try_start_cases _ _ _ _ _ _ Hstart) as [[-> [[e ->]| ->]]|[-> H]]; intros [= <- <- <-]; eauto 6.
Qed.

(** Releasing an owned row stops it and cannot fail. *)
Lemma release_run now w d r :
  owned d r → release now (w, d) = (Ok tt, (w, set_daemon_status (Some (set_dm_heartbeat_at (utc_iso now) (set_dm_state DaemonStopped r))) d)).
Proof.
  intros Hown. unfold _release, run_daemon_phase, stored, on_pass, on_store, Daemon.record_stop. cbn [fst snd].
  by rewrite (update_owned_run _ _ _ Hown).
Qed.
Lemma started_run mode w d r :
  owned d r → (stored (Daemon.record_run_started owner_token mode) : daemon W unit) (w, d) =
    (Ok tt, (w, set_daemon_status (Some (set_dm_mode (Some mode) r)) d)) ∧
  owned (set_daemon_status (Some (set_dm_mode (Some mode) r)) d) (set_dm_mode (Some mode) r).
Proof.
  intros Hown. unfold stored, on_pass, on_store, Daemon.record_run_started. cbn [fst snd].
  rewrite (update_owned_run _ _ _ Hown). split; [done|]. by destruct Hown.
Qed.

(** The row with a run's outcome. *)
Definition with_outcome (now : instant) (state : DaemonLastRunState) (ph : option DaemonFailurePhase)
    (code : option DaemonFailureCode) (failed_at : option text) (r : daemon_row) : daemon_row :=
  set_dm_last_completed_at (Some (utc_iso now)) (set_dm_last_failure_at failed_at
    (set_dm_last_failure_code code (set_dm_last_failure_phase ph (set_dm_last_run_state state r)))).
Lemma owned_outcome now state ph code at_ d r :
  owned d r → owned (set_daemon_status (Some (with_outcome now state ph code at_ r)) d) (with_outcome now state ph code at_ r).
Proof. by intros [_ Ho]. Qed.
Definition run_state (p : DaemonPass) : DaemonLastRunState :=
  match ep_warnings (dp_evaluation p) with [] => RunSucceeded | _ => RunDegraded end.
Lemma success_run now p w d r :
  owned d r → (_record_run_success owner_token now p : daemon W unit) (w, d) =
    (Ok tt, (w, set_daemon_status (Some (with_outcome now (run_state p) None None None r)) d)).
Proof.
  intros Hown. unfold _record_run_success, stored, on_pass, on_store, Daemon.record_run_outcome. cbn [fst snd]. fold (run_state p).
  assert (bool_decide (run_state p = RunFailed) = false ∧ bool_decide (run_state p = NeverRun) = false) as [-> ->]
    by (unfold run_state; by destruct (ep_warnings _)).
  rewrite gets_bind. cbn [andb]. by rewrite (update_owned_run _ _ _ Hown).
Qed.
Lemma failure_run failed_at now kind w d r :
  owned d r → (_record_run_failure owner_token failed_at now kind : daemon W unit) (w, d) =
    (Ok tt, (w, set_daemon_status (Some (with_outcome now RunFailed (Some (failure_phase kind)) (Some (failure_code kind))
      (Some (utc_iso failed_at)) r)) d)).
Proof.
  intros Hown. unfold _record_run_failure, stored, on_pass, on_store, Daemon.record_run_outcome. cbn [fst snd].
  rewrite (bool_decide_eq_true_2 (RunFailed = RunFailed)) by done. rewrite gets_bind.
  rewrite (bool_decide_eq_false_2 (RunFailed = NeverRun)) by done. cbn [andb].
  by rewrite (update_owned_run _ _ _ Hown).
Qed.

(** What the row tells of a pass that returned or of the failure that ended it. *)
Definition tells_success (p : DaemonPass) (row : daemon_row) : Prop :=
  dm_last_run_state row = run_state p ∧ dm_last_failure_phase row = None ∧ dm_last_failure_code row = None.
Definition tells_failure (kind : DaemonFailureKind) (row : daemon_row) : Prop :=
  dm_last_run_state row = RunFailed ∧ dm_last_failure_phase row = Some (failure_phase kind) ∧
  dm_last_failure_code row = Some (failure_code kind).

Lemma recorded_pass env w d r res w' d' :
  owned d r →
  (completed ← record_failures owner_token env (run_pass env);
   _record_run_success owner_token (pe_outcome env) completed;; mret completed) (w, d) = (res, (w', d')) →
  match res with
  | Ok p => existsb is_failed (dp_notifications p) = false ∧ storage_unavailable (ep_sources (dp_evaluation p)) = false ∧
      ∃ r', owned d' r' ∧ dm_cycle_count r' = dm_cycle_count r + 1 ∧ dm_mode r' = dm_mode r ∧ tells_success p r'
  | Err (DaemonFailureError kind) =>
      ∃ r', owned d' r' ∧ dm_cycle_count r' = dm_cycle_count r ∧ dm_mode r' = dm_mode r ∧ tells_failure kind r'
  | Err (OtherError _) => False
  end.
Proof.
  intros Hown. unfold record_failures, mbind at 1, M_bind at 1.
  destruct (run_pass env (w, d)) as [res1 [w1 d1]] eqn:Hrun. apply (run_pass_cases _ _ _ _ _ _ _ Hown) in Hrun.
  destruct res1 as [p|[kind|x]]; [| |done].
  - destruct Hrun as (Hf & Hs & r1 & Hown1 & Hc & Hm & _).
    unfold mbind, M_bind. rewrite (success_run _ _ _ _ _ Hown1). intros [= <- <- <-].
    split; [done|]. split; [done|]. eexists. split; [by apply owned_outcome|]. by repeat split.
  - assert (owned d1 r) as Hown1 by (split; [done|by destruct Hown]).
    unfold mbind, M_bind. rewrite (failure_run _ _ _ _ _ _ Hown1). intros [= <- <- <-].
    eexists. split; [by apply owned_outcome|]. by repeat split.
Qed.

(** The count a run's first pass starts from: a row that was this run's already keeps it. *)
Definition first_cycle (d : db) (cycles : Z) : Prop :=
  cycles = 0 ∨ ∃ r, owned d r ∧ dm_cycle_count r = cycles.

(** How a claimed run ends: its row is stopped, and nothing else was left running. *)
Definition stopped (now : instant) (mode : DaemonRunMode) (d : db) (row : daemon_row) : Prop :=
  daemon_status d = Some row ∧ dm_state row = DaemonStopped ∧ dm_owner_token row = Some owner_token ∧
  dm_mode row = Some mode ∧ dm_heartbeat_at row = utc_iso now.

Lemma stopped_release now mode w d r :
  owned d r → dm_mode r = Some mode →
  let row := set_dm_heartbeat_at (utc_iso now) (set_dm_state DaemonStopped r) in
  release now (w, d) = (Ok tt, (w, set_daemon_status (Some row) d)) ∧
  stopped now mode (set_daemon_status (Some row) d) row.
Proof.
  intros Hown Hm row. split; [by apply release_run|]. destruct Hown as [_ [_ Ho]%andb_true_iff].
  apply bool_decide_eq_true in Ho. by split_and!.
Qed.

(** What a single pass reports, and what its row tells. *)
Definition once_told (cycles : Z) (res : res daemon_exn DaemonPass) (row : daemon_row) : Prop :=
  match res with
  | Ok p => tells_success p row ∧ dm_cycle_count row = cycles + 1 ∧
      existsb is_failed (dp_notifications p) = false ∧ storage_unavailable (ep_sources (dp_evaluation p)) = false
  | Err (DaemonFailureError kind) => tells_failure kind row ∧ dm_cycle_count row = cycles
  | Err (OtherError _) => False
  end.

Lemma claimed_once now_stop env w d r res w' d' :
  owned d r →
  try_finally
    (completed ← record_failures owner_token env
       (stored (Daemon.record_run_started owner_token RunOnce);; run_pass env);
     _record_run_success owner_token (pe_outcome env) completed;; mret completed)
    (release now_stop) (w, d) = (res, (w', d')) →
  ∃ row, stopped now_stop RunOnce d' row ∧ once_told (dm_cycle_count r) res row.
Proof.
  intros Hown. unfold try_finally. destruct (started_run RunOnce w d r Hown) as [Hstarted Hown1].
  set (d2 := set_daemon_status (Some (set_dm_mode (Some RunOnce) r)) d) in *.
  match goal with |- context [let (_, _) := ?m (w, d) in _] =>
    assert (m (w, d) = (completed ← record_failures owner_token env (run_pass env);
      _record_run_success owner_token (pe_outcome env) completed;; mret completed) (w, d2)) as -> end.
  { unfold record_failures, mbind, M_bind. by rewrite Hstarted. }
  match goal with |- context [let (_, _) := ?x in _] => destruct x as [res1 [w2 d3]] eqn:Hrun end.
  apply (recorded_pass _ _ _ _ _ _ _ Hown1) in Hrun. destruct res1 as [p|[kind|x]]; [| |done].
  - destruct Hrun as (Hf & Hs & r' & Hown' & Hc & Hm & Ht).
    destruct (stopped_release now_stop RunOnce w2 d3 r' Hown' Hm) as [-> Hst]. intros [= <- <- <-].
    eexists. split; [exact Hst|]. by split_and!.
  - destruct Hrun as (r' & Hown' & Hc & Hm & Ht).
    destruct (stopped_release now_stop RunOnce w2 d3 r' Hown' Hm) as [-> Hst]. intros [= <- <- <-].
    eexists. split; [exact Hst|]. by split_and!.
Qed.

(** C11. A single pass either is refused without a trace, because another instance holds the row or
    the row cannot be claimed, or ends with the row stopped and telling exactly what happened:
    succeeded or degraded as the pass gave warnings or not, one more cycle, and no failed
    notification; or failed with the phase and code of the failure that is raised.  Nothing but
    a daemon failure is ever raised. *)
Theorem single_runs_are_recorded now_claim now_stop env w d res w' d' :
  run_once now_claim now_stop env (w, d) = (res, (w', d')) →
  (w' = w ∧ d' = d ∧
     (res = Err (DaemonFailureError OWNERSHIP_CONFLICT) ∨ res = Err (DaemonFailureError HEARTBEAT_FAILED))) ∨
  ∃ row cycles, stopped now_stop RunOnce d' row ∧ first_cycle d cycles ∧ once_told cycles res row.
Proof.
  unfold Watcher.run_once, mbind at 1, M_bind at 1. destruct (claim now_claim None (w, d)) as [rc [w1 d1]] eqn:Hclaim.
  apply claim_cases in Hclaim as [-> [[-> [-> | ->]]|[-> (r & Hown & Hcount)]]];
    [intros [= <- <- <-]; left; eauto|intros [= <- <- <-]; left; eauto|].
  intros (row & Hst & Ht)%(claimed_once _ _ _ _ _ _ _ _ Hown). right. exists row, (dm_cycle_count r).
  split; [done|]. split; [|done]. destruct Hcount as [-> | ->]; [right; by exists r|by left].
Qed.

(** *** The loop *)

Section Loop.
Context (envs : nat → pass_env) (wait : nat → timedelta → bool).
Abbreviation watch := (watch dump_json parse_datetime tz detectors notifier settings owner_token envs wait).
Abbreviation run_forever := (run_forever dump_json parse_datetime tz detectors notifier settings pid owner_token envs wait).

(** What a loop of passes reports, and what its row tells. *)
Definition loop_told (fuel : nat) (cycles passes : Z) (res : res daemon_exn (option DaemonRun)) (row : daemon_row) : Prop :=
  match res with
  | Ok (Some run) => 1 ≤ run_pass_count run - passes ∧ dm_cycle_count row = cycles + (run_pass_count run - passes) ∧
      dm_last_run_state row ≠ RunFailed
  | Ok None => dm_cycle_count row = cycles + Z.of_nat fuel
  | Err (DaemonFailureError kind) => tells_failure kind row ∧ cycles ≤ dm_cycle_count row < cycles + Z.of_nat fuel
  | Err (OtherError _) => False
  end.

Lemma watch_cases fuel n interval passes notes w d r res w' d' :
  owned d r → watch fuel n interval passes notes (w, d) = (res, (w', d')) →
  ∃ r', owned d' r' ∧ dm_mode r' = dm_mode r ∧ loop_told fuel (dm_cycle_count r) passes res r'.
Proof.
  revert n passes notes w d r. induction fuel as [|fuel IH]; intros n passes notes w d r Hown; cbn [Watcher.watch].
  { intros [= <- <- <-]. exists r. split_and!; [by destruct Hown..|done|]. simpl. lia. }
  set (env := envs n). unfold mbind at 1, M_bind at 1.
  assert (Hrec := recorded_pass env w d r). unfold mbind at 1, M_bind at 1 in Hrec.
  destruct (record_failures owner_token env (run_pass env) (w, d)) as [[p|e] [w1 d1]].
  - destruct ((_record_run_success owner_token (pe_outcome env) p;; mret p) (w1, d1)) as [res2 [w2 d2]] eqn:Hsucc.
    specialize (Hrec _ _ _ Hown eq_refl). unfold mbind, M_bind in Hsucc. unfold mbind at 1, M_bind at 1.
    destruct (_record_run_success owner_token (pe_outcome env) p (w1, d1)) as [[[]|e] [w3 d3]].
    + injection Hsucc as <- <- <-. destruct Hrec as (_ & _ & r1 & Hown1 & Hc & Hm & Hst & _).
      destruct (wait n _).
      * intros (r2 & Hown2 & Hm2 & Ht)%(IH _ _ _ _ _ _ Hown1). exists r2. split; [done|].
        split; [by rewrite Hm2, Hm|]. unfold loop_told in *. rewrite Hc in Ht.
        destruct res as [[run|]|[kind|x]]; [|lia| |done].
        -- destruct Ht as (? & ? & ?). split_and!; [lia|lia|done].
        -- destruct Ht as [? ?]. split; [done|lia].
      * intros [= <- <- <-]. exists r1. split; [done|]. split; [done|]. cbn.
        split_and!; [lia|lia|]. rewrite Hst. unfold run_state. by destruct (ep_warnings _).
    + injection Hsucc as <- <- <-. intros [= <- <- <-]. destruct e as [kind|x]; [|done].
      destruct Hrec as (r1 & Hown1 & Hc & Hm & Ht). exists r1. split_and!; [by destruct Hown1..|done|]. cbn.
      split; [done|lia].
  - specialize (Hrec _ _ _ Hown eq_refl). intros [= <- <- <-]. destruct e as [kind|x]; [|done].
    destruct Hrec as (r1 & Hown1 & Hc & Hm & Ht). exists r1. split_and!; [by destruct Hown1..|done|]. cbn.
    split; [done|lia].
Qed.

Lemma claimed_forever fuel now_stop interval w d r res w' d' :
  owned d r →
  try_finally (stored (Daemon.record_run_started owner_token RunContinuous);; watch fuel 0 interval 0 0)
    (release now_stop) (w, d) = (res, (w', d')) →
  ∃ row, stopped now_stop RunContinuous d' row ∧ loop_told fuel (dm_cycle_count r) 0 res row.
Proof.
  intros Hown. unfold try_finally. destruct (started_run RunContinuous w d r Hown) as [Hstarted Hown1].
  set (d2 := set_daemon_status (Some (set_dm_mode (Some RunContinuous) r)) d) in *.
  unfold mbind at 1, M_bind at 1. rewrite Hstarted.
  destruct (watch fuel 0 interval 0 0 (w, d2)) as [res1 [w2 d3]] eqn:Hrun.
  apply (watch_cases _ _ _ _ _ _ _ _ _ _ _ Hown1) in Hrun as (r' & Hown' & Hm & Ht).
  destruct (stopped_release now_stop RunContinuous w2 d3 r' Hown' Hm) as [-> Hst]. intros [= <- <- <-].
  eexists. split; [exact Hst|]. destruct res1 as [[run|]|[kind|x]]; done.
Qed.

(** C25. A continuous run is refused without a trace or ends, whatever ends it, with the row
    stopped; the row counts one cycle per completed pass, as the run reports; a run that fails
    tells the phase and code of the failure that is raised. *)
Theorem continuous_runs_are_recorded fuel now_claim now_stop interval w d res w' d' :
  run_forever fuel now_claim now_stop interval (w, d) = (res, (w', d')) →
  (w' = w ∧ d' = d ∧
     (res = Err (DaemonFailureError OWNERSHIP_CONFLICT) ∨ res = Err (DaemonFailureError HEARTBEAT_FAILED))) ∨
  ∃ row cycles, stopped now_stop RunContinuous d' row ∧ first_cycle d cycles ∧ loop_told fuel cycles 0 res row.
Proof.
  unfold Watcher.run_forever, mbind at 1, M_bind at 1. destruct (claim now_claim (Some interval) (w, d)) as [rc [w1 d1]] eqn:Hclaim.
  apply claim_cases in Hclaim as [-> [[-> [-> | ->]]|[-> (r & Hown & Hcount)]]];
    [intros [= <- <- <-]; left; eauto|intros [= <- <- <-]; left; eauto|].
  intros (row & Hst & Ht)%(claimed_forever _ _ _ _ _ _ _ _ _ Hown). right. exists row, (dm_cycle_count r).
  split; [done|]. split; [|done]. destruct Hcount as [-> | ->]; [right; by exists r|by left].
Qed.

Lemma watch_ends fuel n m interval passes notes s :
  (n ≤ m < n + fuel)%nat → (∀ delay, wait m delay = false) → (watch fuel n interval passes notes s).1 ≠ Ok None.
Proof.
  intros Hm Hstop. revert n passes notes s Hm. induction fuel as [|fuel IH]; intros n passes notes s Hm; [lia|].
  cbn [Watcher.watch]. unfold mbind at 1, M_bind at 1.
  destruct (record_failures _ _ _ s) as [[p|e] s1]; [|done]. unfold mbind, M_bind.
  destruct (_record_run_success _ _ _ s1) as [[[]|e] s2]; [|done].
  destruct (decide (n = m)) as [->|Hne]; [by rewrite Hstop|]. destruct (wait n _); [apply IH; lia|done].
Qed.

(** C26. A continuous run ends once the scheduler stops waiting: fuel beyond that pass is enough. *)
Theorem continuous_runs_end fuel now_claim now_stop interval m s :
  (m < fuel)%nat → (∀ delay, wait m delay = false) →
  (run_forever fuel now_claim now_stop interval s).1 ≠ Ok None.
Proof.
  intros Hm Hstop. unfold Watcher.run_forever, mbind at 1, M_bind at 1.
  destruct (claim now_claim (Some interval) s) as [[[]|e] s1]; [|done]. unfold try_finally, mbind, M_bind.
  destruct (stored (Daemon.record_run_started owner_token RunContinuous) s1) as [[[]|e] s2].
  - pose proof (watch_ends fuel 0 m interval 0 0 s2) as Hend.
    destruct (watch fuel 0 interval 0 0 s2) as [res s3]. cbn [fst] in Hend.
    destruct (release now_stop s3) as [[[]|e] s4]; [|done]. apply Hend; [lia|done].
  - by destruct (release now_stop s2) as [[[]|e'] s3].
Qed.

(** *** The command *)

Context (process_is_alive : Z → bool) (notify_service_ready : bool).
Abbreviation run_daemon := (run_daemon dump_json parse_datetime tz detectors notifier settings pid owner_token envs wait
  process_is_alive notify_service_ready).

Lemma claim_owned now interval w d r :
  owned d r → match interval with Some p => 0 < p | None => True end →
  claim now interval (w, d) = (Ok tt, (w, d)).
Proof.
  intros [Hrow Hown] Hint. unfold _claim, mbind at 1, M_bind at 1, run_daemon_phase, stored, on_pass, on_store. cbn [fst snd].
  assert (Daemon.try_record_start owner_token now pid interval None d = (Ok true, d)) as ->; [|done].
  unfold Daemon.try_record_start, Daemon._interval_seconds, immediate_transaction.
  destruct interval as [p|]; [rewrite (proj2 (Z.leb_gt _ _) Hint)|]; rewrite mret_bind, gets_bind, Hrow, Hown; done.
Qed.
Lemma owned_once now_claim now_stop env w d r res w' d' :
  owned d r → run_once now_claim now_stop env (w, d) = (res, (w', d')) →
  ∃ row, stopped now_stop RunOnce d' row ∧ once_told (dm_cycle_count r) res row.
Proof.
  intros Hown. unfold Watcher.run_once. rewrite (bind_run _ _ _ _ _ (claim_owned now_claim None w d r Hown I)).
  by apply claimed_once.
Qed.
Lemma owned_forever fuel now_claim now_stop interval w d r res w' d' :
  owned d r → 0 < interval → run_forever fuel now_claim now_stop interval (w, d) = (res, (w', d')) →
  ∃ row, stopped now_stop RunContinuous d' row ∧ loop_told fuel (dm_cycle_count r) 0 res row.
Proof.
  intros Hown Hint. unfold Watcher.run_forever.
  rewrite (bind_run _ _ _ _ _ (claim_owned now_claim (Some interval) w d r Hown Hint)). by apply claimed_forever.
Qed.
Lemma stopped_not_owned now mode d row : stopped now mode d row → ∀ r, ¬ owned d r.
Proof.
  intros (Hrow & Hst & _) r [Hr [Hrun _]%andb_true_iff]. rewrite Hrow in Hr. injection Hr as <-.
  apply bool_decide_eq_true in Hrun. congruence.
Qed.

(** C24. Whatever the command does, the process leaves no running row of its own behind, no
    exception escapes the exit statuses, and status 0 means that the last pass of the row did
    not fail. *)
Theorem commands_release_the_row once fuel now_first now_claim now_stop interval w d res w' d' :
  (∀ r, ¬ owned d r) →
  run_daemon once fuel now_first now_claim now_stop interval (w, d) = (res, (w', d')) →
  (∀ r, ¬ owned d' r) ∧ is_Some (exit_status res) ∧
  (exit_status res = Some (Some 0) → ∃ row, daemon_status d' = Some row ∧ dm_state row = DaemonStopped ∧
     dm_last_run_state row ≠ RunFailed).
Proof.
  intros Hnew. unfold Watcher.run_daemon, mbind at 1, M_bind at 1. unfold run_daemon_phase at 1, stored at 1, on_pass at 1, on_store at 1.
  cbn [fst snd]. destruct (Daemon.try_record_start owner_token now_first pid (Some interval) (Some process_is_alive) d) as [r1 d1] eqn:Hstart.
  assert (r1 = Ok true → 0 < interval) as Hint.
  { intros ->. unfold Daemon.try_record_start, Daemon._interval_seconds in Hstart.
    destruct (Z.leb_spec interval 0); [done|lia]. }
  destruct (try_start_cases _ _ _ _ _ _ Hstart) as [[-> [[e ->]| ->]]|[-> (r & Hown & _)]].
  { intros [= <- <- <-]. split_and!; [done|by eexists|done]. }
  { intros [= <- <- <-]. split_and!; [done|by eexists|done]. }
  specialize (Hint eq_refl). cbn [negb]. destruct once; [|destruct notify_service_ready].
  - unfold mbind, M_bind. destruct (run_once now_claim now_stop (envs 0) (w, d1)) as [res2 [w2 d2]] eqn:Hrun.
    apply (owned_once _ _ _ _ _ _ _ _ _ Hown) in Hrun as (row & Hst & Ht).
    destruct res2 as [p|[kind|x]]; [| |done]; intros [= <- <- <-]; (split; [by eapply stopped_not_owned|]);
      (split; [by eexists|]).
    + intros _. exists row. destruct Hst as (Hrow & Hs & _), Ht as ((Hl & _) & _). split_and!; [done..|].
      rewrite Hl. unfold run_state. by destruct (ep_warnings _).
    + by destruct kind.
  - unfold mbind, M_bind. destruct (run_forever fuel now_claim now_stop interval (w, d1)) as [res2 [w2 d2]] eqn:Hrun.
    apply (owned_forever _ _ _ _ _ _ _ _ _ _ Hown Hint) in Hrun as (row & Hst & Ht).
    destruct res2 as [[run|]|[kind|x]]; [| | |done]; intros [= <- <- <-]; (split; [by eapply stopped_not_owned|]);
      (split; [by eexists|]).
    + intros _. exists row. destruct Hst as (Hrow & Hs & _), Ht as (_ & _ & Hl). by split_and!.
    + done.
    + by destruct kind.
  - destruct (started_run RunContinuous w d1 r Hown) as [Hstarted Hown1].
    unfold try_finally, mbind, M_bind, run_daemon_phase at 1. rewrite Hstarted.
    set (d2 := set_daemon_status _ d1) in *.
    pose proof (failure_run (pe_failed (envs 0)) (pe_outcome (envs 0)) SERVICE_NOTIFY_FAILED w d2 _ Hown1) as Hfail.
    unfold run_daemon_phase at 1. unfold _record_run_failure in Hfail. rewrite Hfail.
    pose proof (owned_outcome (pe_outcome (envs 0)) RunFailed (Some (failure_phase SERVICE_NOTIFY_FAILED))
      (Some (failure_code SERVICE_NOTIFY_FAILED)) (Some (utc_iso (pe_failed (envs 0)))) d2 _ Hown1) as Hown2.
    destruct (stopped_release now_stop RunContinuous w _ _ Hown2 eq_refl) as [Hrel Hst]. unfold _release in Hrel.
    rewrite Hrel. intros [= <- <- <-]. split_and!; [by eapply stopped_not_owned|by eexists|done].
Qed.
End Loop.
End Runs.

(** ** Concrete runs *)

#[local] Existing Instance sample_access.
Definition sample_env : pass_env :=
  mk_pass_env engine_now sample_read_clock (engine_clock engine_now) empty_memory (engine_now + 2)
    (λ earlier, engine_now + 3 + Z.of_nat (length earlier)) (engine_now + 10) (engine_now + 11) (engine_now + 12)
    (engine_now + 13).
Definition sample_notifier (_ : list FallbackDispatch) (_ : NotificationPayload) : option NotificationErrorCode := None.
Definition sample_fallback : FallbackSettings := mk_fallback_settings [Critical] (30 * US_PER_MINUTE) true.
Abbreviation sample_once := (
  run_once (U := ascii_unicode) (T := hangul_tables) (λ _, ""%string) fromisoformat UTC default_detectors sample_notifier
    sample_fallback 4242 "watcher" (engine_now - 1) (engine_now + 14) sample_env (pass_world, pass_db)).
(** Two passes, after which the scheduler is stopped. *)
Definition sample_wait (n : nat) (_ : timedelta) : bool := (n =? 0)%nat.
Abbreviation sample_forever := (
  run_forever (U := ascii_unicode) (T := hangul_tables) (λ _, ""%string) fromisoformat UTC default_detectors sample_notifier
    sample_fallback 4242 "watcher" (λ _, sample_env) sample_wait 5 (engine_now - 1) (engine_now + 14)
    (5 * US_PER_MINUTE) (pass_world, pass_db)).
Abbreviation sample_command once ready := (
  run_daemon (U := ascii_unicode) (T := hangul_tables) (λ _, ""%string) fromisoformat UTC default_detectors sample_notifier
    sample_fallback 4242 "watcher" (λ _, sample_env) sample_wait (λ _, true) ready once 5 (engine_now - 2) (engine_now - 1)
    (engine_now + 14) (5 * US_PER_MINUTE) (pass_world, pass_db)).
Definition final_row {X} (r : X * (google_world * db)) : daemon_row :=
  default (mk_daemon DaemonStopped 1 "" "" 0 None None None NeverRun None None None None) (daemon_status r.2.2).

Example sample_forever_result :
  (match sample_forever.1 with Ok (Some run) => run_pass_count run | _ => 0 end,
   dm_cycle_count (final_row sample_forever), dm_last_run_state (final_row sample_forever)) =
  (2, 2, RunSucceeded).
Proof. vm_compute. reflexivity. Qed.
Example command_statuses :
  (exit_status (sample_command true true).1, exit_status (sample_command false true).1, exit_status (sample_command false false).1) =
  (Some (Some 0), Some (Some 0), Some (Some 1)).
Proof. vm_compute. reflexivity. Qed.

Lemma run_split {X Y Z} (x : X * (Y * Z)) : x = (x.1, (x.2.1, x.2.2)).
Proof. by destruct x as [? [? ?]]. Qed.
Lemma single_runs_are_recorded_witness :
  ∃ row cycles, stopped "watcher" (engine_now + 14) RunOnce sample_once.2.2 row ∧
    first_cycle "watcher" pass_db cycles ∧ once_told cycles sample_once.1 row.
Proof.
  pose proof (run_split (sample_once)) as Hrun. apply single_runs_are_recorded in Hrun as [(_ & _ & [H|H])|H]; [| |exact H].
  - exfalso. revert H. vm_compute. discriminate.
  - exfalso. revert H. vm_compute. discriminate.
Defined.
Lemma continuous_runs_are_recorded_witness :
  ∃ row cycles, stopped "watcher" (engine_now + 14) RunContinuous sample_forever.2.2 row ∧
    first_cycle "watcher" pass_db cycles ∧ loop_told 5 cycles 0 sample_forever.1 row.
Proof.
  pose proof (run_split (sample_forever)) as Hrun. apply continuous_runs_are_recorded in Hrun as [(_ & _ & [H|H])|H]; [| |exact H].
  - exfalso. revert H. vm_compute. discriminate.
  - exfalso. revert H. vm_compute. discriminate.
Defined.
Lemma continuous_runs_end_witness : sample_forever.1 ≠ Ok None.
Proof. apply (continuous_runs_end) with (m := 1%nat); [lia|reflexivity]. Defined.
Lemma commands_release_the_row_witness :
  exit_status (sample_command true true).1 = Some (Some 0) ∧
  ∃ row, daemon_status (sample_command true true).2.2 = Some row ∧ dm_state row = DaemonStopped ∧ dm_last_run_state row ≠ RunFailed.
Proof.
  assert (exit_status (sample_command true true).1 = Some (Some 0)) as Hstatus by (vm_compute; reflexivity).
  split; [exact Hstatus|].
  pose proof (run_split (sample_command true true)) as Hrun. apply commands_release_the_row in Hrun as (_ & _ & H); [exact (H Hstatus)|].
  intros r [H _]. discriminate H.
Defined.
