(* ===== verification/Commands.v ===== *)
(** The command line ([cli/__init__.py], [cli/process_liveness.py], the command side of [cli/daemon.py]):
    whether a process lives, the readiness signals, the setup command around its questions, and the
    exit code of every command. *)
From Stdlib Require Import Ascii.
From S2P Require Import Prelude Runs PyDate PyTime Durations Models SourceSync Memory DeadlineText SystemdUnit Paths Fallback Responses Runtime Config Engine GoogleSync Evaluation Status Services TaskDefinition Service Wizard Watcher.
Import SourceSync.Freshness.
#[local] Open Scope Z_scope.

(** ** Process liveness *)

Definition ERROR_ACCESS_DENIED : Z := 5.
Definition PROCESS_QUERY_LIMITED_INFORMATION : Z := 4096.
Definition STILL_ACTIVE : Z := 259.
(** [WindowsPidApi] over the bindings of kernel32: a handle (0: failure), the exit code ([None]: the
    query failed), and [GetLastError]. *)
Class WindowsPidApi (W : Type) := {
  open_process : Z → Z → Z → W → Z * W;
  get_exit_code_process : Z → W → option Z * W;
  close_handle : Z → W → Z * W;
  get_last_error : W → Z;
}.
(** What [os.kill(pid, 0)] raises. *)
Inductive kill_exn := ProcessLookupError | PermissionError | OtherKillError.

Section Liveness.
Context {W : Type} {A : WindowsPidApi W}.
Definition windows_pid_is_alive (pid : Z) (w : W) : bool * W :=
  let '(handle, w) := open_process PROCESS_QUERY_LIMITED_INFORMATION 0 pid w in
  if handle =? 0 then (get_last_error w =? ERROR_ACCESS_DENIED, w) else
  let '(exit_code, w) := get_exit_code_process handle w in
  let alive := match exit_code with None => true | Some code => code =? STILL_ACTIVE end in
  let '(_, w) := close_handle handle w in
  (alive, w).
(** [probe]: the outcome of [os.kill(pid, 0)]. *)
Definition _posix_pid_is_alive (probe : res kill_exn unit) : res kill_exn bool :=
  match probe with
  | Ok _ => Ok true
  | Err ProcessLookupError => Ok false
  | Err PermissionError => Ok true
  | Err e => Err e
  end.
Definition process_is_alive (platform : text) (probe : Z → res kill_exn unit) (pid : Z) (w : W) : res kill_exn bool * W :=
  if bool_decide (platform = "win32"%string)
  then let '(alive, w) := windows_pid_is_alive pid w in (Ok alive, w)
  else (_posix_pid_is_alive (probe pid), w).

(** A probe opens at most one handle and closes it. *)
Lemma probes_close_their_handle (handles : W → list Z) pid w b w' :
  (∀ a i p w h w', open_process a i p w = (h, w') → handles w' = (if h =? 0 then [] else [h]) ++ handles w) →
  (∀ h w c w', get_exit_code_process h w = (c, w') → handles w' = handles w) →
  (∀ h hs w r w', close_handle h w = (r, w') → handles w = h :: hs → handles w' = hs) →
  windows_pid_is_alive pid w = (b, w') → handles w' = handles w.
Proof.
  intros Hopen Hcode Hclose. unfold windows_pid_is_alive. destruct (open_process _ _ _ w) as [h w1] eqn:H1.
  apply Hopen in H1. destruct (h =? 0); [by intros [= _ <-]|]. destruct (get_exit_code_process h w1) as [c w2] eqn:H2.
  apply Hcode in H2. destruct (close_handle h w2) as [r w3] eqn:H3. apply (Hclose _ (handles w)) in H3; [|by rewrite H2].
  by intros [= _ <-].
Qed.
End Liveness.

(** ** The watcher command *)

Definition _MAX_POLL_MINUTES : Z := 60 * 24 * 365.
(** [float] of argparse, as a binary64 number. *)
Definition _poll_override (value : option binary64) : res config_failure (option timedelta) :=
  match value with
  | None => Ok None
  | Some x =>
    if float_in (`x) _MAX_POLL_MINUTES then t ← duration (float_span (`x) US_PER_MINUTE); Ok (Some t)
    else invalid "poll_interval_minutes" "must be a positive number of minutes"
  end.
(** Whatever number the option is given, the override is refused or a duration. *)
Lemma overrides_are_durations value t : _poll_override value = Ok (Some t) → 0 ≤ t.
Proof.
  destruct value as [x|]; [|done]. unfold _poll_override. intros H.
  assert (parse_span (Some (TomlFloat x)) "poll_interval_minutes" 0 = Ok t) as Hs.
  { cbn. change (span_maximum (unit_of "poll_interval_minutes")) with _MAX_POLL_MINUTES.
    change (unit_factor (unit_of "poll_interval_minutes")) with US_PER_MINUTE.
    destruct (float_in _ _); [|done]. by apply res_bind_ok in H as (t' & -> & [= <-]). }
  pose proof (parse_span_outcome (Some (TomlFloat x)) "poll_interval_minutes" 0) as Ho.
  rewrite Hs in Ho. apply Ho; [|lia]. unfold known_fields. set_solver.
Qed.

(** The readiness file of Task Scheduler and the socket of systemd. *)
Class ReadyHost (W : Type) := {
  environment : W → text → option text;
  current_pid : Z;
  create_exclusive : Path → text → M W service_exn unit;
  send_datagram : text → text → M W service_exn unit;
}.
Section Ready.
Context {W : Type} {R : ReadyHost W}.
(** [Path] of a text. *)
Context (path_of : text → Path).
Definition signal_task_scheduler_ready (database : Path) : M W service_exn unit :=
  configured ← gets (λ w, environment w READY_FILE_ENV);
  match configured with
  | None => mret tt
  | Some configured =>
    let expected := with_name database (name database +:+ ".service-ready") in
    if negb (bool_decide (path_of configured = expected)) then mret tt
    else create_exclusive expected (pretty current_pid)
  end.
(** A name that begins with [@] is in the abstract name space, where it begins with a NUL. *)
Definition notify_address (configured : text) : text :=
  match configured with
  | String "@" rest => String "000" rest
  | _ => configured
  end.
Definition notify_service_ready (database : Path) : M W service_exn unit :=
  signal_task_scheduler_ready database;;
  configured ← gets (λ w, environment w "NOTIFY_SOCKET");
  match configured with
  | None => mret tt
  | Some configured => send_datagram (notify_address configured) "READY=1"
  end.
End Ready.

(** One pass, as it is written to standard output. *)
Record DaemonOnceResponse := mk_once_response {
  on_created : Z;
  on_notifications : Z;
  on_gmail : SourceFreshnessStatus;
  on_gmail_diagnostics : SourceReadDiagnosticsResponse;
  on_calendar : SourceFreshnessStatus;
  on_sources : text;
  on_warning_count : Z;
}.
Definition _emit_once (completed : DaemonPass) : DaemonOnceResponse :=
  let evaluation := dp_evaluation completed in
  let result := ep_result evaluation in
  let diagnostics := default (gmail_freshness_diagnostics (er_gmail_freshness result)) (er_accepted_gmail_diagnostics result) in
  mk_once_response (er_created result) (Z.of_nat (length (dp_notifications completed))) (fr_status (er_gmail_freshness result))
    (source_read_diagnostics_response diagnostics) (fr_status (er_calendar_freshness result))
    (_source_token (ep_sources evaluation)) (Z.of_nat (length (ep_warnings evaluation))).
(** The diagnostic line of a failure and the exit status. *)
Definition _emit_diagnostic (kind : DaemonFailureKind) : DaemonDiagnosticResponse * Z :=
  (mk_daemon_diagnostic (failure_phase kind) (failure_code kind), _failure_exit_status kind).

(** ** The commands *)

Inductive Command := Serve | ServeScheduled | StatusCommand | SetupCommand | Disconnect | GoogleSmoke | DaemonCommand | ServiceCommand.
Record _CliArguments := mk_arguments {
  ca_command : Command;
  ca_client_secrets : option Path;
  ca_headless : bool;
  ca_non_interactive : bool;
  ca_reauth : bool;
  ca_confirm_real_account_read : bool;
  ca_once : bool;
  ca_poll_interval_minutes : option binary64;
  ca_service_action : ServiceAction;
}.
(** [_EXPECTED_ERRORS], the Google ones together, and the others. *)
Inductive cli_exn := GoogleExpected (message : text) | ReceiptErasurePending | WizardInput | UnsafePath | OtherCliError.
Definition expected_error (e : cli_exn) : bool := match e with OtherCliError => false | _ => true end.
Definition error_text (e : cli_exn) : text :=
  match e with
  | GoogleExpected message => message
  | ReceiptErasurePending => "receipt erasure is blocked; close older processes and retry"
  | WizardInput => _INPUT_ERROR_MESSAGE
  | UnsafePath => "database path is unsafe; choose a private user-owned directory and retry"
  | OtherCliError => ""
  end.

(** The terminal, what was written to standard error, and the rest of the process. *)
Record cli_state H := mk_cli_state { cs_terminal : terminal; cs_stderr : list text; cs_host : H }.
Arguments mk_cli_state {_}.
Arguments cs_terminal {_}.
Arguments cs_stderr {_}.
Arguments cs_host {_}.

Record SetupOptions := mk_cli_options { cli_client_secrets : Path; cli_reauth : bool; cli_headless : bool }.
(** The collaborators of the commands, which other files model, over the rest of the process. *)
Class CliHost (H : Type) := {
  client_secrets_env : H → option Path;
  database_path : M H cli_exn Path;
  configure_google_sources : Path → SetupOptions → M H cli_exn unit;
  disconnect_google_sources : Path → M H cli_exn unit;
  run_google_read_smoke : Path → bool → M H cli_exn GoogleReadSummary;
  cli_execute_service : ServiceAction → M H cli_exn ServiceCommandResult;
  cli_run_service : ServiceAction → M H cli_exn Z;
  cli_run_daemon : bool → option binary64 → M H cli_exn Z;
  serve : bool → M H cli_exn unit;
  build_status_json : M H cli_exn text;
  setup_notification : M H cli_exn (option NotificationErrorCode);
}.

(** Redacted counts and normalized codes. *)
Record _GoogleSmokeSourceResponse := mk_smoke_source { sm_count : Z; sm_error_code : option SourceErrorCode }.
(** The fields of a source, and the diagnostics. *)
Record _GoogleSmokeGmailResponse := mk_smoke_gmail {
  sg_source : _GoogleSmokeSourceResponse;
  sg_diagnostics : SourceReadDiagnosticsResponse;
}.
Record _GoogleSmokeResponse := mk_smoke {
  sm_gmail : _GoogleSmokeGmailResponse;
  sm_calendar : _GoogleSmokeSourceResponse;
  sm_credential_cleanup_failed : bool;
}.
Definition _smoke_response (summary : GoogleReadSummary) : _GoogleSmokeResponse :=
  mk_smoke (mk_smoke_gmail (mk_smoke_source (gsm_gmail_count summary) (gsm_gmail_error_code summary))
      (source_read_diagnostics_response (gsm_gmail_diagnostics summary)))
    (mk_smoke_source (gsm_calendar_count summary) (gsm_calendar_error_code summary))
    (gsm_credential_cleanup_failed summary).

Section Cli.
Context {H : Type} {C : CliHost H} {U : Unicode}.
(** [Path] of a text, [sys.platform], the user's name, and the JSON of the smoke response. *)
Context (path_of : text → Path) (platform user : text) (smoke_json : _GoogleSmokeResponse → text).
Abbreviation op A := (M (cli_state H) cli_exn A).

Definition on_host {A} (m : M H cli_exn A) : op A := λ s,
  let '(r, h) := m (cs_host s) in (r, mk_cli_state (cs_terminal s) (cs_stderr s) h).
Definition terminal_error (e : wizard_exn) : cli_exn :=
  match e with SetupWizardInputError => WizardInput | TerminalOSError => OtherCliError end.
Definition on_terminal {A} (m : M terminal wizard_exn A) : op A := λ s,
  let '(r, t) := m (cs_terminal s) in
  (match r with Ok a => Ok a | Err e => Err (terminal_error e) end, mk_cli_state t (cs_stderr s) (cs_host s)).
Definition to_stderr (t : text) : op unit := modify (λ s, mk_cli_state (cs_terminal s) (cs_stderr s ++ [t]) (cs_host s)).

Definition notification_code (c : NotificationErrorCode) : text :=
  match c with
  | NotifyTimeout => "timeout" | NotifyUnavailable => "unavailable"
  | NotifyFailed => "failed" | NotifyUnsupportedPlatform => "unsupported_platform"
  end.
Definition emit_interactive_setup_notification : op unit :=
  outcome ← on_host setup_notification;
  match outcome with
  | None => mret tt
  | Some code => to_stderr ("warning: setup test notification " +:+ notification_code code +:+ nl)
  end.

Definition setup_interactive (arguments : _CliArguments) : bool :=
  negb (ca_non_interactive arguments || bool_decide (is_Some (ca_client_secrets arguments)) || ca_headless arguments || ca_reauth arguments).
(** The offer to install the service; [Some]: the exit code. *)
Definition offer_service : op (option Z) :=
  consent ← on_terminal collect_service_install_consent;
  if negb consent then mret None else
  result ← on_host (cli_execute_service ActionInstall);
  if negb (scr_success result) then
    to_stderr ("error: watcher service install failed" +:+ nl);; mret (Some 2)
  else
  match human_linger_guidance user (sr_linger (scr_response result)) with
  | Some guidance => on_terminal (write (guidance +:+ nl));; mret None
  | None => mret None
  end.
Definition run_setup (arguments : _CliArguments) : op Z :=
  secrets ← gets (λ s, client_secrets_env (cs_host s));
  state ← on_host database_path;
  let defaults := mk_answers
    (resolve_setup_client_secrets_path (ca_client_secrets arguments) secrets (parent state)) (ca_headless arguments) in
  let interactive := setup_interactive arguments in
  answers ← (if negb interactive then mret defaults else on_terminal (collect_setup_wizard_answers path_of defaults));
  database ← on_host database_path;
  on_host (configure_google_sources database (mk_cli_options (client_secrets_path answers) (ca_reauth arguments) (headless answers)));;
  supported ← (if interactive then
      lift (match service_prompt_supported platform with Ok b => Ok b | Err _ => Err OtherCliError end)
    else mret false);
  exit_code ← (if supported : bool then offer_service else mret None);
  match exit_code with
  | Some code => mret code
  | None => (if interactive then emit_interactive_setup_notification else mret tt);; mret 0
  end.

Definition run_disconnect : op unit :=
  database ← on_host database_path;
  on_host (disconnect_google_sources database);;
  on_terminal (write ("{" +:+ in_quotes "google" +:+ ":" +:+ in_quotes "disconnected" +:+ "}" +:+ nl)).
Definition run_google_smoke (arguments : _CliArguments) : op unit :=
  database ← on_host database_path;
  summary ← on_host (run_google_read_smoke database (ca_confirm_real_account_read arguments));
  on_terminal (write (smoke_json (_smoke_response summary) +:+ nl)).
Definition _status : op unit := json ← on_host build_status_json; on_terminal (write (json +:+ nl)).

Definition dispatch (arguments : _CliArguments) : op Z :=
  match ca_command arguments with
  | DaemonCommand => on_host (cli_run_daemon (ca_once arguments) (ca_poll_interval_minutes arguments))
  | Disconnect => run_disconnect;; mret 0
  | Serve => on_host (serve false);; mret 0
  | ServeScheduled => on_host (serve true);; mret 0
  | ServiceCommand => on_host (cli_run_service (ca_service_action arguments))
  | StatusCommand => _status;; mret 0
  | SetupCommand => run_setup arguments
  | GoogleSmoke => run_google_smoke arguments;; mret 0
  end.
Definition main (arguments : _CliArguments) : op Z :=
  try_except (dispatch arguments) (λ e,
    if expected_error e then to_stderr ("error: " +:+ error_text e +:+ nl);; mret 2 else raise e).

(** ** What the commands promise *)

(** An expected error becomes exit code 2 with one line on standard error; any other escapes; and the
    codes of the other commands are 0 and 2, unless they are those of the watcher or the service. *)
Theorem commands_answer_with_their_codes arguments s r s' :
  main arguments s = (r, s') →
  match r with
  | Err e => expected_error e = false ∧ dispatch arguments s = (Err e, s')
  | Ok code =>
    dispatch arguments s = (Ok code, s') ∧ (code = 0 ∨ code = 2 ∨ ca_command arguments ∈ [DaemonCommand; ServiceCommand]) ∨
    ∃ e s1, dispatch arguments s = (Err e, s1) ∧ expected_error e = true ∧ code = 2 ∧
      s' = mk_cli_state (cs_terminal s1) (cs_stderr s1 ++ [("error: " +:+ error_text e +:+ nl)%string]) (cs_host s1)
  end.
Proof.
  unfold main, try_except. destruct (dispatch arguments s) as [[code|e] s1] eqn:Hd.
  - intros [= <- <-]. left. split; [done|]. revert Hd. unfold dispatch.
    destruct (ca_command arguments); try (intros _; right; right; set_solver).
    4: { unfold run_setup. intros (? & ? & _ & Hd)%bind_ok. do 4 (apply bind_ok in Hd as (? & ? & _ & Hd)).
      apply bind_ok in Hd as (supported & s2 & _ & Hd). apply bind_ok in Hd as (exit_code & s3 & Ho & Hd).
      destruct exit_code as [code'|]; [|apply bind_ok in Hd as (? & ? & _ & Hd); injection Hd as <- _; by left].
      injection Hd as <- _. destruct supported; [|done]. unfold offer_service in Ho.
      apply bind_ok in Ho as (consent & ? & _ & Ho). destruct (negb consent); [done|].
      apply bind_ok in Ho as (result & ? & _ & Ho). destruct (negb _).
      - apply bind_ok in Ho as (? & ? & _ & Ho). injection Ho as <- _. auto.
      - destruct (human_linger_guidance _ _); [apply bind_ok in Ho as (? & ? & _ & Ho)|]; done. }
    all: intros (? & ? & _ & [= <- _])%bind_ok; by left.
  - destruct (expected_error e) eqn:He; [|by intros [= <- <-]]. intros [= <- <-]. right. exists e, s1. done.
Qed.

(** Without questions, setup only configures the sources. *)
Definition configure_only (arguments : _CliArguments) : M H cli_exn Z :=
  secrets ← gets client_secrets_env;
  state ← database_path;
  database ← database_path;
  configure_google_sources database
    (mk_cli_options (resolve_setup_client_secrets_path (ca_client_secrets arguments) secrets (parent state))
       (ca_reauth arguments) (ca_headless arguments));;
  mret 0.
Lemma offer_service_kept (R : relation H) `{!PreOrder R} s r s' :
  offer_service s = (r, s') → R (cs_host s) (cs_host s') ∨ (collect_service_install_consent (cs_terminal s)).1 = Ok true.
Proof.
  unfold offer_service, mbind, M_bind, on_terminal. destruct (collect_service_install_consent _) as [[[]|e] t]; [by right|..].
  all: intros [= _ <-]; by left.
Qed.
(** Setup asks when no option answers for the user; the service is installed only after the sources
    were configured and the answer to its question was yes.  [R]: what the other collaborators keep. *)
Theorem services_are_installed_on_consent (R : relation H) arguments s r s' :
  PreOrder R → Preserves R database_path → (∀ d o, Preserves R (configure_google_sources d o)) → Preserves R setup_notification →
  run_setup arguments s = (r, s') →
  (setup_interactive arguments = false → run_setup arguments s = on_host (configure_only arguments) s) ∧
  (R (cs_host s) (cs_host s') ∨ setup_interactive arguments = true ∧
     ∃ database options h h1 t, configure_google_sources database options h = (Ok tt, h1) ∧
       (collect_service_install_consent t).1 = Ok true).
Proof.
  intros HR Hpath Hconf Hnote Hrun. split.
  { intros Hi. unfold run_setup, configure_only. rewrite Hi. cbn [negb]. unfold on_host, mbind, M_bind, gets, lift, mret, M_ret.
    cbn. destruct (database_path (cs_host s)) as [[state|e] h1]; [|done]. cbn. destruct (database_path h1) as [[database|e] h2]; [|done].
    cbn. by destruct (configure_google_sources _ _ h2) as [[[]|e] h3]. }
  revert Hrun. unfold run_setup. set (P := λ s', R (cs_host s) (cs_host s')). intros Hrun.
  assert (∀ A (m : M H cli_exn A), Preserves R m → ∀ s1 r1 s2, on_host m s1 = (r1, s2) → P s1 → P s2) as Hhost.
  { intros A m Hm s1 r1 s2. unfold on_host. destruct (m _) as [r2 h] eqn:Hh. intros [= <- <-] HP.
    unfold P in *. cbn. etrans; [exact HP|]. by apply (Hm _ _ _ Hh). }
  pattern r, s'. refine (wp_run _ _ _ _ _ Hrun _). apply wp_bind, wp_gets, wp_bind, wp_intro.
  intros r1 s1 H1%Hhost; [|done|by unfold P]. destruct r1 as [state|e]; [|by left]. cbv zeta.
  apply wp_bind. apply (wp_mono _ (λ _ s2, P s2)).
  2: { destruct (negb _); [by apply wp_ret|]. apply wp_intro. unfold on_terminal. intros r2 s2. destruct (collect_setup_wizard_answers _ _ _) as [r3 t].
    by intros [= _ <-]. }
  intros r2 s2 H2. destruct r2 as [answers|e]; [|by left]. apply wp_bind, wp_intro. intros r3 s3 H3%Hhost; [|done..].
  destruct r3 as [database|e]; [|by left]. apply wp_bind, wp_intro. intros r4 s4 Hc. pose proof (Hhost _ _ _ _ _ _ Hc H3) as H4.
  destruct r4 as [[]|e]; [|by left]. unfold on_host in Hc. destruct (configure_google_sources _ _ _) as [r5 h5] eqn:Hconfigured. injection Hc as -> <-.
  apply wp_bind. apply (wp_mono _ (λ r s5, P s5 ∧ ∀ b, r = Ok b → b = true → setup_interactive arguments = true)).
  2: { destruct (setup_interactive arguments); [by apply wp_lift|]. apply wp_ret. split; [done|]. by intros b [= <-]. }
  intros r5 s5 [H5 Hsup]. destruct r5 as [supported|e]; [|by left]. specialize (Hsup _ eq_refl).
  apply wp_bind. apply (wp_mono _ (λ _ s6, P s6 ∨ supported = true ∧ (collect_service_install_consent (cs_terminal s5)).1 = Ok true)).
  2: { destruct supported; [|by apply wp_ret; left]. apply wp_intro. intros r6 s6 [H6|H6]%(offer_service_kept R); [left|by right].
    unfold P in *. by etrans. }
  intros r6 s6 [H6|[Hs Hconsent]].
  2: { assert (setup_interactive arguments = true ∧ ∃ database options h h1 t, configure_google_sources database options h = (Ok tt, h1) ∧
      (collect_service_install_consent t).1 = Ok true) as Hdone by (split; [auto|eauto 8]).
    destruct r6 as [[code|]|e]; [apply wp_ret|apply wp_intro; intros ? ? _|]; by right. }
  destruct r6 as [[code|]|e]; [by apply wp_ret; left| |by left]. apply wp_bind. apply (wp_mono _ (λ _ s7, P s7)).
  2: { destruct (setup_interactive arguments); [|by apply wp_ret]. unfold emit_interactive_setup_notification. apply wp_bind, wp_intro.
    intros r7 s7 H7%Hhost; [|done..]. destruct r7 as [[code|]|e]; [|by apply wp_ret|done]. by apply wp_modify. }
  intros r7 s7 H7. destruct r7 as [[]|e]; [apply wp_ret|]; by left.
Qed.
End Cli.
